(* ===== verification/_CoqProject ===== *)
-Q . S2P
Prelude.v
VmeBus.v
Tsi148Regs.v
Tsi148Attr.v
Tsi148Window.v
KernelIf.v
PciIf.v
VmeMisc.v
VmeWindow.v
VmeWindowProofs.v
VmeWindowSpec.v
VmeWindowFops.v
VmeWindowProps.v
Tsi148Dma.v
Tsi148DmaProofs.v
Tsi148DmaChain.v
VmeDma.v
VmeDmaProofs.v
VmeDmaProps.v
VmeDmaSpec.v
VmeDmaLock.v
VmeIrq.v
VmeIrqProofs.v
VmeIrqSpec.v
VmeCesif.v
VmeFrame.v
VmeBridge.v
VmeBridgeSafety.v
VmeBridgeProbe.v
VmeBridgeInit.v
VmeBridgeSpec.v
MttText.v
MttIsa.v
MttObj.v
MttEmu.v
MttEmuProofs.v
MttEmuSpec.v
MttLex.v
MttAsm.v
MttLexProofs.v
MttAsmSpec.v
MttAsmProofs.v
MttAsmCorrect.v
MttAsmListing.v
MttAsmExpr.v
CdcmSem.v
CdcmSemProofs.v
CdcmSemSpec.v
CdcmSemaSpec.v
CdcmTimers.v
CtrHard.v
CtrHardProofs.v
CtrDrvr.v
CtrQueue.v
CtrIoctl.v
CtrQueueProofs.v
CtrIntr.v
CtrModule.v
CtrTables.v
CtrOps.v
CtrPtim.v
CtrSpec.v
CtrSafe.v
CtrDriver.v
CtrProps.v
VmodBus.v
VmodCarrier.v
VmodIo.v
VmodIoProofs.v
VmodVme.v
ModPci.v
VmodLunargs.v
VmodAnalog.v
VmodTtl.v
VmodTtlProofs.v
VmodCrate.v
SkelRaw.v
Skel.v
SkelProofs.v
SkelSpec.v
