(* ===== verification/Prelude.v ===== *)
(** Formal model of the HT-drivers kernel modules.

    The repository holds Linux drivers for the timing and acquisition cards of an
    accelerator control system, with their user libraries and tools.  This library models
    the six parts with logic of their own, in the order below, and proves what
    makes each of them correct.  This file is the prelude: machine integers
    ([u32], [s32], [bits], [truthy]), the state monad [M] with its weakest precondition
    [wp] and tactics [wp_step], [wp_steps], loops ([mfold]), generic
    lemmas on lists and options, and the hint databases.

    Conventions.  A function of the code is a definition of the same name, a [struct] a
    record, an [enum] of the code's own an inductive type, a C integer a [Z] with its wrap-around
    written out.  A function with effects is a computation [M S A], a function from states
    to an optional result and state: [None] is a stuck run, which stands for what C leaves
    undefined or would stop the kernel (an access outside a table, a NULL pointer, a
    lock taken twice, [BUG_ON]).  [wp m Q s] says that [m] is not stuck in [s] and its
    result satisfies [Q].  Hardware and kernel services that are not code of the repository
    are type classes with laws ([ChipIO]/[ChipLaws], [KernelIf], [PciIf]) and have instances
    that witness that the laws can hold.

    * PCI-VME bridge, [src/vmebridge/driver]

    - [VmeBus]: [vmebus.h].  [Tsi148Regs], [Tsi148Attr], [Tsi148Window], [Tsi148Dma]:
      [tsi148.h] and [tsi148.c].  [KernelIf], [PciIf]: what is used of the kernel.
    - [VmeMisc]: [vme_misc.c], bus errors.  [VmeWindow]: [vme_window.c], the window table
      and its mappings.  [VmeDma], [VmeDmaLock]: [vme_dma.c], transfers, and channels
      taken by concurrent tasks.  [VmeIrq]: [vme_irq.c].  [VmeCesif]: [vme_cesif.c], a
      client of windows and interrupts.  [VmeBridge]: [vme_bridge.c], the file operations by minor
      number, probe and removal; its state [drv_state] joins those of the others.
    - Theorems: the table describes what is allocated and the chip agrees with it, after
      every request ([VmeWindowProofs], [VmeWindowSpec], [VmeWindowFops],
      [VmeWindowProps]); the descriptor chain of a transfer covers the buffer in blocks that
      the bus allows, and requests give back what they took ([Tsi148DmaProofs],
      [Tsi148DmaChain], [VmeDmaProofs], [VmeDmaProps], [VmeDmaSpec]); interrupts are counted and dispatched
      once ([VmeIrqProofs], [VmeIrqSpec]); the parts do not disturb one another ([VmeFrame]), so that the
      whole driver is safe ([VmeBridgeSafety]), from probe to removal ([VmeBridgeProbe],
      [VmeBridgeInit], [VmeBridgeSpec]).

    * Multi-tasking timing module, [src/mttn]

    - [MttText]: C strings and numbers.  [MttIsa]: [include/opcodes.h],
      [lib/opcodes.c], registers.  [MttObj]: object files and listings.  [MttEmu]:
      [tools/emu.c].  [MttLex], [MttAsm]: the scanner and the assembler of [tools/asm.c].
    - Theorems: object files and listings read back ([MttObj], [MttAsmListing]); the
      emulator stays within its arrays and implements the abstract machine of the instruction set
      except where stated ([MttEmuProofs], [MttEmuSpec]); the one-pass assembler
      writes what a two-pass reference assembler does ([MttLexProofs], [MttAsmSpec], [MttAsmProofs],
      [MttAsmCorrect]); what expressions are worth ([MttAsmExpr]).

    * LynxOS emulation, [src/cdcm/cdcmTime.c]

    - [CdcmSem]: the counting semaphore under its spinlock, with any number of tasks as a
      step relation.  [CdcmSemaSpec]: the semaphore calls by user pointer.  [CdcmTimers]: timeouts.
    - Theorems: tokens are conserved, the list of waiters is exact, nobody starves
      ([CdcmSemProofs], [CdcmSemSpec]); the calls refine one semaphore per pointer
      ([CdcmSemaSpec]); timeouts refine a table of callbacks ([CdcmTimers]).

    * Timing receiver, [src/ctr/driver/ctrdrvr-pci.c]

    - [CtrHard]: triggers, counter configurations and bridge registers ([ctrhard.h],
      [ctrdrvr.h], [plx9030.h]).  [CtrDrvr]: the working area ([ctrdrvrP.h]), connections of clients
      to trigger tables and interrupt sources.  [CtrQueue]: client queues, the interrupt
      handler, open, close, read, write; it uses the semaphores of [CdcmSem].  [CtrIoctl]:
      the requests.
    - Theorems: packing into hardware words ([CtrHardProofs]); a queue is a list of the
      newest 64 entries ([CtrQueueProofs]); the handler gives every connected client one entry
      per source and wakes it ([CtrIntr]); the tables stay in order under every request
      ([CtrModule], a logic for one module, [CtrTables], [CtrOps], [CtrPtim],
      [CtrSpec], [CtrSafe]); whole histories ([CtrDriver], [CtrProps]).

    * Modulbus carriers and mezzanines, [src/vmod/driver]

    - [VmodBus]: [modulbus_register.c], where carriers register and mezzanines find them.
      [VmodCarrier]: what a carrier offers ([modulbus_register.h]), the class of carriers with
      its laws [CarrierLaws].  [VmodIo]: [vmodio.c], over the class of VME services
      [VmeServicesLaws], which [VmodVme] discharges with the model of the bridge.  [ModPci]:
      [mod-pci.c], the PCI carrier.  [VmodLunargs]: [lunargs.c], the placement parameters.
      [VmodAnalog]: [vmod12a2drvr.c], [vmod12a4drvr.c], [vmod16a2drvr.c], [vmoddordrvr.c],
      [vmod12e16drvr.c].  [VmodTtl]: [vmodttldrvr.c] over its Z8536 chip ([cio8536.h], class
      [CioLaws]).  [VmodCrate]: a crate with both carriers, for the witnesses.
    - Theorems: the register refines a map from names to operations ([VmodBus]); an
      interrupt of a carrier runs the handler that the mezzanine of its slot gave
      ([VmodIoProofs], [ModPci]); the windows of mezzanines lie within their carrier's and
      apart from one another ([VmodLunargs]); a conversion ends or is given up
      ([VmodAnalog]); the chip of a TTL board holds the configuration that was asked for
      ([VmodTtlProofs]).

    * Driver skeleton, [src/skel/driver/skeldrvr.c]

    - [SkelRaw]: memory ([cdcmMem.c]), address spaces ([libinstkernel.c]) and raw access to a
      module, over the class [Mmio] of boards.  [Skel]: clients, connections, queues and
      requests ([skeldrvrP.h], [skel.h]); a driver gives its own functions as the class
      [SkelUser]; waiting is done in the semaphores of [CdcmSemaSpec], and a call that waits is
      two definitions, before and after.
    - Theorems: a block transfer does what a loop over its items does ([SkelRaw]); one
      invariant of lists, memory and semaphores is kept by every operation ([SkelProofs]);
      whole histories, deliveries of interrupts and the table of connections ([SkelSpec]).
      They suppose that allocations succeed: without memory the code follows an error code
      as if it were a pointer ([open_without_memory]).

    * Fuel

    Loops over tables and lists are structural.  Fuel is used where the code loops on a
    condition, and a theorem says that it is enough: the blocks of a DMA
    segment (its length), the walk of the chip along a chain (the number of descriptors),
    the wait for an interrupt acknowledge (more than the time-out, which
    every sleep shortens), the scanner (one more than the
    length of the text), expressions (one more than the number of operators), the digits of
    numbers (their width), the wait for an analogue conversion (one more
    round than the driver's own limit).

    * Not modelled

    Procfs entries and messages; user libraries and test programs, which wrap the system
    calls; of the timing receiver the installation, EEPROM and raw access, the HPTDC chip, telegrams,
    statistics, the floating-point PLL period and the older VME version; of the driver skeleton the
    installation of modules with their bus mappings, bus errors and the overrides of [SkelConf]; of the vmod
    drivers their character devices; of the
    LynxOS emulation what maps one kernel's calls to another's; the drivers that are register banks of a
    single card (cvorg, cvorb, sis33, vd80, acdx, icv196, msatt, ctsyn and others), which
    have little state of their own; vendored code (pickering-lxi, the JTAG player, timlib's
    firmware), build files and generated headers. *)
From Stdlib Require Import ZArith Lia.
From coqutil Require Export Datatypes.RecordSetters.
From stdpp Require Export base numbers option list gmap strings.
Export TriangleBracketNotations.

(** Let [simpl] compute field updates. *)
#[global] Arguments constant {_} _ _ /.

Local Open Scope Z_scope.

(** * Machine integers

    A C integer of width w is a [Z]; every place where the C code can wrap is
    written out with one of these reductions. *)

(** [unsigned int] / [u32]. *)
Definition u32 (x : Z) : Z := x mod 2 ^ 32.

(** [uint64_t], [unsigned long] on the 64-bit targets. *)
Definition u64 (x : Z) : Z := x mod 2 ^ 64.

(** [uint8_t], [unsigned char]. *)
Definition u8 (x : Z) : Z := x mod 2 ^ 8.

(** Conversion to a (two's complement) [int]. *)
Definition s32 (x : Z) : Z := (x + 2 ^ 31) mod 2 ^ 32 - 2 ^ 31.

(** A value that fits an [unsigned int]. *)
Definition is_u32 (x : Z) : Prop := 0 <= x < 2 ^ 32.

(** [x & ~0xffff] and friends: clear the [n] low bits. *)
Definition clear_low (n x : Z) : Z := Z.land x (Z.lnot (Z.ones n)).

(** The [n]-bit field of [x] that starts at bit [sh]. *)
Definition bits (sh n x : Z) : Z := Z.land (Z.shiftr x sh) (Z.ones n).

(** C truth value of an integer used as a condition. *)
Definition truthy (x : Z) : bool := negb (x =? 0).

(** * Kernel error codes (include/uapi/asm-generic/errno*.h) *)
Definition EINTR : Z := 4.
Definition ENXIO : Z := 6.
Definition EAGAIN : Z := 11.
Definition ENOMEM : Z := 12.
Definition EFAULT : Z := 14.
Definition EBUSY : Z := 16.
Definition ENODEV : Z := 19.
Definition EINVAL : Z := 22.
Definition EDEADLK : Z := 35.
Definition ETIME : Z := 62.
Definition ERESTARTSYS : Z := 512.
Definition ENOIOCTLCMD : Z := 515.

(** * A state monad with a stuck outcome

    [None] is a run that does not come back: undefined behaviour (an access out
    of range, [BUG_ON]) or a thread that waits for ever on a mutex it holds
    itself. *)
Definition M (S A : Type) : Type := S → option (A * S).

Create HintDb c_int.

#[export] Instance M_ret {S} : MRet (M S) := λ A a s, Some (a, s).
#[export] Instance M_bind {S} : MBind (M S) := λ A B f m s,
  match m s with
  | Some (a, s') => f a s'
  | None => None
  end.

(** Read a component of the state. *)
Definition gets {S A} (f : S → A) : M S A := λ s, Some (f s, s).

(** Update the state. *)
Definition modify {S} (f : S → S) : M S () := λ s, Some ((), f s).

(** Get stuck. *)
Definition stuck {S A} : M S A := λ _, None.

(** Run an option: [None] is a stuck run. *)
Definition lift_opt {S A} (o : option A) : M S A := λ s, (λ a, (a, s)) <$> o.

(** Run a computation of a sub-component, given a getter and a setter for
    its state. *)
Definition zoom {S T A} (get : S → T) (put : T → S → S) (m : M T A) : M S A :=
  λ s, match m (get s) with
       | Some (a, t) => Some (a, put t s)
       | None => None
       end.

(** [while]-style iteration over a list of inputs: run the body for each one in
    order, threading an accumulator. *)
Fixpoint mfold {S A B} (f : B → A → M S B) (b : B) (l : list A) : M S B :=
  match l with
  | [] => mret b
  | x :: l => f b x ≫= λ b', mfold f b' l
  end.

(** Weakest precondition: the run comes back and its result satisfies [Q]. *)
Definition wp {S A} (m : M S A) (Q : A → S → Prop) (s : S) : Prop :=
  match m s with
  | Some (a, s') => Q a s'
  | None => False
  end.

(** The first position of a list whose element satisfies a test. *)
Fixpoint find_idx {A} (f : A → bool) (l : list A) : option nat :=
  match l with
  | [] => None
  | x :: l => if f x then Some 0%nat else S <$> find_idx f l
  end.

(** Remove the first element that satisfies a test, as [list_del] inside a
    [list_for_each_entry_safe] loop that returns at the first match. *)
Fixpoint remove_first {A} (f : A → bool) (l : list A) : option (list A) :=
  match l with
  | [] => None
  | x :: l => if f x then Some l else (x ::.) <$> remove_first f l
  end.

(** Sum of an integer-valued function over a list. *)
Definition zsum {A} (f : A → Z) (l : list A) : Z := foldr (λ x z, f x + z) 0 l.

(** * Generic lemmas: machine integers *)

Lemma u32_range x : is_u32 (u32 x).
Proof. unfold is_u32, u32. apply Z.mod_pos_bound. lia. Qed.

Lemma u32_small x : is_u32 x → u32 x = x.
Proof. unfold is_u32, u32. intros H. apply Z.mod_small. lia. Qed.

Lemma u32_idemp x : u32 (u32 x) = u32 x.
Proof. apply u32_small, u32_range. Qed.

Lemma u32_add_l x y : u32 (u32 x + y) = u32 (x + y).
Proof. unfold u32. rewrite Zplus_mod_idemp_l. done. Qed.

Lemma u32_add_r x y : u32 (x + u32 y) = u32 (x + y).
Proof. unfold u32. rewrite Zplus_mod_idemp_r. done. Qed.

Lemma u32_sub_l x y : u32 (u32 x - y) = u32 (x - y).
Proof. unfold u32. rewrite Zminus_mod_idemp_l. done. Qed.

Lemma u32_sub_r x y : u32 (x - u32 y) = u32 (x - y).
Proof. unfold u32. rewrite Zminus_mod_idemp_r. done. Qed.

Lemma s32_range x : - 2 ^ 31 <= s32 x < 2 ^ 31.
Proof.
  unfold s32. pose proof (Z.mod_pos_bound (x + 2 ^ 31) (2 ^ 32) ltac:(lia)). lia.
Qed.

Lemma s32_small x : - 2 ^ 31 <= x < 2 ^ 31 → s32 x = x.
Proof. intros H. unfold s32. rewrite Z.mod_small; lia. Qed.

Lemma ldiff_ones x n : 0 <= n → Z.land x (Z.lnot (Z.ones n)) = x - x mod 2 ^ n.
Proof.
  intros Hn. rewrite <- Z.ldiff_land, Z.ldiff_ones_r by lia.
  rewrite Z.shiftr_div_pow2, Z.shiftl_mul_pow2 by lia.
  pose proof (Z.div_mod x (2 ^ n) ltac:(lia)). lia.
Qed.

Lemma clear_low_sub n x : 0 <= n → clear_low n x = x - x mod 2 ^ n.
Proof. intros. unfold clear_low. by apply ldiff_ones. Qed.

Lemma clear_low_bounds n x : 0 <= n → x - 2 ^ n < clear_low n x <= x.
Proof.
  intros Hn. rewrite clear_low_sub by done.
  pose proof (Z.mod_pos_bound x (2 ^ n) ltac:(lia)). lia.
Qed.

Lemma clear_low_aligned n x : 0 <= n → clear_low n x mod 2 ^ n = 0.
Proof.
  intros Hn. rewrite clear_low_sub by done.
  rewrite Zminus_mod_idemp_r, Z.sub_diag. by apply Z.mod_0_l; lia.
Qed.

Lemma clear_low_id n x : 0 <= n → x mod 2 ^ n = 0 → clear_low n x = x.
Proof. intros Hn H. rewrite clear_low_sub by done. lia. Qed.

Lemma clear_low_range n w x : 0 <= n <= w → 0 <= x < 2 ^ w → 0 <= clear_low n x < 2 ^ w.
Proof.
  intros Hn Hx. rewrite clear_low_sub by lia.
  pose proof (Z.mod_pos_bound x (2 ^ n) ltac:(lia)).
  pose proof (Z.mod_le x (2 ^ n) ltac:(lia) ltac:(lia)). lia.
Qed.

Lemma bits_eq sh n x : 0 <= sh → 0 <= n → bits sh n x = x / 2 ^ sh mod 2 ^ n.
Proof. intros. unfold bits. rewrite Z.land_ones, Z.shiftr_div_pow2 by lia. done. Qed.

Lemma bits_range sh n x : 0 <= n → 0 <= bits sh n x < 2 ^ n.
Proof.
  intros. unfold bits. rewrite Z.land_ones by lia. apply Z.mod_pos_bound. lia.
Qed.

(** A value below [2^n] has no bit at [n] or above. *)
Lemma testbit_above x n i : 0 <= x < 2 ^ n → n <= i → Z.testbit x i = false.
Proof.
  intros Hx Hi. destruct (decide (0 <= n)) as [Hn|Hn].
  - rewrite <- (Z.mod_small x (2 ^ n)) by lia. by apply Z.mod_pow2_bits_high.
  - rewrite Z.pow_neg_r in Hx by lia. lia.
Qed.

Lemma land_u32 x m : is_u32 m → is_u32 (Z.land x m).
Proof.
  unfold is_u32. intros Hm.
  assert (Z.land x m = (Z.land x m) mod 2 ^ 32) as ->.
  { rewrite <- !Z.land_ones by lia. rewrite <- Z.land_assoc. f_equal.
    rewrite Z.land_ones by lia. by rewrite Z.mod_small. }
  apply Z.mod_pos_bound. lia.
Qed.

Lemma lor_range n x y : 0 <= n → 0 <= x < 2 ^ n → 0 <= y < 2 ^ n → 0 <= Z.lor x y < 2 ^ n.
Proof.
  intros Hn Hx Hy.
  assert (Z.lor x y = Z.lor x y mod 2 ^ n) as ->.
  { apply Z.bits_inj'. intros i Hi. destruct (decide (i < n)).
    - by rewrite Z.mod_pow2_bits_low by lia.
    - rewrite Z.mod_pow2_bits_high by lia.
      by rewrite Z.lor_spec, !(testbit_above _ n) by lia. }
  apply Z.mod_pos_bound. lia.
Qed.

(** The C idiom [(x & (mask << sh)) >> sh] is a field extraction. *)
Lemma field_bits sh n x :
  0 <= sh → Z.shiftr (Z.land x (Z.shiftl (Z.ones n) sh)) sh = bits sh n x.
Proof.
  intros. unfold bits. rewrite Z.shiftr_land, Z.shiftr_shiftl_l by lia.
  by rewrite Z.sub_diag, Z.shiftl_0_r.
Qed.

Lemma bits_lor sh n x y : bits sh n (Z.lor x y) = Z.lor (bits sh n x) (bits sh n y).
Proof. unfold bits. by rewrite Z.shiftr_lor, Z.land_lor_distr_l. Qed.

(** [if (x & (1 << k))] tests a bit. *)
Lemma truthy_bit x k : 0 <= k → truthy (Z.land x (Z.shiftl 1 k)) = Z.testbit x k.
Proof.
  intros Hk. unfold truthy.
  assert (Hb : Z.land x (Z.shiftl 1 k) = if Z.testbit x k then Z.shiftl 1 k else 0).
  { apply Z.bits_inj'. intros i Hi. rewrite Z.land_spec, Z.shiftl_1_l.
    rewrite Z.pow2_bits_eqb by lia. destruct (Z.eqb_spec k i) as [->|Hne].
    - destruct (Z.testbit x i); [by rewrite Z.pow2_bits_true by lia|by rewrite Z.bits_0].
    - rewrite andb_false_r. destruct (Z.testbit x k); [|by rewrite Z.bits_0].
      by rewrite Z.pow2_bits_false by lia. }
  rewrite Hb. destruct (Z.testbit x k); [|done].
  rewrite Z.shiftl_1_l. destruct (Z.eqb_spec (2 ^ k) 0); [|done].
  pose proof (Z.pow_pos_nonneg 2 k ltac:(lia) Hk). lia.
Qed.

Lemma testbit_lor_low w h k : Z.testbit h k = false → Z.testbit (Z.lor w h) k = Z.testbit w k.
Proof. intros H. by rewrite Z.lor_spec, H, orb_false_r. Qed.

Lemma testbit_lor_high w h k : Z.testbit w k = false → Z.testbit (Z.lor w h) k = Z.testbit h k.
Proof. intros H. by rewrite Z.lor_spec, H. Qed.

(** A mask whose [n] low bits are set keeps an [n]-bit value. *)
Lemma land_low_mask n w m :
  0 <= n → 0 <= w < 2 ^ n → Z.land (Z.ones n) m = Z.ones n → Z.land w m = w.
Proof.
  intros Hn Hw Hm. rewrite <- (Z.mod_small w (2 ^ n)) by lia.
  rewrite <- Z.land_ones by lia. by rewrite <- Z.land_assoc, Hm.
Qed.

(** [x & 0xffff] is zero exactly on 64 KB boundaries. *)
Lemma truthy_low n x : 0 <= n → truthy (Z.land x (Z.ones n)) = negb (x mod 2 ^ n =? 0).
Proof. intros. unfold truthy. by rewrite Z.land_ones. Qed.

(** Masking the [n] low bits of a [w]-bit value away. *)
Lemma land_high_mask n w x :
  0 <= n <= w → 0 <= x < 2 ^ w →
  Z.land x (Z.shiftl (Z.ones (w - n)) n) = clear_low n x.
Proof.
  intros Hn Hx. unfold clear_low. apply Z.bits_inj'. intros i Hi.
  rewrite !Z.land_spec, Z.shiftl_spec, Z.lnot_spec by lia.
  rewrite !Z.testbit_ones by lia.
  destruct (decide (i < w)).
  - f_equal. destruct (Z.ltb_spec i n), (Z.leb_spec 0 (i - n)), (Z.ltb_spec (i - n) (w - n)),
      (Z.leb_spec 0 i); simpl; try done; lia.
  - by rewrite (testbit_above x w) by lia.
Qed.

(** * Generic lemmas: the monad *)

Section wp.
Context {S : Type}.

Lemma wp_ret {A} (a : A) (Q : A → S → Prop) s : Q a s → wp (mret a) Q s.
Proof. done. Qed.

Lemma wp_bind {A B} (m : M S A) (f : A → M S B) Q s :
  wp m (λ a s', wp (f a) Q s') s → wp (m ≫= f) Q s.
Proof. unfold wp, mbind, M_bind. by destruct (m s) as [[]|]. Qed.

Lemma wp_bind_inv {A B} (m : M S A) (f : A → M S B) Q s :
  wp (m ≫= f) Q s → wp m (λ a s', wp (f a) Q s') s.
Proof. unfold wp, mbind, M_bind. by destruct (m s) as [[]|]. Qed.

Lemma wp_gets {A} (f : S → A) Q s : Q (f s) s → wp (gets f) Q s.
Proof. done. Qed.

Lemma wp_modify (f : S → S) Q s : Q () (f s) → wp (modify f) Q s.
Proof. done. Qed.

Lemma wp_lift_opt {A} (o : option A) a (Q : A → S → Prop) s : o = Some a → Q a s → wp (lift_opt o) Q s.
Proof. intros -> HQ. exact HQ. Qed.

Lemma wp_mono {A} (m : M S A) (Q Q' : A → S → Prop) s :
  wp m Q s → (∀ a s', Q a s' → Q' a s') → wp m Q' s.
Proof. unfold wp. destruct (m s) as [[a s']|]; [intros ? H; by apply H|done]. Qed.

Lemma wp_and {A} (m : M S A) (Q Q' : A → S → Prop) s :
  wp m Q s → wp m Q' s → wp m (λ a s', Q a s' ∧ Q' a s') s.
Proof. unfold wp. destruct (m s) as [[]|]; naive_solver. Qed.

Lemma wp_if {A} (b : bool) (m1 m2 : M S A) Q s :
  (b = true → wp m1 Q s) → (b = false → wp m2 Q s) → wp (if b then m1 else m2) Q s.
Proof. destruct b; auto. Qed.

Lemma wp_zoom {T A} (get : S → T) (put : T → S → S) (m : M T A) Q s :
  wp m (λ a t, Q a (put t s)) (get s) → wp (zoom get put m) Q s.
Proof. unfold wp, zoom. by destruct (m (get s)) as [[]|]. Qed.

Lemma wp_run {A} (m : M S A) Q s : wp m Q s ↔ ∃ a s', m s = Some (a, s') ∧ Q a s'.
Proof. unfold wp. destruct (m s) as [[]|]; naive_solver. Qed.

(** Loop rule for [mfold]: an invariant on the accumulator, the state and the
    elements still to come. *)
Lemma wp_mfold {A B} (f : B → A → M S B) (I : list A → B → S → Prop) l b s :
  (∀ x l b s, I (x :: l) b s → wp (f b x) (I l) s) →
  I l b s → wp (mfold f b l) (I []) s.
Proof.
  intros Hstep. revert b s. induction l as [|x l IH]; intros b s HI; [done|].
  simpl. apply wp_bind. eapply wp_mono; [by apply Hstep|]. intros. by apply IH.
Qed.
End wp.

(** One symbolic step of a monadic computation. *)
Ltac wp_step :=
  lazymatch goal with
  | |- wp (_ ≫= _) _ _ => apply wp_bind
  | |- wp (mret _) _ _ => apply wp_ret
  | |- wp (gets _) _ _ => apply wp_gets
  | |- wp (modify _) _ _ => apply wp_modify
  | |- wp (zoom _ _ _) _ _ => apply wp_zoom
  | |- wp (if _ then _ else _) _ _ => apply wp_if; intros ?
  end.
Ltac wp_steps := repeat (wp_step; cbv beta).

(** * Generic lemmas: lists *)

Lemma find_idx_lookup {A} (f : A → bool) l i :
  find_idx f l = Some i ↔
  (∃ x, l !! i = Some x ∧ f x = true) ∧ ∀ j y, (j < i)%nat → l !! j = Some y → f y = false.
Proof.
  revert i. induction l as [|x l IH]; intros i; simpl.
  { split; [done|]. intros [(x & Hx & _) _]. done. }
  destruct (f x) eqn:Hf.
  - split.
    + intros [= <-]. split; [by exists x|]. lia.
    + intros [(y & Hy & Hfy) Hbefore]. destruct i as [|i]; [done|].
      specialize (Hbefore 0%nat x ltac:(lia) eq_refl). congruence.
  - split.
    + intros (i' & Hi & ->)%fmap_Some. apply IH in Hi as [(y & Hy & Hfy) Hb].
      split; [by exists y|]. intros [|j] z Hj Hz; simpl in Hz; [by injection Hz as <-|].
      apply (Hb j z); [lia|done].
    + intros [(y & Hy & Hfy) Hb]. destruct i as [|i]; [simpl in Hy; congruence|].
      apply fmap_Some. exists i. split; [|done]. apply IH. split; [by exists y|].
      intros j z Hj Hz. apply (Hb (S j) z); [lia|done].
Qed.

Lemma find_idx_None {A} (f : A → bool) l :
  find_idx f l = None ↔ ∀ x, x ∈ l → f x = false.
Proof.
  induction l as [|x l IH]; simpl; [set_solver|].
  destruct (f x) eqn:Hf.
  - split; [done|]. intros H. specialize (H x). rewrite H in Hf; [done|set_solver].
  - rewrite fmap_None, IH. split.
    + intros H y [->|Hy]%elem_of_cons; auto.
    + intros H y Hy. apply H. set_solver.
Qed.

Lemma find_idx_lt {A} (f : A → bool) l i : find_idx f l = Some i → (i < length l)%nat.
Proof. intros [(x & Hx & _) _]%find_idx_lookup. by eapply lookup_lt_Some. Qed.

Lemma remove_first_spec {A} (f : A → bool) l l' :
  remove_first f l = Some l' ↔
  ∃ l1 x l2, l = l1 ++ x :: l2 ∧ l' = l1 ++ l2 ∧ f x = true ∧ Forall (λ y, f y = false) l1.
Proof.
  revert l'. induction l as [|x l IH]; intros l'; simpl.
  { split; [done|]. intros (l1 & y & l2 & H & _). by destruct l1. }
  destruct (f x) eqn:Hf.
  - split.
    + intros [= <-]. exists [], x, l. auto.
    + intros (l1 & y & l2 & H & -> & Hy & Hall). destruct l1 as [|z l1]; simplify_eq/=; [done|].
      apply Forall_cons in Hall as [? _]. congruence.
  - rewrite fmap_Some. split.
    + intros (l'' & H & ->). apply IH in H as (l1 & y & l2 & -> & -> & Hy & Hall).
      exists (x :: l1), y, l2. auto.
    + intros (l1 & y & l2 & H & -> & Hy & Hall). destruct l1 as [|z l1]; simplify_eq/=; [congruence|].
      apply Forall_cons in Hall as [_ Hall]. eexists. split; [|done].
      apply IH. by exists l1, y, l2.
Qed.

Lemma remove_first_length {A} (f : A → bool) l l' :
  remove_first f l = Some l' → length l = S (length l').
Proof.
  intros (l1 & x & l2 & -> & -> & _)%remove_first_spec. rewrite !length_app. simpl. lia.
Qed.

Lemma remove_first_None {A} (f : A → bool) l :
  remove_first f l = None ↔ Forall (λ y, f y = false) l.
Proof.
  induction l as [|x l IH]; simpl; [by split|]. rewrite Forall_cons.
  destruct (f x); [naive_solver|]. rewrite fmap_None, IH. naive_solver.
Qed.

Lemma remove_first_submseteq {A} (f : A → bool) l l' :
  remove_first f l = Some l' → ∀ x, x ∈ l' → x ∈ l.
Proof. intros (l1 & y & l2 & -> & -> & _)%remove_first_spec. set_solver. Qed.

Lemma zsum_cons {A} (f : A → Z) x l : zsum f (x :: l) = f x + zsum f l.
Proof. done. Qed.

Lemma zsum_app {A} (f : A → Z) l k : zsum f (l ++ k) = zsum f l + zsum f k.
Proof. induction l as [|x l IH]; simpl; [done|]. unfold zsum in *. simpl. lia. Qed.

#[export] Hint Resolve u32_range : c_int.

Lemma zsum_insert {A} (f : A → Z) l i x y :
  l !! i = Some x → zsum f (<[i:=y]> l) = zsum f l - f x + f y.
Proof.
  unfold zsum. revert i. induction l as [|z l IH]; intros [|i] Hi; [done|done| |].
  - injection Hi as ->. simpl. lia.
  - simpl in *. rewrite (IH i Hi). lia.
Qed.

(** * Generic lemmas: ring buffers

    The entries of a ring that are in use, oldest first, from the place [rd] on. *)
Record ring_at {A} (es : list A) (rd : Z) (l : list A) : Prop := {
  ra_start : 0 <= rd < Z.of_nat (length es);
  ra_fits : (length l <= length es)%nat;
  ra_entries : ∀ i x, l !! i = Some x → es !! Z.to_nat ((rd + Z.of_nat i) mod Z.of_nat (length es)) = Some x
}.

(** The newest [n] entries. *)
Definition newest {A} (n : nat) (x : A) (l : list A) : list A :=
  if decide (length l < n)%nat then l ++ [x] else tail l ++ [x].

Lemma newest_length {A} n (x : A) l : (0 < n)%nat → (length l <= n)%nat → (length (newest n x l) <= n)%nat.
Proof. unfold newest. intros Hn Hl. case_decide; rewrite length_app; simpl; [lia|]. destruct l; simpl in *; lia. Qed.

(** Two places of a ring are the same only if they are the same number of steps away. *)
Lemma ring_place n r i j : 0 <= i < n → 0 <= j < n → (r + i) mod n = (r + j) mod n → i = j.
Proof.
  intros Hi Hj He. rewrite <- (Z.mod_small i n), <- (Z.mod_small j n) by lia.
  replace i with (r + i - r) by lia. replace j with (r + j - r) by lia. by rewrite Zminus_mod, He, <- Zminus_mod.
Qed.

(** An entry is placed after the last one; in a full ring this overwrites the oldest. *)
Lemma ring_put {A} (es : list A) rd l x : ring_at es rd l →
  let n := Z.of_nat (length es) in
  ring_at (<[Z.to_nat ((rd + Z.of_nat (length l)) mod n) := x]> es)
    (if decide (length l < length es)%nat then rd else (rd + 1) mod n) (newest (length es) x l).
Proof.
  intros [Hrd Hlim Hent] n. pose proof (Z.mod_pos_bound (rd + Z.of_nat (length l)) n ltac:(lia)) as Hw.
  unfold newest. destruct (decide (length l < length es)%nat) as [Hlt|Hge].
  - split; rewrite length_insert, ?length_app; simpl; [lia|lia|]. intros i y Hi.
    destruct (decide (i = length l)) as [->|Hne].
    + rewrite lookup_app_r, Nat.sub_diag in Hi by lia. injection Hi as <-. apply list_lookup_insert_eq. lia.
    + assert (Hil : (i < length l)%nat) by (apply lookup_lt_Some in Hi; rewrite length_app in Hi; simpl in Hi; lia).
      rewrite lookup_app_l in Hi by done. rewrite list_lookup_insert_ne; [by apply Hent|].
      intros He. apply Z2Nat.inj in He; [|lia|apply Z.mod_pos_bound; lia]. apply ring_place in He; lia.
  - destruct l as [|y l]; [simpl in *; lia|]. cbn [tail length] in *.
    assert (Hlen : Z.of_nat (S (length l)) = n) by lia. rewrite Hlen in Hw |- *.
    replace (rd + n) with (rd + 1 * n) in Hw |- * by lia. rewrite Z_mod_plus_full in Hw |- *.
    split; rewrite length_insert, ?length_app; simpl; [apply Z.mod_pos_bound; lia|lia|]. intros i z Hi.
    fold n. rewrite Zplus_mod_idemp_l. destruct (decide (i = length l)) as [->|Hne].
    + rewrite lookup_app_r, Nat.sub_diag in Hi by lia. injection Hi as <-.
      replace (rd + 1 + Z.of_nat (length l)) with (rd + 1 * n) by lia. rewrite Z_mod_plus_full. apply list_lookup_insert_eq. lia.
    + assert (Hil : (i < length l)%nat) by (apply lookup_lt_Some in Hi; rewrite length_app in Hi; simpl in Hi; lia).
      rewrite lookup_app_l in Hi by done. replace (rd + 1 + Z.of_nat i) with (rd + Z.of_nat (S i)) by lia.
      rewrite list_lookup_insert_ne; [by apply Hent|].
      intros He. apply Z2Nat.inj in He; [|lia|apply Z.mod_pos_bound; lia]. rewrite <- (Z.add_0_r rd) in He at 1. apply ring_place in He; lia.
Qed.

(** The oldest entry is where the ring starts. *)
Lemma ring_take {A} (es : list A) rd x l : ring_at es rd (x :: l) →
  es !! Z.to_nat rd = Some x ∧ ring_at es ((rd + 1) mod Z.of_nat (length es)) l.
Proof.
  intros [Hrd Hlim Hent]. cbn [length] in Hlim. split.
  - pose proof (Hent 0%nat x eq_refl) as Hx. by rewrite Z.add_0_r, Z.mod_small in Hx by lia.
  - split; [apply Z.mod_pos_bound; lia|lia|]. intros i y Hi. rewrite Zplus_mod_idemp_l.
    replace (rd + 1 + Z.of_nat i) with (rd + Z.of_nat (S i)) by lia. by apply Hent.
Qed.

Lemma ring_empty {A} (es : list A) rd : 0 <= rd < Z.of_nat (length es) → ring_at es rd [].
Proof. intros Hrd. split; [done|simpl; lia|done]. Qed.
