(* ===== verification/VmeBus.v ===== *)
(** The public data of the PCI-VME bridge driver: [src/vmebridge/driver/vmebus.h].

    Enumerators are integer constants, because the driver receives them from
    user space as plain [int]s and checks them itself; structures are records
    with the fields and the field names of the C structures. *)
From S2P Require Import Prelude.

Local Open Scope Z_scope.

(** * [enum vme_read_prefetch_size] *)
Definition VME_PREFETCH_2 : Z := 0.
Definition VME_PREFETCH_4 : Z := 1.
Definition VME_PREFETCH_8 : Z := 2.
Definition VME_PREFETCH_16 : Z := 3.

(** * [enum vme_data_width] *)
Definition VME_D8 : Z := 8.
Definition VME_D16 : Z := 16.
Definition VME_D32 : Z := 32.
Definition VME_D64 : Z := 64.

(** * [enum vme_2esst_mode] *)
Definition VME_SST160 : Z := 0.
Definition VME_SST267 : Z := 1.
Definition VME_SST320 : Z := 2.

(** * [enum vme_address_modifier] *)
Definition VME_A64_MBLT : Z := 0x00.
Definition VME_A64_SCT : Z := 0x01.
Definition VME_A64_BLT : Z := 0x03.
Definition VME_A64_LCK : Z := 0x04.
Definition VME_A32_LCK : Z := 0x05.
Definition VME_A32_USER_MBLT : Z := 0x08.
Definition VME_A32_USER_DATA_SCT : Z := 0x09.
Definition VME_A32_USER_PRG_SCT : Z := 0x0a.
Definition VME_A32_USER_BLT : Z := 0x0b.
Definition VME_A32_SUP_MBLT : Z := 0x0c.
Definition VME_A32_SUP_DATA_SCT : Z := 0x0d.
Definition VME_A32_SUP_PRG_SCT : Z := 0x0e.
Definition VME_A32_SUP_BLT : Z := 0x0f.
Definition VME_2e6U : Z := 0x20.
Definition VME_2e3U : Z := 0x21.
Definition VME_A16_USER : Z := 0x29.
Definition VME_A16_LCK : Z := 0x2c.
Definition VME_A16_SUP : Z := 0x2d.
Definition VME_CR_CSR : Z := 0x2f.
Definition VME_A40_SCT : Z := 0x34.
Definition VME_A40_LCK : Z := 0x35.
Definition VME_A40_BLT : Z := 0x37.
Definition VME_A24_USER_MBLT : Z := 0x38.
Definition VME_A24_USER_DATA_SCT : Z := 0x39.
Definition VME_A24_USER_PRG_SCT : Z := 0x3a.
Definition VME_A24_USER_BLT : Z := 0x3b.
Definition VME_A24_SUP_MBLT : Z := 0x3c.
Definition VME_A24_SUP_DATA_SCT : Z := 0x3d.
Definition VME_A24_SUP_PRG_SCT : Z := 0x3e.
Definition VME_A24_SUP_BLT : Z := 0x3f.

(** [struct vme_mapping]; [kernel_va] and [user_va] are addresses, 0 is NULL. *)
Record vme_mapping := mk_vme_mapping {
  window_num : Z;
  kernel_va : Z;
  user_va : Z;
  fd : Z;
  window_enabled : Z;
  data_width : Z;
  am : Z;
  read_prefetch_enabled : Z;
  read_prefetch_size : Z;
  v2esst_mode : Z;
  bcast_select : Z;
  pci_addru : Z;
  pci_addrl : Z;
  sizeu : Z;
  sizel : Z;
  vme_addru : Z;
  vme_addrl : Z
}.

(** The all-zero [struct vme_mapping] that [memset] and static storage give. *)
Definition zero_mapping : vme_mapping :=
  mk_vme_mapping 0 0 0 0 0 0 0 0 0 0 0 0 0 0 0 0 0.

(** The unsigned fields of a mapping hold 32-bit values. *)
Definition mapping_u32 (d : vme_mapping) : Prop :=
  is_u32 (pci_addru d) ∧ is_u32 (pci_addrl d) ∧ is_u32 (sizeu d) ∧
  is_u32 (sizel d) ∧ is_u32 (vme_addru d) ∧ is_u32 (vme_addrl d).

(** [struct vme_dma_attr] *)
Record vme_dma_attr := mk_vme_dma_attr {
  dma_data_width : Z;
  dma_am : Z;
  dma_v2esst_mode : Z;
  dma_bcast_select : Z;
  dma_addru : Z;
  dma_addrl : Z
}.

(** [enum vme_dma_block_size], [enum vme_dma_backoff]: first and last values. *)
Definition VME_DMA_BSIZE_32 : Z := 0.
Definition VME_DMA_BSIZE_64 : Z := 1.
Definition VME_DMA_BSIZE_128 : Z := 2.
Definition VME_DMA_BSIZE_256 : Z := 3.
Definition VME_DMA_BSIZE_512 : Z := 4.
Definition VME_DMA_BSIZE_1024 : Z := 5.
Definition VME_DMA_BSIZE_2048 : Z := 6.
Definition VME_DMA_BSIZE_4096 : Z := 7.
Definition VME_DMA_BACKOFF_0 : Z := 0.
Definition VME_DMA_BACKOFF_1 : Z := 1.
Definition VME_DMA_BACKOFF_2 : Z := 2.
Definition VME_DMA_BACKOFF_4 : Z := 3.
Definition VME_DMA_BACKOFF_8 : Z := 4.
Definition VME_DMA_BACKOFF_16 : Z := 5.
Definition VME_DMA_BACKOFF_32 : Z := 6.
Definition VME_DMA_BACKOFF_64 : Z := 7.

(** [struct vme_dma_ctrl] *)
Record vme_dma_ctrl := mk_vme_dma_ctrl {
  vme_block_size : Z;
  vme_backoff_time : Z;
  pci_block_size : Z;
  pci_backoff_time : Z
}.

(** [enum vme_dma_dir] *)
Definition VME_DMA_TO_DEVICE : Z := 1.
Definition VME_DMA_FROM_DEVICE : Z := 2.

(** [struct vme_dma] *)
Record vme_dma := mk_vme_dma {
  dma_status : Z;
  dma_length : Z;
  novmeinc : Z;
  dir : Z;
  src : vme_dma_attr;
  dst : vme_dma_attr;
  ctrl : vme_dma_ctrl
}.

(** [struct vme_bus_error] *)
Record vme_bus_error := mk_vme_bus_error {
  berr_address : Z;
  berr_am : Z
}.

(** [struct vme_bus_error_desc] *)
Record vme_bus_error_desc := mk_vme_bus_error_desc {
  error : vme_bus_error;
  valid : Z
}.

(** [struct pdparam_master] *)
Record pdparam_master := mk_pdparam_master {
  iack : Z;
  rdpref : Z;
  wrpost : Z;
  swap : Z;
  sgmin : Z;
  dum : list Z
}.

Definition VME_PG_SHARED : Z := 0.
Definition VME_PG_PRIVATE : Z := 2.

#[export] Instance vme_mapping_eq_dec : EqDecision vme_mapping.
Proof. solve_decision. Defined.
#[export] Instance vme_bus_error_eq_dec : EqDecision vme_bus_error.
Proof. solve_decision. Defined.
