(* ===== verification/Tsi148Regs.v ===== *)
(** The register file of the TSI148 PCI-VME bridge: [src/vmebridge/driver/tsi148.h].

    The chip itself is hardware: a parameter of the model with a read and a
    write operation ([ChipIO]) and what the driver relies on about its latch
    registers ([ChipLaws]).  [LatchChip] is a concrete chip that satisfies the
    laws, used by the witnesses.  The [static inline] helpers of the header are
    defined here. *)
From S2P Require Import Prelude VmeBus.

Local Open Scope Z_scope.

(** * Constants of tsi148.h *)

Definition PCI_VENDOR_ID_TUNDRA : Z := 0x10e3.
Definition PCI_DEVICE_ID_TUNDRA_TSI148 : Z := 0x0148.
Definition TSI148_NUM_OUT_WINDOWS : Z := 8.
Definition TSI148_NUM_DMA_CHANNELS : Z := 2.

(** [enum tsi148_address_size] *)
Definition TSI148_A16 : Z := 0.
Definition TSI148_A24 : Z := 1.
Definition TSI148_A32 : Z := 2.
Definition TSI148_A64 : Z := 4.
Definition TSI148_CRCSR : Z := 5.
Definition TSI148_USER1 : Z := 8.
Definition TSI148_USER2 : Z := 9.
Definition TSI148_USER3 : Z := 10.
Definition TSI148_USER4 : Z := 11.

(** [enum tsi148_user_access_type], [enum tsi148_data_access_type] *)
Definition TSI148_USER : Z := 0.
Definition TSI148_SUPER : Z := 1.
Definition TSI148_DATA : Z := 0.
Definition TSI148_PROG : Z := 1.

(** [enum tsi148_transfer_mode] *)
Definition TSI148_SCT : Z := 0.
Definition TSI148_BLT : Z := 1.
Definition TSI148_MBLT : Z := 2.
Definition TSI148_2eVME : Z := 3.
Definition TSI148_2eSST : Z := 4.
Definition TSI148_2eSSTB : Z := 5.

(** [enum tsi148_data_width] *)
Definition TSI148_DW_16 : Z := 0.
Definition TSI148_DW_32 : Z := 1.

(** Outbound translation registers *)
Definition TSI148_LCSR_OTSAL_M : Z := Z.shiftl 0xffff 16.
Definition TSI148_LCSR_OTEAL_M : Z := Z.shiftl 0xffff 16.
Definition TSI148_LCSR_OTOFFL_M : Z := Z.shiftl 0xffff 16.
Definition TSI148_LCSR_OTBS_M : Z := 0xfffff.
Definition TSI148_LCSR_OTAT_EN : Z := Z.shiftl 1 31.
Definition TSI148_LCSR_OTAT_MRPFD : Z := Z.shiftl 1 18.
Definition TSI148_LCSR_OTAT_PFS_SHIFT : Z := 16.
Definition TSI148_LCSR_OTAT_PFS_M : Z := Z.shiftl 3 16.
Definition TSI148_LCSR_OTAT_2eSSTM_SHIFT : Z := 11.
Definition TSI148_LCSR_OTAT_2eSSTM_M : Z := Z.shiftl 7 11.
Definition TSI148_LCSR_OTAT_TM_SHIFT : Z := 8.
Definition TSI148_LCSR_OTAT_TM_M : Z := Z.shiftl 7 8.
Definition TSI148_LCSR_OTAT_DBW_SHIFT : Z := 6.
Definition TSI148_LCSR_OTAT_DBW_M : Z := Z.shiftl 3 6.
Definition TSI148_LCSR_OTAT_DBW_16 : Z := Z.shiftl 0 6.
Definition TSI148_LCSR_OTAT_DBW_32 : Z := Z.shiftl 1 6.
Definition TSI148_LCSR_OTAT_SUP : Z := Z.shiftl 1 5.
Definition TSI148_LCSR_OTAT_PGM : Z := Z.shiftl 1 4.
Definition TSI148_LCSR_OTAT_AMODE_SHIFT : Z := 0.
Definition TSI148_LCSR_OTAT_AMODE_M : Z := 0xf.

(** VMEbus master control and status *)
Definition TSI148_LCSR_VMCTRL_VTON_M : Z := Z.shiftl 7 8.
Definition TSI148_LCSR_VMCTRL_VTON_512 : Z := Z.shiftl 7 8.
Definition TSI148_LCSR_VMCTRL_VREL_M : Z := Z.shiftl 3 3.
Definition TSI148_LCSR_VMCTRL_VREL_T_D_R : Z := Z.shiftl 3 3.
Definition TSI148_LCSR_VSTAT_CPURST : Z := Z.shiftl 1 15.
Definition TSI148_LCSR_VSTAT_BDFAIL : Z := Z.shiftl 1 14.
Definition TSI148_LCSR_PCSR_SRTO : Z := Z.shiftl 7 24.
Definition TSI148_LCSR_PCSR_SRTE : Z := Z.shiftl 1 10.
Definition TSI148_LCSR_PCSR_DTTE : Z := Z.shiftl 1 9.
Definition TSI148_LCSR_PCSR_MRCE : Z := Z.shiftl 1 8.

(** Exception registers *)
Definition TSI148_LCSR_VEAT_VES : Z := Z.shiftl 1 31.
Definition TSI148_LCSR_VEAT_VEOF : Z := Z.shiftl 1 30.
Definition TSI148_LCSR_VEAT_VESCL : Z := Z.shiftl 1 29.
Definition TSI148_LCSR_VEAT_AM_SHIFT : Z := 8.
Definition TSI148_LCSR_VEAT_AM : Z := Z.shiftl 0x3f 8.
Definition TSI148_LCSR_EDPAT_EDPCL : Z := Z.shiftl 1 29.

(** CRG attributes *)
Definition TSI148_LCSR_CRGAT_EN : Z := Z.shiftl 1 7.
Definition TSI148_LCSR_CRGAT_AS_16 : Z := Z.shiftl 0 4.
Definition TSI148_LCSR_CRGAT_AS_24 : Z := Z.shiftl 1 4.
Definition TSI148_LCSR_CRGAT_AS_32 : Z := Z.shiftl 2 4.
Definition TSI148_LCSR_CRGAT_AS_64 : Z := Z.shiftl 4 4.
Definition TSI148_LCSR_CRGAT_SUPR : Z := Z.shiftl 1 3.
Definition TSI148_LCSR_CRGAT_NPRIV : Z := Z.shiftl 1 2.
Definition TSI148_LCSR_CRGAT_PGM : Z := Z.shiftl 1 1.
Definition TSI148_LCSR_CRGAT_DATA : Z := Z.shiftl 1 0.
Definition TSI148_LCSR_CBAL_M : Z := Z.shiftl 0xfffff 12.

(** VMEbus interrupt control *)
Definition TSI148_LCSR_VICR_IRQC : Z := Z.shiftl 1 15.
Definition TSI148_LCSR_VICR_IRQS : Z := Z.shiftl 1 11.
Definition TSI148_LCSR_VICR_IRQL_M : Z := Z.shiftl 7 8.
Definition TSI148_LCSR_VICR_STID_M : Z := 0xff.

(** Local bus interrupts *)
Definition TSI148_LCSR_INT_DMA_SHIFT : Z := 24.
Definition TSI148_LCSR_INT_DMA_M : Z := Z.shiftl 3 24.
Definition TSI148_LCSR_INT_DMA1 : Z := Z.shiftl 1 25.
Definition TSI148_LCSR_INT_DMA0 : Z := Z.shiftl 1 24.
Definition TSI148_LCSR_INT_LM_SHIFT : Z := 20.
Definition TSI148_LCSR_INT_LM_M : Z := Z.shiftl 0xf 20.
Definition TSI148_LCSR_INT_MB_SHIFT : Z := 16.
Definition TSI148_LCSR_INT_MB_M : Z := Z.shiftl 0xf 16.
Definition TSI148_LCSR_INT_PERR : Z := Z.shiftl 1 13.
Definition TSI148_LCSR_INT_VERR : Z := Z.shiftl 1 12.
Definition TSI148_LCSR_INT_VIE : Z := Z.shiftl 1 11.
Definition TSI148_LCSR_INT_IACK : Z := Z.shiftl 1 10.
Definition TSI148_LCSR_INT_SYSFL : Z := Z.shiftl 1 9.
Definition TSI148_LCSR_INT_ACFL : Z := Z.shiftl 1 8.
Definition TSI148_LCSR_INT_IRQM : Z := Z.shiftl 0x7f 1.

(** DMA controllers *)
Definition TSI148_LCSR_DCTL_ABT : Z := Z.shiftl 1 27.
Definition TSI148_LCSR_DCTL_DGO : Z := Z.shiftl 1 25.
Definition TSI148_LCSR_DCTL_MOD : Z := Z.shiftl 1 23.
Definition TSI148_LCSR_DCTL_VBKS_SHIFT : Z := 12.
Definition TSI148_LCSR_DCTL_VBKS_M : Z := Z.shiftl 7 12.
Definition TSI148_LCSR_DCTL_VBOT_SHIFT : Z := 8.
Definition TSI148_LCSR_DCTL_VBOT_M : Z := Z.shiftl 7 8.
Definition TSI148_LCSR_DCTL_PBKS_SHIFT : Z := 4.
Definition TSI148_LCSR_DCTL_PBKS_M : Z := Z.shiftl 7 4.
Definition TSI148_LCSR_DCTL_PBOT_SHIFT : Z := 0.
Definition TSI148_LCSR_DCTL_PBOT_M : Z := 7.
Definition TSI148_LCSR_DSTA_VBE : Z := Z.shiftl 1 28.
Definition TSI148_LCSR_DSTA_ABT : Z := Z.shiftl 1 27.
Definition TSI148_LCSR_DSTA_DON : Z := Z.shiftl 1 25.
Definition TSI148_LCSR_DSTA_BSY : Z := Z.shiftl 1 24.
Definition TSI148_LCSR_DSAT_TYP_PCI : Z := Z.shiftl 0 28.
Definition TSI148_LCSR_DSAT_TYP_VME : Z := Z.shiftl 1 28.
Definition TSI148_LCSR_DSAT_2eSSTM_SHIFT : Z := 11.
Definition TSI148_LCSR_DSAT_2eSSTM_M : Z := Z.shiftl 3 11.
Definition TSI148_LCSR_DSAT_TM_SHIFT : Z := 8.
Definition TSI148_LCSR_DSAT_TM_M : Z := Z.shiftl 7 8.
Definition TSI148_LCSR_DSAT_DBW_SHIFT : Z := 6.
Definition TSI148_LCSR_DSAT_DBW_M : Z := Z.shiftl 3 6.
Definition TSI148_LCSR_DSAT_SUP : Z := Z.shiftl 1 5.
Definition TSI148_LCSR_DSAT_PGM : Z := Z.shiftl 1 4.
Definition TSI148_LCSR_DSAT_AMODE_SHIFT : Z := 0.
Definition TSI148_LCSR_DSAT_AMODE_M : Z := 0xf.
Definition TSI148_LCSR_DDAT_TYP_PCI : Z := Z.shiftl 0 28.
Definition TSI148_LCSR_DDAT_TYP_VME : Z := Z.shiftl 1 28.
Definition TSI148_LCSR_DNLAL_DNLAL_M : Z := Z.shiftl 0x1fffffff 3.
Definition TSI148_LCSR_DNLAL_LLA : Z := 1.

(** * Registers

    One constructor per register of [struct tsi148_lcsr] the driver touches;
    arrays of register blocks are indexed.  [PCFS_ID] is the first word of the
    PCI configuration header (device and vendor id). *)
Inductive reg :=
  | OTSAU (i : Z) | OTSAL (i : Z) | OTEAU (i : Z) | OTEAL (i : Z)
  | OTOFU (i : Z) | OTOFL (i : Z) | OTBS (i : Z) | OTAT (i : Z)
  | ITAT (i : Z)
  | PCFS_ID
  | VMCTRL | VSTAT | PSTAT | VEAU | VEAL | VEAT
  | EDPAU | EDPAL | EDPXA | EDPXS | EDPAT
  | CBAU | CBAL | CRGAT | LMAT | VICR
  | INTEN | INTEO | INTS | INTC | INTM1 | INTM2
  | DCTL (i : Z) | DSTA (i : Z) | DNLAU (i : Z) | DNLAL (i : Z) | DCNT (i : Z).

#[export] Instance reg_eq_dec : EqDecision reg.
Proof. solve_decision. Defined.

(** Access to the chip.  A read may change the chip, a write may have effects
    besides storing. [ioread8_viack irq] is the 8-bit read of
    [lcsr.viack[irq * 4 + 3]], which runs an IACK cycle on the VME bus. *)
Class ChipIO (C : Type) := {
  ioread32be : reg → C → Z * C;
  iowrite32be : Z → reg → C → C;
  ioread8_viack : Z → C → Z * C;
}.

(** The registers that only hold what was written to them: the translation
    windows, the CRG mapping and the interrupt enables. *)
Definition is_latch (r : reg) : bool :=
  match r with
  | OTSAU i | OTSAL i | OTEAU i | OTEAL i | OTOFU i | OTOFL i | OTBS i | OTAT i
  | ITAT i => (0 <=? i) && (i <? TSI148_NUM_OUT_WINDOWS)
  | CBAU | CBAL | CRGAT | LMAT | INTEN | INTEO => true
  | _ => false
  end.

(** Every interrupt source of the INTEN/INTEO registers. *)
Definition TSI148_INT_ALL : Z :=
  Z.lor TSI148_LCSR_INT_DMA_M (Z.lor TSI148_LCSR_INT_LM_M (Z.lor TSI148_LCSR_INT_MB_M
  (Z.lor TSI148_LCSR_INT_PERR (Z.lor TSI148_LCSR_INT_VERR (Z.lor TSI148_LCSR_INT_VIE
  (Z.lor TSI148_LCSR_INT_IACK (Z.lor TSI148_LCSR_INT_SYSFL
  (Z.lor TSI148_LCSR_INT_ACFL TSI148_LCSR_INT_IRQM)))))))).

(** Every bit of the OTAT register that tsi148.h gives a meaning. *)
Definition TSI148_OTAT_ALL : Z :=
  Z.lor TSI148_LCSR_OTAT_EN (Z.lor TSI148_LCSR_OTAT_MRPFD (Z.lor TSI148_LCSR_OTAT_PFS_M
  (Z.lor TSI148_LCSR_OTAT_2eSSTM_M (Z.lor TSI148_LCSR_OTAT_TM_M (Z.lor TSI148_LCSR_OTAT_DBW_M
  (Z.lor TSI148_LCSR_OTAT_SUP (Z.lor TSI148_LCSR_OTAT_PGM TSI148_LCSR_OTAT_AMODE_M))))))).

(** The implemented bits of a latch, as the [_M] masks of tsi148.h give them. *)
Definition wmask (r : reg) : Z :=
  match r with
  | OTSAL _ => TSI148_LCSR_OTSAL_M
  | OTEAL _ => TSI148_LCSR_OTEAL_M
  | OTOFL _ => TSI148_LCSR_OTOFFL_M
  | OTBS _ => TSI148_LCSR_OTBS_M
  | OTAT _ => TSI148_OTAT_ALL
  | CBAL => TSI148_LCSR_CBAL_M
  | CRGAT | LMAT => 0xff
  | INTEN | INTEO => TSI148_INT_ALL
  | _ => 0xffffffff
  end.

(** What the driver relies on: a latch keeps the implemented bits of the last
    value written to it, whatever else is read or written. *)
Class ChipLaws (C : Type) `{ChipIO C} := {
  latch : reg → C → Z;
  ioread32be_latch : ∀ r c, is_latch r = true → (ioread32be r c).1 = latch r c;
  ioread32be_keeps : ∀ r r' c, is_latch r' = true → latch r' (ioread32be r c).2 = latch r' c;
  ioread8_viack_keeps : ∀ i r' c, is_latch r' = true → latch r' (ioread8_viack i c).2 = latch r' c;
  iowrite32be_latch : ∀ v r c, is_latch r = true →
    latch r (iowrite32be v r c) = Z.land v (wmask r);
  iowrite32be_keeps : ∀ v r r' c, r ≠ r' → is_latch r' = true →
    latch r' (iowrite32be v r c) = latch r' c;
}.

(** Chip accesses as computations. *)
Section access.
Context `{ChipIO C}.

Definition rd (r : reg) : M C Z := λ c, Some (ioread32be r c).
Definition wr (v : Z) (r : reg) : M C () := λ c, Some ((), iowrite32be v r c).

Definition rd8_viack (irq : Z) : M C Z := λ c, Some (ioread8_viack irq c).

(** * The inline helpers of tsi148.h *)

Definition tsi148_get_slotnum : M C Z :=
  v ← rd VSTAT; mret (Z.land v 0x1f).

Definition tsi148_get_syscon : M C Z :=
  v ← rd VSTAT; mret (if truthy (Z.land v 0x100) then 1 else 0).

Definition tsi148_set_interrupts (mask : Z) : M C Z :=
  wr mask INTEO;;
  wr mask INTEN;;
  (* Quick sanity check; || does not read INTEN when INTEO is already wrong *)
  o ← rd INTEO;
  if negb (o =? mask) then mret (-1) else
  n ← rd INTEN;
  if negb (n =? mask) then mret (-1) else mret 0.

Definition tsi148_get_int_enabled : M C Z := rd INTEO.

Definition tsi148_get_int_status : M C Z := rd INTS.

Definition tsi148_clear_int (mask : Z) : M C () := wr mask INTC.

Definition tsi148_iack8 (irq : Z) : M C Z :=
  vec ← rd8_viack irq;
  mret (Z.land vec 0xff).

Definition tsi148_bus_error_chk (clear : Z) : M C Z :=
  veat ← rd VEAT;
  if truthy (Z.land veat TSI148_LCSR_VEAT_VES) then
    (if truthy clear then wr TSI148_LCSR_VEAT_VESCL VEAT else mret ());;
    mret 1
  else mret 0.
End access.

(** * A concrete chip

    Plain registers, with the masks of the latches, and a fixed IACK vector per
    level. *)
Module LatchChip.
Definition chip : Type := reg → Z.

Definition write (v : Z) (r : reg) (c : chip) : chip :=
  λ r', if decide (r = r') then Z.land v (if is_latch r then wmask r else 0xffffffff)
        else c r'.

#[global] Instance latch_chip_io : ChipIO chip := {
  ioread32be r c := (c r, c);
  iowrite32be := write;
  ioread8_viack irq c := (0x40 + irq, c);
}.

#[global] Instance latch_chip_laws : ChipLaws chip.
Proof.
  refine {| latch r c := c r |}.
  - done.
  - done.
  - done.
  - intros v r c Hr. simpl. unfold write. rewrite decide_True by done. by rewrite Hr.
  - intros v r r' c Hr _. simpl. unfold write. by rewrite decide_False by done.
Defined.

Definition reset : chip := λ _, 0.
End LatchChip.

(** * Rules for the chip accesses *)

Section rules.
Context `{ChipLaws C}.

Lemma wp_rd_latch r (Q : Z → C → Prop) c :
  is_latch r = true →
  (∀ c', (∀ r', is_latch r' = true → latch r' c' = latch r' c) → Q (latch r c) c') →
  wp (rd r) Q c.
Proof.
  intros Hr HQ. unfold wp, rd. destruct (ioread32be r c) as [v c'] eqn:E.
  pose proof (ioread32be_latch r c Hr) as Hv. rewrite E in Hv. simpl in Hv. subst v.
  apply HQ. intros r' Hr'. pose proof (ioread32be_keeps r r' c Hr') as Hk. by rewrite E in Hk.
Qed.

Lemma wp_rd_any r (Q : Z → C → Prop) c :
  (∀ v c', (∀ r', is_latch r' = true → latch r' c' = latch r' c) → Q v c') →
  wp (rd r) Q c.
Proof.
  intros HQ. unfold wp, rd. destruct (ioread32be r c) as [v c'] eqn:E.
  apply HQ. intros r' Hr'. pose proof (ioread32be_keeps r r' c Hr') as Hk. by rewrite E in Hk.
Qed.

Lemma wp_wr v r (Q : () → C → Prop) c :
  (∀ c', (∀ r', is_latch r' = true →
          latch r' c' = if decide (r = r') then Z.land v (wmask r) else latch r' c) →
    Q () c') →
  wp (wr v r) Q c.
Proof.
  intros HQ. unfold wp, wr. apply HQ. intros r' Hr'. destruct (decide (r = r')) as [<-|Hne].
  - by apply iowrite32be_latch.
  - by apply iowrite32be_keeps.
Qed.
End rules.
