(* ===== verification/Tsi148Attr.v ===== *)
(** Attribute words of the TSI148: the pure conversions of
    [src/vmebridge/driver/tsi148.c] between VME address modifiers, user
    settings and the bit fields of the OTAT, DSAT/DDAT, DCTL and CRGAT
    registers, with the 64-bit address arithmetic on register pairs. *)
From S2P Require Import Prelude VmeBus Tsi148Regs.

Local Open Scope Z_scope.

(** The four output parameters of [am_to_attr]. *)
Record tattr := mk_tattr {
  addr_size : Z;
  transfer_mode : Z;
  user_access : Z;
  data_access : Z
}.

(** [am_to_attr]: [None] is the return value -1, which leaves the outputs
    unset. *)
Definition am_to_attr (am : Z) : option tattr :=
  if am =? VME_A16_USER then Some (mk_tattr TSI148_A16 TSI148_SCT TSI148_USER TSI148_DATA)
  else if am =? VME_A16_SUP then Some (mk_tattr TSI148_A16 TSI148_SCT TSI148_SUPER TSI148_DATA)
  else if am =? VME_A24_USER_MBLT then Some (mk_tattr TSI148_A24 TSI148_MBLT TSI148_USER TSI148_DATA)
  else if am =? VME_A24_USER_DATA_SCT then Some (mk_tattr TSI148_A24 TSI148_SCT TSI148_USER TSI148_DATA)
  else if am =? VME_A24_USER_PRG_SCT then Some (mk_tattr TSI148_A24 TSI148_SCT TSI148_USER TSI148_PROG)
  else if am =? VME_A24_USER_BLT then Some (mk_tattr TSI148_A24 TSI148_BLT TSI148_USER TSI148_DATA)
  else if am =? VME_A24_SUP_MBLT then Some (mk_tattr TSI148_A24 TSI148_MBLT TSI148_SUPER TSI148_DATA)
  else if am =? VME_A24_SUP_DATA_SCT then Some (mk_tattr TSI148_A24 TSI148_SCT TSI148_SUPER TSI148_DATA)
  else if am =? VME_A24_SUP_PRG_SCT then Some (mk_tattr TSI148_A24 TSI148_SCT TSI148_SUPER TSI148_PROG)
  else if am =? VME_A24_SUP_BLT then Some (mk_tattr TSI148_A24 TSI148_BLT TSI148_SUPER TSI148_DATA)
  else if am =? VME_A32_USER_MBLT then Some (mk_tattr TSI148_A32 TSI148_MBLT TSI148_USER TSI148_DATA)
  else if am =? VME_A32_USER_DATA_SCT then Some (mk_tattr TSI148_A32 TSI148_SCT TSI148_USER TSI148_DATA)
  else if am =? VME_A32_USER_PRG_SCT then Some (mk_tattr TSI148_A32 TSI148_SCT TSI148_USER TSI148_PROG)
  else if am =? VME_A32_USER_BLT then Some (mk_tattr TSI148_A32 TSI148_BLT TSI148_USER TSI148_DATA)
  else if am =? VME_A32_SUP_MBLT then Some (mk_tattr TSI148_A32 TSI148_MBLT TSI148_SUPER TSI148_DATA)
  else if am =? VME_A32_SUP_DATA_SCT then Some (mk_tattr TSI148_A32 TSI148_SCT TSI148_SUPER TSI148_DATA)
  else if am =? VME_A32_SUP_PRG_SCT then Some (mk_tattr TSI148_A32 TSI148_SCT TSI148_SUPER TSI148_PROG)
  else if am =? VME_A32_SUP_BLT then Some (mk_tattr TSI148_A32 TSI148_BLT TSI148_SUPER TSI148_DATA)
  else if am =? VME_A64_SCT then Some (mk_tattr TSI148_A64 TSI148_SCT TSI148_SUPER TSI148_DATA)
  else if am =? VME_A64_BLT then Some (mk_tattr TSI148_A64 TSI148_BLT TSI148_SUPER TSI148_DATA)
  else if am =? VME_A64_MBLT then Some (mk_tattr TSI148_A64 TSI148_MBLT TSI148_SUPER TSI148_DATA)
  else if am =? VME_CR_CSR then Some (mk_tattr TSI148_CRCSR TSI148_SCT TSI148_USER TSI148_DATA)
  else None.

Arguments am_to_attr : simpl never.

(** [attr_to_am]: [am0] is the value of [*am] on entry, kept for a combination
    that has no address modifier. *)
Definition attr_to_am (addr_size transfer_mode user_access data_access am0 : Z) : Z :=
  if addr_size =? TSI148_A16 then
    if user_access =? TSI148_USER then VME_A16_USER else VME_A16_SUP
  else if addr_size =? TSI148_A24 then
    if user_access =? TSI148_USER then
      if transfer_mode =? TSI148_SCT then
        if data_access =? TSI148_DATA then VME_A24_USER_DATA_SCT else VME_A24_USER_PRG_SCT
      else if transfer_mode =? TSI148_BLT then VME_A24_USER_BLT
      else if transfer_mode =? TSI148_MBLT then VME_A24_USER_MBLT else am0
    else if user_access =? TSI148_SUPER then
      if transfer_mode =? TSI148_SCT then
        if data_access =? TSI148_DATA then VME_A24_SUP_DATA_SCT else VME_A24_SUP_PRG_SCT
      else if transfer_mode =? TSI148_BLT then VME_A24_SUP_BLT
      else if transfer_mode =? TSI148_MBLT then VME_A24_SUP_MBLT else am0
    else am0
  else if addr_size =? TSI148_A32 then
    if user_access =? TSI148_USER then
      if transfer_mode =? TSI148_SCT then
        if data_access =? TSI148_DATA then VME_A32_USER_DATA_SCT else VME_A32_USER_PRG_SCT
      else if transfer_mode =? TSI148_BLT then VME_A32_USER_BLT
      else if transfer_mode =? TSI148_MBLT then VME_A32_USER_MBLT else am0
    else if user_access =? TSI148_SUPER then
      if transfer_mode =? TSI148_SCT then
        if data_access =? TSI148_DATA then VME_A32_SUP_DATA_SCT else VME_A32_SUP_PRG_SCT
      else if transfer_mode =? TSI148_BLT then VME_A32_SUP_BLT
      else if transfer_mode =? TSI148_MBLT then VME_A32_SUP_MBLT else am0
    else am0
  else if addr_size =? TSI148_A64 then
    if transfer_mode =? TSI148_SCT then VME_A64_SCT
    else if transfer_mode =? TSI148_BLT then VME_A64_BLT
    else if transfer_mode =? TSI148_MBLT then VME_A64_MBLT else am0
  else if addr_size =? TSI148_CRCSR then VME_CR_CSR
  else am0.

(** Upper half of a 64-bit difference and sum of register pairs.  The unsigned
    result is returned as an [int]; the callers store it in an unsigned. *)
Definition sub64hi (lo0 hi0 lo1 hi1 : Z) : Z :=
  if lo0 <? lo1 then s32 (hi0 - hi1 - 1) else s32 (hi0 - hi1).

Definition add64hi (lo0 hi0 lo1 hi1 : Z) : Z :=
  if u32 (lo0 + lo1) <? lo1 then s32 (hi0 + hi1 + 1) else s32 (hi0 + hi1).

(** [reg_join]: a 64-bit value from two registers. *)
Definition reg_join (high low : Z) : Z := Z.lor (Z.shiftl high 32) low.

(** * Attribute words *)

(** One of the transfer modes, and one of the address sizes, of tsi148.h. *)
Definition known_tm (tm : Z) : bool :=
  (tm =? TSI148_SCT) || (tm =? TSI148_BLT) || (tm =? TSI148_MBLT) ||
  (tm =? TSI148_2eVME) || (tm =? TSI148_2eSST) || (tm =? TSI148_2eSSTB).

Definition known_as (a : Z) : bool :=
  (a =? TSI148_A16) || (a =? TSI148_A24) || (a =? TSI148_A32) || (a =? TSI148_A64) ||
  (a =? TSI148_CRCSR) || (a =? TSI148_USER1) || (a =? TSI148_USER2) ||
  (a =? TSI148_USER3) || (a =? TSI148_USER4).

Definition known_sst (m : Z) : bool :=
  (m =? VME_SST160) || (m =? VME_SST267) || (m =? VME_SST320).

(** [tsi148_setup_window_attributes]: the word, or [-EINVAL]. *)
Definition tsi148_setup_window_attributes (v2esst_mode data_width am : Z) : Z :=
  let attrs := 0 in
  if negb (known_sst v2esst_mode) then - EINVAL else
  let attrs := Z.lor attrs (Z.land (Z.shiftl v2esst_mode TSI148_LCSR_OTAT_2eSSTM_SHIFT)
                                   TSI148_LCSR_OTAT_2eSSTM_M) in
  if negb ((data_width =? VME_D16) || (data_width =? VME_D32)) then - EINVAL else
  let dw := if data_width =? VME_D16 then TSI148_DW_16 else TSI148_DW_32 in
  let attrs := Z.lor attrs (Z.land (Z.shiftl dw TSI148_LCSR_OTAT_DBW_SHIFT)
                                   TSI148_LCSR_OTAT_DBW_M) in
  match am_to_attr am with
  | None => - EINVAL
  | Some t =>
    if negb (known_tm (transfer_mode t)) then - EINVAL else
    let attrs := Z.lor attrs (Z.land (Z.shiftl (transfer_mode t) TSI148_LCSR_OTAT_TM_SHIFT)
                                     TSI148_LCSR_OTAT_TM_M) in
    if negb ((user_access t =? TSI148_SUPER) || (user_access t =? TSI148_USER)) then - EINVAL else
    let attrs := if user_access t =? TSI148_SUPER then Z.lor attrs TSI148_LCSR_OTAT_SUP
                 else attrs in
    if negb ((data_access t =? TSI148_PROG) || (data_access t =? TSI148_DATA)) then - EINVAL else
    let attrs := if data_access t =? TSI148_PROG then Z.lor attrs TSI148_LCSR_OTAT_PGM
                 else attrs in
    if negb (known_as (addr_size t)) then - EINVAL else
    Z.lor attrs (Z.land (Z.shiftl (addr_size t) TSI148_LCSR_OTAT_AMODE_SHIFT)
                        TSI148_LCSR_OTAT_AMODE_M)
  end.

(** [tsi148_setup_dma_attributes]: the same with the DSAT/DDAT masks. *)
Definition tsi148_setup_dma_attributes (v2esst_mode data_width am : Z) : Z :=
  let attrs := 0 in
  if negb (known_sst v2esst_mode) then - EINVAL else
  let attrs := Z.lor attrs (Z.land (Z.shiftl v2esst_mode TSI148_LCSR_DSAT_2eSSTM_SHIFT)
                                   TSI148_LCSR_DSAT_2eSSTM_M) in
  if negb ((data_width =? VME_D16) || (data_width =? VME_D32)) then - EINVAL else
  let dw := if data_width =? VME_D16 then TSI148_DW_16 else TSI148_DW_32 in
  let attrs := Z.lor attrs (Z.land (Z.shiftl dw TSI148_LCSR_DSAT_DBW_SHIFT)
                                   TSI148_LCSR_DSAT_DBW_M) in
  match am_to_attr am with
  | None => - EINVAL
  | Some t =>
    if negb (known_tm (transfer_mode t)) then - EINVAL else
    let attrs := Z.lor attrs (Z.land (Z.shiftl (transfer_mode t) TSI148_LCSR_DSAT_TM_SHIFT)
                                     TSI148_LCSR_DSAT_TM_M) in
    if negb ((user_access t =? TSI148_SUPER) || (user_access t =? TSI148_USER)) then - EINVAL else
    let attrs := if user_access t =? TSI148_SUPER then Z.lor attrs TSI148_LCSR_DSAT_SUP
                 else attrs in
    if negb ((data_access t =? TSI148_PROG) || (data_access t =? TSI148_DATA)) then - EINVAL else
    let attrs := if data_access t =? TSI148_PROG then Z.lor attrs TSI148_LCSR_DSAT_PGM
                 else attrs in
    if negb (known_as (addr_size t)) then - EINVAL else
    Z.lor attrs (Z.land (Z.shiftl (addr_size t) TSI148_LCSR_DSAT_AMODE_SHIFT)
                        TSI148_LCSR_DSAT_AMODE_M)
  end.

(** [tsi148_dma_setup_src], [tsi148_dma_setup_dst] *)
Definition tsi148_dma_setup_src (desc : vme_dma) : Z :=
  if dir desc =? VME_DMA_TO_DEVICE then TSI148_LCSR_DSAT_TYP_PCI
  else if dir desc =? VME_DMA_FROM_DEVICE then
    let rc := tsi148_setup_dma_attributes (dma_v2esst_mode (src desc))
                (dma_data_width (src desc)) (dma_am (src desc)) in
    if 0 <=? rc then Z.lor rc TSI148_LCSR_DSAT_TYP_VME else rc
  else - EINVAL.

Definition tsi148_dma_setup_dst (desc : vme_dma) : Z :=
  if dir desc =? VME_DMA_TO_DEVICE then
    let rc := tsi148_setup_dma_attributes (dma_v2esst_mode (dst desc))
                (dma_data_width (dst desc)) (dma_am (dst desc)) in
    if 0 <=? rc then Z.lor rc TSI148_LCSR_DDAT_TYP_VME else rc
  else if dir desc =? VME_DMA_FROM_DEVICE then TSI148_LCSR_DDAT_TYP_PCI
  else - EINVAL.

(** [tsi148_dma_setup_ctl] *)
Definition tsi148_dma_setup_ctl (desc : vme_dma) : Z :=
  let c := ctrl desc in
  if (vme_block_size c <? VME_DMA_BSIZE_32) || (vme_block_size c >? VME_DMA_BSIZE_4096)
  then - EINVAL else
  if (vme_backoff_time c <? VME_DMA_BACKOFF_0) || (vme_backoff_time c >? VME_DMA_BACKOFF_64)
  then - EINVAL else
  if (pci_block_size c <? VME_DMA_BSIZE_32) || (pci_block_size c >? VME_DMA_BSIZE_4096)
  then - EINVAL else
  if (pci_backoff_time c <? VME_DMA_BACKOFF_0) || (pci_backoff_time c >? VME_DMA_BACKOFF_64)
  then - EINVAL else
  let rc := 0 in
  let rc := Z.lor rc (Z.land (Z.shiftl (vme_block_size c) TSI148_LCSR_DCTL_VBKS_SHIFT)
                             TSI148_LCSR_DCTL_VBKS_M) in
  let rc := Z.lor rc (Z.land (Z.shiftl (vme_backoff_time c) TSI148_LCSR_DCTL_VBOT_SHIFT)
                             TSI148_LCSR_DCTL_VBOT_M) in
  let rc := Z.lor rc (Z.land (Z.shiftl (pci_block_size c) TSI148_LCSR_DCTL_PBKS_SHIFT)
                             TSI148_LCSR_DCTL_PBKS_M) in
  Z.lor rc (Z.land (Z.shiftl (pci_backoff_time c) TSI148_LCSR_DCTL_PBOT_SHIFT)
                   TSI148_LCSR_DCTL_PBOT_M).

(** [get_vmeaddr]: [None] is [-EINVAL]. *)
Definition get_vmeaddr (desc : vme_dma) : option Z :=
  if dir desc =? VME_DMA_TO_DEVICE then Some (dma_addrl (dst desc))
  else if dir desc =? VME_DMA_FROM_DEVICE then Some (dma_addrl (src desc))
  else None.

(** [__tsi148_get_bshift] and the block arithmetic: rules 2.12a and 2.78 of the
    VME64 standard. *)
Definition tsi148_am_bshift (am : Z) : Z :=
  if (am =? VME_A64_MBLT) || (am =? VME_A32_USER_MBLT) || (am =? VME_A32_SUP_MBLT) ||
     (am =? VME_A24_USER_MBLT) || (am =? VME_A24_SUP_MBLT) then 11
  else if (am =? VME_A64_BLT) || (am =? VME_A32_USER_BLT) || (am =? VME_A32_SUP_BLT) ||
     (am =? VME_A40_BLT) || (am =? VME_A24_USER_BLT) || (am =? VME_A24_SUP_BLT) then 8
  else 0.

Definition tsi148_get_bshift (desc : vme_dma) : Z :=
  tsi148_am_bshift (if dir desc =? VME_DMA_FROM_DEVICE then dma_am (src desc)
                    else dma_am (dst desc)).

Definition tsi148_get_bsize (bshift : Z) : Z := Z.shiftl 1 bshift.

Definition tsi148_get_bmask (bsize : Z) : Z := bsize - 1.

(** [am_to_crgattrs] *)
Definition am_to_crgattrs (am : Z) : Z :=
  match am_to_attr am with
  | None => - EINVAL
  | Some t =>
    let attrs := 0 in
    if negb ((addr_size t =? TSI148_A16) || (addr_size t =? TSI148_A24) ||
             (addr_size t =? TSI148_A32) || (addr_size t =? TSI148_A64)) then - EINVAL else
    let attrs := Z.lor attrs
      (if addr_size t =? TSI148_A16 then TSI148_LCSR_CRGAT_AS_16
       else if addr_size t =? TSI148_A24 then TSI148_LCSR_CRGAT_AS_24
       else if addr_size t =? TSI148_A32 then TSI148_LCSR_CRGAT_AS_32
       else TSI148_LCSR_CRGAT_AS_64) in
    if negb ((data_access t =? TSI148_PROG) || (data_access t =? TSI148_DATA)) then - EINVAL else
    let attrs := Z.lor attrs (if data_access t =? TSI148_PROG then TSI148_LCSR_CRGAT_PGM
                              else TSI148_LCSR_CRGAT_DATA) in
    if negb ((user_access t =? TSI148_SUPER) || (user_access t =? TSI148_USER)) then - EINVAL else
    Z.lor attrs (if user_access t =? TSI148_SUPER then TSI148_LCSR_CRGAT_SUPR
                 else TSI148_LCSR_CRGAT_NPRIV)
  end.

(** * Lemmas *)

(** The address modifiers the bridge supports. *)
Definition supported_am : list Z :=
  [VME_A16_USER; VME_A16_SUP;
   VME_A24_USER_MBLT; VME_A24_USER_DATA_SCT; VME_A24_USER_PRG_SCT; VME_A24_USER_BLT;
   VME_A24_SUP_MBLT; VME_A24_SUP_DATA_SCT; VME_A24_SUP_PRG_SCT; VME_A24_SUP_BLT;
   VME_A32_USER_MBLT; VME_A32_USER_DATA_SCT; VME_A32_USER_PRG_SCT; VME_A32_USER_BLT;
   VME_A32_SUP_MBLT; VME_A32_SUP_DATA_SCT; VME_A32_SUP_PRG_SCT; VME_A32_SUP_BLT;
   VME_A64_SCT; VME_A64_BLT; VME_A64_MBLT; VME_CR_CSR].

(** The four attributes have one of the values the chip encodes. *)
Definition tattr_ok (t : tattr) : bool :=
  known_tm (transfer_mode t) && known_as (addr_size t) &&
  ((user_access t =? TSI148_SUPER) || (user_access t =? TSI148_USER)) &&
  ((data_access t =? TSI148_PROG) || (data_access t =? TSI148_DATA)).

Lemma am_to_attr_supported am t : am_to_attr am = Some t → am ∈ supported_am.
Proof.
  unfold am_to_attr. intros H.
  repeat (case_match; [match goal with E : (am =? _) = true |- _ =>
    apply Z.eqb_eq in E; rewrite E; unfold supported_am; set_solver end|]).
  done.
Qed.

(** Reduce a statement about a supported modifier to one evaluation per
    modifier. *)
Lemma supported_am_forall (P : Z → bool) :
  forallb P supported_am = true → ∀ am t, am_to_attr am = Some t → P am = true.
Proof.
  intros HP am t Ht. apply am_to_attr_supported in Ht.
  rewrite forallb_forall in HP. apply HP. by apply list_elem_of_In.
Qed.

Lemma am_to_attr_ok am t : am_to_attr am = Some t → tattr_ok t = true.
Proof.
  intros Ht.
  pose proof (supported_am_forall
    (λ am, if am_to_attr am is Some t then tattr_ok t else true) eq_refl am t Ht) as H.
  cbv beta in H. by rewrite Ht in H.
Qed.

Lemma attr_to_am_inv am t am0 :
  am_to_attr am = Some t →
  attr_to_am (addr_size t) (transfer_mode t) (user_access t) (data_access t) am0 = am.
Proof.
  intros Ht. unfold am_to_attr in Ht.
  repeat (case_match; [injection Ht as <-; simpl;
    match goal with E : (am =? _) = true |- _ => apply Z.eqb_eq in E; by rewrite E end|]).
  done.
Qed.

(** The same with the user and program fields read back from single bits. *)
Lemma am_fields_inv am t am0 :
  am_to_attr am = Some t →
  attr_to_am (addr_size t) (transfer_mode t) (if user_access t =? TSI148_SUPER then 1 else 0)
    (if data_access t =? TSI148_PROG then 1 else 0) am0 = am.
Proof.
  intros Ht. etrans; [|by apply (attr_to_am_inv am t am0)].
  pose proof (am_to_attr_ok am t Ht) as Hok. unfold tattr_ok in Hok.
  rewrite !andb_true_iff, !orb_true_iff, !Z.eqb_eq in Hok.
  destruct Hok as [[_ [->| ->]] [->| ->]]; reflexivity.
Qed.

Lemma known_sst_cases m : known_sst m = true → m = 0 ∨ m = 1 ∨ m = 2.
Proof.
  unfold known_sst, VME_SST160, VME_SST267, VME_SST320. intros H.
  rewrite !orb_true_iff, !Z.eqb_eq in H. lia.
Qed.

Lemma known_sst_range m : known_sst m = true ↔ 0 <= m <= 2.
Proof.
  split; [intros ?%known_sst_cases; lia|]. intros ?.
  assert (m = 0 ∨ m = 1 ∨ m = 2) as [->|[->| ->]] by lia; done.
Qed.

(** The word of a valid request, field by field, as a boolean check. *)
Definition attr_fields_ok (w sst dw : Z) (t : tattr) : bool :=
  (0 <=? w) && (w <? 2 ^ 14) &&
  (bits 11 3 w =? sst) && (bits 6 2 w =? if dw =? VME_D16 then 0 else 1) &&
  (bits 8 3 w =? transfer_mode t) && (bits 0 4 w =? addr_size t) &&
  Bool.eqb (Z.testbit w 5) (user_access t =? TSI148_SUPER) &&
  Bool.eqb (Z.testbit w 4) (data_access t =? TSI148_PROG).

Lemma setup_window_attributes_ok sst dw am t :
  known_sst sst = true → dw = VME_D16 ∨ dw = VME_D32 → am_to_attr am = Some t →
  attr_fields_ok (tsi148_setup_window_attributes sst dw am) sst dw t = true.
Proof.
  intros Hs Hd Ht.
  pose proof (supported_am_forall (λ am,
    forallb (λ sst, forallb (λ dw,
      if am_to_attr am is Some t then
        attr_fields_ok (tsi148_setup_window_attributes sst dw am) sst dw t else true)
      [VME_D16; VME_D32]) [0; 1; 2]) eq_refl am t Ht) as H.
  cbv beta in H. rewrite Ht in H. rewrite forallb_forall in H.
  specialize (H sst). rewrite forallb_forall in H.
  apply H; [|destruct Hd as [->| ->]; simpl; auto].
  apply known_sst_cases in Hs. simpl. naive_solver.
Qed.

Lemma setup_window_attributes_err sst dw am :
  known_sst sst = false ∨ (dw ≠ VME_D16 ∧ dw ≠ VME_D32) ∨ am_to_attr am = None →
  tsi148_setup_window_attributes sst dw am = - EINVAL.
Proof.
  intros H. unfold tsi148_setup_window_attributes.
  destruct (known_sst sst); simpl; [|done].
  destruct (dw =? VME_D16) eqn:E1; [|destruct (dw =? VME_D32) eqn:E2]; simpl;
    rewrite ?Z.eqb_eq, ?Z.eqb_neq in *; destruct H as [?|[[? ?]|Ha]]; try done;
    by rewrite Ha.
Qed.

(** Either the request is valid or one of its three parts is not. *)
Lemma attr_request_cases sst dw am :
  (known_sst sst = true ∧ (dw = VME_D16 ∨ dw = VME_D32) ∧ ∃ t, am_to_attr am = Some t) ∨
  (known_sst sst = false ∨ (dw ≠ VME_D16 ∧ dw ≠ VME_D32) ∨ am_to_attr am = None).
Proof.
  destruct (known_sst sst); [|naive_solver].
  destruct (decide (dw = VME_D16)), (decide (dw = VME_D32)), (am_to_attr am); naive_solver.
Qed.

Lemma setup_window_attributes_nonneg sst dw am :
  0 <= tsi148_setup_window_attributes sst dw am →
  known_sst sst = true ∧ (dw = VME_D16 ∨ dw = VME_D32) ∧ ∃ t, am_to_attr am = Some t.
Proof.
  intros H. destruct (attr_request_cases sst dw am) as [?|Herr]; [done|].
  by rewrite (setup_window_attributes_err _ _ _ Herr) in H.
Qed.

Lemma attr_fields_ok_spec w sst dw t :
  attr_fields_ok w sst dw t = true ↔
  (0 <= w < 2 ^ 14 ∧ bits 11 3 w = sst ∧ bits 6 2 w = (if dw =? VME_D16 then 0 else 1) ∧
   bits 8 3 w = transfer_mode t ∧ bits 0 4 w = addr_size t ∧
   Z.testbit w 5 = (user_access t =? TSI148_SUPER) ∧
   Z.testbit w 4 = (data_access t =? TSI148_PROG)).
Proof.
  unfold attr_fields_ok.
  rewrite !andb_true_iff, !Bool.eqb_true_iff, !Z.eqb_eq, Z.leb_le, Z.ltb_lt. naive_solver.
Qed.

Lemma sub64hi_u32 lo0 hi0 lo1 hi1 :
  u32 (sub64hi lo0 hi0 lo1 hi1) = u32 (hi0 - hi1 - (if lo0 <? lo1 then 1 else 0)).
Proof.
  unfold sub64hi, s32, u32. destruct (lo0 <? lo1);
    rewrite <- Zminus_mod_idemp_l, Zmod_mod, Zminus_mod_idemp_l; f_equal; lia.
Qed.

Lemma add64hi_u32 lo0 hi0 lo1 hi1 :
  u32 (add64hi lo0 hi0 lo1 hi1) =
  u32 (hi0 + hi1 + (if u32 (lo0 + lo1) <? lo1 then 1 else 0)).
Proof.
  unfold add64hi, s32, u32. destruct ((lo0 + lo1) mod 2 ^ 32 <? lo1);
    rewrite <- Zminus_mod_idemp_l, Zmod_mod, Zminus_mod_idemp_l; f_equal; lia.
Qed.

(** Two words that agree modulo [2^64] and in their lower half have the same
    upper half. *)
Lemma hi_word lo hi x :
  is_u32 lo → (hi * 2 ^ 32 + lo) mod 2 ^ 64 = x mod 2 ^ 64 → u32 hi = x mod 2 ^ 64 / 2 ^ 32.
Proof.
  unfold is_u32, u32. intros Hlo Hx. rewrite <- Hx.
  pose proof (Z.div_mod hi (2 ^ 32) ltac:(lia)) as Hd.
  pose proof (Z.mod_pos_bound hi (2 ^ 32) ltac:(lia)).
  apply Z.div_unique with lo; [lia|]. symmetry.
  apply Zmod_unique with (hi / 2 ^ 32); lia.
Qed.

(** The word of [tsi148_dma_setup_ctl] as a sum of its fields. *)
Lemma dctl_word_check a b c d :
  0 <= a <= 7 → 0 <= b <= 7 → 0 <= c <= 7 → 0 <= d <= 7 →
  Z.lor (Z.lor (Z.lor (Z.lor 0 (Z.land (Z.shiftl a 12) (Z.shiftl 7 12)))
    (Z.land (Z.shiftl b 8) (Z.shiftl 7 8))) (Z.land (Z.shiftl c 4) (Z.shiftl 7 4)))
    (Z.land (Z.shiftl d 0) 7) = a * 2 ^ 12 + b * 2 ^ 8 + c * 2 ^ 4 + d.
Proof.
  intros Ha Hb Hc Hd. pose (r := [0; 1; 2; 3; 4; 5; 6; 7]).
  assert (Hr : ∀ x, 0 <= x <= 7 → In x r) by (intros; simpl; lia).
  assert (H : forallb (λ a, forallb (λ b, forallb (λ c, forallb (λ d,
    Z.lor (Z.lor (Z.lor (Z.lor 0 (Z.land (Z.shiftl a 12) (Z.shiftl 7 12)))
    (Z.land (Z.shiftl b 8) (Z.shiftl 7 8))) (Z.land (Z.shiftl c 4) (Z.shiftl 7 4)))
    (Z.land (Z.shiftl d 0) 7) =? a * 2 ^ 12 + b * 2 ^ 8 + c * 2 ^ 4 + d) r) r) r) r = true)
    by (vm_compute; reflexivity).
  rewrite forallb_forall in H. specialize (H a (Hr a Ha)). cbv beta in H.
  rewrite forallb_forall in H. specialize (H b (Hr b Hb)). cbv beta in H.
  rewrite forallb_forall in H. specialize (H c (Hr c Hc)). cbv beta in H.
  rewrite forallb_forall in H. specialize (H d (Hr d Hd)). by apply Z.eqb_eq in H.
Qed.

(** * Properties *)

(** Every address modifier the bridge accepts is recovered by [attr_to_am]
    from the attribute fields [am_to_attr] gives it: the read-back of a window
    reports the modifier it was created with. *)
Theorem am_attr_roundtrip am t am0 :
  am_to_attr am = Some t →
  attr_to_am (addr_size t) (transfer_mode t) (user_access t) (data_access t) am0 = am.
Proof. apply attr_to_am_inv. Qed.

Lemma am_attr_roundtrip_witness :
  am_to_attr VME_A32_SUP_BLT = Some (mk_tattr 2 1 1 0) ∧ attr_to_am 2 1 1 0 (-1) = VME_A32_SUP_BLT.
Proof.
  split; [reflexivity|].
  apply (am_attr_roundtrip VME_A32_SUP_BLT (mk_tattr 2 1 1 0) (-1)). reflexivity.
Defined.

(** [tsi148_setup_window_attributes] checks every parameter: it returns a
    word whose fields, at the positions the OTAT layout gives, are exactly the
    requested speed, width and the four attributes of the address modifier, and
    that has no other bit; or [-EINVAL], exactly when the speed, the width or
    the modifier is not one the bridge supports. *)
Theorem setup_window_attributes_spec sst dw am :
  let w := tsi148_setup_window_attributes sst dw am in
  (∃ t, am_to_attr am = Some t ∧ 0 <= sst <= 2 ∧ (dw = VME_D16 ∨ dw = VME_D32) ∧
     0 <= w < 2 ^ 14 ∧ bits 11 3 w = sst ∧ bits 6 2 w = (if dw =? VME_D16 then 0 else 1) ∧
     bits 8 3 w = transfer_mode t ∧ bits 0 4 w = addr_size t ∧
     Z.testbit w 5 = (user_access t =? TSI148_SUPER) ∧
     Z.testbit w 4 = (data_access t =? TSI148_PROG)) ∨
  (w = - EINVAL ∧
     (¬ 0 <= sst <= 2 ∨ (dw ≠ VME_D16 ∧ dw ≠ VME_D32) ∨ am_to_attr am = None)).
Proof.
  intros w. destruct (attr_request_cases sst dw am) as [(Hs & Hd & t & Ht)|Herr].
  - left. exists t. split; [done|]. split; [by apply known_sst_range|]. split; [done|].
    apply attr_fields_ok_spec. by apply setup_window_attributes_ok.
  - right. split; [by apply setup_window_attributes_err|].
    destruct Herr as [Hs|?]; [left|by right]. rewrite <- known_sst_range. by rewrite Hs.
Qed.

(** The DMA attribute word (DSAT/DDAT) and the window attribute word (OTAT)
    of the same request are the same number, errors included: the source keeps
    two copies of the construction, with different masks. *)
Theorem setup_dma_attributes_equiv sst dw am :
  tsi148_setup_dma_attributes sst dw am = tsi148_setup_window_attributes sst dw am.
Proof.
  unfold tsi148_setup_dma_attributes, tsi148_setup_window_attributes.
  destruct (known_sst sst) eqn:Hs; simpl; [|done].
  apply known_sst_cases in Hs as [->|[->| ->]]; reflexivity.
Qed.

(** C33 [sub64hi] and [add64hi] give the upper words of the 64-bit difference
    and sum of two register pairs: borrow and carry out of the lower words are
    right for all values. *)
Theorem pair_arith_correct lo0 hi0 lo1 hi1 :
  is_u32 lo0 → is_u32 hi0 → is_u32 lo1 → is_u32 hi1 →
  u32 (sub64hi lo0 hi0 lo1 hi1) =
    u64 ((hi0 * 2 ^ 32 + lo0) - (hi1 * 2 ^ 32 + lo1)) / 2 ^ 32 ∧
  u32 (add64hi lo0 hi0 lo1 hi1) =
    u64 ((hi0 * 2 ^ 32 + lo0) + (hi1 * 2 ^ 32 + lo1)) / 2 ^ 32.
Proof.
  intros Hl0 _ Hl1 _. unfold u64. rewrite sub64hi_u32, add64hi_u32. unfold is_u32 in *.
  split; [apply hi_word with (lo := u32 (lo0 - lo1))|apply hi_word with (lo := u32 (lo0 + lo1))];
    auto with c_int; f_equal; unfold u32.
  - destruct (Z.ltb_spec lo0 lo1).
    + rewrite <- (Zmod_unique (lo0 - lo1) (2 ^ 32) (-1) (lo0 - lo1 + 2 ^ 32)); lia.
    + rewrite Z.mod_small; lia.
  - destruct (decide (lo0 + lo1 < 2 ^ 32)).
    + rewrite Z.mod_small by lia. destruct (Z.ltb_spec (lo0 + lo1) lo1); lia.
    + rewrite <- (Zmod_unique (lo0 + lo1) (2 ^ 32) 1 (lo0 + lo1 - 2 ^ 32)) by lia.
      destruct (Z.ltb_spec (lo0 + lo1 - 2 ^ 32) lo1); lia.
Qed.

Lemma pair_arith_correct_witness :
  u32 (sub64hi 0 1 1 0) = 0 ∧ u32 (add64hi 0xffffffff 0 1 0) = 1.
Proof.
  destruct (pair_arith_correct 0 1 1 0) as [H1 _]; [done..|].
  destruct (pair_arith_correct 0xffffffff 0 1 0) as [_ H2]; [done..|].
  rewrite H1, H2. split; reflexivity.
Defined.

(** The DMA control word: every setting in range is in its own 3-bit field
    of DCTL and no other bit is set (the chip starts nothing); any setting out
    of range gives [-EINVAL]. *)
Theorem dma_setup_ctl_spec desc :
  let c := ctrl desc in let w := tsi148_dma_setup_ctl desc in
  (0 <= vme_block_size c <= 7 ∧ 0 <= vme_backoff_time c <= 7 ∧
   0 <= pci_block_size c <= 7 ∧ 0 <= pci_backoff_time c <= 7 ∧
   w = vme_block_size c * 2 ^ 12 + vme_backoff_time c * 2 ^ 8 +
       pci_block_size c * 2 ^ 4 + pci_backoff_time c ∧ 0 <= w < 2 ^ 15) ∨
  (w = - EINVAL ∧
   ¬ (0 <= vme_block_size c <= 7 ∧ 0 <= vme_backoff_time c <= 7 ∧
      0 <= pci_block_size c <= 7 ∧ 0 <= pci_backoff_time c <= 7)).
Proof.
  cbv zeta. unfold tsi148_dma_setup_ctl. set (c := ctrl desc).
  unfold VME_DMA_BSIZE_32, VME_DMA_BSIZE_4096, VME_DMA_BACKOFF_0, VME_DMA_BACKOFF_64.
  repeat lazymatch goal with |- context [if ?b || ?b' then _ else _] =>
    let E := fresh "E" in destruct (b || b') eqn:E;
    [right; split; [done|]; rewrite orb_true_iff, Z.ltb_lt, Z.gtb_lt in E; lia
    |rewrite orb_false_iff, Z.ltb_ge, Z.gtb_ltb, Z.ltb_ge in E] end.
  left.
  match goal with |- _ ∧ _ ∧ _ ∧ _ ∧ ?w = ?v ∧ _ =>
    assert (w = v) as -> by (apply dctl_word_check; lia) end.
  lia.
Qed.
