(* ===== verification/Tsi148Window.v ===== *)
(** Operations of the TSI148 on its outbound windows, its CRG mapping, its
    error registers and its interrupter: [src/vmebridge/driver/tsi148.c].

    Every operation is a computation on the chip.  A descriptor that the C code
    updates in place is returned with the result. *)
From S2P Require Import Prelude VmeBus Tsi148Regs Tsi148Attr.

Local Open Scope Z_scope.

Section window.
Context `{ChipIO C}.

(** [&chip->lcsr.otrans[window_num]]: outside the array the access would hit
    another register group, so it is a stuck run. *)
Definition otrans_index (n : Z) : M C () :=
  if (0 <=? n) && (n <? TSI148_NUM_OUT_WINDOWS) then mret () else stuck.

Definition tsi148_get_window_attr (desc : vme_mapping) : M C vme_mapping :=
  let n := window_num desc in
  otrans_index n;;
  otat ← rd (OTAT n);
  (* "if (cond) desc->field = v" *)
  let desc := desc <| window_enabled ::= λ old,
    if truthy (Z.land otat TSI148_LCSR_OTAT_EN) then 1 else old |> in
  let desc := desc <| read_prefetch_enabled ::= λ old,
    if negb (truthy (Z.land otat TSI148_LCSR_OTAT_MRPFD)) then 1 else old |> in
  let desc := desc <| read_prefetch_size :=
    Z.shiftr (Z.land otat TSI148_LCSR_OTAT_PFS_M) TSI148_LCSR_OTAT_PFS_SHIFT |> in
  let desc := desc <| v2esst_mode :=
    Z.shiftr (Z.land otat TSI148_LCSR_OTAT_2eSSTM_M) TSI148_LCSR_OTAT_2eSSTM_SHIFT |> in
  let dbw := Z.shiftr (Z.land otat TSI148_LCSR_OTAT_DBW_M) TSI148_LCSR_OTAT_DBW_SHIFT in
  let desc := desc <| data_width ::= λ old,
    if dbw =? TSI148_LCSR_OTAT_DBW_16 then VME_D16
    else if dbw =? TSI148_LCSR_OTAT_DBW_32 then VME_D32 else old |> in
  otbs ← rd (OTBS n);
  let desc := desc <| bcast_select := otbs |> in
  let addr_size := Z.shiftr (Z.land otat TSI148_LCSR_OTAT_AMODE_M)
                            TSI148_LCSR_OTAT_AMODE_SHIFT in
  let transfer_mode := Z.shiftr (Z.land otat TSI148_LCSR_OTAT_TM_M)
                                TSI148_LCSR_OTAT_TM_SHIFT in
  let user_access := if truthy (Z.land otat TSI148_LCSR_OTAT_SUP)
                     then TSI148_SUPER else TSI148_USER in
  let data_access := if truthy (Z.land otat TSI148_LCSR_OTAT_PGM)
                     then TSI148_PROG else TSI148_DATA in
  let desc := desc <| am :=
    attr_to_am addr_size transfer_mode user_access data_access (-1) |> in
  otsal ← rd (OTSAL n);
  otsau ← rd (OTSAU n);
  oteal ← rd (OTEAL n);
  oteau ← rd (OTEAU n);
  otofl ← rd (OTOFL n);
  otofu ← rd (OTOFU n);
  let desc := desc <| pci_addrl := otsal |> <| pci_addru := otsau |> in
  let desc := desc <| sizel := u32 (oteal - otsal) |>
                   <| sizeu := u32 (sub64hi oteal oteau otsal otsau) |> in
  let desc := desc <| vme_addrl := u32 (otofl + otsal) |> in
  mret (desc <| vme_addru :=
    if addr_size =? TSI148_A64 then u32 (add64hi otofl otofu otsal otsau) else 0 |>).

(** Rounding of the window address and size at the start of
    [tsi148_create_window]. *)
Definition window_round (desc : vme_mapping) : vme_mapping :=
  let addr := if truthy (Z.land (vme_addrl desc) 0xffff)
              then clear_low 16 (vme_addrl desc) else vme_addrl desc in
  let size := if truthy (Z.land (sizel desc) 0xffff)
              then clear_low 16 (u32 (vme_addrl desc + sizel desc + 0x10000))
              else sizel desc in
  desc <| vme_addrl := addr |> <| sizel := size |>.

(** The OTAT word of an enabled window. *)
Definition window_otat (w : Z) (desc : vme_mapping) : Z :=
  let otat := Z.lor w TSI148_LCSR_OTAT_EN in
  if truthy (read_prefetch_enabled desc) then
    Z.lor (Z.land otat (Z.lnot TSI148_LCSR_OTAT_MRPFD))
          (Z.land (Z.shiftl (read_prefetch_size desc) TSI148_LCSR_OTAT_PFS_SHIFT)
                  TSI148_LCSR_OTAT_PFS_M)
  else Z.lor otat TSI148_LCSR_OTAT_MRPFD.

Definition tsi148_create_window (desc : vme_mapping) : M C (Z * vme_mapping) :=
  let n := window_num desc in
  let desc := window_round desc in
  if truthy (Z.land (pci_addrl desc) 0xffff) then mret (- EINVAL, desc) else
  let rc := tsi148_setup_window_attributes (v2esst_mode desc) (data_width desc) (am desc) in
  if rc <? 0 then mret (rc, desc) else
  otrans_index n;;
  wr (Z.land (bcast_select desc) TSI148_LCSR_OTBS_M) (OTBS n);;
  wr (Z.land (pci_addrl desc) TSI148_LCSR_OTSAL_M) (OTSAL n);;
  wr (pci_addru desc) (OTSAU n);;
  let oteal := clear_low 16 (u32 (pci_addrl desc + sizel desc - 1)) in
  let oteau := u32 (add64hi (pci_addrl desc) (pci_addru desc) (sizel desc) (sizeu desc)) in
  wr oteal (OTEAL n);;
  wr oteau (OTEAU n);;
  let otofl := u32 (vme_addrl desc - pci_addrl desc) in
  let otofu := u32 (sub64hi (vme_addrl desc) (vme_addru desc)
                            (pci_addrl desc) (pci_addru desc)) in
  wr otofl (OTOFL n);;
  wr otofu (OTOFU n);;
  wr (window_otat rc desc) (OTAT n);;
  mret (0, desc <| window_enabled := 1 |>).

Definition tsi148_remove_window (desc : vme_mapping) : M C vme_mapping :=
  let n := window_num desc in
  otrans_index n;;
  wr 0 (OTAT n);;
  wr 0 (OTSAL n);;
  wr 0 (OTSAU n);;
  wr 0 (OTEAL n);;
  wr 0 (OTEAU n);;
  wr 0 (OTOFL n);;
  wr 0 (OTOFU n);;
  wr 0 (OTBS n);;
  mret (desc <| window_enabled := 0 |>).

(** * CRG mapping *)

Definition tsi148_setup_crg (vme_base am : Z) : M C Z :=
  wr 0 CBAU;;
  wr vme_base CBAL;;
  let attrs := am_to_crgattrs am in
  if attrs <? 0 then wr 0 CBAL;; mret (-1) else
  wr (Z.lor attrs TSI148_LCSR_CRGAT_EN) CRGAT;;
  mret 0.

Definition tsi148_disable_crg : M C () :=
  wr 0 CRGAT;; wr 0 CBAU;; wr 0 CBAL.

(** * Reset state *)

(** The [for] loops of [tsi148_quiesce], with the index of each round. *)
Definition quiesce_windows (n : nat) : M C () :=
  mfold (λ _ i, wr 0 (ITAT (Z.of_nat i));; wr 0 (OTAT (Z.of_nat i))) () (seq 0 n).

Definition quiesce_dma (n : nat) : M C () :=
  mfold (λ _ i, wr 0 (DNLAU (Z.of_nat i));; wr 0 (DNLAL (Z.of_nat i));;
                wr 0 (DCNT (Z.of_nat i))) () (seq 0 n).

Definition tsi148_quiesce : M C () :=
  quiesce_windows (Z.to_nat TSI148_NUM_OUT_WINDOWS);;
  quiesce_dma (Z.to_nat TSI148_NUM_DMA_CHANNELS);;
  wr 0 LMAT;;
  tsi148_disable_crg;;
  wr TSI148_LCSR_EDPAT_EDPCL EDPAT;;
  wr TSI148_LCSR_VEAT_VESCL VEAT;;
  wr (Z.lor (Z.lor (Z.lor TSI148_LCSR_PCSR_SRTO TSI148_LCSR_PCSR_SRTE)
                   TSI148_LCSR_PCSR_DTTE) TSI148_LCSR_PCSR_MRCE) PSTAT;;
  wr TSI148_LCSR_VICR_IRQC VICR;;
  wr 0 INTEO;;
  wr 0xffffffff INTC;;
  wr 0xffffffff INTEN;;
  wr 0 INTM1;;
  wr 0 INTM2;;
  val ← rd VMCTRL;
  let val := Z.land val (Z.lnot (Z.lor TSI148_LCSR_VMCTRL_VTON_M TSI148_LCSR_VMCTRL_VREL_M)) in
  let val := Z.lor val (Z.lor TSI148_LCSR_VMCTRL_VTON_512 TSI148_LCSR_VMCTRL_VREL_T_D_R) in
  wr val VMCTRL.

(** [tsi148_init]; the assignment of the chip's base address to the global
    [chip] has no counterpart: the chip is the state. *)
Definition tsi148_init : M C () :=
  vme_stat_reg ← rd VSTAT;
  let v := Z.land vme_stat_reg (Z.lnot TSI148_LCSR_VSTAT_BDFAIL) in
  let v := Z.lor v TSI148_LCSR_VSTAT_CPURST in
  wr v VSTAT.

(** * Bus errors *)

(** The registers that are only printed are read as well. *)
Definition tsi148_handle_pci_error : M C () :=
  rd EDPAU;; rd EDPAL;; rd EDPAT;; rd EDPXA;; rd EDPXS;;
  wr TSI148_LCSR_EDPAT_EDPCL EDPAT.

Definition tsi148_handle_vme_error : M C vme_bus_error :=
  addru ← rd VEAU;
  addrl ← rd VEAL;
  attr ← rd VEAT;
  let error := mk_vme_bus_error (reg_join addru addrl)
    (Z.shiftr (Z.land attr TSI148_LCSR_VEAT_AM) TSI148_LCSR_VEAT_AM_SHIFT) in
  wr TSI148_LCSR_VEAT_VESCL VEAT;;
  mret error.

(** * Interrupter *)

(** The VICR word that requests an interrupt. *)
Definition virq_word (v level vector : Z) : Z :=
  Z.lor (Z.land v (Z.lnot TSI148_LCSR_VICR_STID_M)) (Z.lor (Z.shiftl level 8) vector).

Section interrupt.
(** The scheduler: time passes and the chip goes on working. *)
Variable schedule_timeout : Z → C → Z * C.
Variable msecs_to_jiffies : Z → Z.

(** The [while] loop that waits for IACK, with at most [fuel] rounds. *)
Fixpoint wait_iack (fuel : nat) (timeout : Z) : M C () :=
  v ← rd VICR;
  if truthy (Z.land v TSI148_LCSR_VICR_IRQS) then
    match fuel with
    | O => stuck
    | S fuel =>
      timeout ← (λ c, Some (schedule_timeout timeout c)) : M C Z;
      if timeout =? 0 then mret () else wait_iack fuel timeout
    end
  else mret ().

Definition tsi148_generate_interrupt (fuel : nat) (level vector msecs : Z) : M C Z :=
  let timeout := msecs_to_jiffies msecs in
  if (level <? 1) || (level >? 7) then mret (- EINVAL) else
  if (vector <? 0) || (vector >? 255) then mret (- EINVAL) else
  v ← rd VICR;
  wr (virq_word v level vector) VICR;;
  wait_iack fuel timeout;;
  v ← rd VICR;
  if truthy (Z.land v TSI148_LCSR_VICR_IRQS) then
    val ← rd VICR;
    let val := Z.land val (Z.lnot (Z.lor TSI148_LCSR_VICR_IRQL_M TSI148_LCSR_VICR_STID_M)) in
    let val := Z.lor val TSI148_LCSR_VICR_IRQC in
    wr val VICR;;
    mret (- ETIME)
  else mret 0.
End interrupt.
End window.

(** * Lemmas *)

(** One step through a chip computation; latch facts are kept as hypotheses. *)
Ltac chip_step :=
  first
  [ wp_step
  | lazymatch goal with
    | |- wp (wr _ _) _ _ => apply wp_wr; let c := fresh "c" in let H := fresh "Hl" in intros c H
    | |- wp (rd ?r) _ _ =>
        first [apply wp_rd_latch; [first [assumption|reflexivity]|]|apply wp_rd_any; intros ?];
        let c := fresh "c" in let H := fresh "Hl" in intros c H
    end ]; cbv beta.

(** Decide an equation between registers. *)
Ltac reg_decide :=
  match goal with
  | |- context [decide (?a = ?b)] =>
      first [rewrite (decide_True (P := a = b)) by reflexivity
            |rewrite (decide_False (P := a = b)) by (intros; congruence)]
  end.

(** Rewrite the content of a latch back through the accesses made to the chip. *)
Ltac latch_simpl :=
  repeat first
  [ reg_decide
  | match goal with
    | H : ∀ r', is_latch r' = true → latch r' ?c = _ |- context [latch ?r ?c] =>
        rewrite (H r) by (first [assumption | reflexivity])
    end ].

(** Rounding only changes the VME address and the size. *)
Ltac round_simpl :=
  repeat match goal with
  | |- context [?f (window_round ?d)] =>
      lazymatch f with
      | vme_addrl => fail | sizel => fail | _ => change (f (window_round d)) with (f d)
      end
  end.

(** Compare the latches after a chain of writes with an image, register by
    register. *)
Ltac latches_solve n :=
  let r := fresh "r" in let Hr := fresh "Hr" in
  intros r Hr;
  destruct r as [i|i|i|i|i|i|i|i|i| | | | | | | | | | | | | | | | | | | | | | | |i|i|i|i|i];
  try done;
  try (destruct (decide (i = n)) as [->|?]);
  latch_simpl; rewrite ?Z.eqb_refl; try done;
  by rewrite (proj2 (Z.eqb_neq _ _)) by done.

Section lemmas.
Context `{ChipLaws C}.
Implicit Types (c : C) (n : Z).

Definition win_ok (n : Z) : bool := (0 <=? n) && (n <? TSI148_NUM_OUT_WINDOWS).

Lemma wp_otrans_index n (Q : () → C → Prop) c :
  win_ok n = true → Q () c → wp (otrans_index n) Q c.
Proof. intros Hn HQ. unfold otrans_index. unfold win_ok in Hn. by rewrite Hn. Qed.

(** The OTAT word is the attribute word with bits above it. *)
Lemma window_otat_eq w d :
  0 <= w < 2 ^ 14 →
  window_otat w d = Z.lor w
    (Z.lor TSI148_LCSR_OTAT_EN
      (if truthy (read_prefetch_enabled d) then Z.shiftl (Z.land (read_prefetch_size d) 3) 16
       else TSI148_LCSR_OTAT_MRPFD)).
Proof.
  intros Hw. unfold window_otat. destruct (truthy (read_prefetch_enabled d));
    [|by rewrite <- Z.lor_assoc].
  rewrite Z.land_lor_distr_l, (land_low_mask 14 w) by (first [lia|done|reflexivity]).
  change (Z.land TSI148_LCSR_OTAT_EN _) with TSI148_LCSR_OTAT_EN.
  unfold TSI148_LCSR_OTAT_PFS_SHIFT, TSI148_LCSR_OTAT_PFS_M.
  by rewrite <- Z.lor_assoc, <- Z.shiftl_land.
Qed.

(** The bits above the attribute word are one of five values. *)
Lemma window_otat_high w d :
  0 <= w < 2 ^ 14 → ∃ h,
    window_otat w d = Z.lor w h ∧
    In h [0x80000000; 0x80010000; 0x80020000; 0x80030000; 0x80040000] ∧
    Z.testbit h 18 = negb (truthy (read_prefetch_enabled d)) ∧
    (truthy (read_prefetch_enabled d) = true → bits 16 2 h = Z.land (read_prefetch_size d) 3).
Proof.
  intros Hw. rewrite window_otat_eq by done. eexists. split; [done|].
  destruct (truthy (read_prefetch_enabled d)); [|by vm_compute; intuition].
  assert (0 <= Z.land (read_prefetch_size d) 3 <= 3) as Hr.
  { pose proof (Z.land_ones (read_prefetch_size d) 2 ltac:(lia)) as E.
    change (Z.ones 2) with 3 in E. rewrite E.
    pose proof (Z.mod_pos_bound (read_prefetch_size d) (2 ^ 2) ltac:(lia)). lia. }
  generalize dependent (Z.land (read_prefetch_size d) 3). intros z Hz.
  assert (z = 0 ∨ z = 1 ∨ z = 2 ∨ z = 3) as [->|[->|[->| ->]]] by lia;
    vm_compute; intuition.
Qed.

(** The fields of a window's OTAT word that [tsi148_get_window_attr] extracts. *)
Lemma window_otat_fields w d :
  0 <= w < 2 ^ 14 →
  let o := Z.land (window_otat w d) (wmask (OTAT 0)) in
  Z.testbit o 31 = true ∧ Z.testbit o 18 = negb (truthy (read_prefetch_enabled d)) ∧
  (truthy (read_prefetch_enabled d) = true → bits 16 2 o = Z.land (read_prefetch_size d) 3) ∧
  bits 11 3 o = bits 11 3 w ∧ bits 6 2 o = bits 6 2 w ∧ bits 8 3 o = bits 8 3 w ∧
  bits 0 4 o = bits 0 4 w ∧ Z.testbit o 5 = Z.testbit w 5 ∧ Z.testbit o 4 = Z.testbit w 4.
Proof.
  intros Hw. destruct (window_otat_high w d Hw) as (h & -> & Hh & H18 & Hp). cbv zeta.
  assert (Ho : Z.land (Z.lor w h) (wmask (OTAT 0)) = Z.lor w h).
  { rewrite Z.land_lor_distr_l. f_equal.
    - apply (land_low_mask 14); [lia|done|reflexivity].
    - simpl in Hh. by destruct Hh as [<-|[<-|[<-|[<-|[<-|[]]]]]]. }
  rewrite Ho, !bits_lor.
  assert (bits 16 2 w = 0) as ->.
  { unfold bits. rewrite Z.shiftr_div_pow2, Z.div_small by lia. done. }
  rewrite !(testbit_lor_high w h) by (apply (testbit_above w 14); lia).
  split; [|split; [done|split; [by rewrite Z.lor_0_l|]]].
  { simpl in Hh. by destruct Hh as [<-|[<-|[<-|[<-|[<-|[]]]]]]. }
  simpl in Hh. destruct Hh as [<-|[<-|[<-|[<-|[<-|[]]]]]];
    (split_and!; [by rewrite Z.lor_0_r..|by apply testbit_lor_low|by apply testbit_lor_low]).
Qed.

(** What [tsi148_create_window] writes for a rounded descriptor [d] and an
    attribute word [w]: the value of each register of the window. *)
Definition window_image (w : Z) (d : vme_mapping) (r : reg) : option Z :=
  let mine i v := if i =? window_num d then Some v else None in
  match r with
  | OTBS i => mine i (Z.land (bcast_select d) TSI148_LCSR_OTBS_M)
  | OTSAL i => mine i (Z.land (pci_addrl d) TSI148_LCSR_OTSAL_M)
  | OTSAU i => mine i (pci_addru d)
  | OTEAL i => mine i (clear_low 16 (u32 (pci_addrl d + sizel d - 1)))
  | OTEAU i => mine i (u32 (add64hi (pci_addrl d) (pci_addru d) (sizel d) (sizeu d)))
  | OTOFL i => mine i (u32 (vme_addrl d - pci_addrl d))
  | OTOFU i => mine i (u32 (sub64hi (vme_addrl d) (vme_addru d) (pci_addrl d) (pci_addru d)))
  | OTAT i => mine i (window_otat w d)
  | _ => None
  end.

(** The latches after a block of writes. *)
Definition latches_after (img : reg → option Z) c c' : Prop :=
  ∀ r, is_latch r = true →
    latch r c' = match img r with Some v => Z.land v (wmask r) | None => latch r c end.

(** Arguments that [tsi148_create_window] accepts. *)
Definition window_request_ok (d : vme_mapping) : Prop :=
  pci_addrl d mod 2 ^ 16 = 0 ∧
  0 <= tsi148_setup_window_attributes (v2esst_mode d) (data_width d) (am d).

Lemma wp_create_window d c :
  win_ok (window_num d) = true → window_request_ok d →
  wp (tsi148_create_window d) (λ r c',
    r = (0, (window_round d) <| window_enabled := 1 |>) ∧
    latches_after (window_image
      (tsi148_setup_window_attributes (v2esst_mode d) (data_width d) (am d))
      (window_round d)) c c') c.
Proof.
  intros Hn [Hp Hw]. unfold tsi148_create_window.
  assert (truthy (Z.land (pci_addrl (window_round d)) 0xffff) = false) as ->.
  { change 0xffff with (Z.ones 16). rewrite truthy_low by lia.
    round_simpl. by rewrite Hp. }
  round_simpl.
  set (w := tsi148_setup_window_attributes _ _ _) in *.
  cbv beta iota zeta. destruct (Z.ltb_spec w 0); [lia|].
  wp_step. apply wp_otrans_index; [done|]. repeat chip_step.
  split; [done|].
  unfold window_image. round_simpl.
  latches_solve (window_num d).
Qed.

Lemma wp_create_window_err d c :
  ¬ window_request_ok d →
  tsi148_create_window d c = Some ((- EINVAL, window_round d), c).
Proof.
  intros Hn. unfold tsi148_create_window, window_request_ok in *.
  change 0xffff with (Z.ones 16). rewrite truthy_low by lia.
  round_simpl.
  destruct (Z.eqb_spec (pci_addrl d mod 2 ^ 16) 0) as [Hp|Hp]; simpl; [|done].
  destruct (attr_request_cases (v2esst_mode d) (data_width d) (am d)) as [(Hs & Hd & t & Ht)|Herr].
  - exfalso. apply Hn. split; [done|].
    pose proof (setup_window_attributes_ok _ _ _ _ Hs Hd Ht) as Hok.
    apply attr_fields_ok_spec in Hok. lia.
  - cbv beta iota zeta. round_simpl. by rewrite (setup_window_attributes_err _ _ _ Herr).
Qed.

Lemma wp_remove_window d c :
  win_ok (window_num d) = true →
  wp (tsi148_remove_window d) (λ d' c',
    d' = d <| window_enabled := 0 |> ∧
    latches_after (λ r, match r with
      | OTBS i | OTSAL i | OTSAU i | OTEAL i | OTEAU i | OTOFL i | OTOFU i | OTAT i =>
          if i =? window_num d then Some 0 else None
      | _ => None end) c c') c.
Proof.
  intros Hn. unfold tsi148_remove_window. wp_step. apply wp_otrans_index; [done|].
  repeat chip_step. split; [done|]. latches_solve (window_num d).
Qed.

(** The descriptor [tsi148_get_window_attr] builds from latch contents [l]. *)
Definition window_decode (l : reg → Z) (d : vme_mapping) : vme_mapping :=
  let n := window_num d in
  let o := l (OTAT n) in
  let mode := bits 0 4 o in
  mk_vme_mapping n (kernel_va d) (user_va d) (fd d)
    (if Z.testbit o 31 then 1 else window_enabled d)
    (if bits 6 2 o =? 0 then VME_D16 else data_width d)
    (attr_to_am mode (bits 8 3 o) (if Z.testbit o 5 then 1 else 0)
       (if Z.testbit o 4 then 1 else 0) (-1))
    (if Z.testbit o 18 then read_prefetch_enabled d else 1)
    (bits 16 2 o) (bits 11 3 o) (l (OTBS n)) (l (OTSAU n)) (l (OTSAL n))
    (u32 (sub64hi (l (OTEAL n)) (l (OTEAU n)) (l (OTSAL n)) (l (OTSAU n))))
    (u32 (l (OTEAL n) - l (OTSAL n)))
    (if mode =? TSI148_A64 then
       u32 (add64hi (l (OTOFL n)) (l (OTOFU n)) (l (OTSAL n)) (l (OTSAU n))) else 0)
    (u32 (l (OTOFL n) + l (OTSAL n))).

Lemma otat_pfs o :
  Z.shiftr (Z.land o TSI148_LCSR_OTAT_PFS_M) TSI148_LCSR_OTAT_PFS_SHIFT = bits 16 2 o.
Proof. exact (field_bits 16 2 o ltac:(lia)). Qed.
Lemma otat_sst o :
  Z.shiftr (Z.land o TSI148_LCSR_OTAT_2eSSTM_M) TSI148_LCSR_OTAT_2eSSTM_SHIFT = bits 11 3 o.
Proof. exact (field_bits 11 3 o ltac:(lia)). Qed.
Lemma otat_dbw o :
  Z.shiftr (Z.land o TSI148_LCSR_OTAT_DBW_M) TSI148_LCSR_OTAT_DBW_SHIFT = bits 6 2 o.
Proof. exact (field_bits 6 2 o ltac:(lia)). Qed.
Lemma otat_tm o :
  Z.shiftr (Z.land o TSI148_LCSR_OTAT_TM_M) TSI148_LCSR_OTAT_TM_SHIFT = bits 8 3 o.
Proof. exact (field_bits 8 3 o ltac:(lia)). Qed.
Lemma otat_amode o :
  Z.shiftr (Z.land o TSI148_LCSR_OTAT_AMODE_M) TSI148_LCSR_OTAT_AMODE_SHIFT = bits 0 4 o.
Proof. exact (field_bits 0 4 o ltac:(lia)). Qed.

(** The shifted field is compared with the unshifted constant [1 << 6], which
    it never equals. *)
Lemma dbw_not_32 o : (bits 6 2 o =? TSI148_LCSR_OTAT_DBW_32) = false.
Proof.
  apply Z.eqb_neq. pose proof (bits_range 6 2 o ltac:(lia)).
  change TSI148_LCSR_OTAT_DBW_32 with 64. lia.
Qed.

Lemma wp_get_window_attr d c :
  win_ok (window_num d) = true →
  wp (tsi148_get_window_attr d) (λ d' c',
    d' = window_decode (λ r, latch r c) d ∧ latches_after (λ _, None) c c') c.
Proof.
  intros Hn. unfold tsi148_get_window_attr. wp_step. apply wp_otrans_index; [done|].
  repeat chip_step. split.
  - latch_simpl. unfold window_decode. set (o := latch (OTAT (window_num d)) c).
    rewrite otat_pfs, otat_sst, otat_dbw, otat_tm, otat_amode.
    unfold TSI148_LCSR_OTAT_EN, TSI148_LCSR_OTAT_MRPFD, TSI148_LCSR_OTAT_SUP,
      TSI148_LCSR_OTAT_PGM.
    rewrite !truthy_bit by lia. rewrite dbw_not_32.
    generalize (Z.testbit o 31), (Z.testbit o 18), (Z.testbit o 5), (Z.testbit o 4).
    generalize (bits 6 2 o), (bits 16 2 o), (bits 11 3 o), (bits 8 3 o), (bits 0 4 o).
    intros. destruct d. cbn -[attr_to_am]. by destruct b0.
  - latches_solve (window_num d).
Qed.

Lemma window_round_aligned d :
  vme_addrl d mod 2 ^ 16 = 0 → sizel d mod 2 ^ 16 = 0 → window_round d = d.
Proof.
  intros Hv Hs. unfold window_round. change 0xffff with (Z.ones 16).
  rewrite !truthy_low, Hv, Hs by lia. by destruct d.
Qed.

(** The IACK loop ends when every sleep shortens the timeout. *)
Lemma wp_wait_iack (schedule_timeout : Z → C → Z * C) fuel timeout c :
  (∀ t c, 0 <= t → 0 <= (schedule_timeout t c).1 ∧ (0 < t → (schedule_timeout t c).1 < t) ∧
     (t = 0 → (schedule_timeout t c).1 = 0)) →
  0 <= timeout < Z.of_nat fuel →
  wp (wait_iack schedule_timeout fuel timeout) (λ _ _, True) c.
Proof.
  intros Hs. revert timeout c. induction fuel as [|fuel IH]; intros timeout c Ht; [lia|].
  simpl. repeat chip_step; [|done].
  match goal with |- wp _ _ ?c => pose proof (Hs timeout c ltac:(lia)) as Hb;
    unfold wp; destruct (schedule_timeout timeout c) as [t' c'] eqn:E end.
  rewrite ?E in Hb. simpl in Hb. destruct (Z.eqb_spec t' 0); [done|].
  apply IH. lia.
Qed.

Lemma virq_word_fields v level vector :
  1 <= level <= 7 → 0 <= vector <= 255 →
  bits 0 8 (virq_word v level vector) = vector ∧
  (bits 8 3 v = 0 → bits 8 3 (virq_word v level vector) = level).
Proof.
  intros Hl Hv. unfold virq_word. rewrite !bits_lor.
  assert (∀ x, bits 0 8 (Z.land x (Z.lnot 0xff)) = 0) as ->.
  { intros x. change 0xff with (Z.ones 8). rewrite ldiff_ones, bits_eq, Z.div_1_r by lia.
    Z.div_mod_to_equations. lia. }
  assert (∀ x, bits 8 3 (Z.land x (Z.lnot 0xff)) = bits 8 3 x) as ->.
  { intros x. change 0xff with (Z.ones 8). rewrite ldiff_ones, !bits_eq by lia.
    f_equal. Z.div_mod_to_equations. lia. }
  rewrite !(bits_eq _ _ (Z.shiftl level 8)), !Z.shiftl_mul_pow2 by lia.
  rewrite !(bits_eq _ _ vector) by lia. rewrite Z.div_mul, Z.div_1_r, Z.div_1_r by lia.
  split.
  - rewrite Z.lor_0_l. replace (level * 2 ^ 8 mod 2 ^ 8) with 0 by (Z.div_mod_to_equations; lia).
    rewrite Z.lor_0_l. apply Z.mod_small. lia.
  - intros ->. rewrite Z.lor_0_l, (Z.div_small vector), Z.lor_0_r by lia.
    apply Z.mod_small. lia.
Qed.

Lemma wp_quiesce_windows c :
  wp (quiesce_windows (Z.to_nat TSI148_NUM_OUT_WINDOWS)) (λ _ c',
    ∀ i, win_ok i = true → latch (OTAT i) c' = 0 ∧ latch (ITAT i) c' = 0) c.
Proof.
  unfold quiesce_windows. eapply wp_mono.
  - apply (wp_mfold _ (λ l _ c', ∀ i, win_ok i = true → Z.to_nat i ∉ l →
      latch (OTAT i) c' = 0 ∧ latch (ITAT i) c' = 0)).
    + intros x l [] c1 HI. repeat chip_step. intros i Hi Hin.
      destruct (decide (Z.of_nat x = i)) as [<-|Hne]; latch_simpl; [done|].
      apply HI; [done|]. intros [Hx|?]%elem_of_cons; [|done].
      unfold win_ok in Hi. lia.
    + intros i Hi Hl. exfalso. apply Hl. apply elem_of_seq. unfold win_ok in Hi.
      change TSI148_NUM_OUT_WINDOWS with 8 in *. lia.
  - intros [] c' HI i Hi. apply HI; [done|]. set_solver.
Qed.

(** The DMA registers are no latches. *)
Lemma wp_quiesce_dma c :
  wp (quiesce_dma (Z.to_nat TSI148_NUM_DMA_CHANNELS)) (λ _ c',
    ∀ r, is_latch r = true → latch r c' = latch r c) c.
Proof.
  unfold quiesce_dma. eapply wp_mono.
  - apply (wp_mfold _ (λ l _ c', ∀ r, is_latch r = true → latch r c' = latch r c)).
    + intros x l [] c1 HI. repeat chip_step. intros r Hr.
      rewrite <- HI by done. rewrite Hl1, Hl0, Hl by done.
      by rewrite !decide_False by (intros <-; done).
    + done.
  - done.
Qed.
End lemmas.

(** Arithmetic of 64 KB aligned window bounds. *)
Lemma aligned_mask x :
  is_u32 x → x mod 2 ^ 16 = 0 → Z.land x (Z.shiftl 0xffff 16) = x.
Proof.
  intros Hx Ha. change (Z.shiftl 0xffff 16) with (Z.shiftl (Z.ones (32 - 16)) 16).
  rewrite land_high_mask by (unfold is_u32 in *; lia). by apply clear_low_id.
Qed.

Lemma u32_mask x : is_u32 x → Z.land x 0xffffffff = x.
Proof.
  intros Hx. change 0xffffffff with (Z.ones 32). rewrite Z.land_ones by lia.
  by apply Z.mod_small.
Qed.

Lemma last_chunk p s :
  p mod 2 ^ 16 = 0 → s mod 2 ^ 16 = 0 →
  clear_low 16 (u32 (p + s - 1)) = u32 (p + s - 2 ^ 16).
Proof.
  intros Hp Hs. rewrite clear_low_sub by lia. unfold u32.
  apply Z.mod_divide in Hp as [a ->], Hs as [b ->]; [|lia..].
  replace (a * 2 ^ 16 + b * 2 ^ 16 - 1) with ((a + b - 1) * 2 ^ 16 + (2 ^ 16 - 1)) by lia.
  replace (a * 2 ^ 16 + b * 2 ^ 16 - 2 ^ 16) with ((a + b - 1) * 2 ^ 16) by lia.
  generalize (a + b - 1). intros k. Z.div_mod_to_equations. lia.
Qed.

(** The size and offset words [tsi148_create_window] writes, read back. *)
Lemma size_readback p pu s su :
  is_u32 p → is_u32 s → p mod 2 ^ 16 = 0 → s mod 2 ^ 16 = 0 → 0 < s →
  u32 (u32 (p + s - 2 ^ 16) - p) = s - 2 ^ 16 ∧
  u32 (sub64hi (u32 (p + s - 2 ^ 16)) (u32 (add64hi p pu s su)) p pu) =
    u32 (su + (if p + s =? 2 ^ 32 then 1 else 0)).
Proof.
  intros Hp Hs Hpa Hsa Hpos. unfold is_u32 in *. rewrite u32_sub_l. split.
  { unfold u32. Z.div_mod_to_equations. lia. }
  rewrite sub64hi_u32, add64hi_u32.
  assert (Hc : (u32 (p + s) <? s) = (2 ^ 32 <=? p + s)).
  { apply eq_bool_prop_intro. rewrite !Is_true_true, Z.ltb_lt, Z.leb_le.
    unfold u32. Z.div_mod_to_equations. lia. }
  assert (Hb : (u32 (p + s - 2 ^ 16) <? p) = (2 ^ 32 <? p + s)).
  { apply Z.mod_divide in Hpa as [a ->], Hsa as [b ->]; [|lia..].
    apply eq_bool_prop_intro. rewrite !Is_true_true, !Z.ltb_lt.
    unfold u32. Z.div_mod_to_equations. lia. }
  rewrite Hc, Hb, <- Z.sub_add_distr, u32_sub_l. f_equal.
  destruct (Z.leb_spec (2 ^ 32) (p + s)), (Z.ltb_spec (2 ^ 32) (p + s)),
    (Z.eqb_spec (p + s) (2 ^ 32)); lia.
Qed.

Lemma offset_readback v vu p pu :
  is_u32 v → is_u32 vu → is_u32 p →
  u32 (u32 (v - p) + p) = v ∧
  u32 (add64hi (u32 (v - p)) (u32 (sub64hi v vu p pu)) p pu) = vu.
Proof.
  intros Hv Hvu Hp. rewrite u32_add_l, Z.sub_add. split; [by apply u32_small|].
  rewrite add64hi_u32, sub64hi_u32, u32_add_l, Z.sub_add, (u32_small v) by done.
  rewrite <- Z.add_assoc, u32_add_l. rewrite <- (u32_small vu) at 2 by done.
  f_equal. destruct (v <? p); lia.
Qed.

Lemma offset_aligned v p :
  v mod 2 ^ 16 = 0 → p mod 2 ^ 16 = 0 → u32 (v - p) mod 2 ^ 16 = 0.
Proof. intros Hv Hp. unfold u32. Z.div_mod_to_equations. lia. Qed.

(** * Properties *)

Section properties.
Context `{ChipLaws C}.

(** C38 Creating a window and reading its attributes back.  For a request on a
    64 KB aligned window the descriptor read back has the requested modifier,
    speed, prefetch size, PCI and VME addresses, and is enabled.  Two fields do
    not come back: the size is one 64 KB chunk short (and its upper word is one
    too large when the PCI range ends at 4 GB), because the end registers hold
    the last chunk and not the end; and the data width is only reported for
    D16, because the switch compares the shifted field with [1 << 6]. *)
Theorem create_get_window (d d0 : vme_mapping) (c : C) :
  win_ok (window_num d) = true → window_num d0 = window_num d →
  mapping_u32 d → window_request_ok d →
  vme_addrl d mod 2 ^ 16 = 0 → sizel d mod 2 ^ 16 = 0 → 0 < sizel d →
  wp ('(rc, _) ← tsi148_create_window d; d' ← tsi148_get_window_attr d0; mret (rc, d'))
     (λ r _, let '(rc, d') := r in
        rc = 0 ∧ window_enabled d' = 1 ∧ am d' = am d ∧ v2esst_mode d' = v2esst_mode d ∧
        (truthy (read_prefetch_enabled d) = true →
           read_prefetch_enabled d' = 1 ∧
           read_prefetch_size d' = Z.land (read_prefetch_size d) 3) ∧
        bcast_select d' = Z.land (bcast_select d) TSI148_LCSR_OTBS_M ∧
        pci_addrl d' = pci_addrl d ∧ pci_addru d' = pci_addru d ∧
        vme_addrl d' = vme_addrl d ∧
        vme_addru d' =
          (if decide (addr_size <$> am_to_attr (am d) = Some TSI148_A64)
           then vme_addru d else 0) ∧
        sizel d' = sizel d - 0x10000 ∧
        sizeu d' = u32 (sizeu d + (if pci_addrl d + sizel d =? 2 ^ 32 then 1 else 0)) ∧
        data_width d' = (if data_width d =? VME_D16 then VME_D16 else data_width d0)) c.
Proof.
  intros Hn Hn0 (Hpu & Hp & Hsu & Hs & Hvu & Hv) Hreq Hva Hsa Hpos.
  destruct Hreq as [Hpa Hw].
  pose proof (setup_window_attributes_nonneg _ _ _ Hw) as (Hsst & Hdw & t & Ht).
  pose proof (setup_window_attributes_ok _ _ _ _ Hsst Hdw Ht) as Hok.
  apply attr_fields_ok_spec in Hok as (Hw14 & F1 & F2 & F3 & F4 & F5 & F6).
  set (w := tsi148_setup_window_attributes _ _ _) in *.
  pose proof (window_otat_fields w d Hw14) as (G1 & G2 & G3 & G4 & G5 & G6 & G7 & G8 & G9).
  wp_step. eapply wp_mono; [by apply wp_create_window|].
  intros r c1 [-> Hl]. cbv beta iota. rewrite window_round_aligned in Hl by done. fold w in Hl.
  wp_step. eapply wp_mono; [apply wp_get_window_attr; by rewrite Hn0|].
  intros d' c2 [-> _]. wp_step.
  assert (L : ∀ r, is_latch r = true → latch r c1 =
    match window_image w d r with Some v => Z.land v (wmask r) | None => latch r c end)
    by exact Hl.
  destruct (size_readback (pci_addrl d) (pci_addru d) (sizel d) (sizeu d)) as [S1 S2]; [done..|].
  destruct (offset_readback (vme_addrl d) (vme_addru d) (pci_addrl d) (pci_addru d))
    as [O1 O2]; [done..|].
  unfold window_decode. cbn [window_enabled am v2esst_mode read_prefetch_enabled
    read_prefetch_size bcast_select pci_addrl pci_addru vme_addrl vme_addru sizel sizeu
    data_width]. rewrite Hn0.
  rewrite !L by exact Hn. unfold window_image. rewrite Z.eqb_refl.
  simpl wmask in *.
  rewrite G1, G2, G4, G5, G6, G7, G8, G9, F1, F2, F3, F4, F5, F6.
  unfold TSI148_LCSR_OTSAL_M, TSI148_LCSR_OTEAL_M, TSI148_LCSR_OTOFFL_M.
  rewrite !(aligned_mask (pci_addrl d)) by done.
  rewrite last_chunk by done.
  rewrite (aligned_mask (u32 (pci_addrl d + sizel d - 2 ^ 16)))
    by (auto with c_int; unfold u32; Z.div_mod_to_equations; lia).
  rewrite (aligned_mask (u32 (vme_addrl d - pci_addrl d)))
    by (auto with c_int; by apply offset_aligned).
  rewrite !u32_mask by auto with c_int.
  rewrite S1, S2, O1, O2, (am_fields_inv (am d) t) by done.
  split_and!; try done.
  - intros Hr. by rewrite G3, Hr.
  - by rewrite <- Z.land_assoc.
  - rewrite Ht. simpl. destruct (Z.eqb_spec (addr_size t) TSI148_A64); case_decide; congruence.
  - destruct Hdw as [->| ->]; reflexivity.
Qed.

(** [tsi148_create_window] on every branch: a request whose PCI address is
    not on a 64 KB boundary or whose attributes are not supported is refused
    with [-EINVAL] before any register is written; any other request enables
    the window, and no register of another window, of the CRG mapping or of the
    interrupt enables changes. *)
Theorem create_window_effect (d : vme_mapping) (c : C) :
  win_ok (window_num d) = true →
  wp (tsi148_create_window d) (λ r c',
    (window_request_ok d ∧ r.1 = 0 ∧ window_enabled r.2 = 1 ∧
     Z.testbit (latch (OTAT (window_num d)) c') 31 = true ∧
     ∀ r, is_latch r = true →
       window_image 0 d r = None → latch r c' = latch r c) ∨
    (¬ window_request_ok d ∧ r.1 = - EINVAL ∧ c' = c)) c.
Proof.
  intros Hn. destruct (decide (pci_addrl d mod 2 ^ 16 = 0 ∧
    0 <= tsi148_setup_window_attributes (v2esst_mode d) (data_width d) (am d))) as [Hok|Hok].
  - eapply wp_mono; [by apply wp_create_window|]. intros r c' [-> Hl]. left.
    split; [done|]. split; [done|]. split; [done|]. split.
    + rewrite (Hl (OTAT (window_num d)) Hn). unfold window_image. round_simpl.
      rewrite Z.eqb_refl. destruct Hok as [_ Hw].
      pose proof (setup_window_attributes_nonneg _ _ _ Hw) as (Hsst & Hdw & t & Ht).
      pose proof (setup_window_attributes_ok _ _ _ _ Hsst Hdw Ht) as Hf.
      apply attr_fields_ok_spec in Hf as (Hw14 & _).
      by destruct (window_otat_fields _ (window_round d) Hw14) as [G _].
    + intros r Hr Hnone. rewrite (Hl r Hr). unfold window_image in *. round_simpl.
      destruct r; try done; by destruct (_ =? _).
  - unfold wp. rewrite wp_create_window_err by done. by right.
Qed.

(** C32 [tsi148_remove_window] zeroes the eight registers of the window, the
    enable bit among them, and leaves every other latch register alone. *)
Theorem remove_window_disables (d : vme_mapping) (c : C) :
  win_ok (window_num d) = true →
  wp (tsi148_remove_window d) (λ d' c',
    window_enabled d' = 0 ∧
    ∀ r, is_latch r = true →
      latch r c' = match window_image 0 d r with Some _ => 0 | None => latch r c end) c.
Proof.
  intros Hn. eapply wp_mono; [by apply wp_remove_window|].
  intros d' c' [-> Hl]. split; [done|]. intros r Hr. rewrite (Hl r Hr).
  unfold window_image. destruct r; try done; by destruct (_ =? _).
Qed.

Lemma wp_quiesce (c : C) :
  wp tsi148_quiesce (λ _ c',
    (∀ i, win_ok i = true → latch (OTAT i) c' = 0 ∧ latch (ITAT i) c' = 0) ∧
    latch LMAT c' = 0 ∧ latch CRGAT c' = 0 ∧ latch CBAU c' = 0 ∧ latch CBAL c' = 0 ∧
    latch INTEO c' = 0) c.
Proof.
  unfold tsi148_quiesce. wp_step. eapply wp_mono; [apply wp_quiesce_windows|].
  intros [] c1 Hw. wp_step. eapply wp_mono; [apply wp_quiesce_dma|].
  intros [] c2 Hd. unfold tsi148_disable_crg. repeat chip_step.
  split; [|latch_simpl; by rewrite ?Z.land_0_l].
  intros i Hi. latch_simpl. by apply Hw.
Qed.

(** After [tsi148_quiesce] no decoder of the chip is enabled: the eight
    outbound and eight inbound windows, the location monitor and the CRG
    mapping are off, and no interrupt source is routed to the PCI bus. *)
Theorem quiesce_disables_all (c : C) :
  wp tsi148_quiesce (λ _ c',
    (∀ i, win_ok i = true → latch (OTAT i) c' = 0 ∧ latch (ITAT i) c' = 0) ∧
    latch LMAT c' = 0 ∧ latch CRGAT c' = 0 ∧ latch CBAU c' = 0 ∧ latch CBAL c' = 0 ∧
    latch INTEO c' = 0) c.
Proof. apply wp_quiesce. Qed.

(** [tsi148_setup_crg] maps the CRG with the attribute word of the modifier
    and the enable bit, or reports -1 for a modifier that cannot address the
    CRG; then the base address is cleared again and the mapping is not
    enabled. *)
Theorem setup_crg_spec (base am : Z) (c : C) :
  is_u32 base →
  wp (tsi148_setup_crg base am) (λ rc c',
    (rc = 0 ∧ (∃ t, am_to_attr am = Some t ∧ addr_size t ≠ TSI148_CRCSR) ∧
     latch CBAL c' = clear_low 12 base ∧ Z.testbit (latch CRGAT c') 7 = true) ∨
    (rc = -1 ∧ (am_to_attr am = None ∨ am = VME_CR_CSR) ∧
     latch CBAL c' = 0 ∧ latch CRGAT c' = latch CRGAT c)) c.
Proof.
  intros Hb. unfold tsi148_setup_crg. repeat chip_step.
  - right. latch_simpl. split; [done|]. split; [|done].
    destruct (am_to_attr am) as [t|] eqn:Ht; [right|by left].
    pose proof (supported_am_forall (λ am, (0 <=? am_to_crgattrs am) || (am =? VME_CR_CSR))
      eq_refl am t Ht) as Hc. cbv beta in Hc.
    apply orb_true_iff in Hc. rewrite Z.leb_le, Z.eqb_eq in Hc.
    match goal with E : (_ <? _) = true |- _ => apply Z.ltb_lt in E end. lia.
  - left. split; [done|].
    match goal with E : (_ <? _) = false |- _ => apply Z.ltb_ge in E as Hnn end.
    destruct (am_to_attr am) as [t|] eqn:Ht;
      [|by unfold am_to_crgattrs in Hnn; rewrite Ht in Hnn].
    split; [exists t; split; [done|]|].
    { intros Heq. unfold am_to_crgattrs in Hnn. by rewrite Ht, Heq in Hnn. }
    latch_simpl. split.
    + exact (land_high_mask 12 32 base ltac:(lia) Hb).
    + pose proof (supported_am_forall (λ am, (am_to_crgattrs am <? 0) ||
        Z.testbit (Z.land (Z.lor (am_to_crgattrs am) TSI148_LCSR_CRGAT_EN) 0xff) 7)
        eq_refl am t Ht) as Hc. cbv beta in Hc.
      by destruct (Z.ltb_spec (am_to_crgattrs am) 0); [lia|].
Qed.

(** [tsi148_generate_interrupt]: a level outside 1..7 or a vector outside
    0..255 is refused without touching the chip.  Otherwise the call returns,
    with 0 or with [-ETIME], whatever the bus does, provided every sleep
    consumes some of the timeout; the word it writes carries the vector in the
    status/ID field and, over an idle interrupter, the level in its field. *)
Theorem generate_interrupt_returns (schedule_timeout : Z → C → Z * C)
    (msecs_to_jiffies : Z → Z) (fuel : nat) (level vector msecs : Z) (c : C) :
  (∀ t c, 0 <= t → 0 <= (schedule_timeout t c).1 ∧ (0 < t → (schedule_timeout t c).1 < t) ∧
     (t = 0 → (schedule_timeout t c).1 = 0)) →
  0 <= msecs_to_jiffies msecs < Z.of_nat fuel →
  (¬ (1 <= level <= 7 ∧ 0 <= vector <= 255) →
   tsi148_generate_interrupt schedule_timeout msecs_to_jiffies fuel level vector msecs c =
     Some (- EINVAL, c)) ∧
  (1 <= level <= 7 ∧ 0 <= vector <= 255 →
   wp (tsi148_generate_interrupt schedule_timeout msecs_to_jiffies fuel level vector msecs)
      (λ rc _, rc = 0 ∨ rc = - ETIME) c ∧
   ∀ v, bits 0 8 (virq_word v level vector) = vector ∧
        (bits 8 3 v = 0 → bits 8 3 (virq_word v level vector) = level)).
Proof.
  intros Hsched Hfuel. unfold tsi148_generate_interrupt. split.
  { intros Hbad. destruct ((level <? 1) || (level >? 7)) eqn:E1; [done|].
    destruct ((vector <? 0) || (vector >? 255)) eqn:E2; [done|].
    exfalso. apply Hbad. lia. }
  intros [Hl Hv]. split; [|intros v; by apply virq_word_fields].
  destruct ((level <? 1) || (level >? 7)) eqn:E1; [lia|].
  destruct ((vector <? 0) || (vector >? 255)) eqn:E2; [lia|].
  repeat chip_step. eapply wp_mono; [by apply wp_wait_iack|].
  intros [] c' _. repeat chip_step; auto.
Qed.
End properties.

Lemma create_get_window_witness :
  let d := zero_mapping <| window_num := 2 |> <| data_width := VME_D32 |>
             <| am := VME_A24_USER_DATA_SCT |> <| pci_addrl := 0xe0000000 |>
             <| vme_addrl := 0x100000 |> <| sizel := 0x80000 |> in
  wp ('(rc, _) ← tsi148_create_window d;
      d' ← tsi148_get_window_attr (zero_mapping <| window_num := 2 |>);
      mret (rc, d') : M LatchChip.chip (Z * vme_mapping))
     (λ r _, r.1 = 0 ∧ sizel r.2 = 0x70000 ∧ data_width r.2 = 0) LatchChip.reset.
Proof.
  intros d. eapply wp_mono.
  - apply (create_get_window d (zero_mapping <| window_num := 2 |>) LatchChip.reset);
      first [reflexivity | by repeat split | idtac].
  - intros [rc d'] c' (H1 & _ & _ & _ & _ & _ & _ & _ & _ & _ & H2 & _ & H3). auto.
Defined.

Lemma create_window_effect_witness :
  wp (S := LatchChip.chip) (tsi148_create_window (zero_mapping <| pci_addrl := 0x1234 |>))
     (λ r c', r.1 = - EINVAL ∨ r.1 = 0) LatchChip.reset.
Proof.
  eapply wp_mono; [apply create_window_effect; reflexivity|].
  intros r c' [(_ & H & _)|(_ & H & _)]; auto.
Defined.

Lemma remove_window_disables_witness :
  wp (S := LatchChip.chip) (tsi148_remove_window (zero_mapping <| window_num := 7 |>))
     (λ _ c', latch (OTAT 7) c' = 0) LatchChip.reset.
Proof.
  eapply wp_mono; [apply remove_window_disables; reflexivity|].
  intros d' c' [_ H]. apply (H (OTAT 7)). reflexivity.
Defined.

Lemma setup_crg_spec_witness :
  wp (S := LatchChip.chip) (tsi148_setup_crg 0x800000 VME_A24_USER_DATA_SCT) (λ rc _, rc = 0 ∨ rc = -1)
     LatchChip.reset.
Proof.
  eapply wp_mono; [apply setup_crg_spec; by split|].
  intros rc c' [(H & _)|(H & _)]; auto.
Defined.

Lemma generate_interrupt_returns_witness :
  wp (S := LatchChip.chip) (tsi148_generate_interrupt (λ t c, (Z.max 0 (t - 1), c)) (λ m, m / 10) 100 3 0x55 50)
     (λ rc _, rc = 0 ∨ rc = - ETIME) LatchChip.reset.
Proof.
  apply generate_interrupt_returns; [intros; simpl; lia|done|lia].
Defined.
