(* ===== verification/KernelIf.v ===== *)
(** What the drivers use of the Linux kernel, as an interface.

    The kernel is a parameter with a state of its own: every call that can fail
    takes its outcome from that state, so a theorem over all kernels covers all
    outcomes.  [KernelLaws] states the documented effect of the calls on the
    resources a driver holds: [live] is the multiset of everything allocated
    and not yet given back, so that a leak or a double release is visible.
    [SimKernel] is a concrete kernel that satisfies the laws. *)
From S2P Require Import Prelude.
From stdpp Require Export gmultiset.

Local Open Scope Z_scope.

(** Something a driver has to give back: a [kmalloc] block, a PCI bus region
    (first and last address), an [ioremap] mapping, a block of a PCI pool
    (virtual and bus address), a pinned page, a scatter list mapped for DMA, or a
    registration with some part of the kernel ([PciIf] names the kinds). *)
Inductive resource :=
  | Block (a : Z)
  | Region (first last : Z)
  | IoMap (a : Z)
  | Pool (va phys : Z)
  | Page (p : Z)
  | SgMap (a : Z)
  | Reg (kind a : Z).

#[global] Instance resource_eq_dec : EqDecision resource.
Proof. solve_decision. Defined.

#[global] Instance resource_countable : Countable resource.
Proof.
  refine (inj_countable'
    (λ r, match r with
          | Block a => (0, a, 0) | Region a b => (1, a, b) | IoMap a => (2, a, 0)
          | Pool a b => (3, a, b) | Page a => (4, a, 0) | SgMap a => (5, a, 0)
          | Reg n a => (6, n, a)
          end : Z * Z * Z)
    (λ s, let '(n, a, b) := s in
          if n =? 0 then Block a else if n =? 1 then Region a b else if n =? 2 then IoMap a
          else if n =? 3 then Pool a b else if n =? 4 then Page a
          else if n =? 5 then SgMap a else Reg a b) _).
  by intros [].
Defined.

Class Kernel (K : Type) := {
  (** [mutex_lock_interruptible] was interrupted by a signal *)
  signal_pending : K → bool * K;
  (** [kmalloc], [kzalloc]: the address, 0 for NULL *)
  kmalloc : Z → K → Z * K;
  kfree : Z → K → K;
  (** [pci_bus_alloc_resource bus res size 0x10000 ...]: the return code and
      the start of the region *)
  pci_bus_alloc_resource : Z → K → (Z * Z) * K;
  release_resource : Z → Z → K → K;
  (** [ioremap start size]: the virtual address, 0 for NULL *)
  ioremap : Z → Z → K → Z * K;
  iounmap : Z → K → K;
  (** a copy from or to user space faults *)
  user_fault : K → bool * K;
  (** [io_remap_pfn_range] of a page range: its return code *)
  io_remap_pfn_range : Z → Z → K → Z * K;
}.

Definition ranges_disjoint (a b c d : Z) : Prop := b < c ∨ d < a.

Class KernelLaws (K : Type) `{Kernel K} := {
  live : K → gmultiset resource;
  signal_pending_live : ∀ k, live (signal_pending k).2 = live k;
  user_fault_live : ∀ k, live (user_fault k).2 = live k;
  io_remap_live : ∀ a n k, live (io_remap_pfn_range a n k).2 = live k;
  kmalloc_live : ∀ n k,
    ((kmalloc n k).1 = 0 ∧ live (kmalloc n k).2 = live k) ∨
    (0 < (kmalloc n k).1 ∧ Block (kmalloc n k).1 ∉ live k ∧
     live (kmalloc n k).2 = {[+ Block (kmalloc n k).1 +]} ⊎ live k);
  kfree_live : ∀ a k, live (kfree a k) = live k ∖ {[+ Block a +]};
  (** a failed allocation changes nothing; a region is aligned as requested,
      lies in the 32-bit PCI space and overlaps no other *)
  alloc_resource_live : ∀ n k,
    let '(rc, start, k') := pci_bus_alloc_resource n k in
    (rc < 0 ∧ live k' = live k) ∨
    (rc = 0 ∧ live k' = {[+ Region start (start + n - 1) +]} ⊎ live k ∧
     0 <= start < 2 ^ 32 ∧ start mod 0x10000 = 0 ∧ start + n <= 2 ^ 32 ∧
     ∀ a b, Region a b ∈ live k → ranges_disjoint start (start + n - 1) a b);
  release_resource_live : ∀ a b k, live (release_resource a b k) = live k ∖ {[+ Region a b +]};
  ioremap_live : ∀ a n k,
    ((ioremap a n k).1 = 0 ∧ live (ioremap a n k).2 = live k) ∨
    (0 < (ioremap a n k).1 ∧ live (ioremap a n k).2 = {[+ IoMap (ioremap a n k).1 +]} ⊎ live k);
  iounmap_live : ∀ a k, live (iounmap a k) = live k ∖ {[+ IoMap a +]};
}.

(** * DMA services

    [struct scatterlist], before it is mapped: page, length, offset. *)
Record scatterlist := mk_scatterlist {
  sg_page : Z;
  sg_length : Z;
  sg_offset : Z
}.

Class DmaKernel (K : Type) := {
  (** [pci_pool_alloc]: virtual address (0 for NULL) and bus address *)
  pci_pool_alloc : K → (Z * Z) * K;
  pci_pool_free : Z → Z → K → K;
  (** [get_user_pages addr n]: the return code and the pages pinned *)
  get_user_pages : Z → Z → K → (Z * list Z) * K;
  put_page : Z → K → K;
  is_vmalloc_addr : Z → K → bool;
  virt_addr_valid : Z → K → bool;
  vmalloc_to_page : Z → K → Z;
  virt_to_page : Z → K → Z;
  (** [pci_map_sg] of the list at an address: the bus address and length of
      each mapped entry, none on failure *)
  pci_map_sg : Z → list scatterlist → Z → K → list (Z * Z) * K;
  (** list and number of mapped entries *)
  pci_unmap_sg : Z → Z → K → K;
}.

Definition pages_res (l : list Z) : gmultiset resource := list_to_set_disj (Page <$> l).

Class DmaKernelLaws (K : Type) `{KernelLaws K} `{DmaKernel K} := {
  (** descriptors are 8-byte aligned, in 32-bit bus space, and distinct *)
  pool_alloc_live : ∀ k,
    let '(va, phys, k') := pci_pool_alloc k in
    (va = 0 ∧ live k' = live k) ∨
    (0 < va ∧ is_u32 phys ∧ phys mod 8 = 0 ∧ live k' = {[+ Pool va phys +]} ⊎ live k ∧
     ∀ va' phys', Pool va' phys' ∈ live k → va' ≠ va ∧ phys' ≠ phys);
  pool_free_live : ∀ va phys k,
    live (pci_pool_free va phys k) = live k ∖ {[+ Pool va phys +]};
  get_user_pages_live : ∀ a n k,
    let '(rc, pages, k') := get_user_pages a n k in
    (rc < 0 ∧ pages = [] ∧ live k' = live k) ∨
    (0 <= rc <= Z.max 0 n ∧ rc = Z.of_nat (length pages) ∧ live k' = pages_res pages ⊎ live k);
  put_page_live : ∀ p k, live (put_page p k) = live k ∖ {[+ Page p +]};
  (** mapped entries lie in 32-bit bus space and have the bytes of the list *)
  map_sg_live : ∀ a l d k,
    let '(m, k') := pci_map_sg a l d k in
    (m = [] ∧ live k' = live k) ∨
    (m ≠ [] ∧ live k' = {[+ SgMap a +]} ⊎ live k ∧
     Forall (λ e, 0 <= e.1 ∧ 0 < e.2 ∧ e.1 + e.2 <= 2 ^ 32) m ∧
     zsum snd m = zsum sg_length l);
  unmap_sg_live : ∀ a n k,
    live (pci_unmap_sg a n k) = if n =? 0 then live k else live k ∖ {[+ SgMap a +]};
}.

(** * A simulated kernel

    The outcome of each fallible call is the head of a script ([true] is a
    failure); an exhausted script always succeeds.  Addresses and regions are
    taken above everything still held. *)
Module SimKernel.
Record kernel := mk_kernel {
  script : list bool;
  held : list resource
}.

Definition addr_of (r : resource) : Z :=
  match r with
  | Block a | IoMap a | Page a | SgMap a => a | Region _ b => b | Pool a b => Z.max a b
  | Reg _ a => a end.

Definition top (l : list resource) : Z := foldr (λ r z, Z.max (addr_of r) z) 0 l.

Definition outcome (k : kernel) : bool * kernel :=
  match script k with
  | [] => (false, k)
  | b :: s => (b, mk_kernel s (held k))
  end.

Definition get (mk : Z → resource) (k : kernel) : Z * kernel :=
  let '(fail, k) := outcome k in
  if fail then (0, k)
  else let a := top (held k) + 1 in (a, mk_kernel (script k) (mk a :: held k)).

Definition put (r : resource) (k : kernel) : kernel :=
  mk_kernel (script k) (default (held k) (remove_first (λ r', bool_decide (r' = r)) (held k))).

(** Next 64 KB boundary above the top. *)
Definition region_start (k : kernel) : Z := clear_low 16 (top (held k) + 0x10000).

Definition alloc_region (n : Z) (k : kernel) : (Z * Z) * kernel :=
  let '(fail, k) := outcome k in
  let start := region_start k in
  if fail || ((2 ^ 32 <? start + n) || (2 ^ 32 <=? start)) then (- EBUSY, 0, k)
  else (0, start, mk_kernel (script k) (Region start (start + n - 1) :: held k)).

#[global] Instance sim_kernel : Kernel kernel := {
  signal_pending := outcome;
  kmalloc _ := get Block;
  kfree a := put (Block a);
  pci_bus_alloc_resource := alloc_region;
  release_resource a b := put (Region a b);
  ioremap _ _ := get IoMap;
  iounmap a := put (IoMap a);
  user_fault := outcome;
  io_remap_pfn_range _ _ k := let '(fail, k) := outcome k in (if fail then - EAGAIN else 0, k);
}.

(** Pool blocks have the same address on both sides. *)
Definition pool_alloc (k : kernel) : (Z * Z) * kernel :=
  let '(fail, k) := outcome k in
  let va := clear_low 3 (top (held k) + 8) in
  if fail || (2 ^ 32 <=? va) then (0, 0, k)
  else (va, va, mk_kernel (script k) (Pool va va :: held k)).

Definition gup (n : Z) (k : kernel) : (Z * list Z) * kernel :=
  let '(fail, k) := outcome k in
  if fail then (- EFAULT, [], k)
  else let pages := (λ i, top (held k) + Z.of_nat i) <$> seq 1 (Z.to_nat n) in
       (Z.of_nat (length pages), pages, mk_kernel (script k) ((Page <$> pages) ++ held k)).

(** One entry per page, at bus addresses from 16 MB on; a list that does not
    fit is refused. *)
Definition map_list (l : list scatterlist) : list (Z * Z) :=
  imap (λ i s, (0x1000000 + Z.of_nat i * 0x1000 + sg_offset s, sg_length s)) l.

Definition sg_fits (e : Z * Z) : bool := (0 <=? e.1) && (0 <? e.2) && (e.1 + e.2 <=? 2 ^ 32).

Definition map_sg (a : Z) (l : list scatterlist) (k : kernel) : list (Z * Z) * kernel :=
  if negb (forallb sg_fits (map_list l)) then ([], k)
  else if bool_decide (l = []) then ([], k)
  else (map_list l, mk_kernel (script k) (SgMap a :: held k)).

#[global] Instance sim_dma_kernel : DmaKernel kernel := {
  pci_pool_alloc := pool_alloc;
  pci_pool_free va phys := put (Pool va phys);
  get_user_pages _ := gup;
  put_page p := put (Page p);
  is_vmalloc_addr _ _ := false;
  virt_addr_valid _ _ := true;
  vmalloc_to_page a _ := a / 0x1000;
  virt_to_page a _ := a / 0x1000;
  pci_map_sg a l _ := map_sg a l;
  pci_unmap_sg a n k := if n =? 0 then k else put (SgMap a) k;
}.

Definition boot : kernel := mk_kernel [] [].

Lemma top_ge l r : r ∈ l → addr_of r <= top l.
Proof.
  intros Hr. induction l as [|x l IH]; [by apply not_elem_of_nil in Hr|]. simpl.
  apply elem_of_cons in Hr as [->|Hr]; [lia|]. specialize (IH Hr). lia.
Qed.

Lemma top_nonneg l : 0 <= top l.
Proof. induction l; simpl; lia. Qed.

Lemma outcome_held k : held (outcome k).2 = held k.
Proof. unfold outcome. by destruct (script k). Qed.

Lemma put_live r k :
  list_to_set_disj (held (put r k)) =@{gmultiset resource}
  list_to_set_disj (held k) ∖ {[+ r +]}.
Proof.
  unfold put. simpl. destruct (remove_first _ (held k)) as [l'|] eqn:E; simpl.
  - apply remove_first_spec in E as (l1 & x & l2 & -> & -> & Hx & _).
    apply bool_decide_eq_true in Hx as ->. rewrite !list_to_set_disj_app. simpl.
    multiset_solver.
  - apply remove_first_None in E.
    assert (Hm : r ∉ list_to_set_disj (C := gmultiset resource) (held k)).
    { rewrite elem_of_list_to_set_disj. intros Hin%list_elem_of_In.
      rewrite Forall_forall in E. specialize (E r Hin). by rewrite bool_decide_true in E. }
    multiset_solver.
Qed.

Lemma get_live mk k :
  (∀ a, addr_of (mk a) = a) →
  ((get mk k).1 = 0 ∧ held (get mk k).2 = held k) ∨
  (0 < (get mk k).1 ∧ mk (get mk k).1 ∉ held k ∧ held (get mk k).2 = mk (get mk k).1 :: held k).
Proof.
  intros Hmk. unfold get. pose proof (outcome_held k) as Ho.
  destruct (outcome k) as [[] k']; simpl in *; [by left|right].
  rewrite Ho. pose proof (top_nonneg (held k)). split; [lia|]. split; [|done].
  intros Hin%top_ge. rewrite Hmk in Hin. lia.
Qed.

#[global] Instance sim_kernel_laws : KernelLaws kernel.
Proof.
  refine {| live k := list_to_set_disj (held k) |}.
  - intros k. simpl. by rewrite outcome_held.
  - intros k. simpl. by rewrite outcome_held.
  - intros a n k. simpl. pose proof (outcome_held k). by destruct (outcome k) as [[] ?]; simpl in *; congruence.
  - intros n k. simpl. destruct (get_live Block k) as [[? ->]|(? & Hn & ->)]; [done|by left|right].
    split; [done|]. split; [|done]. intros Hin. apply Hn.
    by apply elem_of_list_to_set_disj in Hin.
  - intros a k. apply put_live.
  - intros n k. simpl. unfold alloc_region. pose proof (outcome_held k) as Ho.
    destruct (outcome k) as [fail k'] eqn:E. simpl in Ho.
    pose proof (clear_low_bounds 16 (top (held k') + 0x10000) ltac:(lia)) as Hb.
    pose proof (clear_low_aligned 16 (top (held k') + 0x10000) ltac:(lia)) as Ha.
    pose proof (top_nonneg (held k')) as Ht.
    destruct (fail || _) eqn:Ef; [left; by rewrite Ho|right].
    apply orb_false_iff in Ef as [_ Ef]. apply orb_false_iff in Ef as [Ef Ef'].
    apply Z.ltb_ge in Ef. apply Z.leb_gt in Ef'.
    unfold region_start in *. split; [done|]. rewrite <- Ho. split; [done|].
    split; [lia|]. split; [exact Ha|]. split; [lia|].
    intros a b Hin. right. assert (b <= top (held k')) as Hle; [|lia].
    apply elem_of_list_to_set_disj, top_ge in Hin. done.
  - intros a b k. apply put_live.
  - intros a n k. simpl. destruct (get_live IoMap k) as [[? ->]|(? & Hn & ->)]; [done|by left|by right].
  - intros a k. apply put_live.
Defined.

Lemma list_to_set_pages l h :
  list_to_set_disj ((Page <$> l) ++ h) =@{gmultiset resource} pages_res l ⊎ list_to_set_disj h.
Proof. unfold pages_res. by rewrite list_to_set_disj_app. Qed.

Lemma zsum_imap {A B} (f : nat → A → B) (g : B → Z) (h : A → Z) l :
  (∀ i x, g (f i x) = h x) → zsum g (imap f l) = zsum h l.
Proof.
  revert f. induction l as [|x l IH]; intros f Hf; [done|]. simpl. rewrite Hf. f_equal.
  apply IH. intros i y. apply Hf.
Qed.

#[global] Instance sim_dma_kernel_laws : DmaKernelLaws kernel.
Proof.
  split.
  - intros k. simpl. unfold pool_alloc. pose proof (outcome_held k) as Ho.
    destruct (outcome k) as [fail k'] eqn:E. simpl in Ho. pose proof (top_nonneg (held k')).
    destruct (fail || _) eqn:Ef; [left; by rewrite Ho|right].
    apply orb_false_iff in Ef as [_ Ef]. apply Z.leb_gt in Ef.
    pose proof (clear_low_bounds 3 (top (held k') + 8) ltac:(lia)) as Hb.
    pose proof (clear_low_aligned 3 (top (held k') + 8) ltac:(lia)) as Ha.
    split; [lia|]. split; [unfold is_u32; lia|]. split; [exact Ha|].
    rewrite <- Ho. split; [done|]. intros va phys Hin%elem_of_list_to_set_disj.
    pose proof (top_ge _ _ Hin) as Ht. simpl in Ht. lia.
  - intros va phys k. apply put_live.
  - intros a n k. simpl. unfold gup. pose proof (outcome_held k) as Ho.
    destruct (outcome k) as [[] k'] eqn:E; simpl in Ho; [left; by rewrite Ho|right].
    rewrite length_fmap, length_seq. split; [lia|]. split; [done|].
    etrans; [apply list_to_set_pages|]. by rewrite Ho.
  - intros p k. apply put_live.
  - intros a l d k. simpl. unfold map_sg. destruct (negb _) eqn:Ef; [by left|].
    destruct (bool_decide_reflect (l = [])) as [->|Hl]; [by left|right].
    split; [by destruct l|]. split; [done|]. apply negb_false_iff in Ef. split.
    + rewrite forallb_forall in Ef. apply List.Forall_forall. intros e He.
      specialize (Ef e He). unfold sg_fits in Ef. lia.
    + by apply zsum_imap.
  - intros a n k. simpl. destruct (n =? 0); [done|apply put_live].
Qed.
End SimKernel.
