(* ===== verification/PciIf.v ===== *)
(** The kernel services of device probing, as an interface: PCI devices,
    character devices, device classes, interrupt lines, the driver core.

    Like [KernelIf]: outcomes come from the kernel's state, the laws give the
    documented effect on what is held, and the simulated kernel satisfies
    them. *)
From S2P Require Import Prelude KernelIf.

Local Open Scope Z_scope.

(** What a driver registers. *)
Definition PciEnabled : resource := Reg 0 0.
Definition Bar (n : Z) : resource := Reg 1 n.
Definition DmaPool (p : Z) : resource := Reg 2 p.
Definition DevClass (c : Z) : resource := Reg 3 c.
Definition Chrdev (major : Z) : resource := Reg 4 major.
Definition DevNode (minor : Z) : resource := Reg 5 minor.
Definition IrqLine (n : Z) : resource := Reg 6 n.
Definition Device (a : Z) : resource := Reg 7 a.
Definition Driver (a : Z) : resource := Reg 8 a.

Class PciKernel (K : Type) := {
  pci_enable_device : K → Z * K;
  pci_disable_device : K → K;
  pci_request_region : Z → K → Z * K;
  pci_release_region : Z → K → K;
  (** the virtual address of a BAR, 0 for NULL *)
  pci_iomap : Z → Z → K → Z * K;
  pci_iounmap : Z → K → K;
  pci_set_dma_mask : K → Z * K;
  (** the pool, 0 for NULL *)
  pci_pool_create : K → Z * K;
  pci_pool_destroy : Z → K → K;
  (** the class, or a negative error code ([ERR_PTR]) *)
  class_create : K → Z * K;
  class_destroy : Z → K → K;
  register_chrdev : Z → K → Z * K;
  unregister_chrdev : Z → K → K;
  device_create : Z → K → K;
  device_destroy : Z → K → K;
  request_irq : Z → K → Z * K;
  free_irq : Z → K → K;
}.

(** A call that takes [r] when it returns 0, and nothing otherwise. *)
Definition takes {K} `{KernelLaws K} (r : resource) (f : K → Z * K) : Prop :=
  ∀ k, ((f k).1 < 0 ∧ live (f k).2 = live k) ∨
       ((f k).1 = 0 ∧ live (f k).2 = {[+ r +]} ⊎ live k).

Definition gives {K} `{KernelLaws K} (r : resource) (f : K → K) : Prop :=
  ∀ k, live (f k) = live k ∖ {[+ r +]}.

Class PciKernelLaws (K : Type) `{KernelLaws K} `{!PciKernel K} := {
  enable_live : takes PciEnabled pci_enable_device;
  disable_live : gives PciEnabled pci_disable_device;
  request_region_live n : takes (Bar n) (pci_request_region n);
  release_region_live n : gives (Bar n) (pci_release_region n);
  iomap_live n sz k : 0 <= (pci_iomap n sz k).1 ∧
    live (pci_iomap n sz k).2 =
      (if (pci_iomap n sz k).1 =? 0 then ∅ else {[+ IoMap (pci_iomap n sz k).1 +]}) ⊎ live k;
  pci_iounmap_live a : gives (IoMap a) (pci_iounmap a);
  set_dma_mask_live k : live (pci_set_dma_mask k).2 = live k;
  pool_create_live k : 0 <= (pci_pool_create k).1 ∧
    live (pci_pool_create k).2 =
      (if (pci_pool_create k).1 =? 0 then ∅ else {[+ DmaPool (pci_pool_create k).1 +]}) ⊎ live k;
  pool_destroy_live p : gives (DmaPool p) (pci_pool_destroy p);
  class_create_live k :
    ((class_create k).1 < 0 ∧ live (class_create k).2 = live k) ∨
    (0 < (class_create k).1 ∧ DevClass (class_create k).1 ∉ live k ∧
     live (class_create k).2 = {[+ DevClass (class_create k).1 +]} ⊎ live k);
  class_destroy_live c : gives (DevClass c) (class_destroy c);
  register_chrdev_live n : takes (Chrdev n) (register_chrdev n);
  unregister_chrdev_live n : gives (Chrdev n) (unregister_chrdev n);
  device_create_live m k :
    live (device_create m k) = {[+ DevNode m +]} ⊎ live k ∨ live (device_create m k) = live k;
  device_destroy_live m : gives (DevNode m) (device_destroy m);
  request_irq_live n : takes (IrqLine n) (request_irq n);
  free_irq_live n : gives (IrqLine n) (free_irq n);
}.

(** The simulated kernel: failures come from the script. *)
Module SimPci.
Import SimKernel.

Definition take (r : resource) (k : kernel) : Z * kernel :=
  let '(fail, k) := outcome k in
  if fail then (- EBUSY, k) else (0, mk_kernel (script k) (r :: held k)).

Definition take_new (err : Z) (mk : Z → resource) (k : kernel) : Z * kernel :=
  let '(fail, k) := outcome k in
  if fail then (err, k)
  else let a := top (held k) + 1 in (a, mk_kernel (script k) (mk a :: held k)).

#[global] Instance sim_pci_kernel : PciKernel kernel := {
  pci_enable_device := take PciEnabled;
  pci_disable_device := put PciEnabled;
  pci_request_region n := take (Bar n);
  pci_release_region n := put (Bar n);
  pci_iomap _ _ := take_new 0 IoMap;
  pci_iounmap a := put (IoMap a);
  pci_set_dma_mask k := let '(fail, k) := outcome k in (if fail then - EINVAL else 0, k);
  pci_pool_create := take_new 0 DmaPool;
  pci_pool_destroy p := put (DmaPool p);
  class_create := take_new (- ENOMEM) DevClass;
  class_destroy c := put (DevClass c);
  register_chrdev n := take (Chrdev n);
  unregister_chrdev n := put (Chrdev n);
  device_create m k := mk_kernel (script k) (DevNode m :: held k);
  device_destroy m := put (DevNode m);
  request_irq n := take (IrqLine n);
  free_irq n := put (IrqLine n);
}.

Lemma take_live r : takes r (take r).
Proof.
  intros k. unfold take. pose proof (outcome_held k) as Ho.
  destruct (outcome k) as [[] k']; simpl in *; [left|right]; by rewrite <- Ho.
Qed.

Lemma take_new_live err mk k :
  ((take_new err mk k).1 = err ∧ live (take_new err mk k).2 = live k) ∨
  (0 < (take_new err mk k).1 ∧ ((∀ a, addr_of (mk a) = a) → mk (take_new err mk k).1 ∉ live k) ∧
   live (take_new err mk k).2 = {[+ mk (take_new err mk k).1 +]} ⊎ live k).
Proof.
  unfold take_new. pose proof (outcome_held k) as Ho.
  destruct (outcome k) as [[] k']; simpl in *; [left|right]; rewrite <- Ho; [done|].
  pose proof (top_nonneg (held k')). split; [lia|]. split; [|done].
  intros Hmk Hin%elem_of_list_to_set_disj%top_ge. rewrite Hmk in Hin. lia.
Qed.

Lemma take_new_null mk k :
  0 <= (take_new 0 mk k).1 ∧
  live (take_new 0 mk k).2 =
    (if (take_new 0 mk k).1 =? 0 then ∅ else {[+ mk (take_new 0 mk k).1 +]}) ⊎ live k.
Proof.
  destruct (take_new_live 0 mk k) as [[-> ->]|(Hp & _ & ->)].
  - split; [done|]. simpl. multiset_solver.
  - split; [lia|]. by rewrite (proj2 (Z.eqb_neq _ 0)) by lia.
Qed.

Lemma put_gives r : gives r (put r).
Proof. intros k. apply put_live. Qed.

#[global] Instance sim_pci_laws : PciKernelLaws kernel.
Proof.
  split; try (intros; first [apply take_live | apply put_gives | apply take_new_null]).
  - intros k. simpl. pose proof (outcome_held k) as Ho. by destruct (outcome k); simpl in *; rewrite Ho.
  - intros k. change (class_create k) with (take_new (- ENOMEM) DevClass k).
    destruct (take_new_live (- ENOMEM) DevClass k) as [[E ->]|(Hp & Hn & ->)]; [left|right].
    + by rewrite E.
    + split_and!; [done|by apply Hn|done].
  - intros m k. by left.
Qed.
End SimPci.
