(* ===== verification/VmeMisc.v ===== *)
(** The bridge device and its bus errors: [src/vmebridge/driver/vme_misc.c] and
    the structures of [vme_bridge.h].

    [bridge] is the state every part of the driver shares: the kernel, the chip
    and the last bus error with the list of registered handlers. *)
From S2P Require Import Prelude VmeBus Tsi148Regs KernelIf.

Local Open Scope Z_scope.

(** [struct vme_berr_handler]; [h_self] is its address, [h_func] stands for the
    callback. *)
Record vme_berr_handler := mk_vme_berr_handler {
  h_self : Z;
  h_error : vme_bus_error;
  h_size : Z;
  h_func : Z
}.

(** [struct vme_verr]; [verr_locked] is the spinlock. *)
Record vme_verr := mk_vme_verr {
  verr_locked : bool;
  verr_desc : vme_bus_error_desc;
  h_list : list vme_berr_handler
}.

(** The part of [struct vme_bridge_device] that changes at run time, with the
    kernel and the chip ([regs]). *)
Record bridge (K C : Type) := mk_bridge {
  kern : K;
  chip : C;
  verr : vme_verr
}.
Arguments mk_bridge {K C}.
Arguments kern {K C}.
Arguments chip {K C}.
Arguments verr {K C}.

Section misc.
Context `{Kernel K} `{ChipIO C}.
Notation B := (bridge K C).

(** A kernel call, a chip access. *)
Definition kcall {A} (f : K → A * K) : M B A :=
  zoom kern (λ k (b : B), b <| kern := k |>) (λ k, Some (f k)).
Definition kdo (f : K → K) : M B () := kcall (λ k, ((), f k)).
Definition on_chip {A} (m : M C A) : M B A :=
  zoom chip (λ c (b : B), b <| chip := c |>) m.

(** [spin_lock_irqsave] on a lock this CPU holds never returns. *)
Definition spin_lock : M B () := λ b,
  if verr_locked (verr b) then None
  else Some ((), b <| verr := (verr b) <| verr_locked := true |> |>).
Definition spin_unlock : M B () :=
  modify (λ b : B, b <| verr := (verr b) <| verr_locked := false |> |>).

Definition vme_bus_error_check (clear : Z) : M B Z :=
  on_chip (tsi148_bus_error_chk clear).

Definition vme_bus_error_check_clear_locked (err : vme_bus_error) : M B Z :=
  v ← gets verr;
  let desc := verr_desc v in
  if truthy (valid desc) && (berr_am (error desc) =? berr_am err) &&
     (berr_address (error desc) =? berr_address err) then
    modify (λ b : B, b <| verr := (verr b) <| verr_desc := desc <| valid := 0 |> |> |>);;
    mret 1
  else mret 0.

(** The handler's address, or a negative error code ([ERR_PTR]). *)
Definition vme_register_berr_handler (err : vme_bus_error) (size func : Z) : M B Z :=
  if size =? 0 then mret (- EINVAL) else
  handler ← kcall (kmalloc 48);
  if handler =? 0 then mret (- ENOMEM) else
  spin_lock;;
  modify (λ b : B, b <| verr := (verr b) <| h_list :=
    h_list (verr b) ++ [mk_vme_berr_handler handler err size func] |> |>);;
  spin_unlock;;
  mret handler.

Definition vme_unregister_berr_handler_locked (handler : Z) : M B () :=
  v ← gets verr;
  match remove_first (λ h, h_self h =? handler) (h_list v) with
  | Some l =>
    modify (λ b : B, b <| verr := (verr b) <| h_list := l |> |>);;
    kdo (kfree handler)
  | None => mret ()
  end.

Definition vme_unregister_berr_handler (handler : Z) : M B () :=
  spin_lock;; vme_unregister_berr_handler_locked handler;; spin_unlock.

Definition vme_bus_error_check_clear (err : vme_bus_error) : M B Z :=
  spin_lock;;
  ret ← vme_bus_error_check_clear_locked err;
  spin_unlock;;
  mret ret.

(** The file operations of the control device. *)
Definition vme_misc_read : Z := 0.
Definition vme_misc_write : Z := 0.
Definition vme_misc_ioctl : Z := - ENOIOCTLCMD.
End misc.

(** * Rules for kernel calls *)
Section rules.
Context `{KernelLaws K} `{ChipIO C}.
Implicit Types (b : bridge K C).

Lemma wp_kcall {A} (f : K → A * K) (Q : A → bridge K C → Prop) b :
  Q (f (kern b)).1 (b <| kern := (f (kern b)).2 |>) → wp (kcall f) Q b.
Proof. unfold wp, kcall, zoom. by destruct (f (kern b)). Qed.

Lemma wp_on_chip {A} (m : M C A) (Q : A → bridge K C → Prop) b :
  wp m (λ a c, Q a (b <| chip := c |>)) (chip b) → wp (on_chip m) Q b.
Proof. exact (wp_zoom chip (λ c (b : bridge K C), b <| chip := c |>) m Q b). Qed.

Lemma wp_spin_lock (Q : () → bridge K C → Prop) b :
  verr_locked (verr b) = false →
  Q () (b <| verr := (verr b) <| verr_locked := true |> |>) → wp spin_lock Q b.
Proof. intros Hl HQ. unfold wp, spin_lock. by rewrite Hl. Qed.

Lemma wp_spin_unlock (Q : () → bridge K C → Prop) b :
  Q () (b <| verr := (verr b) <| verr_locked := false |> |>) → wp spin_unlock Q b.
Proof. done. Qed.

(** The handlers registered are the blocks this component holds. *)
Definition handler_res (v : vme_verr) : gmultiset resource :=
  list_to_set_disj ((λ h, Block (h_self h)) <$> h_list v).

Lemma wp_register_berr_handler err size func b :
  verr_locked (verr b) = false →
  wp (vme_register_berr_handler err size func) (λ rc b',
    (rc <= 0 ∧ verr b' = verr b ∧ live (kern b') = live (kern b) ∧ chip b' = chip b ∧
       (rc = - ENOMEM ∨ (rc = - EINVAL ∧ size = 0))) ∨
    (0 < rc ∧ size ≠ 0 ∧ chip b' = chip b ∧
     verr b' = (verr b) <| h_list := h_list (verr b) ++
       [mk_vme_berr_handler rc err size func] |> ∧
     Block rc ∉ live (kern b) ∧
     live (kern b') = {[+ Block rc +]} ⊎ live (kern b))) b.
Proof.
  intros Hl. unfold vme_register_berr_handler. wp_step.
  { wp_step. left. split_and!; try done. right. lia. }
  wp_step. apply wp_kcall. pose proof (kmalloc_live 48 (kern b)) as Hk.
  destruct (kmalloc 48 (kern b)) as [a k']. simpl in *.
  wp_step.
  { wp_step. left. destruct Hk as [[_ Hk]|[? _]]; [|lia].
    split_and!; try done. by left. }
  wp_step. apply wp_spin_lock; [done|]. repeat wp_step. apply wp_spin_unlock. wp_step. right.
  destruct Hk as [[? _]|(Ha & Hn & Hk)]; [lia|].
  destruct b as [kk cc [lk ds hl]]. simpl in *. subst lk. split_and!; try done. lia.
Qed.

Lemma wp_unregister_berr_handler h b :
  verr_locked (verr b) = false →
  wp (vme_unregister_berr_handler h) (λ _ b',
    chip b' = chip b ∧
    match remove_first (λ x, h_self x =? h) (h_list (verr b)) with
    | Some l => verr b' = (verr b) <| h_list := l |> ∧
                live (kern b') = live (kern b) ∖ {[+ Block h +]}
    | None => b' = b
    end) b.
Proof.
  intros Hl. unfold vme_unregister_berr_handler. wp_step. apply wp_spin_lock; [done|].
  unfold vme_unregister_berr_handler_locked.
  destruct b as [kk cc [lk ds hl]]. simpl in Hl. subst lk. repeat wp_step.
  cbn [verr h_list verr_locked verr_desc].
  destruct (remove_first _ _) as [l|] eqn:E.
  - repeat wp_step. apply wp_kcall. cbv beta. apply wp_spin_unlock.
    split; [done|]. split; [done|]. apply kfree_live.
  - wp_step. by apply wp_spin_unlock.
Qed.
End rules.

(** * Properties *)
Section properties.
Context `{KernelLaws K} `{ChipIO C}.

(** [vme_bus_error_check_clear] reports and clears the pending bus error if
    and only if it is the one asked about (address and modifier); any other
    error stays pending, the handler list does not change and the spinlock is
    released. *)
Theorem bus_error_check_clear_spec (err : vme_bus_error) (b : bridge K C) :
  verr_locked (verr b) = false →
  wp (vme_bus_error_check_clear err) (λ rc b',
    kern b' = kern b ∧ chip b' = chip b ∧ h_list (verr b') = h_list (verr b) ∧
    verr_locked (verr b') = false ∧
    ((rc = 1 ∧ valid (verr_desc (verr b)) ≠ 0 ∧ error (verr_desc (verr b)) = err ∧
      valid (verr_desc (verr b')) = 0) ∨
     (rc = 0 ∧ verr_desc (verr b') = verr_desc (verr b) ∧
      (valid (verr_desc (verr b)) = 0 ∨ error (verr_desc (verr b)) ≠ err)))) b.
Proof.
  intros Hl. unfold vme_bus_error_check_clear. wp_step. apply wp_spin_lock; [done|].
  unfold vme_bus_error_check_clear_locked.
  destruct b as [kk cc [lk [[ea em] vl] hl]], err as [xa xm]. simpl in Hl. subst lk.
  repeat wp_step; apply wp_spin_unlock; wp_step; split_and!; try done.
  - left. rewrite !andb_true_iff, !Z.eqb_eq in *. unfold truthy in *. simpl in *.
    destruct (Z.eqb_spec vl 0); [by intuition|]. split_and!; try done. f_equal; intuition.
  - right. split; [done|]. split; [done|]. unfold truthy in *. simpl in *.
    destruct (Z.eqb_spec vl 0), (Z.eqb_spec em xm), (Z.eqb_spec ea xa); simpl in *;
      naive_solver.
Qed.

(** Registering a bus error handler and unregistering it gives back exactly
    what was taken: the list of handlers and the allocated memory are the same
    as before.  Unregistering a handler that is not registered changes
    nothing. *)
Theorem berr_handler_roundtrip (err : vme_bus_error) (size func : Z) (b : bridge K C) :
  verr_locked (verr b) = false →
  (∀ h, h ∈ h_list (verr b) → 0 < h_self h ∧ Block (h_self h) ∈ live (kern b)) →
  wp (h ← vme_register_berr_handler err size func; vme_unregister_berr_handler h;; mret h)
     (λ h b', verr b' = verr b ∧ chip b' = chip b ∧ live (kern b') = live (kern b) ∧
        (h = - EINVAL ∨ h = - ENOMEM ∨ 0 < h)) b.
Proof.
  intros Hl Hown. wp_step. eapply wp_mono; [by apply wp_register_berr_handler|].
  intros h b1 [(Hh & Hv & Hk & Hc & Hrc)|(Hh & _ & Hc & Hv & Hn & Hk)]; wp_step;
    (eapply wp_mono; [apply wp_unregister_berr_handler; by rewrite Hv|]); intros [] b2 [Hc2 H2];
    wp_step; rewrite Hv in H2.
  - destruct (remove_first _ _) as [l|] eqn:E; [|subst; naive_solver].
    apply remove_first_spec in E as (l1 & x & l2 & Hl' & _ & Hx & _).
    exfalso. apply Z.eqb_eq in Hx. destruct (Hown x); [rewrite Hl'; set_solver|lia].
  - assert (E : remove_first (λ x, h_self x =? h) (h_list ((verr b) <| h_list :=
      h_list (verr b) ++ [mk_vme_berr_handler h err size func] |>)) = Some (h_list (verr b))).
    { apply remove_first_spec. eexists _, _, []. rewrite app_nil_r.
      split; [done|]. split; [done|]. split; [by apply Z.eqb_refl|].
      apply List.Forall_forall. intros y Hy%list_elem_of_In. apply Z.eqb_neq. intros <-.
      by apply Hn, Hown. }
    rewrite E in H2. destruct H2 as [H2 H3]. rewrite H2, H3, Hk, Hc2, Hc.
    split_and!; [by destruct (verr b)|done|multiset_solver|auto].
Qed.
End properties.

(** A bridge over the concrete kernel and chip, for the witnesses. *)
Definition sim_bridge : bridge SimKernel.kernel LatchChip.chip :=
  mk_bridge SimKernel.boot LatchChip.reset
    (mk_vme_verr false (mk_vme_bus_error_desc (mk_vme_bus_error 0x1000 VME_A24_USER_DATA_SCT) 1) []).

Lemma bus_error_check_clear_spec_witness :
  wp (vme_bus_error_check_clear (mk_vme_bus_error 0x1000 VME_A24_USER_DATA_SCT))
     (λ rc _, rc = 1) sim_bridge.
Proof.
  eapply wp_mono; [apply bus_error_check_clear_spec; reflexivity|].
  intros rc b (_ & _ & _ & _ & [(-> & _)|(_ & _ & [H|H])]); [done|by compute in H|].
  by destruct H.
Defined.

Lemma berr_handler_roundtrip_witness :
  wp (h ← vme_register_berr_handler (mk_vme_bus_error 0 VME_A16_USER) 0x100 1;
      vme_unregister_berr_handler h;; mret h)
     (λ _ b, verr b = verr sim_bridge) sim_bridge.
Proof.
  eapply wp_mono; [apply berr_handler_roundtrip; [reflexivity|set_solver]|].
  intros h b (H & _). exact H.
Defined.
