(* ===== verification/VmeWindow.v ===== *)
(** Window and mapping management: [src/vmebridge/driver/vme_window.c].

    The window table is the state; every function that the driver exports, the
    ioctls, [mmap], [release], module init and exit are computations on it.
    Mutexes are explicit: locking a mutex that is already held by the same
    thread, and unlocking one that is not held, are stuck runs, so "the call
    returns" includes "no self-deadlock". *)
From S2P Require Import Prelude VmeBus Tsi148Regs Tsi148Attr Tsi148Window KernelIf VmeMisc.

Local Open Scope Z_scope.

(** [struct resource], the fields the driver uses. *)
Record pci_resource := mk_pci_resource {
  r_name : Z;
  r_start : Z;
  r_end : Z;
  r_flags : Z
}.
Definition zero_resource : pci_resource := mk_pci_resource 0 0 0 0.
Definition IORESOURCE_MEM : Z := 0x200.

(** [struct vme_taskinfo] *)
Record vme_taskinfo := mk_vme_taskinfo {
  pid_nr : Z;
  task_name : string;
  file : Z
}.

(** [struct mapping]; [m_self] is the address of the block. *)
Record vmapping := mk_vmapping {
  m_self : Z;
  m_desc : vme_mapping;
  client : vme_taskinfo
}.

(** [struct window]; [w_lock] tells whether the mutex is held. *)
Record window := mk_window {
  w_lock : bool;
  active : Z;
  rsrc : pci_resource;
  w_desc : vme_mapping;
  mappings : list vmapping;
  users : Z
}.

Definition zero_window : window :=
  mk_window false 0 zero_resource zero_mapping [] 0.

(** [window_table] and the two policy flags, over the bridge. *)
Record wstate (K C : Type) := mk_wstate {
  br : bridge K C;
  window_table : list window;
  vme_create_on_find_fail : Z;
  vme_destroy_on_remove : Z
}.
Arguments mk_wstate {K C}.
Arguments br {K C}.
Arguments window_table {K C}.
Arguments vme_create_on_find_fail {K C}.
Arguments vme_destroy_on_remove {K C}.

(** The task that issues a request: [current]. *)
Record task := mk_task { t_pid : Z; t_comm : string }.

(** * Pure parts *)

(** Alignment of the VME address and size at the start of
    [vme_create_window]. *)
Definition create_align (d : vme_mapping) : vme_mapping :=
  let d :=
    if truthy (Z.land (vme_addrl d) 0xffff) then
      let lowaddr := clear_low 16 (vme_addrl d) in
      let d := d <| vme_addrl := lowaddr |> in
      d <| sizel := u32 (sizel d + (vme_addrl d - lowaddr)) |>
    else d in
  if truthy (Z.land (sizel d) 0xffff) then
    let newsize := clear_low 16 (u32 (sizel d + 0x10000)) in
    d <| sizel := newsize |>
  else d.

Definition am_in (l : list Z) (a : Z) : bool := existsb (Z.eqb a) l.

Definition A24_MODIFIERS : list Z :=
  [VME_A24_USER_MBLT; VME_A24_USER_DATA_SCT; VME_A24_USER_PRG_SCT; VME_A24_USER_BLT;
   VME_A24_SUP_MBLT; VME_A24_SUP_DATA_SCT; VME_A24_SUP_PRG_SCT; VME_A24_SUP_BLT].
Definition A16_MODIFIERS : list Z := [VME_A16_USER; VME_A16_LCK; VME_A16_SUP].
Definition A32_MODIFIERS : list Z :=
  [VME_A32_LCK; VME_A32_USER_MBLT; VME_A32_USER_DATA_SCT; VME_A32_USER_PRG_SCT;
   VME_A32_USER_BLT; VME_A32_SUP_MBLT; VME_A32_SUP_DATA_SCT; VME_A32_SUP_PRG_SCT;
   VME_A32_SUP_BLT].
Definition A40_MODIFIERS : list Z := [VME_A40_SCT; VME_A40_LCK; VME_A40_BLT].

Definition vme_optimize_window_size (d : vme_mapping) : vme_mapping :=
  let resize :=
    if am_in A24_MODIFIERS (am d) then 0x1000000
    else if am_in A16_MODIFIERS (am d) then 0x10000 else 0 in
  if negb (truthy resize) then d else
  d <| sizeu := 0 |> <| sizel := resize |> <| vme_addru := 0 |> <| vme_addrl := 0 |>.

Definition vme_mapping_sanity_check (m : vme_mapping) : Z :=
  let err :=
    if am_in A16_MODIFIERS (am m) then
      if truthy (vme_addru m) || truthy (clear_low 16 (vme_addrl m)) then 16 else 0
    else if am_in A24_MODIFIERS (am m) then
      if truthy (vme_addru m) || truthy (clear_low 24 (vme_addrl m)) then 24 else 0
    else if am_in A32_MODIFIERS (am m) then
      if truthy (vme_addru m) then 32 else 0
    else if am_in A40_MODIFIERS (am m) then
      if truthy (clear_low 8 (vme_addru m)) then 40 else 0
    else 0 in
  if truthy err then - EINVAL else 0.

(** The tests of the search loop of [__vme_find_mapping]. *)
Definition window_matches (w : window) (m : vme_mapping) : bool :=
  let d := w_desc w in
  truthy (active w) && truthy (window_enabled d) &&
  negb (negb (vme_addru d =? 0) || negb (sizeu d =? 0)) &&
  negb (negb (am d =? am m) || negb (data_width d =? data_width m)) &&
  negb ((vme_addrl d >? vme_addrl m) ||
        (u32 (vme_addrl d + sizel d) <? u32 (vme_addrl m + sizel m))) &&
  negb ((am d =? VME_2e6U) && negb (v2esst_mode d =? v2esst_mode m)).

(** The descriptor returned for a mapping at an offset in window [n]. *)
Definition place_mapping (n : Z) (w : window) (m : vme_mapping) : vme_mapping :=
  let offset := u32 (vme_addrl m - vme_addrl (w_desc w)) in
  m <| kernel_va := kernel_va (w_desc w) + offset |>
    <| pci_addrl := u32 (pci_addrl (w_desc w) + offset) |>
    <| window_num := n |>.

(** The test of [remove_mapping]. *)
Definition mapping_matches (d : vme_mapping) (f : Z) (m : vmapping) : bool :=
  (vme_addru (m_desc m) =? vme_addru d) && (vme_addrl (m_desc m) =? vme_addrl d) &&
  (sizeu (m_desc m) =? sizeu d) && (sizel (m_desc m) =? sizel d) &&
  (kernel_va (m_desc m) =? kernel_va d) && (negb (truthy f) || (file (client m) =? f)).

Definition PAGE_SHIFT : Z := 12.
Definition PAGE_SIZE : Z := Z.shiftl 1 PAGE_SHIFT.

(** [vme_check_mmap_region]; [w] is the descriptor of the window. *)
Definition vme_check_mmap_region (w mapping : vme_mapping) (addr size : Z) : bool :=
  if (addr <? pci_addrl w) || (u32 (addr + size) >? u32 (pci_addrl w + sizel w)) then false else
  let aligned_start := clear_low PAGE_SHIFT (pci_addrl mapping) in
  let e := u32 (pci_addrl mapping + sizel mapping) in
  let aligned_end :=
    if truthy (Z.land e (PAGE_SIZE - 1)) then u32 (clear_low PAGE_SHIFT e + PAGE_SIZE) else e in
  (aligned_start =? addr) && (aligned_end =? u32 (addr + size)).

Section ops.
Context `{Kernel K} `{ChipIO C}.
Notation W := (wstate K C).

(** Calls into the bridge, the kernel and the chip. *)
Definition in_bridge {A} (m : M (bridge K C) A) : M W A :=
  zoom br (λ b (s : W), s <| br := b |>) m.
Definition wkcall {A} (f : K → A * K) : M W A := in_bridge (kcall f).
Definition wkdo (f : K → K) : M W () := in_bridge (kdo f).
Definition wchip {A} (m : M C A) : M W A := in_bridge (on_chip m).

(** [window_table[i]] *)
Definition win (i : nat) : M W window := λ s, (λ w, (w, s)) <$> window_table s !! i.
Definition upd_win (i : nat) (f : window → window) : M W () := λ s,
  match window_table s !! i with
  | Some w => Some ((), s <| window_table := <[i := f w]> (window_table s) |>)
  | None => None
  end.

(** [mutex_lock_interruptible(&window_table[i].lock)]: [true] if a signal
    interrupted the wait. *)
Definition lock_win (i : nat) : M W bool :=
  intr ← wkcall signal_pending;
  if intr : bool then mret true else
  w ← win i;
  if w_lock w then stuck else upd_win i (λ w, w <| w_lock := true |>);; mret false.

Definition unlock_win (i : nat) : M W () :=
  w ← win i;
  if w_lock w then upd_win i (λ w, w <| w_lock := false |>) else stuck.

Definition num_windows : nat := Z.to_nat TSI148_NUM_OUT_WINDOWS.

Definition bad_window_num (n : Z) : bool := (n <? 0) || (n >=? TSI148_NUM_OUT_WINDOWS).

(** The body of the inner loop of [vme_window_release]: the mappings of [f] are
    freed, the others stay in order. *)
Definition release_mappings (i : nat) (f : Z) (l : list vmapping) : M W (list vmapping) :=
  mfold (λ (kept : list vmapping) (m : vmapping),
    if file (client m) =? f then
      wkdo (kfree (m_self m));;
      upd_win i (λ w, w <| users ::= λ n, n - 1 |>);;
      mret kept
    else mret (kept ++ [m])) [] l.

Definition release_window (i : nat) (f : Z) : M W Z :=
  intr ← lock_win i;
  if intr : bool then mret (- ERESTARTSYS) else
  w ← win i;
  (if negb (truthy (active w)) || bool_decide (mappings w = []) then mret ()
   else
     kept ← release_mappings i f (mappings w);
     upd_win i (λ w, w <| mappings := kept |>));;
  unlock_win i;;
  mret 0.

(** The loop over the windows stops at the first interrupted lock. *)
Fixpoint release_windows (l : list nat) (f : Z) : M W Z :=
  match l with
  | [] => mret 0
  | i :: l =>
    rc ← release_window i f;
    if truthy rc then mret rc else release_windows l f
  end.

Definition vme_window_release (f : Z) : M W Z := release_windows (seq 0 num_windows) f.

(** [f] is the file of the caller, 0 (NULL) for a request from the kernel. *)
Definition add_mapping (i : nat) (desc : vme_mapping) (f : Z) (cur : task) : M W Z :=
  p ← wkcall (kmalloc 160);
  if p =? 0 then mret (- ENOMEM) else
  let info := if truthy f then mk_vme_taskinfo (t_pid cur) (t_comm cur) f
              else mk_vme_taskinfo 0 "kernel" 0 in
  upd_win i (λ w, w <| mappings := mappings w ++ [mk_vmapping p desc info] |>);;
  upd_win i (λ w, w <| users ::= λ n, n + 1 |>);;
  mret 0.

Definition remove_mapping (i : nat) (desc : vme_mapping) (f : Z) : M W Z :=
  w ← win i;
  match find_idx (mapping_matches desc f) (mappings w) ≫= (mappings w !!.) with
  | Some m =>
    upd_win i (λ w, w <| mappings :=
      default [] (remove_first (mapping_matches desc f) (mappings w)) |>);;
    wkdo (kfree (m_self m));;
    upd_win i (λ w, w <| users ::= λ n, n - 1 |>);;
    mret 0
  | None => mret (- EINVAL)
  end.

(** The descriptor whose address is returned, if any. *)
Fixpoint find_from_addr (l : list nat) (logaddr : Z) : M W (option vme_mapping) :=
  match l with
  | [] => mret None
  | i :: l =>
    intr ← lock_win i;
    if intr : bool then mret None else
    w ← win i;
    match find_idx (λ m, kernel_va (m_desc m) =? logaddr) (mappings w) ≫= (mappings w !!.) with
    | Some m => unlock_win i;; mret (Some (m_desc m))
    | None => unlock_win i;; find_from_addr l logaddr
    end
  end.

Definition find_vme_mapping_from_addr (logaddr : Z) : M W (option vme_mapping) :=
  find_from_addr (seq 0 num_windows) logaddr.

Definition vme_get_window_attr (desc : vme_mapping) : M W (Z * vme_mapping) :=
  let n := window_num desc in
  if bad_window_num n then mret (- EINVAL, desc) else
  let i := Z.to_nat n in
  intr ← lock_win i;
  if intr : bool then mret (- ERESTARTSYS, desc) else
  w ← win i;
  desc ← wchip (tsi148_get_window_attr (w_desc w));
  unlock_win i;;
  mret (0, desc).

(** The error exits of [vme_create_window]. *)
Definition create_out_free (i : nat) : M W () :=
  w ← win i;
  (if truthy (r_name (rsrc w)) then wkdo (kfree (r_name (rsrc w))) else mret ());;
  upd_win i (λ w, w <| rsrc := zero_resource |>).

Definition create_out_release (i : nat) : M W () :=
  w ← win i;
  wkdo (release_resource (r_start (rsrc w)) (r_end (rsrc w)));;
  create_out_free i.

(** The part of [vme_create_window] that runs with the window locked and found
    inactive. *)
Definition create_locked (i : nat) (desc : vme_mapping) : M W (Z * vme_mapping) :=
  name ← wkcall (kmalloc 32);
  upd_win i (λ w, w <| rsrc := mk_pci_resource name 0 (sizel desc) IORESOURCE_MEM |>);;
  '(rc, start) ← wkcall (pci_bus_alloc_resource (sizel desc));
  if truthy rc then create_out_free i;; mret (rc, desc) else
  (* the kernel fills in the resource it was given *)
  upd_win i (λ w, w <| rsrc := mk_pci_resource name start (start + sizel desc - 1) IORESOURCE_MEM |>);;
  va ← wkcall (ioremap start (sizel desc));
  let desc := desc <| kernel_va := va |> in
  if va =? 0 then create_out_release i;; mret (- ENOMEM, desc) else
  let desc := desc <| pci_addrl := u32 start |> in
  '(rc, desc) ← wchip (tsi148_create_window desc);
  if truthy rc then
    wkdo (iounmap (kernel_va desc));;
    create_out_release i;;
    mret (rc, desc)
  else
    upd_win i (λ w, w <| w_desc := desc |>);;
    upd_win i (λ w, w <| active := 1 |>);;
    mret (0, desc).

Definition vme_create_window (desc : vme_mapping) : M W (Z * vme_mapping) :=
  let n := window_num desc in
  if bad_window_num n then mret (- EINVAL, desc) else
  if sizel desc =? 0 then mret (- EINVAL, desc) else
  let desc := create_align desc in
  let i := Z.to_nat n in
  intr ← lock_win i;
  if intr : bool then mret (- ERESTARTSYS, desc) else
  w ← win i;
  r ← (if truthy (active w) then mret (- EBUSY, desc) else create_locked i desc);
  unlock_win i;;
  mret r.

(** The loop that frees every mapping of a window. *)
Definition remove_all_mappings (i : nat) (l : list vmapping) : M W () :=
  mfold (λ _ m,
    upd_win i (λ w, w <| mappings ::= tail |>);;
    wkdo (kfree (m_self m));;
    upd_win i (λ w, w <| users ::= λ n, n - 1 |>)) () l.

Definition destroy_locked (i : nat) : M W Z :=
  w ← win i;
  if negb (truthy (active w)) then mret (- EINVAL) else
  (if users w >? 0 then remove_all_mappings i (mappings w) else mret ());;
  upd_win i (λ w, w <| active := 0 |>);;
  w ← win i;
  wkdo (iounmap (kernel_va (w_desc w)));;
  upd_win i (λ w, w <| w_desc := (w_desc w) <| kernel_va := 0 |> |>);;
  w ← win i;
  desc ← wchip (tsi148_remove_window (w_desc w));
  upd_win i (λ w, w <| w_desc := desc |>);;
  w ← win i;
  wkdo (release_resource (r_start (rsrc w)) (r_end (rsrc w)));;
  (if truthy (r_name (rsrc w)) then wkdo (kfree (r_name (rsrc w))) else mret ());;
  upd_win i (λ w, w <| rsrc := zero_resource |>);;
  mret 0.

Definition vme_destroy_window (n : Z) : M W Z :=
  if bad_window_num n then mret (- EINVAL) else
  let i := Z.to_nat n in
  intr ← lock_win i;
  if intr : bool then mret (- ERESTARTSYS) else
  rc ← destroy_locked i;
  unlock_win i;;
  mret rc.

(** Result of the search loop: interrupted, not found, or found with the
    window's lock still held. *)
Inductive search_result := Interrupted | NotFound | Found (i : nat).

Fixpoint search_windows (l : list nat) (m : vme_mapping) : M W search_result :=
  match l with
  | [] => mret NotFound
  | i :: l =>
    intr ← lock_win i;
    if intr : bool then mret Interrupted else
    w ← win i;
    if window_matches w m then mret (Found i)
    else unlock_win i;; search_windows l m
  end.

(** [__vme_find_mapping] *)
Definition vme_find_mapping_file (m : vme_mapping) (force : Z) (f : Z) (cur : task)
    : M W (Z * vme_mapping) :=
  let rc := vme_mapping_sanity_check m in
  if truthy rc then mret (rc, m) else
  r ← search_windows (seq 0 num_windows) m;
  match r with
  | Interrupted => mret (- ERESTARTSYS, m)
  | Found i =>
    w ← win i;
    let m := place_mapping (Z.of_nat i) w m in
    rc ← add_mapping i m f cur;
    unlock_win i;;
    mret (rc, m)
  | NotFound =>
    if negb (truthy force) then mret (- EBUSY, m) else
    (* get the first unused window *)
    t ← gets window_table;
    match find_idx (λ w, negb (truthy (active w))) t with
    | None => mret (- EBUSY, m)
    | Some i =>
      let wnd := m <| window_num := Z.of_nat i |> in
      let wnd := vme_optimize_window_size wnd in
      '(rc, wnd) ← vme_create_window wnd;
      if truthy rc then mret (rc, m) else
      w ← win (Z.to_nat (window_num wnd));
      let m := place_mapping (window_num wnd) w m in
      rc ← add_mapping (Z.to_nat (window_num wnd)) m f cur;
      mret (rc, m)
    end
  end.

(** [__vme_release_mapping] *)
Definition vme_release_mapping_file (desc : vme_mapping) (force : Z) (f : Z) : M W Z :=
  let n := window_num desc in
  if bad_window_num n then mret (- EINVAL) else
  let i := Z.to_nat n in
  intr ← lock_win i;
  if intr : bool then mret (- ERESTARTSYS) else
  w ← win i;
  if negb (truthy (active w)) then unlock_win i;; mret (- EINVAL) else
  rc ← remove_mapping i desc f;
  if truthy rc then unlock_win i;; mret rc else
  w ← win i;
  if (users w =? 0) && truthy force then
    unlock_win i;; vme_destroy_window n
  else unlock_win i;; mret rc.

Definition vme_find_mapping (m : vme_mapping) (force : Z) (cur : task) : M W (Z * vme_mapping) :=
  vme_find_mapping_file m force 0 cur.

Definition vme_release_mapping (desc : vme_mapping) (force : Z) : M W Z :=
  vme_release_mapping_file desc force 0.

(** * File operations of the window device *)

(** An ioctl request with the data [copy_from_user] or [get_user] would fetch. *)
Inductive window_ioctl :=
  | VME_IOCTL_GET_WINDOW_ATTR (d : vme_mapping)
  | VME_IOCTL_CREATE_WINDOW (d : vme_mapping)
  | VME_IOCTL_DESTROY_WINDOW (n : Z)
  | VME_IOCTL_FIND_MAPPING (d : vme_mapping)
  | VME_IOCTL_RELEASE_MAPPING (d : vme_mapping)
  | VME_IOCTL_GET_CREATE_ON_FIND_FAIL
  | VME_IOCTL_SET_CREATE_ON_FIND_FAIL (v : Z)
  | VME_IOCTL_GET_DESTROY_ON_REMOVE
  | VME_IOCTL_SET_DESTROY_ON_REMOVE (v : Z)
  | VME_IOCTL_GET_BUS_ERROR
  | VME_IOCTL_CHECK_CLEAR_BUS_ERROR (d : vme_bus_error_desc)
  | UNKNOWN_IOCTL.

(** What is copied back to user space. *)
Inductive reply :=
  | NoReply
  | ReplyMapping (d : vme_mapping)
  | ReplyInt (v : Z)
  | ReplyBerr (d : vme_bus_error_desc).

(** Run [m] on data fetched from user space; copy a result back. *)
Definition from_user {A} (m : M W (Z * A)) (err : A) : M W (Z * A) :=
  fault ← wkcall user_fault;
  if fault : bool then mret (- EFAULT, err) else m.

Definition to_user (r : reply) : M W (Z * reply) :=
  fault ← wkcall user_fault;
  if fault : bool then mret (- EFAULT, NoReply) else mret (0, r).

Definition vme_destroy_window_ioctl (n : Z) : M W (Z * reply) :=
  from_user (rc ← vme_destroy_window n; mret (rc, NoReply)) NoReply.

Definition vme_bus_error_check_clear_ioctl (d : vme_bus_error_desc) : M W (Z * reply) :=
  from_user
    (v ← in_bridge (vme_bus_error_check_clear (error d));
     to_user (ReplyBerr (d <| valid := v |>))) NoReply.

Definition vme_window_ioctl (f : Z) (cur : task) (cmd : window_ioctl) : M W (Z * reply) :=
  match cmd with
  | VME_IOCTL_GET_WINDOW_ATTR d =>
    from_user
      ('(rc, d) ← vme_get_window_attr d;
       if truthy rc then mret (rc, NoReply) else to_user (ReplyMapping d)) NoReply
  | VME_IOCTL_CREATE_WINDOW d =>
    from_user
      ('(rc, d) ← vme_create_window d;
       if truthy rc then mret (rc, NoReply) else to_user (ReplyMapping d)) NoReply
  | VME_IOCTL_DESTROY_WINDOW n => vme_destroy_window_ioctl n
  | VME_IOCTL_FIND_MAPPING d =>
    from_user
      (force ← gets vme_create_on_find_fail;
       '(rc, d) ← vme_find_mapping_file d force f cur;
       if truthy rc then mret (rc, NoReply) else to_user (ReplyMapping d)) NoReply
  | VME_IOCTL_RELEASE_MAPPING d =>
    from_user
      (force ← gets vme_destroy_on_remove;
       rc ← vme_release_mapping_file d force f;
       mret (rc, NoReply)) NoReply
  | VME_IOCTL_GET_CREATE_ON_FIND_FAIL =>
    v ← gets vme_create_on_find_fail; to_user (ReplyInt v)
  | VME_IOCTL_SET_CREATE_ON_FIND_FAIL v =>
    from_user (modify (λ s : W, s <| vme_create_on_find_fail := v |>);; mret (0, NoReply)) NoReply
  | VME_IOCTL_GET_DESTROY_ON_REMOVE =>
    v ← gets vme_destroy_on_remove; to_user (ReplyInt v)
  | VME_IOCTL_SET_DESTROY_ON_REMOVE v =>
    from_user (modify (λ s : W, s <| vme_destroy_on_remove := v |>);; mret (0, NoReply)) NoReply
  | VME_IOCTL_GET_BUS_ERROR =>
    v ← in_bridge (vme_bus_error_check 1); to_user (ReplyInt v)
  | VME_IOCTL_CHECK_CLEAR_BUS_ERROR d => vme_bus_error_check_clear_ioctl d
  | UNKNOWN_IOCTL => mret (- ENOIOCTLCMD, NoReply)
  end.

(** The fields of [struct vm_area_struct] that [vme_window_mmap] reads. *)
Record vm_area := mk_vm_area { vm_start : Z; vm_end : Z; vm_pgoff : Z }.

(** [vme_remap_pfn_range], after the flag changes: the physical page range it
    maps, with the return code. *)
Definition vme_remap_pfn_range (vma : vm_area) : M W (Z * option (Z * Z)) :=
  rc ← wkcall (io_remap_pfn_range (vm_pgoff vma) (vm_end vma - vm_start vma));
  mret (rc, Some (vm_pgoff vma, vm_end vma - vm_start vma)).

Fixpoint mmap_windows (l : list nat) (f : Z) (vma : vm_area) : M W (Z * option (Z * Z)) :=
  match l with
  | [] => mret (- EINVAL, None)
  | i :: l =>
    intr ← lock_win i;
    if intr : bool then mret (- ERESTARTSYS, None) else
    w ← win i;
    let addr := u32 (Z.shiftl (vm_pgoff vma) PAGE_SHIFT) in
    let size := u32 (vm_end vma - vm_start vma) in
    let hit m := (file (client m) =? f) &&
                 vme_check_mmap_region (w_desc w) (m_desc m) addr size in
    if truthy (active w) && existsb hit (mappings w) then
      r ← vme_remap_pfn_range vma;
      unlock_win i;;
      mret r
    else unlock_win i;; mmap_windows l f vma
  end.

Definition vme_window_mmap (f : Z) (vma : vm_area) : M W (Z * option (Z * Z)) :=
  mmap_windows (seq 0 num_windows) f vma.

(** * Module init and exit *)

Definition vme_window_init : M W () :=
  mfold (λ _ i, upd_win i (λ w, w <| mappings := [] |> <| w_lock := false |> <| active := 0 |>))
    () (seq 0 num_windows).

Definition vme_window_exit : M W () :=
  mfold (λ _ i,
    w ← win i;
    if truthy (active w) then vme_destroy_window (Z.of_nat i);; mret () else mret ())
    () (seq 0 num_windows).
End ops.
