(* ===== verification/VmeWindowProofs.v ===== *)
(** Proofs about [VmeWindow].

    Every operation works on one window at a time, under its lock.  [win_step]
    says what such an operation may do to the window, the kernel's resources and
    the chip; it composes, and it carries the invariant [inv] of the whole table
    (the table describes exactly what is allocated, and the hardware agrees
    with it) from one state to the next. *)
From S2P Require Import Prelude VmeBus Tsi148Regs Tsi148Attr Tsi148Window KernelIf VmeMisc VmeWindow.

Local Open Scope Z_scope.

(** * The resources a window owns *)

Definition block_res (a : Z) : gmultiset resource := if truthy a then {[+ Block a +]} else ∅.

Definition mappings_res (l : list vmapping) : gmultiset resource :=
  list_to_set_disj ((λ m, Block (m_self m)) <$> l).

Definition hw_res (w : window) : gmultiset resource :=
  if truthy (active w)
  then {[+ Region (r_start (rsrc w)) (r_end (rsrc w)) +]} ⊎ {[+ IoMap (kernel_va (w_desc w)) +]}
  else ∅.

Definition win_res (w : window) : gmultiset resource :=
  hw_res w ⊎ block_res (r_name (rsrc w)) ⊎ mappings_res (mappings w).

Definition table_res (t : list window) : gmultiset resource :=
  foldr (λ w m, win_res w ⊎ m) ∅ t.

(** * Well-formed windows *)

(** A window that is not in use holds nothing. *)
Definition win_idle (w : window) : Prop :=
  active w = 0 ∧ mappings w = [] ∧ rsrc w = zero_resource.

(** A window in use: the descriptor describes the mapped PCI region. *)
Definition win_active (i : nat) (w : window) : Prop :=
  active w = 1 ∧ window_num (w_desc w) = Z.of_nat i ∧ window_enabled (w_desc w) = 1 ∧
  0 < kernel_va (w_desc w) ∧
  is_u32 (r_start (rsrc w)) ∧ r_start (rsrc w) mod 2 ^ 16 = 0 ∧
  pci_addrl (w_desc w) = r_start (rsrc w) ∧
  r_end (rsrc w) = r_start (rsrc w) + sizel (w_desc w) - 1 ∧ r_end (rsrc w) < 2 ^ 32 ∧
  vme_addrl (w_desc w) mod 2 ^ 16 = 0 ∧ sizel (w_desc w) mod 2 ^ 16 = 0 ∧
  is_u32 (vme_addrl (w_desc w)) ∧ is_u32 (sizel (w_desc w)) ∧
  (∃ t, am_to_attr (am (w_desc w)) = Some t).

Definition win_wf (i : nat) (w : window) : Prop :=
  users w = Z.of_nat (length (mappings w)) ∧ (win_idle w ∨ win_active i w).

Section proofs.
Context `{KernelLaws K} `{ChipLaws C}.
Implicit Types (k : K) (c : C) (w : window) (t : list window).

Notation W := (wstate K C).
Definition ST k c v t a b : W := mk_wstate (mk_bridge k c v) t a b.

(** The chip decodes for a window exactly when the table says so, at the
    window's PCI address. *)
Definition hw_agrees (i : nat) w c : Prop :=
  Z.testbit (latch (OTAT (Z.of_nat i)) c) 31 = truthy (active w) ∧
  (truthy (active w) = true → latch (OTSAL (Z.of_nat i)) c = r_start (rsrc w)).

(** The registers of window [i]. *)
Definition reg_of_window (i : nat) (r : reg) : bool :=
  match r with
  | OTSAU j | OTSAL j | OTEAU j | OTEAL j | OTOFU j | OTOFL j | OTBS j | OTAT j =>
      j =? Z.of_nat i
  | _ => false
  end.

(** A PCI region that window [w] owns does not overlap a region in [R]. *)
Definition region_free w (R : gmultiset resource) : Prop :=
  ∀ x y, Region x y ∈ R → ranges_disjoint (r_start (rsrc w)) (r_end (rsrc w)) x y.

(** What an operation on window [i] does. *)
Record win_step (i : nat) k c w k' c' w' : Prop := {
  ws_wf : win_wf i w';
  ws_live : ∀ R, live k = win_res w ⊎ R → live k' = win_res w' ⊎ R;
  ws_region : ∀ R, live k = win_res w ⊎ R → truthy (active w') = true →
    (truthy (active w) = true ∧ rsrc w' = rsrc w) ∨ region_free w' R;
  ws_chip : ∀ r, is_latch r = true → reg_of_window i r = false → latch r c' = latch r c;
  ws_hw : hw_agrees i w c → hw_agrees i w' c';
  ws_num : win_ok (window_num (w_desc w)) = true → win_ok (window_num (w_desc w')) = true;
}.

Lemma win_step_refl i k c w : win_wf i w → win_step i k c w k c w.
Proof. intros Hw. by split; auto. Qed.

(** A failed operation that gave everything back. *)
Lemma win_step_same i k c w k' :
  win_wf i w → live k' = live k → win_step i k c w k' c w.
Proof. intros Hw Hl. split; auto. intros R HR. by rewrite Hl. Qed.

Lemma win_step_trans i k c w k1 c1 w1 k2 c2 w2 :
  win_step i k c w k1 c1 w1 → win_step i k1 c1 w1 k2 c2 w2 → win_step i k c w k2 c2 w2.
Proof.
  intros [A1 A2 A3 A4 A5 A6] [B1 B2 B3 B4 B5 B6]. split; try done.
  - intros R HR. by apply B2, A2.
  - intros R HR Ha. destruct (B3 R (A2 R HR) Ha) as [[Ha1 Hr]|?]; [|by right].
    destruct (A3 R HR Ha1) as [[? Hr']|Hf]; [left; by rewrite Hr|right].
    unfold region_free in *. by rewrite Hr.
  - intros r Hr Hi. by rewrite B4, A4.
  - intros Hh. by apply B5, A5.
  - intros Hok. by apply B6, A6.
Qed.

Lemma ST_win k c v t i w1 w2 a b :
  w1 = w2 → ST k c v (<[i:=w1]> t) a b = ST k c v (<[i:=w2]> t) a b.
Proof. by intros ->. Qed.

(** The lock is not part of any of these facts. *)
Lemma win_wf_lock i w b : win_wf i (w <| w_lock := b |>) ↔ win_wf i w.
Proof. by destruct w. Qed.
Lemma win_res_lock w b : win_res (w <| w_lock := b |>) = win_res w.
Proof. by destruct w. Qed.
Lemma hw_agrees_lock i w b c : hw_agrees i (w <| w_lock := b |>) c ↔ hw_agrees i w c.
Proof. by destruct w. Qed.
Lemma lock_lock w b b' : w <| w_lock := b |> <| w_lock := b' |> = w <| w_lock := b' |>.
Proof. by destruct w. Qed.
Lemma lock_id w b : w_lock w = b → w <| w_lock := b |> = w.
Proof. intros <-. by destruct w. Qed.

Lemma win_step_lock i k c w k' c' w' b b' :
  win_step i k c (w <| w_lock := b |>) k' c' (w' <| w_lock := b' |>) ↔
  win_step i k c w k' c' w'.
Proof.
  split; intros [A1 A2 A3 A4 A5 A6];
    rewrite ?win_res_lock, ?win_wf_lock, ?hw_agrees_lock in *; by destruct w, w'.
Qed.

(** * Rules for the primitive steps *)

Lemma wp_wkcall {A} (f : K → A * K) (Q : A → W → Prop) k c v t a b :
  Q (f k).1 (ST (f k).2 c v t a b) → wp (wkcall f) Q (ST k c v t a b).
Proof.
  intros HQ. unfold wkcall, in_bridge, kcall, wp, zoom, ST. simpl.
  unfold ST in HQ. by destruct (f k).
Qed.

Lemma wp_wkdo (f : K → K) (Q : () → W → Prop) k c v t a b :
  Q () (ST (f k) c v t a b) → wp (wkdo f) Q (ST k c v t a b).
Proof. intros HQ. exact HQ. Qed.

Lemma wp_wchip {A} (m : M C A) (Q : A → W → Prop) k c v t a b :
  wp m (λ x c', Q x (ST k c' v t a b)) c → wp (wchip m) Q (ST k c v t a b).
Proof.
  intros HQ. unfold wchip, in_bridge, on_chip, wp, zoom, ST in *. simpl.
  by destruct (m c) as [[]|].
Qed.

Lemma wp_in_bridge {A} (m : M (bridge K C) A) (Q : A → W → Prop) k c v t a b :
  wp m (λ x br', Q x (mk_wstate br' t a b)) (mk_bridge k c v) →
  wp (in_bridge m) Q (ST k c v t a b).
Proof.
  intros HQ. unfold in_bridge, wp, zoom, ST in *. simpl. by destruct (m _) as [[]|].
Qed.

(** Tables are kept in the form [<[i := w]> t] while window [i] is worked on. *)
Lemma wp_win i (Q : window → W → Prop) k c v t w a b :
  (i < length t)%nat → Q w (ST k c v (<[i:=w]> t) a b) →
  wp (win i) Q (ST k c v (<[i:=w]> t) a b).
Proof. intros Hi HQ. unfold wp, win, ST in *. simpl. by rewrite list_lookup_insert_eq by done. Qed.

Lemma wp_upd_win i f (Q : () → W → Prop) k c v t w a b :
  (i < length t)%nat → Q () (ST k c v (<[i:=f w]> t) a b) →
  wp (upd_win i f) Q (ST k c v (<[i:=w]> t) a b).
Proof.
  intros Hi HQ. unfold wp, upd_win, ST in *. simpl. rewrite list_lookup_insert_eq by done.
  by rewrite list_insert_insert_eq.
Qed.

Lemma wp_unlock_win i (Q : () → W → Prop) k c v t w a b :
  (i < length t)%nat → w_lock w = true →
  Q () (ST k c v (<[i:=w <| w_lock := false |>]> t) a b) →
  wp (unlock_win i) Q (ST k c v (<[i:=w]> t) a b).
Proof.
  intros Hi Hl HQ. unfold unlock_win. wp_step. apply wp_win; [done|]. rewrite Hl.
  by apply wp_upd_win.
Qed.

(** Taking a free lock: interrupted, or the window is now locked. *)
Lemma wp_lock_win i (Q : bool → W → Prop) k c v t w a b :
  (i < length t)%nat → w_lock w = false →
  (∀ k', live k' = live k → Q true (ST k' c v (<[i:=w]> t) a b)) →
  (∀ k', live k' = live k → Q false (ST k' c v (<[i:=w <| w_lock := true |>]> t) a b)) →
  wp (lock_win i) Q (ST k c v (<[i:=w]> t) a b).
Proof.
  intros Hi Hl HT HF. unfold lock_win. wp_step. apply wp_wkcall.
  pose proof (signal_pending_live k) as Hk. destruct (signal_pending k) as [[] k']; simpl in *.
  - wp_step. by apply HT.
  - wp_step. apply wp_win; [done|]. rewrite Hl. wp_step. apply wp_upd_win; [done|].
    wp_step. by apply HF.
Qed.
End proofs.

(** One step of a window computation whose table is [<[i := w]> t]. *)
Ltac win_step1 :=
  first
  [ wp_step
  | lazymatch goal with
    | |- wp (win _) _ _ => apply wp_win; [assumption|]
    | |- wp (upd_win _ _) _ _ => apply wp_upd_win; [assumption|]
    | |- wp (wkcall _) _ _ => apply wp_wkcall
    | |- wp (wkdo _) _ _ => apply wp_wkdo
    end ]; cbv beta iota.

Section create.
Context `{KernelLaws K} `{ChipLaws C}.
Implicit Types (k : K) (c : C) (w : window) (t : list window).

Lemma block_res_0 : block_res 0 = ∅.
Proof. done. Qed.
Lemma block_res_pos x : 0 < x → block_res x = {[+ Block x +]}.
Proof. intros Hx. unfold block_res, truthy. by destruct (Z.eqb_spec x 0); [lia|]. Qed.
Lemma truthy_0 : truthy 0 = false.
Proof. done. Qed.
Lemma truthy_pos x : 0 < x → truthy x = true.
Proof. intros Hx. unfold truthy. by destruct (Z.eqb_spec x 0); [lia|]. Qed.
Lemma truthy_neg x : x < 0 → truthy x = true.
Proof. intros Hx. unfold truthy. by destruct (Z.eqb_spec x 0); [lia|]. Qed.

(** The name is allocated or not; either way [block_res] accounts for it. *)
Lemma kmalloc_block n k :
  0 <= (kmalloc n k).1 ∧ live (kmalloc n k).2 = block_res (kmalloc n k).1 ⊎ live k.
Proof.
  destruct (kmalloc_live n k) as [[-> ->]|(Hp & _ & ->)].
  - rewrite block_res_0. split; [done|multiset_solver].
  - split; [lia|]. by rewrite block_res_pos.
Qed.

Lemma wp_create_out_free i (Q : () → _ → Prop) k c v t w a b :
  (i < length t)%nat → 0 <= r_name (rsrc w) →
  (∀ k', live k' = live k ∖ block_res (r_name (rsrc w)) →
     Q () (ST k' c v (<[i:=w <| rsrc := zero_resource |>]> t) a b)) →
  wp (create_out_free i) Q (ST k c v (<[i:=w]> t) a b).
Proof.
  intros Hi Hn HQ. unfold create_out_free. repeat win_step1.
  - apply HQ. rewrite kfree_live. rewrite block_res_pos; [done|].
    unfold truthy in *. destruct (Z.eqb_spec (r_name (rsrc w)) 0); simpl in *; [done|lia].
  - apply HQ. unfold truthy in *. destruct (Z.eqb_spec (r_name (rsrc w)) 0) as [->|]; [|done].
    rewrite block_res_0. multiset_solver.
Qed.

Lemma wp_create_out_release i (Q : () → _ → Prop) k c v t w a b :
  (i < length t)%nat → 0 <= r_name (rsrc w) →
  (∀ k', live k' = live k ∖ {[+ Region (r_start (rsrc w)) (r_end (rsrc w)) +]}
                         ∖ block_res (r_name (rsrc w)) →
     Q () (ST k' c v (<[i:=w <| rsrc := zero_resource |>]> t) a b)) →
  wp (create_out_release i) Q (ST k c v (<[i:=w]> t) a b).
Proof.
  intros Hi Hn HQ. unfold create_out_release. repeat win_step1.
  apply wp_create_out_free; [done..|]. intros k' Hk'. apply HQ.
  by rewrite Hk', release_resource_live.
Qed.

(** The part of the descriptor that the caller chose. *)
Definition same_request (d d' : vme_mapping) : Prop :=
  window_num d' = window_num d ∧ am d' = am d ∧ data_width d' = data_width d ∧
  v2esst_mode d' = v2esst_mode d ∧ vme_addrl d' = vme_addrl d ∧ vme_addru d' = vme_addru d ∧
  sizel d' = sizel d ∧ sizeu d' = sizeu d.

(** The chip half of window creation. *)
Lemma wp_chip_create i d c :
  win_ok (Z.of_nat i) = true → window_num d = Z.of_nat i →
  is_u32 (pci_addrl d) → pci_addrl d mod 2 ^ 16 = 0 →
  vme_addrl d mod 2 ^ 16 = 0 → sizel d mod 2 ^ 16 = 0 →
  wp (tsi148_create_window d) (λ r c',
    (r = (- EINVAL, d) ∧ c' = c) ∨
    (r = (0, d <| window_enabled := 1 |>) ∧ (∃ ta, am_to_attr (am d) = Some ta) ∧
     (∀ r, is_latch r = true → reg_of_window i r = false → latch r c' = latch r c) ∧
     Z.testbit (latch (OTAT (Z.of_nat i)) c') 31 = true ∧
     latch (OTSAL (Z.of_nat i)) c' = pci_addrl d)) c.
Proof.
  intros Hi Hn Hp Hpa Hva Hsa.
  pose proof (window_round_aligned d Hva Hsa) as Hround.
  destruct (decide (0 <= tsi148_setup_window_attributes (v2esst_mode d) (data_width d) (am d)))
    as [Hw|Hw].
  - eapply wp_mono; [apply wp_create_window; [by rewrite Hn|by split]|].
    intros r c' [-> Hl]. right. rewrite Hround in Hl |- *.
    pose proof (setup_window_attributes_nonneg _ _ _ Hw) as (Hsst & Hdw & ta & Ht).
    pose proof (setup_window_attributes_ok _ _ _ _ Hsst Hdw Ht) as Hf.
    apply attr_fields_ok_spec in Hf as (Hw14 & _).
    split; [done|]. split; [by exists ta|]. split_and!.
    + intros r Hr Hi'. rewrite (Hl r Hr). unfold window_image. rewrite Hn.
      by destruct r; simpl in Hi'; rewrite ?Hi'.
    + rewrite (Hl (OTAT _) Hi). unfold window_image. rewrite Hn, Z.eqb_refl.
      by destruct (window_otat_fields _ d Hw14) as [G _].
    + rewrite (Hl (OTSAL _) Hi). unfold window_image. rewrite Hn, Z.eqb_refl.
      simpl wmask. unfold TSI148_LCSR_OTSAL_M. rewrite (aligned_mask (pci_addrl d)) by done. by apply aligned_mask.
  - unfold wp. rewrite wp_create_window_err; [|by intros [_ ?]]. left. by rewrite Hround.
Qed.

Lemma wp_create_locked i d k c v t w a b :
  (i < length t)%nat → win_ok (Z.of_nat i) = true → window_num d = Z.of_nat i →
  win_wf i w → win_idle w → hw_agrees i w c →
  is_u32 (sizel d) → is_u32 (vme_addrl d) →
  vme_addrl d mod 2 ^ 16 = 0 → sizel d mod 2 ^ 16 = 0 →
  wp (create_locked i d) (λ r s', ∃ k' c' w',
    s' = ST k' c' v (<[i:=w']> t) a b ∧ w_lock w' = w_lock w ∧ win_step i k c w k' c' w' ∧
    ((r.1 < 0 ∧ w' = w ∧ c' = c) ∨
     (r.1 = 0 ∧ active w' = 1 ∧ w_desc w' = r.2 ∧ mappings w' = [] ∧ same_request d r.2)))
    (ST k c v (<[i:=w]> t) a b).
Proof.
  intros Hi Hok Hn Hwf (Ha & Hm & Hr) Hhw Hs Hv Hva Hsa.
  destruct w as [lk ac rs ds mp us]. simpl in Ha, Hm, Hr. subst.
  destruct Hwf as [Hu _]. simpl in Hu. subst us.
  unfold create_locked. win_step1. win_step1.
  destruct (kmalloc_block 32 k) as [Hname Hk1].
  destruct (kmalloc 32 k) as [name k1]. simpl in Hname, Hk1. simpl fst. simpl snd.
  win_step1. win_step1. win_step1. win_step1.
  pose proof (alloc_resource_live (sizel d) k1) as Hk2.
  destruct (pci_bus_alloc_resource (sizel d) k1) as [[rc start] k2]. simpl fst; simpl snd.
  cbv beta iota.
  destruct Hk2 as [[Hrc Hk2]|(-> & Hk2 & Hst & Hsta & Hend & Hdisj)].
  { rewrite truthy_neg by done. win_step1. apply wp_create_out_free; [done..|].
    intros k3 Hk3. win_step1. exists k3, c. eexists. split; [done|]. split; [done|].
    split; [|left; split_and!; done].
    apply win_step_same; [by split; [|left]|].
    rewrite Hk3, Hk2, Hk1. simpl. multiset_solver. }
  rewrite truthy_0. win_step1. win_step1. win_step1. win_step1.
  pose proof (ioremap_live start (sizel d) k2) as Hk3.
  destruct (ioremap start (sizel d) k2) as [va k3]. simpl fst in *; simpl snd in *.
  destruct Hk3 as [[-> Hk3]|[Hva0 Hk3]].
  { simpl Z.eqb. cbv iota. win_step1. apply wp_create_out_release; [done..|].
    intros k4 Hk4. win_step1. exists k4, c. eexists. split; [done|]. split; [done|].
    split; [|left; split_and!; done].
    apply win_step_same; [by split; [|left]|].
    rewrite Hk4, Hk3, Hk2, Hk1. simpl. multiset_solver. }
  destruct (Z.eqb_spec va 0); [lia|]. win_step1. apply wp_wchip.
  set (d1 := d <| kernel_va := va |> <| pci_addrl := u32 start |>).
  assert (Hpci : pci_addrl d1 = start) by (apply u32_small; done).
  eapply wp_mono; [apply (wp_chip_create i d1); try done; by rewrite Hpci|].
  intros r c' [[-> ->]|(-> & Ham & Hch & Hen & Hsal)]; cbv beta iota.
  - change (truthy (- EINVAL)) with true. cbv iota. win_step1. win_step1. win_step1.
    apply wp_create_out_release; [done..|].
    intros k4 Hk4. win_step1. exists k4, c. eexists. split; [done|]. split; [done|].
    split; [|left; split_and!; done].
    apply win_step_same; [by split; [|left]|].
    rewrite Hk4, iounmap_live, Hk3, Hk2, Hk1. simpl. multiset_solver.
  - change (truthy 0) with false. cbv iota. do 4 win_step1. win_step1. exists k3, c'. eexists.
    split; [done|]. split; [done|]. rewrite Hpci in Hsal.
    split; [|right; split_and!; done].
    split.
    + split; [done|]. right. unfold win_active. simpl. rewrite (u32_small start) by done.
      split_and!; try done; unfold is_u32 in *; lia.
    + intros R HR. rewrite Hk3, Hk2, Hk1, HR. unfold win_res, hw_res, mappings_res. simpl.
      multiset_solver.
    + intros R HR _. right. intros x y Hxy. simpl. apply Hdisj. rewrite Hk1, HR.
      multiset_solver.
    + done.
    + intros _. by split.
    + intros _. change (win_ok (window_num d) = true). by rewrite Hn.
Qed.

(** [create_align] leaves the window number alone and aligns the rest. *)
Lemma create_align_facts d :
  is_u32 (vme_addrl d) → is_u32 (sizel d) →
  window_num (create_align d) = window_num d ∧
  is_u32 (vme_addrl (create_align d)) ∧ is_u32 (sizel (create_align d)) ∧
  vme_addrl (create_align d) mod 2 ^ 16 = 0 ∧ sizel (create_align d) mod 2 ^ 16 = 0.
Proof.
  intros Hv Hs. unfold create_align. change 0xffff with (Z.ones 16).
  set (d1 := if truthy (Z.land (vme_addrl d) (Z.ones 16)) then _ else d).
  assert (F : window_num d1 = window_num d ∧ is_u32 (vme_addrl d1) ∧ is_u32 (sizel d1) ∧
              vme_addrl d1 mod 2 ^ 16 = 0).
  { subst d1. rewrite truthy_low by lia.
    destruct (Z.eqb_spec (vme_addrl d mod 2 ^ 16) 0) as [E|E]; simpl negb; cbv iota; [done|].
    split; [done|]. split; [apply (clear_low_range 16 32); [lia|done]|].
    split; [apply u32_range|]. apply (clear_low_aligned 16). lia. }
  clearbody d1. destruct F as (F1 & F2 & F3 & F4). cbv zeta. rewrite truthy_low by lia.
  destruct (Z.eqb_spec (sizel d1 mod 2 ^ 16) 0) as [E|E]; simpl negb; cbv iota; [done|].
  split; [done|]. split; [done|]. split; [apply (clear_low_range 16 32); [lia|apply u32_range]|].
  split; [done|]. apply (clear_low_aligned 16). lia.
Qed.

Lemma bad_window_num_ok n : bad_window_num n = negb (win_ok n).
Proof. unfold bad_window_num, win_ok. destruct (Z.ltb_spec n 0), (Z.geb_spec n TSI148_NUM_OUT_WINDOWS),
  (Z.leb_spec 0 n), (Z.ltb_spec n TSI148_NUM_OUT_WINDOWS); simpl; lia || done. Qed.

Lemma win_ok_nat n : win_ok n = true → Z.of_nat (Z.to_nat n) = n ∧ (Z.to_nat n < num_windows)%nat.
Proof. unfold win_ok, num_windows. change TSI148_NUM_OUT_WINDOWS with 8. lia. Qed.

(** A request on one window: a refused request leaves it alone. *)
Definition win_op {A} (i : nat) k c v w t a b (m : M (wstate K C) A)
    (ok : A → window → Prop) (err : A → Prop) : Prop :=
  wp m (λ r s', ∃ k' c' w',
    s' = ST k' c' v (<[i:=w']> t) a b ∧ w_lock w' = false ∧ win_step i k c w k' c' w' ∧
    ((err r ∧ w' = w ∧ c' = c) ∨ ok r w')) (ST k c v (<[i:=w]> t) a b).

Lemma wp_vme_create_window i d k c v t w a b :
  window_num d = Z.of_nat i → (i < num_windows)%nat → (i < length t)%nat →
  w_lock w = false → win_wf i w → hw_agrees i w c →
  is_u32 (sizel d) → is_u32 (vme_addrl d) →
  win_op i k c v w t a b (vme_create_window d)
    (λ r w', r.1 = 0 ∧ active w = 0 ∧ sizel d ≠ 0 ∧ active w' = 1 ∧ w_desc w' = r.2 ∧
             mappings w' = [] ∧ same_request (create_align d) r.2)
    (λ r, r.1 < 0).
Proof.
  intros Hn Hi8 Hi Hl Hwf Hhw Hs Hv. unfold win_op, vme_create_window.
  assert (Hok : win_ok (window_num d) = true).
  { rewrite Hn. unfold win_ok, num_windows in *. change TSI148_NUM_OUT_WINDOWS with 8 in *. lia. }
  rewrite bad_window_num_ok, Hok. simpl negb. cbv iota.
  assert (Hsame : ∀ k', live k' = live k → win_step i k c w k' c w)
    by (intros; by apply win_step_same).
  destruct (Z.eqb_spec (sizel d) 0) as [Hz|Hz].
  { win_step1. exists k, c, w. split_and!; auto. by left. }
  destruct (create_align_facts d Hv Hs) as (An & Av & As & Ava & Asa).
  set (d1 := create_align d) in *. clearbody d1.
  rewrite Hn, Nat2Z.id in *. win_step1. apply wp_lock_win; [done..| |]; intros k1 Hk1; cbv beta iota.
  { win_step1. exists k1, c, w. split_and!; auto. by left. }
  win_step1. win_step1. win_step1.
  change (active (w <| w_lock := true |>)) with (active w).
  destruct Hwf as [Hu Hst]. destruct Hst as [Hidle|Hact].
  - pose proof Hidle as (Ha & _ & _). rewrite Ha. change (truthy 0) with false. cbv iota.
    eapply wp_mono; [apply wp_create_locked;
      first [done|apply win_wf_lock; split; [done|by left]|by apply hw_agrees_lock]|].
    intros r s' (k2 & c2 & w2 & -> & Hl2 & Hstep & Hr). simpl in Hl2.
    win_step1. apply wp_unlock_win; [done..|]. win_step1.
    exists k2, c2. eexists. split; [done|]. split; [done|].
    assert (Hstep' : win_step i k c w k2 c2 (w2 <| w_lock := false |>)).
    { apply win_step_trans with k1 c w; [by apply Hsame|].
      apply win_step_lock with (b := true) (b' := true). rewrite lock_lock.
      by rewrite (lock_id w2 true). }
    split; [exact Hstep'|].
    destruct Hr as [(? & -> & ->)|(? & ? & ? & ? & ?)].
    + left. split; [done|]. split; [|done]. rewrite lock_lock. by apply lock_id.
    + right. split_and!; try done.
  - destruct Hact as [Ha Hact]. rewrite Ha. change (truthy 1) with true. cbv iota.
    win_step1. win_step1. apply wp_unlock_win; [done..|]. win_step1.
    exists k1, c, w. rewrite lock_lock, (lock_id w false) by done. split_and!; auto. by left.
Qed.
End create.

Section destroy.
Context `{KernelLaws K} `{ChipLaws C}.
Implicit Types (k : K) (c : C) (w : window) (t : list window).

Lemma mappings_res_cons m l : mappings_res (m :: l) = {[+ Block (m_self m) +]} ⊎ mappings_res l.
Proof. done. Qed.
Lemma mappings_res_app l l' : mappings_res (l ++ l') = mappings_res l ⊎ mappings_res l'.
Proof. unfold mappings_res. by rewrite fmap_app, list_to_set_disj_app. Qed.

Lemma wp_remove_all_mappings i (Q : () → _ → Prop) k c v t w a b :
  (i < length t)%nat → users w = Z.of_nat (length (mappings w)) →
  (∀ k', (∀ R, live k = mappings_res (mappings w) ⊎ R → live k' = R) →
     Q () (ST k' c v (<[i:=w <| mappings := [] |> <| users := 0 |>]> t) a b)) →
  wp (remove_all_mappings i (mappings w)) Q (ST k c v (<[i:=w]> t) a b).
Proof.
  intros Hi Hu HQ. unfold remove_all_mappings. eapply wp_mono.
  - apply (wp_mfold _ (λ l _ s, ∃ k',
      s = ST k' c v (<[i:=w <| mappings := l |> <| users := Z.of_nat (length l) |>]> t) a b ∧
      ∀ R, live k = mappings_res (mappings w) ⊎ R → live k' = mappings_res l ⊎ R)).
    + intros m l [] s (k1 & -> & Hk1). repeat win_step1.
      exists (kfree (m_self m) k1). split.
      * apply ST_win. destruct w. cbn -[Z.of_nat Z.sub]. f_equal. simpl length. lia.
      * intros R HR. rewrite kfree_live, (Hk1 R HR), mappings_res_cons. multiset_solver.
    + exists k. split; [|auto]. apply ST_win. destruct w. simpl in *. by subst.
  - intros [] s (k1 & -> & Hk1). apply HQ. intros R HR. rewrite (Hk1 R HR).
    unfold mappings_res. simpl. multiset_solver.
Qed.

Lemma win_idle_users i w : win_wf i w → win_idle w → users w = 0.
Proof. intros [-> _] (_ & -> & _). done. Qed.

(** The state [vme_destroy_window] leaves behind. *)
Definition destroyed w : window :=
  w <| active := 0 |> <| rsrc := zero_resource |> <| mappings := [] |> <| users := 0 |>
    <| w_desc := (w_desc w) <| kernel_va := 0 |> <| window_enabled := 0 |> |>.

Lemma wp_destroy_locked i k c v t w a b :
  (i < length t)%nat → win_ok (Z.of_nat i) = true →
  win_wf i w →
  wp (destroy_locked i) (λ rc s', ∃ k' c' w',
    s' = ST k' c' v (<[i:=w']> t) a b ∧ w_lock w' = w_lock w ∧ win_step i k c w k' c' w' ∧
    ((rc = - EINVAL ∧ active w = 0 ∧ w' = w ∧ c' = c) ∨
     (rc = 0 ∧ active w = 1 ∧ w' = destroyed w)))
    (ST k c v (<[i:=w]> t) a b).
Proof.
  intros Hi Hok Hwf. unfold destroy_locked. win_step1. win_step1.
  pose proof Hwf as [Hu [Hidle|Hact]].
  { pose proof Hidle as (Ha & _). rewrite Ha. change (negb (truthy 0)) with true. cbv iota.
    win_step1. exists k, c, w. split_and!; try done; [by apply win_step_refl|by left]. }
  destruct Hact as (Ha & Hn & Hen & Hkva & _). rewrite Ha.
  change (negb (truthy 1)) with false. cbv iota. win_step1.
  assert (Hloop : ∀ Q, (∀ k', (∀ R, live k = mappings_res (mappings w) ⊎ R → live k' = R) →
      Q () (ST k' c v (<[i:=w <| mappings := [] |> <| users := 0 |>]> t) a b)) →
    wp (if users w >? 0 then remove_all_mappings i (mappings w) else mret ()) Q
       (ST k c v (<[i:=w]> t) a b)).
  { intros Q HQ. rewrite Z.gtb_ltb. destruct (Z.ltb_spec 0 (users w)).
    - by apply wp_remove_all_mappings.
    - win_step1. assert (Hm : mappings w = []) by (destruct (mappings w); simpl in *; [done|lia]).
      replace w with (w <| mappings := [] |> <| users := 0 |>) at 1.
      + apply HQ. intros R. rewrite Hm. unfold mappings_res. simpl. intros ->. multiset_solver.
      + rewrite Hm in Hu. destruct w. simpl in *. by subst. }
  apply Hloop. clear Hloop. intros k1 Hk1. do 10 win_step1. win_step1. apply wp_wchip.
  assert (Hwn : win_ok (window_num (w_desc w)) = true) by (by rewrite Hn).
  eapply wp_mono; [apply wp_remove_window; exact Hwn|].
  intros d' c' [-> Hl]. change (window_num (w_desc _)) with (window_num (w_desc w)) in Hl.
  rewrite Hn in Hl. do 4 win_step1. win_step1.
  assert (Hfin : ∀ k', (∀ R, live k = win_res w ⊎ R → live k' = R) →
    ∃ k'' c'' w', ST k' c' v (<[i:=destroyed w]> t) a b = ST k'' c'' v (<[i:=w']> t) a b ∧
      w_lock w' = w_lock w ∧ win_step i k c w k'' c'' w' ∧
      ((0 = - EINVAL ∧ 1 = 0 ∧ w' = w ∧ c'' = c) ∨ (0 = 0 ∧ 1 = 1 ∧ w' = destroyed w))).
  { intros k' Hlive. exists k', c', (destroyed w). split_and!; [done..| |by right].
    split.
    - split; [done|by left].
    - intros R HR. rewrite (Hlive R HR). unfold win_res, hw_res. simpl. multiset_solver.
    - done.
    - intros r Hr Hri. rewrite (Hl r Hr). by destruct r; simpl in Hri; rewrite ?Hri.
    - intros _. split; [|done]. rewrite (Hl (OTAT (Z.of_nat i)) Hok), Z.eqb_refl. done.
    - intros _. exact Hwn. }
  match goal with |- wp _ _ (ST _ _ _ (<[_:=?x]> _) _ _) =>
    replace x with ((destroyed w) <| rsrc := rsrc w |>) by (by destruct w) end.
  change (rsrc ((destroyed w) <| rsrc := rsrc w |>)) with (rsrc w).
  change (kernel_va (w_desc _)) with (kernel_va (w_desc w)).
  assert (Hend : ∀ k', (∀ R, live k = win_res w ⊎ R → live k' = R) → wp
    (upd_win i (λ w, w <| rsrc := zero_resource |>);; mret 0) (λ rc s', ∃ k' c' w',
    s' = ST k' c' v (<[i:=w']> t) a b ∧ w_lock w' = w_lock w ∧ win_step i k c w k' c' w' ∧
    ((rc = - EINVAL ∧ 1 = 0 ∧ w' = w ∧ c' = c) ∨ (rc = 0 ∧ 1 = 1 ∧ w' = destroyed w)))
    (ST k' c' v (<[i:=(destroyed w) <| rsrc := rsrc w |>]> t) a b)).
  { intros k' Hlive. do 3 win_step1. by apply Hfin. }
  assert (Hlive : ∀ R, live k = win_res w ⊎ R →
    live (release_resource (r_start (rsrc w)) (r_end (rsrc w))
            (iounmap (kernel_va (w_desc w)) k1)) = block_res (r_name (rsrc w)) ⊎ R).
  { intros R HR. rewrite release_resource_live, iounmap_live.
    rewrite (Hk1 ({[+ Region (r_start (rsrc w)) (r_end (rsrc w)) +]} ⊎
      {[+ IoMap (kernel_va (w_desc w)) +]} ⊎ block_res (r_name (rsrc w)) ⊎ R)).
    - multiset_solver.
    - rewrite HR. unfold win_res, hw_res. rewrite Ha. simpl. multiset_solver. }
  win_step1. win_step1. win_step1.
  - win_step1. apply Hend. intros R HR. rewrite kfree_live, (Hlive R HR).
    unfold block_res. match goal with E : truthy _ = true |- _ => rewrite E end.
    multiset_solver.
  - win_step1. apply Hend. intros R HR. rewrite (Hlive R HR).
    unfold block_res. match goal with E : truthy _ = false |- _ => rewrite E end.
    multiset_solver.
Qed.
End destroy.

Section mapping_ops.
Context `{KernelLaws K} `{ChipLaws C}.
Implicit Types (k : K) (c : C) (w : window) (t : list window).

(** The same step seen from outside the critical section. *)
Lemma win_step_unlock i k k1 c w k2 c2 w2 :
  live k1 = live k → win_wf i w →
  win_step i k1 c (w <| w_lock := true |>) k2 c2 w2 →
  win_step i k c w k2 c2 (w2 <| w_lock := false |>).
Proof.
  intros Hk Hwf Hs. apply win_step_trans with k1 c w; [by apply win_step_same|].
  apply win_step_lock with (b := true) (b' := w_lock w2). rewrite lock_lock.
  by rewrite (lock_id w2 (w_lock w2)).
Qed.

Lemma win_ok_of_nat i : (i < num_windows)%nat → win_ok (Z.of_nat i) = true.
Proof. unfold win_ok, num_windows. change TSI148_NUM_OUT_WINDOWS with 8. lia. Qed.

Lemma wp_vme_destroy_window i k c v t w a b :
  (i < num_windows)%nat → (i < length t)%nat →
  w_lock w = false → win_wf i w →
  win_op i k c v w t a b (vme_destroy_window (Z.of_nat i))
    (λ rc w', rc = 0 ∧ active w = 1 ∧ w' = destroyed w)
    (λ rc, rc = - ERESTARTSYS ∨ (rc = - EINVAL ∧ active w = 0)).
Proof.
  intros Hi8 Hi Hl Hwf. unfold win_op, vme_destroy_window.
  rewrite bad_window_num_ok, win_ok_of_nat by done. simpl negb. cbv iota.
  rewrite Nat2Z.id. win_step1. apply wp_lock_win; [done..| |]; intros k1 Hk1; cbv beta iota.
  { win_step1. exists k1, c, w. split_and!; auto. by apply win_step_same. }
  win_step1. eapply wp_mono.
  { apply wp_destroy_locked; [done|by apply win_ok_of_nat|by apply win_wf_lock]. }
  intros rc s' (k2 & c2 & w2 & -> & Hl2 & Hstep & Hr). win_step1.
  apply wp_unlock_win; [done..|]. win_step1. exists k2, c2. eexists.
  split; [done|]. split; [done|]. split; [by eapply win_step_unlock|].
  destruct Hr as [(-> & Ha & -> & ->)|(-> & Ha & ->)]; [left|right].
  - rewrite lock_lock, (lock_id w false) by done. auto.
  - split_and!; try done. by destruct w; simpl in *; subst.
Qed.

(** Changing only the list of mappings of an active window. *)
Lemma win_step_mappings i k c w k' l :
  win_wf i w → active w = 1 → hw_agrees i w c →
  (∀ R, live k = mappings_res (mappings w) ⊎ R → live k' = mappings_res l ⊎ R) →
  win_step i k c w k' c (w <| mappings := l |> <| users := Z.of_nat (length l) |>).
Proof.
  intros [Hu [(Ha & _)|Hact]] Ha' Hhw Hlive; [congruence|]. split.
  - split; [done|by right].
  - intros R HR. unfold win_res in *.
    rewrite (Hlive (hw_res w ⊎ block_res (r_name (rsrc w)) ⊎ R)).
    + change (hw_res (w <| mappings := l |> <| users := _ |>)) with (hw_res w).
      change (rsrc (w <| mappings := l |> <| users := _ |>)) with (rsrc w).
      change (mappings (w <| mappings := l |> <| users := _ |>)) with l.
      generalize (hw_res w), (block_res (r_name (rsrc w))), (mappings_res l). multiset_solver.
    + rewrite HR. generalize (hw_res w), (block_res (r_name (rsrc w))), (mappings_res (mappings w)).
      multiset_solver.
  - intros R HR _. left. by rewrite Ha'.
  - done.
  - done.
  - done.
Qed.

Lemma wp_add_mapping i desc f cur k c v t w a b :
  (i < length t)%nat → win_wf i w → active w = 1 → hw_agrees i w c →
  wp (add_mapping i desc f cur) (λ rc s', ∃ k' w',
    s' = ST k' c v (<[i:=w']> t) a b ∧ w_lock w' = w_lock w ∧ win_step i k c w k' c w' ∧
    ((rc = - ENOMEM ∧ w' = w) ∨
     (rc = 0 ∧ ∃ m, m_desc m = desc ∧ file (client m) = f ∧
        w' = w <| mappings := mappings w ++ [m] |>
               <| users := Z.of_nat (length (mappings w ++ [m])) |>)))
    (ST k c v (<[i:=w]> t) a b).
Proof.
  intros Hi Hwf Ha Hhw. unfold add_mapping. win_step1. win_step1.
  destruct (kmalloc_live 160 k) as [[Hp Hk]|(Hp & Hn & Hk)];
    destruct (kmalloc 160 k) as [p k1]; simpl fst in *; simpl snd in *.
  - subst. change (0 =? 0) with true. cbv iota. win_step1. exists k1, w. split_and!; try done; [|by left].
    by apply win_step_same.
  - destruct (Z.eqb_spec p 0); [lia|]. repeat win_step1. eexists k1, _.
    set (m := mk_vmapping p desc _).
    split; [apply ST_win with
      (w2 := w <| mappings := mappings w ++ [m] |>
               <| users := Z.of_nat (length (mappings w ++ [m])) |>)|].
    { destruct Hwf as [Hu _]. destruct w. simpl in *. subst.
      rewrite length_app. simpl length. f_equal. lia. }
    split; [done|]. split.
    + apply win_step_mappings; try done. intros R HR.
      rewrite Hk, HR, mappings_res_app, mappings_res_cons. unfold m. simpl.
      unfold mappings_res at 3. simpl. multiset_solver.
    + right. split; [done|]. exists m. split_and!; [done| |done].
      unfold m. simpl. unfold truthy. destruct (Z.eqb_spec f 0); simpl; done.
Qed.

Lemma wp_remove_mapping i desc f k c v t w a b :
  (i < length t)%nat → win_wf i w → active w = 1 → hw_agrees i w c →
  wp (remove_mapping i desc f) (λ rc s', ∃ k' w',
    s' = ST k' c v (<[i:=w']> t) a b ∧ w_lock w' = w_lock w ∧ win_step i k c w k' c w' ∧
    ((rc = - EINVAL ∧ w' = w ∧ k' = k ∧ ∀ m, m ∈ mappings w → mapping_matches desc f m = false) ∨
     (rc = 0 ∧ ∃ l1 m l2, mappings w = l1 ++ m :: l2 ∧ mapping_matches desc f m = true ∧
        Forall (λ m, mapping_matches desc f m = false) l1 ∧
        w' = w <| mappings := l1 ++ l2 |> <| users := Z.of_nat (length (l1 ++ l2)) |>)))
    (ST k c v (<[i:=w]> t) a b).
Proof.
  intros Hi Hwf Ha Hhw. unfold remove_mapping. win_step1. win_step1.
  destruct (find_idx _ (mappings w)) as [j|] eqn:Hf; simpl.
  - pose proof Hf as [(m & Hm & Hmm) Hb]%find_idx_lookup. rewrite Hm.
    assert (Hsplit : mappings w = take j (mappings w) ++ m :: drop (S j) (mappings w))
      by (symmetry; by apply take_drop_middle).
    set (l1 := take j (mappings w)) in *. set (l2 := drop (S j) (mappings w)) in *.
    assert (Hl1 : Forall (λ m, mapping_matches desc f m = false) l1).
    { apply List.Forall_forall. intros x Hx. apply list_elem_of_In in Hx.
      apply list_elem_of_lookup in Hx as [n Hx].
      apply lookup_take_Some in Hx as [Hx Hlt]. by eapply Hb. }
    assert (Hrem : remove_first (mapping_matches desc f) (mappings w) = Some (l1 ++ l2)).
    { apply remove_first_spec. by exists l1, m, l2. }
    repeat win_step1. eexists (kfree (m_self m) k), _.
    split; [apply ST_win with
      (w2 := w <| mappings := l1 ++ l2 |> <| users := Z.of_nat (length (l1 ++ l2)) |>)|].
    { rewrite Hrem. destruct Hwf as [Hu _]. rewrite Hsplit in Hu. clearbody l1 l2.
      destruct w. simpl in *. subst. rewrite !length_app. simpl length. f_equal. lia. }
    split; [done|]. split.
    + apply win_step_mappings; try done. intros R HR. rewrite kfree_live, HR, Hsplit.
      rewrite !mappings_res_app, mappings_res_cons. multiset_solver.
    + right. split; [done|]. by exists l1, m, l2.
  - win_step1. exists k, w. split_and!; try done; [by apply win_step_refl|left].
    split_and!; try done. by apply find_idx_None.
Qed.
End mapping_ops.

Section release.
Context `{KernelLaws K} `{ChipLaws C}.
Implicit Types (k : K) (c : C) (w : window) (t : list window).

(** The mappings of other files. *)
Definition others (f : Z) (l : list vmapping) : list vmapping :=
  List.filter (λ m, negb (file (client m) =? f)) l.

Lemma others_cons f m l :
  others f (m :: l) = if file (client m) =? f then others f l else m :: others f l.
Proof. unfold others. simpl. by destruct (file (client m) =? f). Qed.

(** A window without the mappings of file [f]. *)
Definition without_file (f : Z) w : window :=
  w <| mappings := others f (mappings w) |> <| users := Z.of_nat (length (others f (mappings w))) |>.

Lemma wp_release_mappings i f (Q : list vmapping → _ → Prop) k c v t w a b :
  (i < length t)%nat → users w = Z.of_nat (length (mappings w)) →
  (∀ k', (∀ R, live k = mappings_res (mappings w) ⊎ R →
               live k' = mappings_res (others f (mappings w)) ⊎ R) →
     Q (others f (mappings w)) (ST k' c v
       (<[i:=w <| users := Z.of_nat (length (others f (mappings w))) |>]> t) a b)) →
  wp (release_mappings i f (mappings w)) Q (ST k c v (<[i:=w]> t) a b).
Proof.
  intros Hi Hu HQ. unfold release_mappings. eapply wp_mono.
  - apply (wp_mfold _ (λ l kept s, ∃ k',
      s = ST k' c v (<[i:=w <| users := Z.of_nat (length (kept ++ l)) |>]> t) a b ∧
      kept ++ others f l = others f (mappings w) ∧
      ∀ R, live k = mappings_res (mappings w) ⊎ R → live k' = mappings_res (kept ++ l) ⊎ R)).
    + intros m l kept s (k1 & -> & Hkept & Hk1). rewrite others_cons in Hkept. win_step1.
      * match goal with E : (_ =? _) = true |- _ => rewrite E in Hkept end.
        repeat win_step1. exists (kfree (m_self m) k1). split.
        { apply ST_win. destruct w. simpl. f_equal. rewrite !length_app. simpl length. lia. }
        split; [done|]. intros R HR. rewrite kfree_live, (Hk1 R HR).
        rewrite !mappings_res_app, mappings_res_cons. multiset_solver.
      * match goal with E : (_ =? _) = false |- _ => rewrite E in Hkept end.
        repeat win_step1. exists k1. rewrite <- !app_assoc. by split.
    + exists k. simpl. split_and!; [|done|auto]. apply ST_win. destruct w. simpl in *. by subst.
  - intros kept s (k1 & -> & Hkept & Hk1). simpl in *. rewrite app_nil_r in *. subst kept.
    by apply HQ.
Qed.

Lemma without_file_idle f i w : win_wf i w → mappings w = [] → without_file f w = w.
Proof. intros [Hu _] Hm. unfold without_file. destruct w. simpl in *. by subst. Qed.

Lemma wp_release_window i f k c v t w a b :
  (i < num_windows)%nat → (i < length t)%nat →
  w_lock w = false → win_wf i w → hw_agrees i w c →
  wp (release_window i f) (λ rc s', ∃ k' w',
    s' = ST k' c v (<[i:=w']> t) a b ∧ w_lock w' = false ∧ win_step i k c w k' c w' ∧
    ((rc = - ERESTARTSYS ∧ w' = w) ∨ (rc = 0 ∧ w' = without_file f w)))
    (ST k c v (<[i:=w]> t) a b).
Proof.
  intros Hi8 Hi Hl Hwf Hhw. unfold release_window. win_step1.
  apply wp_lock_win; [done..| |]; intros k1 Hk1; cbv beta iota.
  { win_step1. exists k1, w. split_and!; auto. by apply win_step_same. }
  win_step1. win_step1. win_step1.
  change (active (w <| w_lock := true |>)) with (active w).
  change (mappings (w <| w_lock := true |>)) with (mappings w).
  destruct (negb (truthy (active w)) || bool_decide (mappings w = [])) eqn:E.
  - assert (Hm : mappings w = []).
    { destruct Hwf as [_ [(_ & Hm & _)|(Ha & _)]]; [done|]. rewrite Ha in E.
      simpl in E. by apply bool_decide_eq_true in E. }
    win_step1. win_step1. apply wp_unlock_win; [done..|]. win_step1.
    exists k1, w. rewrite lock_lock, (lock_id w false), (without_file_idle f i) by done.
    split_and!; auto. by apply win_step_same.
  - assert (Ha : active w = 1).
    { destruct Hwf as [_ [(Ha & _)|(Ha & _)]]; [|done]. by rewrite Ha in E. }
    win_step1. change (mappings w) with (mappings (w <| w_lock := true |>)).
    apply wp_release_mappings; [done|by destruct Hwf|]. intros k2 Hk2.
    do 2 win_step1. apply wp_unlock_win; [done..|]. win_step1.
    exists k2, (without_file f w). split.
    { apply ST_win. destruct w. simpl in *. by subst. }
    split; [done|]. split; [|by right].
    apply win_step_trans with k1 c w; [by apply win_step_same|].
    by apply win_step_mappings.
Qed.

(** * The search loop *)

Definition unlocked t : Prop := ∀ i w, t !! i = Some w → w_lock w = false.

Lemma wp_search_windows l m k c v t a b :
  Forall (λ i, (i < length t)%nat) l → unlocked t →
  wp (search_windows l m) (λ r s', ∃ k', live k' = live k ∧
    match r with
    | Interrupted => s' = ST k' c v t a b
    | NotFound => s' = ST k' c v t a b ∧
        ∀ i w, i ∈ l → t !! i = Some w → window_matches w m = false
    | Found i => ∃ w, i ∈ l ∧ t !! i = Some w ∧ window_matches w m = true ∧
        s' = ST k' c v (<[i:=w <| w_lock := true |>]> t) a b
    end) (ST k c v t a b).
Proof.
  intros Hl Ht. revert k. induction l as [|i l IH]; intros k; simpl.
  { win_step1. exists k. split; [done|]. split; [done|]. set_solver. }
  apply Forall_cons_1 in Hl as [Hi Hl].
  destruct (lookup_lt_is_Some_2 t i Hi) as [w Hw].
  rewrite <- (list_insert_id _ _ _ Hw) at 1.
  win_step1. apply wp_lock_win; [done|by eapply Ht|..]; intros k1 Hk1; cbv beta iota.
  { win_step1. exists k1. by rewrite list_insert_id. }
  win_step1. win_step1.
  change (window_matches (w <| w_lock := true |>) m) with (window_matches w m).
  destruct (window_matches w m) eqn:Em.
  - win_step1. exists k1. split; [done|]. exists w. split_and!; try done. set_solver.
  - win_step1. apply wp_unlock_win; [done..|].
    rewrite lock_lock, (lock_id w false) by (by eapply Ht). rewrite list_insert_id by done.
    eapply wp_mono; [by apply IH|]. intros r s' (k2 & Hk2 & Hr). exists k2.
    split; [congruence|]. destruct r as [| |j].
    + done.
    + destruct Hr as [-> Hno]. split; [done|]. intros j w' Hj Hw'.
      apply elem_of_cons in Hj as [->|Hj]; [by simplify_eq|by eapply Hno].
    + destruct Hr as (w' & Hj & Hr). exists w'. split; [set_solver|done].
Qed.
End release.

(** * The invariant of the window table *)

Section invariant.
Context `{KernelLaws K} `{ChipLaws C}.
Implicit Types (k : K) (c : C) (w : window) (t : list window).
Notation W := (wstate K C).

Lemma table_res_split t i w :
  t !! i = Some w → ∃ rest,
    table_res t = win_res w ⊎ rest ∧
    (∀ w', table_res (<[i:=w']> t) = win_res w' ⊎ rest) ∧
    (∀ j wj, j ≠ i → t !! j = Some wj → win_res wj ⊆ rest).
Proof.
  revert i. induction t as [|x t IH]; intros i Hi; [done|].
  destruct i as [|i]; simpl in *.
  - injection Hi as ->. exists (table_res t). split; [done|]. split; [done|].
    intros [|j] wj Hj Hwj; [done|]. simpl in Hwj. clear -Hwj.
    revert j Hwj. induction t as [|y t IH]; intros [|j] Hj; simpl in *; [done|done| |].
    + injection Hj as ->. multiset_solver.
    + specialize (IH _ Hj). multiset_solver.
  - destruct (IH i Hi) as (rest & Ht & Hins & Hsub). exists (win_res x ⊎ rest).
    split; [rewrite Ht; multiset_solver|]. split.
    + intros w'. rewrite Hins. multiset_solver.
    + intros [|j] wj Hj Hwj; simpl in *.
      * injection Hwj as ->. multiset_solver.
      * etrans; [apply (Hsub j); [lia|done]|multiset_solver].
Qed.

(** [base] is what the rest of the system holds. *)
Record inv (base : gmultiset resource) (s : W) : Prop := {
  inv_len : length (window_table s) = num_windows;
  inv_unlocked : unlocked (window_table s);
  inv_wf : ∀ i w, window_table s !! i = Some w → win_wf i w;
  inv_num : ∀ i w, window_table s !! i = Some w → win_ok (window_num (w_desc w)) = true;
  inv_hw : ∀ i w, window_table s !! i = Some w → hw_agrees i w (chip (br s));
  inv_live : live (kern (br s)) = table_res (window_table s) ⊎ base;
  inv_disj : ∀ i j wi wj, i ≠ j →
    window_table s !! i = Some wi → window_table s !! j = Some wj →
    truthy (active wi) = true → truthy (active wj) = true →
    ranges_disjoint (r_start (rsrc wi)) (r_end (rsrc wi)) (r_start (rsrc wj)) (r_end (rsrc wj));
  inv_spin : verr_locked (verr (br s)) = false
}.

Lemma region_in_win_res w :
  truthy (active w) = true → Region (r_start (rsrc w)) (r_end (rsrc w)) ∈ win_res w.
Proof. intros Ha. unfold win_res, hw_res. rewrite Ha. multiset_solver. Qed.

Lemma disjoint_sym x y z u : ranges_disjoint x y z u → ranges_disjoint z u x y.
Proof. unfold ranges_disjoint. lia. Qed.

Lemma inv_step base k c v t a b i w k' c' w' :
  inv base (ST k c v t a b) → t !! i = Some w → w_lock w' = false →
  win_step i k c w k' c' w' → inv base (ST k' c' v (<[i:=w']> t) a b).
Proof.
  intros [I1 I2 I3 I4 I5 I6 I7 I8] Hi Hl [S1 S2 S3 S4 S5 S6]. simpl in *.
  specialize (S5 (I5 i w Hi)).
  destruct (table_res_split t i w Hi) as (rest & Ht & Hins & Hsub).
  assert (Hlive : live k = win_res w ⊎ (rest ⊎ base)) by (rewrite I6, Ht; multiset_solver).
  assert (Hlook : ∀ j x, <[i:=w']> t !! j = Some x → (j = i ∧ x = w') ∨ (j ≠ i ∧ t !! j = Some x)).
  { intros j x Hx. destruct (decide (j = i)) as [->|Hne].
    - left. rewrite list_lookup_insert_eq in Hx by (by eapply lookup_lt_Some). by simplify_eq.
    - right. by rewrite list_lookup_insert_ne in Hx. }
  assert (Hfree : ∀ j wj, j ≠ i → t !! j = Some wj → truthy (active w') = true →
    truthy (active wj) = true →
    ranges_disjoint (r_start (rsrc w')) (r_end (rsrc w')) (r_start (rsrc wj)) (r_end (rsrc wj))).
  { intros j wj Hj Hwj Ha' Haj. destruct (S3 _ Hlive Ha') as [[Ha Hr]|Hf].
    - rewrite Hr. by apply (I7 i j w wj).
    - apply Hf. pose proof (Hsub j wj Hj Hwj). pose proof (region_in_win_res wj Haj).
      multiset_solver. }
  split; simpl.
  - by rewrite length_insert.
  - intros j x [[-> ->]|[Hne Hx]]%Hlook; [done|by eapply I2].
  - intros j x [[-> ->]|[Hne Hx]]%Hlook; [done|by eapply I3].
  - intros j x [[-> ->]|[Hne Hx]]%Hlook; [by eapply S6, I4|by eapply I4].
  - intros j x [[-> ->]|[Hne Hx]]%Hlook; [done|].
    assert (Hj : win_ok (Z.of_nat j) = true).
    { apply win_ok_of_nat. rewrite <- I1. by eapply lookup_lt_Some. }
    destruct (I5 j x Hx) as [E1 E2]. unfold hw_agrees.
    rewrite !S4; try done; simpl; apply Z.eqb_neq; lia.
  - rewrite (S2 _ Hlive), Hins. multiset_solver.
  - intros j j' x x' Hne [[-> ->]|[Hj Hx]]%Hlook [[-> ->]|[Hj' Hx']]%Hlook Ha Ha'; try done.
    + by apply (Hfree j' x').
    + apply disjoint_sym. by apply (Hfree j x).
    + by apply (I7 j j' x x').
  - done.
Qed.

(** Nothing but the kernel's bookkeeping changed. *)
Lemma inv_kern base k c v t a b k' :
  inv base (ST k c v t a b) → live k' = live k → inv base (ST k' c v t a b).
Proof. intros [I1 I2 I3 I4 I5 I6 I7 I8] Hk. split; auto. simpl in *. by rewrite Hk. Qed.

Lemma inv_chip base k c v t a b c' :
  inv base (ST k c v t a b) → (∀ r, is_latch r = true → latch r c' = latch r c) →
  inv base (ST k c' v t a b).
Proof.
  intros [I1 I2 I3 I4 I5 I6 I7 I8] Hc. split; auto. simpl in *.
  intros i w Hw. destruct (I5 i w Hw) as [E1 E2].
  assert (Hi : win_ok (Z.of_nat i) = true).
  { apply win_ok_of_nat. rewrite <- I1. by eapply lookup_lt_Some. }
  unfold hw_agrees. by rewrite !Hc.
Qed.

Lemma inv_flags base k c v t a b a' b' : inv base (ST k c v t a b) → inv base (ST k c v t a' b').
Proof. intros [I1 I2 I3 I4 I5 I6 I7 I8]. by split. Qed.

Lemma inv_lookup base k c v t a b i :
  inv base (ST k c v t a b) → (i < num_windows)%nat →
  ∃ w, t !! i = Some w ∧ (i < length t)%nat ∧ w_lock w = false ∧ win_wf i w ∧ hw_agrees i w c.
Proof.
  intros [I1 I2 I3 I4 I5 I6 I7 I8] Hi. simpl in *. rewrite <- I1 in Hi.
  destruct (lookup_lt_is_Some_2 t i Hi) as [w Hw]. exists w. split_and!; eauto.
Qed.

(** From a step on one window to a property of the whole state. *)
Lemma wp_on_window {A} base i (m : M W A) (Q : A → W → Prop) k c v t a b :
  inv base (ST k c v t a b) → (i < num_windows)%nat →
  (∀ w, t !! i = Some w → (i < length t)%nat → w_lock w = false → win_wf i w → hw_agrees i w c →
     wp m (λ r s', ∃ k' c' w', s' = ST k' c' v (<[i:=w']> t) a b ∧ w_lock w' = false ∧
       win_step i k c w k' c' w' ∧
       (inv base (ST k' c' v (<[i:=w']> t) a b) → Q r (ST k' c' v (<[i:=w']> t) a b)))
       (ST k c v (<[i:=w]> t) a b)) →
  wp m Q (ST k c v t a b).
Proof.
  intros HI Hi Hm. destruct (inv_lookup _ _ _ _ _ _ _ i HI Hi) as (w & Hw & Hlt & Hl & Hwf & Hhw).
  rewrite <- (list_insert_id _ _ _ Hw). eapply wp_mono; [by apply Hm|].
  intros r s' (k' & c' & w' & -> & Hl' & Hs & HQ). apply HQ. by eapply inv_step.
Qed.
End invariant.

(** Name the parts of a window manager state. *)
Ltac open_state s :=
  let k := fresh "k" in let c := fresh "c" in let v := fresh "v" in
  let t := fresh "t" in let a := fresh "a" in let b := fresh "b" in
  destruct s as [[k c v] t a b];
  change (mk_wstate (mk_bridge k c v) t a b) with (ST k c v t a b) in *.
