(* ===== verification/VmeWindowSpec.v ===== *)
(** What the window manager promises, as theorems about every reachable state:
    the invariant of the window table survives every request, requests return,
    refused requests leave no trace, and mappings point where they should. *)
From S2P Require Import Prelude VmeBus Tsi148Regs Tsi148Attr Tsi148Window KernelIf VmeMisc.
From S2P Require Import VmeWindow VmeWindowProofs.

Local Open Scope Z_scope.

Section ops.
Context `{KernelLaws K} `{ChipLaws C}.
Implicit Types (k : K) (c : C) (w : window) (t : list window).
Notation W := (wstate K C).

Lemma bad_num_cases n :
  (bad_window_num n = true) ∨
  (bad_window_num n = false ∧ Z.of_nat (Z.to_nat n) = n ∧ (Z.to_nat n < num_windows)%nat).
Proof.
  rewrite bad_window_num_ok. destruct (win_ok n) eqn:E; simpl; [right|by left].
  split; [done|]. by apply win_ok_nat.
Qed.

Lemma inv_create base d (s : W) :
  inv base s → is_u32 (sizel d) → is_u32 (vme_addrl d) →
  wp (vme_create_window d) (λ r s', inv base s' ∧
    ((r.1 < 0 ∧ window_table s' = window_table s ∧ live (kern (br s')) = live (kern (br s)) ∧
      chip (br s') = chip (br s)) ∨
     (r.1 = 0 ∧ ∃ w w', window_table s !! Z.to_nat (window_num d) = Some w ∧ active w = 0 ∧
        window_table s' = <[Z.to_nat (window_num d) := w']> (window_table s) ∧
        active w' = 1 ∧ w_desc w' = r.2 ∧ mappings w' = [] ∧
        bad_window_num (window_num d) = false ∧ same_request (create_align d) r.2))) s.
Proof.
  intros HI Hs Hv. open_state s. destruct (bad_num_cases (window_num d)) as [Hbad|(Hok & Hn & Hi)].
  { unfold vme_create_window. rewrite Hbad. wp_step. split; [done|left]. by split_and!. }
  eapply (wp_on_window base (Z.to_nat (window_num d))); [done..|].
  intros w Hw Hlt Hl Hwf Hhw. eapply wp_mono.
  { by apply (wp_vme_create_window (Z.to_nat (window_num d)) d). }
  intros r s' (k' & c' & w' & -> & Hl' & Hstep & Hr). exists k', c', w'. split_and!; try done.
  intros HI'. split; [done|]. destruct Hr as [(Hrc & -> & ->)|(Hrc & Ha & _ & Hr)].
  - left. split; [done|]. simpl. rewrite list_insert_id by done. split_and!; try done.
    pose proof (inv_live _ _ HI) as L1. pose proof (inv_live _ _ HI') as L2. simpl in L1, L2.
    rewrite list_insert_id in L2 by done. congruence.
  - right. split; [done|]. exists w, w'. destruct Hr as (? & ? & ? & ?). split_and!; done.
Qed.

Lemma inv_destroy base n (s : W) :
  inv base s →
  wp (vme_destroy_window n) (λ rc s', inv base s' ∧
    (((rc = - ERESTARTSYS ∨ (rc = - EINVAL ∧ ∀ w, window_table s !! Z.to_nat n = Some w →
         bad_window_num n = false → active w = 0)) ∧
      window_table s' = window_table s ∧ chip (br s') = chip (br s)) ∨
     (rc = 0 ∧ ∃ w, window_table s !! Z.to_nat n = Some w ∧ active w = 1 ∧
        bad_window_num n = false ∧
        window_table s' = <[Z.to_nat n := destroyed w]> (window_table s)))) s.
Proof.
  intros HI. open_state s. destruct (bad_num_cases n) as [Hbad|(Hok & Hn & Hi)].
  { unfold vme_destroy_window. rewrite Hbad. wp_step. split; [done|left]. split_and!; try done.
    right. split; [done|]. congruence. }
  eapply (wp_on_window base (Z.to_nat n)); [done..|].
  intros w Hw Hlt Hl Hwf Hhw. rewrite <- Hn at 1. eapply wp_mono.
  { by apply (wp_vme_destroy_window (Z.to_nat n)). }
  intros rc s' (k' & c' & w' & -> & Hl' & Hstep & Hr). exists k', c', w'. split_and!; try done.
  intros HI'. split; [done|]. destruct Hr as [(Hrc & -> & ->)|(Hrc & Ha & ->)].
  - left. simpl. rewrite list_insert_id by done. split_and!; try done.
    destruct Hrc as [->|[-> Ha]]; [by left|right]. split; [done|]. simpl. congruence.
  - right. split; [done|]. exists w. split_and!; done.
Qed.

Lemma inv_get_attr base d (s : W) :
  inv base s →
  wp (vme_get_window_attr d) (λ r s', inv base s' ∧ window_table s' = window_table s ∧
    (r.1 = 0 ∨ r.1 = - EINVAL ∨ r.1 = - ERESTARTSYS)) s.
Proof.
  intros HI. open_state s. unfold vme_get_window_attr.
  destruct (bad_num_cases (window_num d)) as [Hbad|(Hok & Hn & Hi)].
  { rewrite Hbad. wp_step. split_and!; auto. }
  rewrite Hok. set (i := Z.to_nat (window_num d)) in *.
  destruct (inv_lookup _ _ _ _ _ _ _ i HI Hi) as (w & Hw & Hlt & Hl & Hwf & Hhw).
  rewrite <- (list_insert_id _ _ _ Hw). win_step1.
  apply wp_lock_win; [done..| |]; intros k1 Hk1; cbv beta iota.
  { win_step1. rewrite list_insert_id by done. split_and!; auto. by eapply inv_kern. }
  win_step1. win_step1. win_step1. apply wp_wchip.
  change (w_desc (w <| w_lock := true |>)) with (w_desc w).
  eapply wp_mono; [apply wp_get_window_attr; exact (inv_num _ _ HI i w Hw)|].
  intros d' c' [_ Hc]. win_step1. apply wp_unlock_win; [done..|].
  rewrite lock_lock, (lock_id w false), !list_insert_id by done. win_step1.
  split_and!; auto. eapply inv_chip; [by eapply inv_kern|]. exact Hc.
Qed.

(** A mapping of file [f] for request [m] has been placed: [m'] is its
    descriptor and window [i] holds it as its last mapping. *)
Definition placed (m m' : vme_mapping) (f : Z) (i : nat) t : Prop :=
  ∃ w l mm, t !! i = Some w ∧ active w = 1 ∧ mappings w = l ++ [mm] ∧ m_desc mm = m' ∧
    file (client mm) = f ∧ am (w_desc w) = am m ∧ data_width (w_desc w) = data_width m ∧
    window_num m' = Z.of_nat i ∧ vme_addrl m' = vme_addrl m ∧ sizel m' = sizel m ∧
    kernel_va m' = kernel_va (w_desc w) + u32 (vme_addrl m - vme_addrl (w_desc w)) ∧
    pci_addrl m' = u32 (pci_addrl (w_desc w) + u32 (vme_addrl m - vme_addrl (w_desc w))).

Lemma window_matches_facts w m :
  window_matches w m = true →
  truthy (active w) = true ∧ am (w_desc w) = am m ∧ data_width (w_desc w) = data_width m ∧
  vme_addrl (w_desc w) <= vme_addrl m ∧
  u32 (vme_addrl m + sizel m) <= u32 (vme_addrl (w_desc w) + sizel (w_desc w)).
Proof.
  unfold window_matches. rewrite !andb_true_iff, !negb_true_iff, !orb_false_iff, !negb_false_iff.
  rewrite !Z.eqb_eq, Z.ltb_ge. intros (((((? & _) & _) & (? & ?)) & (Hg & ?)) & _).
  split_and!; try done. lia.
Qed.

(** A window that holds request [m] at its offset, with no wrap-around. *)
Definition covers (d m : vme_mapping) : Prop :=
  vme_addrl d <= vme_addrl m ∧
  u32 (vme_addrl m + sizel m) <= u32 (vme_addrl d + sizel d).

(** Outcomes of a find request: refused; served by an active window that
    covers the request; served by a window created for it; or a window was
    created and left without a mapping. *)
Definition find_outcome (m : vme_mapping) (force f : Z) (r : Z * vme_mapping) t t' : Prop :=
  (r.1 < 0 ∧ t' = t) ∨
  (r.1 = 0 ∧ vme_mapping_sanity_check m = 0 ∧ ∃ i w, t !! i = Some w ∧
     (∀ j, j ≠ i → t' !! j = t !! j) ∧ placed m r.2 f i t' ∧
     ((active w = 1 ∧ covers (w_desc w) m) ∨
      (active w = 0 ∧ force ≠ 0 ∧ ∀ j x, t !! j = Some x → window_matches x m = false))) ∨
  (r.1 = - ENOMEM ∧ force ≠ 0 ∧ ∃ i w w', t !! i = Some w ∧ active w = 0 ∧ active w' = 1 ∧
     mappings w' = [] ∧ t' = <[i:=w']> t).

Lemma add_step_placed base i w m m' f cur k c v t a b :
  inv base (ST k c v (<[i:=w]> t) a b) → (i < length t)%nat → active w = 1 →
  am (w_desc w) = am m → data_width (w_desc w) = data_width m →
  m' = place_mapping (Z.of_nat i) w m →
  wp (add_mapping i m' f cur) (λ rc s', inv base s' ∧
    ((rc = 0 ∧ placed m m' f i (window_table s') ∧
      ∀ j, j ≠ i → window_table s' !! j = t !! j) ∨
     (rc = - ENOMEM ∧ window_table s' = <[i:=w]> t)))
    (ST k c v (<[i:=w]> t) a b).
Proof.
  intros HI Hi Ha Ham Hdw Hm'.
  assert (Hw : <[i:=w]> t !! i = Some w) by (by apply list_lookup_insert_eq).
  eapply wp_mono; [apply wp_add_mapping; try done;
    [exact (inv_wf _ _ HI i w Hw)|exact (inv_hw _ _ HI i w Hw)]|].
  intros rc s' (k' & w' & -> & Hl & Hs & Hr).
  pose proof (inv_unlocked _ _ HI i w Hw) as Hlw.
  pose proof (inv_step base k c v (<[i:=w]> t) a b i w k' c w' HI Hw ltac:(congruence) Hs) as HI'.
  rewrite list_insert_insert_eq in HI'. split; [done|].
  destruct Hr as [[-> ->]|(-> & mm & Hd & Hf & ->)]; [by right|left]. split; [done|].
  split; [|intros j Hj; simpl; by rewrite list_lookup_insert_ne].
  eexists _, (mappings w), mm. simpl. rewrite list_lookup_insert_eq by done.
  split; [done|]. subst m'. split_and!; try done.
Qed.

(** The window created for a request is placed for it. *)
Lemma inv_find_create base m f cur (i : nat) (s : W) :
  inv base s → is_u32 (sizel m) → is_u32 (vme_addrl m) → (i < num_windows)%nat →
  let wnd := vme_optimize_window_size (m <| window_num := Z.of_nat i |>) in
  wp ('(rc, wnd) ← vme_create_window wnd;
      if truthy rc then mret (rc, m) else
      w ← win (Z.to_nat (window_num wnd));
      let m := place_mapping (window_num wnd) w m in
      rc ← add_mapping (Z.to_nat (window_num wnd)) m f cur;
      mret (rc, m)) (λ r s', inv base s' ∧
    ((r.1 < 0 ∧ window_table s' = window_table s) ∨
     ∃ w, window_table s !! i = Some w ∧ active w = 0 ∧
       ((r.1 = 0 ∧ placed m r.2 f i (window_table s') ∧
         ∀ j, j ≠ i → window_table s' !! j = window_table s !! j) ∨
        (r.1 = - ENOMEM ∧ ∃ w', active w' = 1 ∧ mappings w' = [] ∧
          window_table s' = <[i:=w']> (window_table s))))) s.
Proof.
  intros HI Hs Hv Hi wnd.
  assert (Hwnd : window_num wnd = Z.of_nat i ∧ am wnd = am m ∧ data_width wnd = data_width m ∧
    is_u32 (sizel wnd) ∧ is_u32 (vme_addrl wnd)).
  { unfold wnd, vme_optimize_window_size.
    change (am (m <| window_num := Z.of_nat i |>)) with (am m).
    repeat case_match; split_and!; done. }
  clearbody wnd. destruct Hwnd as (Wn & Wam & Wdw & Ws & Wv). wp_step.
  eapply wp_mono; [by apply (inv_create base wnd)|].
  intros [rc wnd'] s1 [HI2 Hr]. simpl fst in Hr. simpl snd in Hr.
  destruct Hr as [(Hneg & Ht & _)|(-> & w & w' & Hw & Haw & Ht & Ha & Hd & Hmm & _ & Hreq)].
  { rewrite truthy_neg by done. wp_step. split; [done|]. left. done. }
  rewrite Wn, Nat2Z.id in *. change (truthy 0) with false. cbv beta iota.
  assert (Hreq' : window_num wnd' = Z.of_nat i ∧ am wnd' = am m ∧ data_width wnd' = data_width m).
  { destruct Hreq as (R1 & R2 & R3 & _). rewrite R1, R2, R3. unfold create_align.
    repeat case_match; done. }
  destruct Hreq' as (R1 & R2 & R3). rewrite R1, Nat2Z.id.
  pose proof (inv_len _ _ HI) as L. open_state s. open_state s1. simpl in *. subst. wp_step.
  apply wp_win; [lia|]. wp_step.
  eapply wp_mono; [apply add_step_placed with (m := m); try done; by rewrite L|].
  intros rc2 s3 [HI3 Hr3]. wp_step. split; [done|]. right. exists w.
  split; [done|]. split; [done|]. destruct Hr3 as [(-> & Hp & Ho)|[-> Ht]]; [left|right].
  - by split_and!.
  - split; [done|]. by exists w'.
Qed.

Lemma inv_find base m force f cur (s : W) :
  inv base s → is_u32 (sizel m) → is_u32 (vme_addrl m) →
  wp (vme_find_mapping_file m force f cur) (λ r s', inv base s' ∧
    find_outcome m force f r (window_table s) (window_table s')) s.
Proof.
  intros HI Hs Hv. unfold vme_find_mapping_file.
  destruct (truthy (vme_mapping_sanity_check m)) eqn:Esc.
  { wp_step. split; [done|]. left. simpl. split; [|done]. revert Esc. unfold vme_mapping_sanity_check.
    by case_match. }
  assert (Hsc : vme_mapping_sanity_check m = 0).
  { unfold truthy in *. by destruct (Z.eqb_spec (vme_mapping_sanity_check m) 0). }
  open_state s. wp_step. eapply wp_mono; [apply wp_search_windows|].
  { apply List.Forall_forall. intros i Hi. apply in_seq in Hi.
    pose proof (inv_len _ _ HI) as L. simpl in L. lia. }
  { exact (inv_unlocked _ _ HI). }
  intros r s' (k1 & Hk1 & Hr). destruct r as [| |i].
  - subst s'. wp_step. split; [by eapply inv_kern|]. left. done.
  - destruct Hr as [-> Hno]. pose proof (inv_kern _ _ _ _ _ _ _ k1 HI Hk1) as HI1.
    destruct (truthy force) eqn:Ef; cbn [negb]; cbv iota;
      [|wp_step; split; [done|by left]]. wp_step. wp_step. simpl window_table.
    destruct (find_idx _ t) as [i|] eqn:Hf; [|wp_step; split; [done|by left]].
    pose proof (find_idx_lt _ _ _ Hf) as Hlt.
    pose proof (inv_len _ _ HI) as L. simpl in L.
    assert (Hforce : force ≠ 0) by (unfold truthy in Ef; by destruct (Z.eqb_spec force 0)).
    eapply wp_mono; [apply (inv_find_create base m f cur i); [done..|lia]|].
    intros r s' [HI' Hr]. split; [done|]. simpl window_table in Hr.
    destruct Hr as [[? ?]|(w & Hw & Ha & [(Hr & Hp & Ho)|(Hr & w' & ? & ? & ?)])].
    + by left.
    + right; left. split; [done|]. split; [done|]. exists i, w. split_and!; try done.
      right. split_and!; try done. intros j x Hx. apply (Hno j x); [|done].
      apply elem_of_seq. apply lookup_lt_Some in Hx. lia.
    + right; right. split; [done|]. split; [done|]. exists i, w, w'. by split_and!.
  - destruct Hr as (w & Hi & Hw & Hmatch & ->).
    apply window_matches_facts in Hmatch as (Ha & Ham & Hdw & Hcov).
    pose proof (lookup_lt_Some _ _ _ Hw) as Hlt.
    pose proof (inv_wf _ _ HI i w Hw) as Hwf. pose proof (inv_hw _ _ HI i w Hw) as Hhw.
    pose proof (inv_unlocked _ _ HI i w Hw) as Hlw. simpl in Hhw.
    assert (Ha1 : active w = 1).
    { destruct Hwf as [_ [(Ha0 & _)|(Ha0 & _)]]; [by rewrite Ha0 in Ha|done]. }
    win_step1. win_step1. win_step1.
    change (place_mapping (Z.of_nat i) (w <| w_lock := true |>) m)
      with (place_mapping (Z.of_nat i) w m).
    eapply wp_mono; [by apply wp_add_mapping|].
    intros rc s' (k2 & w2 & -> & Hl2 & Hs2 & Hr). win_step1. apply wp_unlock_win; [done..|].
    win_step1. apply (win_step_unlock i k k1) in Hs2; [|done..].
    split; [by eapply inv_step|].
    destruct Hr as [[-> ->]|(-> & mm & Hd & Hf & ->)].
    { left. split; [done|]. by rewrite lock_lock, (lock_id w false), list_insert_id. }
    right; left. split; [done|]. split; [done|]. exists i, w. split; [done|].
    split; [intros j Hj; simpl; by rewrite list_lookup_insert_ne|].
    split; [|by left].
    eexists _, (mappings w), mm. simpl. rewrite list_lookup_insert_eq by done.
    split; [done|]. split_and!; done.
Qed.

(** [m] has the address, the size and the virtual address of [d], and belongs
    to file [f] unless [f] is NULL. *)
Definition is_mapping (d : vme_mapping) (f : Z) (m : vmapping) : Prop :=
  vme_addru (m_desc m) = vme_addru d ∧ vme_addrl (m_desc m) = vme_addrl d ∧
  sizeu (m_desc m) = sizeu d ∧ sizel (m_desc m) = sizel d ∧
  kernel_va (m_desc m) = kernel_va d ∧ (f = 0 ∨ file (client m) = f).

Lemma mapping_matches_spec d f m : mapping_matches d f m = true ↔ is_mapping d f m.
Proof.
  unfold mapping_matches, is_mapping. rewrite !andb_true_iff, orb_true_iff, !Z.eqb_eq.
  unfold truthy. rewrite negb_involutive, Z.eqb_eq. tauto.
Qed.

Lemma mapping_matches_not d f m : mapping_matches d f m = false → ¬ is_mapping d f m.
Proof. rewrite <- mapping_matches_spec. by intros ->. Qed.

(** [w'] is [w] without the first mapping that matches [d] and [f]. *)
Definition released (d : vme_mapping) (f : Z) w w' : Prop :=
  ∃ l1 m l2, mappings w = l1 ++ m :: l2 ∧ is_mapping d f m ∧
    Forall (λ m, ¬ is_mapping d f m) l1 ∧
    w' = w <| mappings := l1 ++ l2 |> <| users := Z.of_nat (length (l1 ++ l2)) |>.

(** Outcomes of a release request on table [t]. *)
Definition release_outcome (d : vme_mapping) (force f rc : Z) t t' : Prop :=
  ((rc = - EINVAL ∨ rc = - ERESTARTSYS) ∧ t' = t) ∨
  (∃ w w', t !! Z.to_nat (window_num d) = Some w ∧ active w = 1 ∧ released d f w w' ∧
     (((rc = 0 ∧ (mappings w' = [] → force = 0)) ∨
       (rc = - ERESTARTSYS ∧ mappings w' = [] ∧ force ≠ 0)) ∧
      t' = <[Z.to_nat (window_num d) := w']> t ∨
      rc = 0 ∧ mappings w' = [] ∧ force ≠ 0 ∧
      t' = <[Z.to_nat (window_num d) := destroyed w']> t)).

Lemma truthy_true x : truthy x = true ↔ x ≠ 0.
Proof. unfold truthy. destruct (Z.eqb_spec x 0); naive_solver. Qed.

Lemma truthy_false x : truthy x = false ↔ x = 0.
Proof. unfold truthy. destruct (Z.eqb_spec x 0); naive_solver. Qed.

Lemma inv_release base d force f (s : W) :
  inv base s →
  wp (vme_release_mapping_file d force f) (λ rc s', inv base s' ∧
    release_outcome d force f rc (window_table s) (window_table s')) s.
Proof.
  intros HI. open_state s. unfold vme_release_mapping_file.
  destruct (bad_num_cases (window_num d)) as [Hbad|(Hok & Hn & Hi)].
  { rewrite Hbad. wp_step. split; [done|]. left. auto. }
  rewrite Hok. unfold release_outcome. set (i := Z.to_nat (window_num d)) in *.
  rewrite <- Hn. clearbody i. clear Hn Hok.
  destruct (inv_lookup _ _ _ _ _ _ _ i HI Hi) as (w & Hw & Hlt & Hl & Hwf & Hhw).
  rewrite <- (list_insert_id _ _ _ Hw) at 1. win_step1.
  apply wp_lock_win; [done..| |]; intros k1 Hk1; cbv beta iota.
  { win_step1. rewrite list_insert_id by done. split; [by eapply inv_kern|]. left. auto. }
  win_step1. win_step1. change (active (w <| w_lock := true |>)) with (active w).
  win_step1.
  { win_step1. apply wp_unlock_win; [done..|]. win_step1.
    rewrite lock_lock, (lock_id w false), list_insert_id by done.
    split; [by eapply inv_kern|]. left. auto. }
  assert (Ha : active w = 1).
  { destruct Hwf as [_ [(Ha0 & _)|(Ha0 & _)]]; [|done].
    match goal with E : negb _ = false |- _ => by rewrite Ha0 in E end. }
  win_step1. eapply wp_mono; [by apply wp_remove_mapping|].
  intros rc s' (k2 & w2 & -> & Hl2 & Hs2 & Hr). cbv beta iota.
  apply (win_step_unlock i k k1) in Hs2; [|done..].
  assert (HI2 : inv base (ST k2 c v (<[i:=w2 <| w_lock := false |>]> t) a b))
    by (by apply (inv_step base k c v t a b i w)).
  assert (Hlt2 : w_lock w2 = true) by done.
  destruct Hr as [(-> & -> & _ & Hno)|(-> & l1 & m & l2 & Hm & Hmm & Hl1 & Hw2)].
  - change (truthy (- EINVAL)) with true. cbv iota. win_step1.
    apply wp_unlock_win; [done..|]. win_step1. split; [done|]. left.
    rewrite lock_lock, (lock_id w false), list_insert_id by done. auto.
  - change (truthy 0) with false. cbv iota. win_step1. win_step1.
    assert (Hrel : released d f w (w2 <| w_lock := false |>)).
    { exists l1, m, l2. split; [done|]. split; [by apply mapping_matches_spec|].
      split; [eapply List.Forall_impl; [|exact Hl1]; apply mapping_matches_not|]. subst w2. clear -Hl. destruct w. simpl in *. by subst. }
    assert (Hu2 : users w2 = Z.of_nat (length (mappings w2))) by (by subst w2).
    assert (Ha2 : active w2 = 1) by (by subst w2).
    clear Hw2. win_step1.
    + match goal with E : _ && _ = true |- _ =>
        apply andb_true_iff in E as [E1 E2]; apply Z.eqb_eq in E1; apply truthy_true in E2 end.
      assert (Hm0 : mappings w2 = []).
      { apply length_zero_iff_nil. lia. }
      win_step1. apply wp_unlock_win; [done..|].
      eapply wp_mono; [by apply (inv_destroy base (Z.of_nat i)); exact HI2|].
      intros rc s' [HI' Hr]. split; [done|]. right. exists w. eexists.
      split; [done|]. split; [done|]. split; [exact Hrel|].
      simpl in Hr. rewrite Nat2Z.id in Hr. destruct Hr as [(Hrc & Ht & _)|(-> & w' & Hw' & _ & _ & Ht)].
      * left. split; [|exact Ht]. right.
        destruct Hrc as [->|[-> Hrc]]; [done|exfalso]. simpl in Hrc.
        rewrite list_lookup_insert_eq in Hrc by done.
        cut (active w2 = 0); [by rewrite Ha2|]. apply (Hrc _ eq_refl).
        by rewrite bad_window_num_ok, win_ok_of_nat.
      * right. rewrite list_lookup_insert_eq in Hw' by done. simplify_eq.
        split_and!; try done. by rewrite Ht, list_insert_insert_eq.
    + win_step1. apply wp_unlock_win; [done..|]. win_step1. split; [exact HI2|]. right.
      exists w. eexists. split; [done|]. split; [done|]. split; [exact Hrel|].
      left. split; [|done]. left. split; [done|]. intros Hm0.
      change (mappings (w2 <| w_lock := false |>)) with (mappings w2) in Hm0.
      rewrite Hu2, Hm0 in *. simpl in *. by apply truthy_false.
Qed.
End ops.
