(* ===== verification/VmeWindowFops.v ===== *)
(** The file operations of the window device and module exit keep the
    invariant: [release], [mmap], the ioctls, [vme_window_exit]. *)
From S2P Require Import Prelude VmeBus Tsi148Regs Tsi148Attr Tsi148Window KernelIf VmeMisc.
From S2P Require Import VmeWindow VmeWindowProofs VmeWindowSpec.

Local Open Scope Z_scope.

Section fops.
Context `{KernelLaws K} `{ChipLaws C}.
Implicit Types (k : K) (c : C) (w : window) (t : list window).
Notation W := (wstate K C).

(** * [vme_window_release] *)

(** Table [t] with the mappings of [f] gone from the windows in [[n, n + j)]. *)
Definition swept (f : Z) (n j : nat) t t' : Prop :=
  length t' = length t ∧
  ∀ i w, t !! i = Some w →
    t' !! i = Some (if (n <=? i)%nat && (i <? n + j)%nat then without_file f w else w).

Lemma swept_0 f n t : swept f n 0 t t.
Proof.
  split; [done|]. intros i w Hw.
  destruct (Nat.leb_spec n i), (Nat.ltb_spec i (n + 0)); simpl; done || lia.
Qed.

Lemma swept_S f n j t t' w :
  t !! n = Some w → swept f (S n) j (<[n:=without_file f w]> t) t' → swept f n (S j) t t'.
Proof.
  intros Hn [Hlen Hs]. rewrite length_insert in Hlen. split; [done|]. intros i x Hx.
  destruct (decide (i = n)) as [->|Hne].
  - rewrite (Hs n (without_file f w)) by (apply list_lookup_insert_eq; by eapply lookup_lt_Some).
    simplify_eq. destruct (Nat.leb_spec (S n) n), (Nat.leb_spec n n), (Nat.ltb_spec n (n + S j));
      simpl; done || lia.
  - rewrite (Hs i x) by (by rewrite list_lookup_insert_ne).
    destruct (Nat.leb_spec (S n) i), (Nat.leb_spec n i), (Nat.ltb_spec i (S n + j)),
      (Nat.ltb_spec i (n + S j)); simpl; done || lia.
Qed.

Lemma inv_release_windows base f n m (s : W) :
  inv base s → (n + m = num_windows)%nat →
  wp (release_windows (seq n m) f) (λ rc s', inv base s' ∧ ∃ j,
    swept f n j (window_table s) (window_table s') ∧
    ((rc = 0 ∧ j = m) ∨ (rc = - ERESTARTSYS ∧ (j < m)%nat))) s.
Proof.
  revert n s. induction m as [|m IH]; intros n s HI Hnm; simpl.
  { wp_step. split; [done|]. exists 0%nat. split; [apply swept_0|]. by left. }
  wp_step. open_state s.
  destruct (inv_lookup _ _ _ _ _ _ _ n HI ltac:(lia)) as (w & Hw & Hlt & Hl & Hwf & Hhw).
  eapply (wp_on_window base n); [done|lia|]. intros w0 Hw0 _ _ _ _. simplify_eq.
  eapply wp_mono; [apply wp_release_window; [lia|done..]|].
  intros rc s' (k1 & w1 & -> & Hl1 & Hs1 & Hr). exists k1, c, w1. split_and!; try done.
  intros HI1. cbv beta. destruct Hr as [[-> ->]|[-> ->]].
  - change (truthy (- ERESTARTSYS)) with true. cbv iota. wp_step. split; [done|].
    exists 0%nat. simpl. rewrite list_insert_id by done. split; [apply swept_0|]. right.
    split; [done|lia].
  - change (truthy 0) with false. cbv iota.
    eapply wp_mono; [apply (IH (S n)); [done|lia]|].
    intros rc s' (HI2 & j & Hsw & Hr). split; [done|]. exists (S j).
    split; [by eapply swept_S|]. destruct Hr as [[-> ->]|[-> ?]]; [by left|right; split; [done|lia]].
Qed.

(** * [mmap] *)

Definition mmap_ok (f : Z) (vma : vm_area) t (r : Z * option (Z * Z)) : Prop :=
  match r.2 with
  | None => r.1 = - EINVAL ∨ r.1 = - ERESTARTSYS
  | Some (pfn, len) =>
      pfn = vm_pgoff vma ∧ len = vm_end vma - vm_start vma ∧
      ∃ i w m, t !! i = Some w ∧ active w = 1 ∧ m ∈ mappings w ∧ file (client m) = f ∧
        vme_check_mmap_region (w_desc w) (m_desc m)
          (u32 (Z.shiftl pfn PAGE_SHIFT)) (u32 len) = true
  end.

Lemma inv_mmap_windows base f vma l (s : W) :
  inv base s → Forall (λ i, (i < num_windows)%nat) l →
  wp (mmap_windows l f vma) (λ r s', inv base s' ∧ window_table s' = window_table s ∧
    mmap_ok f vma (window_table s) r) s.
Proof.
  revert s. induction l as [|i l IH]; intros s HI Hall; simpl.
  { wp_step. split_and!; [done..|]. by left. }
  apply Forall_cons_1 in Hall as [Hi Hall].
  open_state s.
  destruct (inv_lookup _ _ _ _ _ _ _ i HI Hi) as (w & Hw & Hlt & Hl & Hwf & Hhw).
  rewrite <- (list_insert_id _ _ _ Hw) at 1. wp_step.
  apply wp_lock_win; [done..| |]; intros k1 Hk1; cbv beta iota.
  { wp_step. rewrite list_insert_id by done. split_and!; [by eapply inv_kern|done|by right]. }
  assert (HI1 : inv base (ST k1 c v t a b)) by (by eapply inv_kern).
  win_step1. win_step1.
  change (active (w <| w_lock := true |>)) with (active w).
  change (mappings (w <| w_lock := true |>)) with (mappings w).
  change (w_desc (w <| w_lock := true |>)) with (w_desc w).
  destruct (truthy (active w) && existsb _ (mappings w)) eqn:E.
  - apply andb_true_iff in E as [Ha E]. apply existsb_exists in E as (m & Hm & E).
    apply andb_true_iff in E as [Ef E]. apply Z.eqb_eq in Ef.
    assert (Ha1 : active w = 1).
    { destruct Hwf as [_ [(Ha0 & _)|(Ha0 & _)]]; [by rewrite Ha0 in Ha|done]. }
    unfold vme_remap_pfn_range. repeat win_step1. apply wp_unlock_win; [done..|].
    rewrite lock_lock, (lock_id w false), list_insert_id by done. win_step1.
    split; [eapply inv_kern; [exact HI1|apply io_remap_live]|]. split; [done|].
    unfold mmap_ok. simpl. split; [done|]. split; [done|]. exists i, w, m.
    split_and!; try done. by apply list_elem_of_In.
  - win_step1. apply wp_unlock_win; [done..|].
    rewrite lock_lock, (lock_id w false), list_insert_id by done.
    exact (IH (ST k1 c v t a b) HI1 Hall).
Qed.

Lemma all_windows : Forall (λ i, (i < num_windows)%nat) (seq 0 num_windows).
Proof. apply List.Forall_forall. intros i Hi%in_seq. lia. Qed.

(** * [find_vme_mapping_from_addr] *)

Lemma inv_find_from_addr base l addr (s : W) :
  inv base s → Forall (λ i, (i < num_windows)%nat) l →
  wp (find_from_addr l addr) (λ r s', inv base s' ∧ window_table s' = window_table s ∧
    match r with
    | Some d => ∃ i w m, window_table s !! i = Some w ∧ m ∈ mappings w ∧ m_desc m = d ∧
        kernel_va d = addr
    | None => True
    end) s.
Proof.
  revert s. induction l as [|i l IH]; intros s HI Hall; simpl.
  { wp_step. done. }
  apply Forall_cons_1 in Hall as [Hi Hall].
  open_state s.
  destruct (inv_lookup _ _ _ _ _ _ _ i HI Hi) as (w & Hw & Hlt & Hl & Hwf & Hhw).
  rewrite <- (list_insert_id _ _ _ Hw) at 1. wp_step.
  apply wp_lock_win; [done..| |]; intros k1 Hk1; cbv beta iota.
  { wp_step. rewrite list_insert_id by done. split_and!; [by eapply inv_kern|done|done]. }
  assert (HI1 : inv base (ST k1 c v t a b)) by (by eapply inv_kern).
  win_step1. win_step1.
  change (mappings (w <| w_lock := true |>)) with (mappings w).
  destruct (find_idx _ (mappings w)) as [j|] eqn:E; cbn [mbind option_bind].
  - pose proof E as [(m & Hm & Hv) _]%find_idx_lookup. apply Z.eqb_eq in Hv. rewrite Hm.
    win_step1. apply wp_unlock_win; [done..|].
    rewrite lock_lock, (lock_id w false), list_insert_id by done. win_step1.
    split_and!; try done. exists i, w, m. split_and!; try done. by eapply list_elem_of_lookup_2.
  - win_step1. apply wp_unlock_win; [done..|].
    rewrite lock_lock, (lock_id w false), list_insert_id by done.
    exact (IH (ST k1 c v t a b) HI1 Hall).
Qed.

(** * ioctls *)

Lemma inv_user_fault base (s : W) (Q : bool → W → Prop) :
  inv base s →
  (∀ x s', inv base s' → window_table s' = window_table s →
     vme_create_on_find_fail s' = vme_create_on_find_fail s →
     vme_destroy_on_remove s' = vme_destroy_on_remove s → Q x s') →
  wp (wkcall user_fault) Q s.
Proof.
  intros HI HQ. open_state s.
  apply wp_wkcall. apply HQ; try done. eapply inv_kern; [done|apply user_fault_live].
Qed.

Lemma inv_from_user {A} base (m : M W (Z * A)) (err : A) (Q : Z * A → W → Prop) (s : W) :
  inv base s →
  (∀ s', inv base s' → window_table s' = window_table s → Q (- EFAULT, err) s') →
  (∀ s', inv base s' → window_table s' = window_table s →
     vme_create_on_find_fail s' = vme_create_on_find_fail s →
     vme_destroy_on_remove s' = vme_destroy_on_remove s → wp m Q s') →
  wp (from_user m err) Q s.
Proof.
  intros HI HE HQ. unfold from_user. wp_step. apply inv_user_fault with base; [done|].
  intros [] s' HI' Ht Ha Hb; cbv beta iota; [wp_step|]; auto.
Qed.

Lemma inv_to_user base (r : reply) (Q : Z * reply → W → Prop) (s : W) :
  inv base s →
  (∀ x s', inv base s' → window_table s' = window_table s →
     x = (0, r) ∨ x = (- EFAULT, NoReply) → Q x s') →
  wp (to_user r) Q s.
Proof.
  intros HI HQ. unfold to_user. wp_step. apply inv_user_fault with base; [done|].
  intros [] s' HI' Ht _ _; cbv beta iota; wp_step; apply HQ; auto.
Qed.

(** A computation on the bridge alone that keeps what the invariant needs. *)
Lemma inv_in_bridge {A} base (m : M (bridge K C) A) (Q : A → W → Prop) (s : W) :
  inv base s →
  wp m (λ x br', (kern br' = kern (br s) ∧ verr_locked (verr br') = false ∧
      ∀ r, is_latch r = true → latch r (chip br') = latch r (chip (br s))) ∧
    (∀ s', inv base s' → window_table s' = window_table s → Q x s')) (br s) →
  wp (in_bridge m) Q s.
Proof.
  intros HI Hm. destruct s as [[k c v] t a b]. simpl in Hm.
  change (mk_wstate (mk_bridge k c v) t a b) with (ST k c v t a b) in *.
  apply wp_in_bridge. eapply wp_mono; [exact Hm|].
  intros x [k' c' v'] [(Hk & Hv & Hc) HQ]. simpl in *. subst k'. apply HQ; [|done].
  pose proof (inv_chip base k c v t a b c' HI Hc) as [I1 I2 I3 I4 I5 I6 I7 I8]. by split.
Qed.

Lemma wp_bus_error_check clear (b : bridge K C) (Q : Z → bridge K C → Prop) :
  (∀ x c', (∀ r, is_latch r = true → latch r c' = latch r (chip b)) →
     Q x (b <| chip := c' |>)) →
  wp (vme_bus_error_check clear) Q b.
Proof.
  intros HQ. unfold vme_bus_error_check. apply wp_on_chip. unfold tsi148_bus_error_chk.
  wp_step. apply wp_rd_any. intros v c1 Hc1. wp_step; [|wp_step; by apply HQ].
  wp_step. wp_step.
  - apply wp_wr. intros c2 Hc2. wp_step. apply HQ. intros r Hr. rewrite Hc2 by done.
    destruct (decide _) as [<-|_]; [done|by apply Hc1].
  - wp_step. wp_step. by apply HQ.
Qed.

Lemma wp_check_clear err (b : bridge K C) (Q : Z → bridge K C → Prop) :
  verr_locked (verr b) = false →
  (∀ x v', verr_locked v' = false → Q x (b <| verr := v' |>)) →
  wp (vme_bus_error_check_clear err) Q b.
Proof.
  intros Hl HQ. unfold vme_bus_error_check_clear, vme_bus_error_check_clear_locked.
  destruct b as [k c v]. simpl in *. wp_step. apply wp_spin_lock; [done|].
  repeat wp_step; apply wp_spin_unlock; wp_step; exact (HQ _ (mk_vme_verr false _ _) eq_refl).
Qed.

(** The data of an ioctl has the C types' ranges. *)
Definition ioctl_ok (cmd : window_ioctl) : Prop :=
  match cmd with
  | VME_IOCTL_CREATE_WINDOW d | VME_IOCTL_FIND_MAPPING d =>
      is_u32 (sizel d) ∧ is_u32 (vme_addrl d)
  | _ => True
  end.

Lemma inv_set_flags base (s : W) a' b' :
  inv base s → inv base (mk_wstate (br s) (window_table s) a' b').
Proof. by intros [I1 I2 I3 I4 I5 I6 I7 I8]. Qed.

Lemma inv_ioctl base f cur cmd (s : W) :
  inv base s → ioctl_ok cmd →
  wp (vme_window_ioctl f cur cmd) (λ r s', inv base s' ∧ (r.1 ≠ 0 → r.2 = NoReply)) s.
Proof.
  intros HI Hok.
  assert (Hto : ∀ r (s : W), inv base s →
    wp (to_user r) (λ r s', inv base s' ∧ (r.1 ≠ 0 → r.2 = NoReply)) s).
  { intros r s1 HI1. apply inv_to_user with base; [done|].
    intros x s2 HI2 _ [->| ->]; by split. }
  destruct cmd; cbn [vme_window_ioctl];
    unfold vme_destroy_window_ioctl, vme_bus_error_check_clear_ioctl;
    try (lazymatch goal with |- wp (from_user _ _) _ _ => idtac end;
         apply inv_from_user with base; [done|by intros s1 HI1 _|];
         intros s1 HI1 Ht1 Hf1 Hd1; wp_step).
  - eapply wp_mono; [by apply inv_get_attr|]. intros [rc d'] s2 (HI2 & _). repeat wp_step; auto.
  - destruct Hok. eapply wp_mono; [by apply (inv_create base)|].
    intros [rc d'] s2 (HI2 & _). repeat wp_step; auto.
  - eapply wp_mono; [by apply (inv_destroy base)|]. intros rc s2 (HI2 & _). by repeat wp_step.
  - destruct Hok. wp_step. wp_step. eapply wp_mono; [by apply (inv_find base)|].
    intros [rc d'] s2 (HI2 & _). repeat wp_step; auto.
  - wp_step. wp_step. eapply wp_mono; [by apply (inv_release base)|].
    intros rc s2 (HI2 & _). by repeat wp_step.
  - wp_step. wp_step. by apply Hto.
  - wp_step. wp_step. split; [by apply inv_set_flags|done].
  - wp_step. wp_step. by apply Hto.
  - wp_step. wp_step. split; [by apply inv_set_flags|done].
  - wp_step. apply inv_in_bridge with base; [done|]. apply wp_bus_error_check.
    intros x c' Hc'. split; [|intros s' HI' _; by apply Hto].
    destruct HI. by split_and!.
  - apply inv_in_bridge with base; [done|]. apply wp_check_clear; [by destruct HI1|].
    intros x v' Hv'. split; [by split_and!|]. intros s' HI' _. by apply Hto.
  - wp_step. by split.
Qed.

(** * Module exit *)

Lemma inv_exit base (s : W) :
  inv base s →
  wp vme_window_exit (λ _ s', inv base s') s.
Proof.
  intros HI. unfold vme_window_exit. eapply wp_mono; [apply (wp_mfold _ (λ l _ s,
    inv base s ∧ Forall (λ i, (i < num_windows)%nat) l))|by intros ? ? []].
  - intros i l [] s1 [HI1 Hall]. apply Forall_cons_1 in Hall as [Hi Hall].
    open_state s1.
    destruct (inv_lookup _ _ _ _ _ _ _ i HI1 Hi) as (w & Hw & Hlt & _).
    rewrite <- (list_insert_id _ _ _ Hw) at 1. win_step1. win_step1.
    rewrite list_insert_id by done. win_step1; win_step1; [|done].
    eapply wp_mono; [by apply (inv_destroy base)|]. intros rc s2 [HI2 _]. by win_step1.
  - split; [done|apply all_windows].
Qed.

(** The static window table before the module runs. *)
Definition boot_table : list window := replicate num_windows zero_window.

(** No outbound window of the chip decodes. *)
Definition no_window_enabled c : Prop :=
  ∀ i, win_ok i = true → Z.testbit (latch (OTAT i) c) 31 = false.

Lemma inv_boot k c v a b :
  no_window_enabled c → verr_locked v = false → inv (live k) (ST k c v boot_table a b).
Proof.
  intros Hc Hv.
  assert (Hz : ∀ i w, boot_table !! i = Some w → (i < num_windows)%nat ∧ w = zero_window).
  { intros i w Hw. by apply lookup_replicate in Hw as [-> ?]. }
  split; simpl.
  - done.
  - by intros i w [_ ->]%Hz.
  - intros i w [_ ->]%Hz. split; [done|]. by left.
  - by intros i w [_ ->]%Hz.
  - intros i w [Hi ->]%Hz. split; [|done]. rewrite Hc; [done|by apply win_ok_of_nat].
  - change (live k = table_res (replicate num_windows zero_window) ⊎ live k).
    assert (E : ∀ n, table_res (replicate n zero_window) = ∅).
    { intros n. induction n as [|n IH]; [done|]. simpl. by rewrite IH. }
    rewrite E. multiset_solver.
  - by intros i j wi wj _ [_ ->]%Hz.
  - done.
Qed.

Lemma wp_init (Q : () → W → Prop) k c v a b :
  Q () (ST k c v boot_table a b) → wp vme_window_init Q (ST k c v boot_table a b).
Proof.
  intros HQ. unfold vme_window_init. eapply wp_mono.
  - apply (wp_mfold _ (λ l _ s, s = ST k c v boot_table a b ∧
      Forall (λ i, (i < num_windows)%nat) l)); [|by split; [|apply all_windows]].
    intros i l [] s [-> Hall]. apply Forall_cons_1 in Hall as [Hi Hall].
    assert (Hz : boot_table !! i = Some zero_window) by (by apply lookup_replicate_2).
    assert (Hb : (i < length boot_table)%nat) by (unfold boot_table; by rewrite length_replicate).
    rewrite <- (list_insert_id _ _ _ Hz) at 1. apply wp_upd_win; [done|].
    split; [|done].
    change (zero_window <| mappings := [] |> <| w_lock := false |> <| active := 0 |>) with zero_window.
    by rewrite list_insert_id.
  - by intros [] s [-> _].
Qed.

(** * Every request *)

(** Requests: the file operations of the device, and the functions exported to
    other modules ([K...]). *)
Inductive request :=
  | Ioctl (f : Z) (cur : task) (cmd : window_ioctl)
  | Mmap (f : Z) (vma : vm_area)
  | Close (f : Z)
  | KFindMapping (d : vme_mapping) (force : Z) (cur : task)
  | KReleaseMapping (d : vme_mapping) (force : Z)
  | KCreateWindow (d : vme_mapping)
  | KDestroyWindow (n : Z)
  | KGetWindowAttr (d : vme_mapping)
  | KFromAddr (addr : Z).

Definition serve (r : request) : M W () :=
  match r with
  | Ioctl f cur cmd => vme_window_ioctl f cur cmd;; mret ()
  | Mmap f vma => vme_window_mmap f vma;; mret ()
  | Close f => vme_window_release f;; mret ()
  | KFindMapping d force cur => vme_find_mapping d force cur;; mret ()
  | KReleaseMapping d force => vme_release_mapping d force;; mret ()
  | KCreateWindow d => vme_create_window d;; mret ()
  | KDestroyWindow n => vme_destroy_window n;; mret ()
  | KGetWindowAttr d => vme_get_window_attr d;; mret ()
  | KFromAddr a => find_vme_mapping_from_addr a;; mret ()
  end.

Definition serve_all (l : list request) : M W () := mfold (λ _, serve) () l.

(** Descriptors passed in have the C types' ranges. *)
Definition request_ok (r : request) : Prop :=
  match r with
  | Ioctl _ _ cmd => ioctl_ok cmd
  | KFindMapping d _ _ | KCreateWindow d => is_u32 (sizel d) ∧ is_u32 (vme_addrl d)
  | _ => True
  end.

Lemma inv_serve base r (s : W) :
  inv base s → request_ok r → wp (serve r) (λ _ s', inv base s') s.
Proof.
  intros HI Hok.
  destruct r; simpl in Hok |- *; wp_step.
  - eapply wp_mono; [by apply inv_ioctl|]. by intros ? s' [? _].
  - eapply wp_mono; [apply inv_mmap_windows; [done|apply all_windows]|]. by intros ? s' [? _].
  - eapply wp_mono; [by apply inv_release_windows|]. by intros ? s' [? _].
  - destruct Hok. eapply wp_mono; [by apply inv_find|]. by intros ? s' [? _].
  - eapply wp_mono; [by apply inv_release|]. by intros ? s' [? _].
  - destruct Hok. eapply wp_mono; [by apply inv_create|]. by intros ? s' [? _].
  - eapply wp_mono; [by apply inv_destroy|]. by intros ? s' [? _].
  - eapply wp_mono; [by apply inv_get_attr|]. by intros ? s' [? _].
  - eapply wp_mono; [apply inv_find_from_addr; [done|apply all_windows]|]. by intros ? s' [? _].
Qed.
End fops.
