(* ===== verification/VmeWindowProps.v ===== *)
(** The contract of the window manager ([src/vmebridge/driver/vme_window.c]):
    safety of every sequence of requests, and what each request does. *)
From S2P Require Import Prelude VmeBus Tsi148Regs Tsi148Attr Tsi148Window KernelIf VmeMisc.
From S2P Require Import VmeWindow VmeWindowProofs VmeWindowSpec VmeWindowFops.

Local Open Scope Z_scope.

(** An address modifier of the A24 space or smaller: the forced window is the
    whole space. *)
Definition small_space (m : vme_mapping) : bool :=
  am_in A24_MODIFIERS (am m) || am_in A16_MODIFIERS (am m).

(** Size of the address space of a modifier. *)
Definition space_bits (a : Z) : option Z :=
  if am_in A16_MODIFIERS a then Some 16
  else if am_in A24_MODIFIERS a then Some 24
  else if am_in A32_MODIFIERS a then Some 32
  else if am_in A40_MODIFIERS a then Some 40 else None.

(** The 64-bit VME address of a descriptor. *)
Definition vme_address (m : vme_mapping) : Z := vme_addru m * 2 ^ 32 + vme_addrl m.

Lemma clear_low_0_iff n x : 0 <= n → 0 <= x → (clear_low n x = 0 ↔ x < 2 ^ n).
Proof.
  intros Hn Hx. rewrite clear_low_sub by done.
  pose proof (Z.mod_pos_bound x (2 ^ n) ltac:(lia)). split; intros E; [lia|].
  rewrite Z.mod_small; lia.
Qed.

Lemma am_a24_not_a16 a : am_in A24_MODIFIERS a = true → am_in A16_MODIFIERS a = false.
Proof.
  intros E24. destruct (am_in A16_MODIFIERS a) eqn:E16; [|done]. unfold am_in in *.
  apply existsb_exists in E24 as (x & Hx & Ex%Z.eqb_eq).
  apply existsb_exists in E16 as (y & Hy & Ey%Z.eqb_eq). vm_compute in Hx, Hy. lia.
Qed.

(** Alignment as arithmetic. *)
Lemma create_align_arith d :
  is_u32 (vme_addrl d) → 0 <= sizel d → sizel d + 0x10000 <= 2 ^ 32 →
  vme_addrl (create_align d) = vme_addrl d - vme_addrl d mod 2 ^ 16 ∧
  sizel (create_align d) =
    (if sizel d mod 2 ^ 16 =? 0 then sizel d
     else sizel d - sizel d mod 2 ^ 16 + 2 ^ 16).
Proof.
  intros Hv Hs Hs'. unfold create_align. change 0xffff with (Z.ones 16).
  set (d1 := if truthy (Z.land (vme_addrl d) (Z.ones 16)) then _ else d).
  assert (F : vme_addrl d1 = vme_addrl d - vme_addrl d mod 2 ^ 16 ∧ sizel d1 = sizel d).
  { subst d1. rewrite truthy_low by lia.
    destruct (Z.eqb_spec (vme_addrl d mod 2 ^ 16) 0) as [E|E]; simpl negb; cbv iota; [lia|].
    simpl. rewrite clear_low_sub by lia. split; [done|].
    rewrite Z.sub_diag, Z.add_0_r. apply u32_small. unfold is_u32. lia. }
  clearbody d1. destruct F as [F1 F2]. rewrite F2, truthy_low by lia.
  destruct (Z.eqb_spec (sizel d mod 2 ^ 16) 0) as [E|E]; simpl negb; cbv iota zeta; [done|].
  simpl. split; [done|]. rewrite u32_small.
  - rewrite clear_low_sub by lia. Z.div_mod_to_equations. lia.
  - unfold is_u32. Z.div_mod_to_equations. lia.
Qed.

Lemma u32_pgoff p : 0 <= p < 2 ^ 20 → u32 (Z.shiftl p PAGE_SHIFT) = p * PAGE_SIZE.
Proof.
  intros Hp. unfold PAGE_SIZE, PAGE_SHIFT. rewrite !Z.shiftl_mul_pow2 by lia.
  rewrite Z.mul_1_l. apply u32_small. unfold is_u32. lia.
Qed.

(** A page range that passes the check is the mapping rounded to pages. *)
Lemma check_mmap_region_facts wd md a len rs re :
  vme_check_mmap_region wd md a len = true →
  is_u32 a → is_u32 len → is_u32 rs → rs mod 2 ^ 16 = 0 → pci_addrl wd = rs →
  re = rs + sizel wd - 1 → re < 2 ^ 32 → sizel wd mod 2 ^ 16 = 0 → is_u32 (sizel wd) →
  is_u32 (pci_addrl md) → 0 <= sizel md → pci_addrl md + sizel md <= re + 1 →
  rs <= a ∧ a + len <= re + 1 ∧ a <= pci_addrl md ∧ pci_addrl md + sizel md <= a + len.
Proof.
  unfold vme_check_mmap_region, is_u32. intros Hc Ha Hl Hrs Hra Hwp -> Hre Hsa Hs Hp Hsm Hin.
  rewrite Hwp in Hc.
  change (PAGE_SIZE - 1) with (Z.ones 12) in Hc. change PAGE_SHIFT with 12 in Hc.
  destruct (_ || _) eqn:E1 in Hc; [done|]. apply orb_false_iff in E1 as [E1 _].
  apply Z.ltb_ge in E1. apply andb_true_iff in Hc as [Hc1 Hc2]. apply Z.eqb_eq in Hc1, Hc2.
  rewrite clear_low_sub in Hc1 by lia. rewrite truthy_low in Hc2 by lia.
  rewrite clear_low_sub in Hc2 by lia. change PAGE_SIZE with 4096 in Hc2.
  set (e := pci_addrl md + sizel md) in *. set (p := pci_addrl md) in *.
  set (r := e - e mod 2 ^ 12 + (if e mod 2 ^ 12 =? 0 then 0 else 2 ^ 12)).
  assert (Hr : r mod 2 ^ 12 = 0 ∧ e <= r < e + 2 ^ 12).
  { subst r. destruct (Z.eqb_spec (e mod 2 ^ 12) 0); Z.div_mod_to_equations; lia. }
  assert (Hrr : r <= rs + sizel wd).
  { destruct Hr as [Hr1 Hr2]. clearbody r e p. Z.div_mod_to_equations. lia. }
  assert (Hu : u32 r = u32 (a + len)).
  { rewrite <- Hc2. subst r. unfold u32. destruct (Z.eqb_spec (e mod 2 ^ 12) 0) as [Ee|Ee];
      destruct (Z.eqb_spec ((e mod 2 ^ 32) mod 2 ^ 12) 0) as [Ef|Ef]; simpl negb; cbv iota;
      Z.div_mod_to_equations; lia. }
  assert (Hep : p <= e) by (subst e p; lia).
  clear Hc2. unfold u32 in Hu. destruct Hr as [Hr1 Hr2]. clearbody r e p.
  assert (Hap : a <= p < a + 2 ^ 12) by (Z.div_mod_to_equations; lia).
  assert (Heq : r = a + len); [|lia].
  clear Hc1 Hr1. Z.div_mod_to_equations. lia.
Qed.

Section ops.
Context `{KernelLaws K} `{ChipLaws C}.
Implicit Types (k : K) (c : C) (w : window) (t : list window).
Notation W := (wstate K C).

(** C1 Safety.  From module load, with no window decoding on the chip, every
    sequence of requests returns (no request deadlocks on a window mutex) and
    ends in a state where: all mutexes are free; every active window is mapped
    to a 64 KB aligned PCI region that no other active window overlaps; the
    chip decodes for exactly the active windows, at their PCI address; and the
    memory, PCI regions and io mappings held are exactly those of the table. *)
Theorem requests_safe (reqs : list request) k c v a b :
  Forall request_ok reqs → no_window_enabled c → verr_locked v = false →
  wp (vme_window_init;; serve_all reqs) (λ _ s', inv (live k) s')
     (mk_wstate (mk_bridge k c v) boot_table a b).
Proof.
  intros Hreqs Hc Hv. wp_step. apply wp_init. unfold serve_all.
  eapply wp_mono.
  - apply (wp_mfold _ (λ l _ s, inv (live k) s ∧ Forall request_ok l)).
    + intros r l [] s [HI Hall]. apply Forall_cons_1 in Hall as [Hr Hall].
      eapply wp_mono; [by apply inv_serve|]. auto.
    + split; [by apply inv_boot|done].
  - by intros ? s [? _].
Qed.

(** Module exit.  [vme_window_exit] returns in every state, and if it leaves
    no window active (it does not check for interrupted mutex waits), then
    nothing the module took from the kernel is still held and no window of the
    chip decodes. *)
Theorem window_exit_no_leak (base : gmultiset resource) (s : W) :
  inv base s →
  wp vme_window_exit (λ _ s',
    (∀ i w, window_table s' !! i = Some w → active w = 0) →
    live (kern (br s')) = base ∧ no_window_enabled (chip (br s'))) s.
Proof.
  intros HI. eapply wp_mono; [by apply inv_exit|]. intros [] s' HI' Hidle.
  destruct HI' as [Hlen _ Hwf _ Hhw Hlive _ _]. split.
  - rewrite Hlive. assert (E : table_res (window_table s') = ∅); [|rewrite E; multiset_solver].
    clear Hlen Hhw Hlive. revert Hwf Hidle. generalize (window_table s') as t. intros t.
    induction t as [|w t IH]; intros Hwf Hidle; [done|]. simpl. rewrite IH.
    + destruct (Hwf 0%nat w eq_refl) as [_ [(_ & Hm & Hr)|(Ha & _)]];
        [|by rewrite (Hidle 0%nat w eq_refl) in Ha].
      unfold win_res, hw_res. rewrite (Hidle 0%nat w eq_refl), Hm, Hr. simpl. multiset_solver.
    + intros i w' Hw'. destruct (Hwf (S i) w' Hw') as [? [?|(Ha & _)]];
        [split; [done|by left]|]. by rewrite (Hidle (S i) w' Hw') in Ha.
    + intros i w' Hw'. by apply (Hidle (S i)).
  - intros i Hi. apply win_ok_nat in Hi as [Hi Hlt]. rewrite <- Hlen in Hlt.
    destruct (lookup_lt_is_Some_2 _ _ Hlt) as [w Hw].
    destruct (Hhw _ _ Hw) as [E _]. rewrite <- Hi, E. by rewrite (Hidle _ _ Hw).
Qed.

(** C36 [vme_create_window] succeeds only on an inactive window with a valid
    number; the window is then active with no mappings, holds the request
    aligned to 64 KB and decodes on the chip at its PCI address.  When it fails
    the error is negative and the table, the chip and the resources held are as
    before. *)
Theorem create_window_spec (base : gmultiset resource) (d : vme_mapping) (s : W) :
  inv base s → is_u32 (sizel d) → is_u32 (vme_addrl d) →
  wp (vme_create_window d) (λ r s', inv base s' ∧
    ((r.1 < 0 ∧ window_table s' = window_table s ∧ live (kern (br s')) = live (kern (br s)) ∧
      chip (br s') = chip (br s)) ∨
     (r.1 = 0 ∧ 0 <= window_num d < 8 ∧ ∃ w w',
        window_table s !! Z.to_nat (window_num d) = Some w ∧ active w = 0 ∧
        window_table s' = <[Z.to_nat (window_num d) := w']> (window_table s) ∧
        active w' = 1 ∧ w_desc w' = r.2 ∧ mappings w' = [] ∧
        vme_addrl r.2 = vme_addrl (create_align d) ∧ sizel r.2 = sizel (create_align d) ∧
        am r.2 = am d ∧
        Z.testbit (latch (OTAT (window_num d)) (chip (br s'))) 31 = true ∧
        latch (OTSAL (window_num d)) (chip (br s')) = pci_addrl r.2))) s.
Proof.
  intros HI Hs Hv. eapply wp_mono; [by apply inv_create|].
  intros r s' (HI' & [?|(Hr & w & w' & Hw & Ha & Ht & Ha' & Hd & Hm & Hbad & Hreq)]);
    (split; [done|]); [by left|right].
  split; [done|]. destruct Hreq as (_ & Ham & _ & _ & Hv' & _ & Hs' & _).
  assert (Hn : 0 <= window_num d < 8).
  { unfold bad_window_num in Hbad. change TSI148_NUM_OUT_WINDOWS with 8 in Hbad. lia. }
  split; [done|]. exists w, w'.
  assert (Hw' : window_table s' !! Z.to_nat (window_num d) = Some w').
  { rewrite Ht. apply list_lookup_insert_eq. by eapply lookup_lt_Some. }
  pose proof (inv_hw _ _ HI' _ _ Hw') as [Hb Hpci]. rewrite Z2Nat.id in * by lia.
  rewrite Ha' in *. specialize (Hpci eq_refl).
  destruct (inv_wf _ _ HI' _ _ Hw') as [_ [(Ha0 & _)|(_ & _ & _ & _ & _ & _ & Hp & _)]];
    [congruence|].
  split_and!; try done; [|by rewrite Hpci, <- Hd].
  rewrite Ham. unfold create_align. repeat case_match; done.
Qed.

(** C39 The window that [vme_create_window] creates starts at or below the
    requested address, but it covers the whole request only if the address is
    64 KB aligned or the rounding of the size makes up for the low address
    bits: the size is not increased when the address is rounded down. *)
Theorem created_window_coverage (base : gmultiset resource) (d : vme_mapping) (s : W) :
  inv base s → is_u32 (vme_addrl d) → 0 <= sizel d → sizel d + 0x10000 <= 2 ^ 32 →
  wp (vme_create_window d) (λ r s', r.1 = 0 →
    vme_addrl r.2 <= vme_addrl d ∧
    (vme_addrl d + sizel d <= vme_addrl r.2 + sizel r.2 ↔
     vme_addrl d mod 2 ^ 16 = 0 ∨
     (sizel d mod 2 ^ 16 ≠ 0 ∧ vme_addrl d mod 2 ^ 16 + sizel d mod 2 ^ 16 <= 2 ^ 16))) s.
Proof.
  intros HI Hv Hs Hs'. eapply wp_mono; [apply (inv_create base); [done|unfold is_u32; lia|done]|].
  intros r s' (_ & [(Hr & _)|(_ & w & w' & _ & _ & _ & _ & _ & _ & _ & Hreq)]) H0'; [lia|].
  destruct Hreq as (_ & _ & _ & _ & E1 & _ & E2 & _). rewrite E1, E2.
  destruct (create_align_arith d Hv Hs Hs') as [-> ->].
  pose proof (Z.mod_pos_bound (vme_addrl d) (2 ^ 16) ltac:(lia)).
  pose proof (Z.mod_pos_bound (sizel d) (2 ^ 16) ltac:(lia)).
  split; [lia|]. destruct (Z.eqb_spec (sizel d mod 2 ^ 16) 0); lia.
Qed.

(** A window forced for a sane A16 or A24 request covers the request: it is
    the whole address space, needs no alignment, and requests for other spaces
    are left as they are. *)
Theorem optimize_window_covers (m : vme_mapping) :
  is_u32 (vme_addru m) → is_u32 (vme_addrl m) → 0 <= sizel m →
  vme_mapping_sanity_check m = 0 →
  let d := create_align (vme_optimize_window_size m) in
  if small_space m then
    vme_addru d = 0 ∧ vme_addrl d = 0 ∧ Some (sizel d) = (λ n, 2 ^ n) <$> space_bits (am m) ∧
    vme_address m < sizel d ∧
    (vme_addrl m + sizel m <= sizel d → covers d m)
  else vme_optimize_window_size m = m.
Proof.
  intros Hu Hv Hs Hsane d.
  unfold small_space, space_bits, vme_mapping_sanity_check, vme_optimize_window_size in *.
  destruct (am_in A24_MODIFIERS (am m)) eqn:E24.
  - assert (E16 : am_in A16_MODIFIERS (am m) = false) by (by apply am_a24_not_a16).
    rewrite E16 in *. simpl orb. cbv iota. change (negb (truthy 0x1000000)) with false in *.
    cbv iota in *. subst d. unfold create_align. simpl.
    destruct (truthy (vme_addru m)) eqn:Tu; [done|]. simpl orb in Hsane.
    destruct (truthy (clear_low 24 (vme_addrl m))) eqn:Tl; [done|].
    apply truthy_false in Tu, Tl. apply clear_low_0_iff in Tl; [|lia|apply Hv].
    unfold vme_address, covers. rewrite Tu. simpl. split_and!; try done; try lia.
    intros Hle. split; [apply Hv|]. rewrite !u32_small; unfold is_u32 in *; lia.
  - destruct (am_in A16_MODIFIERS (am m)) eqn:E16; simpl orb; cbv iota; [|done].
    change (negb (truthy 0x10000)) with false in *. cbv iota in *. subst d.
    unfold create_align. simpl.
    destruct (truthy (vme_addru m)) eqn:Tu; [done|]. simpl orb in Hsane.
    destruct (truthy (clear_low 16 (vme_addrl m))) eqn:Tl; [done|].
    apply truthy_false in Tu, Tl. apply clear_low_0_iff in Tl; [|lia|apply Hv].
    unfold vme_address, covers. rewrite Tu. simpl. split_and!; try done; try lia.
    intros Hle. split; [apply Hv|]. rewrite !u32_small; unfold is_u32 in *; lia.
Qed.

(** [vme_mapping_sanity_check] accepts a descriptor exactly when its VME
    address lies in the address space of its modifier (16, 24, 32 or 40 bits);
    other modifiers are not limited. *)
Theorem sanity_check_spec (m : vme_mapping) :
  is_u32 (vme_addru m) → is_u32 (vme_addrl m) →
  (vme_mapping_sanity_check m = 0 ∧
   match space_bits (am m) with Some n => vme_address m < 2 ^ n | None => True end) ∨
  (vme_mapping_sanity_check m = - EINVAL ∧
   ∃ n, space_bits (am m) = Some n ∧ 2 ^ n <= vme_address m).
Proof.
  intros Hu Hv. unfold vme_mapping_sanity_check, space_bits, vme_address, is_u32 in *.
  assert (Hlow : ∀ n, 0 <= n → truthy (clear_low n (vme_addrl m)) = negb (vme_addrl m <? 2 ^ n)).
  { intros n Hn. destruct (Z.ltb_spec (vme_addrl m) (2 ^ n)) as [E|E]; simpl.
    - apply truthy_false, clear_low_0_iff; lia.
    - apply truthy_true. rewrite clear_low_0_iff by lia. lia. }
  assert (Hup : truthy (clear_low 8 (vme_addru m)) = negb (vme_addru m <? 2 ^ 8)).
  { destruct (Z.ltb_spec (vme_addru m) (2 ^ 8)) as [E|E]; simpl.
    - apply truthy_false, clear_low_0_iff; lia.
    - apply truthy_true. rewrite clear_low_0_iff by lia. lia. }
  assert (Hz : truthy (vme_addru m) = negb (vme_addru m =? 0)) by done.
  rewrite (Hlow 16), (Hlow 24), Hup, Hz by lia. change (2 ^ 8) with 256.
  repeat match goal with |- context [if am_in ?l ?a then _ else _] => destruct (am_in l a) end;
    try (by left);
    repeat match goal with
           | |- context [?x =? 0] => lazymatch x with vme_addru m => destruct (Z.eqb_spec x 0) end
           | |- context [?x <? ?y] => destruct (Z.ltb_spec x y)
           end; simpl;
    first [left; split; [done|lia] | right; split; [done|]; eexists; split; [done|lia]].
Qed.


(** Releasing a mapping.  Either nothing changes (bad window number,
    inactive window, no matching mapping, interrupted wait), or the first
    matching mapping of the window is removed; then, if the window has no more
    mappings and destruction was asked for, the window is destroyed too (and
    [-ERESTARTSYS] is returned with the mapping gone if that wait is
    interrupted). *)
Theorem release_mapping_spec (base : gmultiset resource) (d : vme_mapping) force f (s : W) :
  inv base s →
  wp (vme_release_mapping_file d force f) (λ rc s',
    release_outcome d force f rc (window_table s) (window_table s')) s.
Proof.
  intros HI. eapply wp_mono; [by apply (inv_release base)|]. by intros r s' [_ ?].
Qed.

(** Closing a file removes every mapping of the file from every window and
    keeps the others, in order, with the reference counts in step; a signal
    stops the sweep at some window with [-ERESTARTSYS]. *)
Theorem window_release_spec (base : gmultiset resource) f (s : W) :
  inv base s →
  wp (vme_window_release f) (λ rc s',
    ∃ n, (n <= num_windows)%nat ∧ ((rc = 0 ∧ n = num_windows) ∨ rc = - ERESTARTSYS) ∧
    ∀ i w, window_table s !! i = Some w →
      ∃ w', window_table s' !! i = Some w' ∧ w_desc w' = w_desc w ∧ active w' = active w ∧
        users w' = Z.of_nat (length (mappings w')) ∧
        mappings w' = if (i <? n)%nat
                      then List.filter (λ m, negb (file (client m) =? f)) (mappings w)
                      else mappings w) s.
Proof.
  intros HI. eapply wp_mono; [by apply (inv_release_windows base)|].
  intros rc s' (HI' & j & [_ Hsw] & Hr). exists j.
  split; [destruct Hr as [[_ ->]|[_ ?]]; lia|].
  split; [destruct Hr as [[-> ->]|[-> _]]; [by left|by right]|].
  intros i w Hw. specialize (Hsw i w Hw). simpl in Hsw. eexists. split; [exact Hsw|].
  pose proof (inv_wf _ _ HI' i _ Hsw) as [Hu _].
  destruct (i <? j)%nat; by split_and!.
Qed.

End ops.

(** * Witnesses: the theorems at a concrete kernel and chip *)

Notation sim_wstate := (wstate SimKernel.kernel LatchChip.chip).

Definition sim_state : sim_wstate :=
  mk_wstate (mk_bridge SimKernel.boot LatchChip.reset
    (mk_vme_verr false (mk_vme_bus_error_desc (mk_vme_bus_error 0 0) 0) [])) boot_table 1 1.

Lemma sim_disabled : no_window_enabled LatchChip.reset.
Proof. intros i _. apply Z.testbit_0_l. Qed.

Lemma sim_inv : inv (live SimKernel.boot) sim_state.
Proof. apply inv_boot; [apply sim_disabled|done]. Qed.

(** A D32 request for 64 KB of A32 space. *)
Definition sim_desc : vme_mapping :=
  zero_mapping <| am := VME_A32_USER_DATA_SCT |> <| data_width := 32 |>
    <| window_num := 2 |> <| vme_addrl := 0x8000 |> <| sizel := 0x10000 |>.

Lemma requests_safe_witness :
  wp (S := sim_wstate)
    (vme_window_init;; serve_all [KCreateWindow sim_desc; KFindMapping sim_desc 1 (mk_task 1 "a");
                                  Close 0; KDestroyWindow 2])
    (λ _ s', inv (live SimKernel.boot) s') sim_state.
Proof.
  apply requests_safe; [|apply sim_disabled|reflexivity].
  repeat constructor; vm_compute; congruence.
Defined.

Lemma window_exit_no_leak_witness :
  wp (S := sim_wstate) vme_window_exit (λ _ s',
    (∀ i w, window_table s' !! i = Some w → active w = 0) →
    live (kern (br s')) = live SimKernel.boot ∧ no_window_enabled (chip (br s'))) sim_state.
Proof. apply window_exit_no_leak. exact sim_inv. Defined.

Lemma create_window_spec_witness :
  wp (S := sim_wstate) (vme_create_window sim_desc) (λ r s', r.1 < 0 ∨ r.1 = 0) sim_state.
Proof.
  eapply wp_mono; [apply (create_window_spec (live SimKernel.boot) sim_desc sim_state);
    [exact sim_inv|vm_compute; split; congruence|vm_compute; split; congruence]|].
  intros r s' (_ & [(H & _)|(H & _)]); [by left|by right].
Defined.

(** The window created for [0x8000, 0x18000) ends at 0x10000. *)
Lemma created_window_coverage_witness :
  wp (S := sim_wstate) (vme_create_window sim_desc) (λ r s', r.1 = 0 →
    vme_addrl r.2 + sizel r.2 < vme_addrl sim_desc + sizel sim_desc) sim_state.
Proof.
  eapply wp_mono; [apply (created_window_coverage (live SimKernel.boot) sim_desc sim_state);
    [exact sim_inv|vm_compute; split; congruence|vm_compute; congruence|vm_compute; congruence]|].
  intros r s' Hr H0. destruct (Hr H0) as [_ Hc]. apply Z.nle_gt. intros Hle.
  apply Hc in Hle as [Hle|[Hle _]]; vm_compute in Hle; congruence.
Defined.

Lemma optimize_window_covers_witness :
  covers (create_align (vme_optimize_window_size
    (sim_desc <| am := VME_A24_USER_DATA_SCT |>))) (sim_desc <| am := VME_A24_USER_DATA_SCT |>).
Proof.
  pose proof (optimize_window_covers (sim_desc <| am := VME_A24_USER_DATA_SCT |>)) as Hc.
  refine (proj2 (proj2 (proj2 (proj2 (Hc _ _ _ _)))) _); vm_compute;
    first [reflexivity | congruence | split; congruence].
Defined.

Lemma sanity_check_spec_witness :
  vme_mapping_sanity_check (sim_desc <| am := VME_A16_USER |>) = 0.
Proof.
  destruct (sanity_check_spec (sim_desc <| am := VME_A16_USER |>)) as [[H _]|(_ & n & Hn & H)];
    [vm_compute; split; congruence|vm_compute; split; congruence|exact H|exfalso].
  injection Hn as <-. vm_compute in H. congruence.
Defined.


Lemma release_mapping_spec_witness :
  wp (S := sim_wstate) (vme_release_mapping_file sim_desc 1 7)
    (λ rc s', release_outcome sim_desc 1 7 rc boot_table (window_table s')) sim_state.
Proof. apply (release_mapping_spec (live SimKernel.boot)). exact sim_inv. Defined.

Lemma window_release_spec_witness :
  wp (S := sim_wstate) (vme_window_release 7) (λ rc _, rc = 0 ∨ rc = - ERESTARTSYS) sim_state.
Proof.
  eapply wp_mono; [apply (window_release_spec (live SimKernel.boot)); exact sim_inv|].
  intros rc s' (n & _ & [[H _]|H] & _); [by left|by right].
Defined.


(** A run on the concrete kernel: find with force creates a window and places
    the mapping in it; releasing the mapping with force destroys the window and
    gives everything back. *)
Example find_release_run :
  (λ r, (r.1, SimKernel.held (kern (br r.2)), active <$> window_table r.2)) <$>
    ('(rc, d) ← vme_find_mapping sim_desc 1 (mk_task 1 "a"); vme_release_mapping d 1) sim_state =
  Some (0, [], replicate 8 0).
Proof. vm_compute. reflexivity. Qed.
