(* ===== verification/Tsi148Dma.v ===== *)
(** DMA transfers on the TSI148: the descriptor chain of a channel, from
    [src/vmebridge/driver/tsi148.c] ([tsi148_dma_*]) and [vme_dma.h].

    Descriptors live in memory shared with the chip, [dmem]; its words are kept
    as the values the chip reads (the driver stores them big endian).  A block
    just taken from the pool has no contents. *)
From S2P Require Import Prelude VmeBus Tsi148Regs Tsi148Attr KernelIf VmeMisc.

Local Open Scope Z_scope.

(** [struct tsi148_dma_desc] *)
Record tsi148_dma_desc := mk_tsi148_dma_desc {
  dsau : Z;
  dsal : Z;
  ddau : Z;
  ddal : Z;
  dsat : Z;
  ddat : Z;
  dnlau : Z;
  dnlal : Z;
  dcnt : Z;
  ddbs : Z
}.

Definition blank_desc : tsi148_dma_desc := mk_tsi148_dma_desc 0 0 0 0 0 0 0 0 0 0.

(** The value the chip reads from a word stored with [cpu_to_be32]. *)
Definition cpu_to_be32 (x : Z) : Z := u32 x.

(** [struct hw_desc_entry]; [hd_self] is its address. *)
Record hw_desc_entry := mk_hw_desc_entry {
  hd_self : Z;
  hd_va : Z;
  hd_phys : Z
}.

(** [struct dma_channel]: the scatter list is its address, its entries and the
    entries mapped onto the bus (address, length); [dma_wakes] counts the calls
    of [wake_up] on its wait queue. *)
Record dma_channel := mk_dma_channel {
  busy : Z;
  num : Z;
  cdesc : vme_dma;
  chained : Z;
  sgl : Z;
  sg_list : list scatterlist;
  sg_pages : Z;
  sg_bus : list (Z * Z);
  hw_desc_list : list hw_desc_entry;
  dma_wakes : Z
}.

Definition sg_mapped (c : dma_channel) : Z := Z.of_nat (length (sg_bus c)).

(** A channel being set up, over the bridge. *)
Record dma_state (K C : Type) := mk_dma_state {
  dbr : bridge K C;
  dmem : gmap Z tsi148_dma_desc;
  chan : dma_channel
}.
Arguments mk_dma_state {K C}.
Arguments dbr {K C}.
Arguments dmem {K C}.
Arguments chan {K C}.

(** [tsi148_fill_dma_desc] on a descriptor: the return code and the contents. *)
Definition fill_desc (desc : vme_dma) (tsi : tsi148_dma_desc)
    (vme_addr dma_addr len src_at dst_at : Z) : Z * tsi148_dma_desc :=
  let tsi := tsi <| dsau := 0 |> <| ddau := 0 |> in
  let finish tsi :=
    (0, tsi <| dcnt := cpu_to_be32 len |> <| dsat := cpu_to_be32 src_at |>
            <| ddat := cpu_to_be32 dst_at |>
            <| dnlau := 0 |> <| dnlal := cpu_to_be32 TSI148_LCSR_DNLAL_LLA |>) in
  if dir desc =? VME_DMA_TO_DEVICE then
    finish (tsi <| dsal := cpu_to_be32 dma_addr |> <| ddal := cpu_to_be32 vme_addr |>
                <| ddbs := cpu_to_be32 (dma_bcast_select (dst desc)) |>)
  else if dir desc =? VME_DMA_FROM_DEVICE then
    finish (tsi <| dsal := cpu_to_be32 vme_addr |> <| ddal := cpu_to_be32 dma_addr |>
                <| ddbs := 0 |>)
  else (- EINVAL, tsi).

(** The length of the next block of a transfer of [len] bytes left over. *)
Definition block_len (bshift vme dma dma_end len : Z) : Z :=
  let len :=
    if truthy bshift then
      let bsize := tsi148_get_bsize bshift in
      let bmask := tsi148_get_bmask bsize in
      u32 (bsize - Z.land vme bmask)
    else len in
  if u64 (dma + len) >? dma_end then u32 (dma_end - dma) else len.

Section dma.
Context `{Kernel K} `{!DmaKernel K} `{ChipIO C}.
Notation D := (dma_state K C).

Definition on_bridge {A} (m : M (bridge K C) A) : M D A :=
  zoom dbr (λ b (s : D), s <| dbr := b |>) m.
Definition dcall {A} (f : K → A * K) : M D A := on_bridge (kcall f).
Definition ddo (f : K → K) : M D () := on_bridge (kdo f).
Definition dchip {A} (m : M C A) : M D A := on_bridge (on_chip m).

Definition get_chan : M D dma_channel := gets chan.
Definition set_chan (f : dma_channel → dma_channel) : M D () :=
  modify (λ s : D, s <| chan ::= f |>).

(** The descriptor at a virtual address; writing through NULL is stuck. *)
Definition upd_desc (va : Z) (f : tsi148_dma_desc → tsi148_dma_desc) : M D () :=
  if va =? 0 then stuck else
  modify (λ s : D, s <| dmem := <[va := f (default blank_desc (dmem s !! va))]> (dmem s) |>).

Definition tsi148_dma_get_status : M D Z :=
  ch ← get_chan; dchip (rd (DSTA (num ch))).

Definition tsi148_dma_busy : M D Z :=
  st ← tsi148_dma_get_status; mret (Z.land st TSI148_LCSR_DSTA_BSY).

Definition tsi148_dma_done : M D Z :=
  st ← tsi148_dma_get_status; mret (Z.land st TSI148_LCSR_DSTA_DON).

Definition tsi148_dma_free_chain : M D () :=
  ch ← get_chan;
  mfold (λ _ e,
    ddo (pci_pool_free (hd_va e) (hd_phys e));;
    set_chan (λ ch, ch <| hw_desc_list ::= tail |>);;
    ddo (kfree (hd_self e))) () (hw_desc_list ch).

(** The return code with the bus and the virtual address of the descriptor. *)
Definition hwdesc_init : M D (Z * Z * Z) :=
  '(virt, phys) ← dcall pci_pool_alloc;
  if virt =? 0 then mret (- ENOMEM, phys, virt) else
  modify (λ s : D, s <| dmem ::= delete virt |>);;
  entry ← dcall (kmalloc 32);
  if entry =? 0 then
    ddo (pci_pool_free virt phys);;
    mret (- ENOMEM, phys, virt)
  else
    set_chan (λ ch, ch <| hw_desc_list ::= λ l, l ++ [mk_hw_desc_entry entry virt phys] |>);;
    mret (0, phys, virt).

Definition tsi148_fill_dma_desc (tsi vme_addr dma_addr len src_at dst_at : Z) : M D Z :=
  ch ← get_chan;
  s ← gets dmem;
  let '(rc, d) := fill_desc (cdesc ch) (default blank_desc (s !! tsi))
                    vme_addr dma_addr len src_at dst_at in
  upd_desc tsi (λ _, d);;
  mret rc.

(** The [while] loop of [tsi148_dma_link_add]; [fuel] bounds the number of
    blocks, [index] and [numpages] tell whether more entries follow. *)
Fixpoint link_loop (fuel : nat) (numpages index bshift src_at dst_at : Z)
    (vme_end dma_end vme dma len curr next : Z) : M D (Z * Z) :=
  match fuel with
  | O => stuck
  | S fuel =>
    if negb ((vme <? vme_end) && (dma <? dma_end)) then mret (0, next) else
    let len := block_len bshift vme dma dma_end len in
    tsi148_fill_dma_desc curr vme dma len src_at dst_at;;
    ch ← get_chan;
    let vme := if negb (truthy (novmeinc (cdesc ch))) then u32 (vme + len) else vme in
    let dma := u64 (dma + len) in
    if (index <? numpages - 1) || (dma <? dma_end) then
      '(rc, phys_next, next) ← hwdesc_init;
      if truthy rc then mret (rc, next) else
      upd_desc curr (λ d, d <| dnlau := 0 |>
        <| dnlal := cpu_to_be32 (Z.land phys_next TSI148_LCSR_DNLAL_DNLAL_M) |>);;
      link_loop fuel numpages index bshift src_at dst_at vme_end dma_end vme dma len next next
    else
      link_loop fuel numpages index bshift src_at dst_at vme_end dma_end vme dma len next next
  end.

(** The return code and the new value of [*virt]. *)
Definition tsi148_dma_link_add (virt vme_addr dma_addr size numpages index bshift
    src_at dst_at : Z) : M D (Z * Z) :=
  (* BUG_ON *)
  if virt =? 0 then stuck else
  link_loop (S (Z.to_nat size)) numpages index bshift src_at dst_at
    (u32 (vme_addr + size)) (u64 (dma_addr + size)) vme_addr dma_addr size virt 0.

(** The [for_each_sg] loop of [tsi148_dma_setup_chain]. *)
Fixpoint chain_loop (l : list (Z * Z)) (numpages i bshift src_at dst_at vme_addr curr : Z)
    : M D Z :=
  match l with
  | [] => mret 0
  | (dma_addr, len) :: l =>
    '(rc, curr) ← tsi148_dma_link_add curr vme_addr dma_addr len numpages i bshift src_at dst_at;
    if truthy rc then mret rc else
    ch ← get_chan;
    let vme_addr := if negb (truthy (novmeinc (cdesc ch))) then u32 (vme_addr + len)
                    else vme_addr in
    chain_loop l numpages (i + 1) bshift src_at dst_at vme_addr curr
  end.

Definition tsi148_dma_setup_chain (src_at dst_at : Z) : M D Z :=
  ch ← get_chan;
  let bshift := tsi148_get_bshift (cdesc ch) in
  '(rc, phys_start, curr) ← hwdesc_init;
  if truthy rc then mret rc else
  match get_vmeaddr (cdesc ch) with
  | None => tsi148_dma_free_chain;; mret (- EINVAL)
  | Some vme_addr =>
    rc ← chain_loop (sg_bus ch) (sg_mapped ch) 0 bshift src_at dst_at vme_addr curr;
    if truthy rc then tsi148_dma_free_chain;; mret rc else
    dchip (wr 0 (DNLAU (num ch)));;
    dchip (wr (u32 (Z.land phys_start TSI148_LCSR_DNLAL_DNLAL_M)) (DNLAL (num ch)));;
    mret 0
  end.

Definition tsi148_dma_setup : M D Z :=
  ch ← get_chan;
  let desc := cdesc ch in
  let src_at := tsi148_dma_setup_src desc in
  if src_at <? 0 then mret src_at else
  let dst_at := tsi148_dma_setup_dst desc in
  if dst_at <? 0 then mret dst_at else
  let dctl := tsi148_dma_setup_ctl desc in
  if dctl <? 0 then mret dctl else
  set_chan (λ ch, ch <| chained := 1 |>);;
  dchip (wr (Z.land dctl (u32 (Z.lnot TSI148_LCSR_DCTL_MOD))) (DCTL (num ch)));;
  tsi148_dma_setup_chain src_at dst_at.

Definition tsi148_dma_start : M D () :=
  ch ← get_chan;
  dctl ← dchip (rd (DCTL (num ch)));
  dchip (wr (Z.lor dctl TSI148_LCSR_DCTL_DGO) (DCTL (num ch))).

Definition tsi148_dma_abort : M D () :=
  ch ← get_chan;
  dctl ← dchip (rd (DCTL (num ch)));
  dchip (wr (Z.lor dctl TSI148_LCSR_DCTL_ABT) (DCTL (num ch))).

Definition tsi148_dma_release : M D () :=
  ch ← get_chan;
  if truthy (chained ch) then tsi148_dma_free_chain else mret ().
End dma.

(** * What the chip does with a chain *)

(** One block: VME address, bus address, length. *)
Definition block : Type := Z * Z * Z.

(** The chip follows the links from [link] until one has the last-link bit,
    among the descriptors [l]. *)
Fixpoint hw_walk (fuel : nat) (mem : gmap Z tsi148_dma_desc) (l : list hw_desc_entry)
    (link : Z) : option (list tsi148_dma_desc) :=
  match fuel with
  | O => None
  | S fuel =>
    if Z.testbit link 0 then Some [] else
    e ← find_idx (λ e, hd_phys e =? Z.land link TSI148_LCSR_DNLAL_DNLAL_M) l ≫= (l !!.);
    d ← mem !! hd_va e;
    ds ← hw_walk fuel mem l (dnlal d);
    mret (d :: ds)
  end.

(** The block a descriptor tells the chip to move. *)
Definition desc_block (desc : vme_dma) (d : tsi148_dma_desc) : block :=
  if dir desc =? VME_DMA_TO_DEVICE then (ddal d, dsal d, dcnt d) else (dsal d, ddal d, dcnt d).

(** The blocks [l] move the [len] bytes at bus address [dma] to or from VME
    address [vme], in order and without gap; with [novmeinc] the VME address
    stays. *)
Inductive moves (noinc : bool) : Z → Z → Z → list block → Prop :=
  | moves_nil vme dma : moves noinc vme dma 0 []
  | moves_cons vme dma len n l :
      0 < n <= len →
      moves noinc (if noinc then vme else vme + n) (dma + n) (len - n) l →
      moves noinc vme dma len ((vme, dma, n) :: l).

(** ... and so for each entry of a scatter list. *)
Inductive moves_all (noinc : bool) : Z → list (Z * Z) → list block → Prop :=
  | moves_all_nil vme : moves_all noinc vme [] []
  | moves_all_cons vme dma len es l ls :
      moves noinc vme dma len l →
      moves_all noinc (if noinc then vme else vme + len) es ls →
      moves_all noinc vme ((dma, len) :: es) (l ++ ls).

(** A block keeps to rules 2.12a and 2.78 of the VME64 standard. *)
Definition block_ok (bshift : Z) (b : block) : Prop :=
  bshift ≠ 0 → b.1.1 mod 2 ^ bshift + b.2 <= 2 ^ bshift.
