(* ===== verification/Tsi148DmaProofs.v ===== *)
(** The descriptor chain built for a DMA transfer: allocation bookkeeping, the
    loop over blocks, the loop over the scatter list. *)
From S2P Require Import Prelude VmeBus Tsi148Regs Tsi148Attr KernelIf VmeMisc Tsi148Dma.

Local Open Scope Z_scope.

Definition desc_res (e : hw_desc_entry) : gmultiset resource :=
  {[+ Block (hd_self e) +]} ⊎ {[+ Pool (hd_va e) (hd_phys e) +]}.

Definition descs_res (l : list hw_desc_entry) : gmultiset resource :=
  foldr (λ e m, desc_res e ⊎ m) ∅ l.

Lemma descs_res_app l l' : descs_res (l ++ l') = descs_res l ⊎ descs_res l'.
Proof. induction l as [|e l IH]; simpl; [|rewrite IH]; multiset_solver. Qed.

Definition entry_ok (e : hw_desc_entry) : Prop :=
  0 < hd_va e ∧ is_u32 (hd_phys e) ∧ hd_phys e mod 8 = 0.

(** Descriptors of one channel do not overlap. *)
Definition uniq (l : list hw_desc_entry) : Prop :=
  NoDup (hd_va <$> l) ∧ NoDup (hd_phys <$> l) ∧ Forall entry_ok l.

(** A descriptor that moves block [b]. *)
Definition fills (desc : vme_dma) (sa da : Z) (d : tsi148_dma_desc) (b : block) : Prop :=
  desc_block desc d = b ∧ dsau d = 0 ∧ ddau d = 0 ∧ dnlau d = 0 ∧ dsat d = u32 sa ∧ ddat d = u32 da.

(** The descriptors at [l] move the blocks [bl], each linked to the next and
    the last one to [tl]. *)
Fixpoint links desc sa da (mem : gmap Z tsi148_dma_desc) (l : list hw_desc_entry)
    (bl : list block) (tl : Z) : Prop :=
  match l, bl with
  | [], [] => True
  | e :: l, b :: bl =>
      (∃ d, mem !! hd_va e = Some d ∧ fills desc sa da d b ∧
         dnlal d = match l with [] => tl | e' :: _ => hd_phys e' end) ∧
      links desc sa da mem l bl tl
  | _, _ => False
  end.

Section links.
Context (desc : vme_dma) (sa da : Z).
Notation links := (links desc sa da).

Lemma links_snoc mem l bl e b tl :
  links mem l bl (hd_phys e) →
  (∃ d, mem !! hd_va e = Some d ∧ fills desc sa da d b ∧ dnlal d = tl) →
  links mem (l ++ [e]) (bl ++ [b]) tl.
Proof.
  revert bl. induction l as [|x l IH]; intros [|y bl] Hl Hd; simpl in *; try done.
  destruct Hl as [(d & Hm & Hf & Hn) Hl]. split; [|by apply IH].
  exists d. split_and!; try done. by destruct l.
Qed.

Lemma links_mem mem mem' l bl tl :
  (∀ e, e ∈ l → mem' !! hd_va e = mem !! hd_va e) → links mem l bl tl → links mem' l bl tl.
Proof.
  revert bl. induction l as [|x l IH]; intros [|y bl] Hm Hl; simpl in *; try done.
  destruct Hl as [(d & Hd & Hr) Hl]. split.
  - exists d. rewrite Hm by set_solver. done.
  - apply IH; [|done]. intros e He. apply Hm. set_solver.
Qed.

Lemma links_length mem l bl tl : links mem l bl tl → length l = length bl.
Proof.
  revert bl. induction l as [|x l IH]; intros [|y bl] Hl; simpl in *; try done.
  destruct Hl as [_ Hl]. f_equal. by apply IH.
Qed.
End links.

Lemma phys_link p : is_u32 p → p mod 8 = 0 →
  cpu_to_be32 (Z.land p TSI148_LCSR_DNLAL_DNLAL_M) = p ∧
  Z.land p TSI148_LCSR_DNLAL_DNLAL_M = p ∧ Z.testbit p 0 = false.
Proof.
  intros Hp H8.
  assert (E : Z.land p TSI148_LCSR_DNLAL_DNLAL_M = p).
  { change TSI148_LCSR_DNLAL_DNLAL_M with (Z.land 0xffffffff (Z.lnot (Z.ones 3))).
    rewrite Z.land_assoc. change 0xffffffff with (Z.ones 32).
    rewrite Z.land_ones by lia. rewrite Z.mod_small by (by apply Hp).
    by apply clear_low_id. }
  rewrite E. split_and!; [by apply u32_small|done|].
  rewrite Z.bit0_odd.
  rewrite <- Z.negb_even. apply negb_false_iff. rewrite Z.even_spec.
  exists (p / 2). Z.div_mod_to_equations. lia.
Qed.

(** The chip walks exactly the linked descriptors. *)
Lemma hw_walk_links desc sa da mem l l1 l2 bl :
  l = l1 ++ l2 → uniq l → links desc sa da mem l2 bl TSI148_LCSR_DNLAL_LLA →
  ∃ ds, hw_walk (S (length l2)) mem l
          match l2 with [] => TSI148_LCSR_DNLAL_LLA | e :: _ => hd_phys e end = Some ds ∧
        Forall2 (fills desc sa da) ds bl.
Proof.
  intros -> Hu. revert l1 bl Hu. induction l2 as [|e l2 IH]; intros l1 [|b bl] Hu Hl; simpl in Hl;
    try done.
  { by exists []. }
  destruct Hl as [(d & Hd & Hf & Hn) Hl].
  destruct (IH (l1 ++ [e]) bl) as (ds & Hw & HF); [by rewrite <- app_assoc|done|].
  rewrite <- app_assoc in Hw. simpl app in Hw. rewrite <- Hn in Hw.
  assert (He : entry_ok e).
  { destruct Hu as (_ & _ & Hok). rewrite List.Forall_forall in Hok. apply Hok.
    apply in_or_app. right. by left. }
  destruct He as (_ & Hp & H8). destruct (phys_link _ Hp H8) as (_ & E & Eb).
  exists (d :: ds). split; [|by constructor].
  change (length (e :: l2)) with (S (length l2)). cbn [hw_walk]. rewrite Eb, E.
  assert (Hfind : find_idx (λ e', hd_phys e' =? hd_phys e) (l1 ++ e :: l2) = Some (length l1)).
  { apply find_idx_lookup. split.
    - exists e. split; [by apply list_lookup_middle|apply Z.eqb_refl].
    - intros j x Hj Hx. apply Z.eqb_neq. intros Heq. destruct Hu as (_ & Hu & _).
      assert (j = length l1); [|lia].
      eapply (NoDup_lookup _ _ _ (hd_phys e) Hu).
      + rewrite list_lookup_fmap, Hx. simpl. by rewrite Heq.
      + rewrite list_lookup_fmap, list_lookup_middle by done. done. }
  rewrite Hfind. cbn [mbind option_bind]. rewrite list_lookup_middle by done.
  cbn [mbind option_bind]. rewrite Hd. cbn [mbind option_bind].
  cbn [hw_walk] in Hw. rewrite Hw. done.
Qed.

Lemma desc_res_in e l : e ∈ l → Pool (hd_va e) (hd_phys e) ∈ descs_res l.
Proof.
  induction l as [|x l IH]; intros He; [by apply not_elem_of_nil in He|].
  simpl. unfold desc_res. apply elem_of_cons in He as [->|He]; [multiset_solver|].
  specialize (IH He). multiset_solver.
Qed.

Section proofs.
Context `{KernelLaws K} `{!DmaKernel K} `{!DmaKernelLaws K} `{ChipIO C}.
Implicit Types (k : K) (c : C) (v : vme_verr) (mem : gmap Z tsi148_dma_desc) (ch : dma_channel).
Notation D := (dma_state K C).
Definition DS k c v mem ch : D := mk_dma_state (mk_bridge k c v) mem ch.

Lemma wp_dcall {A} (f : K → A * K) (Q : A → D → Prop) k c v mem ch :
  Q (f k).1 (DS (f k).2 c v mem ch) → wp (dcall f) Q (DS k c v mem ch).
Proof.
  intros HQ. unfold dcall, on_bridge, kcall, wp, zoom, DS. simpl.
  unfold DS in HQ. by destruct (f k).
Qed.

Lemma wp_ddo (f : K → K) (Q : () → D → Prop) k c v mem ch :
  Q () (DS (f k) c v mem ch) → wp (ddo f) Q (DS k c v mem ch).
Proof. done. Qed.

Lemma wp_dchip {A} (m : M C A) (Q : A → D → Prop) k c v mem ch :
  wp m (λ x c', Q x (DS k c' v mem ch)) c → wp (dchip m) Q (DS k c v mem ch).
Proof.
  intros HQ. unfold dchip, on_bridge, on_chip, wp, zoom, DS in *. simpl.
  by destruct (m c) as [[]|].
Qed.

Lemma wp_get_chan (Q : dma_channel → D → Prop) k c v mem ch :
  Q ch (DS k c v mem ch) → wp get_chan Q (DS k c v mem ch).
Proof. done. Qed.

Lemma wp_set_chan f (Q : () → D → Prop) k c v mem ch :
  Q () (DS k c v mem (f ch)) → wp (set_chan f) Q (DS k c v mem ch).
Proof. done. Qed.

Lemma wp_upd_desc va f (Q : () → D → Prop) k c v mem ch :
  0 < va → Q () (DS k c v (<[va := f (default blank_desc (mem !! va))]> mem) ch) →
  wp (upd_desc va f) Q (DS k c v mem ch).
Proof. intros Hva HQ. unfold upd_desc. destruct (Z.eqb_spec va 0); [lia|done]. Qed.

(** What a channel holds, apart from [R]. *)
Definition holds (R : gmultiset resource) k (l : list hw_desc_entry) : Prop :=
  live k = descs_res l ⊎ R ∧ uniq l.

Lemma holds_snoc R k l e k' :
  holds R k l → entry_ok e →
  live k' = desc_res e ⊎ live k →
  (∀ va phys, Pool va phys ∈ live k → va ≠ hd_va e ∧ phys ≠ hd_phys e) →
  holds R k' (l ++ [e]).
Proof.
  intros [Hl (U1 & U2 & U3)] He Hk Hfresh. split.
  - rewrite Hk, Hl, descs_res_app. simpl. multiset_solver.
  - assert (Hne : ∀ x, x ∈ l → hd_va x ≠ hd_va e ∧ hd_phys x ≠ hd_phys e).
    { intros x Hx. apply Hfresh. rewrite Hl. apply desc_res_in in Hx. multiset_solver. }
    split_and!.
    + rewrite fmap_app. apply list.NoDup_app. split; [done|]. split; [|apply NoDup_singleton].
      intros a (x & -> & Hx)%list_elem_of_fmap. simpl. destruct (Hne x Hx). set_solver.
    + rewrite fmap_app. apply list.NoDup_app. split; [done|]. split; [|apply NoDup_singleton].
      intros a (x & -> & Hx)%list_elem_of_fmap. simpl. destruct (Hne x Hx). set_solver.
    + apply Forall_app_2; [done|]. by constructor.
Qed.

Definition with_hw ch l : dma_channel := ch <| hw_desc_list := l |>.

Lemma wp_hwdesc_init R (Q : Z * Z * Z → D → Prop) k c v mem ch :
  holds R k (hw_desc_list ch) →
  (∀ phys virt k' mem', live k' = live k →
     Q (- ENOMEM, phys, virt) (DS k' c v mem' ch)) →
  (∀ e k', holds R k' (hw_desc_list ch ++ [e]) → entry_ok e →
     Q (0, hd_phys e, hd_va e)
       (DS k' c v (delete (hd_va e) mem) (with_hw ch (hw_desc_list ch ++ [e])))) →
  wp hwdesc_init Q (DS k c v mem ch).
Proof.
  intros Hh HF HS. unfold hwdesc_init. wp_step. apply wp_dcall.
  pose proof (pool_alloc_live k) as Hp. destruct (pci_pool_alloc k) as [[virt phys] k1].
  simpl fst. simpl snd. destruct Hp as [[-> Hk1]|(Hva & Hph & H8 & Hk1 & Hfresh)].
  { change (0 =? 0) with true. cbv iota. wp_step. by apply HF. }
  destruct (Z.eqb_spec virt 0); [lia|]. wp_step. wp_step. wp_step.
  change ((DS k1 c v mem ch) <| dmem ::= delete virt |>) with (DS k1 c v (delete virt mem) ch).
  apply wp_dcall.
  pose proof (kmalloc_live 32 k1) as Hm. destruct (kmalloc 32 k1) as [a k2]. simpl fst in *. simpl snd in *.
  destruct Hm as [[-> Hk2]|(Ha & _ & Hk2)].
  - change (0 =? 0) with true. cbv iota. wp_step. apply wp_ddo. wp_step. apply HF.
    rewrite pool_free_live, Hk2, Hk1. multiset_solver.
  - destruct (Z.eqb_spec a 0); [lia|]. wp_step. apply wp_set_chan. wp_step.
    apply (HS (mk_hw_desc_entry a virt phys)); [|done].
    eapply holds_snoc; [exact Hh|done| |exact Hfresh].
    rewrite Hk2, Hk1. unfold desc_res. simpl. multiset_solver.
Qed.

Lemma wp_free_chain R (Q : () → D → Prop) k c v mem ch :
  live k = descs_res (hw_desc_list ch) ⊎ R →
  (∀ k', live k' = R → Q () (DS k' c v mem (with_hw ch []))) →
  wp tsi148_dma_free_chain Q (DS k c v mem ch).
Proof.
  intros Hl HQ. unfold tsi148_dma_free_chain. wp_step. apply wp_get_chan.
  eapply wp_mono.
  - apply (wp_mfold _ (λ l _ s, ∃ k', s = DS k' c v mem (with_hw ch l) ∧
      live k' = descs_res l ⊎ R)).
    + intros e l [] s (k1 & -> & Hk1). wp_step. apply wp_ddo. wp_step. apply wp_set_chan.
      apply wp_ddo. eexists. split; [done|]. rewrite kfree_live, pool_free_live, Hk1. simpl.
      unfold desc_res. multiset_solver.
    + exists k. split; [|done]. by destruct ch.
  - intros [] s (k' & -> & Hk'). apply HQ. rewrite Hk'. simpl. multiset_solver.
Qed.
End proofs.
