(* ===== verification/Tsi148DmaChain.v ===== *)
(** The chain of descriptors that [tsi148_dma_setup] builds moves exactly the
    requested bytes, in blocks the VME standard allows, and a failed setup gives
    everything back. *)
From S2P Require Import Prelude VmeBus Tsi148Regs Tsi148Attr KernelIf VmeMisc Tsi148Dma.
From S2P Require Import Tsi148DmaProofs.

Local Open Scope Z_scope.

(** The next block: not empty, within what is left and within a VME block. *)
Lemma block_len_facts bshift vme dma rem len :
  0 <= bshift <= 31 → 0 <= vme → 0 <= dma → 0 < rem < 2 ^ 32 → dma + rem <= 2 ^ 32 →
  (bshift = 0 → len = rem) →
  let n := block_len bshift vme dma (dma + rem) len in
  0 < n <= rem ∧ (bshift = 0 → n = rem) ∧ (bshift ≠ 0 → vme mod 2 ^ bshift + n <= 2 ^ bshift).
Proof.
  intros Hb Hv Hd Hr Hdr Hlen n. subst n. unfold block_len.
  destruct (truthy bshift) eqn:Eb; unfold truthy in Eb;
    destruct (Z.eqb_spec bshift 0) as [->|Hb0]; try done; cbv iota.
  - unfold tsi148_get_bmask, tsi148_get_bsize. rewrite Z.shiftl_1_l.
    replace (2 ^ bshift - 1) with (Z.ones bshift) by (rewrite Z.ones_equiv; lia).
    rewrite Z.land_ones by lia.
    assert (Hp : 0 < 2 ^ bshift <= 2 ^ 31).
    { split; [lia|]. apply Z.pow_le_mono_r; lia. }
    pose proof (Z.mod_pos_bound vme (2 ^ bshift) ltac:(lia)) as Hm.
    rewrite (u32_small (2 ^ bshift - _)) by (unfold is_u32; lia).
    unfold u64. rewrite Z.mod_small by lia.
    destruct (Z.gtb_spec (dma + (2 ^ bshift - vme mod 2 ^ bshift)) (dma + rem)).
    + replace (dma + rem - dma) with rem by lia. rewrite u32_small by (unfold is_u32; lia). lia.
    + lia.
  - rewrite (Hlen eq_refl). unfold u64. rewrite Z.mod_small by lia.
    destruct (Z.gtb_spec (dma + rem) (dma + rem)); lia.
Qed.

Definition noinc (desc : vme_dma) : bool := truthy (novmeinc desc).

Section proofs.
Context `{KernelLaws K} `{!DmaKernel K} `{!DmaKernelLaws K} `{ChipIO C}.
Implicit Types (k : K) (c : C) (v : vme_verr) (mem : gmap Z tsi148_dma_desc) (ch : dma_channel).
Notation D := (dma_state K C).

Definition dir_ok (desc : vme_dma) : Prop :=
  dir desc = VME_DMA_TO_DEVICE ∨ dir desc = VME_DMA_FROM_DEVICE.

Lemma fill_desc_fills desc old vme dma n sa da :
  dir_ok desc → is_u32 vme → 0 <= dma < 2 ^ 32 → is_u32 n →
  let r := fill_desc desc old vme dma n sa da in
  fills desc sa da r.2 (vme, dma, n) ∧ dnlal r.2 = TSI148_LCSR_DNLAL_LLA.
Proof.
  intros Hdir Hv Hd Hn. unfold fill_desc, fills, desc_block.
  destruct Hdir as [->| ->]; cbn -[u32]; unfold cpu_to_be32;
    rewrite !(u32_small vme), !(u32_small dma), !(u32_small n) by done; by split_and!.
Qed.

Lemma wp_fill tsi vme dma n sa da (Q : Z → D → Prop) k c v mem ch :
  0 < tsi → dir_ok (cdesc ch) → is_u32 vme → 0 <= dma < 2 ^ 32 → is_u32 n →
  (∀ rc d, fills (cdesc ch) sa da d (vme, dma, n) → dnlal d = TSI148_LCSR_DNLAL_LLA →
     Q rc (DS k c v (<[tsi := d]> mem) ch)) →
  wp (tsi148_fill_dma_desc tsi vme dma n sa da) Q (DS k c v mem ch).
Proof.
  intros Ht Hdir Hv Hd Hn HQ. unfold tsi148_fill_dma_desc. wp_step. apply wp_get_chan.
  wp_step. wp_step. change (dmem (DS k c v mem ch)) with mem.
  pose proof (fill_desc_fills (cdesc ch) (default blank_desc (mem !! tsi)) vme dma n sa da
                Hdir Hv Hd Hn) as [Hf Hl].
  destruct (fill_desc _ _ _ _ _ _ _) as [rc d]. cbv iota. wp_step.
  apply wp_upd_desc; [done|]. wp_step. by apply HQ.
Qed.

(** The state of the chain while the next descriptor [e] is still to be filled:
    the descriptors before it are linked up to it. *)
Definition open_chain R k sa da mem ch (bl : list block) (e : hw_desc_entry) : Prop :=
  ∃ l, hw_desc_list ch = l ++ [e] ∧ holds R k (hw_desc_list ch) ∧
    links (cdesc ch) sa da mem l bl (hd_phys e).

Definition closed_chain R k sa da mem ch (bl : list block) : Prop :=
  holds R k (hw_desc_list ch) ∧
  links (cdesc ch) sa da mem (hw_desc_list ch) bl TSI148_LCSR_DNLAL_LLA.

Lemma uniq_last l e x : uniq (l ++ [e]) → x ∈ l → hd_va x ≠ hd_va e.
Proof.
  intros (U & _) Hx Heq. rewrite fmap_app in U. apply list.NoDup_app in U as (_ & U & _).
  apply (U (hd_va x)); [by apply list_elem_of_fmap_2|]. rewrite Heq. set_solver.
Qed.

Lemma uniq_last_ok l e : uniq (l ++ [e]) → entry_ok e.
Proof. intros (_ & _ & U). apply Forall_app in U as [_ U]. by apply Forall_cons_1 in U as [? _]. Qed.

(** Filling the open descriptor as the last one. *)
Lemma chain_close R k sa da mem ch bl e b d :
  open_chain R k sa da mem ch bl e → fills (cdesc ch) sa da d b →
  dnlal d = TSI148_LCSR_DNLAL_LLA →
  closed_chain R k sa da (<[hd_va e := d]> mem) ch (bl ++ [b]).
Proof.
  intros (l & Hl & Hh & Hlinks) Hf Hd. split; [done|]. rewrite Hl. apply links_snoc.
  - eapply links_mem; [|exact Hlinks]. intros x Hx. apply lookup_insert_ne.
    rewrite Hl in Hh. destruct Hh as [_ Hu]. intros Heq. by apply (uniq_last l e x).
  - exists d. rewrite lookup_insert_eq. done.
Qed.

(** Linking the last descriptor to a new one. *)
Lemma chain_extend R k sa da mem ch bl e b d k' e' :
  open_chain R k sa da mem ch bl e → fills (cdesc ch) sa da d b →
  holds R k' (hw_desc_list ch ++ [e']) →
  open_chain R k' sa da
    (<[hd_va e := d <| dnlau := 0 |>
        <| dnlal := cpu_to_be32 (Z.land (hd_phys e') TSI148_LCSR_DNLAL_DNLAL_M) |> ]>
      (delete (hd_va e') (<[hd_va e := d]> mem)))
    (with_hw ch (hw_desc_list ch ++ [e'])) (bl ++ [b]) e'.
Proof.
  intros (l & Hl & Hh & Hlinks) Hf Hh'. exists (hw_desc_list ch). split; [done|].
  split; [done|]. change (cdesc (with_hw ch (hw_desc_list ch ++ [e']))) with (cdesc ch).
  destruct Hh' as [_ Hu']. pose proof (uniq_last_ok _ _ Hu') as (_ & Hp & H8).
  rewrite (proj1 (phys_link _ Hp H8)).
  pose proof (λ x, uniq_last (hw_desc_list ch) e' x Hu') as Hne'.
  destruct Hh as [_ Hu]. rewrite Hl in Hu |- *. apply links_snoc.
  - eapply links_mem; [|exact Hlinks]. intros x Hx.
    assert (hd_va e ≠ hd_va x) by (intros Heq; by apply (uniq_last l e x)).
    assert (hd_va e' ≠ hd_va x).
    { intros Heq. apply (Hne' x); [rewrite Hl; set_solver|done]. }
    by rewrite lookup_insert_ne, lookup_delete_ne, lookup_insert_ne.
  - eexists. rewrite lookup_insert_eq. split; [done|]. split; [|done].
    destruct Hf as (? & ? & ? & ? & ? & ?). by split_and!.
Qed.

(** The loop over the blocks of one entry.  [rem] bytes are left; the entry is
    the last of the list unless [index <? numpages - 1]. *)
Definition link_post R sa da numpages index bshift vme dma rem bl ch c v
    (r : Z * Z) (s : D) : Prop :=
  ∃ k' mem' l', s = DS k' c v mem' (with_hw ch l') ∧ hw_desc_list ch `prefix_of` l' ∧
    ((r.1 = - ENOMEM ∧ holds R k' l') ∨
     (r.1 = 0 ∧ ∃ bs, moves (noinc (cdesc ch)) vme dma rem bs ∧ Forall (block_ok bshift) bs ∧
        if index <? numpages - 1 then
          ∃ e', r.2 = hd_va e' ∧ open_chain R k' sa da mem' (with_hw ch l') (bl ++ bs) e'
        else closed_chain R k' sa da mem' (with_hw ch l') (bl ++ bs))).

Lemma wp_link_loop fuel R sa da numpages index bshift vme_end vme dma rem len e next bl k c v mem ch :
  (Z.to_nat rem < fuel)%nat → 0 < rem < 2 ^ 32 → 0 <= dma → dma + rem <= 2 ^ 32 →
  is_u32 vme → is_u32 vme_end →
  (if noinc (cdesc ch) then vme < vme_end else vme_end = vme + rem) →
  0 <= bshift <= 31 → (bshift = 0 → len = rem) →
  dir_ok (cdesc ch) → open_chain R k sa da mem ch bl e →
  wp (link_loop fuel numpages index bshift sa da vme_end (dma + rem) vme dma len (hd_va e) next)
    (link_post R sa da numpages index bshift vme dma rem bl ch c v)
    (DS k c v mem ch).
Proof.
  revert vme dma rem len e next bl k mem ch.
  induction fuel as [|fuel IH]; intros vme dma rem len e next bl k mem ch Hfuel Hrem Hdma Hde
    Hv Hve Hvend Hb Hlen Hdir Hopen; [lia|].
  assert (Hlt : vme < vme_end) by (destruct (noinc (cdesc ch)); lia).
  cbn [link_loop]. rewrite (proj2 (Z.ltb_lt vme vme_end)) by done.
  rewrite (proj2 (Z.ltb_lt dma (dma + rem))) by lia. cbn [andb negb]. cbv iota zeta.
  destruct (block_len_facts bshift vme dma rem len) as (Hn & Hn0 & Hnb); try done; [by apply Hv|].
  set (n := block_len bshift vme dma (dma + rem) len) in *. clearbody n.
  assert (He : 0 < hd_va e).
  { destruct Hopen as (l & Hl & [_ Hu] & _). rewrite Hl in Hu. by apply uniq_last_ok in Hu as [? _]. }
  wp_step. apply wp_fill; [done..|lia|unfold is_u32; lia|]. intros rc d Hf Hd. wp_step.
  apply wp_get_chan.
  change (truthy (novmeinc (cdesc ch))) with (noinc (cdesc ch)).
  assert (Hvme' : (if negb (noinc (cdesc ch)) then u32 (vme + n) else vme) =
                  if noinc (cdesc ch) then vme else vme + n).
  { revert Hvend. destruct (noinc (cdesc ch)); intros; [done|]. apply u32_small. unfold is_u32 in *. simpl. lia. }
  rewrite Hvme'. unfold u64. rewrite (Z.mod_small (dma + n)) by lia.
  set (vme' := if noinc (cdesc ch) then vme else vme + n) in *.
  replace (dma + n <? dma + rem) with (negb (rem - n =? 0)).
  2: { destruct (Z.eqb_spec (rem - n) 0), (Z.ltb_spec (dma + n) (dma + rem)); lia || done. }
  assert (Hblk : block_ok bshift (vme, dma, n)) by done.
  destruct ((index <? numpages - 1) || negb (rem - n =? 0)) eqn:Emore; cbv iota.
  - (* a new descriptor is linked in *)
    wp_step. eapply wp_hwdesc_init; [by destruct Hopen as (l & Hl & Hh & _)|..].
    { intros phys virt k' mem' Hk'. cbv beta iota. change (truthy (- ENOMEM)) with true.
      cbv iota. wp_step.
      exists k', mem', (hw_desc_list ch). split; [by destruct ch|]. split; [done|]. left. split; [done|].
      destruct Hopen as (l & _ & [Hl Hu] & _). by split; [rewrite Hk'|]. }
    intros e' k' Hh' He'. cbv beta iota. change (truthy 0) with false. cbv iota.
    wp_step. apply wp_upd_desc; [done|].
    assert (Hne : hd_va e ≠ hd_va e').
    { apply (uniq_last (hw_desc_list ch)); [by destruct Hh'|].
      destruct Hopen as (l & -> & _). set_solver. }
    rewrite lookup_delete_ne, lookup_insert_eq by done. simpl default.
    pose proof (chain_extend R k sa da mem ch bl e _ d k' e' Hopen Hf Hh') as Hopen'.
    destruct (Z.eqb_spec (rem - n) 0) as [Ez|Ez].
    + (* the entry is done *)
      destruct fuel as [|fuel]; [lia|]. cbn [link_loop].
      rewrite (proj2 (Z.ltb_ge (dma + n) (dma + rem))) by lia.
      rewrite andb_false_r. cbn [negb]. cbv iota. wp_step.
      eexists _, _, _. split; [reflexivity|]. split; [by apply prefix_app_r|].
      right. split; [done|]. exists [(vme, dma, n)].
      split; [|split; [by constructor|]].
      { constructor; [lia|]. replace (rem - n) with 0 by lia. constructor. }
      rewrite orb_false_r in Emore. rewrite Emore. exists e'. done.
    + replace (dma + rem) with ((dma + n) + (rem - n)) by lia.
      eapply wp_mono; [apply (IH vme' (dma + n) (rem - n) n e'); try done; try lia|].
      * revert Hvend. subst vme'. destruct (noinc (cdesc ch)); intros; [done|]. unfold is_u32 in *. lia.
      * change (cdesc (with_hw ch _)) with (cdesc ch). revert Hvend. subst vme'.
        destruct (noinc (cdesc ch)); intros; lia.
      * intros r s (k2 & mem2 & l2 & -> & Hpre & Hr). exists k2, mem2, l2. split; [done|].
        split; [eapply prefix_app_l; exact Hpre|].
        destruct Hr as [Hr|(Hrc & bs & Hmv & Hbs & Hr)]; [by left|right]. split; [done|].
        exists ((vme, dma, n) :: bs). split; [by constructor|]. split; [by constructor|].
        rewrite <- app_assoc in Hr. exact Hr.
  - apply orb_false_iff in Emore as [Emore Ez]. apply negb_false_iff, Z.eqb_eq in Ez.
    destruct fuel as [|fuel]; [lia|]. cbn [link_loop].
    rewrite (proj2 (Z.ltb_ge (dma + n) (dma + rem))) by lia.
    rewrite andb_false_r. cbn [negb]. cbv iota. wp_step.
    eexists _, _, (hw_desc_list ch). split; [by destruct ch|]. split; [done|]. right. split; [done|].
    exists [(vme, dma, n)]. split; [|split; [by constructor|]].
    { constructor; [lia|]. replace (rem - n) with 0 by lia. constructor. }
    rewrite Emore. replace (with_hw ch (hw_desc_list ch)) with ch by (by destruct ch).
    by eapply chain_close.
Qed.

(** A mapped entry, as [pci_map_sg] returns them. *)
Definition bus_ok (e : Z * Z) : Prop := 0 <= e.1 ∧ 0 < e.2 ∧ e.1 + e.2 <= 2 ^ 32.

Lemma bus_total_pos es : Forall bus_ok es → 0 <= zsum snd es.
Proof.
  induction es as [|e es IH]; intros He; simpl; [lia|].
  apply Forall_cons_1 in He as [(_ & ? & _) He]. specialize (IH He). lia.
Qed.

Definition all_post R sa da bshift vme es bl ch c v (rc : Z) (s : D) : Prop :=
  ∃ k' mem' l', s = DS k' c v mem' (with_hw ch l') ∧ hw_desc_list ch `prefix_of` l' ∧
    ((rc = - ENOMEM ∧ holds R k' l') ∨
     (rc = 0 ∧ ∃ bs, moves_all (noinc (cdesc ch)) vme es bs ∧ Forall (block_ok bshift) bs ∧
        closed_chain R k' sa da mem' (with_hw ch l') (bl ++ bs))).

Lemma wp_chain_loop es R sa da numpages i bshift vme e bl k c v mem ch :
  es ≠ [] → i + Z.of_nat (length es) = numpages → Forall bus_ok es →
  0 <= vme → vme + zsum snd es < 2 ^ 32 → 0 <= bshift <= 31 → dir_ok (cdesc ch) →
  open_chain R k sa da mem ch bl e →
  wp (chain_loop es numpages i bshift sa da vme (hd_va e))
    (all_post R sa da bshift vme es bl ch c v) (DS k c v mem ch).
Proof.
  revert i vme e bl k mem ch.
  induction es as [|[dma size] es IH]; intros i vme e bl k mem ch Hne Hnum Hes Hv Htot Hb Hdir Hopen;
    [done|].
  apply Forall_cons_1 in Hes as [(Hd & Hsz & Hde) Hes]. simpl in Hd, Hsz, Hde.
  pose proof (bus_total_pos es Hes) as Hpos. simpl in Htot.
  cbn [chain_loop]. wp_step. unfold tsi148_dma_link_add.
  assert (He : 0 < hd_va e).
  { destruct Hopen as (l & Hl & [_ Hu] & _). rewrite Hl in Hu. by apply uniq_last_ok in Hu as [? _]. }
  destruct (Z.eqb_spec (hd_va e) 0) as [?|_]; [lia|].
  rewrite (u32_small (vme + size)) by (unfold is_u32; lia).
  unfold u64. rewrite Z.mod_small by lia.
  eapply wp_mono.
  { apply (wp_link_loop _ R sa da numpages i bshift (vme + size) vme dma size size e 0 bl);
      try done; try lia; [unfold is_u32; lia..|]. destruct (noinc (cdesc ch)); lia. }
  intros [rc curr] s (k1 & mem1 & l1 & -> & Hpre & Hr). simpl fst in Hr. simpl snd in Hr. cbv beta iota.
  destruct Hr as [[-> Hh]|(-> & bs & Hmv & Hbs & Hr)].
  { change (truthy (- ENOMEM)) with true. cbv iota. wp_step. exists k1, mem1, l1.
    split; [done|]. split; [done|]. by left. }
  change (truthy 0) with false. cbv iota. wp_step. apply wp_get_chan. cbv beta zeta.
  change (truthy (novmeinc (cdesc (with_hw ch l1)))) with (noinc (cdesc ch)).
  replace (if negb (noinc (cdesc ch)) then vme + size else vme) with
    (if noinc (cdesc ch) then vme else vme + size) by (by destruct (noinc (cdesc ch))).
  destruct (Z.ltb_spec i (numpages - 1)) as [Hmore|Hlast].
  - destruct Hr as (e' & -> & Hopen'). eapply wp_mono.
    + apply (IH (i + 1) _ e' (bl ++ bs)); try done.
      * intros ->. simpl in Hnum. lia.
      * simpl length in Hnum. lia.
      * destruct (noinc (cdesc ch)); lia.
      * destruct (noinc (cdesc ch)); lia.
    + intros rc s (k2 & mem2 & l2 & -> & Hpre2 & Hr2). exists k2, mem2, l2. split; [done|].
      split; [by etrans|].
      destruct Hr2 as [Hr2|(-> & bs2 & Hmv2 & Hbs2 & Hr2)]; [by left|right]. split; [done|].
      exists (bs ++ bs2). split; [by constructor|]. split; [by apply Forall_app_2|].
      rewrite <- app_assoc in Hr2. exact Hr2.
  - assert (es = []) as ->.
    { destruct es as [|x es]; [done|]. simpl length in Hnum. lia. }
    cbn [chain_loop]. wp_step. exists k1, mem1, l1. split; [done|]. split; [done|]. right. split; [done|].
    exists (bs ++ []). split; [constructor; [done|constructor]|].
    rewrite app_nil_r. by split.
Qed.

Lemma open_chain_first R k sa da mem ch e :
  hw_desc_list ch = [e] → holds R k [e] → open_chain R k sa da mem ch [] e.
Proof. intros Hl Hh. exists []. rewrite Hl. done. Qed.

Lemma bshift_range desc : 0 <= tsi148_get_bshift desc <= 31.
Proof.
  unfold tsi148_get_bshift. generalize (if dir desc =? VME_DMA_FROM_DEVICE then dma_am (src desc) else dma_am (dst desc)).
  intros a. unfold tsi148_am_bshift. repeat case_match; lia.
Qed.

(** The VME address of a transfer. *)
Definition vme_start (desc : vme_dma) : Z := default 0 (get_vmeaddr desc).

(** What setting up the chain leaves behind. *)
Definition setup_post R sa da ch v (c : C) (rc : Z) (s : D) : Prop :=
  ∃ k' c' mem' l', s = DS k' c' v mem' (with_hw ch l') ∧
    ((rc < 0 ∧ l' = [] ∧ live k' = R ∧ c' = c) ∨
     (rc = 0 ∧ holds R k' l' ∧ ∃ bs e l'',
        l' = e :: l'' ∧
        c' = iowrite32be (hd_phys e) (DNLAL (num ch)) (iowrite32be 0 (DNLAU (num ch)) c) ∧
        moves_all (noinc (cdesc ch)) (vme_start (cdesc ch)) (sg_bus ch) bs ∧
        Forall (block_ok (tsi148_get_bshift (cdesc ch))) bs ∧
        links (cdesc ch) sa da mem' l' bs TSI148_LCSR_DNLAL_LLA)).

Lemma wp_setup_chain R sa da k c v mem ch :
  hw_desc_list ch = [] → live k = R → dir_ok (cdesc ch) →
  sg_bus ch ≠ [] → Forall bus_ok (sg_bus ch) →
  is_u32 (vme_start (cdesc ch)) → vme_start (cdesc ch) + zsum snd (sg_bus ch) < 2 ^ 32 →
  wp (tsi148_dma_setup_chain sa da) (setup_post R sa da ch v c) (DS k c v mem ch).
Proof.
  intros Hl HR Hdir Hne Hbus Hv Htot. unfold tsi148_dma_setup_chain. wp_step. apply wp_get_chan.
  wp_step. apply (wp_hwdesc_init R).
  { rewrite Hl. split; [rewrite HR; simpl; multiset_solver|]. repeat split; constructor. }
  { intros phys virt k' mem' Hk'. cbv beta iota. change (truthy (- ENOMEM)) with true. cbv iota.
    wp_step. exists k', c, mem', []. split; [by rewrite <- Hl; destruct ch|]. left.
    split_and!; try done. congruence. }
  intros e k' Hh He. rewrite Hl in Hh |- *. simpl app in Hh |- *.
  cbv beta iota. change (truthy 0) with false. cbv iota.
  assert (Hva : get_vmeaddr (cdesc ch) = Some (vme_start (cdesc ch))).
  { unfold vme_start, get_vmeaddr. by destruct Hdir as [->| ->]. }
  rewrite Hva. wp_step.
  eapply wp_mono.
  { apply (wp_chain_loop (sg_bus ch) R sa da _ 0 _ _ e []); try done;
      [by apply Hv|apply bshift_range|by apply open_chain_first]. }
  intros rc s (k1 & mem1 & l1 & -> & Hpre & Hr). cbv beta.
  destruct Hr as [[-> Hh1]|(-> & bs & Hmv & Hbs & Hcl & Hlinks)].
  - change (truthy (- ENOMEM)) with true. cbv iota. wp_step.
    apply wp_free_chain with R; [by destruct Hh1|]. intros k2 Hk2. wp_step.
    exists k2, c, mem1, []. split; [done|]. left. by split_and!.
  - change (truthy 0) with false. cbv iota. wp_step. apply wp_dchip. unfold wr at 1, wp at 1.
    wp_step. apply wp_dchip. unfold wr, wp at 1. wp_step.
    exists k1. eexists _, mem1, l1. split; [reflexivity|]. right. split; [done|]. split; [done|].
    destruct Hpre as [l'' ->]. exists bs, e, l''. split; [done|].
    pose proof He as (_ & Hp & H8). destruct (phys_link _ Hp H8) as (_ & -> & _).
    rewrite (u32_small (hd_phys e)) by done. by split_and!.
Qed.

Lemma moves_total ni vme dma len bs : moves ni vme dma len bs → zsum snd bs = len.
Proof. induction 1; simpl; lia. Qed.

Lemma moves_all_total ni vme es bs : moves_all ni vme es bs → zsum snd bs = zsum snd es.
Proof.
  induction 1 as [|vme dma len es l ls Hm _ IH]; [done|].
  rewrite zsum_app, IH, (moves_total _ _ _ _ _ Hm). done.
Qed.

Lemma setup_src_dir desc : 0 <= tsi148_dma_setup_src desc → dir_ok desc.
Proof.
  unfold tsi148_dma_setup_src, dir_ok.
  destruct (Z.eqb_spec (dir desc) VME_DMA_TO_DEVICE); [by left|].
  destruct (Z.eqb_spec (dir desc) VME_DMA_FROM_DEVICE); [by right|].
  unfold EINVAL. lia.
Qed.

(** An empty scatter list leaves one descriptor that was never filled. *)
Lemma wp_setup_chain_empty R sa da k c v mem ch :
  hw_desc_list ch = [] → live k = R → dir_ok (cdesc ch) → sg_bus ch = [] →
  wp (tsi148_dma_setup_chain sa da) (λ rc s, ∃ k' c' mem' l',
    s = DS k' c' v mem' (with_hw ch l') ∧
    ((rc < 0 ∧ l' = [] ∧ live k' = R) ∨ (rc = 0 ∧ holds R k' l'))) (DS k c v mem ch).
Proof.
  intros Hl HR Hdir Hbus. unfold tsi148_dma_setup_chain. wp_step. apply wp_get_chan.
  wp_step. apply (wp_hwdesc_init R).
  { rewrite Hl. split; [rewrite HR; simpl; multiset_solver|]. repeat split; constructor. }
  { intros phys virt k' mem' Hk'. cbv beta iota. change (truthy (- ENOMEM)) with true. cbv iota.
    wp_step. exists k', c, mem', []. split; [by rewrite <- Hl; destruct ch|]. left.
    split_and!; try done. congruence. }
  intros e k' Hh He. rewrite Hl in Hh |- *. simpl app in Hh |- *.
  cbv beta iota. change (truthy 0) with false. cbv iota.
  assert (Hva : get_vmeaddr (cdesc ch) = Some (vme_start (cdesc ch))).
  { unfold vme_start, get_vmeaddr. by destruct Hdir as [->| ->]. }
  rewrite Hva, Hbus. cbn [chain_loop]. wp_step. wp_step. change (truthy 0) with false. cbv iota.
  wp_step. apply wp_dchip. unfold wr at 1, wp at 1.
  wp_step. apply wp_dchip. unfold wr, wp at 1. wp_step.
  eexists k', _, _, [e]. split; [reflexivity|]. by right.
Qed.

(** [tsi148_dma_setup] as a whole. *)
Lemma wp_dma_setup R k c v mem ch :
  hw_desc_list ch = [] → live k = R → Forall bus_ok (sg_bus ch) →
  is_u32 (vme_start (cdesc ch)) → vme_start (cdesc ch) + zsum snd (sg_bus ch) < 2 ^ 32 →
  wp tsi148_dma_setup (λ rc s, ∃ k' c' mem' ch' l',
    s = DS k' c' v mem' (with_hw ch' l') ∧
    (ch' = ch ∨ ch' = ch <| chained := 1 |>) ∧
    ((rc < 0 ∧ l' = [] ∧ live k' = R) ∨
     (rc = 0 ∧ holds R k' l' ∧ chained ch' = 1 ∧ (sg_bus ch ≠ [] → ∃ bs e l'' c1,
        l' = e :: l'' ∧
        c' = iowrite32be (hd_phys e) (DNLAL (num ch)) (iowrite32be 0 (DNLAU (num ch)) c1) ∧
        dir_ok (cdesc ch) ∧
        moves_all (noinc (cdesc ch)) (vme_start (cdesc ch)) (sg_bus ch) bs ∧
        Forall (block_ok (tsi148_get_bshift (cdesc ch))) bs ∧
        links (cdesc ch) (tsi148_dma_setup_src (cdesc ch)) (tsi148_dma_setup_dst (cdesc ch))
          mem' l' bs TSI148_LCSR_DNLAL_LLA)))) (DS k c v mem ch).
Proof.
  intros Hl HR Hbus Hv Htot. unfold tsi148_dma_setup. wp_step. apply wp_get_chan. cbv zeta.
  assert (Hfail : ∀ rc, (rc <? 0) = true → wp (mret rc) (λ rc s, ∃ k' c' mem' ch' l',
    s = DS k' c' v mem' (with_hw ch' l') ∧ (ch' = ch ∨ ch' = ch <| chained := 1 |>) ∧
    ((rc < 0 ∧ l' = [] ∧ live k' = R) ∨ False)) (DS k c v mem ch)).
  { intros rc Hrc. wp_step. exists k, c, mem, ch, []. split; [by rewrite <- Hl; destruct ch|].
    split; [by left|]. left. split_and!; try done. lia. }
  destruct (tsi148_dma_setup_src (cdesc ch) <? 0) eqn:Es.
  { eapply wp_mono; [by apply Hfail|]. naive_solver. }
  destruct (tsi148_dma_setup_dst (cdesc ch) <? 0) eqn:Ed.
  { eapply wp_mono; [by apply Hfail|]. naive_solver. }
  destruct (tsi148_dma_setup_ctl (cdesc ch) <? 0) eqn:Ec.
  { eapply wp_mono; [by apply Hfail|]. naive_solver. }
  clear Hfail. apply Z.ltb_ge, setup_src_dir in Es.
  wp_step. apply wp_set_chan. wp_step. apply wp_dchip. unfold wr at 1, wp at 1.
  set (ch1 := ch <| chained := 1 |>). set (c1 := iowrite32be _ _ c).
  destruct (decide (sg_bus ch = [])) as [Hnil|Hne].
  - eapply wp_mono; [by apply (wp_setup_chain_empty R)|].
    intros rc s (k' & c' & mem' & l' & -> & Hr). exists k', c', mem', ch1, l'.
    split; [done|]. split; [by right|]. destruct Hr as [Hr|[-> Hh]]; [by left|right].
    split_and!; try done.
  - eapply wp_mono; [by apply (wp_setup_chain R)|].
    intros rc s (k' & c' & mem' & l' & -> & Hr). exists k', c', mem', ch1, l'.
    split; [done|]. split; [by right|].
    destruct Hr as [(Hr & -> & ? & _)|(-> & Hh & bs & e & l'' & -> & -> & Hm & Hb & Hlk)];
      [by left|right].
    split; [done|]. split; [done|]. split; [done|]. intros _.
    exists bs, e, l'', c1. split_and!; done.
Qed.
End proofs.
