(* ===== verification/VmeDma.v ===== *)
(** DMA channel management: [src/vmebridge/driver/vme_dma.c].

    A task that waits for the end of a transfer is woken a number of times and
    then gets a signal: [wakeups] is that number, so every finite behaviour of
    [wait_event_interruptible] is covered.  [channel_wait] counts the wake-ups
    of each queue. *)
From S2P Require Import Prelude VmeBus Tsi148Regs Tsi148Attr KernelIf VmeMisc Tsi148Dma.

Local Open Scope Z_scope.

Definition PAGE_SHIFT : Z := 12.
Definition PAGE_SIZE : Z := Z.shiftl 1 PAGE_SHIFT.
(** [~PAGE_MASK] *)
Definition PAGE_LOW : Z := PAGE_SIZE - 1.

(** The module's state: [channels], the semaphore, the mutex, [dma_disable]. *)
Record vdma_state (K C : Type) := mk_vdma_state {
  vbr : bridge K C;
  vmem : gmap Z tsi148_dma_desc;
  channels : list dma_channel;
  dma_semaphore : Z;
  dma_lock : bool;
  dma_disable : Z;
  channel_wait : list Z
}.
Arguments mk_vdma_state {K C}.
Arguments vbr {K C}.
Arguments vmem {K C}.
Arguments channels {K C}.
Arguments dma_semaphore {K C}.
Arguments dma_lock {K C}.
Arguments dma_disable {K C}.
Arguments channel_wait {K C}.

(** * Pure parts *)

(** The 64-bit address of the buffer. *)
Definition buffer_addr (desc : vme_dma) : Z :=
  let a := if dir desc =? VME_DMA_TO_DEVICE then src desc else dst desc in
  Z.lor (u64 (Z.shiftl (dma_addru a) 32)) (dma_addrl a).

Definition buffer_pages (uaddr len : Z) : Z :=
  Z.shiftr (Z.land uaddr PAGE_LOW + len + PAGE_LOW) PAGE_SHIFT.

(** The [sg_set_page] loop: one entry per page; [size_t] arithmetic. *)
Fixpoint sgl_rest (pages : list Z) (len : Z) : list scatterlist :=
  match pages with
  | [] => []
  | p :: pages =>
    mk_scatterlist p (if len <? PAGE_SIZE then len else PAGE_SIZE) 0 ::
    sgl_rest pages (u64 (len - PAGE_SIZE))
  end.

Definition sgl_fill (pages : list Z) (uaddr len : Z) : list scatterlist :=
  match pages with
  | [] => []
  | [p] => [mk_scatterlist p len (Z.land uaddr PAGE_LOW)]
  | p :: pages =>
    let off := Z.land uaddr PAGE_LOW in
    let n := PAGE_SIZE - off in
    mk_scatterlist p n off :: sgl_rest pages (u64 (len - n))
  end.

Definition bad_dir (desc : vme_dma) : bool :=
  negb (dir desc =? VME_DMA_FROM_DEVICE) && negb (dir desc =? VME_DMA_TO_DEVICE).

Section dma.
Context `{Kernel K} `{!DmaKernel K} `{ChipIO C}.
Notation D := (dma_state K C).
Notation V := (vdma_state K C).

(** A call with channel [i]. *)
Definition on_chan {A} (i : nat) (m : M D A) : M V A := λ s,
  match channels s !! i with
  | None => None
  | Some ch =>
    match m (mk_dma_state (vbr s) (vmem s) ch) with
    | None => None
    | Some (a, d) =>
      Some (a, s <| vbr := dbr d |> <| vmem := dmem d |>
                 <| channels := <[i := chan d]> (channels s) |>)
    end
  end.

Definition vcall {A} (f : K → A * K) : M V A :=
  zoom vbr (λ b (s : V), s <| vbr := b |>) (kcall f).

(** [sgl_fill_user_pages] *)
Definition sgl_fill_user_pages (uaddr nr_pages : Z) : M D (Z * list Z) :=
  dcall (get_user_pages uaddr nr_pages).

(** [sgl_fill_kernel_pages] *)
Definition sgl_fill_kernel_pages (kaddr nr_pages : Z) : M D (Z * list Z) :=
  k ← gets (λ s, kern (dbr s));
  let addrs := (λ i, u64 (kaddr + PAGE_SIZE * Z.of_nat i)) <$> seq 0 (Z.to_nat nr_pages) in
  if is_vmalloc_addr kaddr k then mret (nr_pages, (λ a, vmalloc_to_page a k) <$> addrs)
  else if negb (virt_addr_valid kaddr k) then mret (- EINVAL, [])
  else mret (nr_pages, (λ a, virt_to_page a k) <$> addrs).

Definition put_pages (l : list Z) : M D () := mfold (λ _ p, ddo (put_page p)) () l.

(** [sgl_map_user_pages].  The function returns [nr_pages] also when the pages
    could not be had; the scatter list is then not initialised ([None]). *)
Definition sgl_map_user_pages (nr_pages uaddr len : Z) (to_user : bool)
    : M D (Z * option (list scatterlist)) :=
  pages ← dcall (kmalloc (8 * nr_pages));
  if pages =? 0 then mret (- ENOMEM, None) else
  '(rc, l) ← (if to_user then
    '(rc, l) ← sgl_fill_user_pages uaddr nr_pages;
    if (0 <=? rc) && (rc <? nr_pages) then put_pages l;; mret (- ENOMEM, []) else mret (rc, l)
   else sgl_fill_kernel_pages uaddr nr_pages);
  ddo (kfree pages);;
  if rc <? 0 then mret (nr_pages, None)
  else mret (nr_pages, Some (sgl_fill l uaddr len)).

Definition sgl_unmap_user_pages (l : list scatterlist) (to_user : bool) : M D () :=
  if negb to_user then mret () else put_pages (sg_page <$> l).

(** [pci_map_sg] of a list whose entries were never initialised is undefined
    behaviour: stuck. *)
Definition map_sgl (sgl_addr : Z) (l : option (list scatterlist)) (d : Z) : M D () :=
  match l with
  | None => stuck
  | Some l =>
    m ← dcall (pci_map_sg sgl_addr l d);
    set_chan (λ ch, ch <| sg_list := l |> <| sg_bus := m |>)
  end.

Definition vme_dma_setup (to_user : bool) : M D Z :=
  ch ← get_chan;
  let desc := cdesc ch in
  let len := dma_length desc in
  let uaddr := buffer_addr desc in
  if u64 (uaddr + len) <? uaddr then mret (- EINVAL) else
  let nr_pages := s32 (buffer_pages uaddr len) in
  a ← dcall (kmalloc (32 * nr_pages));
  set_chan (λ ch, ch <| sgl := a |>);;
  if a =? 0 then mret (- ENOMEM) else
  '(n, l) ← sgl_map_user_pages nr_pages uaddr len to_user;
  set_chan (λ ch, ch <| sg_pages := n |>);;
  if n <=? 0 then ddo (kfree a);; mret n else
  map_sgl a l (dir desc);;
  rc ← tsi148_dma_setup;
  if truthy rc then
    ch ← get_chan;
    ddo (pci_unmap_sg a (sg_mapped ch));;
    sgl_unmap_user_pages (sg_list ch) to_user;;
    ddo (kfree a);;
    mret rc
  else mret 0.

Definition vme_dma_start : M D () := tsi148_dma_start.

(** The first idle channel is flagged busy; [None] is [ERR_PTR(-EDEADLK)]. *)
Definition lock_avail_channel : M V (option nat) :=
  chs ← gets channels;
  match find_idx (λ ch, negb (truthy (busy ch))) chs with
  | None => mret None
  | Some i => on_chan i (set_chan (λ ch, ch <| busy := 1 |>));; mret (Some i)
  end.

(** [mutex_lock] on a mutex that is held, by this task, never returns. *)
Definition lock_dma : M V () :=
  l ← gets dma_lock;
  if l : bool then stuck else modify (λ s : V, s <| dma_lock := true |>).
Definition unlock_dma : M V () := modify (λ s : V, s <| dma_lock := false |>).

(** [down_interruptible] of the semaphore: 0, or [-EINTR] if a signal comes
    first.  Waiting on a semaphore at 0 ends with the signal here: nobody else
    runs during the call. *)
Definition down_interruptible : M V Z :=
  intr ← vcall signal_pending;
  if intr : bool then mret (- EINTR) else
  n ← gets dma_semaphore;
  if n <=? 0 then mret (- EINTR)
  else modify (λ s : V, s <| dma_semaphore := n - 1 |>);; mret 0.

Definition up : M V () := modify (λ s : V, s <| dma_semaphore ::= λ n, n + 1 |>).

(** The channel, or the error of [ERR_PTR]. *)
Definition vme_dma_channel_acquire : M V (Z + nat) :=
  d ← gets dma_disable;
  if truthy d then mret (inl (- EBUSY)) else
  rc ← down_interruptible;
  if truthy rc then mret (inl rc) else
  d ← gets dma_disable;
  if truthy d then up;; mret (inl (- EBUSY)) else
  lock_dma;;
  ch ← lock_avail_channel;
  unlock_dma;;
  match ch with
  | Some i => mret (inr i)
  | None => mret (inl (- EDEADLK))
  end.

Definition vme_dma_channel_release (i : nat) : M V () :=
  lock_dma;;
  on_chan i (set_chan (λ ch, ch <| busy := 0 |>));;
  unlock_dma;;
  up.

(** [wait_event_interruptible(channel->wait, !tsi148_dma_busy(channel))] *)
Fixpoint wait_dma (wakeups : nat) : M D Z :=
  b ← tsi148_dma_busy;
  if negb (truthy b) then mret 0 else
  match wakeups with
  | O => mret (- ERESTARTSYS)
  | S n => wait_dma n
  end.

(** From the start of the transfer to the end of the cleanup: the return code
    and the status for the caller. *)
Definition run_transfer (wakeups : nat) (to_user : bool) : M D (Z * Z) :=
  vme_dma_start;;
  rc ← wait_dma wakeups;
  (if truthy rc then tsi148_dma_abort else mret ());;
  status ← tsi148_dma_get_status;
  tsi148_dma_release;;
  ch ← get_chan;
  ddo (pci_unmap_sg (sgl ch) (sg_mapped ch));;
  sgl_unmap_user_pages (sg_list ch) to_user;;
  ddo (kfree (sgl ch));;
  mret (rc, status).

(** [__vme_do_dma], on a machine with 64-bit longs. *)
Definition vme_do_dma_buf (desc : vme_dma) (wakeups : nat) (to_user : bool) : M V (Z * vme_dma) :=
  if negb (truthy (dma_length desc)) then mret (- EINVAL, desc) else
  if bad_dir desc then mret (- EINVAL, desc) else
  c ← vme_dma_channel_acquire;
  match c with
  | inl rc => mret (rc, desc)
  | inr i =>
    on_chan i (set_chan (λ ch, ch <| cdesc := desc |>));;
    rc ← on_chan i (vme_dma_setup to_user);
    r ← (if truthy rc then mret (rc, desc) else
         '(rc, status) ← on_chan i (run_transfer wakeups to_user);
         mret (rc, desc <| dma_status := status |>));
    vme_dma_channel_release i;;
    modify (λ s : V, s <| channel_wait := alter (λ n, n + 1) i (channel_wait s) |>);;
    mret r
  end.

Definition vme_do_dma (desc : vme_dma) (wakeups : nat) : M V (Z * vme_dma) :=
  vme_do_dma_buf desc wakeups true.

Definition vme_do_dma_kernel (desc : vme_dma) (wakeups : nat) : M V (Z * vme_dma) :=
  vme_do_dma_buf desc wakeups false.

(** An ioctl: the descriptor that [copy_from_user] would fetch. *)
Inductive dma_ioctl := VME_IOCTL_START_DMA (d : vme_dma) | DMA_UNKNOWN_IOCTL.

Definition vme_dma_ioctl (cmd : dma_ioctl) (wakeups : nat) : M V (Z * option vme_dma) :=
  match cmd with
  | VME_IOCTL_START_DMA d =>
    fault ← vcall user_fault;
    if fault : bool then mret (- EFAULT, None) else
    '(rc, d) ← vme_do_dma d wakeups;
    if truthy rc then mret (rc, None) else
    fault ← vcall user_fault;
    if fault : bool then mret (- EFAULT, None) else mret (0, Some d)
  | DMA_UNKNOWN_IOCTL => mret (- ENOIOCTLCMD, None)
  end.

(** [down] waits until the count is positive; with nobody else running it never
    returns on an empty semaphore. *)
Definition down : M V () :=
  n ← gets dma_semaphore;
  if n <=? 0 then stuck else modify (λ s : V, s <| dma_semaphore := n - 1 |>).

Definition vme_dma_exit : M V () :=
  modify (λ s : V, s <| dma_disable := 1 |>);;
  mfold (λ _ i, on_chan i tsi148_dma_abort) () (seq 0 (Z.to_nat TSI148_NUM_DMA_CHANNELS));;
  mfold (λ _ (_ : nat), down;; up) () (seq 0 (Z.to_nat TSI148_NUM_DMA_CHANNELS)).

(** [pool] is the result of [pci_pool_create]. *)
Definition vme_dma_init (pool : Z) : M V Z :=
  mfold (λ _ i, on_chan i (set_chan (λ ch,
    ch <| num := Z.of_nat i |> <| dma_wakes := 0 |> <| hw_desc_list := [] |>)))
    () (seq 0 (Z.to_nat TSI148_NUM_DMA_CHANNELS));;
  modify (λ s : V, s <| dma_semaphore := TSI148_NUM_DMA_CHANNELS |> <| dma_lock := false |>
                     <| dma_disable := 0 |>);;
  if pool =? 0 then mret (- ENOMEM) else mret 0.
End dma.
