(* ===== verification/VmeDmaProofs.v ===== *)
(** Lemmas on DMA transfers as a whole: the scatter list covers the buffer, and
    every path through [__vme_do_dma] gives back what it took. *)
From S2P Require Import Prelude VmeBus Tsi148Regs Tsi148Attr KernelIf VmeMisc Tsi148Dma.
From S2P Require Import Tsi148DmaProofs Tsi148DmaChain VmeDma.

Local Open Scope Z_scope.

Lemma res_back (x : resource) (R : gmultiset resource) : ({[+ x +]} ⊎ R) ∖ {[+ x +]} = R.
Proof. multiset_solver. Qed.

(** * The scatter list *)

Lemma page_low_mod x : Z.land x PAGE_LOW = x mod PAGE_SIZE.
Proof. change PAGE_LOW with (Z.ones 12). by rewrite Z.land_ones. Qed.

Lemma buffer_pages_bounds uaddr len :
  let n := buffer_pages uaddr len in
  (n - 1) * PAGE_SIZE < uaddr mod PAGE_SIZE + len <= n * PAGE_SIZE.
Proof.
  cbv zeta. unfold buffer_pages. rewrite page_low_mod.
  unfold PAGE_SHIFT. rewrite Z.shiftr_div_pow2 by lia.
  change PAGE_LOW with 4095. change PAGE_SIZE with 4096. change (2 ^ 12) with 4096.
  Z.div_mod_to_equations. lia.
Qed.

(** An entry lies within its page. *)
Definition entry_in_page (s : scatterlist) : Prop :=
  0 <= sg_offset s ∧ 0 < sg_length s ∧ sg_offset s + sg_length s <= PAGE_SIZE.

(** Every entry but the last ends at the end of its page, every entry but the
    first starts at its start. *)
Fixpoint gapless (l : list scatterlist) : Prop :=
  match l with
  | [] => True
  | s :: l' =>
      match l' with
      | [] => True
      | s' :: _ => sg_offset s + sg_length s = PAGE_SIZE ∧ sg_offset s' = 0 ∧ gapless l'
      end
  end.

Lemma sgl_rest_facts pages len :
  (Z.of_nat (length pages) - 1) * PAGE_SIZE < len <= Z.of_nat (length pages) * PAGE_SIZE →
  len < 2 ^ 64 → pages ≠ [] →
  let l := sgl_rest pages len in
  sg_page <$> l = pages ∧ zsum sg_length l = len ∧ Forall entry_in_page l ∧ gapless l ∧
  Forall (λ s, sg_offset s = 0) l.
Proof.
  change PAGE_SIZE with 4096.
  revert len. induction pages as [|p pages IH]; intros len Hl Hlen Hne; [done|].
  cbv zeta. cbn [sgl_rest]. change PAGE_SIZE with 4096. simpl length in Hl.
  destruct pages as [|p' pages].
  - simpl in *. destruct (Z.ltb_spec len 4096); simpl;
      (split_and!; [done|lia| |done|by repeat constructor]); constructor; [|constructor| |constructor];
      unfold entry_in_page; change PAGE_SIZE with 4096; simpl; lia.
  - destruct (Z.ltb_spec len 4096) as [?|Hge].
    { exfalso. simpl length in Hl. lia. }
    unfold u64. rewrite Z.mod_small by (simpl length in Hl; lia).
    destruct (IH (len - 4096)) as (Hp & Hs & He & Hg & Hz);
      [simpl length in Hl |- *; lia|lia|done|].
    set (l := sgl_rest (p' :: pages) (len - 4096)) in *.
    assert (Hl' : ∃ s' l', l = s' :: l' ∧ sg_offset s' = 0).
    { eexists _, _. split; [reflexivity|done]. }
    destruct Hl' as (s' & l' & El & Es'). clearbody l. subst l.
    split_and!.
    + simpl in Hp |- *. by rewrite Hp.
    + simpl in Hs |- *. lia.
    + constructor; [|done]. unfold entry_in_page. change PAGE_SIZE with 4096. simpl. lia.
    + simpl. split; [done|]. split; [done|]. exact Hg.
    + constructor; done.
Qed.

Lemma sgl_fill_facts pages uaddr len :
  0 <= uaddr → 0 < len < 2 ^ 32 → Z.of_nat (length pages) = buffer_pages uaddr len →
  let l := sgl_fill pages uaddr len in
  sg_page <$> l = pages ∧ zsum sg_length l = len ∧ Forall entry_in_page l ∧ gapless l ∧
  sg_offset <$> head l = Some (uaddr mod PAGE_SIZE).
Proof.
  intros Hu Hlen Hn. pose proof (buffer_pages_bounds uaddr len) as Hb. cbv zeta in Hb.
  rewrite <- Hn in Hb. clear Hn.
  assert (Hoff : 0 <= uaddr mod PAGE_SIZE < PAGE_SIZE) by (apply Z.mod_pos_bound; done).
  change PAGE_SIZE with 4096 in *. cbv zeta.
  destruct pages as [|p [|p' pages]]; simpl length in Hb; unfold sgl_fill; rewrite ?page_low_mod;
    change PAGE_SIZE with 4096.
  - lia.
  - simpl. split_and!; try done; [lia|]. constructor; [|constructor]. unfold entry_in_page.
    change PAGE_SIZE with 4096. simpl. lia.
  - unfold u64. rewrite (Z.mod_small (len - _)) by (simpl length in Hb; lia).
    destruct (sgl_rest_facts (p' :: pages) (len - (4096 - uaddr mod 4096)))
      as (Hp & Hs & He & Hg & Hz); [change PAGE_SIZE with 4096; simpl length in Hb |- *; lia|lia|done|].
    set (l := sgl_rest (p' :: pages) _) in *.
    assert (Hl' : ∃ s' l', l = s' :: l' ∧ sg_offset s' = 0).
    { eexists _, _. split; [reflexivity|done]. }
    destruct Hl' as (s' & l' & El & Es'). clearbody l. subst l.
    split_and!.
    + simpl in Hp |- *. by rewrite Hp.
    + simpl in Hs |- *. lia.
    + constructor; [|done]. unfold entry_in_page. change PAGE_SIZE with 4096. simpl. lia.
    + simpl. change PAGE_SIZE with 4096. split; [lia|]. split; [done|]. exact Hg.
    + done.
Qed.

(** The number of pages fits an [int]. *)
Lemma buffer_pages_s32 uaddr len :
  0 <= uaddr → 0 < len < 2 ^ 32 → s32 (buffer_pages uaddr len) = buffer_pages uaddr len ∧
  0 < buffer_pages uaddr len.
Proof.
  intros Hu Hl. pose proof (buffer_pages_bounds uaddr len) as Hb. cbv zeta in Hb.
  assert (Hoff : 0 <= uaddr mod PAGE_SIZE < PAGE_SIZE) by (apply Z.mod_pos_bound; done).
  change PAGE_SIZE with 4096 in *. split; [apply s32_small; lia|lia].
Qed.

Section proofs.
Context `{KernelLaws K} `{!DmaKernel K} `{!DmaKernelLaws K} `{ChipIO C}.
Implicit Types (k : K) (c : C) (v : vme_verr) (mem : gmap Z tsi148_dma_desc) (ch : dma_channel).
Notation D := (dma_state K C).

Lemma pages_res_cons p l : pages_res (p :: l) = {[+ Page p +]} ⊎ pages_res l.
Proof. done. Qed.

Lemma wp_put_pages R l (Q : () → D → Prop) k c v mem ch :
  live k = pages_res l ⊎ R → (∀ k', live k' = R → Q () (DS k' c v mem ch)) →
  wp (put_pages l) Q (DS k c v mem ch).
Proof.
  intros Hl HQ. unfold put_pages. eapply wp_mono.
  - apply (wp_mfold _ (λ l _ s, ∃ k', s = DS k' c v mem ch ∧ live k' = pages_res l ⊎ R)).
    + intros p l' [] s (k1 & -> & Hk1). apply wp_ddo. eexists. split; [done|].
      rewrite put_page_live, Hk1, pages_res_cons. multiset_solver.
    + by exists k.
  - intros [] s (k' & -> & Hk'). apply HQ. rewrite Hk'. unfold pages_res. simpl. multiset_solver.
Qed.

(** Pages of the buffer can always be had. *)
Definition pages_available (to_user : bool) : Prop :=
  if to_user then ∀ a n k, 0 <= n → (get_user_pages a n k).1.1 = n
  else ∀ a k, is_vmalloc_addr a k = true ∨ virt_addr_valid a k = true.

Definition user_res (to_user : bool) (l : list scatterlist) : gmultiset resource :=
  if to_user then pages_res (sg_page <$> l) else ∅.

Definition map_res (a : Z) (m : list (Z * Z)) : gmultiset resource :=
  if m is [] then ∅ else {[+ SgMap a +]}.

Lemma wp_sgl_map R n uaddr len to_user (Q : Z * option (list scatterlist) → D → Prop) k c v mem ch :
  live k = R → pages_available to_user → 0 <= uaddr → 0 < len < 2 ^ 32 →
  n = buffer_pages uaddr len →
  (∀ k', live k' = R → Q (- ENOMEM, None) (DS k' c v mem ch)) →
  (∀ k' l, live k' = user_res to_user l ⊎ R → zsum sg_length l = len →
     Q (n, Some l) (DS k' c v mem ch)) →
  wp (sgl_map_user_pages n uaddr len to_user) Q (DS k c v mem ch).
Proof.
  intros HR Hav Hu Hl Hn HF HS. unfold sgl_map_user_pages. wp_step. apply wp_dcall.
  destruct (buffer_pages_s32 uaddr len Hu Hl) as [_ Hpos]. rewrite <- Hn in Hpos.
  pose proof (kmalloc_live (8 * n) k) as Hm. destruct (kmalloc (8 * n) k) as [a k1].
  simpl fst in *. simpl snd in *.
  destruct Hm as [[-> Hk1]|(Ha & _ & Hk1)].
  { change (0 =? 0) with true. cbv iota. wp_step. apply HF. congruence. }
  destruct (Z.eqb_spec a 0); [lia|].
  destruct to_user; simpl in Hav; wp_step.
  - unfold sgl_fill_user_pages. wp_step. apply wp_dcall.
    pose proof (get_user_pages_live uaddr n k1) as Hg. specialize (Hav uaddr n k1 ltac:(lia)).
    destruct (get_user_pages uaddr n k1) as [[rc l] k2]. simpl fst in *. simpl snd in *.
    destruct Hg as [(? & _ & _)|(_ & Hrc & Hk2)]; [lia|]. subst rc.
    rewrite Z.ltb_irrefl, andb_false_r. wp_step. wp_step. apply wp_ddo.
    rewrite (proj2 (Z.ltb_ge n 0)) by lia. wp_step.
    destruct (sgl_fill_facts l uaddr len Hu Hl) as (Hp & Hs & _); [by rewrite <- Hrc, Hn|].
    apply HS; [|done]. unfold user_res. rewrite Hp, kfree_live, Hk2, Hk1, HR. multiset_solver.
  - unfold sgl_fill_kernel_pages. wp_step. wp_step.
    change (kern (dbr (DS k1 c v mem ch))) with k1.
    set (addrs := _ <$> seq 0 _).
    assert (Hlen : length addrs = Z.to_nat n) by (unfold addrs; by rewrite length_fmap, length_seq).
    assert (Hdone : ∀ f : Z → Z, wp (mret (n, f <$> addrs)) (λ a0 s',
      wp (let '(rc, l) := a0 in ddo (kfree a);;
          if rc <? 0 then mret (n, None) else mret (n, Some (sgl_fill l uaddr len))) Q s')
      (DS k1 c v mem ch)).
    { intros f. wp_step. wp_step. apply wp_ddo. rewrite (proj2 (Z.ltb_ge n 0)) by lia. wp_step.
      destruct (sgl_fill_facts (f <$> addrs) uaddr len Hu Hl) as (Hp & Hs & _).
      { rewrite length_fmap, Hlen, <- Hn. lia. }
      apply HS; [|done]. unfold user_res. cbv iota. rewrite kfree_live, Hk1, HR, res_back.
      symmetry. apply (left_id_L ∅ (⊎)). }
    destruct (is_vmalloc_addr uaddr k1) eqn:Ev; [by apply Hdone|].
    destruct (Hav uaddr k1) as [?|Hv]; [congruence|]. rewrite Hv. cbn [negb]. by apply Hdone.
Qed.
End proofs.
