(* ===== verification/VmeDmaProps.v ===== *)
(** What DMA promises ([src/vmebridge/driver/vme_dma.c] and [tsi148_dma_*]). *)
From S2P Require Import Prelude VmeBus Tsi148Regs Tsi148Attr KernelIf VmeMisc Tsi148Dma.
From S2P Require Import Tsi148DmaProofs Tsi148DmaChain VmeDma VmeDmaProofs.

Local Open Scope Z_scope.

(** A request with the C types' ranges whose VME range ends below 4 GB. *)
Record request_fits (desc : vme_dma) : Prop := {
  rf_len : 0 < dma_length desc < 2 ^ 32;
  rf_buf : 0 <= buffer_addr desc;
  rf_vme : is_u32 (vme_start desc);
  rf_end : vme_start desc + dma_length desc < 2 ^ 32
}.

Section proofs.
Context `{KernelLaws K} `{!DmaKernel K} `{!DmaKernelLaws K} `{ChipIO C}.
Implicit Types (k : K) (c : C) (v : vme_verr) (mem : gmap Z tsi148_dma_desc) (ch : dma_channel).
Notation D := (dma_state K C).
Notation V := (vdma_state K C).

(** What a channel holds once its transfer is set up. *)
Definition transfer_res (to_user : bool) ch : gmultiset resource :=
  {[+ Block (sgl ch) +]} ⊎ map_res (sgl ch) (sg_bus ch) ⊎ user_res to_user (sg_list ch).

Definition ready R to_user k ch : Prop :=
  chained ch = 1 ∧ live k = descs_res (hw_desc_list ch) ⊎ (transfer_res to_user ch ⊎ R).

Lemma live_map_res a l d k :
  live (pci_map_sg a l d k).2 = map_res a (pci_map_sg a l d k).1 ⊎ live k ∧
  Forall bus_ok (pci_map_sg a l d k).1 ∧
  ((pci_map_sg a l d k).1 = [] ∨ zsum snd (pci_map_sg a l d k).1 = zsum sg_length l).
Proof.
  pose proof (map_sg_live a l d k) as Hm. destruct (pci_map_sg a l d k) as [m k'].
  simpl in *. destruct Hm as [[-> Hl]|(Hne & Hl & Hb & Hs)].
  - rewrite Hl. split_and!; [simpl; multiset_solver|constructor|by left].
  - rewrite Hl. split_and!; [by destruct m|done|by right].
Qed.

Lemma live_unmap_res a m k R :
  live k = map_res a m ⊎ R → live (pci_unmap_sg a (Z.of_nat (length m)) k) = R.
Proof.
  intros Hl. rewrite unmap_sg_live, Hl. destruct m as [|e m]; simpl map_res.
  - simpl. multiset_solver.
  - destruct (Z.eqb_spec (Z.of_nat (length (e :: m))) 0); [simpl in *; lia|]. apply res_back.
Qed.

(** Giving back the mapping, the pages and the list. *)
Lemma wp_cleanup {B} R to_user (m : M D B) (Q : B → D → Prop) k c v mem ch a sl bus :
  live k = {[+ Block a +]} ⊎ map_res a bus ⊎ user_res to_user sl ⊎ R →
  (∀ k', live k' = R → wp m Q (DS k' c v mem ch)) →
  wp (ddo (pci_unmap_sg a (Z.of_nat (length bus)));;
      sgl_unmap_user_pages sl to_user;;
      ddo (kfree a);; m) Q (DS k c v mem ch).
Proof.
  intros Hl HQ. wp_step. apply wp_ddo.
  assert (Hl1 : live (pci_unmap_sg a (Z.of_nat (length bus)) k) =
    user_res to_user sl ⊎ ({[+ Block a +]} ⊎ R)).
  { apply live_unmap_res. rewrite Hl. generalize (map_res a bus), (user_res to_user sl).
    multiset_solver. }
  wp_step. unfold sgl_unmap_user_pages.
  destruct to_user; unfold user_res in Hl1; cbn [negb]; cbv iota.
  - eapply wp_put_pages; [exact Hl1|]. intros k2 Hk2. wp_step. apply wp_ddo. apply HQ.
    rewrite kfree_live, Hk2. apply res_back.
  - wp_step. wp_step. apply wp_ddo. apply HQ. rewrite kfree_live, Hl1.
    rewrite (left_id_L ∅ (⊎)). apply res_back.
Qed.

Lemma wp_vme_dma_setup R to_user k c v mem ch :
  hw_desc_list ch = [] → live k = R → pages_available to_user → request_fits (cdesc ch) →
  wp (vme_dma_setup to_user) (λ rc s, ∃ k' c' mem' ch',
    s = DS k' c' v mem' ch' ∧ busy ch' = busy ch ∧ num ch' = num ch ∧
    ((rc < 0 ∧ hw_desc_list ch' = [] ∧ live k' = R) ∨ (rc = 0 ∧ ready R to_user k' ch')))
    (DS k c v mem ch).
Proof.
  intros Hhw HR Hav [Hlen Hbuf Hvs Hve]. unfold vme_dma_setup. wp_step. apply wp_get_chan.
  cbv zeta. set (len := dma_length (cdesc ch)) in *. set (uaddr := buffer_addr (cdesc ch)) in *.
  destruct (buffer_pages_s32 uaddr len Hbuf Hlen) as [Hs32 Hpos].
  destruct (u64 (uaddr + len) <? uaddr).
  { wp_step. exists k, c, mem, ch. split_and!; try done. left. by split_and!. }
  rewrite Hs32. wp_step. apply wp_dcall.
  pose proof (kmalloc_live (32 * buffer_pages uaddr len) k) as Hm.
  destruct (kmalloc (32 * buffer_pages uaddr len) k) as [a k1]. simpl fst in *. simpl snd in *.
  wp_step. apply wp_set_chan.
  destruct Hm as [[-> Hk1]|(Ha & _ & Hk1)].
  { change (0 =? 0) with true. cbv iota. wp_step. eexists k1, c, mem, _.
    split; [reflexivity|]. split; [done|]. split; [done|]. left. split_and!; try done. congruence. }
  destruct (Z.eqb_spec a 0); [lia|]. wp_step.
  apply (wp_sgl_map (live k1)); [reflexivity|exact Hav|exact Hbuf|exact Hlen|reflexivity|..].
  - intros k2 Hk2. cbv beta iota. wp_step. apply wp_set_chan.
    change (- ENOMEM <=? 0) with true. cbv iota. wp_step. apply wp_ddo. wp_step.
    eexists _, c, mem, _. split; [reflexivity|]. split; [done|]. split; [done|]. left.
    split_and!; try done. rewrite kfree_live, Hk2, Hk1, HR. apply res_back.
  - intros k2 l Hk2 Hsum. cbv beta iota. wp_step. apply wp_set_chan.
    rewrite (proj2 (Z.leb_gt (buffer_pages uaddr len) 0)) by lia. wp_step. unfold map_sgl.
    wp_step. apply wp_dcall. destruct (live_map_res a l (dir (cdesc ch)) k2) as (Hk3 & Hb & Hm).
    destruct (pci_map_sg a l (dir (cdesc ch)) k2) as [m k3]. simpl fst in *. simpl snd in *.
    apply wp_set_chan. wp_step.
    set (R' := {[+ Block a +]} ⊎ map_res a m ⊎ user_res to_user l ⊎ R).
    assert (HR' : live k3 = R').
    { rewrite Hk3, Hk2, Hk1, HR. unfold R'. generalize (map_res a m), (user_res to_user l).
      multiset_solver. }
    eapply wp_mono.
    { apply (wp_dma_setup R'); try done. change (vme_start (cdesc ch) + zsum snd m < 2 ^ 32).
      destruct Hm as [->|Hm]; [simpl; unfold is_u32 in Hvs; lia|]. rewrite Hm, Hsum. exact Hve. }
    intros rc s (k4 & c4 & mem4 & ch4 & l4 & -> & Hch4 & Hr). cbv beta.
    destruct Hr as [(Hrc & -> & Hk4)|(-> & [Hk4 _] & Hchd & _)].
    + assert (Ht : truthy rc = true) by (unfold truthy; destruct (Z.eqb_spec rc 0); lia || done).
      rewrite Ht. wp_step. apply wp_get_chan.
      assert (Esg : sg_mapped (with_hw ch4 []) = Z.of_nat (length m) ∧
                    sg_list (with_hw ch4 []) = l) by (destruct Hch4 as [->| ->]; done).
      destruct Esg as [-> ->].
      eapply wp_cleanup; [exact Hk4|]. intros k5 Hk5. wp_step.
      eexists k5, c4, mem4, _. split; [reflexivity|].
      split; [destruct Hch4 as [->| ->]; done|]. split; [destruct Hch4 as [->| ->]; done|].
      left. by split_and!.
    + change (truthy 0) with false. cbv iota. wp_step. eexists k4, c4, mem4, _.
      split; [reflexivity|].
      split; [destruct Hch4 as [->| ->]; done|]. split; [destruct Hch4 as [->| ->]; done|].
      right. split; [done|]. split; [done|]. rewrite Hk4. unfold R', transfer_res.
      destruct Hch4 as [->| ->]; simpl; multiset_solver.
Qed.

(** From the start of a transfer that is ready to the end of the cleanup. *)
Lemma wp_run_transfer R wakeups to_user k c v mem ch :
  ready R to_user k ch →
  wp (run_transfer wakeups to_user) (λ r s, ∃ k' c' mem' ch',
    s = DS k' c' v mem' ch' ∧ busy ch' = busy ch ∧ num ch' = num ch ∧
    hw_desc_list ch' = [] ∧ live k' = R ∧ (r.1 = 0 ∨ r.1 = - ERESTARTSYS)) (DS k c v mem ch).
Proof.
  intros [Hchd Hl]. unfold run_transfer, vme_dma_start, tsi148_dma_start.
  assert (Hwait : ∀ n c0, wp (wait_dma n) (λ rc s, ∃ c1, s = DS k c1 v mem ch ∧
    (rc = 0 ∨ rc = - ERESTARTSYS)) (DS k c0 v mem ch)).
  { induction n as [|n IH]; intros c0; cbn [wait_dma]; wp_step;
      unfold tsi148_dma_busy, tsi148_dma_get_status; wp_step; wp_step; apply wp_get_chan;
      apply wp_dchip; unfold rd, wp at 1; destruct (ioread32be (DSTA (num ch)) c0) as [st c1];
      wp_step; wp_step; try wp_step; eauto. }
  wp_step. wp_step. apply wp_get_chan. wp_step. apply wp_dchip. unfold rd, wp at 1.
  destruct (ioread32be (DCTL (num ch)) c) as [dctl c1]. apply wp_dchip. unfold wr, wp at 1.
  wp_step. eapply wp_mono; [apply Hwait|]. intros rc s (c2 & -> & Hrc). cbv beta. wp_step.
  assert (Hab : ∀ Q : () → D → Prop, (∀ c3, Q () (DS k c3 v mem ch)) →
    wp (if truthy rc then tsi148_dma_abort else mret ()) Q (DS k c2 v mem ch)).
  { intros Q HQ. destruct (truthy rc); [|by wp_step]. unfold tsi148_dma_abort. wp_step.
    apply wp_get_chan. wp_step. apply wp_dchip. unfold rd, wp at 1.
    destruct (ioread32be (DCTL (num ch)) c2) as [x c3]. apply wp_dchip. unfold wr, wp at 1.
    apply HQ. }
  apply Hab. intros c3. wp_step. unfold tsi148_dma_get_status. wp_step. apply wp_get_chan.
  apply wp_dchip. unfold rd, wp at 1. destruct (ioread32be (DSTA (num ch)) c3) as [st c4].
  wp_step. unfold tsi148_dma_release. wp_step. apply wp_get_chan. rewrite Hchd.
  change (truthy 1) with true. cbv iota. eapply wp_free_chain; [exact Hl|].
  intros k2 Hk2. wp_step. apply wp_get_chan.
  change (sg_mapped (with_hw ch [])) with (Z.of_nat (length (sg_bus ch))).
  eapply wp_cleanup; [rewrite Hk2; unfold transfer_res; reflexivity|]. intros k3 Hk3. wp_step.
  eexists k3, c4, mem, _. split; [reflexivity|]. by split_and!.
Qed.

(** * The module's state *)

Definition idle (ch : dma_channel) : bool := busy ch =? 0.

Definition idle_count (l : list dma_channel) : Z := zsum (λ ch, if idle ch then 1 else 0) l.

(** Between requests: the mutex is free, the semaphore counts the idle
    channels, an idle channel holds no descriptors. *)
Record vdma_ok (s : V) : Prop := {
  vo_lock : dma_lock s = false;
  vo_sem : dma_semaphore s = idle_count (channels s);
  vo_chan : ∀ i ch, channels s !! i = Some ch →
    (busy ch = 0 ∨ busy ch = 1) ∧ (busy ch = 0 → hw_desc_list ch = [])
}.

Definition VS k c v mem chs sem lk dis cw : V :=
  mk_vdma_state (mk_bridge k c v) mem chs sem lk dis cw.

Lemma wp_on_chan {A} i (m : M D A) (Q : A → V → Prop) k c v mem chs sem lk dis cw ch :
  chs !! i = Some ch →
  wp m (λ a d, ∀ k' c' v' mem' ch', d = mk_dma_state (mk_bridge k' c' v') mem' ch' →
     Q a (VS k' c' v' mem' (<[i:=ch']> chs) sem lk dis cw)) (DS k c v mem ch) →
  wp (on_chan i m) Q (VS k c v mem chs sem lk dis cw).
Proof.
  intros Hi Hm. unfold wp, on_chan, VS, DS in *. simpl. rewrite Hi.
  destruct (m _) as [[a [[k' c' v'] mem' ch']]|]; [|done]. simpl. by apply Hm.
Qed.

Lemma idle_count_insert l i ch ch' :
  l !! i = Some ch →
  idle_count (<[i:=ch']> l) =
    idle_count l - (if idle ch then 1 else 0) + (if idle ch' then 1 else 0).
Proof. apply (zsum_insert (λ ch, if idle ch then 1 else 0)). Qed.

Lemma idle_count_pos l : 0 < idle_count l → ∃ i, find_idx (λ ch, negb (truthy (busy ch))) l = Some i.
Proof.
  intros Hp. destruct (find_idx _ l) as [i|] eqn:E; [by exists i|exfalso].
  pose proof (proj1 (find_idx_None _ _) E) as Hn. clear E. unfold idle_count, zsum in Hp.
  induction l as [|ch l IH]; simpl in Hp; [lia|].
  assert (Hc : idle ch = false).
  { specialize (Hn ch ltac:(set_solver)). unfold truthy, idle in *. by destruct (busy ch =? 0). }
  rewrite Hc in Hp. apply IH; [lia|]. intros x Hx. apply Hn. set_solver.
Qed.

(** Acquiring a channel: an error that changes nothing, or an idle channel that
    is now busy.  [-EDEADLK] is not among the errors. *)
Lemma wp_acquire (Q : Z + nat → V → Prop) k c v mem chs sem dis cw :
  vdma_ok (VS k c v mem chs sem false dis cw) →
  (∀ rc k', (rc = - EBUSY ∨ rc = - EINTR) → live k' = live k →
     Q (inl rc) (VS k' c v mem chs sem false dis cw)) →
  (∀ i ch k', chs !! i = Some ch → busy ch = 0 → 0 < sem → live k' = live k →
     Q (inr i) (VS k' c v mem (<[i:=ch <| busy := 1 |>]> chs) (sem - 1) false dis cw)) →
  wp vme_dma_channel_acquire Q (VS k c v mem chs sem false dis cw).
Proof.
  intros [_ Hsem Hch] HE HS. simpl in *. unfold vme_dma_channel_acquire. wp_step. wp_step.
  change (dma_disable (VS k c v mem chs sem false dis cw)) with dis.
  destruct (truthy dis) eqn:Ed; [wp_step; apply HE; [by left|done]|].
  wp_step. unfold down_interruptible. wp_step. unfold vcall, wp at 1, zoom, kcall. simpl.
  unfold zoom. simpl. pose proof (signal_pending_live k) as Hk.
  destruct (signal_pending k) as [[] k1]; simpl in Hk |- *.
  { change (truthy (- EINTR)) with true. cbv iota. wp_step. apply HE; [by right|done]. }
  change (wp (n ← gets dma_semaphore;
      if n <=? 0 then mret (- EINTR)
      else modify (λ s : V, s <| dma_semaphore := n - 1 |>);; mret 0)
    (λ a s', wp (if truthy a then mret (inl a) else
      d ← gets dma_disable;
      if truthy d then up;; mret (inl (- EBUSY)) else
      lock_dma;; ch ← lock_avail_channel; unlock_dma;;
      match ch with Some i => mret (inr i) | None => mret (inl (- EDEADLK)) end) Q s')
    (VS k1 c v mem chs sem false dis cw)).
  wp_step. wp_step. change (dma_semaphore (VS k1 c v mem chs sem false dis cw)) with sem.
  destruct (Z.leb_spec sem 0).
  { wp_step. change (truthy (- EINTR)) with true. cbv iota. wp_step. apply HE; [by right|done]. }
  wp_step. wp_step. wp_step. change (truthy 0) with false. cbv iota. wp_step. wp_step.
  change ((VS k1 c v mem chs sem false dis cw) <| dma_semaphore := sem - 1 |>)
    with (VS k1 c v mem chs (sem - 1) false dis cw).
  change (dma_disable (VS k1 c v mem chs (sem - 1) false dis cw)) with dis.
  rewrite Ed. wp_step. unfold lock_dma. wp_step. wp_step.
  change (dma_lock (VS k1 c v mem chs (sem - 1) false dis cw)) with false. cbv iota.
  wp_step. wp_step. unfold lock_avail_channel. wp_step. wp_step.
  destruct (idle_count_pos chs) as [i Hi]; [lia|].
  match goal with |- context [find_idx ?f (channels ?s)] => change (channels s) with chs end.
  rewrite Hi. wp_step.
  pose proof Hi as [(ch & Hlk & Hb) _]%find_idx_lookup.
  match goal with |- wp _ _ ?s => change s with (VS k1 c v mem chs (sem - 1) true dis cw) end.
  eapply wp_on_chan; [exact Hlk|]. apply wp_set_chan. intros k' c' v' mem' ch' [= <- <- <- <- <-].
  wp_step. wp_step. unfold unlock_dma. wp_step. wp_step.
  apply (HS i ch k1); try done. unfold truthy in Hb. by destruct (Z.eqb_spec (busy ch) 0).
Qed.

Lemma wp_on_chan_ins {A} i (m : M D A) (Q : A → V → Prop) k c v mem chs sem lk dis cw ch :
  (i < length chs)%nat →
  wp m (λ a d, ∀ k' c' v' mem' ch', d = mk_dma_state (mk_bridge k' c' v') mem' ch' →
     Q a (VS k' c' v' mem' (<[i:=ch']> chs) sem lk dis cw)) (DS k c v mem ch) →
  wp (on_chan i m) Q (VS k c v mem (<[i:=ch]> chs) sem lk dis cw).
Proof.
  intros Hi Hm. eapply wp_on_chan; [by apply list_lookup_insert_eq|].
  eapply wp_mono; [exact Hm|]. intros a d HQ k' c' v' mem' ch' Hd.
  rewrite list_insert_insert_eq. by apply HQ.
Qed.

(** Releasing a channel. *)
Lemma wp_release i (Q : () → V → Prop) k c v mem chs sem dis cw ch :
  (i < length chs)%nat →
  Q () (VS k c v mem (<[i:=ch <| busy := 0 |>]> chs) (sem + 1) false dis cw) →
  wp (vme_dma_channel_release i) Q (VS k c v mem (<[i:=ch]> chs) sem false dis cw).
Proof.
  intros Hi HQ. unfold vme_dma_channel_release, lock_dma. wp_step. wp_step. wp_step.
  change (dma_lock _) with false. cbv iota. wp_step. wp_step.
  match goal with |- wp _ _ ?s => change s with (VS k c v mem (<[i:=ch]> chs) sem true dis cw) end.
  apply wp_on_chan_ins; [done|]. apply wp_set_chan. intros k' c' v' mem' ch' [= <- <- <- <- <-].
  wp_step. unfold unlock_dma. wp_step. unfold up. wp_step. exact HQ.
Qed.

(** A request as a whole: the module's state afterwards. *)
Definition same_module (s s' : V) : Prop :=
  vdma_ok s' ∧ live (kern (vbr s')) = live (kern (vbr s)) ∧
  dma_semaphore s' = dma_semaphore s ∧ dma_disable s' = dma_disable s ∧
  busy <$> channels s' = busy <$> channels s ∧ num <$> channels s' = num <$> channels s.

Lemma vdma_ok_released k c v mem chs sem dis cw i ch ch' k' c' v' mem' cw' :
  vdma_ok (VS k c v mem chs sem false dis cw) → chs !! i = Some ch → busy ch = 0 →
  busy ch' = 0 → num ch' = num ch → hw_desc_list ch' = [] → live k' = live k →
  same_module (VS k c v mem chs sem false dis cw)
              (VS k' c' v' mem' (<[i:=ch']> chs) sem false dis cw').
Proof.
  intros [V1 V2 V3] Hi Hb Hb' Hn Hhw Hk. simpl in *. split.
  - split; simpl.
    + done.
    + rewrite (idle_count_insert chs i ch) by done. unfold idle. rewrite Hb, Hb'. simpl. lia.
    + intros j x Hx. destruct (decide (j = i)) as [->|Hne].
      * rewrite list_lookup_insert_eq in Hx by (by eapply lookup_lt_Some). simplify_eq.
        split; [by left|done].
      * rewrite list_lookup_insert_ne in Hx by done. by eapply V3.
  - split_and!; try done; simpl; rewrite list_fmap_insert; apply list_insert_id;
      rewrite list_lookup_fmap, Hi; simpl; by rewrite ?Hb, ?Hb', ?Hn.
Qed.

Lemma wp_do_dma desc wakeups to_user (s : V) :
  vdma_ok s → pages_available to_user → request_fits desc →
  wp (vme_do_dma_buf desc wakeups to_user) (λ r s', same_module s s' ∧ r.1 <= 0) s.
Proof.
  intros Hok Hav Hfit. destruct s as [[k c v] mem chs sem lk dis cw].
  pose proof (vo_lock _ Hok) as Hlk. simpl in Hlk. subst lk.
  change (mk_vdma_state (mk_bridge k c v) mem chs sem false dis cw)
    with (VS k c v mem chs sem false dis cw) in *.
  assert (Hsame : ∀ k', live k' = live k →
    same_module (VS k c v mem chs sem false dis cw) (VS k' c v mem chs sem false dis cw)).
  { intros k' Hk'. split; [by destruct Hok; split|]. by split_and!. }
  unfold vme_do_dma_buf.
  destruct (negb (truthy (dma_length desc))); [wp_step; split; [by apply Hsame|done]|].
  destruct (bad_dir desc); [wp_step; split; [by apply Hsame|done]|].
  wp_step. apply wp_acquire; [done|..].
  { intros rc k' Hrc Hk'. cbv iota. wp_step. split; [by apply Hsame|]. simpl.
    destruct Hrc as [->| ->]; done. }
  intros i ch k1 Hi Hb Hsem Hk1. cbv iota.
  pose proof (lookup_lt_Some _ _ _ Hi) as Hlt.
  destruct (vo_chan _ Hok i ch Hi) as [_ Hhw]. specialize (Hhw Hb).
  wp_step. apply wp_on_chan_ins; [done|]. apply wp_set_chan.
  intros k2 c2 v2 mem2 ch2 [= <- <- <- <- <-]. wp_step. apply wp_on_chan_ins; [done|].
  eapply wp_mono.
  { apply (wp_vme_dma_setup (live k1)); [exact Hhw|reflexivity|done|done]. }
  intros rc d (k3 & c3 & mem3 & ch3 & -> & Hb3 & Hn3 & Hr) k4 c4 v4 mem4 ch4 [= <- <- <- <- <-].
  change (num ch3 = num ch) in Hn3. wp_step.
  assert (Hfin : ∀ (r : Z * vme_dma) k5 c5 v5 mem5 ch5, r.1 <= 0 → num ch5 = num ch → hw_desc_list ch5 = [] →
    live k5 = live k1 →
    wp (vme_dma_channel_release i;;
        modify (λ s : V, s <| channel_wait := alter (λ n, n + 1) i (channel_wait s) |>);;
        mret r) (λ r s', same_module (VS k c v mem chs sem false dis cw) s' ∧ r.1 <= 0)
      (VS k5 c5 v5 mem5 (<[i:=ch5]> chs) (sem - 1) false dis cw)).
  { intros r k5 c5 v5 mem5 ch5 Hr5 Hn5 Hhw5 Hk5. wp_step. apply wp_release; [done|].
    wp_step. wp_step. wp_step. split; [|done]. rewrite Z.sub_add.
    eapply vdma_ok_released; try done. by rewrite Hk5. }
  destruct Hr as [(Hrc & Hhw3 & Hk3)|(-> & Hready)].
  - assert (Ht : truthy rc = true) by (unfold truthy; destruct (Z.eqb_spec rc 0); lia || done).
    rewrite Ht. wp_step. apply Hfin; try done. simpl. lia.
  - change (truthy 0) with false. cbv iota. wp_step. apply wp_on_chan_ins; [done|].
    eapply wp_mono; [by apply wp_run_transfer|].
    intros [rc status] d (k5 & c5 & mem5 & ch5 & -> & Hb5 & Hn5 & Hhw5 & Hk5 & Hrc)
      k6 c6 v6 mem6 ch6 [= <- <- <- <- <-].
    wp_step. apply Hfin; try done; [|congruence]. simpl in *. destruct Hrc as [->| ->]; done.
Qed.
End proofs.
