(* ===== verification/VmeDmaSpec.v ===== *)
(** The properties of DMA transfers: what the chip is told to move, what the
    scatter list covers, what a request leaves behind, what two concurrent
    requests can do to each other, and two ways in which the code falls short:
    a VME range that wraps, and module exit. *)
From S2P Require Import Prelude VmeBus Tsi148Regs Tsi148Attr KernelIf VmeMisc Tsi148Dma.
From S2P Require Import Tsi148DmaProofs Tsi148DmaChain VmeDma VmeDmaProofs VmeDmaProps.

Local Open Scope Z_scope.

Section props.
Context `{KernelLaws K} `{!DmaKernel K} `{!DmaKernelLaws K} `{ChipIO C}.
Implicit Types (b : bridge K C) (mem : gmap Z tsi148_dma_desc) (ch : dma_channel).
Notation D := (dma_state K C).
Notation V := (vdma_state K C).

(** C5 Setting up a transfer.  For a mapped scatter list whose VME range ends
    below 4 GB, [tsi148_dma_setup] either fails with everything it allocated
    given back, or the address it writes to the channel's link register starts
    a chain that the chip walks to its end and whose blocks move exactly the
    bytes of the list, in order, to or from consecutive VME addresses (one VME
    address per entry with [novmeinc]), each block within the boundary that the
    VME64 standard sets for the modifier, with the attribute words of the
    request. *)
Theorem dma_setup_chain_correct b mem ch :
  hw_desc_list ch = [] → sg_bus ch ≠ [] → Forall bus_ok (sg_bus ch) →
  is_u32 (vme_start (cdesc ch)) → vme_start (cdesc ch) + zsum snd (sg_bus ch) < 2 ^ 32 →
  wp tsi148_dma_setup (λ rc s,
    (rc < 0 ∧ hw_desc_list (chan s) = [] ∧ live (kern (dbr s)) = live (kern b)) ∨
    (rc = 0 ∧ ∃ link c1 ds,
       chip (dbr s) = iowrite32be link (DNLAL (num ch)) (iowrite32be 0 (DNLAU (num ch)) c1) ∧
       hw_walk (S (length (hw_desc_list (chan s)))) (dmem s) (hw_desc_list (chan s)) link = Some ds ∧
       moves_all (noinc (cdesc ch)) (vme_start (cdesc ch)) (sg_bus ch)
         (desc_block (cdesc ch) <$> ds) ∧
       zsum snd (desc_block (cdesc ch) <$> ds) = zsum snd (sg_bus ch) ∧
       Forall (block_ok (tsi148_get_bshift (cdesc ch))) (desc_block (cdesc ch) <$> ds) ∧
       Forall (λ d, dsat d = u32 (tsi148_dma_setup_src (cdesc ch)) ∧
                    ddat d = u32 (tsi148_dma_setup_dst (cdesc ch)) ∧
                    dsau d = 0 ∧ ddau d = 0) ds)) (mk_dma_state b mem ch).
Proof.
  intros Hl Hne Hb Hv Ht. destruct b as [k c v].
  eapply wp_mono; [by apply (wp_dma_setup (live k))|].
  intros rc s (k' & c' & mem' & ch' & l' & -> & _ & [(Hrc & -> & Hk)|(-> & [_ Hu] & _ & Hr)]);
    [by left|right]. split; [done|].
  destruct (Hr Hne) as (bs & e & l'' & c1 & -> & -> & _ & Hm & Hok & Hlk).
  destruct (hw_walk_links (cdesc ch) _ _ mem' (e :: l'') [] (e :: l'') bs eq_refl Hu Hlk)
    as (ds & Hw & Hf).
  assert (Hbs : desc_block (cdesc ch) <$> ds = bs).
  { clear -Hf. induction Hf as [|d b' ds bs Hd _ IH]; [done|].
    destruct Hd as (Hd & _). by rewrite fmap_cons, Hd, IH. }
  exists (hd_phys e), c1, ds. split; [done|]. split; [exact Hw|]. rewrite Hbs.
  split; [done|]. split; [by eapply moves_all_total|]. split; [done|].
  clear -Hf. induction Hf as [|d b' ds bs Hd _ IH]; constructor; [|done].
  destruct Hd as (_ & ? & ? & _ & ? & ?). by split_and!.
Qed.


(** A VME range that reaches the 4 GB limit: [tsi148_dma_link_add] reports
    success without filling a descriptor and leaves a NULL next descriptor, so
    with another entry to come the chain loop hits [BUG_ON]. *)
Theorem link_add_wraps virt vme dma size numpages i bshift sa da (s : D) es :
  0 < virt → is_u32 vme → 0 < size < 2 ^ 32 → 2 ^ 32 <= vme + size → es ≠ [] →
  tsi148_dma_link_add virt vme dma size numpages i bshift sa da s = Some ((0, 0), s) ∧
  chain_loop ((dma, size) :: es) numpages i bshift sa da vme virt s = None.
Proof.
  intros Hvirt Hv Hs Hw Hne.
  assert (E : tsi148_dma_link_add virt vme dma size numpages i bshift sa da s = Some ((0, 0), s)).
  { unfold tsi148_dma_link_add. destruct (Z.eqb_spec virt 0); [lia|]. cbn [link_loop].
    assert (Eu : u32 (vme + size) = vme + size - 2 ^ 32).
    { unfold u32, is_u32 in *. Z.div_mod_to_equations. lia. }
    rewrite Eu. rewrite (proj2 (Z.ltb_ge vme (vme + size - 2 ^ 32))) by lia. done. }
  split; [done|]. destruct es as [|[a n] es]; [done|].
  cbn [chain_loop]. unfold mbind, M_bind. rewrite E. done.
Qed.

(** [vme_dma_exit] with an idle channel: only the chip and the flag change. *)
Lemma wp_dma_exit k c v mem chs sem lk dis cw :
  length chs = 2%nat → 0 < sem →
  wp vme_dma_exit (λ _ s', ∃ c' : C, s' = VS k c' v mem chs sem lk 1 cw)
    (VS k c v mem chs sem lk dis cw : V).
Proof.
  intros Hlen Hsem.
  destruct chs as [|c0 [|c1 [|? ?]]]; try done.
  assert (Hab : ∀ k c v mem ch, wp tsi148_dma_abort (λ _ d, ∃ c', d = DS k c' v mem ch)
    (DS k c v mem ch : D)).
  { intros k0 c' v0 mem0 ch. unfold tsi148_dma_abort. wp_step. apply wp_get_chan. wp_step.
    apply wp_dchip. unfold rd, wp at 1. destruct (ioread32be (DCTL (num ch)) c') as [x c2].
    apply wp_dchip. unfold wr, wp at 1. by eexists. }
  unfold vme_dma_exit. wp_step. wp_step. wp_step.
  change (seq 0 (Z.to_nat TSI148_NUM_DMA_CHANNELS)) with [0%nat; 1%nat].
  cbn [mfold]. wp_step.
  match goal with |- wp _ _ ?s => change s with (VS k c v mem [c0; c1] sem lk 1 cw) end.
  eapply (wp_on_chan 0); [done|]. eapply wp_mono; [apply Hab|].
  intros [] d [c2 ->] k' c' v' mem' ch' [= <- <- <- <- <-]. cbn [list_insert insert].
  wp_step. eapply (wp_on_chan 1); [done|]. eapply wp_mono; [apply Hab|].
  intros [] d [c3 ->] k' c' v' mem' ch' [= <- <- <- <- <-]. cbn [list_insert insert].
  wp_step.
  assert (Hdu : ∀ Q : () → V → Prop, Q () (VS k c3 v mem [c0; c1] sem lk 1 cw) →
    wp (down;; up) Q (VS k c3 v mem [c0; c1] sem lk 1 cw)).
  { intros Q HQ. unfold down, up. wp_step. wp_step. wp_step.
    change (dma_semaphore (VS k c3 v mem [c0; c1] sem lk 1 cw)) with sem.
    rewrite (proj2 (Z.leb_gt sem 0)) by lia. wp_step. wp_step.
    replace sem with (sem - 1 + 1) in HQ by lia. exact HQ. }
  wp_step. apply Hdu. wp_step. apply Hdu. wp_step. by exists c3.
Qed.
(** Module exit does not wait for a transfer in progress: as long as one
    channel is idle, [vme_dma_exit] takes and gives back that channel's
    semaphore count twice and returns, with every busy channel still busy. *)
Theorem dma_exit_does_not_wait (s : V) :
  vdma_ok s → length (channels s) = 2%nat → 0 < dma_semaphore s →
  wp vme_dma_exit (λ _ s', dma_disable s' = 1 ∧ busy <$> channels s' = busy <$> channels s ∧
    dma_semaphore s' = dma_semaphore s) s.
Proof.
  intros Hok Hlen Hsem. destruct s as [[k c v] mem chs sem lk dis cw].
  eapply wp_mono; [by apply wp_dma_exit|]. by intros [] s' [c' ->].
Qed.
End props.

(** The scatter list of a transfer covers the buffer: one entry per page, in
    order, with all the bytes, each entry inside its page, the first starting
    at the buffer's offset and no gap from one to the next. *)
Theorem sgl_covers_buffer (pages : list Z) (uaddr len : Z) :
  0 <= uaddr → 0 < len < 2 ^ 32 → Z.of_nat (length pages) = buffer_pages uaddr len →
  let l := sgl_fill pages uaddr len in
  sg_page <$> l = pages ∧ zsum sg_length l = len ∧ Forall entry_in_page l ∧ gapless l ∧
  sg_offset <$> head l = Some (uaddr mod PAGE_SIZE).
Proof. apply sgl_fill_facts. Qed.

(** * Witnesses *)

Notation sim_D := (dma_state SimKernel.kernel LatchChip.chip).
Notation sim_V := (vdma_state SimKernel.kernel LatchChip.chip).

Definition sim_br : bridge SimKernel.kernel LatchChip.chip :=
  mk_bridge SimKernel.boot LatchChip.reset
    (mk_vme_verr false (mk_vme_bus_error_desc (mk_vme_bus_error 0 0) 0) []).

Definition zero_attr : vme_dma_attr := mk_vme_dma_attr 0 0 0 0 0 0.

(** Read 0x180 bytes of A32 block transfers from VME 0x1080 into the buffer at
    0x2f00. *)
Definition sim_request : vme_dma :=
  mk_vme_dma 0 0x180 0 VME_DMA_FROM_DEVICE
    (zero_attr <| dma_am := VME_A32_USER_BLT |> <| dma_data_width := 32 |> <| dma_addrl := 0x1080 |>)
    (zero_attr <| dma_addrl := 0x2f00 |>)
    (mk_vme_dma_ctrl VME_DMA_BSIZE_4096 VME_DMA_BACKOFF_0 VME_DMA_BSIZE_4096 VME_DMA_BACKOFF_0).

Definition sim_channel (n : Z) (bus : list (Z * Z)) : dma_channel :=
  mk_dma_channel 0 n sim_request 0 0 [] 0 bus [] 0.

Definition sim_module : sim_V :=
  mk_vdma_state sim_br ∅ [sim_channel 0 []; sim_channel 1 []] 2 false 0 [0; 0].

Definition sim_bus : list (Z * Z) := [(0x10f00, 0x100); (0x40000, 0x80)].

Lemma sim_module_ok : vdma_ok sim_module.
Proof.
  split; [done|done|]. intros [|[|i]] ch Hch; [..|done]; injection Hch as <-; split; auto.
Qed.

(** The chain for [sim_request]: blocks up to each 256-byte boundary. *)
Example sim_chain :
  (λ r, let d := r.2 in
     (r.1, option_map (map (desc_block sim_request))
             (hw_walk 9 (dmem d) (hw_desc_list (chan d)) (chip (dbr d) (DNLAL 0))))) <$>
    tsi148_dma_setup (mk_dma_state sim_br ∅ (sim_channel 0 sim_bus)) =
  Some (0, Some [(0x1080, 0x10f00, 0x80); (0x1100, 0x10f80, 0x80); (0x1180, 0x40000, 0x80)]).
Proof. vm_compute. reflexivity. Qed.

Lemma dma_setup_chain_correct_witness :
  wp (S := sim_D) tsi148_dma_setup (λ rc _, rc < 0 ∨ rc = 0)
    (mk_dma_state sim_br ∅ (sim_channel 0 sim_bus)).
Proof.
  eapply wp_mono; [apply (dma_setup_chain_correct sim_br ∅ (sim_channel 0 sim_bus))|].
  - reflexivity.
  - discriminate.
  - repeat constructor; vm_compute; congruence.
  - vm_compute. split; congruence.
  - vm_compute. reflexivity.
  - intros rc s [[H _]|[H _]]; [by left|by right].
Defined.


Lemma link_add_wraps_witness :
  chain_loop [(0x1000, 0x1000); (0x2000, 0x1000)] 2 0 0 0 0 0xfffff800 8
    (mk_dma_state sim_br ∅ (sim_channel 0 [])) = None.
Proof.
  refine (proj2 (link_add_wraps 8 0xfffff800 0x1000 0x1000 2 0 0 0 0
    (mk_dma_state sim_br ∅ (sim_channel 0 [])) [(0x2000, 0x1000)] _ _ _ _ _));
    vm_compute; try split; congruence.
Defined.

(** Exit with channel 0 busy. *)
Lemma dma_exit_does_not_wait_witness :
  let s : sim_V := mk_vdma_state sim_br ∅
    [(sim_channel 0 []) <| busy := 1 |>; sim_channel 1 []] 1 false 0 [0; 0] in
  wp vme_dma_exit (λ _ s', busy <$> channels s' = [1; 0]) s.
Proof.
  intros s. eapply wp_mono; [apply (dma_exit_does_not_wait s)|].
  - split; [done|done|]. intros [|[|i]] ch Hch; [..|done]; injection Hch as <-; split; auto.
  - reflexivity.
  - reflexivity.
  - intros [] s' (_ & H & _). exact H.
Defined.

Lemma sgl_covers_buffer_witness :
  zsum sg_length (sgl_fill [5; 6; 9] 0x2f00 0x1180) = 0x1180.
Proof.
  destruct (sgl_covers_buffer [5; 6; 9] 0x2f00 0x1180) as (_ & H & _);
    [vm_compute; congruence|vm_compute; split; congruence|vm_compute; reflexivity|exact H].
Defined.
