(* ===== verification/VmeDmaLock.v ===== *)
(** Concurrent DMA requests: the semaphore, the mutex and the [busy] flags of
    [src/vmebridge/driver/vme_dma.c] as an interleaving of tasks.

    A task is between two atomic steps of [vme_dma_channel_acquire] or
    [vme_dma_channel_release]; a critical section under [dma_lock] is one step.
    Any number of tasks run, transfers and module exit happen at any time. *)
From S2P Require Import Prelude VmeBus Tsi148Regs Tsi148Attr KernelIf VmeMisc Tsi148Dma VmeDma.

Local Open Scope Z_scope.

(** Where a task is: outside; after [down_interruptible]; with a channel;
    after the [busy] flag was cleared; with [ERR_PTR(-EDEADLK)]. *)
Inductive pc := PIdle | PDowned | PHolding (i : nat) | PReleasing | PDeadlk.

Definition holding (p : pc) : option nat := if p is PHolding i then Some i else None.
Definition uses_count (p : pc) : Z := if p is PIdle then 0 else 1.
Definition is_holding (p : pc) : Z := if p is PHolding _ then 1 else 0.

Section lock.
Context `{Kernel K} `{!DmaKernel K} `{ChipIO C}.
Notation V := (vdma_state K C).
Implicit Types (s : V) (ps : list pc).

(** The critical sections, as the code composes them. *)
Definition acquire_section : M V (option nat) :=
  lock_dma;; ch ← lock_avail_channel; unlock_dma;; mret ch.

Definition release_section (i : nat) : M V () :=
  lock_dma;; on_chan i (set_chan (λ ch, ch <| busy := 0 |>));; unlock_dma.

(** What tasks, transfers and module exit can do. *)
Inductive step : V * list pc → V * list pc → Prop :=
  | step_down s ps t :
      ps !! t = Some PIdle → truthy (dma_disable s) = false → 0 < dma_semaphore s →
      step (s, ps) (s <| dma_semaphore := dma_semaphore s - 1 |>, <[t := PDowned]> ps)
  | step_back s s' ps t :
      ps !! t = Some PDowned → truthy (dma_disable s) = true → up s = Some ((), s') →
      step (s, ps) (s', <[t := PIdle]> ps)
  | step_lock s s' ps t r :
      ps !! t = Some PDowned → acquire_section s = Some (r, s') →
      step (s, ps) (s', <[t := if r is Some i then PHolding i else PDeadlk]> ps)
  | step_work s s' ps t i :
      (* setup, transfer and cleanup on the channel the task holds *)
      ps !! t = Some (PHolding i) →
      busy <$> channels s' = busy <$> channels s →
      dma_semaphore s' = dma_semaphore s → dma_lock s' = dma_lock s →
      step (s, ps) (s', ps)
  | step_free s s' ps t i :
      ps !! t = Some (PHolding i) → release_section i s = Some ((), s') →
      step (s, ps) (s', <[t := PReleasing]> ps)
  | step_up s s' ps t :
      ps !! t = Some PReleasing → up s = Some ((), s') →
      step (s, ps) (s', <[t := PIdle]> ps)
  | step_exit s ps :
      step (s, ps) (s <| dma_disable := 1 |>, ps).

(** After [vme_dma_init], every task outside. *)
Definition initial (x : V * list pc) : Prop :=
  dma_lock x.1 = false ∧ dma_semaphore x.1 = Z.of_nat (length (channels x.1)) ∧
  Forall (λ b, b = 0) (busy <$> channels x.1) ∧ Forall (λ p, p = PIdle) x.2.

Inductive reachable : V * list pc → Prop :=
  | reach_init x : initial x → reachable x
  | reach_step x y : reachable x → step x y → reachable y.

(** The channels held, the flags and the count agree. *)
Record lock_inv (x : V * list pc) : Prop := {
  li_lock : dma_lock x.1 = false;
  li_sem : 0 <= dma_semaphore x.1;
  li_count : dma_semaphore x.1 + zsum uses_count x.2 = Z.of_nat (length (channels x.1));
  li_nodup : NoDup (omap holding x.2);
  li_busy : ∀ i, i ∈ omap holding x.2 ↔ ∃ b, (busy <$> channels x.1) !! i = Some b ∧ b ≠ 0;
  li_ok : PDeadlk ∉ x.2
}.

Lemma omap_insert ps t p q :
  ps !! t = Some p →
  ∃ rest, omap holding ps ≡ₚ option_list (holding p) ++ rest ∧
          omap holding (<[t := q]> ps) ≡ₚ option_list (holding q) ++ rest.
Proof.
  revert t. induction ps as [|x ps IH]; intros [|t] Ht; [done|done| |].
  - injection Ht as ->. exists (omap holding ps). simpl. by destruct (holding p), (holding q).
  - destruct (IH t Ht) as (rest & H1 & H2). exists (option_list (holding x) ++ rest). simpl.
    destruct (holding x) as [i|]; simpl; [|done]. rewrite H1, H2. split; by apply Permutation_middle.
Qed.

Lemma holding_count ps : Z.of_nat (length (omap holding ps)) = zsum is_holding ps.
Proof.
  induction ps as [|x ps IH]; [done|]. rewrite zsum_cons, <- IH.
  destruct x; cbn [omap list_omap holding length is_holding]; lia.
Qed.

Lemma count_le ps : zsum is_holding ps <= zsum uses_count ps.
Proof.
  induction ps as [|x ps IH]; [done|]. rewrite !zsum_cons.
  destruct x; cbn [is_holding uses_count]; lia.
Qed.

(** With a task past the semaphore, some channel is idle. *)
Lemma some_idle s ps t :
  lock_inv (s, ps) → ps !! t = Some PDowned →
  find_idx (λ ch, negb (truthy (busy ch))) (channels s) ≠ None.
Proof.
  intros [_ Hsem Hcount Hnd Hbusy _] Ht Hnone. simpl in *.
  pose proof (proj1 (find_idx_None _ _) Hnone) as Hall.
  assert (Hle : (length (channels s) <= length (omap holding ps))%nat).
  { rewrite <- (length_seq (length (channels s)) 0).
    apply submseteq_length, NoDup_submseteq; [apply NoDup_seq|].
    intros i Hi%elem_of_seq. apply Hbusy.
    destruct (lookup_lt_is_Some_2 (channels s) i ltac:(lia)) as [ch Hch].
    exists (busy ch). rewrite list_lookup_fmap, Hch. split; [done|].
    specialize (Hall ch (list_elem_of_lookup_2 _ _ _ Hch)).
    unfold truthy in Hall. by destruct (Z.eqb_spec (busy ch) 0). }
  pose proof (holding_count ps) as Hc.
  assert (Hlt : zsum is_holding ps < zsum uses_count ps); [|lia].
  clear -Ht. revert t Ht. induction ps as [|x ps IH]; intros [|t] Ht; [done|done| |].
  - injection Ht as ->. pose proof (count_le ps). rewrite !zsum_cons. cbn [is_holding uses_count]. lia.
  - specialize (IH t Ht). rewrite !zsum_cons. destruct x; cbn [is_holding uses_count]; lia.
Qed.

Lemma holding_nodup_insert ps t p q :
  ps !! t = Some p → NoDup (omap holding ps) →
  (∀ i, holding q = Some i → holding p = Some i ∨ i ∉ omap holding ps) →
  NoDup (omap holding (<[t := q]> ps)).
Proof.
  intros Ht Hnd Hq. destruct (omap_insert ps t p q Ht) as (rest & H1 & H2).
  rewrite H1 in Hnd. rewrite H2. destruct (holding q) as [i|]; simpl.
  - apply list.NoDup_cons. split; [|by apply list.NoDup_app in Hnd as (_ & _ & ?)].
    destruct (Hq i eq_refl) as [Hp|Hn].
    + rewrite Hp in Hnd. by apply list.NoDup_cons in Hnd as [? _].
    + intros Hin. apply Hn. rewrite H1. apply elem_of_app. by right.
  - by apply list.NoDup_app in Hnd as (_ & _ & ?).
Qed.

Lemma elem_of_insert ps t p q i :
  ps !! t = Some p → NoDup (omap holding ps) →
  i ∈ omap holding (<[t := q]> ps) ↔
    holding q = Some i ∨ (i ∈ omap holding ps ∧ holding p ≠ Some i).
Proof.
  intros Ht Hnd. destruct (omap_insert ps t p q Ht) as (rest & H1 & H2).
  rewrite H1 in Hnd. rewrite H2, H1, !elem_of_app.
  assert (Ho : ∀ o : option nat, i ∈ option_list o ↔ o = Some i).
  { intros [j|]; simpl; [|set_solver]. rewrite list_elem_of_singleton. naive_solver. }
  rewrite !Ho. split; [|tauto].
  intros [?|Hr]; [by left|right]. split; [by right|]. intros Hp. rewrite Hp in Hnd.
  apply list.NoDup_cons in Hnd as [? _]. done.
Qed.

(** Runs of the critical sections. *)
Lemma acquire_section_run s r s' :
  dma_lock s = false → acquire_section s = Some (r, s') →
  dma_lock s' = false ∧ dma_semaphore s' = dma_semaphore s ∧
  match r with
  | None => s' = s ∧ find_idx (λ ch, negb (truthy (busy ch))) (channels s) = None
  | Some i => (busy <$> channels s) !! i = Some 0 ∧
      busy <$> channels s' = <[i := 1]> (busy <$> channels s)
  end.
Proof.
  destruct s as [br mem chs sem lk dis cw]. simpl. intros ->.
  unfold acquire_section, lock_dma, lock_avail_channel, unlock_dma, on_chan, set_chan, gets, modify,
    mbind, M_bind, mret, M_ret. simpl.
  destruct (find_idx _ chs) as [i|] eqn:E; simpl.
  - pose proof E as [(ch & Hch & Hb) _]%find_idx_lookup. rewrite Hch. simpl. intros [= <- <-]. simpl.
    split_and!; try done.
    + rewrite list_lookup_fmap, Hch. simpl. unfold truthy in Hb.
      by destruct (Z.eqb_spec (busy ch) 0) as [->|].
    + by rewrite list_fmap_insert.
  - intros [= <- <-]. done.
Qed.

Lemma release_section_run i s s' :
  dma_lock s = false → release_section i s = Some ((), s') →
  dma_lock s' = false ∧ dma_semaphore s' = dma_semaphore s ∧
  busy <$> channels s' = <[i := 0]> (busy <$> channels s).
Proof.
  destruct s as [br mem chs sem lk dis cw]. simpl. intros ->.
  unfold release_section, lock_dma, unlock_dma, on_chan, set_chan, gets, modify,
    mbind, M_bind, mret, M_ret. simpl.
  destruct (chs !! i) as [ch|] eqn:E; [|done]. simpl. intros [= <-]. simpl.
  by rewrite list_fmap_insert.
Qed.

Lemma up_run s s' :
  up s = Some ((), s') →
  dma_lock s' = dma_lock s ∧ dma_semaphore s' = dma_semaphore s + 1 ∧ channels s' = channels s.
Proof. destruct s. intros [= <-]. done. Qed.

Lemma zsum_uses ps t p q :
  ps !! t = Some p →
  zsum uses_count (<[t:=q]> ps) = zsum uses_count ps - uses_count p + uses_count q.
Proof. apply zsum_insert. Qed.

Lemma deadlk_insert ps t q : PDeadlk ∉ ps → q ≠ PDeadlk → PDeadlk ∉ <[t := q]> ps.
Proof. intros Hn Hq Hin. apply list_elem_of_lookup in Hin as [j Hj].
  apply list_lookup_insert_Some in Hj as [(_ & ? & _)|[_ Hj]]; [done|].
  apply Hn. by eapply list_elem_of_lookup_2.
Qed.

(** A task changes place and holds no channel before and after. *)
Lemma inv_move s s' ps t p q :
  lock_inv (s, ps) → ps !! t = Some p → holding p = None → holding q = None → q ≠ PDeadlk →
  dma_lock s' = false → 0 <= dma_semaphore s' →
  dma_semaphore s' + uses_count q = dma_semaphore s + uses_count p →
  busy <$> channels s' = busy <$> channels s →
  lock_inv (s', <[t := q]> ps).
Proof.
  intros [I1 I2 I3 I4 I5 I6] Ht Hp Hq Hd Hl Hs Hc Hb. simpl in *.
  assert (Hlen : length (channels s') = length (channels s)).
  { rewrite <- (length_fmap busy (channels s')), Hb. apply length_fmap. }
  split; simpl; try done.
  - rewrite (zsum_uses _ _ _ _ Ht), Hlen. lia.
  - eapply holding_nodup_insert; [done|done|]. intros i. by rewrite Hq.
  - intros i. rewrite (elem_of_insert _ _ _ _ _ Ht I4), Hp, Hq, Hb, <- I5. naive_solver.
  - by apply deadlk_insert.
Qed.

Lemma step_inv x y : step x y → lock_inv x → lock_inv y.
Proof.
  intros Hstep HI. destruct Hstep as
    [s ps t Ht Hd Hs|s s' ps t Ht Hd Hup|s s' ps t r Ht Hacq|s s' ps t i Ht Hb Hs Hl
    |s s' ps t i Ht Hrel|s s' ps t Ht Hup|s ps]; pose proof HI as [I1 I2 I3 I4 I5 I6]; simpl in *.
  - apply (inv_move s _ ps t PIdle); try done; cbn [dma_semaphore uses_count]; simpl; lia.
  - apply up_run in Hup as (Hl & Hs & Hc).
    apply (inv_move s _ ps t PDowned); try done; cbn [uses_count]; [congruence|lia|lia|by rewrite Hc].
  - destruct (acquire_section_run _ _ _ I1 Hacq) as (Hl & Hs & Hr).
    destruct r as [i|].
    2: { exfalso. destruct Hr as [_ Hr]. by apply (some_idle s ps t HI Ht). }
    destruct Hr as [Hi Hb].
    assert (Hni : i ∉ omap holding ps).
    { intros Hin. apply I5 in Hin as (b & Hb' & Hne). rewrite Hi in Hb'. by simplify_eq. }
    assert (Hlen : length (channels s') = length (channels s)).
    { rewrite <- (length_fmap busy (channels s')), Hb, length_insert. apply length_fmap. }
    split; simpl; try done; try lia.
    + rewrite (zsum_uses _ _ _ _ Ht), Hlen. simpl. lia.
    + eapply holding_nodup_insert; [done|done|]. intros j [= <-]. by right.
    + intros j. rewrite (elem_of_insert _ _ _ _ _ Ht I4), Hb. simpl.
      rewrite I5. split.
      * intros [[= ->]|[(b & Hb' & Hne) _]].
        -- exists 1. split; [|done]. apply list_lookup_insert_eq. by eapply lookup_lt_Some.
        -- destruct (decide (j = i)) as [->|Hji]; [rewrite Hi in Hb'; by simplify_eq|].
           exists b. by rewrite list_lookup_insert_ne.
      * intros (b & Hb' & Hne). destruct (decide (j = i)) as [->|Hji]; [by left|right].
        rewrite list_lookup_insert_ne in Hb' by done. split; [by exists b|done].
    + by apply deadlk_insert.
  - assert (Hlen : length (channels s') = length (channels s)).
    { rewrite <- (length_fmap busy (channels s')), Hb. apply length_fmap. }
    split; simpl; try done; [congruence|lia|rewrite Hlen; lia|]. intros j. by rewrite Hb.
  - destruct (release_section_run _ _ _ I1 Hrel) as (Hl & Hs & Hb).
    assert (Hlen : length (channels s') = length (channels s)).
    { rewrite <- (length_fmap busy (channels s')), Hb, length_insert. apply length_fmap. }
    split; simpl; try done; try lia.
    + rewrite (zsum_uses _ _ _ _ Ht), Hlen. simpl. lia.
    + by eapply holding_nodup_insert.
    + intros j. rewrite (elem_of_insert _ _ _ _ _ Ht I4), Hb, I5. simpl. split.
      * intros [?|[(b & Hb' & Hne) Hj]]; [done|]. exists b.
        rewrite list_lookup_insert_ne by (intros ->; by apply Hj). done.
      * intros (b & Hb' & Hne). right.
        apply list_lookup_insert_Some in Hb' as [(_ & ? & _)|[Hji Hb']]; [congruence|].
        split; [by exists b|]. naive_solver.
    + by apply deadlk_insert.
  - apply up_run in Hup as (Hl & Hs & Hc).
    apply (inv_move s _ ps t PReleasing); try done; cbn [uses_count]; [congruence|lia|lia|by rewrite Hc].
  - by split.
Qed.

Lemma initial_inv x : initial x → lock_inv x.
Proof.
  intros (H1 & H2 & H3 & H4). destruct x as [s ps]. simpl in *.
  rewrite List.Forall_forall in H3, H4.
  assert (Hz : zsum uses_count ps = 0 ∧ omap holding ps = []).
  { clear H1 H2 H3. induction ps as [|p ps IH]; [done|]. rewrite zsum_cons. simpl.
    rewrite (H4 p) by (by left). simpl. apply IH. intros q Hq. apply H4. by right. }
  destruct Hz as [Hz Hn]. split; simpl; try done; [lia|lia|rewrite Hn; constructor| |].
  - intros i. rewrite Hn. split; [set_solver|]. intros (b & Hb & Hne). exfalso. apply Hne.
    apply H3, list_elem_of_In. by eapply list_elem_of_lookup_2.
  - intros Hin%list_elem_of_In. apply H4 in Hin. done.
Qed.

Lemma reachable_inv x : reachable x → lock_inv x.
Proof. induction 1; [by apply initial_inv|by eapply step_inv]. Qed.

End lock.

(** * Witness: three tasks on two idle channels *)

Definition two_channels : vdma_state SimKernel.kernel LatchChip.chip :=
  let ch n := mk_dma_channel 0 n
    (mk_vme_dma 0 0 0 0 (mk_vme_dma_attr 0 0 0 0 0 0) (mk_vme_dma_attr 0 0 0 0 0 0)
       (mk_vme_dma_ctrl 0 0 0 0)) 0 0 [] 0 [] [] 0 in
  mk_vdma_state
    (mk_bridge SimKernel.boot LatchChip.reset
       (mk_vme_verr false (mk_vme_bus_error_desc (mk_vme_bus_error 0 0) 0) []))
    ∅ [ch 0; ch 1] 2 false 0 [0; 0].

