(* ===== verification/VmeIrq.v ===== *)
(** Interrupts: [src/vmebridge/driver/vme_irq.c], with [handle_dma_interrupt] of
    [vme_dma.c].

    Handlers are callbacks of other modules; the model records each call with
    its argument, in order ([calls]).  The CRG image at [crg_base] and the
    registers at [regs] are the same registers of the chip. *)
From S2P Require Import Prelude VmeBus Tsi148Regs Tsi148Attr Tsi148Window KernelIf VmeMisc.

Local Open Scope Z_scope.

(** [struct vme_irq]; a NULL pointer is 0. *)
Record vme_irq := mk_vme_irq {
  handler : Z;
  arg : Z;
  irq_count : Z;
  irq_name : option string
}.
Definition no_irq : vme_irq := mk_vme_irq 0 0 0 None.

Definition VME_NUM_VECTORS : Z := 256.

(** [enum interrupt_idx], in order. *)
Inductive interrupt_idx :=
  | INT_DMA0 | INT_DMA1 | INT_MB0 | INT_MB1 | INT_MB2 | INT_MB3
  | INT_LM0 | INT_LM1 | INT_LM2 | INT_LM3
  | INT_IRQ1 | INT_IRQ2 | INT_IRQ3 | INT_IRQ4 | INT_IRQ5 | INT_IRQ6 | INT_IRQ7
  | INT_PERR | INT_VERR | INT_SPURIOUS.

#[export] Instance interrupt_idx_eq_dec : EqDecision interrupt_idx.
Proof. solve_decision. Defined.

(** A call of a handler of another module. *)
Inductive call :=
  | CallHandler (h a : Z)
  | CallBerr (f : Z) (err : vme_bus_error)
  | WakeDma (channel : nat).

(** The state: [vme_irq_table] and its mutex, [int_stats] (the counts, by
    index), [vme_interrupts_enabled]. *)
Record irq_state (K C : Type) := mk_irq_state {
  ibr : bridge K C;
  vme_irq_table : list vme_irq;
  vme_irq_table_lock : bool;
  int_stats : interrupt_idx → Z;
  vme_interrupts_enabled : Z;
  calls : list call
}.
Arguments mk_irq_state {K C}.
Arguments ibr {K C}.
Arguments vme_irq_table {K C}.
Arguments vme_irq_table_lock {K C}.
Arguments int_stats {K C}.
Arguments vme_interrupts_enabled {K C}.
Arguments calls {K C}.

Definition bump (i : interrupt_idx) (st : interrupt_idx → Z) : interrupt_idx → Z :=
  λ j, if decide (j = i) then u32 (st j + 1) else st j.

(** The counter of an IRQ level: [INT_IRQ1 + i - 1]. *)
Definition irq_idx (i : nat) : interrupt_idx :=
  match i with
  | 1%nat => INT_IRQ1 | 2%nat => INT_IRQ2 | 3%nat => INT_IRQ3 | 4%nat => INT_IRQ4
  | 5%nat => INT_IRQ5 | 6%nat => INT_IRQ6 | _ => INT_IRQ7
  end.

Definition vme_berr_match (err : vme_bus_error) (h : vme_berr_handler) : bool :=
  (berr_am err =? berr_am (h_error h)) && (berr_address err >=? berr_address (h_error h)) &&
  (berr_address err <? u64 (berr_address (h_error h) + h_size h)).

Inductive irqreturn := IRQ_NONE | IRQ_HANDLED.

Section irq.
Context `{Kernel K} `{ChipIO C}.
Notation I := (irq_state K C).

Definition in_br {A} (m : M (bridge K C) A) : M I A :=
  zoom ibr (λ b (s : I), s <| ibr := b |>) m.
Definition ichip {A} (m : M C A) : M I A := in_br (on_chip m).

Definition count_int (i : interrupt_idx) : M I () :=
  modify (λ s : I, s <| int_stats := bump i (int_stats s) |>).
Definition log_call (c : call) : M I () := modify (λ s : I, s <| calls := calls s ++ [c] |>).

(** [if (mask & bit) int_stats[i].count++;] *)
Definition count_if (mask bit : Z) (i : interrupt_idx) : M I () :=
  if truthy (Z.land mask bit) then count_int i else mret ().

Definition account_dma_interrupt (channel_mask : Z) : M I () :=
  count_if channel_mask 1 INT_DMA0;;
  count_if channel_mask 2 INT_DMA1.

Definition handle_dma_interrupt (channel_mask : Z) : M I () :=
  (if truthy (Z.land channel_mask 1) then log_call (WakeDma 0) else mret ());;
  (if truthy (Z.land channel_mask 2) then log_call (WakeDma 1) else mret ());;
  account_dma_interrupt channel_mask.

Definition handle_pci_error : M I () :=
  ichip tsi148_handle_pci_error;;
  count_int INT_PERR.

(** [__vme_dispatch_berr] *)
Definition vme_dispatch_berr (err : vme_bus_error) : M I () :=
  b ← gets ibr;
  mfold (λ _ h, if vme_berr_match err h then log_call (CallBerr (h_func h) err) else mret ())
    () (h_list (verr b)).

Definition handle_vme_error : M I () :=
  in_br spin_lock;;
  err ← ichip tsi148_handle_vme_error;
  in_br (modify (λ b : bridge K C,
    b <| verr := (verr b) <| verr_desc := mk_vme_bus_error_desc err 1 |> |>));;
  vme_dispatch_berr err;;
  in_br spin_unlock;;
  count_int INT_VERR.

Definition handle_mbox_interrupt (mb_mask : Z) : M I () :=
  count_if mb_mask 1 INT_MB0;;
  count_if mb_mask 2 INT_MB1;;
  count_if mb_mask 4 INT_MB2;;
  count_if mb_mask 8 INT_MB3.

Definition handle_lm_interrupt (lm_mask : Z) : M I () :=
  count_if lm_mask 1 INT_LM0;;
  count_if lm_mask 2 INT_LM1;;
  count_if lm_mask 4 INT_LM2;;
  count_if lm_mask 8 INT_LM3.

(** [vme_irq_table[vec]]; outside the table the run is stuck. *)
Definition get_irq (vec : Z) : M I vme_irq := λ s,
  if vec <? 0 then None else (λ v, (v, s)) <$> vme_irq_table s !! Z.to_nat vec.
Definition upd_irq (vec : Z) (f : vme_irq → vme_irq) : M I () :=
  modify (λ s : I, s <| vme_irq_table := alter f (Z.to_nat vec) (vme_irq_table s) |>).

(** The body of the loop of [handle_vme_interrupt] for level [i]. *)
Definition handle_irq_level (irq_mask : Z) (i : nat) : M I () :=
  if truthy (Z.land irq_mask (Z.shiftl 1 (Z.of_nat i))) then
    vec ← ichip (tsi148_iack8 (Z.of_nat i));
    virq ← get_irq vec;
    (if truthy (handler virq) then
      upd_irq vec (λ v, v <| irq_count ::= λ n, s32 (n + 1) |>);;
      log_call (CallHandler (handler virq) (arg virq))
     else mret ());;
    count_int (irq_idx i)
  else mret ().

Definition handle_vme_interrupt (irq_mask : Z) : M I () :=
  mfold (λ _, handle_irq_level irq_mask) () (rev (seq 1 7)).

(** [if (mask & bits) { handle; mask &= ~bits; }] *)
Definition handle_group (bits : Z) (m : Z → M I ()) (mask : Z) : M I Z :=
  if truthy (Z.land mask bits) then m (Z.land mask bits);; mret (Z.land mask (u32 (Z.lnot bits)))
  else mret mask.

(** The handling of one non-zero status word in [vme_bridge_interrupt]. *)
Definition handle_status (mask : Z) : M I Z :=
  mask ← handle_group TSI148_LCSR_INT_DMA_M
    (λ m, handle_dma_interrupt (Z.shiftr m TSI148_LCSR_INT_DMA_SHIFT)) mask;
  mask ← handle_group TSI148_LCSR_INT_PERR (λ _, handle_pci_error) mask;
  mask ← handle_group TSI148_LCSR_INT_VERR (λ _, handle_vme_error) mask;
  mask ← handle_group TSI148_LCSR_INT_MB_M
    (λ m, handle_mbox_interrupt (Z.shiftr m TSI148_LCSR_INT_MB_SHIFT)) mask;
  mask ← handle_group TSI148_LCSR_INT_LM_M
    (λ m, handle_lm_interrupt (Z.shiftr m TSI148_LCSR_INT_LM_SHIFT)) mask;
  handle_group TSI148_LCSR_INT_IRQM handle_vme_interrupt mask.

(** [vme_bridge_interrupt]; [None] when the chip still reports interrupts after
    [fuel] rounds. *)
Fixpoint vme_bridge_interrupt (fuel : nat) : M I (option irqreturn) :=
  match fuel with
  | O => mret None
  | S fuel =>
    raised ← ichip tsi148_get_int_status;
    if raised =? 0 then mret (Some IRQ_HANDLED) else
    ichip (tsi148_clear_int raised);;
    enabled ← gets vme_interrupts_enabled;
    let mask := Z.land raised enabled in
    if negb (truthy mask) then count_int INT_SPURIOUS;; mret (Some IRQ_NONE) else
    handle_status mask;;
    vme_bridge_interrupt fuel
  end.

Definition vme_enable_interrupts (mask : Z) : M I Z :=
  enabled ← ichip tsi148_get_int_enabled;
  let new := Z.lor enabled mask in
  modify (λ s : I, s <| vme_interrupts_enabled := new |>);;
  ichip (tsi148_set_interrupts new).

Definition vme_disable_interrupts (mask : Z) : M I Z :=
  enabled ← ichip tsi148_get_int_enabled;
  let new := Z.land enabled (u32 (Z.lnot mask)) in
  modify (λ s : I, s <| vme_interrupts_enabled := new |>);;
  ichip (tsi148_set_interrupts new).

(** [mutex_lock_interruptible(&vme_irq_table_lock)] *)
Definition lock_table : M I Z :=
  intr ← in_br (kcall signal_pending);
  if intr : bool then mret (- EINTR) else
  l ← gets vme_irq_table_lock;
  if l : bool then stuck else
  modify (λ s : I, s <| vme_irq_table_lock := true |>);; mret 0.
Definition unlock_table : M I () := modify (λ s : I, s <| vme_irq_table_lock := false |>).

Definition vme_request_irq (vec h a : Z) (name : option string) : M I Z :=
  if vec >=? VME_NUM_VECTORS then mret (- EINVAL) else
  rc ← lock_table;
  if truthy rc then mret rc else
  virq ← get_irq vec;
  rc ← (if truthy (handler virq) then mret (- EBUSY) else
    upd_irq vec (λ v, v <| handler := h |> <| arg := a |> <| irq_count := 0 |>
                        <| irq_name := Some (default "Unknown"%string name) |>);;
    mret 0);
  unlock_table;;
  mret rc.

Definition vme_free_irq (vec : Z) : M I Z :=
  if vec >=? VME_NUM_VECTORS then mret (- EINVAL) else
  rc ← lock_table;
  if truthy rc then mret rc else
  virq ← get_irq vec;
  rc ← (if negb (truthy (handler virq)) then mret (- EINVAL) else
    upd_irq vec (λ v, v <| handler := 0 |> <| arg := 0 |> <| irq_count := 0 |>
                        <| irq_name := None |>);;
    mret 0);
  unlock_table;;
  mret rc.
End irq.
