(* ===== verification/VmeIrqProofs.v ===== *)
(** The interrupt properties: every raised and enabled source is counted once
    per status word, VME handlers run in level order with their argument, and
    the vector table is managed consistently. *)
From S2P Require Import Prelude VmeBus Tsi148Regs Tsi148Attr Tsi148Window KernelIf VmeMisc VmeIrq.

Local Open Scope Z_scope.

(** The status bit of each counter. *)
Definition sources : list (Z * interrupt_idx) :=
  [(24, INT_DMA0); (25, INT_DMA1); (13, INT_PERR); (12, INT_VERR);
   (16, INT_MB0); (17, INT_MB1); (18, INT_MB2); (19, INT_MB3);
   (20, INT_LM0); (21, INT_LM1); (22, INT_LM2); (23, INT_LM3);
   (7, INT_IRQ7); (6, INT_IRQ6); (5, INT_IRQ5); (4, INT_IRQ4); (3, INT_IRQ3); (2, INT_IRQ2);
   (1, INT_IRQ1)].

(** Count the sources of [l] that are set in [mask]. *)
Definition acc (mask : Z) (l : list (Z * interrupt_idx)) (st : interrupt_idx → Z) :
    interrupt_idx → Z :=
  foldl (λ st '(b, i), if Z.testbit mask b then bump i st else st) st l.

Lemma acc_app mask l l' st : acc mask (l ++ l') st = acc mask l' (acc mask l st).
Proof. unfold acc. by rewrite foldl_app. Qed.

Lemma acc_ext mask mask' l st :
  Forall (λ s, Z.testbit mask s.1 = Z.testbit mask' s.1) l → acc mask l st = acc mask' l st.
Proof.
  revert st. induction l as [|[b i] l IH]; intros st Hl; [done|].
  apply Forall_cons_1 in Hl as [Hb Hl]. simpl in Hb |- *. rewrite Hb. by apply IH.
Qed.

Lemma acc_none mask l st :
  Forall (λ s, Z.testbit mask s.1 = false) l → acc mask l st = st.
Proof.
  revert st. induction l as [|[b i] l IH]; intros st Hl; [done|].
  apply Forall_cons_1 in Hl as [Hb Hl]. simpl in Hb |- *. rewrite Hb. by apply IH.
Qed.

(** Each counter is bumped by its own bit. *)
Definition source_bit (i : interrupt_idx) : option Z :=
  match i with
  | INT_DMA0 => Some 24 | INT_DMA1 => Some 25
  | INT_MB0 => Some 16 | INT_MB1 => Some 17 | INT_MB2 => Some 18 | INT_MB3 => Some 19
  | INT_LM0 => Some 20 | INT_LM1 => Some 21 | INT_LM2 => Some 22 | INT_LM3 => Some 23
  | INT_IRQ1 => Some 1 | INT_IRQ2 => Some 2 | INT_IRQ3 => Some 3 | INT_IRQ4 => Some 4
  | INT_IRQ5 => Some 5 | INT_IRQ6 => Some 6 | INT_IRQ7 => Some 7
  | INT_PERR => Some 13 | INT_VERR => Some 12 | INT_SPURIOUS => None
  end.

Lemma acc_other mask l st i : i ∉ l.*2 → acc mask l st i = st i.
Proof.
  revert st. induction l as [|[b j] l IH]; intros st Hi; [done|].
  change (acc mask ((b, j) :: l) st) with (acc mask l (if Z.testbit mask b then bump j st else st)).
  rewrite IH by set_solver. destruct (Z.testbit mask b); [|done].
  unfold bump. rewrite decide_False; [done|]. set_solver.
Qed.

Lemma acc_in mask l st b i :
  NoDup l.*2 → (b, i) ∈ l →
  acc mask l st i = if Z.testbit mask b then u32 (st i + 1) else st i.
Proof.
  revert st. induction l as [|[b' j] l IH]; intros st Hnd Hin; [by apply not_elem_of_nil in Hin|].
  change (acc mask ((b', j) :: l) st) with (acc mask l (if Z.testbit mask b' then bump j st else st)).
  apply list.NoDup_cons in Hnd as [Hn Hnd]. apply elem_of_cons in Hin as [[= -> ->]|Hin].
  - rewrite acc_other by done. destruct (Z.testbit mask b'); [|done].
    unfold bump. by rewrite decide_True.
  - rewrite IH by done. assert (Hij : i ≠ j).
    { intros ->. apply Hn. apply list_elem_of_fmap. by exists (b, j). }
    destruct (Z.testbit mask b'); [|done]. unfold bump. by rewrite decide_False.
Qed.

Lemma sources_nodup : NoDup sources.*2.
Proof. by apply (bool_decide_unpack _). Qed.

Lemma acc_sources mask st i :
  acc mask sources st i =
    match source_bit i with
    | Some b => if Z.testbit mask b then u32 (st i + 1) else st i
    | None => st i
    end.
Proof.
  destruct i; cbn [source_bit];
    first [ apply acc_in; [apply sources_nodup|by apply (bool_decide_unpack _)]
          | apply acc_other; by apply (bool_decide_unpack _) ].
Qed.

Lemma group_bit mask bits s b :
  0 <= s → 0 <= b → Z.testbit bits (s + b) = true →
  truthy (Z.land (Z.shiftr (Z.land mask bits) s) (Z.shiftl 1 b)) = Z.testbit mask (s + b).
Proof.
  intros Hs Hb Hbit. rewrite truthy_bit by done. rewrite Z.shiftr_spec by done.
  rewrite Z.land_spec, (Z.add_comm b s), Hbit. apply andb_true_r.
Qed.

Lemma land_0_bit mask bits b :
  truthy (Z.land mask bits) = false → Z.testbit bits b = true → Z.testbit mask b = false.
Proof.
  unfold truthy. intros H%negb_false_iff Hb. apply Z.eqb_eq in H.
  assert (E : Z.testbit (Z.land mask bits) b = false) by (rewrite H; apply Z.testbit_0_l).
  rewrite Z.land_spec, Hb, andb_true_r in E. exact E.
Qed.

Lemma clear_group_bit mask bits b :
  0 <= b < 32 →
  Z.testbit (Z.land mask (u32 (Z.lnot bits))) b = Z.testbit mask b && negb (Z.testbit bits b).
Proof.
  intros Hb. rewrite Z.land_spec. f_equal. unfold u32.
  rewrite Z.mod_pow2_bits_low by lia. apply Z.lnot_spec. lia.
Qed.

(** How often bit [b] is set in the words of [l]. *)
Definition bit_count (b : Z) (l : list Z) : Z :=
  zsum (λ w, if Z.testbit w b then 1 else 0) l.

Section proofs.
Context `{KernelLaws K} `{ChipLaws C}.
Notation I := (irq_state K C).
Implicit Types (s : I).

Definition IS k c v tbl lk st en cs : I :=
  mk_irq_state (mk_bridge k c v) tbl lk st en cs.

(** What a handler may not change. *)
Definition entry (v : vme_irq) : Z * Z := (handler v, arg v).

Record keeps s s' : Prop := {
  kp_kern : kern (ibr s') = kern (ibr s);
  kp_table : entry <$> vme_irq_table s' = entry <$> vme_irq_table s;
  kp_lock : vme_irq_table_lock s' = vme_irq_table_lock s;
  kp_en : vme_interrupts_enabled s' = vme_interrupts_enabled s;
  kp_spin : verr_locked (verr (ibr s')) = verr_locked (verr (ibr s));
  kp_hl : h_list (verr (ibr s')) = h_list (verr (ibr s))
}.

Lemma keeps_refl s : keeps s s.
Proof. by split. Qed.

Lemma keeps_trans s1 s2 s3 : keeps s1 s2 → keeps s2 s3 → keeps s1 s3.
Proof. intros [] []. split; congruence. Qed.

(** Ready to handle an interrupt. *)
Definition irq_ok s : Prop :=
  verr_locked (verr (ibr s)) = false ∧ length (vme_irq_table s) = 256%nat.

Lemma keeps_ok s s' : keeps s s' → irq_ok s → irq_ok s'.
Proof.
  intros [_ Ht _ _ Hs _] [H1' H2']. split; [congruence|].
  rewrite <- (length_fmap entry), Ht, length_fmap. done.
Qed.

(** [m] counts the sources of [l] and keeps the rest. *)
Definition counts mask l (m : M I ()) : Prop :=
  ∀ s, irq_ok s → wp m (λ _ s', keeps s s' ∧ int_stats s' = acc mask l (int_stats s)) s.

Lemma counts_seq mask l l' m m' :
  counts mask l m → counts mask l' m' → counts mask (l ++ l') (m;; m').
Proof.
  intros H1' H2' s Hs. wp_step. eapply wp_mono; [by apply H1'|]. intros [] s1 [Hk1 Hst1].
  eapply wp_mono; [apply H2'; by eapply keeps_ok|]. intros [] s2 [Hk2 Hst2].
  split; [by eapply keeps_trans|]. by rewrite Hst2, Hst1, acc_app.
Qed.

Lemma counts_if mask m bit b i :
  truthy (Z.land m bit) = Z.testbit mask b → counts mask [(b, i)] (count_if m bit i).
Proof.
  intros Hb s Hs. unfold count_if. rewrite Hb. simpl.
  destruct (Z.testbit mask b); [|wp_step; by split]. unfold count_int. wp_step. by split.
Qed.

Lemma counts_nop mask m : (∀ s, irq_ok s → wp m (λ _ s', keeps s s' ∧ int_stats s' = int_stats s) s) →
  counts mask [] m.
Proof. done. Qed.

Lemma counts_one mask b i m :
  Z.testbit mask b = true →
  (∀ s, irq_ok s → wp m (λ _ s', keeps s s' ∧ int_stats s' = bump i (int_stats s)) s) →
  counts mask [(b, i)] m.
Proof. intros Hb Hm s Hs. simpl. rewrite Hb. by apply Hm. Qed.

Lemma counts_dma mask :
  counts mask [(24, INT_DMA0); (25, INT_DMA1)]
    (handle_dma_interrupt (Z.shiftr (Z.land mask TSI148_LCSR_INT_DMA_M) TSI148_LCSR_INT_DMA_SHIFT)).
Proof.
  unfold handle_dma_interrupt, account_dma_interrupt.
  apply (counts_seq _ [] [_; _]).
  { intros s Hs. destruct (truthy _); [|wp_step; by split]. unfold log_call. wp_step. by split. }
  apply (counts_seq _ [] [_; _]).
  { intros s Hs. destruct (truthy _); [|wp_step; by split]. unfold log_call. wp_step. by split. }
  apply (counts_seq _ [_] [_]); apply counts_if.
  - by apply (group_bit mask TSI148_LCSR_INT_DMA_M 24 0).
  - by apply (group_bit mask TSI148_LCSR_INT_DMA_M 24 1).
Qed.

Lemma counts_mbox mask :
  counts mask [(16, INT_MB0); (17, INT_MB1); (18, INT_MB2); (19, INT_MB3)]
    (handle_mbox_interrupt (Z.shiftr (Z.land mask TSI148_LCSR_INT_MB_M) TSI148_LCSR_INT_MB_SHIFT)).
Proof.
  unfold handle_mbox_interrupt.
  apply (counts_seq _ [_] [_; _; _]); [apply counts_if; by apply (group_bit mask TSI148_LCSR_INT_MB_M 16 0)|].
  apply (counts_seq _ [_] [_; _]); [apply counts_if; by apply (group_bit mask TSI148_LCSR_INT_MB_M 16 1)|].
  apply (counts_seq _ [_] [_]); apply counts_if.
  - by apply (group_bit mask TSI148_LCSR_INT_MB_M 16 2).
  - by apply (group_bit mask TSI148_LCSR_INT_MB_M 16 3).
Qed.

Lemma counts_lm mask :
  counts mask [(20, INT_LM0); (21, INT_LM1); (22, INT_LM2); (23, INT_LM3)]
    (handle_lm_interrupt (Z.shiftr (Z.land mask TSI148_LCSR_INT_LM_M) TSI148_LCSR_INT_LM_SHIFT)).
Proof.
  unfold handle_lm_interrupt.
  apply (counts_seq _ [_] [_; _; _]); [apply counts_if; by apply (group_bit mask TSI148_LCSR_INT_LM_M 20 0)|].
  apply (counts_seq _ [_] [_; _]); [apply counts_if; by apply (group_bit mask TSI148_LCSR_INT_LM_M 20 1)|].
  apply (counts_seq _ [_] [_]); apply counts_if.
  - by apply (group_bit mask TSI148_LCSR_INT_LM_M 20 2).
  - by apply (group_bit mask TSI148_LCSR_INT_LM_M 20 3).
Qed.

(** A chip access keeps everything but the chip. *)
Lemma wp_ichip {A} (m : M C A) (Q : A → I → Prop) k c v tbl lk st en cs :
  wp m (λ x c', Q x (IS k c' v tbl lk st en cs)) c →
  wp (ichip m) Q (IS k c v tbl lk st en cs).
Proof.
  intros HQ. unfold ichip, in_br, on_chip, wp, zoom, IS in *. simpl.
  by destruct (m c) as [[]|].
Qed.

Lemma counts_pci mask :
  Z.testbit mask 13 = true → counts mask [(13, INT_PERR)] handle_pci_error.
Proof.
  intros Hb. apply counts_one; [done|]. intros [[k c v] tbl lk st en cs] Hs.
  change (mk_irq_state (mk_bridge k c v) tbl lk st en cs) with (IS k c v tbl lk st en cs) in *.
  unfold handle_pci_error. wp_step. apply wp_ichip. unfold tsi148_handle_pci_error.
  do 5 (wp_step; apply wp_rd_any; intros ? ? _). apply wp_wr. intros cw _.
  unfold count_int. wp_step. by split.
Qed.

Lemma wp_dispatch err (Q : () → I → Prop) k c v tbl lk st en cs :
  (∀ cs', Q () (IS k c v tbl lk st en cs')) → wp (vme_dispatch_berr err) Q (IS k c v tbl lk st en cs).
Proof.
  intros HQ. unfold vme_dispatch_berr. wp_step. wp_step. eapply wp_mono.
  - apply (wp_mfold _ (λ _ _ s, ∃ cs', s = IS k c v tbl lk st en cs')).
    + intros h l [] s [cs' ->]. destruct (vme_berr_match err h).
      * unfold log_call. wp_step. by eexists.
      * wp_step. by eexists.
    + by eexists.
  - intros [] s [cs' ->]. apply HQ.
Qed.

Lemma counts_verr mask :
  Z.testbit mask 12 = true → counts mask [(12, INT_VERR)] handle_vme_error.
Proof.
  intros Hb. apply counts_one; [done|]. intros [[k c [sl ds hl]] tbl lk st en cs] [Hs Ht].
  simpl in Hs. subst sl.
  change (mk_irq_state (mk_bridge k c (mk_vme_verr false ds hl)) tbl lk st en cs)
    with (IS k c (mk_vme_verr false ds hl) tbl lk st en cs) in *.
  unfold handle_vme_error. wp_step.
  change (wp (ichip tsi148_handle_vme_error ≫= λ err,
    in_br (modify (λ b : bridge K C,
      b <| verr := (verr b) <| verr_desc := mk_vme_bus_error_desc err 1 |> |>));;
    vme_dispatch_berr err;; in_br spin_unlock;; count_int INT_VERR)
    (λ _ s', keeps (IS k c (mk_vme_verr false ds hl) tbl lk st en cs) s' ∧
       int_stats s' = bump INT_VERR st) (IS k c (mk_vme_verr true ds hl) tbl lk st en cs)).
  wp_step. apply wp_ichip. unfold tsi148_handle_vme_error.
  do 3 (wp_step; apply wp_rd_any; intros ? ? _). wp_step. apply wp_wr. intros cw _. wp_step.
  wp_step. match goal with |- context [mk_vme_bus_error ?a ?b] => set (err := mk_vme_bus_error a b) end.
  match goal with |- wp (in_br _) ?Q _ =>
    change (Q () (IS k cw (mk_vme_verr true (mk_vme_bus_error_desc err 1) hl) tbl lk st en cs)) end.
  cbv beta. wp_step. apply wp_dispatch. intros cs'. wp_step.
  match goal with |- wp (in_br _) ?Q _ =>
    change (Q () (IS k cw (mk_vme_verr false (mk_vme_bus_error_desc err 1) hl) tbl lk st en cs')) end.
  cbv beta. unfold count_int. wp_step. by split.
Qed.

(** * VME interrupt levels *)

(** The call that vector [vec] leads to. *)
Definition handler_call (tbl : list vme_irq) (vec : Z) : option call :=
  v ← tbl !! Z.to_nat vec;
  if truthy (handler v) then Some (CallHandler (handler v) (arg v)) else None.

(** The vectors that the IACK cycles for [levels] deliver, and the chip
    afterwards. *)
Fixpoint iack_run (mask : Z) (levels : list nat) (c : C) : list Z * C :=
  match levels with
  | [] => ([], c)
  | i :: levels =>
    if Z.testbit mask (Z.of_nat i) then
      let '(vec, c) := ioread8_viack (Z.of_nat i) c in
      let '(vecs, c) := iack_run mask levels c in
      (Z.land vec 0xff :: vecs, c)
    else iack_run mask levels c
  end.

Lemma handler_call_entry tbl tbl' vec :
  entry <$> tbl' = entry <$> tbl → handler_call tbl' vec = handler_call tbl vec.
Proof.
  intros Ht. unfold handler_call.
  assert (E : entry <$> (tbl' !! Z.to_nat vec) = entry <$> (tbl !! Z.to_nat vec)).
  { by rewrite <- !list_lookup_fmap, Ht. }
  destruct (tbl' !! Z.to_nat vec) as [v'|], (tbl !! Z.to_nat vec) as [v|]; try done.
  injection E as E1 E2. simpl. by rewrite E1, E2.
Qed.

Lemma wp_irq_level mask i k c v tbl lk st en cs (Q : () → I → Prop) :
  length tbl = 256%nat →
  (∀ tbl', entry <$> tbl' = entry <$> tbl →
     Q () (if Z.testbit mask (Z.of_nat i) then
             let '(vec, c') := ioread8_viack (Z.of_nat i) c in
             IS k c' v tbl' lk (bump (irq_idx i) st) en
               (cs ++ option_list (handler_call tbl (Z.land vec 0xff)))
           else IS k c v tbl lk st en cs)) →
  wp (handle_irq_level mask i) Q (IS k c v tbl lk st en cs).
Proof.
  intros Hlen HQ. unfold handle_irq_level. rewrite truthy_bit by lia.
  destruct (Z.testbit mask (Z.of_nat i)).
  2: { wp_step. by apply (HQ tbl). }
  wp_step. apply wp_ichip. unfold tsi148_iack8. wp_step. unfold rd8_viack, wp at 1.
  destruct (ioread8_viack (Z.of_nat i) c) as [x c'].
  set (vec := Z.land x 0xff) in *.
  assert (Hvec : 0 <= vec < 256).
  { subst vec. change 0xff with (Z.ones 8). rewrite Z.land_ones by lia. by apply Z.mod_pos_bound. }
  destruct (lookup_lt_is_Some_2 tbl (Z.to_nat vec)) as [vi Hvi]; [lia|].
  wp_step. wp_step.
  assert (Hget : ∀ Q' : vme_irq → I → Prop, Q' vi (IS k c' v tbl lk st en cs) →
    wp (get_irq vec) Q' (IS k c' v tbl lk st en cs)).
  { intros Q' HQ'. unfold wp, get_irq, IS. simpl. rewrite (proj2 (Z.ltb_ge vec 0)) by lia.
    rewrite Hvi. exact HQ'. }
  apply Hget. clear Hget.
  assert (Hhc : handler_call tbl vec =
    if truthy (handler vi) then Some (CallHandler (handler vi) (arg vi)) else None).
  { unfold handler_call. by rewrite Hvi. }
  rewrite Hhc in HQ. wp_step. destruct (truthy (handler vi)).
  - unfold upd_irq, log_call, count_int. wp_step. wp_step. wp_step. wp_step.
    apply (HQ (alter (λ v0, v0 <| irq_count ::= λ n, s32 (n + 1) |>) (Z.to_nat vec) tbl)).
    apply list_eq. intros j. rewrite !list_lookup_fmap.
    destruct (decide (j = Z.to_nat vec)) as [->|Hne].
    + rewrite list_lookup_alter_eq, Hvi. done.
    + by rewrite list_lookup_alter_ne.
  - unfold count_int. wp_step. wp_step. simpl in HQ. rewrite app_nil_r in HQ. by apply (HQ tbl).
Qed.

(** The levels are served from the list, each at most once. *)
Lemma wp_irq_levels mask levels k c v tbl lk st en cs :
  length tbl = 256%nat →
  wp (mfold (λ _, handle_irq_level mask) () levels) (λ _ s', ∃ tbl',
    entry <$> tbl' = entry <$> tbl ∧
    s' = IS k (iack_run mask levels c).2 v tbl' lk
      (acc mask ((λ i, (Z.of_nat i, irq_idx i)) <$> levels) st) en
      (cs ++ omap (handler_call tbl) (iack_run mask levels c).1)) (IS k c v tbl lk st en cs).
Proof.
  intros Hlen. revert c tbl st cs Hlen. induction levels as [|i levels IH]; intros c tbl st cs Hlen;
    cbn [mfold iack_run].
  { wp_step. exists tbl. split; [done|]. simpl. by rewrite app_nil_r. }
  wp_step. apply wp_irq_level; [done|]. intros tbl' Ht.
  destruct (Z.testbit mask (Z.of_nat i)) eqn:Eb.
  - destruct (ioread8_viack (Z.of_nat i) c) as [x c'].
    eapply wp_mono.
    { apply IH. by rewrite <- (length_fmap entry), Ht, length_fmap. }
    intros [] s' (tbl2 & Ht2 & ->). exists tbl2. split; [congruence|].
    destruct (iack_run mask levels c') as [vecs c2]. cbn [fst snd].
    assert (Hom : omap (handler_call tbl') vecs = omap (handler_call tbl) vecs).
    { clear -Ht. apply list_omap_ext, Forall2_same_length_lookup.
      split; [done|]. intros j x y Hx Hy. simplify_eq. by apply handler_call_entry. }
    rewrite Hom, <- app_assoc. simpl. rewrite Eb.
    by destruct (handler_call tbl (Z.land x 0xff)).
  - eapply wp_mono; [by apply IH|]. intros [] s' (tbl2 & Ht2 & ->). exists tbl2.
    split; [done|]. simpl. by rewrite Eb.
Qed.

Definition irq_sources : list (Z * interrupt_idx) :=
  (λ i, (Z.of_nat i, irq_idx i)) <$> rev (seq 1 7).

Lemma counts_irq mask :
  counts (Z.land mask TSI148_LCSR_INT_IRQM) irq_sources
    (handle_vme_interrupt (Z.land mask TSI148_LCSR_INT_IRQM)).
Proof.
  intros [[k c v] tbl lk st en cs] [Hs Ht]. simpl in Hs, Ht.
  change (mk_irq_state (mk_bridge k c v) tbl lk st en cs) with (IS k c v tbl lk st en cs).
  unfold handle_vme_interrupt. eapply wp_mono; [by apply wp_irq_levels|].
  intros [] s' (tbl' & Htbl & ->). by split.
Qed.

(** * One status word *)

Lemma wp_group bits l m mask s :
  irq_ok s → Forall (λ x, Z.testbit bits x.1 = true) l →
  (truthy (Z.land mask bits) = true → counts mask l (m (Z.land mask bits))) →
  wp (handle_group bits m mask) (λ r s', keeps s s' ∧ int_stats s' = acc mask l (int_stats s) ∧
    ∀ b, 0 <= b < 32 → Z.testbit r b = Z.testbit mask b && negb (Z.testbit bits b)) s.
Proof.
  intros Hok Hl Hm. unfold handle_group. destruct (truthy (Z.land mask bits)) eqn:E.
  - wp_step. eapply wp_mono; [by apply Hm|]. intros [] s1 [Hk Hst]. wp_step.
    split; [done|]. split; [done|]. intros b Hb. by apply clear_group_bit.
  - wp_step. split; [done|]. split.
    + rewrite acc_none; [done|]. eapply List.Forall_impl; [|exact Hl].
      intros [b i] Hb. simpl in *. by eapply land_0_bit.
    + intros b Hb. destruct (Z.testbit bits b) eqn:Eb; simpl; [|by rewrite andb_true_r].
      rewrite andb_false_r. by eapply land_0_bit.
Qed.

Lemma truthy_pow2 mask b : 0 <= b → truthy (Z.land mask (Z.shiftl 1 b)) = true →
  Z.testbit mask b = true.
Proof. intros Hb. by rewrite truthy_bit. Qed.

(** Sources whose bits no earlier group has cleared. *)
Lemma acc_same (r mask bits : Z) l st :
  Forall (λ x, 0 <= x.1 < 32 ∧ Z.testbit bits x.1 = false) l →
  (∀ b, 0 <= b < 32 → Z.testbit r b = Z.testbit mask b && negb (Z.testbit bits b)) →
  acc r l st = acc mask l st.
Proof.
  intros Hl Hr. apply acc_ext. eapply List.Forall_impl; [|exact Hl].
  intros [b i] [Hb Eb]. simpl in *. rewrite Hr, Eb by done. apply andb_true_r.
Qed.

Lemma wp_handle_status mask s :
  irq_ok s →
  wp (handle_status mask) (λ _ s', keeps s s' ∧ int_stats s' = acc mask sources (int_stats s)) s.
Proof.
  intros Hok. unfold handle_status.
  wp_step. eapply wp_mono.
  { apply (wp_group _ [(24, INT_DMA0); (25, INT_DMA1)]); [done|by repeat constructor|].
    intros _. apply counts_dma. }
  intros m1 s1 (K1 & S1 & B1). pose proof (keeps_ok _ _ K1 Hok) as O1.
  wp_step. eapply wp_mono.
  { apply (wp_group _ [(13, INT_PERR)]); [done|by repeat constructor|].
    intros Ht. apply counts_pci. by apply truthy_pow2. }
  intros m2 s2 (K2 & S2 & B2). pose proof (keeps_ok _ _ K2 O1) as O2.
  wp_step. eapply wp_mono.
  { apply (wp_group _ [(12, INT_VERR)]); [done|by repeat constructor|].
    intros Ht. apply counts_verr. by apply truthy_pow2. }
  intros m3 s3 (K3 & S3 & B3). pose proof (keeps_ok _ _ K3 O2) as O3.
  wp_step. eapply wp_mono.
  { apply (wp_group _ [(16, INT_MB0); (17, INT_MB1); (18, INT_MB2); (19, INT_MB3)]);
      [done|by repeat constructor|]. intros _. apply counts_mbox. }
  intros m4 s4 (K4 & S4 & B4). pose proof (keeps_ok _ _ K4 O3) as O4.
  wp_step. eapply wp_mono.
  { apply (wp_group _ [(20, INT_LM0); (21, INT_LM1); (22, INT_LM2); (23, INT_LM3)]);
      [done|by repeat constructor|]. intros _. apply counts_lm. }
  intros m5 s5 (K5 & S5 & B5). pose proof (keeps_ok _ _ K5 O4) as O5.
  eapply wp_mono.
  { apply (wp_group _ irq_sources); [done|by repeat constructor|].
    intros _ s' Hs'. eapply wp_mono; [by apply counts_irq|]. intros [] s2' [Hk Hst].
    split; [done|]. rewrite Hst. apply acc_ext. repeat constructor; cbn [fst];
      rewrite Z.land_spec; change TSI148_LCSR_INT_IRQM with 0xfe; apply andb_true_r. }
  intros m6 s6 (K6 & S6 & B6).
  split; [by do 5 (eapply keeps_trans; [eassumption|])|].
  assert (T : ∀ m m' bits, (∀ b, 0 <= b < 32 → Z.testbit m' b = Z.testbit m b && negb (Z.testbit bits b)) →
    ∀ l st, Forall (λ x, 0 <= x.1 < 32 ∧ Z.testbit bits x.1 = false) l → acc m' l st = acc m l st).
  { intros m m' bits Hb l st Hl. by eapply acc_same. }
  rewrite S6, (T _ _ _ B5), (T _ _ _ B4), (T _ _ _ B3), (T _ _ _ B2), (T _ _ _ B1)
    by (repeat constructor; simpl; lia).
  rewrite S5, (T _ _ _ B4), (T _ _ _ B3), (T _ _ _ B2), (T _ _ _ B1)
    by (repeat constructor; simpl; lia).
  rewrite S4, (T _ _ _ B3), (T _ _ _ B2), (T _ _ _ B1) by (repeat constructor; simpl; lia).
  rewrite S3, (T _ _ _ B2), (T _ _ _ B1) by (repeat constructor; simpl; lia).
  rewrite S2, (T _ _ _ B1), S1 by (repeat constructor; simpl; lia).
  by rewrite <- !acc_app.
Qed.

(** * The main handler *)

Lemma wp_bridge_interrupt (fuel : nat) s :
  irq_ok s → (∀ i, is_u32 (int_stats s i)) →
  wp (vme_bridge_interrupt fuel) (λ r s', keeps s s' ∧ ∃ words,
    (length words <= fuel)%nat ∧ (r = None → length words = fuel) ∧
    Forall (λ w, ∃ raised, w = Z.land raised (vme_interrupts_enabled s) ∧ w ≠ 0) words ∧
    ∀ i, int_stats s' i = u32 (int_stats s i +
      match source_bit i with
      | Some b => bit_count b words
      | None => if r is Some IRQ_NONE then 1 else 0
      end)) s.
Proof.
  revert s. induction fuel as [|fuel IH]; intros s Hok Hu; cbn [vme_bridge_interrupt].
  { wp_step. split; [apply keeps_refl|]. exists []. split_and!; [done|done|constructor|].
    intros i. assert (E : u32 (int_stats s i + 0) = int_stats s i) by (rewrite Z.add_0_r; by apply u32_small).
    by destruct (source_bit i). }
  destruct s as [[k c v] tbl lk st en cs].
  change (mk_irq_state (mk_bridge k c v) tbl lk st en cs) with (IS k c v tbl lk st en cs) in *.
  assert (Hz : ∀ i, u32 (st i + 0) = st i) by (intros i; rewrite Z.add_0_r; apply u32_small, Hu).
  wp_step. apply wp_ichip. unfold tsi148_get_int_status. apply wp_rd_any. intros raised c1 _.
  destruct (Z.eqb_spec raised 0) as [->|Hr].
  { wp_step. split; [by split|]. exists []. split_and!; [simpl; lia|done|constructor|].
    intros i. simpl. unfold bit_count. simpl. rewrite <- (Hz i) at 1. by destruct (source_bit i). }
  wp_step. apply wp_ichip. unfold tsi148_clear_int. apply wp_wr. intros c2 _.
  wp_step. wp_step. change (vme_interrupts_enabled (IS k c2 v tbl lk st en cs)) with en.
  cbv zeta. set (mask := Z.land raised en).
  destruct (Z.eqb_spec mask 0) as [Hm|Hm].
  { unfold truthy. rewrite Hm. cbn [Z.eqb negb]. unfold count_int. wp_step. wp_step. wp_step.
    split; [by split|]. exists []. split_and!; [simpl; lia|done|constructor|].
    intros i. simpl. unfold bump, bit_count. simpl. destruct (decide (i = INT_SPURIOUS)) as [->|Hi].
    - done.
    - rewrite <- (Hz i) at 1. by destruct i. }
  assert (Ht : truthy mask = true) by (unfold truthy; by destruct (Z.eqb_spec mask 0)).
  rewrite Ht. cbn [negb]. cbv iota. wp_step. eapply wp_mono; [by apply wp_handle_status|].
  intros m' s1 [K1 S1]. cbv beta. eapply wp_mono.
  { apply IH; [by eapply keeps_ok|]. intros i. rewrite S1, acc_sources.
    destruct (source_bit i) as [b|]; [|apply Hu]. destruct (Z.testbit mask b); [apply u32_range|apply Hu]. }
  intros r s2 (K2 & words & Hlen & Hnone & Hw & Hst).
  split; [by apply (keeps_trans _ (IS k c2 v tbl lk st en cs)); [by split|]; eapply keeps_trans|].
  exists (mask :: words). split; [simpl; lia|]. split; [intros E; simpl; by rewrite Hnone|].
  split; [constructor; [by exists raised|]; by rewrite (kp_en _ _ K1) in Hw|].
  intros i. rewrite Hst, S1, acc_sources. change (int_stats (IS k c2 v tbl lk st en cs) i) with (st i).
  destruct (source_bit i) as [b|]; [|done]. unfold bit_count. rewrite zsum_cons.
  destruct (Z.testbit mask b); [|done]. rewrite u32_add_l. f_equal. simpl. lia.
Qed.

(** What every run of the main handler keeps, whatever the counters hold. *)
Lemma wp_bridge_interrupt_keeps (fuel : nat) s :
  irq_ok s → wp (vme_bridge_interrupt fuel) (λ _ s', keeps s s') s.
Proof.
  revert s. induction fuel as [|fuel IH]; intros s Hok; cbn [vme_bridge_interrupt];
    [wp_step; apply keeps_refl|].
  destruct s as [[k c v] tbl lk st en cs].
  change (mk_irq_state (mk_bridge k c v) tbl lk st en cs) with (IS k c v tbl lk st en cs) in *.
  wp_step. apply wp_ichip. unfold tsi148_get_int_status. apply wp_rd_any. intros raised c1 _.
  destruct (raised =? 0); [wp_step; by split|].
  wp_step. apply wp_ichip. unfold tsi148_clear_int. apply wp_wr. intros c2 _.
  wp_step. wp_step. cbv zeta. wp_step; [unfold count_int; repeat wp_step; by split|].
  wp_step. eapply wp_mono; [by apply wp_handle_status|]. intros m' s1 [K1 _]. cbv beta.
  assert (K0 : keeps (IS k c v tbl lk st en cs) s1) by (eapply keeps_trans; [|exact K1]; by split).
  eapply wp_mono; [apply IH; by eapply keeps_ok|]. intros r s2 K2. by eapply keeps_trans.
Qed.

(** * The vector table *)

(** Rules for the steps on the vector table. *)
Lemma wp_lock_table (Q : Z → I → Prop) k c v tbl st en cs :
  (∀ k', Q (- EINTR) (IS k' c v tbl false st en cs)) →
  (∀ k', Q 0 (IS k' c v tbl true st en cs)) → wp lock_table Q (IS k c v tbl false st en cs).
Proof.
  intros HE HS. unfold lock_table. wp_step. unfold wp at 1, in_br, kcall, zoom. simpl.
  unfold zoom. simpl. destruct (signal_pending k) as [[] k']; simpl; [apply HE|apply HS].
Qed.

Lemma wp_get_irq vec vi (Q : vme_irq → I → Prop) k c v tbl lk st en cs :
  0 <= vec → tbl !! Z.to_nat vec = Some vi → Q vi (IS k c v tbl lk st en cs) →
  wp (get_irq vec) Q (IS k c v tbl lk st en cs).
Proof.
  intros Hvec Hvi HQ. unfold wp, get_irq, IS. simpl.
  rewrite (proj2 (Z.ltb_ge vec 0)) by lia. by rewrite Hvi.
Qed.

Lemma alter_insert {A} (f : A → A) (l : list A) n x y :
  l !! n = Some x → f x = y → alter f n l = <[n := y]> l.
Proof.
  intros Hx Hf. apply list_eq. intros j. destruct (decide (j = n)) as [->|Hne].
  - rewrite list_lookup_alter_eq, Hx, list_lookup_insert_eq by (by eapply lookup_lt_Some).
    simpl. by rewrite Hf.
  - by rewrite list_lookup_alter_ne, list_lookup_insert_ne.
Qed.

Lemma wp_upd_irq vec f x y (Q : () → I → Prop) k c v tbl lk st en cs :
  tbl !! Z.to_nat vec = Some x → f x = y →
  Q () (IS k c v (<[Z.to_nat vec := y]> tbl) lk st en cs) →
  wp (upd_irq vec f) Q (IS k c v tbl lk st en cs).
Proof.
  intros Hx Hf HQ. unfold upd_irq. wp_step. unfold IS in *. simpl. by rewrite (alter_insert _ _ _ x y).
Qed.

Lemma wp_free_irq vec (Q : Z → I → Prop) k c v tbl st en cs vi :
  0 <= vec < VME_NUM_VECTORS → tbl !! Z.to_nat vec = Some vi → handler vi ≠ 0 →
  (∀ k', Q 0 (IS k' c v (<[Z.to_nat vec := no_irq]> tbl) false st en cs)) →
  (∀ k', Q (- EINTR) (IS k' c v tbl false st en cs)) →
  wp (vme_free_irq vec) Q (IS k c v tbl false st en cs).
Proof.
  intros Hvec Hvi Hh HS HE.
  unfold vme_free_irq. rewrite Z.geb_leb, (proj2 (Z.leb_gt VME_NUM_VECTORS vec)) by lia.
  wp_step. apply wp_lock_table; intros k2.
  { change (truthy (- EINTR)) with true. cbv iota. wp_step. apply HE. }
  change (truthy 0) with false. cbv iota. wp_step. eapply wp_get_irq; [lia|exact Hvi|]. wp_step.
  unfold truthy. destruct (Z.eqb_spec (handler vi) 0); [done|].
  cbn [negb]. cbv iota. wp_step. apply (wp_upd_irq vec _ vi no_irq); [done|by destruct vi|].
  wp_step. wp_step. unfold unlock_table. wp_step. wp_step. apply HS.
Qed.

(** Requesting or freeing any vector keeps the table's size, frees its mutex
    and holds nothing. *)
Definition same_table_size s s' : Prop :=
  vme_irq_table_lock s' = false ∧ length (vme_irq_table s') = length (vme_irq_table s) ∧
  live (kern (ibr s')) = live (kern (ibr s)) ∧ verr (ibr s') = verr (ibr s).

Lemma wp_lock_table_live (Q : Z → I → Prop) k c v tbl st en cs :
  (∀ k' rc, (rc = - EINTR → live k' = live k → Q rc (IS k' c v tbl false st en cs)) ∧
            (rc = 0 → live k' = live k → Q rc (IS k' c v tbl true st en cs))) →
  wp lock_table Q (IS k c v tbl false st en cs).
Proof.
  intros HQ. unfold lock_table. wp_step. unfold wp at 1, in_br, kcall, zoom. simpl.
  unfold zoom. simpl. pose proof (signal_pending_live k) as Hk.
  destruct (signal_pending k) as [[] k']; simpl in *; apply (HQ k'); done.
Qed.

(** Both requests: take the mutex, look at an entry, perhaps change it. *)
Lemma wp_table_op vec (test : vme_irq → bool) rc1 (f : vme_irq → vme_irq) s :
  vme_irq_table_lock s = false → (Z.to_nat vec < length (vme_irq_table s))%nat → 0 <= vec →
  wp (rc ← lock_table;
      if truthy rc then mret rc else
      virq ← get_irq vec;
      rc ← (if test virq then mret rc1 else upd_irq vec f;; mret 0);
      unlock_table;;
      mret rc) (λ _ s', same_table_size s s') s.
Proof.
  intros Hlk Hlen Hvec. destruct s as [[k c v] tbl lk st en cs]. simpl in Hlk, Hlen. subst lk.
  change (mk_irq_state (mk_bridge k c v) tbl false st en cs) with (IS k c v tbl false st en cs).
  destruct (lookup_lt_is_Some_2 tbl (Z.to_nat vec) Hlen) as [vi Hvi].
  wp_step. apply wp_lock_table_live. intros k' rc. split; intros -> Hk.
  { change (truthy (- EINTR)) with true. cbv iota. wp_step. by split. }
  change (truthy 0) with false. cbv iota. wp_step. eapply wp_get_irq; [done|exact Hvi|].
  wp_step. destruct (test vi).
  - wp_step. wp_step. unfold unlock_table. wp_step. wp_step. by split.
  - wp_step. eapply wp_upd_irq; [exact Hvi|reflexivity|]. wp_step. wp_step.
    unfold unlock_table. wp_step. wp_step. split; [done|].
    split; [by apply length_insert|done].
Qed.

Lemma wp_request_irq_size vec h a name s :
  vme_irq_table_lock s = false → length (vme_irq_table s) = 256%nat → 0 <= vec →
  wp (vme_request_irq vec h a name) (λ _ s', same_table_size s s') s.
Proof.
  intros Hlk Hlen Hvec. unfold vme_request_irq. destruct (Z.geb_spec vec VME_NUM_VECTORS).
  { wp_step. by split. }
  apply wp_table_op; [done| |done]. unfold VME_NUM_VECTORS in *. lia.
Qed.

Lemma wp_free_irq_size vec s :
  vme_irq_table_lock s = false → length (vme_irq_table s) = 256%nat → 0 <= vec →
  wp (vme_free_irq vec) (λ _ s', same_table_size s s') s.
Proof.
  intros Hlk Hlen Hvec. unfold vme_free_irq. destruct (Z.geb_spec vec VME_NUM_VECTORS).
  { wp_step. by split. }
  apply (wp_table_op vec (λ virq, negb (truthy (handler virq)))); [done| |done].
  unfold VME_NUM_VECTORS in *. lia.
Qed.
End proofs.
