(* ===== verification/VmeIrqSpec.v ===== *)
(** What the interrupt code promises ([src/vmebridge/driver/vme_irq.c]). *)
From S2P Require Import Prelude VmeBus Tsi148Regs Tsi148Attr Tsi148Window KernelIf VmeMisc VmeIrq.
From S2P Require Import VmeIrqProofs.

Local Open Scope Z_scope.

Section props.
Context `{KernelLaws K} `{ChipLaws C}.
Notation I := (irq_state K C).
Implicit Types (s : I).

(** VME interrupts are served from level 7 down to level 1: one IACK cycle
    for each raised level, in that order; the handler of each vector that has
    one is called with its argument, in that order; each raised level is
    counted once; no vector indexes outside the table and no handler entry
    changes. *)
Theorem vme_interrupt_dispatch mask s :
  irq_ok s →
  let r := iack_run mask (rev (seq 1 7)) (chip (ibr s)) in
  wp (handle_vme_interrupt mask) (λ _ s',
    chip (ibr s') = r.2 ∧ Forall (λ vec, 0 <= vec < VME_NUM_VECTORS) r.1 ∧
    calls s' = calls s ++ omap (handler_call (vme_irq_table s)) r.1 ∧
    int_stats s' = acc mask irq_sources (int_stats s) ∧
    entry <$> vme_irq_table s' = entry <$> vme_irq_table s) s.
Proof.
  intros [_ Ht] r. destruct s as [[k c v] tbl lk st en cs].
  eapply wp_mono; [by apply wp_irq_levels|]. intros [] s' (tbl' & Htbl & ->).
  split; [done|]. split; [|by split_and!]. subst r. generalize (rev (seq 1 7)) as l. intros l.
  cbn [ibr chip]. clear Ht. revert c. induction l as [|i l IH]; intros c; cbn [iack_run]; [constructor|].
  destruct (Z.testbit mask (Z.of_nat i)); [|by apply IH].
  destruct (ioread8_viack (Z.of_nat i) c) as [x c']. specialize (IH c').
  destruct (iack_run mask l c') as [vecs c2]. cbn [fst] in *. constructor; [|done].
  change 0xff with (Z.ones 8). rewrite Z.land_ones by lia. by apply Z.mod_pos_bound.
Qed.


(** The vector table.  [vme_request_irq] installs a handler only in a free
    vector below 256 and refuses with [-EINVAL], [-EBUSY] or an interrupted
    wait otherwise, with the table as before; after a successful request the
    entry holds the handler, its argument and a zero count, [vme_free_irq] of
    the same vector succeeds unless its wait is interrupted and gives the free
    entry back, and no other entry ever changes. *)
Theorem request_free_irq vec h a name s :
  vme_irq_table_lock s = false → length (vme_irq_table s) = 256%nat → 0 <= vec → h ≠ 0 →
  wp (vme_request_irq vec h a name) (λ rc s1,
    vme_irq_table_lock s1 = false ∧
    ((rc < 0 ∧ vme_irq_table s1 = vme_irq_table s ∧
       (rc = - EINVAL ↔ 256 <= vec) ∧
       (rc = - EBUSY → ∃ v, vme_irq_table s !! Z.to_nat vec = Some v ∧ handler v ≠ 0)) ∨
     (rc = 0 ∧ ∃ v, vme_irq_table s !! Z.to_nat vec = Some v ∧ handler v = 0 ∧
       vme_irq_table s1 = <[Z.to_nat vec :=
         mk_vme_irq h a 0 (Some (default "Unknown"%string name))]> (vme_irq_table s) ∧
       wp (vme_free_irq vec) (λ rc s2, vme_irq_table_lock s2 = false ∧
         ((rc = - EINTR ∧ vme_irq_table s2 = vme_irq_table s1) ∨
          (rc = 0 ∧ vme_irq_table s2 = <[Z.to_nat vec := no_irq]> (vme_irq_table s)))) s1))) s.
Proof.
  intros Hlk Hlen Hvec Hh. destruct s as [[k c v] tbl lk st en cs]. simpl in Hlk, Hlen. subst lk.
  change (mk_irq_state (mk_bridge k c v) tbl false st en cs) with (IS k c v tbl false st en cs).
  assert (Hne : ∀ rc, rc ≠ - EINVAL → 256 > vec → (rc = - EINVAL ↔ 256 <= vec)) by (intros; split; [done|lia]).
  unfold vme_request_irq. destruct (Z.geb_spec vec VME_NUM_VECTORS) as [Hge|Hlt].
  { wp_step. split; [done|]. left. split_and!; try done. }
  change VME_NUM_VECTORS with 256 in Hlt.
  destruct (lookup_lt_is_Some_2 tbl (Z.to_nat vec) ltac:(lia)) as [vi Hvi].
  wp_step. apply wp_lock_table; intros k1.
  { change (truthy (- EINTR)) with true. cbv iota. wp_step. split; [done|]. left.
    split_and!; try done. apply Hne; [done|lia]. }
  change (truthy 0) with false. cbv iota. wp_step. eapply wp_get_irq; [done|exact Hvi|]. wp_step.
  unfold truthy at 1. destruct (Z.eqb_spec (handler vi) 0) as [Hz|Hz]; cbn [negb]; cbv iota.
  2: { wp_step. wp_step. unfold unlock_table. wp_step. wp_step. split; [done|]. left.
       split_and!; try done; [apply Hne; [done|lia]|]. intros _. by exists vi. }
  set (new := mk_vme_irq h a 0 (Some (default "Unknown"%string name))).
  wp_step. apply (wp_upd_irq vec _ vi new); [done|by destruct vi|]. wp_step. wp_step.
  unfold unlock_table. wp_step. wp_step.
  split; [done|]. right. split; [done|]. exists vi. split; [done|]. split; [done|].
  split; [done|].
  assert (Hnew : <[Z.to_nat vec := new]> tbl !! Z.to_nat vec = Some new)
    by (apply list_lookup_insert_eq; by eapply lookup_lt_Some).
  apply (wp_free_irq vec _ k1 c v _ st en cs new); try done; [|intros; by split; auto].
  intros k2. split; [done|]. right. split; [done|]. apply list_insert_insert_eq.
Qed.

(** Enabling and disabling.  [vme_enable_interrupts] adds the given sources
    to those the chip has enabled and [vme_disable_interrupts] removes them;
    the result is 0, with both enable registers and the driver's mask equal to
    the new set, exactly when every source of the new set exists on the chip. *)
Theorem enable_disable_interrupts mask s :
  let cur := latch INTEO (chip (ibr s)) in
  let post (new rc : Z) s' :=
    vme_interrupts_enabled s' = new ∧
    latch INTEN (chip (ibr s')) = Z.land new TSI148_INT_ALL ∧
    latch INTEO (chip (ibr s')) = Z.land new TSI148_INT_ALL ∧
    (rc = 0 ∨ rc = -1) ∧ (rc = 0 ↔ Z.land new TSI148_INT_ALL = new) in
  wp (vme_enable_interrupts mask) (post (Z.lor cur mask)) s ∧
  wp (vme_disable_interrupts mask) (post (Z.land cur (u32 (Z.lnot mask)))) s.
Proof.
  intros cur post.
  assert (Hset : ∀ new k c v tbl lk st cs,
    wp (ichip (tsi148_set_interrupts new)) (post new) (IS k c v tbl lk st new cs)).
  { intros new k c v tbl lk st cs. apply wp_ichip. unfold tsi148_set_interrupts.
    wp_step. apply wp_wr. intros c1 H1'. wp_step. apply wp_wr. intros c2 H2'.
    assert (Eo : latch INTEO c2 = Z.land new TSI148_INT_ALL).
    { rewrite H2' by done. rewrite decide_False by done. by rewrite H1', decide_True. }
    assert (En : latch INTEN c2 = Z.land new TSI148_INT_ALL).
    { by rewrite H2', decide_True. }
    wp_step. apply wp_rd_latch; [done|]. intros c3 H3'. rewrite Eo.
    destruct (Z.eqb_spec (Z.land new TSI148_INT_ALL) new) as [E|E]; cbn [negb]; cbv iota.
    - wp_step. apply wp_rd_latch; [done|]. intros c4 H4'. rewrite H3', En, E by done.
      rewrite Z.eqb_refl. cbn [negb]. cbv iota. wp_step. unfold post. simpl.
      rewrite !H4', !H3', Eo, En, E by done.
      split_and!; [done|done|done|by left|by split].
    - wp_step. unfold post. simpl. rewrite !H3', Eo, En by done.
      split_and!; [done|done|done|by right|by split]. }
  destruct s as [[k c v] tbl lk st en cs].
  change (mk_irq_state (mk_bridge k c v) tbl lk st en cs) with (IS k c v tbl lk st en cs).
  subst cur. simpl.
  split; [unfold vme_enable_interrupts|unfold vme_disable_interrupts]; wp_step; apply wp_ichip;
    unfold tsi148_get_int_enabled; (apply wp_rd_latch; [done|]); intros c1 _; cbv zeta;
    wp_step; wp_step; apply Hset.
Qed.
End props.

(** * Witnesses *)

Notation sim_I := (irq_state SimKernel.kernel LatchChip.chip).

(** A handler on vector 0x43; the chip reports IRQ3, and delivers vector
    0x40 + level on an IACK cycle. *)
Definition sim_irq : sim_I :=
  mk_irq_state
    (mk_bridge SimKernel.boot (λ r, if decide (r = INTS) then 0x8 else 0)
       (mk_vme_verr false (mk_vme_bus_error_desc (mk_vme_bus_error 0 0) 0) []))
    (<[0x43%nat := mk_vme_irq 0x1000 0x77 0 None]> (replicate 256 no_irq)) false (λ _, 0) 0xfe [].

Lemma sim_irq_ok : irq_ok sim_irq.
Proof. by split. Qed.

(** Two rounds of the main handler call the handler twice. *)
Example sim_irq_run :
  (λ r, (calls r.2, int_stats r.2 INT_IRQ3)) <$> vme_bridge_interrupt 2 sim_irq =
  Some ([CallHandler 0x1000 0x77; CallHandler 0x1000 0x77], 2).
Proof. vm_compute. reflexivity. Qed.

Lemma vme_interrupt_dispatch_witness :
  wp (S := sim_I) (handle_vme_interrupt 0x88) (λ _ s',
    calls s' = [CallHandler 0x1000 0x77]) sim_irq.
Proof.
  eapply wp_mono; [apply (vme_interrupt_dispatch 0x88 sim_irq); exact sim_irq_ok|].
  intros [] s' (_ & _ & H & _). rewrite H. vm_compute. reflexivity.
Defined.


Lemma request_free_irq_witness :
  wp (S := sim_I) (vme_request_irq 0x43 0x2000 0 None) (λ rc _, rc < 0 ∨ rc = 0) sim_irq.
Proof.
  eapply wp_mono; [apply (request_free_irq 0x43 0x2000 0 None sim_irq)|].
  - reflexivity.
  - reflexivity.
  - vm_compute. congruence.
  - discriminate.
  - intros rc s' [_ [[H _]|[H _]]]; [by left|by right].
Defined.
