(* ===== verification/VmeCesif.v ===== *)
(** The emulation of the LynxOS CES driver interface:
    [src/vmebridge/driver/vme_cesif.c].

    A client of the window manager and of the vector table: its theorem is
    proved from [inv_find], [inv_find_from_addr] and [inv_release] only. *)
From S2P Require Import Prelude VmeBus Tsi148Regs Tsi148Attr Tsi148Window KernelIf VmeMisc.
From S2P Require Import VmeWindow VmeWindowProofs VmeWindowSpec VmeWindowFops VmeIrq.

Local Open Scope Z_scope.

(** [-1] as an [unsigned long]. *)
Definition CES_ERR : Z := u64 (- 1).

(** The [switch] on the data size, in bytes. *)
Definition ces_data_width (size : Z) : option Z :=
  if size =? 2 then Some VME_D16 else if size =? 4 then Some VME_D32 else None.

(** The descriptor that [find_controller] fills in; the arguments are
    [unsigned long], the fields are [unsigned int]. *)
Definition ces_desc (vmeaddr len a dw : Z) (param : pdparam_master) : vme_mapping :=
  let desc :=
    if truthy (rdpref param)
    then zero_mapping <| read_prefetch_enabled := 1 |> <| read_prefetch_size := VME_PREFETCH_2 |>
    else zero_mapping in
  desc <| data_width := dw |> <| am := u32 a |> <| bcast_select := 0 |>
       <| sizel := u32 len |> <| sizeu := 0 |>
       <| vme_addrl := u32 vmeaddr |> <| vme_addru := 0 |>.

Section cesif.
Context `{Kernel K} `{ChipIO C}.
Notation W := (wstate K C).

Definition find_controller (vmeaddr len a size : Z) (param : pdparam_master) (cur : task)
    : M W Z :=
  p ← wkcall (kmalloc 80);
  if p =? 0 then mret CES_ERR else
  match ces_data_width size with
  | None => wkdo (kfree p);; mret CES_ERR
  | Some dw =>
    '(rc, desc) ← vme_find_mapping (ces_desc vmeaddr len a dw param) 1 cur;
    if truthy rc then wkdo (kfree p);; mret CES_ERR
    else mret (kernel_va desc)
  end.

(** The parameters are [unsigned]: a longer address is truncated by the call. *)
Definition return_controller (logaddr len : Z) : M W Z :=
  d ← find_vme_mapping_from_addr (u32 logaddr);
  match d with
  | None => mret CES_ERR
  | Some desc =>
    err ← vme_release_mapping desc 1;
    if negb (truthy err) then mret 0 else mret CES_ERR
  end.

Definition vme_intset (vec h a : Z) : M (irq_state K C) Z := vme_request_irq vec h a None.

Definition vme_intclr (vec : Z) : M (irq_state K C) Z := vme_free_irq vec.
End cesif.

Section proofs.
Context `{KernelLaws K} `{ChipLaws C}.
Notation W := (wstate K C).

(** A block allocated next to the table belongs to the rest of the system, and
    can be given back. *)
Lemma inv_rebase base base' k c v t a b k' :
  inv base (ST k c v t a b) → live k' = table_res t ⊎ base' → inv base' (ST k' c v t a b).
Proof. intros [I1 I2 I3 I4 I5 I6 I7 I8] Hk. by split. Qed.

Lemma inv_kmalloc base n (Q : Z → W → Prop) (s : W) :
  inv base s →
  (∀ s', inv base s' → window_table s' = window_table s → Q 0 s') →
  (∀ p s', 0 < p → inv ({[+ Block p +]} ⊎ base) s' → window_table s' = window_table s → Q p s') →
  wp (wkcall (kmalloc n)) Q s.
Proof.
  intros HI HE HS. open_state s. apply wp_wkcall. pose proof (inv_live _ _ HI) as L. simpl in L.
  destruct (kmalloc_live n k) as [[-> Hk]|(Hp & _ & Hk)].
  - apply HE; [by eapply inv_kern|done].
  - apply HS; [done| |done]. eapply inv_rebase; [exact HI|]. rewrite Hk, L. multiset_solver.
Qed.

Lemma inv_kfree base p (Q : () → W → Prop) (s : W) :
  inv ({[+ Block p +]} ⊎ base) s →
  (∀ s', inv base s' → window_table s' = window_table s → Q () s') →
  wp (wkdo (kfree p)) Q s.
Proof.
  intros HI HQ. open_state s. apply wp_wkdo. pose proof (inv_live _ _ HI) as L. simpl in L.
  apply HQ; [|done]. eapply inv_rebase; [exact HI|]. rewrite kfree_live, L. multiset_solver.
Qed.

(** The CES interface.  [find_controller] either returns -1 with nothing
    left allocated for the caller (and the window table as it was, unless the
    mapping's record could not be allocated in a window created for it), or
    returns the kernel address of a mapping placed for the kernel in a window
    of the requested modifier and width.  The descriptor it allocated then
    stays allocated: [return_controller] of that address, with whatever
    result, does not give it back; it returns 0 exactly when it removed the
    first mapping with the address, size and virtual address of one found
    there. *)
Theorem find_return_controller (base : gmultiset resource) vmeaddr len a size param cur len' (s : W) :
  inv base s →
  wp (find_controller vmeaddr len a size param cur) (λ r s1,
    (r = CES_ERR ∧ inv base s1 ∧
      (window_table s1 = window_table s ∨ ∃ i w w', window_table s !! i = Some w ∧
         active w = 0 ∧ active w' = 1 ∧ mappings w' = [] ∧
         window_table s1 = <[i:=w']> (window_table s))) ∨
    (∃ p dw desc i, 0 < p ∧ inv ({[+ Block p +]} ⊎ base) s1 ∧ ces_data_width size = Some dw ∧
       r = kernel_va desc ∧
       placed (ces_desc vmeaddr len a dw param) desc 0 i (window_table s1) ∧
       (∀ j, j ≠ i → window_table s1 !! j = window_table s !! j) ∧
       wp (return_controller r len') (λ rc s2, inv ({[+ Block p +]} ⊎ base) s2 ∧
         ((rc = CES_ERR ∧ window_table s2 = window_table s1) ∨
          ∃ j w m err, window_table s1 !! j = Some w ∧ m ∈ mappings w ∧
            kernel_va (m_desc m) = u32 r ∧
            release_outcome (m_desc m) 1 0 err (window_table s1) (window_table s2) ∧
            rc = (if err =? 0 then 0 else CES_ERR))) s1)) s.
Proof.
  intros HI. unfold find_controller. wp_step. apply inv_kmalloc with base; [done| |].
  { intros s' HI' Ht. rewrite Z.eqb_refl. wp_step. left. auto. }
  intros p s' Hp HI' Ht. destruct (Z.eqb_spec p 0); [lia|].
  destruct (ces_data_width size) as [dw|] eqn:Ew.
  2: { wp_step. eapply inv_kfree; [exact HI'|]. intros s2 HI2 Ht2. wp_step. left.
       split_and!; [done|done|left; congruence]. }
  wp_step. eapply wp_mono; [apply (inv_find _ _ 1 0 cur s' HI'); apply u32_range|].
  intros [rc desc] s2 [HI2 Hout]. cbv beta iota. rewrite Ht in Hout.
  destruct Hout as [[Hneg Ht2]|[(Hrc & _ & i & w & Hw & Ho & Hp2 & _)|
    (Hrc & _ & i & w & w' & Hw & Ha & Ha' & Hm & Ht2)]]; simpl in *.
  - rewrite truthy_neg by done. wp_step. eapply inv_kfree; [exact HI2|]. intros s3 HI3 Ht3.
    wp_step. left. split_and!; [done|done|left; congruence].
  - subst rc. change (truthy 0) with false. cbv iota. wp_step. right.
    exists p, dw, desc, i. split_and!; try done.
    unfold return_controller. wp_step.
    eapply wp_mono; [apply inv_find_from_addr; [exact HI2|apply all_windows]|].
    intros [d|] s3 (HI3 & Ht3 & Hd); [|wp_step; split; [done|by left]].
    destruct Hd as (j & x & m & Hx & Hm & <- & Hva). wp_step.
    eapply wp_mono; [by apply inv_release|]. intros err s4 [HI4 Hrel]. rewrite Ht3 in Hrel.
    unfold truthy. destruct (Z.eqb_spec err 0); cbn [negb]; cbv iota; wp_step; split; try done;
      right; exists j, x, m, err; split_and!; try done.
    + by rewrite (proj2 (Z.eqb_eq err 0)).
    + by rewrite (proj2 (Z.eqb_neq err 0)).
  - subst rc. change (truthy (- ENOMEM)) with true. cbv iota. wp_step.
    eapply inv_kfree; [exact HI2|]. intros s3 HI3 Ht3. wp_step. left.
    split_and!; [done|done|right]. exists i, w, w'. by rewrite Ht3.
Qed.
End proofs.

(** * Witness: a 64 KB D16 mapping on the concrete kernel and chip *)

Definition sim_cesif : wstate SimKernel.kernel LatchChip.chip :=
  mk_wstate (mk_bridge SimKernel.boot LatchChip.reset
    (mk_vme_verr false (mk_vme_bus_error_desc (mk_vme_bus_error 0 0) 0) [])) boot_table 1 1.

Definition sim_param : pdparam_master := mk_pdparam_master 0 0 0 0 0 [].

(** Mapping and unmapping succeed; every window is idle again, and the block of
    the descriptor is all that is left. *)
Example find_return_run :
  (λ r, (r.1, SimKernel.held (kern (br r.2)), active <$> window_table r.2)) <$>
    (a ← find_controller 0x120000 0x10000 VME_A32_USER_DATA_SCT 2 sim_param (mk_task 1 "a");
     return_controller a 0x10000) sim_cesif =
  Some (0, [Block 1], replicate 8 0).
Proof. vm_compute. reflexivity. Qed.

Lemma find_return_controller_witness :
  wp (S := wstate SimKernel.kernel LatchChip.chip)
    (find_controller 0x120000 0x10000 VME_A32_USER_DATA_SCT 2 sim_param (mk_task 1 "a"))
    (λ r s1, r = CES_ERR ∨ ∃ p, inv ({[+ Block p +]} ⊎ live SimKernel.boot) s1) sim_cesif.
Proof.
  assert (HI : inv (live SimKernel.boot) sim_cesif).
  { apply inv_boot; [|done]. intros i _. apply Z.testbit_0_l. }
  eapply wp_mono; [apply (find_return_controller _ _ _ _ _ _ _ 0x10000 _ HI)|].
  intros r s1 [[Hr _]|(p & _ & _ & _ & _ & HI1 & _)]; [by left|right]. by exists p.
Defined.
