(* ===== verification/VmeFrame.v ===== *)
(** What the parts of the driver leave alone.

    [resp R m]: whatever [m] does, the states before and after are related by
    [R].  With [R] a preorder the property composes, so one lemma per primitive
    and the hint database [frame] settle a whole component: DMA and interrupt
    handling never touch the window registers of the chip or the list of
    error handlers, which is what the window manager's invariant depends on. *)
From S2P Require Import Prelude VmeBus Tsi148Regs Tsi148Attr Tsi148Window KernelIf VmeMisc.
From S2P Require Import VmeWindow Tsi148Dma VmeDma VmeIrq.

Local Open Scope Z_scope.

Definition resp {S A} (R : relation S) (m : M S A) : Prop :=
  ∀ s a s', m s = Some (a, s') → R s s'.

Create HintDb frame.

Section resp.
Context {S : Type} (R : relation S) `{!PreOrder R}.

Lemma resp_ret {A} (a : A) : resp R (mret a).
Proof. by intros s a' s' [= _ <-]. Qed.

Lemma resp_stuck {A} : resp R (stuck (A := A)).
Proof. by intros s a s'. Qed.

Lemma resp_gets {A} (f : S → A) : resp R (gets f).
Proof. by intros s a' s' [= _ <-]. Qed.

Lemma resp_modify (f : S → S) : (∀ s, R s (f s)) → resp R (modify f).
Proof. intros Hf s a' s' [= _ <-]. apply Hf. Qed.

Lemma resp_bind {A B} (m : M S A) (f : A → M S B) :
  resp R m → (∀ a, resp R (f a)) → resp R (m ≫= f).
Proof.
  intros Hm Hf s b s'. unfold mbind, M_bind. destruct (m s) as [[a s1]|] eqn:E; [|done].
  intros E'. etrans; [by eapply Hm|by eapply Hf].
Qed.

Lemma resp_mfold {A B} (f : B → A → M S B) b (l : list A) :
  (∀ b x, resp R (f b x)) → resp R (mfold f b l).
Proof.
  intros Hf. revert b. induction l as [|x l IH]; intros b; simpl; [apply resp_ret|].
  by apply resp_bind.
Qed.

(** A total run that respects [R]. *)
Lemma wp_resp {A} (m : M S A) (Q : A → S → Prop) s :
  resp R m → wp m Q s → wp m (λ a s', Q a s' ∧ R s s') s.
Proof.
  intros Hm. unfold wp. destruct (m s) as [[a s']|] eqn:E; [|done].
  intros HQ. split; [done|by eapply Hm].
Qed.
End resp.

(** Through a component: [put] relates what the part relates. *)
Lemma resp_zoom {S T A} (R : relation S) (R' : relation T) (get : S → T) (put : T → S → S)
    (m : M T A) :
  (∀ s t, R' (get s) t → R s (put t s)) → resp R' m → resp R (zoom get put m).
Proof.
  intros HR Hm s a s'. unfold zoom. destruct (m (get s)) as [[x t]|] eqn:E; [|done].
  intros [= _ <-]. by eapply HR, Hm.
Qed.

(** Walk through a computation; leaf calls are left to the database. *)
Ltac frame_step :=
  lazymatch goal with
  | |- resp _ (_ ≫= _) => apply resp_bind; [exact _| |intros ?]
  | |- resp _ (mret _) => apply resp_ret; exact _
  | |- resp _ stuck => apply resp_stuck
  | |- resp _ (gets _) => apply resp_gets; exact _
  | |- resp _ (mfold _ _ _) => apply resp_mfold; [exact _|intros]
  | |- resp _ (if ?b then _ else _) => destruct b
  | |- resp _ (let _ := _ in _) => cbv zeta
  | |- resp _ (match ?x with _ => _ end) => destruct x
  end.
Ltac frame := repeat first [progress cbv beta | solve [eauto with frame] | frame_step].

(** The registers of the translation windows. *)
Definition decode_reg (r : reg) : bool :=
  match r with
  | OTSAU _ | OTSAL _ | OTEAU _ | OTEAL _ | OTOFU _ | OTOFL _ | OTBS _ | OTAT _ | ITAT _ => is_latch r
  | _ => false
  end.

Section frames.
Context `{KernelLaws K} `{ChipLaws C}.

(** The decoding registers keep their value. *)
Definition same_decode (c c' : C) : Prop :=
  ∀ r, decode_reg r = true → latch r c' = latch r c.

#[local] Instance same_decode_pre : PreOrder same_decode.
Proof.
  split; [by intros c r|]. intros c1 c2 c3 Ha Hb r Hr. by rewrite Hb, Ha.
Qed.

Lemma decode_latch r : decode_reg r = true → is_latch r = true.
Proof. by destruct r. Qed.

Lemma resp_rd r : resp same_decode (rd r).
Proof.
  intros c a c' E r' Hr'. injection E as E.
  pose proof (ioread32be_keeps r r' c (decode_latch _ Hr')) as Hk. by rewrite E in Hk.
Qed.

Lemma resp_rd8 i : resp same_decode (rd8_viack i).
Proof.
  intros c a c' E r' Hr'. injection E as E.
  pose proof (ioread8_viack_keeps i r' c (decode_latch _ Hr')) as Hk. by rewrite E in Hk.
Qed.

Lemma resp_wr v r : decode_reg r = false → resp same_decode (wr v r).
Proof.
  intros Hr c a c' E r' Hr'. injection E as _ <-.
  apply iowrite32be_keeps; [by intros ->; congruence|by apply decode_latch].
Qed.

#[local] Hint Resolve resp_rd resp_rd8 : frame.
#[local] Hint Extern 1 (resp _ (wr _ _)) => (apply resp_wr; reflexivity) : frame.

Lemma resp_pci_error : resp same_decode tsi148_handle_pci_error.
Proof. unfold tsi148_handle_pci_error. frame. Qed.
Lemma resp_vme_error : resp same_decode tsi148_handle_vme_error.
Proof. unfold tsi148_handle_vme_error. frame. Qed.
Lemma resp_iack i : resp same_decode (tsi148_iack8 i).
Proof. unfold tsi148_iack8. frame. Qed.
Lemma resp_set_interrupts m : resp same_decode (tsi148_set_interrupts m).
Proof. unfold tsi148_set_interrupts. frame. Qed.
Lemma resp_clear_int m : resp same_decode (tsi148_clear_int m).
Proof. unfold tsi148_clear_int. frame. Qed.
Lemma resp_int_status : resp same_decode tsi148_get_int_status.
Proof. unfold tsi148_get_int_status. frame. Qed.
Lemma resp_int_enabled : resp same_decode tsi148_get_int_enabled.
Proof. unfold tsi148_get_int_enabled. frame. Qed.
Lemma resp_setup_crg b a : resp same_decode (tsi148_setup_crg b a).
Proof. unfold tsi148_setup_crg. frame. Qed.
Lemma resp_disable_crg : resp same_decode tsi148_disable_crg.
Proof. unfold tsi148_disable_crg. frame. Qed.
Lemma resp_init : resp same_decode tsi148_init.
Proof. unfold tsi148_init. frame. Qed.
#[local] Hint Resolve resp_pci_error resp_vme_error resp_iack resp_set_interrupts
  resp_clear_int resp_int_status resp_int_enabled : frame.

(** * The bridge *)

(** The chip's decoding registers are the same, and so is a part [f] of the bus
    error state: all of it, or the list of handlers. *)
Definition same_bridge {X} (f : vme_verr → X) (b b' : bridge K C) : Prop :=
  same_decode (chip b) (chip b') ∧ f (verr b') = f (verr b).

#[local] Instance same_bridge_pre {X} (f : vme_verr → X) : PreOrder (same_bridge f).
Proof.
  split; [by intros b; split|]. intros b1 b2 b3 [Ha1 Ha2] [Hb1 Hb2]. split; [by etrans|congruence].
Qed.

Lemma resp_kcall {A X} (g : vme_verr → X) (f : K → A * K) : resp (same_bridge g) (kcall f).
Proof. intros b a b'. unfold kcall, zoom. destruct (f (kern b)). by intros [= <- <-]. Qed.
Lemma resp_kdo {X} (g : vme_verr → X) (f : K → K) : resp (same_bridge g) (kdo f).
Proof. apply resp_kcall. Qed.
Lemma resp_on_chip {A X} (g : vme_verr → X) (m : M C A) :
  resp same_decode m → resp (same_bridge g) (on_chip m).
Proof. intros Hm. eapply resp_zoom; [|exact Hm]. by intros b c Hc. Qed.
#[local] Hint Resolve resp_kcall resp_kdo resp_on_chip : frame.

(** * The window manager

    It programs the decoding registers; the error handlers stay. *)

Definition same_handlers (s s' : wstate K C) : Prop :=
  h_list (verr (br s')) = h_list (verr (br s)).

#[local] Instance same_handlers_pre : PreOrder same_handlers.
Proof. split; [by intros s|]. intros s1 s2 s3. unfold same_handlers. congruence. Qed.

Notation W := (wstate K C).

Lemma resp_wkcall {A} (f : K → A * K) : resp same_handlers (wkcall f).
Proof. intros s a s'. unfold wkcall, in_bridge, kcall, zoom. simpl. unfold zoom. by destruct (f _); intros [= <- <-]. Qed.
Lemma resp_wkdo (f : K → K) : resp same_handlers (wkdo f).
Proof. apply resp_wkcall. Qed.
Lemma resp_wchip {A} (m : M C A) : resp same_handlers (wchip m).
Proof.
  intros s a s'. unfold wchip, in_bridge, on_chip, zoom. simpl. unfold zoom.
  by destruct (m _) as [[x c]|]; intros [= <- <-].
Qed.
Lemma resp_win i : resp same_handlers (win i).
Proof. intros s a s'. unfold win. destruct (window_table s !! i); [|done]. by intros [= <- <-]. Qed.
Lemma resp_upd_win i f : resp same_handlers (upd_win i f).
Proof. intros s a s'. unfold upd_win. destruct (window_table s !! i); [|done]. by intros [= <- <-]. Qed.
#[local] Hint Resolve resp_wkcall resp_wkdo resp_wchip resp_win resp_upd_win : frame.

Lemma resp_lock_win i : resp same_handlers (lock_win i).
Proof. unfold lock_win. frame. Qed.
Lemma resp_unlock_win i : resp same_handlers (unlock_win i).
Proof. unfold unlock_win. frame. Qed.
#[local] Hint Resolve resp_lock_win resp_unlock_win : frame.

Lemma resp_release_windows l f : resp same_handlers (release_windows l f).
Proof.
  induction l as [|i l IH]; cbn [release_windows]; unfold release_window, release_mappings; frame.
Qed.
Lemma resp_add_mapping i d f cur : resp same_handlers (add_mapping i d f cur).
Proof. unfold add_mapping. frame. Qed.
Lemma resp_remove_mapping i d f : resp same_handlers (remove_mapping i d f).
Proof. unfold remove_mapping. frame. Qed.
Lemma resp_find_from_addr l a : resp same_handlers (find_from_addr l a).
Proof. induction l as [|i l IH]; cbn [find_from_addr]; frame. Qed.
Lemma resp_get_attr d : resp same_handlers (vme_get_window_attr d).
Proof. unfold vme_get_window_attr. frame. Qed.
Lemma resp_create d : resp same_handlers (vme_create_window d).
Proof. unfold vme_create_window, create_locked, create_out_release, create_out_free. frame. Qed.
Lemma resp_destroy n : resp same_handlers (vme_destroy_window n).
Proof. unfold vme_destroy_window, destroy_locked, remove_all_mappings. frame. Qed.
Lemma resp_search l m : resp same_handlers (search_windows l m).
Proof. induction l as [|i l IH]; cbn [search_windows]; frame. Qed.
#[local] Hint Resolve resp_release_windows resp_add_mapping resp_remove_mapping
  resp_find_from_addr resp_get_attr resp_create resp_destroy resp_search : frame.

Lemma resp_find m force f cur : resp same_handlers (vme_find_mapping_file m force f cur).
Proof. unfold vme_find_mapping_file. frame. Qed.
Lemma resp_release_mapping d force f : resp same_handlers (vme_release_mapping_file d force f).
Proof. unfold vme_release_mapping_file. frame. Qed.
Lemma resp_mmap l f vma : resp same_handlers (mmap_windows l f vma).
Proof. induction l as [|i l IH]; cbn [mmap_windows]; unfold vme_remap_pfn_range; frame. Qed.
#[local] Hint Resolve resp_find resp_release_mapping resp_mmap : frame.

Lemma resp_in_bridge {A} (m : M (bridge K C) A) :
  resp (λ b b' : bridge K C, h_list (verr b') = h_list (verr b)) m → resp same_handlers (in_bridge m).
Proof. intros Hm. eapply resp_zoom; [|exact Hm]. by intros s b. Qed.
Lemma resp_berr_check clear : resp same_handlers (in_bridge (vme_bus_error_check clear)).
Proof. apply resp_wchip. Qed.
Lemma resp_berr_check_clear e : resp same_handlers (in_bridge (vme_bus_error_check_clear e)).
Proof.
  apply resp_in_bridge. intros b a b'.
  unfold vme_bus_error_check_clear, vme_bus_error_check_clear_locked, spin_lock, spin_unlock.
  unfold mbind, M_bind. destruct (verr_locked (verr b)); [done|]. simpl.
  destruct (_ && _); by intros [= <- <-].
Qed.
#[local] Hint Resolve resp_berr_check resp_berr_check_clear : frame.
#[local] Hint Extern 1 (resp same_handlers (modify _)) =>
  (apply resp_modify; intros ?; reflexivity) : frame.

Lemma resp_window_ioctl f cur cmd : resp same_handlers (vme_window_ioctl f cur cmd).
Proof.
  unfold vme_window_ioctl, vme_destroy_window_ioctl, vme_bus_error_check_clear_ioctl,
    from_user, to_user. frame.
Qed.
Lemma resp_window_release f : resp same_handlers (vme_window_release f).
Proof. apply resp_release_windows. Qed.
Lemma resp_window_mmap f vma : resp same_handlers (vme_window_mmap f vma).
Proof. apply resp_mmap. Qed.
Lemma resp_window_exit : resp same_handlers vme_window_exit.
Proof. unfold vme_window_exit. frame. Qed.
Lemma resp_from_addr a : resp same_handlers (find_vme_mapping_from_addr a).
Proof. apply resp_find_from_addr. Qed.

(** * DMA *)

Definition same_dma (s s' : dma_state K C) : Prop := same_bridge id (dbr s) (dbr s').
Definition same_vdma (s s' : vdma_state K C) : Prop := same_bridge id (vbr s) (vbr s').

#[local] Instance same_dma_pre : PreOrder same_dma.
Proof. split; [by intros s|]. intros s1 s2 s3. unfold same_dma. by etrans. Qed.
#[local] Instance same_vdma_pre : PreOrder same_vdma.
Proof. split; [by intros s|]. intros s1 s2 s3. unfold same_vdma. by etrans. Qed.

Context `{!DmaKernel K}.
Notation D := (dma_state K C).
Notation V := (vdma_state K C).

Lemma resp_on_bridge {A} (m : M (bridge K C) A) : resp (same_bridge id) m → resp same_dma (on_bridge m).
Proof. intros Hm. eapply resp_zoom; [|exact Hm]. by intros s t. Qed.
Lemma resp_dcall {A} (f : K → A * K) : resp same_dma (dcall f).
Proof. apply resp_on_bridge, resp_kcall. Qed.
Lemma resp_ddo (f : K → K) : resp same_dma (ddo f).
Proof. apply resp_on_bridge, resp_kdo. Qed.
Lemma resp_dchip {A} (m : M C A) : resp same_decode m → resp same_dma (dchip m).
Proof. intros Hm. by apply resp_on_bridge, resp_on_chip. Qed.
Lemma resp_get_chan : resp same_dma get_chan.
Proof. apply resp_gets; exact _. Qed.
Lemma resp_dma_modify (f : D → D) : (∀ s, dbr (f s) = dbr s) → resp same_dma (modify f).
Proof. intros Hf. apply resp_modify. intros s. unfold same_dma. by rewrite Hf. Qed.
Lemma resp_set_chan f : resp same_dma (set_chan f).
Proof. by apply resp_dma_modify. Qed.
Lemma resp_upd_desc va f : resp same_dma (upd_desc va f).
Proof. unfold upd_desc. destruct (va =? 0); [apply resp_stuck|by apply resp_dma_modify]. Qed.
#[local] Hint Resolve resp_dcall resp_ddo resp_dchip resp_get_chan resp_set_chan resp_upd_desc : frame.
#[local] Hint Extern 1 (resp same_dma (modify _)) => (apply resp_dma_modify; reflexivity) : frame.

Lemma resp_hwdesc_init : resp same_dma hwdesc_init.
Proof. unfold hwdesc_init. frame. Qed.
Lemma resp_free_chain : resp same_dma tsi148_dma_free_chain.
Proof. unfold tsi148_dma_free_chain. frame. Qed.
Lemma resp_fill tsi a d n sa da : resp same_dma (tsi148_fill_dma_desc tsi a d n sa da).
Proof. unfold tsi148_fill_dma_desc. frame. Qed.
Lemma resp_get_status : resp same_dma tsi148_dma_get_status.
Proof. unfold tsi148_dma_get_status. frame. Qed.
#[local] Hint Resolve resp_hwdesc_init resp_free_chain resp_fill resp_get_status : frame.

Lemma resp_link_loop fuel n i b sa da ve de v d len cur next :
  resp same_dma (link_loop fuel n i b sa da ve de v d len cur next).
Proof.
  revert v d len cur next. induction fuel as [|fuel IH]; intros; cbn [link_loop]; frame.
Qed.
#[local] Hint Resolve resp_link_loop : frame.

Lemma resp_link_add a v d n np i b sa da : resp same_dma (tsi148_dma_link_add a v d n np i b sa da).
Proof. unfold tsi148_dma_link_add. frame. Qed.
#[local] Hint Resolve resp_link_add : frame.

Lemma resp_chain_loop l n i b sa da v cur : resp same_dma (chain_loop l n i b sa da v cur).
Proof. revert i v cur. induction l as [|[a len] l IH]; intros; cbn [chain_loop]; frame. Qed.
#[local] Hint Resolve resp_chain_loop : frame.

Lemma resp_setup : resp same_dma tsi148_dma_setup.
Proof. unfold tsi148_dma_setup, tsi148_dma_setup_chain. frame. Qed.
Lemma resp_start : resp same_dma tsi148_dma_start.
Proof. unfold tsi148_dma_start. frame. Qed.
Lemma resp_abort : resp same_dma tsi148_dma_abort.
Proof. unfold tsi148_dma_abort. frame. Qed.
Lemma resp_release : resp same_dma tsi148_dma_release.
Proof. unfold tsi148_dma_release. frame. Qed.
Lemma resp_put_pages l : resp same_dma (put_pages l).
Proof. unfold put_pages. frame. Qed.
#[local] Hint Resolve resp_setup resp_start resp_abort resp_release resp_put_pages : frame.

Lemma resp_sgl_map n a len u : resp same_dma (sgl_map_user_pages n a len u).
Proof. unfold sgl_map_user_pages, sgl_fill_user_pages, sgl_fill_kernel_pages. frame. Qed.
Lemma resp_sgl_unmap l u : resp same_dma (sgl_unmap_user_pages l u).
Proof. unfold sgl_unmap_user_pages. frame. Qed.
Lemma resp_map_sgl a l d : resp same_dma (map_sgl a l d).
Proof. unfold map_sgl. frame. Qed.
#[local] Hint Resolve resp_sgl_map resp_sgl_unmap resp_map_sgl : frame.

Lemma resp_vme_dma_setup u : resp same_dma (vme_dma_setup u).
Proof. unfold vme_dma_setup. frame. Qed.
Lemma resp_wait n : resp same_dma (wait_dma n).
Proof. induction n as [|n IH]; cbn [wait_dma]; unfold tsi148_dma_busy; frame. Qed.
#[local] Hint Resolve resp_vme_dma_setup resp_wait : frame.
Lemma resp_run_transfer n u : resp same_dma (run_transfer n u).
Proof. unfold run_transfer, vme_dma_start. frame. Qed.
#[local] Hint Resolve resp_run_transfer : frame.

Lemma resp_on_chan {A} i (m : M D A) : resp same_dma m → resp same_vdma (on_chan i m).
Proof.
  intros Hm s a s'. unfold on_chan. destruct (channels s !! i) as [ch|]; [|done].
  destruct (m _) as [[x d]|] eqn:E; [|done]. intros [= <- <-]. exact (Hm _ _ _ E).
Qed.
Lemma resp_vcall {A} (f : K → A * K) : resp same_vdma (vcall f).
Proof. eapply resp_zoom; [|apply (resp_kcall id f)]. by intros s b. Qed.
Lemma resp_vdma_modify (f : V → V) : (∀ s, vbr (f s) = vbr s) → resp same_vdma (modify f).
Proof. intros Hf. apply resp_modify. intros s. unfold same_vdma. by rewrite Hf. Qed.
#[local] Hint Resolve resp_on_chan resp_vcall : frame.
#[local] Hint Extern 1 (resp same_vdma (modify _)) => (apply resp_vdma_modify; reflexivity) : frame.

Lemma resp_acquire : resp same_vdma vme_dma_channel_acquire.
Proof.
  unfold vme_dma_channel_acquire, down_interruptible, lock_dma, unlock_dma, lock_avail_channel, up.
  frame.
Qed.
Lemma resp_channel_release i : resp same_vdma (vme_dma_channel_release i).
Proof. unfold vme_dma_channel_release, lock_dma, unlock_dma, up. frame. Qed.
#[local] Hint Resolve resp_acquire resp_channel_release : frame.

Lemma resp_do_dma_buf d n u : resp same_vdma (vme_do_dma_buf d n u).
Proof. unfold vme_do_dma_buf. frame. Qed.

(** * Interrupts *)

Definition same_irq (s s' : irq_state K C) : Prop := same_bridge h_list (ibr s) (ibr s').

#[local] Instance same_irq_pre : PreOrder same_irq.
Proof. split; [by intros s|]. intros s1 s2 s3. unfold same_irq. by etrans. Qed.

Notation I := (irq_state K C).

Lemma resp_in_br {A} (m : M (bridge K C) A) : resp (same_bridge h_list) m → resp same_irq (in_br m).
Proof. intros Hm. eapply resp_zoom; [|exact Hm]. by intros s t. Qed.
Lemma resp_ichip {A} (m : M C A) : resp same_decode m → resp same_irq (ichip m).
Proof. intros Hm. by apply resp_in_br, resp_on_chip. Qed.
Lemma resp_irq_modify (f : I → I) : (∀ s, ibr (f s) = ibr s) → resp same_irq (modify f).
Proof. intros Hf. apply resp_modify. intros s. unfold same_irq. by rewrite Hf. Qed.
Lemma resp_verr f : (∀ v, h_list (f v) = h_list v) →
  resp same_irq (in_br (modify (λ b : bridge K C, b <| verr ::= f |>))).
Proof. intros Hf. apply resp_in_br, resp_modify. intros b. by split; [|apply Hf]. Qed.
Lemma resp_spin_lock : resp same_irq (in_br spin_lock).
Proof. apply resp_in_br. intros b a b'. unfold spin_lock. by case_match; intros [= <- <-]. Qed.
Lemma resp_spin_unlock : resp same_irq (in_br spin_unlock).
Proof. apply resp_in_br, resp_modify. by intros b. Qed.
Lemma resp_get_irq vec : resp same_irq (get_irq vec).
Proof.
  intros s a s'. unfold get_irq. destruct (vec <? 0); [done|].
  destruct (vme_irq_table s !! Z.to_nat vec); [|done]. by intros [= <- <-].
Qed.
#[local] Hint Resolve resp_ichip resp_spin_lock resp_spin_unlock resp_get_irq : frame.
#[local] Hint Extern 1 (resp same_irq (modify _)) => (apply resp_irq_modify; reflexivity) : frame.

Lemma resp_count_if m b i : resp same_irq (count_if m b i).
Proof. unfold count_if, count_int. frame. Qed.
#[local] Hint Resolve resp_count_if : frame.
Lemma resp_log c : resp same_irq (log_call c).
Proof. unfold log_call. frame. Qed.
#[local] Hint Resolve resp_log : frame.
Lemma resp_dispatch e : resp same_irq (vme_dispatch_berr e).
Proof. unfold vme_dispatch_berr. frame. Qed.
Lemma resp_irq_level m i : resp same_irq (handle_irq_level m i).
Proof. unfold handle_irq_level, upd_irq, count_int. frame. Qed.
#[local] Hint Resolve resp_dispatch resp_irq_level : frame.

Lemma resp_handle_verr : resp same_irq handle_vme_error.
Proof.
  unfold handle_vme_error, count_int. frame. by apply resp_in_br, resp_modify.
Qed.
#[local] Hint Resolve resp_handle_verr : frame.

Lemma resp_handle_status m : resp same_irq (handle_status m).
Proof.
  unfold handle_status, handle_group, handle_dma_interrupt, handle_pci_error, count_int,
    handle_mbox_interrupt, handle_lm_interrupt, handle_vme_interrupt, account_dma_interrupt.
  frame.
Qed.
#[local] Hint Resolve resp_handle_status : frame.

Lemma resp_interrupt fuel : resp same_irq (vme_bridge_interrupt fuel).
Proof. induction fuel as [|fuel IH]; cbn [vme_bridge_interrupt]; unfold count_int; frame. Qed.
Lemma resp_enable m : resp same_irq (vme_enable_interrupts m).
Proof. unfold vme_enable_interrupts. frame. Qed.
Lemma resp_request_irq vec h a n : resp same_irq (vme_request_irq vec h a n).
Proof.
  unfold vme_request_irq, lock_table, unlock_table, upd_irq. frame.
  - apply resp_in_br, resp_kcall.
Qed.
Lemma resp_free_irq vec : resp same_irq (vme_free_irq vec).
Proof.
  unfold vme_free_irq, lock_table, unlock_table, upd_irq. frame.
  - apply resp_in_br, resp_kcall.
Qed.
End frames.

#[export] Hint Resolve resp_rd resp_setup_crg resp_disable_crg resp_init : frame.
#[export] Hint Resolve resp_window_ioctl resp_window_release resp_window_mmap resp_window_exit
  resp_from_addr resp_find resp_release_mapping resp_create resp_destroy resp_get_attr
  resp_do_dma_buf resp_vcall resp_interrupt resp_request_irq resp_free_irq
  resp_berr_check_clear : frame.
#[export] Existing Instance same_handlers_pre.
#[export] Existing Instance same_vdma_pre.
#[export] Existing Instance same_irq_pre.
#[export] Existing Instance same_decode_pre.
