(* ===== verification/VmeBridge.v ===== *)
(** The bridge module as a whole: [src/vmebridge/driver/vme_bridge.c].

    [drv_state] joins the states of the components; all of them share one
    bridge (kernel, chip, last bus error), the one inside the window manager's
    state.  The procfs entries are not modelled. *)
From S2P Require Import Prelude VmeBus Tsi148Regs Tsi148Attr Tsi148Window KernelIf PciIf VmeMisc.
From S2P Require Import VmeWindow Tsi148Dma VmeDma VmeIrq.

Local Open Scope Z_scope.

(** * Devices *)

Definition VME_MAJOR : Z := 221.
Definition VME_MINOR_MWINDOW : Z := 0.
Definition VME_MINOR_DMA : Z := 1.
Definition VME_MINOR_CTL : Z := 3.
Definition VME_MINOR_REGS : Z := 4.
Definition DEV_RW : Z := 1.

(** The operation tables of the devices. *)
Inductive file_operations := vme_mwindow_fops | vme_dma_fops | vme_misc_fops.

(** [struct dev_entry] *)
Record dev_entry := mk_dev_entry {
  minor : Z;
  dev_name : string;
  flags : Z;
  fops : file_operations
}.

Definition devlist : list dev_entry := [
  mk_dev_entry VME_MINOR_MWINDOW "vme_mwindow" 0 vme_mwindow_fops;
  mk_dev_entry VME_MINOR_DMA "vme_dma" 0 vme_dma_fops;
  mk_dev_entry VME_MINOR_CTL "vme_ctl" 0 vme_misc_fops;
  mk_dev_entry VME_MINOR_REGS "vme_regs" DEV_RW vme_misc_fops].

(** * PCI data *)

(** [struct resource] of a bus. *)
Record bus_resource := mk_bus_resource { bs_start : Z; bs_end : Z; bs_flags : Z }.
Definition IORESOURCE_IO : Z := 0x100.
Definition IORESOURCE_PREFETCH : Z := 0x2000.

(** What the probe reads of [struct pci_dev]; a bus may have NULL resources. *)
Record pci_dev := mk_pci_dev {
  pdev_irq : Z;
  pdev_class_revision : Z;
  pdev_bus : list (option bus_resource)
}.

(** The loop of [pci_find_parent_resource_local], with [best] so far. *)
Fixpoint find_parent_loop (l : list (option bus_resource)) (res : bus_resource)
    (best : option bus_resource) : option bus_resource :=
  match l with
  | [] => best
  | None :: l => find_parent_loop l res best
  | Some r :: l =>
    if truthy (bs_start res) &&
       negb ((bs_start res >=? bs_start r) && (bs_end res <=? bs_end r))
    then find_parent_loop l res best
    else if truthy (Z.land (Z.lxor (bs_flags res) (bs_flags r)) (Z.lor IORESOURCE_IO IORESOURCE_MEM))
    then find_parent_loop l res best
    else if negb (truthy (Z.land (Z.lxor (bs_flags res) (bs_flags r)) IORESOURCE_PREFETCH))
    then Some r
    else if truthy (Z.land (bs_flags r) IORESOURCE_PREFETCH)
    then find_parent_loop l res best
    else find_parent_loop l res (match best with None => Some r | _ => best end)
  end.

Definition pci_find_parent_resource_local (dev : pci_dev) (res : bus_resource)
    : option bus_resource :=
  find_parent_loop (pdev_bus dev) res None.

(** * State *)

(** The fields of [struct vme_bridge_device] that the probe sets; [verr] is
    part of [bridge]. *)
Record vme_bridge_device := mk_vme_bridge_device {
  bd_self : Z;
  rev : Z;
  bd_irq : Z;
  slot : Z;
  syscon : Z;
  regs : Z
}.

Record drv_state (K C : Type) := mk_drv_state {
  d_win : wstate K C;
  d_dma : vdma_state K C;
  d_irq : irq_state K C;
  vme_bridge : vme_bridge_device;
  vme_irq : Z;
  vme_slotnum : Z;
  dma_ok : Z;
  vme_class : Z;
  dma_desc_pool : Z;
  a24d32_desc : vme_mapping;
  crg_desc : vme_mapping;
  crg_base : Z
}.
Arguments mk_drv_state {K C}.
Arguments d_win {K C}.
Arguments d_dma {K C}.
Arguments d_irq {K C}.
Arguments vme_bridge {K C}.
Arguments vme_irq {K C}.
Arguments vme_slotnum {K C}.
Arguments dma_ok {K C}.
Arguments vme_class {K C}.
Arguments dma_desc_pool {K C}.
Arguments a24d32_desc {K C}.
Arguments crg_desc {K C}.
Arguments crg_base {K C}.

(** The CRG window and mapping. *)
Definition A24D32_WINDOW : Z := 7.
Definition A24D32_AM : Z := VME_A24_USER_DATA_SCT.
Definition A24D32_DBW : Z := VME_D32.
Definition A24D32_VME_SIZE : Z := 0x1000000.
Definition CRG_AM : Z := VME_A24_USER_DATA_SCT.
Definition CRG_DBW : Z := VME_D32.
Definition CRG_VME_BASE : Z := 0x00fff000.
Definition CRG_VME_SIZE : Z := 0x1000.

(** A 32-bit word in the other byte order. *)
Definition bswap32 (x : Z) : Z :=
  Z.lor (Z.lor (Z.shiftl (bits 0 8 x) 24) (Z.shiftl (bits 8 8 x) 16))
        (Z.lor (Z.shiftl (bits 16 8 x) 8) (bits 24 8 x)).

(** The test of the id word, as the code has it. *)
Definition wrong_chip (tmp : Z) : bool :=
  let vid := Z.land tmp 0xffff in
  let did := Z.land (Z.shiftr tmp 16) 0xffff in
  negb (vid =? PCI_VENDOR_ID_TUNDRA) && negb (did =? PCI_DEVICE_ID_TUNDRA_TSI148).

(** The interrupts that [vme_bridge_init_interrupts] enables. *)
Definition init_intmask (syscon : Z) : Z :=
  let intmask :=
    Z.lor TSI148_LCSR_INT_DMA_M (Z.lor TSI148_LCSR_INT_LM_M (Z.lor TSI148_LCSR_INT_MB_M
      (Z.lor TSI148_LCSR_INT_PERR TSI148_LCSR_INT_VERR))) in
  if truthy syscon then Z.lor intmask TSI148_LCSR_INT_IRQM else intmask.

(** The two descriptors [vme_bridge_map_crg] fills in. *)
Definition fill_a24d32 (d : vme_mapping) : vme_mapping :=
  d <| window_num := A24D32_WINDOW |> <| am := A24D32_AM |> <| read_prefetch_enabled := 0 |>
    <| data_width := A24D32_DBW |> <| sizeu := 0 |> <| sizel := A24D32_VME_SIZE |>
    <| vme_addru := 0 |> <| vme_addrl := 0 |>.

Definition fill_crg (d : vme_mapping) : vme_mapping :=
  d <| am := CRG_AM |> <| read_prefetch_enabled := 0 |> <| data_width := CRG_DBW |>
    <| sizeu := 0 |> <| sizel := CRG_VME_SIZE |> <| vme_addru := 0 |> <| vme_addrl := CRG_VME_BASE |>.

(** An ioctl request for either device. *)
Inductive dev_ioctl := WindowIoctl (c : window_ioctl) | DmaIoctl (c : dma_ioctl).
Inductive dev_reply := NoData | WindowReply (r : reply) | DmaReply (d : option vme_dma).

Section bridge.
Context `{Kernel K} `{!DmaKernel K} `{!PciKernel K} `{ChipIO C}.
Notation S := (drv_state K C).

(** A read of the VME bus through a mapped window, at a kernel address. *)
Variable ioread32_vme : Z → C → Z * C.

(** * Calls into the components *)

Definition in_win {A} (m : M (wstate K C) A) : M S A :=
  zoom d_win (λ w (s : S), s <| d_win := w |>) m.
Definition in_dma {A} (m : M (vdma_state K C) A) : M S A :=
  zoom (λ s : S, (d_dma s) <| vbr := br (d_win s) |>)
       (λ v (s : S), s <| d_dma := v |> <| d_win := (d_win s) <| br := vbr v |> |>) m.
Definition in_irq {A} (m : M (irq_state K C) A) : M S A :=
  zoom (λ s : S, (d_irq s) <| ibr := br (d_win s) |>)
       (λ i (s : S), s <| d_irq := i |> <| d_win := (d_win s) <| br := ibr i |> |>) m.
Definition bkcall {A} (f : K → A * K) : M S A := in_win (wkcall f).
Definition bkdo (f : K → K) : M S () := in_win (wkdo f).
Definition bchip {A} (m : M C A) : M S A := in_win (wchip m).

Definition upd_bridge (f : vme_bridge_device → vme_bridge_device) : M S () :=
  modify (λ s : S, s <| vme_bridge ::= f |>).

(** * File operations: dispatch by minor number *)

(** None of the operation tables has an [open]. *)
Definition vme_open (minor : Z) : M S Z :=
  if minor =? VME_MINOR_MWINDOW then mret 0
  else if minor =? VME_MINOR_DMA then
    ok ← gets dma_ok; if negb (truthy ok) then mret (- ENODEV) else mret 0
  else if (minor =? VME_MINOR_CTL) || (minor =? VME_MINOR_REGS) then mret 0
  else mret (- ENXIO).

(** Only the window device has a [release]. *)
Definition vme_release (minor f : Z) : M S Z :=
  if minor =? VME_MINOR_MWINDOW then in_win (vme_window_release f)
  else if minor =? VME_MINOR_DMA then mret 0
  else if (minor =? VME_MINOR_CTL) || (minor =? VME_MINOR_REGS) then mret 0
  else mret (- ENXIO).

(** [devlist[minor]]: indexed by the minor; out of the table it is stuck. *)
Definition dev_flags (minor : Z) : M S Z :=
  lift_opt (flags <$> devlist !! Z.to_nat minor).

Definition vme_read (minor : Z) : M S Z :=
  fl ← dev_flags minor;
  if negb (truthy (Z.land fl DEV_RW)) then mret (- ENODEV) else
  if minor =? VME_MINOR_REGS then mret vme_misc_read else mret (- ENXIO).

Definition vme_write (minor : Z) : M S Z :=
  fl ← dev_flags minor;
  if negb (truthy (Z.land fl DEV_RW)) then mret (- ENODEV) else
  if minor =? VME_MINOR_REGS then mret vme_misc_write else mret (- ENXIO).

(** A request of the other device is unknown to a device: its number differs
    from all of the device's. *)
Definition vme_ioctl (minor f : Z) (cur : task) (cmd : dev_ioctl) (wakeups : nat)
    : M S (Z * dev_reply) :=
  if minor =? VME_MINOR_MWINDOW then
    '(rc, r) ← in_win (vme_window_ioctl f cur
                (match cmd with WindowIoctl c => c | DmaIoctl _ => UNKNOWN_IOCTL end));
    mret (rc, WindowReply r)
  else if minor =? VME_MINOR_DMA then
    '(rc, r) ← in_dma (vme_dma_ioctl
                (match cmd with DmaIoctl c => c | WindowIoctl _ => DMA_UNKNOWN_IOCTL end) wakeups);
    mret (rc, DmaReply r)
  else mret (- ENXIO, NoData).

Definition vme_mmap (minor f : Z) (vma : vm_area) : M S (Z * option (Z * Z)) :=
  if minor =? VME_MINOR_MWINDOW then in_win (vme_window_mmap f vma)
  else mret (- ENXIO, None).

(** * Registration of the devices *)

Definition vme_bridge_create_devices : M S Z :=
  c ← bkcall class_create;
  modify (λ s : S, s <| vme_class := c |>);;
  if c <? 0 then mret c else
  rc ← bkcall (register_chrdev VME_MAJOR);
  if truthy rc then bkdo (class_destroy c);; mret (- ENODEV) else
  mfold (λ _ d, bkdo (device_create (minor d))) () devlist;;
  mret 0.

Definition vme_bridge_remove_devices : M S () :=
  bkdo (unregister_chrdev VME_MAJOR);;
  mfold (λ _ d, bkdo (device_destroy (minor d))) () devlist;;
  c ← gets vme_class;
  bkdo (class_destroy c).

(** * The chip's registers and the CRG *)

Definition vme_bridge_map_regs : M S Z :=
  rc ← bkcall (pci_request_region 0);
  if truthy rc then mret rc else
  va ← bkcall (pci_iomap 0 4096);
  upd_bridge (λ b, b <| regs := va |>);;
  if va =? 0 then mret (- ENOMEM) else
  tmp ← bchip (rd PCFS_ID);
  if wrong_chip (bswap32 tmp) then bkdo (pci_iounmap va);; mret (- ENODEV) else
  mret 0.

Definition crg_out_destroy_window (rc : Z) : M S Z :=
  d ← gets crg_desc;
  in_win (vme_destroy_window (window_num d));;
  mret rc.

Definition vme_bridge_map_crg (cur : task) : M S Z :=
  modify (λ s : S, s <| a24d32_desc ::= fill_a24d32 |>);;
  d ← gets a24d32_desc;
  '(rc, d) ← in_win (vme_create_window d);
  modify (λ s : S, s <| a24d32_desc := d |>);;
  if truthy rc then mret rc else
  modify (λ s : S, s <| crg_desc ::= fill_crg |>);;
  d ← gets crg_desc;
  '(rc, d) ← in_win (vme_find_mapping d 0 cur);
  modify (λ s : S, s <| crg_desc := d |>);;
  if truthy rc then mret rc else
  rc ← bchip (tsi148_setup_crg CRG_VME_BASE CRG_AM);
  if truthy rc then crg_out_destroy_window rc else
  tmp ← bchip (λ c, Some (ioread32_vme (kernel_va d) c));
  if wrong_chip tmp then
    bchip tsi148_disable_crg;;
    crg_out_destroy_window (- ENODEV)
  else
    modify (λ s : S, s <| crg_base := kernel_va d |>);;
    mret 0.

Definition vme_bridge_unmap_crg : M S Z :=
  bchip tsi148_disable_crg;;
  d ← gets crg_desc;
  in_win (vme_destroy_window (window_num d)).

Definition vme_bridge_init_interrupts : M S Z :=
  b ← gets vme_bridge;
  rc ← bkcall (request_irq (bd_irq b));
  if truthy rc then mret rc else
  rc ← in_irq (vme_enable_interrupts (init_intmask (syscon b)));
  if truthy rc then bkdo (free_irq (bd_irq b));; mret (- ENODEV) else
  mret 0.

Definition vme_bus_error_init : M S () :=
  in_win (in_bridge (modify (λ b : bridge K C,
    b <| verr := mk_vme_verr false ((verr_desc (verr b)) <| valid := 0 |>) [] |>))).

(** [vme_dma_init] with [tsi148_dma_init]. *)
Definition dma_init : M S Z :=
  p ← bkcall pci_pool_create;
  modify (λ s : S, s <| dma_desc_pool := p |>);;
  in_dma (vme_dma_init p).

(** [vme_dma_exit] with [tsi148_dma_exit]. *)
Definition dma_exit : M S () :=
  in_dma vme_dma_exit;;
  p ← gets dma_desc_pool;
  bkdo (pci_pool_destroy p).

(** * Probe and remove *)

(** The error exits of [vme_bridge_init], in the order they fall through. *)
Definition out_err (rc : Z) : M S Z :=
  bkdo pci_disable_device;;
  mret rc.
Definition out_free (rc : Z) : M S Z :=
  b ← gets vme_bridge;
  bkdo (kfree (bd_self b));;
  out_err rc.
Definition out_unmap_regs (rc : Z) : M S Z :=
  b ← gets vme_bridge;
  bkdo (pci_iounmap (regs b));;
  bkdo (pci_release_region 0);;
  out_free rc.
Definition out_remove_devices (rc : Z) : M S Z :=
  vme_bridge_remove_devices;;
  out_unmap_regs rc.
Definition out_unmap_crg (rc : Z) : M S Z :=
  vme_bridge_unmap_crg;;
  out_remove_devices rc.

(** The part of [vme_bridge_init] that runs with the registers mapped. *)
Definition init_mapped (cur : task) : M S Z :=
  rc ← bkcall pci_set_dma_mask;
  modify (λ s : S, s <| dma_ok := if truthy rc then 0 else 1 |>);;
  n ← gets vme_slotnum;
  (if n =? -1 then
     slotnum ← bchip tsi148_get_slotnum;
     modify (λ s : S, s <| vme_slotnum := slotnum |>)
   else mret ());;
  n ← gets vme_slotnum;
  upd_bridge (λ b, b <| slot := n |>);;
  sc ← bchip tsi148_get_syscon;
  upd_bridge (λ b, b <| syscon := sc |>);;
  bchip tsi148_quiesce;;
  in_win vme_window_init;;
  ok ← gets dma_ok;
  (if truthy ok then
     rc ← dma_init;
     if truthy rc then modify (λ s : S, s <| dma_ok := 0 |>) else mret ()
   else mret ());;
  bchip tsi148_init;;
  rc ← vme_bridge_create_devices;
  if truthy rc then out_unmap_regs rc else
  rc ← vme_bridge_map_crg cur;
  if truthy rc then out_remove_devices rc else
  rc ← vme_bridge_init_interrupts;
  if truthy rc then out_unmap_crg rc else
  mret 0.

Definition vme_bridge_init (pdev : pci_dev) (cur : task) : M S Z :=
  rc ← bkcall pci_enable_device;
  if truthy rc then mret rc else
  p ← bkcall (kmalloc 96);
  modify (λ s : S, s <| vme_bridge := mk_vme_bridge_device p 0 0 0 0 0 |>);;
  if p =? 0 then out_err (- ENOMEM) else
  vme_bus_error_init;;
  upd_bridge (λ b, b <| rev := Z.land (pdev_class_revision pdev) 0xff |>);;
  n ← gets vme_irq;
  (if n =? 0 then
     modify (λ s : S, s <| vme_irq := if pdev_irq pdev =? 0 then 0x50 else pdev_irq pdev |>)
   else mret ());;
  n ← gets vme_irq;
  if (n =? 0) || (n =? 0xff) then out_free (- ENODEV) else
  upd_bridge (λ b, b <| bd_irq := n |>);;
  match pci_find_parent_resource_local pdev (mk_bus_resource 0 0 IORESOURCE_MEM) with
  | None => out_err (- ENODEV)
  | Some r =>
    if u64 (bs_end r - bs_start r) <? 0x2000000 then out_err (- ENOMEM) else
    rc ← vme_bridge_map_regs;
    if truthy rc then out_err rc else
    init_mapped cur
  end.

(** The second [class_destroy] is the code's. *)
Definition vme_bridge_remove : M S () :=
  bchip tsi148_quiesce;;
  b ← gets vme_bridge;
  bkdo (free_irq (bd_irq b));;
  vme_bridge_unmap_crg;;
  in_win vme_window_exit;;
  ok ← gets dma_ok;
  (if truthy ok then dma_exit else mret ());;
  bkdo (pci_iounmap (regs b));;
  bkdo (pci_release_region 0);;
  bkdo pci_disable_device;;
  vme_bridge_remove_devices;;
  c ← gets vme_class;
  bkdo (class_destroy c);;
  bkdo (kfree (bd_self b)).
End bridge.
