(* ===== verification/VmeBridgeSafety.v ===== *)
(** The driver as a whole is safe: the components run side by side on one
    kernel and one chip, and none breaks what another relies on.

    Each event runs in one component; the component's own lemma gives its
    invariant back, and [VmeFrame] says what it left alone. *)
From S2P Require Import Prelude VmeBus Tsi148Regs Tsi148Attr Tsi148Window KernelIf PciIf VmeMisc.
From S2P Require Import VmeWindow VmeWindowProofs VmeWindowSpec VmeWindowFops.
From S2P Require Import Tsi148Dma Tsi148DmaProofs Tsi148DmaChain VmeDma VmeDmaProofs VmeDmaProps.
From S2P Require Import VmeIrq VmeIrqProofs VmeFrame VmeBridge.

Local Open Scope Z_scope.

(** What can happen to the running driver: file operations on its devices,
    calls of other modules, and interrupts. *)
Inductive event :=
  | EOpen (minor : Z)
  | ERelease (minor f : Z)
  | ERead (minor : Z)
  | EWrite (minor : Z)
  | EIoctl (minor f : Z) (cur : task) (cmd : dev_ioctl) (wakeups : nat)
  | EMmap (minor f : Z) (vma : vm_area)
  | EWindowCall (r : request)
  | EKernelDma (d : vme_dma) (wakeups : nat)
  | ERequestIrq (vec h a : Z) (name : option string)
  | EFreeIrq (vec : Z)
  | ERegisterBerr (err : vme_bus_error) (size func : Z)
  | EUnregisterBerr (h : Z)
  | ECheckBerr (err : vme_bus_error)
  | EInterrupt (fuel : nat).

(** A read or write of one of the devices below the register device. *)
Ltac by_minor :=
  match goal with H : 0 <= ?n < 4 |- _ =>
    assert (n = 0 ∨ n = 1 ∨ n = 2 ∨ n = 3) as [->|[->|[->| ->]]] by lia
  end; repeat wp_step; done.

Section safety.
Context `{KernelLaws K} `{!DmaKernel K} `{!DmaKernelLaws K} `{!PciKernel K} `{ChipLaws C}.
Notation S := (drv_state K C).

(** One event. *)
Definition handle (e : event) : M S () :=
  match e with
  | EOpen n => vme_open n;; mret ()
  | ERelease n f => vme_release n f;; mret ()
  | ERead n => vme_read n;; mret ()
  | EWrite n => vme_write n;; mret ()
  | EIoctl n f cur cmd w => vme_ioctl n f cur cmd w;; mret ()
  | EMmap n f vma => vme_mmap n f vma;; mret ()
  | EWindowCall r => in_win (serve r)
  | EKernelDma d w => in_dma (vme_do_dma_kernel d w);; mret ()
  | ERequestIrq vec h a n => in_irq (vme_request_irq vec h a n);; mret ()
  | EFreeIrq vec => in_irq (vme_free_irq vec);; mret ()
  | ERegisterBerr e sz f => in_win (in_bridge (vme_register_berr_handler e sz f));; mret ()
  | EUnregisterBerr h => in_win (in_bridge (vme_unregister_berr_handler h))
  | ECheckBerr e => in_win (in_bridge (vme_bus_error_check_clear e));; mret ()
  | EInterrupt fuel => in_irq (vme_bridge_interrupt fuel);; mret ()
  end.

Definition handle_all (l : list event) : M S () := mfold (λ _, handle) () l.

(** The conditions on an event: data in the ranges of its C types, transfers
    that fit below 4 GB and whose pages can be pinned, none without an engine
    ([ok] is [dma_ok]; [vme_open] refuses the device then), and no read or write
    of the register device (minor 4), whose table lookup is out of range. *)
Definition event_ok (ok : Z) (e : event) : Prop :=
  match e with
  | ERead n | EWrite n => 0 <= n < 4
  | EIoctl _ _ _ (WindowIoctl c) _ => ioctl_ok c
  | EIoctl _ _ _ (DmaIoctl (VME_IOCTL_START_DMA d)) _ =>
      ok ≠ 0 ∧ request_fits d ∧ pages_available (K := K) true
  | EWindowCall r => request_ok r
  | EKernelDma d _ => ok ≠ 0 ∧ request_fits d ∧ pages_available (K := K) false
  | ERequestIrq vec _ _ _ | EFreeIrq vec => 0 <= vec
  | _ => True
  end.

(** The invariant of the running driver; [base] is what others hold. *)
Record drv_inv (base : gmultiset resource) (s : S) : Prop := {
  dv_win : inv (handler_res (verr (br (d_win s))) ⊎ base) (d_win s);
  dv_dma : dma_ok s ≠ 0 → vdma_ok (d_dma s);
  dv_idle : busy <$> channels (d_dma s) = [0; 0];
  dv_tbl : length (vme_irq_table (d_irq s)) = 256%nat;
  dv_lock : vme_irq_table_lock (d_irq s) = false
}.

(** * Events of one component *)

Lemma drv_win {A} base (m : M (wstate K C) A) (s : S) :
  drv_inv base s → resp same_handlers m →
  (∀ base' w, inv base' w → wp m (λ _ w', inv base' w') w) →
  wp (in_win m) (λ _ s', drv_inv base s') s.
Proof.
  intros [I1 I2 I5 I3 I4] Hf Hm. unfold in_win. apply wp_zoom.
  eapply wp_mono; [apply (wp_resp same_handlers); [done|by apply Hm]|].
  intros a w' [HI Hs]. split; try done. cbn [d_win]. unfold same_handlers in Hs.
  change (inv (handler_res (verr (br w')) ⊎ base) w').
  unfold handler_res in *. by rewrite Hs.
Qed.

(** Another component changed the bridge: the kernel holds the same, the
    decoding registers and the handlers are the same. *)
Lemma inv_bridge base (w : wstate K C) (b : bridge K C) :
  inv base w → live (kern b) = live (kern (br w)) → same_decode (chip (br w)) (chip b) →
  verr_locked (verr b) = false → inv base (w <| br := b |>).
Proof.
  intros [I1 I2 I3 I4 I5 I6 I7 I8] Hk Hc Hv. destruct w as [bw t a f]. simpl in *.
  split; try done; simpl.
  - intros i x Hx. destruct (I5 i x Hx) as [E1 E2].
    assert (Hi : win_ok (Z.of_nat i) = true).
    { apply win_ok_of_nat. rewrite <- I1. by eapply lookup_lt_Some. }
    assert (Hd : decode_reg (OTAT (Z.of_nat i)) = true ∧ decode_reg (OTSAL (Z.of_nat i)) = true).
    { unfold win_ok in *. simpl. by rewrite Hi. }
    destruct Hd. unfold hw_agrees. by rewrite !Hc.
  - by rewrite Hk.
Qed.

Lemma drv_dma {A} base (m : M (vdma_state K C) A) (s : S) :
  drv_inv base s → dma_ok s ≠ 0 → resp same_vdma m →
  (∀ v, vdma_ok v → wp m (λ _ v', vdma_ok v' ∧ live (kern (vbr v')) = live (kern (vbr v)) ∧
     busy <$> channels v' = busy <$> channels v) v) →
  wp (in_dma m) (λ _ s', drv_inv base s') s.
Proof.
  intros [I1 I2 I5 I3 I4] Hne Hf Hm. specialize (I2 Hne). unfold in_dma. apply wp_zoom.
  eapply wp_mono; [apply (wp_resp same_vdma); [done|apply Hm; by destruct I2]|].
  intros a v' [(Hok & Hk & Hb) [Hd Hv]]. simpl in Hd, Hv, Hk, Hb. unfold id in Hv.
  split; try done; [|etrans; [exact Hb|exact I5]].
  change (inv (handler_res (verr (vbr v')) ⊎ base) ((d_win s) <| br := vbr v' |>)).
  rewrite Hv. apply inv_bridge; try done. rewrite Hv. apply (inv_spin _ _ I1).
Qed.

Lemma drv_irq {A} base (m : M (irq_state K C) A) (s : S) :
  drv_inv base s → resp same_irq m →
  (∀ i, irq_ok i → vme_irq_table_lock i = false →
     wp m (λ _ i', length (vme_irq_table i') = 256%nat ∧ vme_irq_table_lock i' = false ∧
       live (kern (ibr i')) = live (kern (ibr i)) ∧ verr_locked (verr (ibr i')) = false) i) →
  wp (in_irq m) (λ _ s', drv_inv base s') s.
Proof.
  intros [I1 I2 I5 I3 I4] Hf Hm. unfold in_irq. apply wp_zoom.
  eapply wp_mono; [apply (wp_resp same_irq); [done|apply Hm; [|done]]|].
  { split; [apply (inv_spin _ _ I1)|done]. }
  intros a i' [(Hl & Hlk & Hk & Hs) [Hd Hv]]. simpl in Hd, Hv, Hk. split; try done.
  change (inv (handler_res (verr (ibr i')) ⊎ base) ((d_win s) <| br := ibr i' |>)).
  assert (E : handler_res (verr (ibr i')) = handler_res (verr (br (d_win s))))
    by (unfold handler_res; by rewrite Hv).
  rewrite E. by apply inv_bridge.
Qed.

(** A computation on the bridge alone, which may take or give back memory. *)
Lemma drv_bridge {A} base (m : M (bridge K C) A) (s : S) :
  drv_inv base s →
  wp m (λ _ b', same_decode (chip (br (d_win s))) (chip b') ∧ verr_locked (verr b') = false ∧
     ∀ T, live (kern (br (d_win s))) = T ⊎ (handler_res (verr (br (d_win s))) ⊎ base) →
       live (kern b') = T ⊎ (handler_res (verr b') ⊎ base)) (br (d_win s)) →
  wp (in_win (in_bridge m)) (λ _ s', drv_inv base s') s.
Proof.
  intros [I1 I2 I5 I3 I4] Hm. unfold in_win. apply wp_zoom. unfold in_bridge. apply wp_zoom.
  eapply wp_mono; [exact Hm|]. intros a b' (Hc & Hv & Hk). split; try done.
  change (inv (handler_res (verr b') ⊎ base) ((d_win s) <| br := b' |>)).
  specialize (Hk (table_res (window_table (d_win s))) (inv_live _ _ I1)).
  destruct (inv_bridge _ _ (mk_bridge (kern (br (d_win s))) (chip b') (verr (br (d_win s)))) I1 eq_refl Hc (inv_spin _ _ I1))
    as [J1 J2 J3 J4 J5 J6 J7 J8].
  by split.
Qed.

Lemma drv_register base err size func (s : S) :
  drv_inv base s →
  wp (in_win (in_bridge (vme_register_berr_handler err size func))) (λ _ s', drv_inv base s') s.
Proof.
  intros HI. apply drv_bridge; [done|]. pose proof (inv_spin _ _ (dv_win _ _ HI)) as Hs.
  eapply wp_mono; [by apply wp_register_berr_handler|].
  intros rc b' [(_ & Hv & Hk & Hc & _)|(_ & _ & Hc & Hv & _ & Hk)]; rewrite Hc, Hv.
  - split_and!; try done. intros T HT. by rewrite Hk.
  - split_and!; try done. intros T HT. rewrite Hk, HT. unfold handler_res. simpl.
    rewrite fmap_app, list_to_set_disj_app. simpl. multiset_solver.
Qed.

Lemma drv_unregister base h (s : S) :
  drv_inv base s →
  wp (in_win (in_bridge (vme_unregister_berr_handler h))) (λ _ s', drv_inv base s') s.
Proof.
  intros HI. apply drv_bridge; [done|]. pose proof (inv_spin _ _ (dv_win _ _ HI)) as Hs.
  eapply wp_mono; [by apply wp_unregister_berr_handler|]. intros [] b' [Hc Hr]. rewrite Hc.
  destruct (remove_first _ _) as [l|] eqn:E; [|subst b'; by split_and!].
  destruct Hr as [Hv Hk]. rewrite Hv. split_and!; try done. intros T HT.
  apply remove_first_spec in E as (l1 & x & l2 & Hl & -> & Hx & _). apply Z.eqb_eq in Hx.
  rewrite Hk, HT. unfold handler_res. simpl. rewrite Hl, !fmap_app, !list_to_set_disj_app.
  simpl. rewrite Hx. multiset_solver.
Qed.

Lemma drv_check base err (s : S) :
  drv_inv base s →
  wp (in_win (in_bridge (vme_bus_error_check_clear err))) (λ _ s', drv_inv base s') s.
Proof.
  intros HI. apply drv_win; [done|apply resp_berr_check_clear|].
  intros base' w Hw. apply inv_in_bridge with base'; [done|].
  apply wp_check_clear; [apply (inv_spin _ _ Hw)|]. intros x v' Hv'. split; [|by intros w' ? _].
  by split_and!.
Qed.

Lemma drv_interrupt base fuel (s : S) :
  drv_inv base s → wp (in_irq (vme_bridge_interrupt fuel)) (λ _ s', drv_inv base s') s.
Proof.
  intros HI. apply drv_irq; [done|apply resp_interrupt|]. intros i Hok Hl.
  eapply wp_mono; [apply wp_bridge_interrupt_keeps; exact Hok|]. intros r i' Hk.
  pose proof (keeps_ok _ _ Hk Hok) as [? ?]. destruct Hk as [Kk _ Kl _ _ _].
  by rewrite Kl, Kk.
Qed.

Lemma drv_dma_request base desc w to_user (s : S) :
  drv_inv base s → dma_ok s ≠ 0 → pages_available to_user → request_fits desc →
  wp (in_dma (vme_do_dma_buf desc w to_user)) (λ _ s', drv_inv base s') s.
Proof.
  intros HI Hne Hp Hf. apply drv_dma; [done|done|apply resp_do_dma_buf|]. intros v Hv.
  eapply wp_mono; [by apply wp_do_dma|]. by intros r v' [(? & ? & _ & _ & ? & _) _].
Qed.

Lemma resp_serve r : resp same_handlers (serve (K := K) (C := C) r).
Proof. unfold serve, vme_find_mapping, vme_release_mapping. frame. Qed.

Lemma drv_serve base r (s : S) :
  drv_inv base s → request_ok r → wp (in_win (serve r)) (λ _ s', drv_inv base s') s.
Proof. intros HI Hr. apply drv_win; [done|apply resp_serve|]. intros base' w Hw. by apply inv_serve. Qed.

(** A request the DMA device does not know. *)
Lemma drv_dma_noop {A} base (a : A) (Q : A → S → Prop) (s : S) :
  drv_inv base s → (∀ s', drv_inv base s' → Q a s') → wp (in_dma (mret a)) Q s.
Proof.
  intros [I1 I2 I5 I3 I4] HQ. unfold in_dma. apply wp_zoom. wp_step. apply HQ. split; try done.
  - by destruct (d_win s) as [b t x y].
  - intros Hne. destruct (I2 Hne). by split.
Qed.

(** The fields of the module that the probe sets. *)
Definition same_module (s s' : S) : Prop :=
  vme_bridge s' = vme_bridge s ∧ dma_ok s' = dma_ok s ∧ vme_class s' = vme_class s ∧
  dma_desc_pool s' = dma_desc_pool s.

#[local] Instance same_module_pre : PreOrder same_module.
Proof.
  split; [by intros s|]. intros s1 s2 s3 (?&?&?&?) (?&?&?&?). unfold same_module. split_and!; congruence.
Qed.

Lemma resp_any {T A} (m : M T A) : resp (λ _ _, True) m.
Proof. by intros s a s' _. Qed.
Lemma resp_in_win {A} (m : M (wstate K C) A) : resp same_module (in_win m).
Proof. eapply resp_zoom; [|apply resp_any]. by intros s w. Qed.
Lemma resp_in_dma {A} (m : M (vdma_state K C) A) : resp same_module (in_dma m).
Proof. eapply resp_zoom; [|apply resp_any]. by intros s w. Qed.
Lemma resp_in_irq {A} (m : M (irq_state K C) A) : resp same_module (in_irq m).
Proof. eapply resp_zoom; [|apply resp_any]. by intros s w. Qed.
#[local] Hint Resolve resp_in_win resp_in_dma resp_in_irq : frame.

Lemma resp_dev_flags n : resp same_module (dev_flags n).
Proof. intros s a s'. unfold dev_flags, lift_opt. destruct (flags <$> _); by intros [= <- <-]. Qed.
#[local] Hint Resolve resp_dev_flags : frame.

Lemma resp_handle e : resp same_module (handle e).
Proof. destruct e; cbn [handle]; unfold vme_open, vme_release, vme_read, vme_write, vme_ioctl, vme_mmap; frame. Qed.

Lemma drv_ioctl base n f cur cmd w (s : S) :
  drv_inv base s → event_ok (dma_ok s) (EIoctl n f cur cmd w) →
  wp (vme_ioctl n f cur cmd w) (λ _ s', drv_inv base s') s.
Proof.
  intros HI Hok. unfold vme_ioctl. wp_step; [|wp_step; [|by wp_step]].
  - wp_step. eapply wp_mono; [apply (drv_win base); [done|auto with frame|]|].
    + intros base' x Hx. eapply wp_mono; [apply inv_ioctl; [done|by destruct cmd]|]. by intros ? ? [? _].
    + by intros [rc r] s' HI'.
  - wp_step. destruct cmd as [c|[d|]]; cbn [vme_dma_ioctl];
      try (eapply drv_dma_noop; [done|]; intros s' HI'; cbv beta iota; by wp_step).
    destruct Hok as (Hne & Hfit & Hp).
    eapply wp_mono; [apply (drv_dma base); [done|done|unfold vme_do_dma; frame|]|].
    + intros v Hv.
      assert (Hcopy : ∀ (v : vdma_state K C) (m1 m2 : M (vdma_state K C) (Z * option vme_dma))
          (Q : Z * option vme_dma → vdma_state K C → Prop), vdma_ok v →
        (∀ v', vdma_ok v' → live (kern (vbr v')) = live (kern (vbr v)) →
           channels v' = channels v → wp m1 Q v' ∧ wp m2 Q v') →
        wp (fault ← vcall user_fault; if fault : bool then m1 else m2) Q v).
      { intros v0 m1 m2 Q Hv0 HQ. wp_step. unfold vcall. apply wp_zoom, wp_kcall.
        edestruct (HQ (v0 <| vbr := (vbr v0) <| kern := (user_fault (kern (vbr v0))).2 |> |>)) as [? ?];
          [by destruct Hv0; split|apply user_fault_live|done|].
        by destruct (user_fault (kern (vbr v0))).1. }
      apply Hcopy; [done|]. intros v1 Hv1 Hk1 Hc1. split; [wp_step; split_and!; [done..|by rewrite Hc1]|].
      wp_step. eapply wp_mono; [by apply wp_do_dma|]. intros [rc d'] v2 [(Hv2 & Hk2 & _ & _ & Hb2 & _) _].
      rewrite Hc1 in Hb2. cbv beta iota. wp_step; [wp_step; split_and!; [done|congruence|done]|].
      apply Hcopy; [done|]. intros v3 Hv3 Hk3 Hc3.
      split; wp_step; split_and!; try done; congruence.
    + by intros [rc r] s' HI'.
Qed.

Lemma wp_handle base e (s : S) :
  drv_inv base s → event_ok (dma_ok s) e → wp (handle e) (λ _ s', drv_inv base s') s.
Proof.
  intros HI He. destruct e; cbn [handle]; simpl in He; try wp_step.
  - unfold vme_open. repeat wp_step; done.
  - unfold vme_release. repeat wp_step; try done. eapply wp_mono; [apply (drv_win base); [done|auto with frame|]|done].
    intros base' w Hw. eapply wp_mono; [by apply inv_release_windows|]. by intros ? ? [? _].
  - unfold vme_read, dev_flags. by_minor.
  - unfold vme_write, dev_flags. by_minor.
  - by apply drv_ioctl.
  - unfold vme_mmap. wp_step; [|by wp_step].
    eapply wp_mono; [apply (drv_win base); [done|auto with frame|]|done].
    intros base' w Hw. eapply wp_mono; [apply inv_mmap_windows; [done|apply all_windows]|].
    by intros ? ? [? _].
  - by apply drv_serve.
  - by destruct He as (? & ? & ?); apply drv_dma_request.
  - eapply wp_mono; [apply (drv_irq base); [done|auto with frame|]|done].
    intros i [Hv Hl'] Hk. eapply wp_mono; [by apply wp_request_irq_size|].
    intros rc i' (E1 & E2 & E3 & E4). by rewrite E2, E4.
  - eapply wp_mono; [apply (drv_irq base); [done|auto with frame|]|done].
    intros i [Hv Hl'] Hk. eapply wp_mono; [by apply wp_free_irq_size|].
    intros rc i' (E1 & E2 & E3 & E4). by rewrite E2, E4.
  - by apply drv_register.
  - by apply drv_unregister.
  - by apply drv_check.
  - by apply drv_interrupt.
Qed.

Lemma wp_handle_all (base : gmultiset resource) (l : list event) (s : S) :
  drv_inv base s → Forall (event_ok (dma_ok s)) l →
  wp (handle_all l) (λ _ s', drv_inv base s' ∧ same_module s s') s.
Proof.
  intros HI Hl. unfold handle_all. eapply wp_mono; [apply (wp_mfold _ (λ l _ s',
    (drv_inv base s' ∧ same_module s s') ∧ Forall (event_ok (dma_ok s)) l))|by intros ? ? []]; [|done].
  intros e l' [] s1 [[HI1 Hs] [He Hl']%Forall_cons_1].
  assert (E : dma_ok s1 = dma_ok s) by apply Hs.
  eapply wp_mono; [apply (wp_resp same_module); [apply resp_handle|apply (wp_handle base); [done|by rewrite E]]|].
  intros [] s2 [HI2 Hs2]. split; [|done]. split; [done|by etrans].
Qed.

End safety.
