(* ===== verification/VmeBridgeProbe.v ===== *)
(** Proofs about probing and removing the bridge.

    [phase hw R u s] describes the module between two calls of the probe: the
    components are in order, the kernel holds [R] besides what the window
    table accounts for, and the fields of the module are those of [u].  Before
    the chip is quiesced, and after it on removal, the decoders need not agree
    with the table: then [hw] is false. *)
From S2P Require Import Prelude VmeBus Tsi148Regs Tsi148Attr Tsi148Window KernelIf PciIf VmeMisc.
From S2P Require Import VmeWindow VmeWindowProofs VmeWindowSpec VmeWindowFops.
From S2P Require Import Tsi148Dma Tsi148DmaProofs Tsi148DmaChain VmeDma VmeDmaProofs VmeDmaProps.
From S2P Require Import VmeIrq VmeIrqProofs VmeFrame VmeBridge VmeBridgeSafety.

Local Open Scope Z_scope.

Definition pool_res (p : Z) : gmultiset resource := if p =? 0 then ∅ else {[+ DmaPool p +]}.
Definition nodes_res (l : list Z) : gmultiset resource := list_to_set_disj (DevNode <$> l).

(** The fields of the module that the kernel calls depend on. *)
Record setup := mk_setup {
  u_dev : vme_bridge_device;
  u_ok : Z;
  u_class : Z;
  u_pool : Z;
  u_hl : list vme_berr_handler;
  u_table : option (list window);
  u_dma : bool
}.

Section probe.
Context `{KernelLaws K} `{!DmaKernel K} `{!DmaKernelLaws K} `{!PciKernel K} `{!PciKernelLaws K}.
Context `{ChipLaws C}.
Notation S := (drv_state K C).
Notation W := (wstate K C).
Implicit Types (u : setup) (R : gmultiset resource).

Definition with_chip (c : C) (w : W) : W := w <| br := (br w) <| chip := c |> |>.

(** The window invariant, for some chip if [hw] is false. *)
Definition win_inv (hw : bool) R (w : W) : Prop :=
  ∃ c, (hw = true → c = chip (br w)) ∧ inv R (with_chip c w).

Record phase (hw : bool) R u (s : S) : Prop := {
  ph_win : win_inv hw R (d_win s);
  ph_tbl : length (vme_irq_table (d_irq s)) = 256%nat;
  ph_lock : vme_irq_table_lock (d_irq s) = false;
  ph_dma : u_dma u = true → vdma_ok (d_dma s);
  ph_busy : busy <$> channels (d_dma s) = [0; 0];
  ph_dev : vme_bridge s = u_dev u;
  ph_ok : dma_ok s = u_ok u;
  ph_class : vme_class s = u_class u;
  ph_pool : dma_desc_pool s = u_pool u;
  ph_hl : h_list (verr (br (d_win s))) = u_hl u;
  ph_table : ∀ t, u_table u = Some t → window_table (d_win s) = t
}.

Lemma win_inv_spin hw R w : win_inv hw R w → verr_locked (verr (br w)) = false.
Proof. intros (c & _ & HI). exact (inv_spin _ _ HI). Qed.

Lemma win_inv_live hw R w : win_inv hw R w → live (kern (br w)) = table_res (window_table w) ⊎ R.
Proof. intros (c & _ & HI). exact (inv_live _ _ HI). Qed.

(** Another kernel state that holds [R'] instead of [R]. *)
Lemma win_inv_kern hw R R' w k' :
  win_inv hw R w → (∀ T, live (kern (br w)) = T ⊎ R → live k' = T ⊎ R') →
  win_inv hw R' (w <| br := (br w) <| kern := k' |> |>).
Proof.
  intros HI Hk. specialize (Hk _ (win_inv_live _ _ _ HI)). destruct HI as (c & Hc & HI).
  exists c. split; [exact Hc|]. destruct HI as [I1 I2 I3 I4 I5 I6 I7 I8]. by split.
Qed.

(** * Kernel calls *)

Definition with_kern (k : K) (s : S) : S :=
  s <| d_win := (d_win s) <| br := (br (d_win s)) <| kern := k |> |> |>.

Lemma wp_bkcall {A} (f : K → A * K) (Q : A → S → Prop) s :
  Q (f (kern (br (d_win s)))).1 (with_kern (f (kern (br (d_win s)))).2 s) → wp (bkcall f) Q s.
Proof.
  intros HQ. unfold bkcall, in_win, wkcall, in_bridge. do 2 apply wp_zoom. apply wp_kcall.
  exact HQ.
Qed.

Lemma phase_kern hw R R' u s k' :
  phase hw R u s → (∀ T, live (kern (br (d_win s))) = T ⊎ R → live k' = T ⊎ R') →
  phase hw R' u (with_kern k' s).
Proof.
  intros [P1 P2 P3 P4 P5 P6 P7 P8 P9 P10 P11] Hk. split; try done. by apply win_inv_kern with R.
Qed.

Lemma ph_take {hw R u} r f (Q : Z → S → Prop) s :
  takes r f → phase hw R u s →
  (∀ rc s', rc < 0 → phase hw R u s' → Q rc s') →
  (∀ s', phase hw ({[+ r +]} ⊎ R) u s' → Q 0 s') → wp (bkcall f) Q s.
Proof.
  intros Hf HP HE HS. apply wp_bkcall. destruct (Hf (kern (br (d_win s)))) as [[Hrc Hl]|[-> Hl]].
  - apply HE; [done|]. eapply phase_kern; [exact HP|]. by rewrite Hl.
  - apply HS. eapply phase_kern; [exact HP|]. intros T HT. rewrite Hl, HT. multiset_solver.
Qed.

Lemma ph_give {hw R u} r f (Q : () → S → Prop) s :
  gives r f → phase hw ({[+ r +]} ⊎ R) u s → (∀ s', phase hw R u s' → Q () s') →
  wp (bkdo f) Q s.
Proof.
  intros Hf HP HQ. unfold bkdo, in_win, wkdo, in_bridge. do 2 apply wp_zoom. apply wp_kcall.
  change (Q () (with_kern (f (kern (br (d_win s)))) s)). apply HQ.
  eapply phase_kern; [exact HP|]. intros T HT. rewrite Hf, HT. multiset_solver.
Qed.

(** A call that gives back what is no longer held. *)
Lemma ph_give_none {hw R u} r f (Q : () → S → Prop) s :
  gives r f → phase hw R u s → r ∉ live (kern (br (d_win s))) →
  (∀ s', phase hw R u s' → Q () s') → wp (bkdo f) Q s.
Proof.
  intros Hf HP Hr HQ. unfold bkdo, in_win, wkdo, in_bridge. do 2 apply wp_zoom. apply wp_kcall.
  change (Q () (with_kern (f (kern (br (d_win s)))) s)). apply HQ.
  eapply phase_kern; [exact HP|]. intros T HT. rewrite Hf, <- HT. multiset_solver.
Qed.

Lemma ph_res R R' hw u s : R = R' → phase hw R u s → phase hw R' u s.
Proof. by intros ->. Qed.

(** * Chip accesses *)

Definition returns {A} (P : A → Prop) (m : M C A) : Prop := ∀ c, wp m (λ a _, P a) c.
Definition total {A} (m : M C A) : Prop := returns (λ _, True) m.

Lemma ph_chip_val {hw R u} {A} P (m : M C A) (Q : A → S → Prop) s :
  returns P m → (hw = true → resp same_decode m) → phase hw R u s →
  (∀ a s', P a → phase hw R u s' → Q a s') → wp (bchip m) Q s.
Proof.
  intros Ht Hm HP HQ. unfold bchip, in_win, wchip, in_bridge. do 2 apply wp_zoom.
  apply wp_on_chip. specialize (Ht (chip (br (d_win s)))). unfold wp in *.
  destruct (m (chip (br (d_win s)))) as [[a c']|] eqn:E; [|done]. apply HQ; [done|].
  destruct HP as [P1 P2 P3 P4 P5 P6 P7 P8 P9 P10 P11]. split; try done.
  destruct P1 as (c & Hc & HI). destruct hw.
  - exists c'. split; [done|]. specialize (Hc eq_refl) as ->.
    specialize (Hm eq_refl _ _ _ E).
    assert (HI' : inv R (d_win s)) by (by destruct (d_win s) as [[] ? ? ?]).
    apply (inv_bridge R (d_win s) (mk_bridge (kern (br (d_win s))) c' (verr (br (d_win s))))) in HI';
      [|done|done|by destruct HI'].
    by destruct (d_win s) as [[] ? ? ?].
  - exists c. split; [done|]. by destruct (d_win s) as [[] ? ? ?].
Qed.

Lemma ph_chip {hw R u} {A} (m : M C A) (Q : A → S → Prop) s :
  total m → (hw = true → resp same_decode m) → phase hw R u s →
  (∀ a s', phase hw R u s' → Q a s') → wp (bchip m) Q s.
Proof. intros Ht Hm HP HQ. eapply ph_chip_val; eauto. Qed.

(** * Windows *)

(** Destroying a window is the same whatever the decoders do. *)
Lemma win_inv_destroy hw R n w :
  win_inv hw R w →
  wp (vme_destroy_window n) (λ _ w', win_inv hw R w') w.
Proof.
  intros (c0 & Hc & HI). destruct hw.
  { specialize (Hc eq_refl) as ->.
    assert (HI' : inv R w) by (by destruct w as [[] ? ? ?]).
    eapply wp_mono; [by apply (inv_destroy R)|]. intros rc w' [HI2 _].
    exists (chip (br w')). split; [done|]. by destruct w' as [[] ? ? ?]. }
  destruct w as [[k c v] t a b]. change (with_chip c0 _) with (ST k c0 v t a b) in HI.
  destruct (bad_num_cases n) as [Hbad|(Hok & Hn & Hi)].
  { unfold vme_destroy_window. rewrite Hbad. wp_step. by exists c0. }
  destruct (inv_lookup _ _ _ _ _ _ _ _ HI Hi) as (x & Hx & Hlt & Hl & Hwf & Hhw).
  change (mk_wstate (mk_bridge k c v) t a b) with (ST k c v t a b).
  set (i := Z.to_nat n) in *. rewrite <- Hn. clearbody i. clear Hn Hok.
  rewrite <- (list_insert_id _ _ _ Hx). eapply wp_mono; [by apply wp_vme_destroy_window|].
  intros rc s' (k' & c' & w' & -> & Hl' & Hs & Hr).
  assert (Hokn : win_ok (Z.of_nat i) = true) by (by apply win_ok_of_nat).
  set (c1 := iowrite32be 0 (OTAT (Z.of_nat i)) c0).
  destruct Hs as [S1 S2 S3 S4 S5 S6]. destruct Hr as [(_ & -> & ->)|(_ & _ & ->)].
  - exists c0. split; [done|]. apply (inv_step R k c0 v t a b i x); done.
  - exists c1. split; [done|]. change (inv R (ST k' c1 v (<[i:=destroyed x]> t) a b)).
    apply (inv_step R k c0 v t a b i x); try done.
    split; try done.
    + intros r Hr Hrn. apply iowrite32be_keeps; [|done]. intros <-. simpl in Hrn.
      by rewrite Z.eqb_refl in Hrn.
    + intros _. split; [|done].
      assert (E : latch (OTAT (Z.of_nat i)) c1 = 0); [|by rewrite E].
      unfold c1. rewrite iowrite32be_latch by exact Hokn. apply Z.land_0_l.
Qed.

Lemma win_inv_exit hw R w :
  win_inv hw R w → wp vme_window_exit (λ _ w', win_inv hw R w') w.
Proof.
  intros HI. unfold vme_window_exit. eapply wp_mono; [apply (wp_mfold _ (λ l _ w,
    win_inv hw R w ∧ Forall (λ i, (i < num_windows)%nat) l))|by intros ? ? []].
  - intros i l [] w1 [HI1 Hall]. apply Forall_cons_1 in Hall as [Hi Hall]. wp_step.
    assert (Hx : ∃ x, window_table w1 !! i = Some x).
    { destruct HI1 as (c & _ & [L _ _ _ _ _ _ _]). apply lookup_lt_is_Some_2.
      change (window_table (with_chip c w1)) with (window_table w1) in L. by rewrite L. }
    destruct Hx as [x Hx]. unfold wp at 1, win. rewrite Hx. simpl.
    destruct (truthy (active x)); [|by wp_step]. wp_step.
    eapply wp_mono; [by apply win_inv_destroy|]. intros rc w2 HI2. by wp_step.
  - split; [done|apply all_windows].
Qed.

(** A window operation inside the module. *)
Lemma ph_win_op {hw R u} {A} (m : M W A) (Q : A → S → Prop) s :
  resp same_handlers m → u_table u = None →
  wp m (λ a w', win_inv hw R w' ∧ (phase hw R u (s <| d_win := w' |>) → Q a (s <| d_win := w' |>)))
    (d_win s) →
  phase hw R u s → wp (in_win m) Q s.
Proof.
  intros Hf Hu Hm HP. unfold in_win. apply wp_zoom.
  eapply wp_mono; [apply (wp_resp same_handlers); [done|exact Hm]|].
  intros a w' [[HI HQ] Hh]. apply HQ. destruct HP as [P1 P2 P3 P4 P5 P6 P7 P8 P9 P10 P11].
  split; try done.
  - change (h_list (verr (br w')) = u_hl u). unfold same_handlers in Hh. congruence.
  - by rewrite Hu.
Qed.

(** * Registration *)

Lemma resp_total_rd r : total (rd r).
Proof. intros c. unfold wp, rd. by destruct (ioread32be r c). Qed.
Lemma total_wr v r : total (wr v r).
Proof. done. Qed.
Lemma total_bind {A B} (m : M C A) (f : A → M C B) : total m → (∀ a, total (f a)) → total (m ≫= f).
Proof.
  intros Hm Hf c. wp_step. eapply wp_mono; [apply Hm|]. intros a c' _. apply Hf.
Qed.
Lemma total_mfold {A B} (f : B → A → M C B) b l : (∀ b x, total (f b x)) → total (mfold f b l).
Proof.
  intros Hf. revert b. induction l as [|x l IH]; intros b; [done|].
  cbn [mfold]. apply total_bind; auto.
Qed.
Ltac total :=
  repeat first [apply resp_total_rd | apply total_wr | apply total_bind; [|intros ?]
               | apply total_mfold; intros | done
               | lazymatch goal with |- total (if ?b then _ else _) => destruct b end
               | progress cbv zeta].

Lemma total_quiesce : total tsi148_quiesce.
Proof. unfold tsi148_quiesce, quiesce_windows, quiesce_dma, tsi148_disable_crg. total. Qed.
Lemma total_setup_crg b a : total (tsi148_setup_crg b a).
Proof. unfold tsi148_setup_crg. total. Qed.
Lemma setup_crg_code b a : returns (λ rc, rc <= 0) (tsi148_setup_crg b a).
Proof. intros c. unfold tsi148_setup_crg. repeat chip_step; lia. Qed.
Lemma total_disable_crg : total tsi148_disable_crg.
Proof. unfold tsi148_disable_crg. total. Qed.
Lemma total_init : total tsi148_init.
Proof. unfold tsi148_init. total. Qed.

(** Registrations are not resources of the window table. *)
Lemma reg_not_window n a t : Reg n a ∉ table_res t.
Proof.
  induction t as [|w t IH]; simpl; [multiset_solver|].
  assert (Hw : Reg n a ∉ win_res w); [|multiset_solver].
  unfold win_res, hw_res, block_res, mappings_res.
  assert (Hm : Reg n a ∉ list_to_set_disj (C := gmultiset resource) ((λ m, Block (m_self m)) <$> mappings w)).
  { rewrite elem_of_list_to_set_disj, list_elem_of_fmap. by intros (x & ? & _). }
  revert Hm. generalize (list_to_set_disj (C := gmultiset resource) ((λ m, Block (m_self m)) <$> mappings w)).
  intros X HX. destruct (truthy (active w)), (truthy (r_name (rsrc w))); multiset_solver.
Qed.

Lemma ph_not_held hw R u s n a : phase hw R u s → Reg n a ∉ R → Reg n a ∉ live (kern (br (d_win s))).
Proof.
  intros HP Hr. rewrite (win_inv_live _ _ _ (ph_win _ _ _ _ HP)).
  pose proof (reg_not_window n a (window_table (d_win s))). multiset_solver.
Qed.

Lemma nodes_res_cons m l : nodes_res (m :: l) = {[+ DevNode m +]} ⊎ nodes_res l.
Proof. done. Qed.

Lemma ph_create_nodes {hw u} ds : ∀ R (Q : () → S → Prop) s,
  phase hw R u s →
  (∀ l s', sublist l (minor <$> ds) → phase hw (nodes_res l ⊎ R) u s' → Q () s') →
  wp (mfold (λ _ d, bkdo (device_create (minor d))) () ds) Q s.
Proof.
  induction ds as [|d ds IH]; intros R Q s HP HQ; cbn [mfold].
  { wp_step. apply (HQ []); [constructor|]. eapply ph_res; [|exact HP]. unfold nodes_res. simpl.
    multiset_solver. }
  wp_step. unfold bkdo at 1, in_win, wkdo, in_bridge. do 2 apply wp_zoom. apply wp_kcall. simpl fst.
  match goal with |- wp _ _ ?x =>
    change x with (with_kern (device_create (minor d) (kern (br (d_win s)))) s) end.
  destruct (device_create_live (minor d) (kern (br (d_win s)))) as [Hl|Hl].
  - apply (IH ({[+ DevNode (minor d) +]} ⊎ R)).
    + eapply phase_kern; [exact HP|]. intros T HT. rewrite Hl, HT. multiset_solver.
    + intros l s' Hs HP'. apply (HQ (minor d :: l)); [by constructor|].
      eapply ph_res; [|exact HP']. rewrite nodes_res_cons. multiset_solver.
  - apply (IH R).
    + eapply phase_kern; [exact HP|]. intros T HT. by rewrite Hl.
    + intros l s' Hs HP'. apply (HQ l); [by constructor|done].
Qed.

Lemma nodes_res_Permutation l l' : l ≡ₚ l' → nodes_res l = nodes_res l'.
Proof. intros Hp. unfold nodes_res. by rewrite Hp. Qed.

Lemma ph_destroy_nodes {hw R u} ds : ∀ l (Q : () → S → Prop) s,
  NoDup l → (∀ m, m ∈ l → m ∈ minor <$> ds) → (∀ d, d ∈ ds → DevNode (minor d) ∉ R) →
  phase hw (nodes_res l ⊎ R) u s → (∀ s', phase hw R u s' → Q () s') →
  wp (mfold (λ _ d, bkdo (device_destroy (minor d))) () ds) Q s.
Proof.
  induction ds as [|d ds IH]; intros l Q s Hnd Hl HR HP HQ; cbn [mfold].
  { wp_step. apply HQ. destruct l as [|m l]; [|exfalso; specialize (Hl m); set_solver].
    eapply ph_res; [|exact HP]. unfold nodes_res. simpl. multiset_solver. }
  wp_step. destruct (decide (minor d ∈ l)) as [Hin|Hin].
  - apply elem_of_Permutation in Hin as [l' Hp].
    rewrite (nodes_res_Permutation _ _ Hp), nodes_res_cons in HP. rewrite Hp in Hnd.
    apply list.NoDup_cons in Hnd as [Hn Hnd].
    apply (@ph_give hw (nodes_res l' ⊎ R) u (DevNode (minor d))).
    + apply device_destroy_live.
    + eapply ph_res; [|exact HP]. multiset_solver.
    + intros s' HP'. apply (IH l'); try done.
      * intros m Hm. assert (Hm' : m ∈ l) by (rewrite Hp; set_solver). specialize (Hl m Hm').
        set_solver.
      * intros d' Hd'. apply HR. set_solver.
  - apply (@ph_give_none hw (nodes_res l ⊎ R) u (DevNode (minor d))).
    + apply device_destroy_live.
    + done.
    + eapply ph_not_held; [exact HP|]. assert (DevNode (minor d) ∉ R) by (apply HR; set_solver).
      assert (DevNode (minor d) ∉ nodes_res l); [|multiset_solver]. unfold nodes_res.
      rewrite elem_of_list_to_set_disj, list_elem_of_fmap. intros (x & [= <-] & Hx). done.
    + intros s' HP'. apply (IH l); try done.
      * intros m Hm. specialize (Hl m Hm). set_solver.
      * intros d' Hd'. apply HR. set_solver.
Qed.
End probe.

(** An assignment to a field: the other fields of the phase stay. *)
Ltac ph_field HP :=
  destruct HP as [? ? ? ? ? ? ? ? ? ? ?]; by split.
