(* ===== verification/VmeBridgeInit.v ===== *)
(** The steps of [vme_bridge_init] and [vme_bridge_remove], one lemma each. *)
From S2P Require Import Prelude VmeBus Tsi148Regs Tsi148Attr Tsi148Window KernelIf PciIf VmeMisc.
From S2P Require Import VmeWindow VmeWindowProofs VmeWindowSpec VmeWindowFops.
From S2P Require Import Tsi148Dma Tsi148DmaProofs Tsi148DmaChain VmeDma VmeDmaProofs VmeDmaProps VmeDmaSpec.
From S2P Require Import VmeIrq VmeIrqProofs VmeFrame VmeBridge VmeBridgeSafety VmeBridgeProbe.

Local Open Scope Z_scope.

Section init.
Context `{KernelLaws K} `{!DmaKernel K} `{!DmaKernelLaws K} `{!PciKernel K} `{!PciKernelLaws K}.
Context `{ChipLaws C}.
Notation S := (drv_state K C).
Notation W := (wstate K C).
Implicit Types (u : setup) (R : gmultiset resource).

(** What the module holds at each stage. *)
Definition dev_res u : gmultiset resource :=
  {[+ PciEnabled +]} ⊎ {[+ Block (bd_self (u_dev u)) +]}.
Definition regs_res u : gmultiset resource := {[+ Bar 0 +]} ⊎ {[+ IoMap (regs (u_dev u)) +]}.
Definition cdev_res u (l : list Z) : gmultiset resource :=
  {[+ DevClass (u_class u) +]} ⊎ {[+ Chrdev VME_MAJOR +]} ⊎ nodes_res l.

(** No device node of the driver is held by anybody else. *)
Definition no_nodes R : Prop := ∀ d, d ∈ devlist → DevNode (minor d) ∉ R.

Definition minors : list Z := minor <$> devlist.

Lemma minors_nodup l : sublist l minors → NoDup l ∧ ∀ m, m ∈ l → m ∈ minors.
Proof.
  intros Hs. split.
  - apply (sublist_NoDup _ minors); [by apply (bool_decide_unpack _)|done].
  - intros m Hm. by eapply elem_of_sublist.
Qed.

(** * Error exits *)

Lemma ph_out_err {hw R u} rc (Q : Z → S → Prop) s :
  phase hw ({[+ PciEnabled +]} ⊎ R) u s → (∀ s', phase hw R u s' → Q rc s') → wp (out_err rc) Q s.
Proof.
  intros HP HQ. unfold out_err. wp_step. eapply ph_give; [apply disable_live|exact HP|].
  intros s' HP'. wp_step. auto.
Qed.

Lemma ph_out_free {hw R u} rc (Q : Z → S → Prop) s :
  phase hw (dev_res u ⊎ R) u s → (∀ s', phase hw R u s' → Q rc s') → wp (out_free rc) Q s.
Proof.
  intros HP HQ. unfold out_free. wp_step. wp_step. rewrite (ph_dev _ _ _ _ HP). wp_step.
  apply (ph_give (hw := hw) (u := u) (R := ({[+ PciEnabled +]} ⊎ R))
    (Block (bd_self (u_dev u)))).
  - intros k. apply kfree_live.
  - eapply ph_res; [|exact HP]. unfold dev_res. multiset_solver.
  - intros s' HP'. by eapply ph_out_err.
Qed.

Lemma ph_out_unmap_regs {hw R u} rc (Q : Z → S → Prop) s :
  phase hw (regs_res u ⊎ (dev_res u ⊎ R)) u s → (∀ s', phase hw R u s' → Q rc s') →
  wp (out_unmap_regs rc) Q s.
Proof.
  intros HP HQ. unfold out_unmap_regs. wp_step. wp_step. rewrite (ph_dev _ _ _ _ HP). wp_step.
  apply (ph_give (hw := hw) (u := u) (R := ({[+ Bar 0 +]} ⊎ (dev_res u ⊎ R)))
    (IoMap (regs (u_dev u)))).
  - apply pci_iounmap_live.
  - eapply ph_res; [|exact HP]. unfold regs_res. multiset_solver.
  - intros s' HP'. wp_step. eapply ph_give; [apply release_region_live|exact HP'|].
    intros s2 HP2. by eapply ph_out_free.
Qed.

(** * Character devices *)

Definition set_class (c : Z) u : setup :=
  mk_setup (u_dev u) (u_ok u) c (u_pool u) (u_hl u) (u_table u) (u_dma u).

Lemma ph_create_devices {hw R u} (Q : Z → S → Prop) s :
  phase hw R u s →
  (∀ rc c s', rc < 0 → phase hw R (set_class c u) s' →
     Q rc s') →
  (∀ c l s', 0 < c → sublist l minors →
     DevClass c ∉ R →
     phase hw (cdev_res (set_class c u) l ⊎ R)
       (set_class c u) s' → Q 0 s') →
  wp vme_bridge_create_devices Q s.
Proof.
  intros HP HE HS. unfold vme_bridge_create_devices. wp_step. apply wp_bkcall.
  pose proof (win_inv_live _ _ _ (ph_win _ _ _ _ HP)) as HL.
  destruct (class_create_live (kern (br (d_win s)))) as [[Hc Hk]|(Hc & Hn & Hk)];
    generalize dependent (class_create (kern (br (d_win s)))); intros [c k'] Hc; simpl in *; intros.
  - assert (HP1 : phase hw R u (with_kern k' s)) by (eapply phase_kern; [exact HP|]; by rewrite Hk).
    wp_step. wp_step. rewrite (proj2 (Z.ltb_lt c 0)) by done. wp_step. apply (HE _ c); [done|].
    destruct HP1 as [P1 P2 P3 P4 P5 P6 P7 P8 P9 P10 P11]. by split.
  - assert (HP1 : phase hw ({[+ DevClass c +]} ⊎ R) u (with_kern k' s)).
    { eapply phase_kern; [exact HP|]. intros T HT. rewrite Hk, HT. multiset_solver. }
    wp_step. wp_step. rewrite (proj2 (Z.ltb_ge c 0)) by lia.
    set (u' := set_class c u).
    assert (HP2 : phase hw ({[+ DevClass c +]} ⊎ R) u' (with_kern k' s <| vme_class := c |>)).
    { destruct HP1 as [P1 P2 P3 P4 P5 P6 P7 P8 P9 P10 P11]. by split. }
    clear HP1. wp_step. eapply ph_take; [apply (register_chrdev_live VME_MAJOR)|exact HP2| |].
    + intros rc s' Hrc HP'. rewrite truthy_neg by done. wp_step.
      eapply ph_give; [apply class_destroy_live|exact HP'|]. intros s2 HP3. wp_step.
      by apply (HE (- ENODEV) c).
    + intros s' HP'. change (truthy 0) with false. cbv iota. apply wp_bind.
      refine (ph_create_nodes devlist _ _ _ HP' _). intros l s2 Hs HP3. wp_step.
      apply (HS c l); try done.
      * rewrite HL in Hn. multiset_solver.
      * eapply ph_res; [|exact HP3]. unfold cdev_res. simpl. multiset_solver.
Qed.

Lemma ph_remove_devices {hw R u l} (Q : () → S → Prop) s :
  sublist l minors → no_nodes R → phase hw (cdev_res u l ⊎ R) u s →
  (∀ s', phase hw R u s' → Q () s') → wp vme_bridge_remove_devices Q s.
Proof.
  intros Hl Hn HP HQ. apply minors_nodup in Hl as [Hnd Hin]. unfold vme_bridge_remove_devices.
  wp_step. apply (ph_give (hw := hw) (u := u) (R := (nodes_res l ⊎ ({[+ DevClass (u_class u) +]} ⊎ R)))
    (Chrdev VME_MAJOR)).
  { apply unregister_chrdev_live. }
  { eapply ph_res; [|exact HP]. unfold cdev_res. multiset_solver. }
  intros s1 HP1. wp_step. eapply ph_destroy_nodes; [exact Hnd|exact Hin| |exact HP1|].
  { intros d Hd. specialize (Hn d Hd). multiset_solver. }
  intros s2 HP2. wp_step. wp_step. rewrite (ph_class _ _ _ _ HP2).
  eapply ph_give; [apply class_destroy_live|exact HP2|done].
Qed.

Lemma ph_out_remove_devices {hw R u l} rc (Q : Z → S → Prop) s :
  sublist l minors → no_nodes (regs_res u ⊎ (dev_res u ⊎ R)) →
  phase hw (cdev_res u l ⊎ (regs_res u ⊎ (dev_res u ⊎ R))) u s →
  (∀ s', phase hw R u s' → Q rc s') → wp (out_remove_devices rc) Q s.
Proof.
  intros Hl Hn HP HQ. unfold out_remove_devices. wp_step.
  eapply ph_remove_devices; [done|exact Hn|exact HP|]. intros s' HP'. by eapply ph_out_unmap_regs.
Qed.


(** * Fields of the module *)

Definition set_dev (b : vme_bridge_device) u : setup :=
  mk_setup b (u_ok u) (u_class u) (u_pool u) (u_hl u) (u_table u) (u_dma u).
Definition set_ok (ok : Z) u : setup :=
  mk_setup (u_dev u) ok (u_class u) (u_pool u) (u_hl u) (u_table u) (u_dma u).
Definition set_dma u : setup :=
  mk_setup (u_dev u) (u_ok u) (u_class u) (u_pool u) (u_hl u) (u_table u) true.
Definition set_pool (p : Z) u : setup :=
  mk_setup (u_dev u) (u_ok u) (u_class u) p (u_hl u) (u_table u) (u_dma u).

Lemma ph_upd_bridge {hw R u} f (Q : () → S → Prop) s :
  phase hw R u s → (∀ s', phase hw R (set_dev (f (u_dev u)) u) s' → Q () s') →
  wp (upd_bridge f) Q s.
Proof.
  intros HP HQ. unfold upd_bridge. wp_step. apply HQ.
  destruct HP as [P1 P2 P3 P4 P5 P6 P7 P8 P9 P10 P11]. split; try done. change (f (vme_bridge s) = f (u_dev u)). by rewrite P6.
Qed.

(** * The registers *)

Definition with_regs (va : Z) (b : vme_bridge_device) : vme_bridge_device := b <| regs := va |>.

Lemma ph_map_regs {R u} (Q : Z → S → Prop) s :
  phase false R u s →
  (∀ rc u' L s', rc < 0 → L = ∅ ∨ L = {[+ Bar 0 +]} → phase false (L ⊎ R) u' s' → Q rc s') →
  (∀ va s', let u' := set_dev (with_regs va (u_dev u)) u in
     phase false (regs_res u' ⊎ R) u' s' → Q 0 s') →
  wp vme_bridge_map_regs Q s.
Proof.
  intros HP HE HS. unfold vme_bridge_map_regs. wp_step.
  eapply ph_take; [apply (request_region_live 0)|exact HP| |].
  { intros rc s1 Hrc HP1. rewrite truthy_neg by done. wp_step.
    apply (HE rc u ∅); [done|by left|]. eapply ph_res; [|exact HP1]. multiset_solver. }
  intros s1 HP1. change (truthy 0) with false. cbv iota. wp_step. apply wp_bkcall.
  destruct (iomap_live 0 4096 (kern (br (d_win s1)))) as [Hva Hl].
  generalize dependent (pci_iomap 0 4096 (kern (br (d_win s1)))). intros [va k'] Hva Hl.
  simpl in Hva, Hl. simpl fst. simpl snd.
  set (L := if va =? 0 then ∅ else {[+ IoMap va +]}) in *.
  assert (HP2 : phase false (L ⊎ ({[+ Bar 0 +]} ⊎ R)) u (with_kern k' s1)).
  { eapply phase_kern; [exact HP1|]. intros T HT. rewrite Hl, HT. clearbody L. multiset_solver. }
  wp_step. eapply ph_upd_bridge; [exact HP2|]. intros s2 HP3. wp_step.
  { wp_step. eapply (HE _ _ {[+ Bar 0 +]}); [done|by right|].
    eapply ph_res; [|exact HP3]. unfold L. rewrite H3. multiset_solver. }
  assert (HP4 : phase false (regs_res (set_dev (with_regs va (u_dev u)) u) ⊎ R)
                  (set_dev (with_regs va (u_dev u)) u) s2).
  { eapply ph_res; [|exact HP3]. unfold L, regs_res. rewrite H3. simpl. multiset_solver. }
  clear HP3. wp_step. eapply (ph_chip (hw := false)); [apply resp_total_rd|done|exact HP4|].
  intros tmp s3 HP5. wp_step; [|wp_step; by apply (HS va)].
  wp_step. eapply ph_give; [apply (pci_iounmap_live va)| |].
  { eapply ph_res; [|exact HP5]. unfold regs_res. simpl. instantiate (1 := {[+ Bar 0 +]} ⊎ R).
    multiset_solver. }
  intros s4 HP6. wp_step. eapply (HE _ _ {[+ Bar 0 +]}); [done|by right|exact HP6].
Qed.

(** * The CRG window *)

Lemma win_inv_true R w : win_inv true R w ↔ inv R w.
Proof.
  split.
  - intros (c & Hc & HI). specialize (Hc eq_refl) as ->. by destruct w as [[] ? ? ?].
  - intros HI. exists (chip (br w)). split; [done|]. by destruct w as [[] ? ? ?].
Qed.

Lemma total_some {A} (f : C → A * C) : total (λ c, Some (f c)).
Proof. intros c. unfold wp. by destruct (f c). Qed.

Lemma ph_create {R u} d (Q : Z * vme_mapping → S → Prop) s :
  is_u32 (sizel d) → is_u32 (vme_addrl d) → u_table u = None → phase true R u s →
  (∀ rc d' s', rc <= 0 → phase true R u s' → Q (rc, d') s') →
  wp (in_win (vme_create_window d)) Q s.
Proof.
  intros Hs Hv Hu HP HQ. apply (ph_win_op (hw := true) (R := R) (u := u)); [auto with frame|done| |done].
  eapply wp_mono; [by apply (inv_create R); [apply win_inv_true, HP|..]|].
  intros [rc d'] w' [HI Hr]. split; [by apply win_inv_true|]. intros HP'. apply HQ; [|done].
  destruct Hr as [(? & _)|(E & _)]; simpl in *; lia.
Qed.

Lemma ph_find {R u} d force cur (Q : Z * vme_mapping → S → Prop) s :
  is_u32 (sizel d) → is_u32 (vme_addrl d) → u_table u = None → phase true R u s →
  (∀ rc d' s', rc <= 0 → phase true R u s' → Q (rc, d') s') →
  wp (in_win (vme_find_mapping d force cur)) Q s.
Proof.
  intros Hs Hv Hu HP HQ. unfold vme_find_mapping.
  apply (ph_win_op (hw := true) (R := R) (u := u)); [auto with frame|done| |done].
  eapply wp_mono; [by apply (inv_find R); [apply win_inv_true, HP|..]|].
  intros [rc d'] w' [HI Hr]. split; [by apply win_inv_true|]. intros HP'. apply HQ; [|done].
  unfold find_outcome in Hr. simpl in Hr. destruct Hr as [[? _]|[[-> _]|[-> _]]]; [lia|done|done].
Qed.

Lemma ph_destroy {hw R u} n (Q : Z → S → Prop) s :
  u_table u = None → phase hw R u s → (∀ rc s', phase hw R u s' → Q rc s') →
  wp (in_win (vme_destroy_window n)) Q s.
Proof.
  intros Hu HP HQ. apply (ph_win_op (hw := hw) (R := R) (u := u)); [auto with frame|done| |done].
  eapply wp_mono; [apply win_inv_destroy, HP|]. auto.
Qed.

(** A modification of a field the phase does not look at. *)
Lemma ph_crg_out {R u} rc (Q : Z → S → Prop) s :
  u_table u = None → phase true R u s → (∀ s', phase true R u s' → Q rc s') →
  wp (crg_out_destroy_window rc) Q s.
Proof.
  intros Hu HP HQ. unfold crg_out_destroy_window. wp_step. wp_step. wp_step.
  eapply ph_destroy; [done|exact HP|]. intros rc' s' HP'. wp_step. auto.
Qed.

Lemma ph_map_crg {R u} (io : Z → C → Z * C) cur (Q : Z → S → Prop) s :
  (∀ va c, same_decode c (io va c).2) → u_table u = None → phase true R u s →
  (∀ rc s', rc <= 0 → phase true R u s' → Q rc s') →
  wp (vme_bridge_map_crg io cur) Q s.
Proof.
  intros Hio Hu HP HQ. unfold vme_bridge_map_crg. wp_step. wp_step.
  assert (HP1 : phase true R u (s <| a24d32_desc ::= fill_a24d32 |>)) by ph_field HP.
  clear HP. wp_step. wp_step. wp_step. apply (ph_create (R := R) (u := u)); [done..|].
  intros rc d s1 Hrc HP2. cbv beta iota. wp_step. wp_step.
  assert (HP3 : phase true R u (s1 <| a24d32_desc := d |>)) by ph_field HP2.
  clear HP2. wp_step; [wp_step; by apply HQ|]. wp_step. wp_step.
  assert (HP4 : phase true R u (s1 <| a24d32_desc := d |> <| crg_desc ::= fill_crg |>)) by ph_field HP3.
  clear HP3. wp_step. wp_step. wp_step. apply (ph_find (R := R) (u := u)); [done..|].
  intros rc2 d2 s2 Hrc2 HP5. cbv beta iota. wp_step. wp_step.
  assert (HP6 : phase true R u (s2 <| crg_desc := d2 |>)) by ph_field HP5.
  clear HP5. wp_step; [wp_step; by apply HQ|]. wp_step.
  eapply (ph_chip_val (hw := true)); [apply setup_crg_code|intros _; apply resp_setup_crg|exact HP6|].
  intros rc3 s3 Hrc3 HP7. wp_step; [eapply ph_crg_out; [done|exact HP7|]; intros s4; by apply HQ|].
  wp_step. eapply (ph_chip (hw := true)); [apply total_some| |exact HP7|].
  { intros _ c v c' [= E]. specialize (Hio (kernel_va d2) c). by rewrite E in Hio. }
  intros tmp s4 HP8. wp_step.
  - wp_step. eapply (ph_chip (hw := true)); [apply total_disable_crg|intros _; apply resp_disable_crg|exact HP8|].
    intros [] s5 HP9. eapply ph_crg_out; [done|exact HP9|]. intros s6. by apply HQ.
  - wp_step. wp_step. wp_step. apply HQ; [done|]. ph_field HP8.
Qed.

(** * Interrupts *)

Lemma set_interrupts_code m : returns (λ rc, rc <= 0) (tsi148_set_interrupts m).
Proof. intros c. unfold tsi148_set_interrupts. repeat chip_step; lia. Qed.

Lemma wp_enable_interrupts mask k c v tbl lk st en cs :
  wp (vme_enable_interrupts mask) (λ rc i, rc <= 0 ∧ ∃ c' en', i = IS k c' v tbl lk st en' cs)
    (IS k c v tbl lk st en cs : irq_state K C).
Proof.
  unfold vme_enable_interrupts. wp_step. apply wp_ichip. unfold tsi148_get_int_enabled.
  apply wp_rd_any. intros x c1 _. wp_step. wp_step. apply wp_ichip.
  eapply wp_mono; [apply set_interrupts_code|]. intros rc c2 Hrc. split; [done|]. by eexists _, _.
Qed.

Lemma ph_enable_interrupts {R u} mask (Q : Z → S → Prop) s :
  u_table u = None → phase true R u s → (∀ rc s', phase true R u s' → Q rc s') →
  wp (in_irq (vme_enable_interrupts mask)) Q s.
Proof.
  intros Hu HP HQ. unfold in_irq. apply wp_zoom.
  destruct s as [[[k c v] t a b] dm [ib tbl lk st en cs] dv vi vs dk vc dp ad cd cb].
  eapply wp_mono; [apply (wp_resp same_irq); [apply resp_enable|apply wp_enable_interrupts]|].
  intros rc i' [(_ & c' & en' & ->) [Hd _]]. apply HQ.
  destruct HP as [P1 P2 P3 P4 P5 P6 P7 P8 P9 P10 P11].
  split; try done. apply win_inv_true. apply win_inv_true in P1.
  by apply (inv_bridge R _ (mk_bridge k c' v) P1 eq_refl Hd), (inv_spin _ _ P1).
Qed.

Lemma ph_init_interrupts {R u} (Q : Z → S → Prop) s :
  u_table u = None → phase true R u s →
  (∀ rc s', rc < 0 → phase true R u s' → Q rc s') →
  (∀ s', phase true ({[+ IrqLine (bd_irq (u_dev u)) +]} ⊎ R) u s' → Q 0 s') →
  wp vme_bridge_init_interrupts Q s.
Proof.
  intros Hu HP HE HS. unfold vme_bridge_init_interrupts. wp_step. wp_step.
  rewrite (ph_dev _ _ _ _ HP). wp_step.
  eapply ph_take; [apply (request_irq_live (bd_irq (u_dev u)))|exact HP| |].
  { intros rc s1 Hrc HP1. rewrite truthy_neg by done. wp_step. by apply HE. }
  intros s1 HP1. change (truthy 0) with false. cbv iota. wp_step.
  apply (ph_enable_interrupts (R := {[+ IrqLine (bd_irq (u_dev u)) +]} ⊎ R) (u := u)); [done..|].
  intros rc s2 HP2. wp_step.
  - wp_step. eapply ph_give; [apply free_irq_live|exact HP2|]. intros s3 HP3. wp_step. by apply HE.
  - wp_step. by apply HS.
Qed.

(** * DMA *)

Lemma wp_dma_init p (v : vdma_state K C) :
  busy <$> channels v = [0; 0] →
  wp (vme_dma_init p) (λ rc v', rc = (if p =? 0 then - ENOMEM else 0) ∧ vdma_ok v' ∧
    busy <$> channels v' = [0; 0] ∧ vbr v' = vbr v) v.
Proof.
  destruct v as [b mem chs sem lk dis cw]. intros Hb. simpl in Hb.
  destruct chs as [|[] [|[] [|? ?]]]; try done. injection Hb as -> ->.
  unfold vme_dma_init. wp_step.
  change (seq 0 (Z.to_nat TSI148_NUM_DMA_CHANNELS)) with [0%nat; 1%nat].
  unfold wp at 1. simpl. wp_step. wp_step.
  destruct (p =? 0); wp_step; (split; [done|]).
  all: split_and!; [|done|done].
  all: split; [done|done|].
  all: intros [|[|i]] ch; simpl; intros [= <-]; simpl; auto.
Qed.

Lemma ph_dma_init {u R} (Q : Z → S → Prop) s :
  u_table u = None → phase true R u s →
  (∀ p s', phase true (pool_res p ⊎ R) (set_dma (set_pool p u)) s' →
     Q (if p =? 0 then - ENOMEM else 0) s') →
  wp dma_init Q s.
Proof.
  intros Hu HP HQ. unfold dma_init. wp_step. apply wp_bkcall.
  destruct (pool_create_live (kern (br (d_win s)))) as [Hp Hl].
  generalize dependent (pci_pool_create (kern (br (d_win s)))). intros [p k'] Hp Hl.
  simpl in Hp, Hl. simpl fst. simpl snd. fold (pool_res p) in Hl.
  assert (HP1 : phase true (pool_res p ⊎ R) u (with_kern k' s)).
  { eapply phase_kern; [exact HP|]. intros T HT. rewrite Hl, HT. multiset_solver. }
  clear HP. wp_step. wp_step. unfold in_dma. apply wp_zoom.
  destruct HP1 as [P1 P2 P3 P4 P5 P6 P7 P8 P9 P10 P11].
  eapply wp_mono; [by apply wp_dma_init|]. intros rc v (-> & Hok & Hb & Hbr). apply HQ.
  split; try done; simpl; rewrite Hbr; try done.
Qed.

(** The DMA resources of the module. *)
Definition dma_res u : gmultiset resource := if u_ok u =? 0 then ∅ else pool_res (u_pool u).

(** The setup after the DMA step: the bus error handlers and the device are
    those of before. *)
Definition dma_set u u' : Prop :=
  u_dev u' = u_dev u ∧ u_hl u' = u_hl u ∧ u_table u' = None ∧ (u_ok u' ≠ 0 → u_dma u' = true ∧ u_pool u' ≠ 0).

Lemma ph_dma_step {R u} (Q : () → S → Prop) s :
  u_table u = None → phase true R u s →
  (∀ u' s', dma_set u u' → phase true (dma_res u' ⊎ R) u' s' → Q () s') →
  wp (ok ← gets dma_ok;
      if truthy ok then
        rc ← dma_init;
        if truthy rc then modify (λ s : S, s <| dma_ok := 0 |>) else mret ()
      else mret ()) Q s.
Proof.
  intros Hu HP HQ. wp_step. wp_step. rewrite (ph_ok _ _ _ _ HP).
  unfold truthy at 1. destruct (Z.eqb_spec (u_ok u) 0) as [Ez|Hne]; cbn [negb].
  - wp_step. apply (HQ u); [by unfold dma_set; rewrite Ez|]. eapply ph_res; [|exact HP]. unfold dma_res. rewrite Ez.
    simpl. multiset_solver.
  - wp_step. eapply ph_dma_init; [done|exact HP|]. intros p s' HP'.
    destruct (Z.eqb_spec p 0) as [->|Hp].
    + change (truthy (- ENOMEM)) with true. cbv iota. wp_step.
      apply (HQ (set_ok 0 (set_dma (set_pool 0 u)))); [done|]. ph_field HP'.
    + change (truthy 0) with false. cbv iota. wp_step.
      apply (HQ (set_dma (set_pool p u))); [done|]. eapply ph_res; [|exact HP'].
      unfold dma_res. simpl. by rewrite (proj2 (Z.eqb_neq _ _) Hne).
Qed.

(** * Quiescing the chip *)

Definition set_table t u : setup :=
  mk_setup (u_dev u) (u_ok u) (u_class u) (u_pool u) (u_hl u) t (u_dma u).

(** From here on the decoders agree with the table. *)
Lemma ph_quiesce {R u} {A} (f : () → M S A) (Q : A → S → Prop) s :
  u_table u = Some boot_table → phase false R u s →
  (∀ s', phase true R (set_table None u) s' → wp (f ()) Q s') →
  wp (bchip tsi148_quiesce ≫= λ _, in_win vme_window_init ≫= f) Q s.
Proof.
  intros Hu HP HQ. wp_step. unfold bchip, in_win, wchip, in_bridge. do 2 apply wp_zoom. apply wp_on_chip.
  eapply wp_mono; [apply wp_quiesce|]. intros [] c' (Hw & _). wp_step. apply wp_zoom.
  destruct HP as [P1 P2 P3 P4 P5 P6 P7 P8 P9 P10 P11]. specialize (P11 _ Hu).
  destruct s as [[[k c v] t a b] dm ir dv vi vs dk vc dp ad cd cb].
  pose proof (win_inv_live _ _ _ P1) as Hl. pose proof (win_inv_spin _ _ _ P1) as Hv.
  simpl in P11, Hl, Hv. subst t. apply wp_init. apply HQ. split; try done.
  apply win_inv_true.
  assert (HI : inv (live k) (ST k c' v boot_table a b)).
  { apply inv_boot; [|done]. intros i Hi. destruct (Hw i Hi) as [-> _]. apply Z.bits_0. }
  pose proof (inv_live _ _ HI) as Hk. change (live k = table_res boot_table ⊎ live k) in Hk.
  assert (E : live k = R) by multiset_solver. rewrite E in HI. exact HI.
Qed.
End init.
