(* ===== verification/VmeBridgeSpec.v ===== *)
(** Probe and removal of the bridge as a whole, and the dispatch of file
    operations by minor number. *)
From S2P Require Import Prelude VmeBus Tsi148Regs Tsi148Attr Tsi148Window KernelIf PciIf VmeMisc.
From S2P Require Import VmeWindow VmeWindowProofs VmeWindowSpec VmeWindowFops VmeWindowProps.
From S2P Require Import Tsi148Dma Tsi148DmaProofs Tsi148DmaChain VmeDma VmeDmaProofs VmeDmaProps VmeDmaSpec.
From S2P Require Import VmeIrq VmeIrqProofs VmeFrame VmeBridge VmeBridgeSafety VmeBridgeProbe VmeBridgeInit.

Local Open Scope Z_scope.

Section spec.
Context `{KernelLaws K} `{!DmaKernel K} `{!DmaKernelLaws K} `{!PciKernel K} `{!PciKernelLaws K}.
Context `{ChipLaws C}.
Notation S := (drv_state K C).
Implicit Types (u : setup) (R B : gmultiset resource).

(** Everything the running module holds, apart from its windows. *)
Definition owned u (l : list Z) : gmultiset resource :=
  {[+ IrqLine (bd_irq (u_dev u)) +]} ⊎ (cdev_res u l ⊎ (regs_res u ⊎ (dev_res u ⊎ dma_res u))).

(** What a failed probe may still hold: the descriptor, BAR 0, the DMA pool. *)
Definition leak (L : gmultiset resource) : Prop :=
  L = ∅ ∨ (∃ p, L = {[+ Block p +]}) ∨ (∃ p, L = {[+ Block p +]} ⊎ {[+ Bar 0 +]}) ∨
  (∃ p, L = {[+ DmaPool p +]}).

(** The results of a probe that started with [B] held. *)
Definition probed B (rc : Z) (s : S) : Prop :=
  (rc = 0 ∧ ∃ u l, sublist l minors ∧ u_hl u = [] ∧ u_table u = None ∧
     (u_ok u ≠ 0 → u_dma u = true ∧ u_pool u ≠ 0) ∧ DevClass (u_class u) ∉ B ∧
     phase true (owned u l ⊎ B) u s) ∨
  (rc < 0 ∧ ∃ hw u L, leak L ∧ phase hw (L ⊎ B) u s).

Lemma probed_fail {B hw u} {L : gmultiset resource} rc s : rc < 0 → leak L → phase hw (L ⊎ B) u s → probed B rc s.
Proof. intros Hrc HL HP. right. split; [done|]. by eexists _, _, _. Qed.

Lemma leak_dma u : leak (dma_res u).
Proof.
  unfold dma_res, pool_res, leak. destruct (u_ok u =? 0); [by left|]. destruct (u_pool u =? 0); [by left|].
  right. right. right. by eexists.
Qed.

(** The nodes are nobody else's, so neither are they of what the module holds
    besides. *)
Lemma no_nodes_module B u : no_nodes B → no_nodes (regs_res u ⊎ (dev_res u ⊎ (dma_res u ⊎ B))).
Proof.
  intros HB d Hd. specialize (HB d Hd). unfold regs_res, dev_res, dma_res, pool_res.
  destruct (u_ok u =? 0), (u_pool u =? 0); multiset_solver.
Qed.

Lemma ph_out_unmap_crg {B u l} rc (Q : Z → S → Prop) s :
  u_table u = None → sublist l minors → no_nodes B →
  phase true (cdev_res u l ⊎ (regs_res u ⊎ (dev_res u ⊎ (dma_res u ⊎ B)))) u s →
  (∀ s', phase true (dma_res u ⊎ B) u s' → Q rc s') →
  wp (out_unmap_crg rc) Q s.
Proof.
  intros Hu Hl HB HP HQ. unfold out_unmap_crg, vme_bridge_unmap_crg. wp_step. wp_step.
  eapply (ph_chip (hw := true)); [apply total_disable_crg|intros _; apply resp_disable_crg|exact HP|].
  intros [] s1 HP1. wp_step. wp_step. eapply ph_destroy; [done|exact HP1|].
  intros rc' s2 HP2. eapply ph_out_remove_devices; [done| |exact HP2|done].
  by apply no_nodes_module.
Qed.

(** The probe reads the id of the CRG over the VME bus, which leaves the window
    registers alone. *)
Section with_bus.
Variable ioread32_vme : Z → C → Z * C.
Hypothesis bus_reads : ∀ va c, same_decode c (ioread32_vme va c).2.

(** The steps from the character devices on. *)
Lemma ph_init_tail {B u} cur s :
  no_nodes B → u_hl u = [] → u_table u = None → (u_ok u ≠ 0 → u_dma u = true ∧ u_pool u ≠ 0) →
  phase true (regs_res u ⊎ (dev_res u ⊎ (dma_res u ⊎ B))) u s →
  wp (rc ← vme_bridge_create_devices;
      if truthy rc then out_unmap_regs rc else
      rc ← vme_bridge_map_crg ioread32_vme cur;
      if truthy rc then out_remove_devices rc else
      rc ← vme_bridge_init_interrupts;
      if truthy rc then out_unmap_crg rc else mret 0) (probed B) s.
Proof.
  intros HB Hh Hu Hd HP. wp_step. eapply ph_create_devices; [exact HP| |].
  { intros rc c s1 Hrc HP1. rewrite truthy_neg by done.
    apply (ph_out_unmap_regs (hw := true) (u := set_class c u) (R := dma_res u ⊎ B)); [exact HP1|].
    intros s2 HP2. eapply probed_fail; [done|apply (leak_dma u)|exact HP2]. }
  intros c l s1 Hc Hl Hn HP1. change (truthy 0) with false. cbv iota.
  set (u' := set_class c u) in *. assert (Hu' : u_table u' = None) by exact Hu.
  assert (Hn' : DevClass c ∉ B) by multiset_solver.
  change (regs_res u ⊎ (dev_res u ⊎ (dma_res u ⊎ B))) with (regs_res u' ⊎ (dev_res u' ⊎ (dma_res u' ⊎ B))) in HP1.
  wp_step. eapply ph_map_crg; [exact bus_reads|exact Hu'|exact HP1|]. intros rc s2 Hrc HP2.
  wp_step.
  { eapply ph_out_remove_devices; [done|by apply no_nodes_module|exact HP2|].
    intros s3 HP3. eapply probed_fail; [|apply (leak_dma u')|exact HP3]. unfold truthy in *. lia. }
  wp_step. eapply ph_init_interrupts; [exact Hu'|exact HP2| |].
  { intros rc3 s3 Hrc3 HP3. rewrite truthy_neg by done.
    eapply ph_out_unmap_crg; [done|done|exact HB|exact HP3|]. intros s4 HP4.
    eapply probed_fail; [done|apply (leak_dma u')|exact HP4]. }
  intros s3 HP3. change (truthy 0) with false. cbv iota. wp_step. left. split; [done|].
  exists u', l. split_and!; try done. eapply ph_res; [|exact HP3]. unfold owned. multiset_solver.
Qed.

Lemma ph_set_mask {hw R u} (Q : () → S → Prop) s :
  phase hw R u s → (∀ ok s', phase hw R (set_ok ok u) s' → Q () s') →
  wp (rc ← bkcall pci_set_dma_mask;
      modify (λ s : S, s <| dma_ok := if truthy rc then 0 else 1 |>)) Q s.
Proof.
  intros HP HQ. wp_step. apply wp_bkcall. pose proof (set_dma_mask_live (kern (br (d_win s)))) as Hl.
  destruct (pci_set_dma_mask (kern (br (d_win s)))) as [rc k']. simpl in Hl. simpl fst. simpl snd.
  assert (HP1 : phase hw R u (with_kern k' s)) by (eapply phase_kern; [exact HP|]; by rewrite Hl).
  wp_step. eapply HQ. ph_field HP1.
Qed.

Lemma ph_slotnum {R u} (Q : () → S → Prop) s :
  phase false R u s → (∀ s', phase false R u s' → Q () s') →
  wp (n ← gets vme_slotnum;
      if n =? -1 then
        slotnum ← bchip tsi148_get_slotnum;
        modify (λ s : S, s <| vme_slotnum := slotnum |>)
      else mret ()) Q s.
Proof.
  intros HP HQ. wp_step. wp_step. wp_step; [|wp_step; auto]. wp_step.
  eapply (ph_chip (hw := false)); [|done|exact HP|].
  { unfold tsi148_get_slotnum. intros c. wp_step. eapply wp_mono; [apply resp_total_rd|]. by intros. }
  intros n s' HP'. wp_step. apply HQ. ph_field HP'.
Qed.

Lemma bind_assoc {A D E} (m : M S A) (f : A → M S D) (g : D → M S E) (Q : E → S → Prop) s :
  wp ((m ≫= f) ≫= g) Q s → wp (m ≫= λ a, f a ≫= g) Q s.
Proof. unfold wp, mbind, M_bind. by destruct (m s) as [[a s1]|]. Qed.

Lemma ph_init_mapped {B u} cur s :
  no_nodes B → u_hl u = [] → u_table u = Some boot_table → u_dma u = false →
  phase false (regs_res u ⊎ (dev_res u ⊎ B)) u s →
  wp (init_mapped ioread32_vme cur) (probed B) s.
Proof.
  intros HB Hh Hu Hd HP. unfold init_mapped. apply bind_assoc. wp_step.
  eapply ph_set_mask; [exact HP|]. intros ok s1 HP1. apply bind_assoc. wp_step.
  eapply ph_slotnum; [exact HP1|]. intros s2 HP2. wp_step. wp_step. wp_step.
  eapply ph_upd_bridge; [exact HP2|]. intros s3 HP3. wp_step.
  eapply (ph_chip (hw := false)); [|done|exact HP3|].
  { unfold tsi148_get_syscon. intros c. wp_step. eapply wp_mono; [apply resp_total_rd|]. by intros. }
  intros sc s4 HP4. wp_step. eapply ph_upd_bridge; [exact HP4|]. intros s5 HP5.
  eapply ph_quiesce; [|exact HP5|]; [exact Hu|]. intros s6 HP6. apply bind_assoc. wp_step.
  eapply ph_dma_step; [|exact HP6|]; [done|]. intros u' s7 (Ed & Eh & Et & Eo) HP7. wp_step.
  eapply (ph_chip (hw := true)); [apply total_init|intros _; apply resp_init|exact HP7|].
  intros [] s8 HP8. apply (ph_init_tail (u := u')); [done|by rewrite Eh|done|done|].
  eapply ph_res; [|exact HP8]. unfold regs_res, dev_res. rewrite Ed. simpl. multiset_solver.
Qed.

(** * The whole probe *)

Definition set_hl l u : setup :=
  mk_setup (u_dev u) (u_ok u) (u_class u) (u_pool u) l (u_table u) (u_dma u).

Lemma ph_bus_error_init {hw R u} (Q : () → S → Prop) s :
  phase hw R u s → (∀ s', phase hw R (set_hl [] u) s' → Q () s') → wp vme_bus_error_init Q s.
Proof.
  intros HP HQ. unfold vme_bus_error_init, in_win, in_bridge. do 2 apply wp_zoom. wp_step. apply HQ.
  destruct HP as [P1 P2 P3 P4 P5 P6 P7 P8 P9 P10 P11]. split; try done.
  destruct P1 as (c & Hc & [I1 I2 I3 I4 I5 I6 I7 I8]). exists c. split; [done|]. by split.
Qed.

(** The choice of the interrupt line. *)
Lemma ph_irq_line {hw R u} irq (Q : () → S → Prop) s :
  phase hw R u s → (∀ s', phase hw R u s' → Q () s') →
  wp (n ← gets vme_irq;
      if n =? 0 then
        modify (λ s : S, s <| vme_irq := if irq =? 0 then 0x50 else irq |>)
      else mret ()) Q s.
Proof.
  intros HP HQ. wp_step. wp_step. wp_step; wp_step; apply HQ; [|done]. ph_field HP.
Qed.

(** The exit that gives back the device only. *)
Lemma probed_out_err {B hw u} {L : gmultiset resource} rc s :
  rc < 0 → leak L → phase hw ({[+ PciEnabled +]} ⊎ (L ⊎ B)) u s →
  wp (out_err rc) (probed B) s.
Proof.
  intros Hrc HL HP. eapply ph_out_err; [exact HP|]. intros s' HP'. by eapply probed_fail.
Qed.

Lemma ph_init_window {B u} pdev cur s :
  no_nodes B → u_hl u = [] → u_table u = Some boot_table → u_dma u = false →
  phase false (dev_res u ⊎ B) u s →
  wp (match pci_find_parent_resource_local pdev (mk_bus_resource 0 0 IORESOURCE_MEM) with
      | None => out_err (- ENODEV)
      | Some r =>
        if u64 (bs_end r - bs_start r) <? 0x2000000 then out_err (- ENOMEM) else
        rc ← vme_bridge_map_regs;
        if truthy rc then out_err rc else init_mapped ioread32_vme cur
      end) (probed B) s.
Proof.
  intros HB Hh Hu Hd HP.
  assert (HB1 : leak {[+ Block (bd_self (u_dev u)) +]}) by (right; left; by eexists).
  assert (HP1 : phase false ({[+ PciEnabled +]} ⊎ ({[+ Block (bd_self (u_dev u)) +]} ⊎ B)) u s).
  { eapply ph_res; [|exact HP]. unfold dev_res. multiset_solver. }
  destruct (pci_find_parent_resource_local _ _) as [r|]; [|by eapply probed_out_err].
  wp_step; [by eapply probed_out_err|]. wp_step. eapply ph_map_regs; [exact HP| |].
  - intros rc u' L s1 Hrc HL HP2. rewrite truthy_neg by done.
    apply (probed_out_err (hw := false) (u := u') (L := {[+ Block (bd_self (u_dev u)) +]} ⊎ L)); [done| |].
    + destruct HL as [->| ->]; right; [left|right; left]; exists (bd_self (u_dev u)); [|done].
      multiset_solver.
    + eapply ph_res; [|exact HP2]. unfold dev_res. multiset_solver.
  - intros va s1 u' HP2. change (truthy 0) with false. cbv iota.
    by apply (ph_init_mapped (u := u')).
Qed.

Lemma wp_bridge_init {B u} pdev cur s :
  no_nodes B → u_table u = Some boot_table → u_dma u = false → phase false B u s →
  wp (vme_bridge_init ioread32_vme pdev cur) (probed B) s.
Proof.
  intros HB Hu Hd HP. unfold vme_bridge_init. wp_step.
  eapply ph_take; [apply enable_live|exact HP| |].
  { intros rc s1 Hrc HP1. rewrite truthy_neg by done. wp_step.
    apply (probed_fail (L := ∅) (hw := false) (u := u)); [done|by left|].
    eapply ph_res; [|exact HP1]. multiset_solver. }
  intros s1 HP1. change (truthy 0) with false. cbv iota. wp_step. apply wp_bkcall.
  pose proof (kmalloc_live 96 (kern (br (d_win s1)))) as Hk.
  destruct (kmalloc 96 (kern (br (d_win s1)))) as [p k']. simpl in Hk. simpl fst. simpl snd.
  set (u1 := set_dev (mk_vme_bridge_device p 0 0 0 0 0) u).
  set (L := if p =? 0 then ∅ else {[+ Block p +]} : gmultiset resource).
  assert (HP2 : phase false (L ⊎ ({[+ PciEnabled +]} ⊎ B)) u (with_kern k' s1)).
  { eapply phase_kern; [exact HP1|]. intros T HT. unfold L.
    destruct Hk as [[-> Hl]|(Hp & _ & Hl)]; rewrite Hl, HT; [simpl|rewrite (proj2 (Z.eqb_neq p 0)) by lia];
      multiset_solver. }
  wp_step. wp_step.
  assert (HP3 : phase false (L ⊎ ({[+ PciEnabled +]} ⊎ B)) u1
    (with_kern k' s1 <| vme_bridge := mk_vme_bridge_device p 0 0 0 0 0 |>)) by ph_field HP2.
  unfold L in HP3. clear HP1 HP2 Hk. destruct (p =? 0).
  { apply (probed_out_err (hw := false) (u := u1) (L := ∅)); [done|by left|].
    eapply ph_res; [|exact HP3]. multiset_solver. }
  wp_step. eapply ph_bus_error_init; [exact HP3|]. intros s2 HP4. wp_step.
  eapply ph_upd_bridge; [exact HP4|]. intros s3 HP5. apply bind_assoc. wp_step.
  eapply ph_irq_line; [exact HP5|]. intros s4 HP6. wp_step. wp_step.
  match type of HP6 with phase _ _ ?u _ => set (u2 := u) in * end.
  assert (HP7 : phase false (dev_res u2 ⊎ B) u2 s4).
  { eapply ph_res; [|exact HP6]. unfold dev_res. simpl. multiset_solver. }
  wp_step.
  { eapply ph_out_free; [exact HP7|]. intros s5 HP8.
    apply (probed_fail (L := ∅) (hw := false) (u := u2)); [done|by left|].
    eapply ph_res; [|exact HP8]. multiset_solver. }
  wp_step. eapply ph_upd_bridge; [exact HP7|]. intros s5 HP8.
  match type of HP8 with phase _ _ ?u _ => by apply (ph_init_window (u := u)) end.
Qed.

End with_bus.

(** * Removal *)

Lemma phase_weaken {hw R u} s : phase hw R u s → phase false R u s.
Proof.
  intros [P1 P2 P3 P4 P5 P6 P7 P8 P9 P10 P11]. split; try done.
  destruct P1 as (c & _ & HI). by exists c.
Qed.

Lemma ph_window_exit {hw R u} (Q : () → S → Prop) s :
  u_table u = None → phase hw R u s → (∀ s', phase hw R u s' → Q () s') →
  wp (in_win vme_window_exit) Q s.
Proof.
  intros Hu HP HQ. apply (ph_win_op (hw := hw) (R := R) (u := u)); [auto with frame|done| |done].
  eapply wp_mono; [apply win_inv_exit, HP|]. intros []. auto.
Qed.

(** [dma_exit], when the DMA engine was set up. *)
Lemma ph_dma_exit {R u} (Q : () → S → Prop) s :
  u_table u = None → u_dma u = true → u_pool u ≠ 0 →
  phase false (pool_res (u_pool u) ⊎ R) u s →
  (∀ s', phase false R u s' → Q () s') → wp dma_exit Q s.
Proof.
  intros Hu Hd Hp HP HQ. unfold dma_exit. wp_step. unfold in_dma. apply wp_zoom.
  assert (HP0 := HP). destruct HP0 as [P1 P2 P3 P4 P5 P6 P7 P8 P9 P10 P11].
  destruct s as [[[k c v] t a b] [vb mem chs sem lk dis cw] ir dv vi vs dk vc dp ad cd cb].
  simpl in P4, P5. specialize (P4 Hd).
  assert (Hc : length chs = 2%nat ∧ 0 < sem).
  { destruct P4 as [_ V2 _]. simpl in V2. subst sem.
    destruct chs as [|c0 [|c1 [|? ?]]]; try done. injection P5 as E0 E1.
    split; [done|]. unfold idle_count, idle. simpl. by rewrite E0, E1. }
  destruct Hc. eapply wp_mono; [by apply wp_dma_exit|]. intros [] d [c' ->]. wp_step.
  wp_step. change (wp (bkdo (pci_pool_destroy dp)) Q (mk_drv_state
    (mk_wstate (mk_bridge k c' v) t a b) (VS k c' v mem chs sem lk 1 cw) ir dv vi vs dk vc dp ad cd cb)).
  rewrite <- P9 in HP. eapply ph_give; [apply pool_destroy_live| |exact HQ].
  rewrite <- P9 in Hp. simpl in Hp, HP. unfold pool_res in HP.
  rewrite (proj2 (Z.eqb_neq dp 0)) in HP by done.
  destruct HP as [Q1 Q2 Q3 Q4 Q5 Q6 Q7 Q8 Q9 Q10 Q11]. split; try done.
  - destruct Q1 as (c0 & _ & HI). by exists c0.
  - intros _. destruct P4 as [V1 V2 V3]. by split.
Qed.

Lemma ph_dma_off {R u} (Q : () → S → Prop) s :
  u_table u = None → (u_ok u ≠ 0 → u_dma u = true ∧ u_pool u ≠ 0) →
  phase false (dma_res u ⊎ R) u s → (∀ s', phase false R u s' → Q () s') →
  wp (ok ← gets dma_ok; if truthy ok then dma_exit else mret ()) Q s.
Proof.
  intros Hu Hd HP HQ. wp_step. wp_step. rewrite (ph_ok _ _ _ _ HP).
  unfold dma_res in HP. unfold truthy at 1. destruct (Z.eqb_spec (u_ok u) 0) as [Ez|Hne]; cbn [negb].
  - wp_step. apply HQ. eapply ph_res; [|exact HP]. multiset_solver.
  - destruct (Hd Hne). by eapply ph_dma_exit.
Qed.

Lemma wp_bridge_remove {B u l} s :
  no_nodes B → sublist l minors → u_table u = None →
  (u_ok u ≠ 0 → u_dma u = true ∧ u_pool u ≠ 0) → DevClass (u_class u) ∉ B →
  phase true (owned u l ⊎ B) u s →
  wp vme_bridge_remove (λ _ s', phase false B u s') s.
Proof.
  intros HB Hl Hu Hd Hc HP%phase_weaken. unfold vme_bridge_remove, vme_bridge_unmap_crg.
  wp_step. eapply (ph_chip (hw := false)); [apply total_quiesce|done|exact HP|]. intros [] s1 HP1.
  wp_step. wp_step. rewrite (ph_dev _ _ _ _ HP1). wp_step.
  set (R2 := dma_res u ⊎ (regs_res u ⊎ (dev_res u ⊎ (cdev_res u l ⊎ B)))).
  eapply (ph_give (R := R2)); [apply free_irq_live| |].
  { eapply ph_res; [|exact HP1]. unfold owned, R2. multiset_solver. }
  intros s2 HP2. wp_step. wp_step.
  eapply (ph_chip (hw := false)); [apply total_disable_crg|done|exact HP2|]. intros [] s3 HP3.
  wp_step. wp_step. eapply ph_destroy; [exact Hu|exact HP3|]. intros rc s4 HP4.
  wp_step. eapply ph_window_exit; [exact Hu|exact HP4|]. intros s5 HP5.
  apply bind_assoc. wp_step.
  set (R3 := regs_res u ⊎ (dev_res u ⊎ (cdev_res u l ⊎ B))).
  eapply (ph_dma_off (R := R3)); [done|done|exact HP5|]. intros s6 HP6. wp_step.
  eapply (ph_give (R := {[+ Bar 0 +]} ⊎ (dev_res u ⊎ (cdev_res u l ⊎ B)))); [apply pci_iounmap_live| |].
  { eapply ph_res; [|exact HP6]. unfold R3, regs_res. multiset_solver. }
  intros s7 HP7. wp_step. eapply ph_give; [apply release_region_live|exact HP7|]. intros s8 HP8. wp_step.
  set (R4 := {[+ Block (bd_self (u_dev u)) +]} ⊎ B).
  eapply (ph_give (R := cdev_res u l ⊎ R4)); [apply disable_live| |].
  { eapply ph_res; [|exact HP8]. unfold R4, dev_res. multiset_solver. }
  intros s9 HP9. wp_step. eapply ph_remove_devices; [done| |exact HP9|].
  { intros d Hin. specialize (HB d Hin). unfold R4. multiset_solver. }
  intros s10 HP10. wp_step. wp_step. rewrite (ph_class _ _ _ _ HP10). wp_step.
  eapply ph_give_none; [apply class_destroy_live|exact HP10| |].
  { eapply ph_not_held; [exact HP10|]. unfold R4. multiset_solver. }
  intros s11 HP11. eapply (ph_give (Block (bd_self (u_dev u)))); [intros k; apply kfree_live|exact HP11|done].
Qed.

(** * Specifications *)

(** What the module's own fields say it holds; [l] are the minor numbers whose
    device nodes could be created. *)
Definition module_res (s : S) (l : list Z) : gmultiset resource :=
  {[+ IrqLine (bd_irq (vme_bridge s)) +]} ⊎
  ({[+ DevClass (vme_class s) +]} ⊎ {[+ Chrdev VME_MAJOR +]} ⊎ nodes_res l) ⊎
  ({[+ Bar 0 +]} ⊎ {[+ IoMap (regs (vme_bridge s)) +]}) ⊎
  ({[+ PciEnabled +]} ⊎ {[+ Block (bd_self (vme_bridge s)) +]}) ⊎
  (if dma_ok s =? 0 then ∅ else {[+ DmaPool (dma_desc_pool s) +]}).

(** The driver is probed and idle; others hold [B]. *)
Record running B (l : list Z) (s : S) : Prop := {
  rn_nodes : sublist l minors;
  rn_class : DevClass (vme_class s) ∉ B;
  rn_pool : dma_ok s ≠ 0 → dma_desc_pool s ≠ 0 ∧ vdma_ok (d_dma s);
  rn_win : inv (handler_res (verr (br (d_win s))) ⊎ (module_res s l ⊎ B)) (d_win s);
  rn_idle : busy <$> channels (d_dma s) = [0; 0];
  rn_tbl : length (vme_irq_table (d_irq s)) = 256%nat;
  rn_lock : vme_irq_table_lock (d_irq s) = false
}.

(** The module as loaded: zeroed windows, an idle engine, free locks. *)
Record loaded B (s : S) : Prop := {
  ld_win : window_table (d_win s) = boot_table;
  ld_spin : verr_locked (verr (br (d_win s))) = false;
  ld_live : live (kern (br (d_win s))) = B;
  ld_idle : busy <$> channels (d_dma s) = [0; 0];
  ld_tbl : length (vme_irq_table (d_irq s)) = 256%nat;
  ld_lock : vme_irq_table_lock (d_irq s) = false
}.

Definition setup_of (t : option (list window)) (d : bool) (s : S) : setup :=
  mk_setup (vme_bridge s) (dma_ok s) (vme_class s) (dma_desc_pool s) (h_list (verr (br (d_win s)))) t d.

(** Before anything is programmed the chip's decoders do not matter: the
    invariant holds for a quiet chip. *)
Lemma loaded_phase B s : loaded B s → phase false B (setup_of (Some boot_table) false s) s.
Proof.
  intros [L1 L2 L3 L4 L5 L6]. split; try done; [|by intros t [= <-]].
  pose proof (wp_quiesce (chip (br (d_win s)))) as Hq. unfold wp in Hq.
  destruct (tsi148_quiesce (chip (br (d_win s)))) as [[[] c']|]; [|done]. destruct Hq as [Hw _].
  exists c'. split; [done|].
  destruct s as [[[k c v] t a b] dm ir dv vi vs dk vc dp ad cd cb]. simpl in *. subst.
  change (inv (live k) (ST k c' v boot_table a b)).
  apply inv_boot; [|done]. intros i Hi. destruct (Hw i Hi) as [-> _]. apply Z.bits_0.
Qed.

Lemma module_res_owned B u l s :
  u_table u = None → (u_ok u ≠ 0 → u_dma u = true ∧ u_pool u ≠ 0) → phase true (owned u l ⊎ B) u s →
  owned u l = module_res s l.
Proof.
  intros Hu Hd HP. unfold owned, module_res, cdev_res, regs_res, dev_res, dma_res, pool_res.
  rewrite <- (ph_dev _ _ _ _ HP), <- (ph_class _ _ _ _ HP), <- (ph_pool _ _ _ _ HP), <- (ph_ok _ _ _ _ HP).
  rewrite <- (ph_pool _ _ _ _ HP), <- (ph_ok _ _ _ _ HP) in Hd.
  destruct (Z.eqb_spec (dma_ok s) 0) as [E|E]; [multiset_solver|].
  destruct (Hd E) as [_ Hp]. rewrite (proj2 (Z.eqb_neq _ _) Hp). multiset_solver.
Qed.

Lemma running_phase B l s :
  running B l s →
  ∃ u, phase true (owned u l ⊎ (handler_res (verr (br (d_win s))) ⊎ B)) u s ∧ u_table u = None ∧
    (u_ok u ≠ 0 → u_dma u = true ∧ u_pool u ≠ 0) ∧ u_class u = vme_class s ∧
    u_hl u = h_list (verr (br (d_win s))).
Proof.
  intros [R1 R2 R3 R4 R5 R6 R7]. set (u := setup_of None (negb (dma_ok s =? 0)) s). exists u.
  assert (Hd : u_ok u ≠ 0 → u_dma u = true ∧ u_pool u ≠ 0).
  { simpl. intros Hne. rewrite (proj2 (Z.eqb_neq (dma_ok s) 0) Hne). by destruct (R3 Hne). }
  split_and!; try done. split; try done.
  - apply win_inv_true. replace (owned u l ⊎ _) with (handler_res (verr (br (d_win s))) ⊎ (module_res s l ⊎ B)); [done|].
    unfold owned, module_res, cdev_res, regs_res, dev_res, dma_res, pool_res. simpl.
    destruct (Z.eqb_spec (dma_ok s) 0) as [E|E]; [multiset_solver|].
    destruct (Hd E) as [_ Hp]. simpl in Hp. rewrite (proj2 (Z.eqb_neq _ _) Hp). multiset_solver.
  - simpl. destruct (Z.eqb_spec (dma_ok s) 0) as [E|E]; [done|]. intros _. by destruct (R3 E).
Qed.

Lemma phase_running B u l s :
  sublist l minors → u_hl u = [] → u_table u = None →
  (u_ok u ≠ 0 → u_dma u = true ∧ u_pool u ≠ 0) → DevClass (u_class u) ∉ B →
  phase true (owned u l ⊎ B) u s → running B l s ∧ h_list (verr (br (d_win s))) = [].
Proof.
  intros Hl Hh Hu Hd Hc HP. pose proof (module_res_owned _ _ _ _ Hu Hd HP) as Ho.
  destruct HP as [P1 P2 P3 P4 P5 P6 P7 P8 P9 P10 P11]. split; [|congruence]. split; try done.
  - congruence.
  - rewrite P7, P9. intros Hne. destruct (Hd Hne). auto.
  - apply win_inv_true in P1. rewrite <- Ho. unfold handler_res. rewrite P10, Hh. simpl.
    replace (∅ ⊎ (owned u l ⊎ B)) with (owned u l ⊎ B) by multiset_solver. done.
Qed.

(** Handlers are memory, not device nodes or classes. *)
Lemma handlers_not_reg n a (v : vme_verr) : Reg n a ∉ handler_res v.
Proof.
  unfold handler_res. rewrite elem_of_list_to_set_disj, list_elem_of_fmap. by intros (x & ? & _).
Qed.

(** Removing the running module gives everything back but the bus error handlers
    of other modules and the windows whose destruction a signal interrupted. *)
Lemma wp_remove_running B l s :
  no_nodes B → running B l s →
  wp vme_bridge_remove (λ _ s', live (kern (br (d_win s'))) =
    table_res (window_table (d_win s')) ⊎ (handler_res (verr (br (d_win s'))) ⊎ B)) s.
Proof.
  intros HB HR. pose proof (rn_nodes _ _ _ HR) as Hl. pose proof (rn_class _ _ _ HR) as Hc.
  apply running_phase in HR as (u & HP & Hu & Hd & Ec & Eh).
  eapply wp_mono; [eapply (wp_bridge_remove (u := u) (l := l)); [|done|done|done| |exact HP]|].
  - intros d Hin. specialize (HB d Hin). pose proof (handlers_not_reg 5 (minor d) (verr (br (d_win s)))).
    multiset_solver.
  - rewrite Ec. pose proof (handlers_not_reg 3 (vme_class s) (verr (br (d_win s)))). multiset_solver.
  - intros [] s' HP'. rewrite (win_inv_live _ _ _ (ph_win _ _ _ _ HP')).
    assert (E : h_list (verr (br (d_win s'))) = h_list (verr (br (d_win s)))).
    { rewrite (ph_hl _ _ _ _ HP'). congruence. }
    unfold handler_res. by rewrite E.
Qed.

(** Events keep the driver running. *)
Lemma wp_running_events B l evs s :
  running B l s → Forall (event_ok (dma_ok s)) evs →
  wp (handle_all evs) (λ _ s', running B l s') s.
Proof.
  intros [R1 R2 R3 R4 R5 R6 R7] Hev. eapply wp_mono.
  { apply (wp_handle_all (module_res s l ⊎ B)); [|done]. split; try done. intros Hne. apply R3, Hne. }
  intros [] s' [[I1 I2 I3 I4 I5] (E1 & E2 & E3 & E4)].
  assert (Em : module_res s' l = module_res s l) by (unfold module_res; by rewrite E1, E2, E3, E4).
  split; try done.
  - by rewrite E3.
  - rewrite E2, E4 in *. intros Hne. split; [by apply R3|auto].
  - by rewrite Em.
Qed.

Section with_bus_theorems.
Variable ioread32_vme : Z → C → Z * C.
Hypothesis bus_reads : ∀ va c, same_decode c (ioread32_vme va c).2.

(** C4 Probing.  From the loaded module [vme_bridge_init] always returns, whatever
    the hardware and the kernel answer.  With 0 the driver is running: the windows,
    the engine and the vector table are in order, and besides what others held the
    kernel holds what the module's fields say and nothing else.  With an
    error everything is given back except, on some paths, the bridge descriptor,
    BAR 0 or the DMA pool, and a window made for the CRG. *)
Theorem probe_spec B (pdev : pci_dev) (cur : task) (s : S) :
  loaded B s → no_nodes B →
  wp (vme_bridge_init ioread32_vme pdev cur) (λ rc s',
    (rc = 0 ∧ ∃ l, running B l s' ∧ h_list (verr (br (d_win s'))) = []) ∨
    (rc < 0 ∧ ∃ L, leak L ∧
       live (kern (br (d_win s'))) = table_res (window_table (d_win s')) ⊎ (L ⊎ B))) s.
Proof.
  intros HL HB. eapply wp_mono.
  { eapply (wp_bridge_init ioread32_vme bus_reads); [done| | |by apply loaded_phase]; done. }
  intros rc s' [(-> & u & l & Hl & Hh & Hu & Hd & Hc & HP)|(Hrc & hw & u & L & Hk & HP)].
  - left. split; [done|]. exists l. by eapply phase_running.
  - right. split; [done|]. exists L. split; [done|]. apply (win_inv_live _ _ _ (ph_win _ _ _ _ HP)).
Qed.

End with_bus_theorems.
End spec.

(** * Dispatch *)

Section dispatch.
Context {K C : Type}.
Notation S := (drv_state K C).

(** The devices by minor number.  [vme_open] accepts the window, control and
    register devices always and the DMA device exactly when there is an engine,
    and changes nothing.  Reads and writes never succeed: the first four minors
    refuse them (the control device, minor 3, is tested with the flags of the
    register device, which is entry 3), and for the register device, the only
    one with a read routine, the test of its flags indexes the four-entry
    device list with the minor number 4. *)
Theorem dispatch_by_minor (s : S) :
  (∀ n, wp (vme_open n) (λ rc s', s' = s ∧ (rc = 0 ∨ rc = - ENODEV ∨ rc = - ENXIO) ∧
     (rc = 0 ↔ n ∈ minors ∧ (n = VME_MINOR_DMA → dma_ok s ≠ 0))) s) ∧
  (∀ n, 0 <= n < 4 → let err := if n =? VME_MINOR_CTL then - ENXIO else - ENODEV in
     wp (vme_read n) (λ rc s', rc = err ∧ s' = s) s ∧
     wp (vme_write n) (λ rc s', rc = err ∧ s' = s) s) ∧
  vme_read VME_MINOR_REGS s = None ∧ vme_write VME_MINOR_REGS s = None.
Proof.
  split_and!; [| |done|done].
  2: { intros n Hn. assert (n = 0 ∨ n = 1 ∨ n = 2 ∨ n = 3) as [->|[->|[->| ->]]] by lia;
       split; vm_compute; split; reflexivity. }
  intros n. unfold vme_open. change minors with [0; 1; 3; 4].
  change VME_MINOR_MWINDOW with 0. change VME_MINOR_DMA with 1.
  change VME_MINOR_CTL with 3. change VME_MINOR_REGS with 4.
  assert (Hin : n ∈ [0; 1; 3; 4] ↔ n = 0 ∨ n = 1 ∨ n = 3 ∨ n = 4) by set_solver.
  repeat wp_step; unfold truthy, ENODEV, ENXIO in *; (split; [done|]); (split; [auto|]); rewrite Hin; lia.
Qed.
End dispatch.

(** * Witnesses *)

Notation sim_S := (drv_state SimKernel.kernel LatchChip.chip).

(** A TSI148, seen from a little-endian host. *)
Definition sim_tsi148 : LatchChip.chip := λ r, if decide (r = PCFS_ID) then 0xe3104801 else 0.

(** The module as loaded, over the chip [c]. *)
Definition sim_loaded (c : LatchChip.chip) : sim_S :=
  let b := mk_bridge SimKernel.boot c
    (mk_vme_verr false (mk_vme_bus_error_desc (mk_vme_bus_error 0 0) 0) []) in
  mk_drv_state (mk_wstate b boot_table 0 0)
    (mk_vdma_state b ∅ [sim_channel 0 []; sim_channel 1 []] 2 false 0 [0; 0])
    (mk_irq_state b (replicate 256 no_irq) false (λ _, 0) 0 [])
    (mk_vme_bridge_device 0 0 0 0 0 0) 0 (-1) 0 0 0 zero_mapping zero_mapping 0.

Definition sim_pdev : pci_dev :=
  mk_pci_dev 0x51 1 [None; Some (mk_bus_resource 0x80000000 0x8fffffff IORESOURCE_MEM)].

(** The bus answers the CRG's id word. *)
Definition sim_bus_read (_ : Z) (c : LatchChip.chip) : Z * LatchChip.chip := (0x014810e3, c).

Lemma sim_loaded_ok c : loaded (live SimKernel.boot) (sim_loaded c).
Proof. by split. Qed.

(** A successful probe. *)
Example sim_probe :
  fst <$> vme_bridge_init sim_bus_read sim_pdev (mk_task 1 "insmod") (sim_loaded sim_tsi148) = Some 0.
Proof. vm_compute. reflexivity. Qed.

Lemma sim_bus_reads va c : same_decode c (sim_bus_read va c).2.
Proof. by intros r _. Qed.

Lemma sim_no_nodes : no_nodes (live SimKernel.boot).
Proof. intros d _. apply gmultiset_not_elem_of_empty. Qed.

(** A running module: every resource taken, no windows. *)
Definition sim_held : list resource :=
  [IrqLine 0x51; DevClass 2; Chrdev VME_MAJOR; DevNode 0; DevNode 1; DevNode 3; DevNode 4;
   Bar 0; IoMap 0x1000; PciEnabled; Block 1; DmaPool 3].

Definition sim_ready : sim_S :=
  let b := mk_bridge (SimKernel.mk_kernel [] sim_held) sim_tsi148
    (mk_vme_verr false (mk_vme_bus_error_desc (mk_vme_bus_error 0 0) 0) []) in
  mk_drv_state (mk_wstate b boot_table 0 0)
    (mk_vdma_state b ∅ [sim_channel 0 []; sim_channel 1 []] 2 false 0 [0; 0])
    (mk_irq_state b (replicate 256 no_irq) false (λ _, 0) 0 [])
    (mk_vme_bridge_device 1 0 0x51 0 0 0x1000) 0x51 0 1 2 3 zero_mapping zero_mapping 0.

Lemma sim_ready_ok : running ∅ minors sim_ready.
Proof.
  split; try done.
  - apply gmultiset_not_elem_of_empty.
  - intros _. split; [done|]. split; [done|done|]. intros [|[|i]] ch Hch; [..|done]; injection Hch as <-; split; auto.
  - assert (E : handler_res (verr (br (d_win sim_ready))) ⊎ (module_res sim_ready minors ⊎ ∅) =
      live (kern (br (d_win sim_ready)))) by (apply (bool_decide_unpack _); vm_compute; done).
    rewrite E. apply inv_boot; [|done]. intros i _. apply Z.testbit_0_l.
Qed.

Lemma probe_spec_witness :
  wp (S := sim_S) (vme_bridge_init sim_bus_read sim_pdev (mk_task 1 "insmod")) (λ rc _, rc <= 0)
    (sim_loaded sim_tsi148).
Proof.
  eapply wp_mono; [apply (probe_spec sim_bus_read sim_bus_reads (live SimKernel.boot))|].
  - apply sim_loaded_ok.
  - exact sim_no_nodes.
  - intros rc s' [[-> _]|[H _]]; [done|lia].
Defined.

(** Opening, a window, an unknown request, an interrupt, and away. *)
Definition sim_events : list event :=
  [EOpen 0; EIoctl 0 7 (mk_task 1 "a") (WindowIoctl UNKNOWN_IOCTL) 0;
   EWindowCall (KFindMapping sim_desc 1 (mk_task 1 "a")); ERequestIrq 0x43 0x2000 0 None;
   EInterrupt 4; ERelease 0 7].

Lemma sim_events_ok ok : Forall (event_ok (K := SimKernel.kernel) ok) sim_events.
Proof. repeat constructor; vm_compute; congruence. Qed.



Lemma dispatch_by_minor_witness :
  wp (S := sim_S) (vme_read 3) (λ rc _, rc = - ENXIO) sim_ready.
Proof.
  destruct (dispatch_by_minor sim_ready) as (_ & H & _).
  eapply wp_mono; [apply (H 3); lia|]. by intros rc s' [-> _].
Defined.
