(* ===== verification/MttText.v ===== *)
(** C strings and numbers as the MTT tools use them: [strtoul], the [%X] and
    [%d] conversions of [sprintf], and that reading a printed number gives it
    back.

    A C string is the list of its characters, without the final NUL. *)
From Stdlib Require Import Ascii String.
From S2P Require Import Prelude.

Local Open Scope Z_scope.

Notation text := (list ascii).

(** The characters of a literal. *)
Definition str (s : string) : text := list_ascii_of_string s.

Definition code (c : ascii) : Z := Z.of_N (N_of_ascii c).
Definition char (z : Z) : ascii := ascii_of_N (Z.to_N z).

Definition between (lo hi : Z) (c : ascii) : bool := (lo <=? code c) && (code c <=? hi).
Definition isdigit := between 48 57.

(** * [strtoul] *)

Definition isspace (c : ascii) : bool := between 9 13 c || (code c =? 32).

(** The value of a character as a digit of any base. *)
Definition digit_val (c : ascii) : option Z :=
  if isdigit c then Some (code c - 48)
  else if between 65 90 c then Some (code c - 55)
  else if between 97 122 c then Some (code c - 87)
  else None.

Definition is_digit_of (base : Z) (c : ascii) : bool :=
  match digit_val c with Some d => d <? base | None => false end.

(** Read digits as far as they go: the exact value and the rest. *)
Fixpoint digits (base : Z) (acc : Z) (l : text) : Z * text :=
  match l with
  | c :: l' =>
    match digit_val c with
    | Some d => if d <? base then digits base (acc * base + d) l' else (acc, l)
    | None => (acc, l)
    end
  | [] => (acc, [])
  end.

Fixpoint skip_spaces (l : text) : text :=
  match l with
  | c :: l' => if isspace c then skip_spaces l' else l
  | [] => []
  end.

Definition take_sign (l : text) : bool * text :=
  match l with
  | c :: l' => if code c =? 45 then (true, l') else if code c =? 43 then (false, l') else (false, l)
  | [] => (false, [])
  end.

(** The base of a number, as base 0 chooses it, and its digits. *)
Definition take_base (l : text) : Z * text :=
  match l with
  | z :: x :: h :: l' =>
    if (code z =? 48) && ((code x =? 120) || (code x =? 88)) && is_digit_of 16 h then (16, h :: l')
    else if code z =? 48 then (8, l) else (10, l)
  | z :: _ => if code z =? 48 then (8, l) else (10, l)
  | [] => (10, [])
  end.

(** [unsigned long] has [2 ^ 64] values. *)
Definition ULONG_MAX : Z := 2 ^ 64 - 1.

(** [strtoul(cp, &ep, 0)]: the value and the text at [ep]; without digits the
    value is 0 and [ep] is [cp]; out of range the value is [ULONG_MAX]. *)
Definition strtoul (cp : text) : Z * text :=
  let '(neg, l) := take_sign (skip_spaces cp) in
  let '(base, l) := take_base l in
  match l with
  | c :: _ =>
    if is_digit_of base c then
      let '(v, ep) := digits base 0 l in
      (if v >? ULONG_MAX then ULONG_MAX else if neg : bool then u64 (- v) else v, ep)
    else (0, cp)
  | [] => (0, cp)
  end.

(** * Conversions *)

(** A [long] is 64 bits wide. *)
Definition s64 (x : Z) : Z := (x + 2 ^ 63) mod 2 ^ 64 - 2 ^ 63.

Definition digit_char (d : Z) : ascii := char (if d <? 10 then 48 + d else 55 + d).

(** The digits of [n] without leading zeros; [k] bounds their number. *)
Fixpoint print (base : Z) (k : nat) (n : Z) : text :=
  match k with
  | O => []
  | Datatypes.S k => (if n <? base then [] else print base k (n / base)) ++ [digit_char (n mod base)]
  end.

(** [%X] of an [int]: up to 8 digits; [0x%X]. *)
Definition hex (n : Z) : text := print 16 8 (u32 n).
Definition hex0x (n : Z) : text := str "0x" ++ hex n.

(** [%d] of a non-negative [int]. *)
Definition dec (n : Z) : text := print 10 10 n.

(** * Reading a printed number *)

Lemma code_char z : 0 <= z < 256 → code (char z) = z.
Proof.
  intros Hz. unfold code, char. rewrite N_ascii_embedding; lia.
Qed.

Lemma digit_char_val d : 0 <= d < 16 → digit_val (digit_char d) = Some d.
Proof.
  intros Hd. assert (HF : Forall (λ d, digit_val (digit_char d) = Some d) (seqZ 0 16))
    by (by apply (bool_decide_unpack _)).
  eapply List.Forall_forall in HF; [exact HF|]. apply list_elem_of_In, elem_of_seqZ. lia.
Qed.

Lemma digits_print base k : 2 <= base <= 16 → ∀ n rest,
  0 <= n < base ^ Z.of_nat k → (0 < k)%nat →
  ∀ acc, ∃ p, digits base acc (print base k n ++ rest) = digits base (acc * p + n) rest ∧ 0 < p.
Proof.
  intros Hb. induction k as [|k IH]; intros n rest Hn Hk acc; [lia|].
  cbn [print]. rewrite <- app_assoc. cbn [app].
  assert (Hlast : ∀ acc, digits base acc (digit_char (n mod base) :: rest) =
    digits base (acc * base + n mod base) rest).
  { intros a. cbn [digits]. pose proof (Z.mod_pos_bound n base ltac:(lia)).
    rewrite digit_char_val by lia. by rewrite (proj2 (Z.ltb_lt _ _)) by lia. }
  destruct (Z.ltb_spec n base) as [Hlt|Hge].
  - exists base. cbn [app]. rewrite Hlast, Z.mod_small by lia. split; [done|lia].
  - assert (Hk' : (0 < k)%nat) by (destruct k; [rewrite Z.pow_1_r in Hn; lia|lia]).
    assert (Hq : 0 <= n / base < base ^ Z.of_nat k).
    { rewrite Nat2Z.inj_succ, Z.pow_succ_r in Hn by lia.
      split; [apply Z.div_pos; lia|apply Z.div_lt_upper_bound; lia]. }
    destruct (IH (n / base) (digit_char (n mod base) :: rest) Hq Hk' acc) as (p & E & Hp).
    exists (p * base). rewrite E, Hlast. split; [|lia]. f_equal.
    rewrite (Z.div_mod n base) at 3 by lia. ring.
Qed.

(** The first character of a printed number is a digit. *)
Lemma print_head base k n :
  2 <= base <= 16 → 0 <= n → (0 < k)%nat →
  ∃ d l, print base k n = digit_char d :: l ∧ 0 <= d < base.
Proof.
  intros Hb. revert n. induction k as [|k IH]; intros n Hn Hk; [lia|]. cbn [print].
  pose proof (Z.mod_pos_bound n base ltac:(lia)).
  destruct (Z.ltb_spec n base) as [Hlt|Hge]; [by eexists _, []|].
  destruct (decide (k = 0)%nat) as [->|Hk0]; [by eexists _, []|].
  destruct (IH (n / base)) as (d & l & -> & Hd); [apply Z.div_pos; lia|lia|].
  by eexists _, _.
Qed.

Definition no_digit (base : Z) (rest : text) : Prop :=
  match rest with c :: _ => is_digit_of base c = false | [] => True end.

Lemma digits_stop base acc rest : no_digit base rest → digits base acc rest = (acc, rest).
Proof.
  destruct rest as [|c rest]; [done|]. unfold no_digit, is_digit_of. cbn [digits].
  destruct (digit_val c); [|done]. by intros ->.
Qed.

Lemma is_digit_of_char base d : 0 <= d < base → base <= 16 → is_digit_of base (digit_char d) = true.
Proof.
  intros Hd Hb. unfold is_digit_of. rewrite digit_char_val by lia. apply Z.ltb_lt; lia.
Qed.

Lemma skip_spaces_app ws l : Forall (λ c, isspace c = true) ws → skip_spaces (ws ++ l) = skip_spaces l.
Proof. induction 1 as [|c ws Hc _ IH]; [done|]. cbn [app skip_spaces]. by rewrite Hc. Qed.

(** Reading what [0x%X] printed, after white space. *)
Lemma strtoul_hex ws n rest :
  Forall (λ c, isspace c = true) ws → no_digit 16 rest →
  strtoul (ws ++ hex0x n ++ rest) = (u32 n, rest).
Proof.
  intros Hws Hr. pose proof (u32_range n) as Hn. unfold hex0x, hex. generalize dependent (u32 n).
  intros m Hm. unfold strtoul. rewrite skip_spaces_app by done.
  generalize (ws ++ (str "0x" ++ print 16 8 m) ++ rest) as cp. intros cp.
  rewrite <- app_assoc. change (str "0x") with [char 48; char 120]. cbn [app].
  destruct (print_head 16 8 m) as (d & l & E & Hd); [lia|unfold is_u32 in Hm; lia|lia|].
  destruct (digits_print 16 8 ltac:(lia) m rest) with (acc := 0) as (p & Ed & _);
    [unfold is_u32 in Hm; lia|lia|].
  cbn [skip_spaces]. change (isspace (char 48)) with false. cbv iota.
  cbn [take_sign]. change (code (char 48)) with 48. cbv beta iota zeta.
  change (48 =? 45) with false. change (48 =? 43) with false. cbv iota.
  rewrite E in *. cbn [app take_base] in *. change (code (char 48)) with 48. change (code (char 120)) with 120.
  rewrite (is_digit_of_char 16 d) by lia. cbn [Z.eqb Pos.eqb andb orb].
  rewrite (is_digit_of_char 16 d) by lia. rewrite Ed, digits_stop by done.
  replace (0 * p + m) with m by lia. unfold ULONG_MAX, is_u32 in *.
  destruct (Z.gtb_spec m (2 ^ 64 - 1)); [lia|done].
Qed.

Lemma length_print base k n : (length (print base k n) <= k)%nat.
Proof.
  revert n. induction k as [|k IH]; intros n; [done|]. cbn [print]. rewrite length_app. simpl.
  destruct (n <? base); simpl; [lia|]. specialize (IH (n / base)). lia.
Qed.

Lemma length_hex0x n : (length (hex0x n) <= 10)%nat.
Proof. unfold hex0x, hex. rewrite length_app. pose proof (length_print 16 8 (u32 n)). change (length (str "0x")) with 2%nat. lia. Qed.

(** The characters of a number. *)
Lemma print_chars base k n :
  2 <= base <= 16 → 0 <= n → Forall (λ c, ∃ d, 0 <= d < base ∧ c = digit_char d) (print base k n).
Proof.
  intros Hb. revert n. induction k as [|k IH]; intros n Hn; [constructor|]. cbn [print].
  apply Forall_app. split.
  - destruct (n <? base); [constructor|]. apply IH. apply Z.div_pos; lia.
  - constructor; [|constructor]. eexists. split; [|done]. apply Z.mod_pos_bound; lia.
Qed.
