(* ===== verification/MttIsa.v ===== *)
(** The multi-tasking timing module (MTT): its instruction set, its
    registers and the C string functions its tools use
    ([src/mttn/include/opcodes.h], [asm.h], [src/mttn/lib/opcodes.c], the
    register lookups of [src/mttn/tools/asm.c] and [emu.c]).

    The register names print and read back: [register_name_cases]. *)
From Stdlib Require Import Ascii String.
From S2P Require Import Prelude MttText.

Local Open Scope Z_scope.

(** * Instructions *)

Inductive ArgType := AtNothing | AtLiteral | AtAddress | AtRegister.

(** [OpCode] *)
Record OpCode := mk_OpCode {
  op_Name : string;
  op_Comment : string;
  op_Number : Z;
  op_Src1 : ArgType;
  op_Src2 : ArgType;
  op_Dest : ArgType
}.

(** [Instruction]: [Dest], [Src2], [Number] and [Crc] are bytes, [Src1] is a
    [long]. *)
Record Instruction := mk_Instruction {
  Dest : Z;
  Src2 : Z;
  Number : Z;
  Crc : Z;
  Src1 : Z
}.

Record ProgramBuf := mk_ProgramBuf {
  LoadAddress : Z;
  InstructionCount : Z;
  Program : list Instruction
}.

(** [IdNumber] *)
Definition HALT : Z := 0x00.
Definition NOOP : Z := 0x4d.
Definition INT : Z := 0xC1.
Definition WEQV : Z := 0x91.
Definition WEQR : Z := 0x11.
Definition WRLV : Z := 0x92.
Definition WRLR : Z := 0x12.
Definition WORV : Z := 0x93.
Definition WORR : Z := 0x13.
Definition MOVV : Z := 0xe2.
Definition MOVR : Z := 0x62.
Definition MOVIR : Z := 0x64.
Definition MOVRI : Z := 0x65.
Definition ADDV : Z := 0xe6.
Definition ADDR : Z := 0x66.
Definition SUBV : Z := 0xe7.
Definition SUBR : Z := 0x67.
Definition LORV : Z := 0xe8.
Definition LORR : Z := 0x68.
Definition ANDV : Z := 0xe9.
Definition ANDR : Z := 0x69.
Definition XORV : Z := 0xea.
Definition XORR : Z := 0x6a.
Definition LSV : Z := 0xeb.
Definition LSR : Z := 0x6b.
Definition RSV : Z := 0xec.
Definition RSR : Z := 0x6c.
Definition WDOG : Z := 0x34.
Definition JMP : Z := 0x85.
Definition BEQ : Z := 0x86.
Definition BNE : Z := 0x87.
Definition BLT : Z := 0x88.
Definition BGT : Z := 0x89.
Definition BLE : Z := 0x8a.
Definition BGE : Z := 0x8b.
Definition BCR : Z := 0x8c.

(** [InstructionSet] *)
Definition InstructionSet : list OpCode := [
  mk_OpCode "HALT" "Stop program" HALT AtNothing AtNothing AtNothing;
  mk_OpCode "NOOP" "No operation" NOOP AtNothing AtNothing AtNothing;
  mk_OpCode "INT" "Interrupt[1..16]" INT AtLiteral AtNothing AtNothing;
  mk_OpCode "WEQV" "Wait value equal" WEQV AtLiteral AtRegister AtNothing;
  mk_OpCode "WRLV" "Wait value relative" WRLV AtLiteral AtRegister AtNothing;
  mk_OpCode "WORV" "Wait value bit mask" WORV AtLiteral AtRegister AtNothing;
  mk_OpCode "WEQR" "Wait register equal" WEQR AtRegister AtRegister AtNothing;
  mk_OpCode "WRLR" "Wait register relative" WRLR AtRegister AtRegister AtNothing;
  mk_OpCode "WORR" "Wait register bit mask" WORR AtRegister AtRegister AtNothing;
  mk_OpCode "MOVV" "Load register" MOVV AtLiteral AtNothing AtRegister;
  mk_OpCode "MOVR" "Move register" MOVR AtRegister AtNothing AtRegister;
  mk_OpCode "MOVIR" "Move Index register" MOVIR AtRegister AtNothing AtRegister;
  mk_OpCode "MOVRI" "Move register Index" MOVRI AtRegister AtRegister AtNothing;
  mk_OpCode "ADDR" "Add register" ADDR AtRegister AtRegister AtRegister;
  mk_OpCode "SUBR" "Subtract register" SUBR AtRegister AtRegister AtRegister;
  mk_OpCode "LORR" "Or register" LORR AtRegister AtRegister AtRegister;
  mk_OpCode "ANDR" "And register" ANDR AtRegister AtRegister AtRegister;
  mk_OpCode "XORR" "ExclusiveOr register" XORR AtRegister AtRegister AtRegister;
  mk_OpCode "LSR" "LeftShift register" LSR AtRegister AtRegister AtRegister;
  mk_OpCode "RSR" "RightShift register" RSR AtRegister AtRegister AtRegister;
  mk_OpCode "ADDV" "Add value" ADDV AtLiteral AtRegister AtRegister;
  mk_OpCode "SUBV" "Subtract value" SUBV AtLiteral AtRegister AtRegister;
  mk_OpCode "LORV" "Or value" LORV AtLiteral AtRegister AtRegister;
  mk_OpCode "ANDV" "And value" ANDV AtLiteral AtRegister AtRegister;
  mk_OpCode "XORV" "ExclusiveOr value" XORV AtLiteral AtRegister AtRegister;
  mk_OpCode "LSV" "LeftShift value" LSV AtLiteral AtRegister AtRegister;
  mk_OpCode "RSV" "RightShift value" RSV AtLiteral AtRegister AtRegister;
  mk_OpCode "WDOG" "Watch Dod" WDOG AtAddress AtNothing AtNothing;
  mk_OpCode "JMP" "Jump" JMP AtAddress AtNothing AtNothing;
  mk_OpCode "BEQ" "Branch Equal" BEQ AtAddress AtNothing AtNothing;
  mk_OpCode "BNE" "Branch NotEqual" BNE AtAddress AtNothing AtNothing;
  mk_OpCode "BLT" "Branch LessThan" BLT AtAddress AtNothing AtNothing;
  mk_OpCode "BGT" "Branch GreaterThan" BGT AtAddress AtNothing AtNothing;
  mk_OpCode "BLE" "Branch LessThanEqual" BLE AtAddress AtNothing AtNothing;
  mk_OpCode "BGE" "Branch GreaterThanEqual" BGE AtAddress AtNothing AtNothing;
  mk_OpCode "BCR" "Branch Carry" BCR AtAddress AtNothing AtNothing].

(** * Registers *)

Record RegisterDsc := mk_RegisterDsc {
  rd_Name : string;
  rd_Comment : string;
  Start : Z;
  End_ : Z;
  Offset : Z;
  LorG : Z
}.

Definition GLOBAL_REG : Z := 1.
Definition LOCAL_REG : Z := 2.
Definition GAdrGR01 : Z := 0.
Definition LastGAdrGR : Z := 211.
Definition GAdrOUTPUTS : Z := 212.
Definition GAdrEVIN : Z := 213.
Definition GAdrEVINCNT : Z := 214.
Definition GAdrEVOUTCNT : Z := 215.
Definition GAdrEVOUTFB : Z := 216.
Definition GAdrEVOUTL : Z := 217.
Definition GAdrMSMR : Z := 218.
Definition GAdrTSYNC : Z := 219.
Definition GAdrVMEP2 : Z := 220.
Definition GAdrEVOUTH : Z := 221.
Definition GAdrMSFR : Z := 222.
Definition GAdrSYNCFR : Z := 223.
Definition LAdrINDEX : Z := 224.
Definition LAdrLR01 : Z := 225.
Definition LastLAdrLR : Z := 255.

Definition Regs : list RegisterDsc := [
  mk_RegisterDsc "GR" "Global" GAdrGR01 LastGAdrGR 1 GLOBAL_REG;
  mk_RegisterDsc "OUTPUTS" "Control of outputs" GAdrOUTPUTS GAdrOUTPUTS 0 GLOBAL_REG;
  mk_RegisterDsc "EVIN" "Event input" GAdrEVIN GAdrEVIN 0 GLOBAL_REG;
  mk_RegisterDsc "EVINCNT" "Event input counter" GAdrEVINCNT GAdrEVINCNT 0 GLOBAL_REG;
  mk_RegisterDsc "EVOUTCNT" "Event output counter" GAdrEVOUTCNT GAdrEVOUTCNT 0 GLOBAL_REG;
  mk_RegisterDsc "EVOUTFB" "Event output feed back" GAdrEVOUTFB GAdrEVOUTFB 0 GLOBAL_REG;
  mk_RegisterDsc "EVOUTL" "Event output low priority" GAdrEVOUTL GAdrEVOUTL 0 GLOBAL_REG;
  mk_RegisterDsc "MSMR" "MilliSecond modulo" GAdrMSMR GAdrMSMR 0 GLOBAL_REG;
  mk_RegisterDsc "TSYNC" "Time from sync" GAdrTSYNC GAdrTSYNC 0 GLOBAL_REG;
  mk_RegisterDsc "VMEP2" "VME P2 input" GAdrVMEP2 GAdrVMEP2 0 GLOBAL_REG;
  mk_RegisterDsc "EVOUTH" "Event output high priority" GAdrEVOUTH GAdrEVOUTH 0 GLOBAL_REG;
  mk_RegisterDsc "MSFR" "Free running milliSecond" GAdrMSFR GAdrMSFR 0 GLOBAL_REG;
  mk_RegisterDsc "SYNCFR" "Free running Sync time" GAdrSYNCFR GAdrSYNCFR 0 GLOBAL_REG;
  mk_RegisterDsc "INDEX" "Index address" LAdrINDEX LAdrINDEX 0 LOCAL_REG;
  mk_RegisterDsc "LR" "Local" LAdrLR01 LastLAdrLR 1 LOCAL_REG].

(** * Characters and atoms *)

Inductive AtomType :=
  | Seperator | Operator | Open | Close | Comment | Numeric | Alpha
  | Open_index | Close_index | Illegal_char | Terminator | Bit
  | Op_code | Register | Expression | Not_set.

#[global] Instance AtomType_dec : EqDecision AtomType.
Proof. solve_decision. Defined.

(** The values of the enumeration. *)
Definition AtomTypes : list AtomType :=
  [Seperator; Operator; Open; Close; Comment; Numeric; Alpha; Open_index; Close_index;
   Illegal_char; Terminator; Bit; Op_code; Register; Expression; Not_set].

(** The first half of the table; a [char] is signed, so the code never gets to
    the other half. *)
Definition atomhash_table : list nat := [
  10;9;9;9;9;9;9;9;9;0;0;9;9;0;9 ;9;9;9;9;9;9;9;9;9;9;9;9;9;9;9;9;9;
  0 ;1;9;4;9;4;1;9;2;3;1;1;0;1;11;1;5;5;5;5;5;5;5;5;5;5;1;1;1;1;1;1;
  10;6;6;6;6;6;6;6;6;6;6;6;6;6;6 ;6;6;6;6;6;6;6;6;6;6;6;6;7;9;8;9;6;
  9 ;6;6;6;6;6;6;6;6;6;6;6;6;6;6 ;6;6;6;6;6;6;6;6;6;6;6;6;9;9;9;1;9]%nat.

(** [atomhash[(int) c]]: a character above 127 is a negative index. *)
Definition atomhash (c : ascii) : option AtomType :=
  atomhash_table !! Z.to_nat (code c) ≫= (AtomTypes !!.).

(** [StrToUpper] *)
Definition upper_char (c : ascii) : option ascii :=
  (λ at_, if bool_decide (at_ = Alpha) && (97 <=? code c) then char (code c - 32) else c) <$> atomhash c.
Definition StrToUpper (inp : text) : option text := mapM upper_char inp.

(** [strncmp(s, name, strlen(name)) == 0] *)
Fixpoint starts_with (name s : text) : bool :=
  match name, s with
  | [], _ => true
  | a :: name, b :: s => bool_decide (a = b) && starts_with name s
  | _, [] => false
  end.

(** * Lookups *)

Definition MAX_OP_CODE_STRING_LENGTH : nat := 8.
Definition MAX_REGISTER_STRING_LENGTH : nat := 8.

(** [LookUpOpCode]: the index in the instruction set; [None] outside is a
    character out of the table, [Some None] is not found. *)
Definition LookUpOpCode (cp : text) : option (option nat) :=
  if (length cp <=? MAX_OP_CODE_STRING_LENGTH)%nat then
    upr ← StrToUpper cp;
    Some (find_idx (λ o, bool_decide (upr = str (op_Name o))) InstructionSet)
  else Some None.

(** The number that follows the name of a register range. *)
Definition range_number (d : RegisterDsc) (txt : text) : option Z :=
  if (String.length (rd_Name d) <? length txt)%nat then
    let cp := drop (String.length (rd_Name d)) txt in
    let '(rn, ep) := strtoul cp in
    if bool_decide (length ep = length cp) then None
    else if (Offset d <=? rn) && (rn <=? End_ d - Start d + Offset d)
    then Some (Start d + rn - Offset d) else None
  else None.

(** The search in a range: the first entry that accepts the name. *)
Fixpoint range_search (l : list RegisterDsc) (upr txt : text) : option Z :=
  match l with
  | [] => None
  | d :: l =>
    if starts_with (str (rd_Name d)) upr then
      if Start d <? End_ d then
        match range_number d txt with
        | Some r => Some r
        | None => range_search l upr txt
        end
      else Some (Start d)
    else range_search l upr txt
  end.

(** [LookUpRegister] of asm.c: a perfect match first. *)
Definition LookUpRegister (txt : text) : option (option Z) :=
  if (length txt <=? MAX_REGISTER_STRING_LENGTH)%nat then
    upr ← StrToUpper txt;
    Some (match find_idx (λ d, bool_decide (upr = str (rd_Name d))) Regs with
          | Some i => Start <$> Regs !! i
          | None => range_search Regs upr txt
          end)
  else Some None.

(** [StringToReg] of emu.c: no perfect match, and 0 when nothing is found. *)
Definition StringToReg (name : text) : option Z :=
  if (length name <=? MAX_REGISTER_STRING_LENGTH)%nat then
    upr ← StrToUpper name;
    Some (default 0 (range_search Regs upr name))
  else Some 0.

(** [GetRegisterName] of asm.c and [RegToString] of emu.c. *)
Definition GetRegisterName (regnum : Z) : text :=
  match find_idx (λ d, (Start d <=? regnum) && (regnum <=? End_ d)) Regs with
  | Some i =>
    match Regs !! i with
    | Some d =>
      if Start d <? End_ d then str (rd_Name d) ++ dec (regnum - Start d + Offset d)
      else str (rd_Name d)
    | None => str "???"
    end
  | None => str "???"
  end.

(** The opcode of a number: the search of [InstToStr], [Emulate] and
    [DisAssemble]. *)
Definition find_opcode (n : Z) : option OpCode :=
  i ← find_idx (λ o, op_Number o =? n) InstructionSet; InstructionSet !! i.

(** * Tables *)

(** A property of the 256 registers, checked one by one. *)
Lemma all_registers (P : Z → Prop) `{!∀ r, Decision (P r)} :
  bool_decide (Forall P (seqZ 0 256)) = true → ∀ r, 0 <= r < 256 → P r.
Proof.
  intros Ha%bool_decide_eq_true r Hr. eapply List.Forall_forall in Ha; [exact Ha|].
  apply list_elem_of_In, elem_of_seqZ. lia.
Qed.

Lemma register_reads_back r : 0 <= r < 256 → LookUpRegister (GetRegisterName r) = Some (Some r).
Proof. apply (all_registers (λ r, LookUpRegister (GetRegisterName r) = Some (Some r))). vm_compute. reflexivity. Qed.

(** Register names.  The name that the tools print for a register is read
    back as that register by the assembler; by the emulator too, except
    EVINCNT, whose name starts with another register's. *)
Theorem register_name_cases (r : Z) :
  0 <= r < 256 →
  LookUpRegister (GetRegisterName r) = Some (Some r) ∧
  StringToReg (GetRegisterName r) = Some (if r =? GAdrEVINCNT then GAdrEVIN else r).
Proof.
  intros Hr. split; [by apply register_reads_back|]. revert r Hr.
  apply (all_registers (λ r, StringToReg (GetRegisterName r) = Some (if r =? GAdrEVINCNT then GAdrEVIN else r))).
  vm_compute. reflexivity.
Qed.

Lemma register_name_cases_witness :
  0 <= 214 < 256 ∧
  LookUpRegister (str "EVINCNT") = Some (Some 214) ∧ StringToReg (str "EVINCNT") = Some 213.
Proof.
  split; [lia|].
  destruct (register_name_cases 214 ltac:(lia)) as [Ha Hb]. split; [exact Ha|exact Hb].
Defined.
