(* ===== verification/MttObj.v ===== *)
(** Object files and listings of MTT programs: [WriteObject], [ReadObject] and
    [DisAssemble] of [src/mttn/tools/asm.c], [HexDump], [InstToStr] and
    [ReadObject] of [emu.c].

    A file is its text.  Reading back a written object file gives the program
    with its operands as unsigned words: [object_file_roundtrip]. *)
From Stdlib Require Import Ascii String.
From S2P Require Import Prelude MttText MttIsa.

Local Open Scope Z_scope.

Definition newline : ascii := char 10.

(** * Files *)

(** [fgets] with room for [n] characters: up to the end of the line; [None] at
    the end of the file. *)
Fixpoint take_line (n : nat) (f : text) : text * text :=
  match n, f with
  | Datatypes.S n, c :: f =>
    if bool_decide (c = newline) then ([c], f)
    else let '(l, f) := take_line n f in (c :: l, f)
  | _, _ => ([], f)
  end.

Definition fgets (size : nat) (f : text) : option (text * text) :=
  match f with [] => None | _ => Some (take_line (size - 1) f) end.

Definition LN : nat := 128.

(** * Object files *)

Definition sp : text := str " ".

Definition write_inst (inst : Instruction) : text :=
  hex0x (Number inst) ++ sp ++ hex0x (Src1 inst) ++ sp ++ hex0x (Src2 inst) ++ sp ++
  hex0x (Dest inst) ++ sp ++ hex0x (Crc inst) ++ [newline].

Definition WriteObject (code : ProgramBuf) : text :=
  hex0x (LoadAddress code) ++ sp ++ hex0x (InstructionCount code) ++ [newline] ++
  List.concat (write_inst <$> take (Z.to_nat (InstructionCount code)) (Program code)).

Definition read_inst (ln : text) : Instruction :=
  let '(number, cp) := strtoul ln in
  let '(src1, cp) := strtoul cp in
  let '(src2, cp) := strtoul cp in
  let '(dest, cp) := strtoul cp in
  let '(crc, _) := strtoul cp in
  mk_Instruction (u8 dest) (u8 src2) (u8 number) (u8 crc) (s64 src1).

(** A file that ends early leaves instructions uninitialised: [None]. *)
Fixpoint read_insts (n : nat) (f : text) : option (list Instruction) :=
  match n with
  | O => Some []
  | Datatypes.S n =>
    '(ln, f) ← fgets LN f;
    l ← read_insts n f;
    Some (read_inst ln :: l)
  end.

Definition ReadObject (objFile : text) : option ProgramBuf :=
  '(ln, f) ← fgets LN objFile;
  let '(load, cp) := strtoul ln in
  let '(count, _) := strtoul cp in
  l ← read_insts (Z.to_nat count) f;
  Some (mk_ProgramBuf load count l).

(** * Dump for the VHDL simulation *)

(** The first word of an instruction: its four bytes. *)
Definition fields_word (inst : Instruction) : Z :=
  u32 (Z.lor (Z.lor (Z.lor (Z.shiftl (Dest inst) 24) (Z.shiftl (Src2 inst) 16))
    (Z.shiftl (Number inst) 8)) (Crc inst)).

(** [0] characters up to a width: [%08X] and the like. *)
Definition zero_pad (n : nat) (t : text) : text := replicate (n - length t) (char 48) ++ t.

Definition vhdl_word (x : Z) : text :=
  [char 88; char 34] ++ zero_pad 8 (hex x) ++ [char 34; newline].

Definition HexDump (code : ProgramBuf) : text :=
  List.concat ((λ inst, vhdl_word (fields_word inst) ++ vhdl_word (Src1 inst)) <$>
    take (Z.to_nat (InstructionCount code)) (Program code)).

(** * Listings *)

(** [strcat(ln, TabTo(ln, pos))] *)
Definition pad (pos : nat) (ln : text) : text := ln ++ replicate (pos - length ln) (char 32).

(** One operand.  A register number is passed as an [int]. *)
Definition operand_str (t : ArgType) (v : Z) : text :=
  match t with
  | AtNothing => []
  | AtLiteral | AtAddress => hex0x v
  | AtRegister => GetRegisterName (s32 v)
  end.

Definition InstToStr (inst : Instruction) : text :=
  match find_opcode (Number inst) with
  | Some opcd =>
    let ln := pad 8 (str (op_Name opcd)) in
    let ln := pad 16 (ln ++ operand_str (op_Src1 opcd) (Src1 inst)) in
    let ln := pad 24 (ln ++ operand_str (op_Src2 opcd) (Src2 inst)) in
    pad 32 (ln ++ operand_str (op_Dest opcd) (Dest inst))
  | None => []
  end.

(** The lines of [DisAssemble] after its heading; [adr] and [pc] count the
    instructions of the set only. *)
Fixpoint dis_lines (adr pc : Z) (l : list Instruction) : list text :=
  match l with
  | [] => []
  | inst :: l =>
    match find_opcode (Number inst) with
    | Some opcd =>
      let oln := pad 16 (zero_pad 4 (hex adr) ++ str ":" ++ zero_pad 3 (hex pc) ++ sp ++ str (op_Name opcd)) in
      let oln := pad 28 (oln ++ operand_str (op_Src1 opcd) (Src1 inst)) in
      let oln := pad 36 (oln ++ operand_str (op_Src2 opcd) (Src2 inst)) in
      let oln := pad 44 (oln ++ operand_str (op_Dest opcd) (Dest inst)) in
      (oln ++ str "% " ++ str (op_Comment opcd)) :: dis_lines (s32 (adr + 1)) (pc + 1) l
    | None => str "Garbage object file" :: dis_lines adr pc l
    end
  end.

Definition DisAssemble (code : ProgramBuf) : list text :=
  (pad 36 (pad 28 (pad 16 (str "       %") ++ str "Src-1") ++ str "Src-2") ++ str "Dest") ::
  dis_lines (s32 (LoadAddress code)) 0 (take (Z.to_nat (InstructionCount code)) (Program code)).

(** * Lines *)

Lemma take_line_app n l rest :
  (length l < n)%nat → newline ∉ l → take_line n (l ++ newline :: rest) = (l ++ [newline], rest).
Proof.
  revert n. induction l as [|c l IH]; intros n Hn Hnl; (destruct n as [|n]; [simpl in Hn; lia|]).
  - cbn [app take_line]. by rewrite bool_decide_true.
  - cbn [app take_line]. rewrite bool_decide_false by set_solver.
    rewrite IH by (simpl in *; set_solver || lia). done.
Qed.

Lemma fgets_line l rest :
  (length l < 127)%nat → newline ∉ l → fgets LN (l ++ newline :: rest) = Some (l ++ [newline], rest).
Proof.
  intros Hl Hn. unfold fgets. change (LN - 1)%nat with 127%nat.
  rewrite take_line_app by done. by destruct l.
Qed.

Lemma hex0x_newline n : newline ∉ hex0x n.
Proof.
  unfold hex0x. rewrite elem_of_app. intros [Hin|Hin].
  - revert Hin. by apply (bool_decide_unpack _).
  - pose proof (print_chars 16 8 (u32 n) ltac:(lia) ltac:(pose proof (u32_range n); unfold is_u32 in *; lia)) as HF.
    eapply List.Forall_forall in HF; [|by apply list_elem_of_In]. destruct HF as (d & Hd & E).
    assert (Hd' : Forall (λ d, newline ≠ digit_char d) (seqZ 0 16)) by (by apply (bool_decide_unpack _)).
    eapply List.Forall_forall in Hd'; [by apply Hd'|]. apply list_elem_of_In, elem_of_seqZ. lia.
Qed.

(** Reading the first and the next field of a line. *)
Lemma read_first n rest : strtoul (hex0x n ++ sp ++ rest) = (u32 n, sp ++ rest).
Proof. by apply (strtoul_hex [] n (sp ++ rest)). Qed.

Lemma read_next n rest : strtoul (sp ++ hex0x n ++ sp ++ rest) = (u32 n, sp ++ rest).
Proof. apply (strtoul_hex sp n (sp ++ rest)); [repeat constructor|done]. Qed.

(** * Round trip *)

(** The byte fields of an instruction hold bytes. *)
Definition inst_bytes (inst : Instruction) : Prop :=
  0 <= Dest inst < 256 ∧ 0 <= Src2 inst < 256 ∧ 0 <= Number inst < 256 ∧ 0 <= Crc inst < 256.

(** An instruction as read back: the operand is an unsigned word. *)
Definition unsigned_src1 (inst : Instruction) : Instruction := inst <| Src1 := u32 (Src1 inst) |>.

Definition inst_line (inst : Instruction) : text :=
  hex0x (Number inst) ++ sp ++ hex0x (Src1 inst) ++ sp ++ hex0x (Src2 inst) ++ sp ++
  hex0x (Dest inst) ++ sp ++ hex0x (Crc inst).

Lemma write_inst_line inst rest : write_inst inst ++ rest = inst_line inst ++ newline :: rest.
Proof. unfold write_inst, inst_line. by rewrite <- !app_assoc. Qed.

Lemma inst_line_ok inst : (length (inst_line inst) < 127)%nat ∧ newline ∉ inst_line inst.
Proof.
  unfold inst_line. split.
  - rewrite !length_app. change (length sp) with 1%nat.
    pose proof (length_hex0x (Number inst)). pose proof (length_hex0x (Src1 inst)).
    pose proof (length_hex0x (Src2 inst)). pose proof (length_hex0x (Dest inst)).
    pose proof (length_hex0x (Crc inst)). lia.
  - assert (newline ∉ sp) by (by apply (bool_decide_unpack _)).
    rewrite !not_elem_of_app. split_and!; first [apply hex0x_newline|done].
Qed.

Lemma u8_small x : 0 <= x < 256 → u8 x = x.
Proof. intros Hx. by apply Z.mod_small. Qed.

Lemma u32_byte x : 0 <= x < 256 → u32 x = x.
Proof. intros Hx. apply u32_small. unfold is_u32. lia. Qed.

Lemma s64_small x : - 2 ^ 63 <= x < 2 ^ 63 → s64 x = x.
Proof. intros Hx. unfold s64. rewrite Z.mod_small; lia. Qed.

Lemma read_write_inst inst : inst_bytes inst → read_inst (inst_line inst ++ [newline]) = unsigned_src1 inst.
Proof.
  intros (Hd & H2 & Hn & Hc). unfold read_inst, inst_line. rewrite <- !app_assoc.
  rewrite read_first, !read_next. rewrite (strtoul_hex sp); [|repeat constructor|done].
  rewrite !u32_byte, !u8_small by done. unfold unsigned_src1. rewrite s64_small; [by destruct inst|].
  pose proof (u32_range (Src1 inst)). unfold is_u32 in *. lia.
Qed.

Lemma read_insts_cons n f ln f' :
  fgets LN f = Some (ln, f') →
  read_insts (Datatypes.S n) f = (λ l, read_inst ln :: l) <$> read_insts n f'.
Proof. intros E. cbn [read_insts]. rewrite E. simpl. by destruct (read_insts n f'). Qed.

Lemma read_insts_write l rest :
  Forall inst_bytes l →
  read_insts (length l) (List.concat (write_inst <$> l) ++ rest) = Some (unsigned_src1 <$> l).
Proof.
  induction 1 as [|inst l Hi _ IH]; [done|]. cbn [fmap list_fmap List.concat length].
  rewrite <- app_assoc, write_inst_line. destruct (inst_line_ok inst).
  erewrite read_insts_cons by (by apply fgets_line). rewrite IH, read_write_inst by done. done.
Qed.

(** C13 Object files.  Reading a written program gives the same load address,
    count and instructions, with the literal operand as an unsigned 32-bit
    word: the operand of an instruction survives exactly when it is not
    negative. *)
Theorem object_file_roundtrip (code : ProgramBuf) :
  Forall inst_bytes (Program code) → InstructionCount code = Z.of_nat (length (Program code)) →
  InstructionCount code < 2 ^ 31 →
  ReadObject (WriteObject code) = Some (mk_ProgramBuf (u32 (LoadAddress code)) (InstructionCount code)
    (unsigned_src1 <$> Program code)) ∧
  (∀ inst, inst_bytes inst → - 2 ^ 31 <= Src1 inst < 2 ^ 31 →
     (unsigned_src1 inst = inst ↔ 0 <= Src1 inst)).
Proof.
  intros HF Hc Hlt. split.
  - unfold WriteObject, ReadObject. rewrite Hc, Nat2Z.id, take_ge by done.
    set (l := (hex0x (LoadAddress code) ++ sp) ++ hex0x (Z.of_nat (length (Program code)))).
    assert (Hl : (length l < 127)%nat ∧ newline ∉ l).
    { unfold l. rewrite !length_app, !not_elem_of_app. change (length sp) with 1%nat.
      pose proof (length_hex0x (LoadAddress code)).
      pose proof (length_hex0x (Z.of_nat (length (Program code)))).
      split_and!; [lia|apply hex0x_newline|by apply (bool_decide_unpack _)|apply hex0x_newline]. }
    destruct Hl. generalize (read_insts_write (Program code) [] HF). rewrite app_nil_r.
    generalize (List.concat (write_inst <$> Program code)). intros body Hbody.
    replace (_ ++ _) with (l ++ newline :: body) by (unfold l; by rewrite <- !app_assoc).
    rewrite fgets_line by done. unfold mbind, option_bind. cbv beta iota. unfold l. rewrite <- !app_assoc.
    rewrite read_first. rewrite (strtoul_hex sp); [|repeat constructor|done].
    rewrite (u32_small (Z.of_nat _)) by (unfold is_u32; lia). rewrite Nat2Z.id.
    by rewrite Hbody.
  - intros inst _ Hr. unfold unsigned_src1. split.
    + intros E. pose proof (u32_range (Src1 inst)) as Hu. apply (f_equal Src1) in E. simpl in E.
      unfold is_u32 in Hu. lia.
    + intros Hp. rewrite u32_small by (unfold is_u32; lia). by destruct inst.
Qed.

(** A program with a wait for -1 comes back with another operand. *)
Lemma object_file_roundtrip_witness :
  let p := mk_ProgramBuf 0x10 2 [mk_Instruction 0 7 WEQV 0 (-1); mk_Instruction 0 0 HALT 0 0] in
  ReadObject (WriteObject p) =
  Some (mk_ProgramBuf 0x10 2 [mk_Instruction 0 7 WEQV 0 (2 ^ 32 - 1); mk_Instruction 0 0 HALT 0 0]).
Proof.
  intros p. destruct (object_file_roundtrip p) as [E _]; [|reflexivity|reflexivity|exact E].
  repeat constructor; vm_compute; congruence.
Defined.
