(* ===== verification/MttEmu.v ===== *)
(** The MTT code emulator, [src/mttn/tools/emu.c]: one instruction
    ([Execute]) and the command loop ([Emulate], [EditRegs]) as a machine that
    consumes one input line at a time.

    Registers are [int]s.  Signed arithmetic wraps and shift counts are taken
    modulo 32, as on the processors the tool is compiled for; an access
    out of an array is stuck. *)
From Stdlib Require Import Ascii String.
From S2P Require Import Prelude MttText MttIsa MttObj.

Local Open Scope Z_scope.

Definition GREGS : Z := 224.
Definition LREGS : Z := 32.
Definition REGS : Z := GREGS + LREGS.

Definition PsEQ : Z := 1.
Definition PsLT : Z := 2.
Definition PsGT : Z := 4.
Definition PsCR : Z := 8.

(** The variables of the emulator; [emu_prog] is [code->Program], which [WDOG]
    modifies; [old_regm] is [regm], the registers [ShowDiffs] saw last. *)
Record emu := mk_emu {
  Regm : list Z;
  PSwd : Z;
  Pc : Z;
  waiting : Z;
  waitr : Z;
  regwa : Z;
  old_regm : list Z;
  Dfs : text;
  emu_prog : list Instruction
}.

Notation E := (M emu).

Definition get_reg (r : Z) : E Z :=
  l ← gets Regm;
  if r <? 0 then stuck else lift_opt (l !! Z.to_nat r).

(** An assignment to a register converts to [int]. *)
Definition set_reg (r v : Z) : E () :=
  l ← gets Regm;
  if (r <? 0) || (Z.of_nat (length l) <=? r) then stuck
  else modify (λ s : emu, s <| Regm := <[Z.to_nat r := s32 v]> l |>).

Definition next : E () := modify (λ s : emu, s <| Pc := s32 (Pc s + 1) |>).
Definition jump (a : Z) : E () := modify (λ s : emu, s <| Pc := s32 a |>).

(** The first register that changed, and what is waited for. *)
Definition diff_text (regm Regm : list Z) : text :=
  match find_idx (λ p, negb (p.1 =? p.2)) (zip regm Regm) with
  | Some i =>
    GetRegisterName (Z.of_nat i) ++ str ":" ++ hex0x (regm !!! i) ++ str "=>" ++ hex0x (Regm !!! i)
  | None => []
  end.

Definition ShowDiffs : E () :=
  modify (λ s : emu, s
    <| Dfs := diff_text (old_regm s) (Regm s) ++
         (if truthy (waiting s)
          then str "Wait[" ++ GetRegisterName (regwa s) ++ str "/" ++ hex0x (waitr s) ++ str "]"
          else []) |>
    <| old_regm := Regm s |>).

Definition psw_of (val : Z) : Z :=
  Z.lor (Z.lor (if val =? 0 then PsEQ else 0) (if val >? 0 then PsGT else 0))
    (if val <? 0 then PsLT else 0).

Definition SetPSwd (val : Z) : E () := modify (λ s : emu, s <| PSwd := psw_of val |>).

(** Shift counts. *)
Definition shl (x n : Z) : Z := Z.shiftl x (n mod 32).
Definition shr (x n : Z) : Z := Z.shiftr x (n mod 32).

(** A wait: on the first execution note what is waited for. *)
Definition begin_wait (target : E Z) (reg : Z) : E () :=
  w ← gets waiting;
  if w =? 0 then
    t ← target;
    modify (λ s : emu, s <| waiting := 1 |> <| waitr := s32 t |> <| regwa := reg |>)
  else mret ().

Definition end_wait (b : bool) : E () :=
  (if b then modify (λ s : emu, s <| waiting := 0 |>);; next else mret ());;
  ShowDiffs.

(** [Regm[inst->Dest] = v; SetPSwd; ShowDiffs; Pc++] *)
Definition assign (d v : Z) : E () :=
  set_reg d v;;
  x ← get_reg d;
  SetPSwd x;;
  ShowDiffs;;
  next.

Definition branch (b : bool) (a : Z) : E () := if b then jump a else next.

Definition psw_has (m : Z) : E bool := p ← gets PSwd; mret (truthy (Z.land p m)).

(** [inst->Number++] of the instruction at [i]: a byte. *)
Definition bump_number (i : nat) : E () :=
  modify (λ s : emu, s <| emu_prog := alter (λ x, x <| Number := u8 (Number x + 1) |>) i (emu_prog s) |>).

(** [Execute] of the instruction at index [i] of the program. *)
Definition Execute (i : nat) : E () :=
  prog ← gets emu_prog;
  inst ← lift_opt (prog !! i);
  let n := Number inst in let s1 := Src1 inst in let s2 := Src2 inst in let d := Dest inst in
  if n =? HALT then mret ()
  else if n =? NOOP then next
  else if n =? INT then next
  else if n =? WEQV then
    begin_wait (mret s1) s2;;
    r ← get_reg s2; end_wait (r =? s1)
  else if n =? WEQR then
    begin_wait (get_reg s1) s2;;
    r ← get_reg s2; v ← get_reg s1; end_wait (r =? v)
  else if n =? WRLV then
    begin_wait (r ← get_reg s2; mret (r + s1)) s2;;
    r ← get_reg s2; t ← gets waitr; end_wait (r >=? t)
  else if n =? WRLR then
    begin_wait (r ← get_reg s2; v ← get_reg s1; mret (r + v)) s2;;
    r ← get_reg s2; t ← gets waitr; end_wait (r >=? t)
  else if n =? WORV then
    begin_wait (mret s1) s2;;
    r ← get_reg s2; end_wait (truthy (Z.land r s1))
  else if n =? WORR then
    begin_wait (get_reg s1) s2;;
    r ← get_reg s2; v ← get_reg s1; end_wait (truthy (Z.land r v))
  else if n =? MOVV then assign d s1
  else if n =? MOVR then v ← get_reg s1; assign d v
  else if n =? MOVIR then
    irg ← get_reg GREGS;
    (if (irg >=? 0) && (irg <? REGS) then
       v ← get_reg irg; set_reg d v;; x ← get_reg d; SetPSwd x;; ShowDiffs
     else mret ());;
    next
  else if n =? MOVRI then
    irg ← get_reg GREGS;
    (if (irg >=? 0) && (irg <? REGS) then
       v ← get_reg d; set_reg irg v;; x ← get_reg irg; SetPSwd x;; ShowDiffs
     else mret ());;
    next
  else if n =? ADDR then a ← get_reg s1; b ← get_reg s2; assign d (a + b)
  else if n =? SUBR then b ← get_reg s2; a ← get_reg s1; assign d (b - a)
  else if n =? LORR then b ← get_reg s2; a ← get_reg s1; assign d (Z.lor b a)
  else if n =? ANDR then b ← get_reg s2; a ← get_reg s1; assign d (Z.land b a)
  else if n =? XORR then b ← get_reg s2; a ← get_reg s1; assign d (Z.lxor b a)
  else if n =? LSR then b ← get_reg s2; a ← get_reg s1; assign d (shl b a)
  else if n =? RSR then b ← get_reg s2; a ← get_reg s1; assign d (shr b a)
  else if n =? ADDV then b ← get_reg s2; assign d (b + s1)
  else if n =? SUBV then b ← get_reg s2; assign d (b - s1)
  else if n =? LORV then b ← get_reg s2; assign d (Z.lor b s1)
  else if n =? ANDV then b ← get_reg s2; assign d (Z.land b s1)
  else if n =? XORV then b ← get_reg s2; assign d (Z.lxor b s1)
  else if n =? LSV then b ← get_reg s2; assign d (shl b s1)
  else if n =? RSV then b ← get_reg s2; assign d (shr b s1)
  else if n =? WDOG then bump_number i;; next
  else if n =? JMP then jump s1
  else if n =? BEQ then b ← psw_has PsEQ; branch b s1
  else if n =? BNE then b ← psw_has PsEQ; branch (negb b) s1
  else if n =? BLT then b ← psw_has PsLT; branch b s1
  else if n =? BGT then b ← psw_has PsGT; branch b s1
  else if n =? BLE then b ← psw_has PsEQ; c ← psw_has PsLT; branch (b || c) s1
  else if n =? BGE then b ← psw_has PsEQ; c ← psw_has PsGT; branch (b || c) s1
  else if n =? BCR then b ← psw_has PsCR; branch b s1
  else mret ().

(** [PsToString] *)
Definition PsToString (ps : Z) : text :=
  str (if truthy (Z.land PsEQ ps) then "EQ." else "eq.") ++
  str (if truthy (Z.land PsLT ps) then "LT." else "lt.") ++
  str (if truthy (Z.land PsGT ps) then "GT." else "gt.") ++
  str (if truthy (Z.land PsCR ps) then "CR" else "cr").

(** * The command loop

    [session] adds the variables of [Emulate] (the listing index [i] and the
    mode [exc]) and of a running [EditRegs].  What is printed is not modelled. *)

Record editor := mk_editor { ed_reg : Z; ed_min : Z; ed_max : Z }.

Record session := mk_session {
  machine : emu;
  list_i : Z;
  exc : Z;
  editing : option editor
}.

Notation I := (M session).
Definition on_machine {A} (m : E A) : I A := zoom machine (λ e (s : session), s <| machine := e |>) m.

Section commands.
(** [code->LoadAddress] and [code->InstructionCount]: unsigned longs. *)
Variable load count : Z.

(** The instruction at the program counter, executed. *)
Definition execute_pc : E () :=
  pc0 ← gets Pc;
  let pc := s32 (pc0 - load) in
  if pc <? 0 then stuck else Execute (Z.to_nat pc).

Fixpoint execute_n (n : nat) : E () :=
  match n with
  | O => mret ()
  | Datatypes.S n => execute_pc;; execute_n n
  end.

(** An [int] compared with the unsigned bounds of the program. *)
Definition in_program (pc : Z) : bool := (load <=? u64 pc) && (u64 pc <? u64 (load + count)).

(** The number after the command letter; [None] when there is none. *)
Definition number (cp : text) : Z * bool :=
  let '(v, ep) := strtoul cp in (v, negb (bool_decide (length ep = length cp))).

Definition open_editor (reg min max : Z) : I () :=
  modify (λ s : session, s <| editing := Some (mk_editor reg min max) |>).

Definition EditGlobalReg (reg : Z) : I () :=
  if reg >=? GREGS then mret () else open_editor reg 0 GREGS.
Definition EditLocalReg (reg : Z) : I () :=
  if (reg >=? REGS) || (reg <? GREGS) then mret () else open_editor reg GREGS REGS.

(** One line given to [EditRegs]. *)
Definition edit_line (ed : editor) (ln : text) : I () :=
  let reg := ed_reg ed in
  on_machine (get_reg reg);;
  let goto r := modify (λ s : session, s <| editing := Some (ed <| ed_reg := r |>) |>) in
  let check trv := if (trv <? ed_max ed) && (trv >=? ed_min ed) then goto trv else mret () in
  let store cp :=
    let '(val, some) := number cp in
    if some : bool then
      on_machine (
        set_reg reg val;;
        modify (λ s : emu, s <| old_regm := <[Z.to_nat reg := s32 val]> (old_regm s) |>))
    else mret () in
  match ln with
  | c :: cp =>
    if bool_decide (c = char 46) then modify (λ s : session, s <| editing := None |>)
    else if bool_decide (c = char 47) then
      let '(v, some) := number cp in
      if some : bool then check (u64 (v + ed_min ed))
      else if (1 <? length ln)%nat then r ← lift_opt (StringToReg cp); check r
      else store cp
    else if bool_decide (c = newline) then
      goto (if reg + 1 >=? ed_max ed then ed_min ed else reg + 1)
    else store ln
  | [] => store ln
  end.

(** One line given to [Emulate]: whether the emulator goes on. *)
Definition command_line (ln : text) : I bool :=
  i ← gets list_i;
  x ← gets exc;
  prog ← gets (emu_prog ∘ machine);
  (if i <? 0 then stuck else lift_opt (prog !! Z.to_nat i));;
  let c := default (char 0) (head ln) in
  let cp := tail ln in
  at_ ← lift_opt (atomhash c);
  match at_ with
  | Bit =>
    if x =? 0 then mret false
    else modify (λ s : session, s <| exc := 0 |>);; mret true
  | Seperator =>
    (if bool_decide (c = newline) then
       if x =? 0 then
         modify (λ s : session, s <| list_i := if u64 (i + 1) >=? count then 0 else i + 1 |>)
       else on_machine (execute_pc;; modify (λ s : emu, s <| Dfs := [] |>))
     else mret ());;
    mret true
  | Alpha =>
    (if bool_decide (c = char 120) then
       (if x =? 0 then modify (λ s : session, s <| exc := 1 |>) else mret ());;
       let cnt := s32 (strtoul cp).1 in
       on_machine (execute_n (Z.to_nat (if cnt <=? 0 then 1 else cnt));;
                   modify (λ s : emu, s <| Dfs := [] |>))
     else if bool_decide (c = char 112) then
       let pc := s32 (strtoul cp).1 in
       if in_program pc then on_machine (modify (λ s : emu, s <| waitr := 0 |> <| Pc := pc |>))
       else mret ()
     else if bool_decide (c = char 103) then EditGlobalReg (s32 (strtoul cp).1)
     else if bool_decide (c = char 108) then EditLocalReg (s32 (u64 ((strtoul cp).1 + GREGS)))
     else mret ());;
    mret true
  | Operator =>
    (if bool_decide (c = char 47) then
       let '(v, some) := number cp in
       let pc := s32 v in
       if some && in_program pc then modify (λ s : session, s <| list_i := s32 (pc - load) |>)
       else mret ()
     else mret ());;
    mret true
  | _ => mret true
  end.

(** A line of input, for the editor when one is open. *)
Definition input_line (ln : text) : I bool :=
  e ← gets editing;
  match e with
  | Some ed => edit_line ed ln;; mret true
  | None => command_line ln
  end.

(** The lines one after the other, until the emulator ends. *)
Fixpoint Emulate (lns : list text) : I () :=
  match lns with
  | [] => mret ()
  | ln :: lns => go ← input_line ln; if go : bool then Emulate lns else mret ()
  end.
End commands.

(** The variables at the start: statically zero, the program counter at the
    load address. *)
Definition emu_start (code : ProgramBuf) : session :=
  mk_session
    (mk_emu (replicate 256 0) 0 (s32 (LoadAddress code)) 0 0 0 (replicate 256 0) [] (Program code))
    0 0 None.
