(* ===== verification/MttEmuProofs.v ===== *)
(** The emulator never leaves its arrays.

    A program is well formed when its operands name registers and places of
    the program and it does not run past its end.  [keeps] is a computation that
    keeps the machine in order and the program counter in place, [moves] one that
    leaves the machine in order if there is a next instruction. *)
From Stdlib Require Import Ascii String.
From S2P Require Import Prelude MttText MttIsa MttObj MttEmu.

Local Open Scope Z_scope.

Definition is_s32 (x : Z) : Prop := - 2 ^ 31 <= x < 2 ^ 31.

Lemma u64_small x : 0 <= x < 2 ^ 64 → u64 x = x.
Proof. intros Hx. by apply Z.mod_small. Qed.

(** The opcodes whose first operand is a place in the program. *)
Definition is_jump (n : Z) : bool := (JMP <=? n) && (n <=? BCR).

Create HintDb emu.

Section ok.
Variable load count : Z.

(** The operands of an instruction are in range. *)
Definition inst_wf (inst : Instruction) : Prop :=
  0 <= Src2 inst < 256 ∧ 0 <= Dest inst < 256 ∧
  (is_jump (Number inst) = true → load <= Src1 inst < load + count) ∧
  (∀ o, find_opcode (Number inst) = Some o → op_Src1 o = AtRegister → 0 <= Src1 inst < 256).

(** The same as a test. *)
Definition inst_wf_b (inst : Instruction) : bool :=
  let byte x := (0 <=? x) && (x <? 256) in
  byte (Src2 inst) && byte (Dest inst) &&
  (negb (is_jump (Number inst)) || ((load <=? Src1 inst) && (Src1 inst <? load + count))) &&
  match find_opcode (Number inst) with
  | Some o => match op_Src1 o with AtRegister => byte (Src1 inst) | _ => true end
  | None => true
  end.

Lemma inst_wf_check inst : inst_wf_b inst = true → inst_wf inst.
Proof.
  unfold inst_wf_b, inst_wf. intros [[[Ha Hb]%andb_true_iff Hj]%andb_true_iff Ho]%andb_true_iff.
  split_and!; try lia.
  - intros E. rewrite E in Hj. simpl in Hj. lia.
  - intros o E Et. rewrite E, Et in Ho. lia.
Qed.

(** The last instruction stops or jumps. *)
Record prog_wf (prog : list Instruction) : Prop := {
  pw_count : count = Z.of_nat (length prog);
  pw_load : 0 <= load ∧ 0 < count ∧ load + count < 2 ^ 31;
  pw_inst : Forall inst_wf prog;
  pw_last : ∀ i inst, prog !! i = Some inst → Z.of_nat i = count - 1 →
    Number inst = HALT ∨ Number inst = JMP
}.

Lemma prog_wf_check prog inst :
  0 <= load → load + count < 2 ^ 31 → count = Z.of_nat (length prog) →
  forallb inst_wf_b prog = true → last prog = Some inst →
  Number inst = HALT ∨ Number inst = JMP → prog_wf prog.
Proof.
  intros Hl Hlt Hc HF Hlast Hn.
  assert (Hpos : (0 < length prog)%nat) by (destruct prog; [done|simpl; lia]).
  split; [done|lia| |].
  - apply List.Forall_forall. intros x Hx. apply inst_wf_check. by eapply forallb_forall in HF.
  - intros i x Hi Hil. rewrite last_lookup in Hlast.
    replace (Init.Nat.pred (length prog)) with i in Hlast by lia. by rewrite Hi in Hlast; injection Hlast as ->.
Qed.

Record emu_ok (s : emu) : Prop := {
  eo_regs : length (Regm s) = 256%nat;
  eo_int : Forall is_s32 (Regm s);
  eo_pc : load <= Pc s < load + count;
  eo_psw : PSwd s ∈ [0; PsEQ; PsLT; PsGT];
  eo_prog : prog_wf (emu_prog s)
}.

Definition keeps {A} (m : E A) : Prop :=
  ∀ s, emu_ok s → wp m (λ _ s', emu_ok s' ∧ Pc s' = Pc s) s.
Definition moves {A} (m : E A) : Prop :=
  ∀ s, emu_ok s → Pc s + 1 < load + count → wp m (λ _ s', emu_ok s') s.

Lemma keeps_bind {A B} (m : E A) (f : A → E B) : keeps m → (∀ a, keeps (f a)) → keeps (m ≫= f).
Proof.
  intros Hm Hf s Hs. wp_step. eapply wp_mono; [by apply Hm|]. intros a s1 [H1 E1].
  eapply wp_mono; [by apply Hf|]. intros b s2 [H2 E2]. split; [done|congruence].
Qed.
Lemma moves_bind {A B} (m : E A) (f : A → E B) : keeps m → (∀ a, moves (f a)) → moves (m ≫= f).
Proof.
  intros Hm Hf s Hs Hpc. wp_step. eapply wp_mono; [by apply Hm|]. intros a s1 [H1 E1].
  apply Hf; [done|lia].
Qed.
Lemma keeps_moves {A} (m : E A) : keeps m → moves m.
Proof. intros Hm s Hs _. eapply wp_mono; [by apply Hm|]. by intros a s' []. Qed.
Lemma keeps_ret {A} (a : A) : keeps (mret a).
Proof. intros s Hs. by wp_step. Qed.
Lemma keeps_gets {A} (f : emu → A) : keeps (gets f).
Proof. intros s Hs. by wp_step. Qed.
Lemma keeps_modify f :
  (∀ s, Regm (f s) = Regm s ∧ Pc (f s) = Pc s ∧ PSwd (f s) = PSwd s ∧ emu_prog (f s) = emu_prog s) →
  keeps (modify f).
Proof.
  intros Hf s [S1 S2 S3 S4 S5]. wp_step. destruct (Hf s) as (E1 & E2 & E3 & E4).
  split; [|done]. split; congruence.
Qed.

(** * Registers *)

Lemma keeps_get r : 0 <= r < 256 → keeps (get_reg r).
Proof.
  intros Hr s Hs. unfold get_reg. wp_step. wp_step. rewrite (proj2 (Z.ltb_ge r 0)) by lia.
  unfold wp, lift_opt.
  destruct (lookup_lt_is_Some_2 (Regm s) (Z.to_nat r)) as [x Hx].
  { rewrite (eo_regs s Hs). lia. }
  rewrite Hx. by split.
Qed.

Lemma keeps_set r v : 0 <= r < 256 → keeps (set_reg r v).
Proof.
  intros Hr s Hs. unfold set_reg. wp_step. wp_step. rewrite (eo_regs s Hs).
  rewrite (proj2 (Z.ltb_ge r 0)), (proj2 (Z.leb_gt _ r)) by lia. cbn [orb]. cbv iota. wp_step.
  destruct Hs as [S1 S2 S3 S4 S5]. split; [|done]. split; try done; simpl.
  - by rewrite length_insert.
  - apply Forall_insert; [done|apply s32_range].
Qed.

Lemma psw_of_cases v : psw_of v ∈ [0; PsEQ; PsLT; PsGT].
Proof.
  unfold psw_of. destruct (Z.eqb_spec v 0), (Z.gtb_spec v 0), (Z.ltb_spec v 0); try lia;
    by apply (bool_decide_unpack _).
Qed.

Lemma keeps_psw v : keeps (SetPSwd v).
Proof.
  intros s [S1 S2 S3 S4 S5]. unfold SetPSwd. wp_step. split; [|done]. split; try done.
  apply psw_of_cases.
Qed.

Lemma keeps_diffs : keeps ShowDiffs.
Proof. by apply keeps_modify. Qed.

Lemma keeps_psw_has m : keeps (psw_has m).
Proof. apply keeps_bind; [apply keeps_gets|intros; apply keeps_ret]. Qed.

(** * Program counter *)

Lemma moves_next : moves next.
Proof.
  intros s [S1 S2 S3 S4 S5] Hpc. unfold next. wp_step. split; try done. simpl.
  destruct (pw_load _ S5) as (? & ? & ?). rewrite s32_small; [lia|]. unfold is_s32. lia.
Qed.

Lemma wp_jump a s : load <= a < load + count → emu_ok s → wp (jump a) (λ _ s', emu_ok s') s.
Proof.
  intros Ha [S1 S2 S3 S4 S5]. unfold jump. wp_step. split; try done. simpl.
  destruct (pw_load _ S5) as (? & ? & ?). rewrite s32_small; [lia|]. unfold is_s32. lia.
Qed.

Lemma moves_jump a : load <= a < load + count → moves (jump a).
Proof. intros Ha s Hs _. by apply wp_jump. Qed.

Lemma moves_branch b a : load <= a < load + count → moves (branch b a).
Proof. intros Ha. destruct b; [by apply moves_jump|apply moves_next]. Qed.

Lemma keeps_begin_wait t r : keeps t → keeps (begin_wait t r).
Proof.
  intros Ht. apply keeps_bind; [apply keeps_gets|]. intros w. destruct (w =? 0); [|apply keeps_ret].
  apply keeps_bind; [done|]. intros x. by apply keeps_modify.
Qed.

Lemma moves_end_wait b : moves (end_wait b).
Proof.
  intros s Hs Hpc. unfold end_wait. wp_step.
  assert (Hw : wp (if b then modify (λ s : emu, s <| waiting := 0 |>);; next else mret ())
    (λ _ s', emu_ok s') s).
  { destruct b; [|by wp_step]. apply (moves_bind _ _); [by apply keeps_modify|intros; apply moves_next|done|done]. }
  eapply wp_mono; [exact Hw|]. intros [] s1 H1. eapply wp_mono; [by apply keeps_diffs|]. by intros [] s2 [].
Qed.

Lemma moves_assign d v : 0 <= d < 256 → moves (assign d v).
Proof.
  intros Hd. unfold assign. apply moves_bind; [by apply keeps_set|intros _].
  apply moves_bind; [by apply keeps_get|intros x]. apply moves_bind; [apply keeps_psw|intros _].
  apply moves_bind; [apply keeps_diffs|intros _]. apply moves_next.
Qed.

(** [WDOG] becomes an unknown opcode: nothing is required of it. *)
Lemma find_opcode_wdog : find_opcode (u8 (WDOG + 1)) = None.
Proof. done. Qed.

Lemma bump_wf inst : inst_wf inst → Number inst = WDOG → inst_wf (inst <| Number := u8 (Number inst + 1) |>).
Proof.
  intros (W1 & W2 & W3 & W4) E. unfold inst_wf. simpl. rewrite E. split; [done|]. split; [done|]. split; [done|].
  intros o Ho. by rewrite find_opcode_wdog in Ho.
Qed.

Lemma keeps_bump i s :
  emu_ok s → (∀ inst, emu_prog s !! i = Some inst → Number inst = WDOG) →
  wp (bump_number i) (λ _ s', emu_ok s' ∧ Pc s' = Pc s) s.
Proof.
  intros [S1 S2 S3 S4 S5] Hi. unfold bump_number. wp_step. split; [|done]. split; try done. simpl.
  destruct S5 as [P1 P2 P3 P4]. split; try done.
  - by rewrite length_alter.
  - apply List.Forall_forall. intros x Hx%list_elem_of_In%list_elem_of_lookup.
    destruct Hx as [j Hj]. rewrite list_lookup_alter in Hj.
    assert (Hwf : ∀ k y, emu_prog s !! k = Some y → inst_wf y).
    { intros k y Hy. eapply List.Forall_forall in P3; [exact P3|]. apply list_elem_of_In. by eapply list_elem_of_lookup_2. }
    case_decide as Hij; [|by eapply Hwf]. subst j.
    destruct (emu_prog s !! i) as [y|] eqn:Ey; [|done]. injection Hj as <-.
    apply bump_wf; [by eapply Hwf|by apply Hi].
  - intros j x Hj Hlast. rewrite list_lookup_alter in Hj.
    case_decide as Hij; [subst j|by eapply P4].
    destruct (emu_prog s !! i) as [y|] eqn:Ey; [|done]. injection Hj as <-.
    specialize (Hi y eq_refl). destruct (P4 i y Ey Hlast) as [E|E]; rewrite E in Hi; done.
Qed.
End ok.

(** * One instruction *)

Ltac emu_step :=
  lazymatch goal with
  | |- moves _ _ (_ ≫= _) => apply moves_bind; [|intros ?]
  | |- keeps _ _ (_ ≫= _) => apply keeps_bind; [|intros ?]
  | |- keeps _ _ (mret _) => apply keeps_ret
  | |- keeps _ _ (gets _) => apply keeps_gets
  | |- keeps _ _ (get_reg _) => apply keeps_get
  | |- keeps _ _ (set_reg _ _) => apply keeps_set
  | |- keeps _ _ (SetPSwd _) => apply keeps_psw
  | |- keeps _ _ ShowDiffs => apply keeps_diffs
  | |- keeps _ _ (psw_has _) => apply keeps_psw_has
  | |- keeps _ _ (begin_wait _ _) => apply keeps_begin_wait
  | |- moves _ _ next => apply moves_next
  | |- moves _ _ (end_wait _) => apply moves_end_wait
  | |- moves _ _ (assign _ _) => apply moves_assign
  | |- moves _ _ (branch _ _) => apply moves_branch
  | |- moves _ _ (jump _) => apply moves_jump
  | |- moves _ _ (mret _) => apply keeps_moves, keeps_ret
  | |- keeps _ _ (if ?b then _ else _) => destruct b eqn:?
  end.

Section execute.
Variable load count : Z.
Notation emu_ok := (emu_ok load count).
Notation inst_wf := (inst_wf load count).

Lemma prog_inst s i inst : emu_ok s → emu_prog s !! i = Some inst → inst_wf inst ∧ Z.of_nat i < count.
Proof.
  intros Hs Hi. destruct (eo_prog _ _ _ Hs) as [P1 P2 P3 P4]. split.
  - eapply List.Forall_forall in P3; [exact P3|]. apply list_elem_of_In. by eapply list_elem_of_lookup_2.
  - apply lookup_lt_Some in Hi. lia.
Qed.

(** One instruction keeps the machine in order, wherever the program counter
    points. *)
Lemma wp_Execute i inst s :
  emu_ok s → emu_prog s !! i = Some inst → Pc s = load + Z.of_nat i →
  wp (Execute i) (λ _ s', emu_ok s') s.
Proof.
  intros Hs Hi Hpc. destruct (prog_inst _ _ _ Hs Hi) as [(W1 & W2 & W3 & W4) Hlt].
  unfold Execute. wp_step. wp_step. wp_step. unfold wp at 1, lift_opt. rewrite Hi. cbn [fmap option_fmap option_map].
  cbv zeta. wp_step; [by wp_step|].
  assert (Hroom : Number inst ≠ JMP → Pc s + 1 < load + count).
  { intros Hj. destruct (decide (Z.of_nat i = count - 1)) as [Hl|]; [|lia].
    destruct (pw_last _ _ _ (eo_prog _ _ _ Hs) i inst Hi Hl) as [E|E]; [|done].
    rewrite E in *. done. }
  destruct (Z.eqb_spec (Number inst) JMP) as [Ej|Ej].
  { rewrite Ej in *. apply (wp_jump _ _ _ _ (W3 eq_refl) Hs). }
  specialize (Hroom Ej).
  assert (Hmv : ∀ m : E (), moves load count m → wp m (λ _ s', emu_ok s') s) by (intros m Hm; by apply Hm).
  repeat match goal with
  | |- wp (if Number inst =? ?K then _ else _) _ _ =>
    destruct (Number inst =? K) eqn:E; [apply Z.eqb_eq in E|clear E];
    [try (assert (0 <= Src1 inst < 256) by (eapply W4; [rewrite E; reflexivity|reflexivity]));
     try (assert (load <= Src1 inst < load + count) by (apply W3; by rewrite E));
     try (apply Hmv; repeat emu_step; first [done|unfold REGS, GREGS, LREGS in *; lia])|]
  end.
  - wp_step. eapply wp_mono; [apply (keeps_bump load count); [done|]|].
    { intros x Hx. rewrite Hi in Hx. by injection Hx as <-. }
    intros [] s1 [H1 E1]. apply (moves_next load count); [done|lia].
  - by wp_step.
Qed.
End execute.

(** * The command loop *)

Section session.
Variable load count : Z.
Notation emu_ok := (emu_ok load count).

(** An editor stays in the bank it was opened for. *)
Definition editor_ok (ed : editor) : Prop :=
  0 <= ed_min ed ∧ ed_max ed <= 256 ∧ ed_min ed <= ed_reg ed < ed_max ed.

Record session_ok (s : session) : Prop := {
  so_machine : emu_ok (machine s);
  so_list : 0 <= list_i s < count;
  so_edit : ∀ ed, editing s = Some ed → editor_ok ed
}.

(** An input line: ASCII, and no [g] command with a number that is negative as
    an [int]. *)
Definition line_ok (ln : text) : Prop :=
  Forall (λ c, code c < 128) ln ∧ (head ln = Some (char 103) → 0 <= s32 (strtoul (tail ln)).1).

Lemma atomhash_ascii c : code c < 128 → ∃ t, atomhash c = Some t.
Proof.
  intros Hc. assert (Hcode : 0 <= code c) by (unfold code; lia). unfold atomhash.
  destruct (lookup_lt_is_Some_2 atomhash_table (Z.to_nat (code c))) as [k Hk]; [simpl; lia|].
  rewrite Hk. simpl. apply lookup_lt_is_Some_2.
  assert (HF : Forall (λ k, (k < length AtomTypes)%nat) atomhash_table) by (by apply (bool_decide_unpack _)).
  eapply List.Forall_forall in HF; [exact HF|]. apply list_elem_of_In. by eapply list_elem_of_lookup_2.
Qed.

Lemma StrToUpper_ascii t : Forall (λ c, code c < 128) t → ∃ u, StrToUpper t = Some u.
Proof.
  intros HF. apply (proj2 (mapM_is_Some upper_char t)). eapply Forall_impl; [exact HF|].
  intros c Hc. destruct (atomhash_ascii c Hc) as [a Ha]. unfold compose, upper_char. rewrite Ha.
  by eexists.
Qed.

Lemma StringToReg_ascii t : Forall (λ c, code c < 128) t → ∃ r, StringToReg t = Some r.
Proof.
  intros HF. unfold StringToReg. destruct (_ <=? _)%nat; [|by exists 0].
  destruct (StrToUpper_ascii t HF) as [u ->]. by eexists.
Qed.

Lemma on_machine_ok {A} (m : E A) (Q : A → session → Prop) s :
  session_ok s → wp m (λ _ e, emu_ok e) (machine s) →
  (∀ a s', session_ok s' → list_i s' = list_i s → editing s' = editing s → Q a s') →
  wp (on_machine m) Q s.
Proof.
  intros [S1 S2 S3] Hm HQ. unfold on_machine. apply wp_zoom. eapply wp_mono; [exact Hm|].
  intros a e He. by apply HQ.
Qed.

Lemma emu_keeps_ok {A} (m : E A) s : emu_ok s → keeps load count m → wp m (λ _ s', emu_ok s') s.
Proof. intros Hs Hm. eapply wp_mono; [by apply Hm|]. by intros a s' []. Qed.

Lemma wp_execute_pc s : emu_ok s → wp (execute_pc load) (λ _ s', emu_ok s') s.
Proof.
  intros Hs. unfold execute_pc. wp_step. wp_step.
  destruct (eo_prog _ _ _ Hs) as [P1 (P2 & P3 & P4) _ _]. pose proof (eo_pc _ _ _ Hs) as Hpc.
  rewrite s32_small by (unfold is_s32; lia). rewrite (proj2 (Z.ltb_ge _ 0)) by lia.
  destruct (lookup_lt_is_Some_2 (emu_prog s) (Z.to_nat (Pc s - load))) as [inst Hi]; [lia|].
  apply (wp_Execute load count _ inst); [done|done|lia].
Qed.

Lemma wp_execute_n n s : emu_ok s → wp (execute_n load n) (λ _ s', emu_ok s') s.
Proof.
  revert s. induction n as [|n IH]; intros s Hs; cbn [execute_n]; [by wp_step|].
  wp_step. eapply wp_mono; [by apply wp_execute_pc|]. intros [] s1. apply IH.
Qed.

Lemma clear_dfs s : emu_ok s → emu_ok (s <| Dfs := [] |>).
Proof. intros [S1 S2 S3 S4 S5]. by split. Qed.

Lemma in_program_spec pc s :
  emu_ok s → is_s32 pc → in_program load count pc = true → load <= pc < load + count.
Proof.
  intros Hs Hpc. destruct (eo_prog _ _ _ Hs) as [_ (P2 & P3 & P4) _ _].
  unfold in_program. rewrite (u64_small (load + count)) by lia. unfold u64, is_s32 in *.
  intros [Ha%Z.leb_le Hb%Z.ltb_lt]%andb_true_iff.
  destruct (Z.ltb_spec pc 0); [|rewrite Z.mod_small in Ha, Hb; lia].
  rewrite <- (Z.mod_unique pc (2 ^ 64) (-1) (pc + 2 ^ 64)) in Hb; lia.
Qed.

Lemma wp_edit_line ed ln s :
  session_ok s → editor_ok ed → Forall (λ c, code c < 128) ln →
  wp (edit_line ed ln) (λ _ s', session_ok s') s.
Proof.
  intros Hs (E1 & E2 & E3) Hln. unfold edit_line. wp_step.
  apply on_machine_ok; [done|apply emu_keeps_ok; [apply so_machine, Hs|apply keeps_get; lia]|].
  intros _ s1 Hs1 _ _. clear Hs s. rename s1 into s. cbv zeta.
  assert (Hgoto : ∀ r, ed_min ed <= r < ed_max ed →
    wp (modify (λ s : session, s <| editing := Some (ed <| ed_reg := r |>) |>)) (λ _ s', session_ok s') s).
  { intros r Hr. wp_step. destruct Hs1 as [S1 S2 S3]. split; try done. simpl.
    intros e [= <-]. unfold editor_ok. destruct ed; simpl in *; lia. }
  assert (Hcheck : ∀ trv, wp (if (trv <? ed_max ed) && (trv >=? ed_min ed)
    then modify (λ s : session, s <| editing := Some (ed <| ed_reg := trv |>) |>) else mret ())
    (λ _ s', session_ok s') s).
  { intros trv. wp_step; [apply Hgoto; lia|by wp_step]. }
  assert (Hstore : ∀ cp, wp (let '(val, some) := number cp in
    if some : bool then on_machine (set_reg (ed_reg ed) val;;
      modify (λ s : emu, s <| old_regm := <[Z.to_nat (ed_reg ed) := s32 val]> (old_regm s) |>))
    else mret ()) (λ _ s', session_ok s') s).
  { intros cp. destruct (number cp) as [val []]; [|by wp_step].
    apply on_machine_ok; [done| |done]. apply emu_keeps_ok; [apply Hs1|].
    apply keeps_bind; [apply keeps_set; lia|intros _; by apply keeps_modify]. }
  destruct ln as [|c cp]; [apply Hstore|]. apply Forall_cons_1 in Hln as [Hc Hcp].
  case_bool_decide; [wp_step; by destruct Hs1 as [S1 S2 S3]|].
  case_bool_decide.
  - destruct (number cp) as [v []] eqn:En; [apply Hcheck|]. wp_step; [|by wp_step].
    wp_step. destruct (StringToReg_ascii cp Hcp) as [r Hr]. unfold wp at 1, lift_opt. rewrite Hr. apply Hcheck.
  - case_bool_decide; [|apply Hstore]. apply Hgoto. destruct (Z.geb_spec (ed_reg ed + 1) (ed_max ed)); lia.
Qed.

Lemma session_list i s : session_ok s → 0 <= i < count → session_ok (s <| list_i := i |>).
Proof. intros [S1 S2 S3] Hi. by split. Qed.

Lemma wp_open_editor reg mn mx s :
  session_ok s → 0 <= mn → mx <= 256 → mn <= reg < mx →
  wp (open_editor reg mn mx) (λ _ s', session_ok s') s.
Proof.
  intros [S1 S2 S3] Hn Hx Hr. unfold open_editor. wp_step. split; try done. by intros ed [= <-].
Qed.

(** The arms of [command_line] by the kind of the first character. *)
Lemma wp_separator c x i s :
  session_ok s → list_i s = i →
  wp (if bool_decide (c = newline) then
        if x =? 0 then
          modify (λ s : session, s <| list_i := if u64 (i + 1) >=? count then 0 else i + 1 |>)
        else on_machine (execute_pc load;; modify (λ s : emu, s <| Dfs := [] |>))
      else mret ()) (λ _ s', session_ok s') s.
Proof.
  intros Hs Hi. destruct (eo_prog _ _ _ (so_machine _ Hs)) as [P1 (P2 & P3 & P4) _ _].
  pose proof (so_list _ Hs) as Hli.
  case_bool_decide; [|by wp_step]. wp_step.
  - wp_step. apply session_list; [done|]. rewrite u64_small by lia.
    destruct (Z.geb_spec (i + 1) count); lia.
  - apply on_machine_ok; [done| |done]. wp_step.
    eapply wp_mono; [apply wp_execute_pc, Hs|]. intros [] e He. wp_step. by apply clear_dfs.
Qed.

Lemma wp_letter c cp x s :
  session_ok s → (c = char 103 → 0 <= s32 (strtoul cp).1) →
  wp (if bool_decide (c = char 120) then
       (if x =? 0 then modify (λ s : session, s <| exc := 1 |>) else mret ());;
       let cnt := s32 (strtoul cp).1 in
       on_machine (execute_n load (Z.to_nat (if cnt <=? 0 then 1 else cnt));;
                   modify (λ s : emu, s <| Dfs := [] |>))
     else if bool_decide (c = char 112) then
       let pc := s32 (strtoul cp).1 in
       if in_program load count pc
       then on_machine (modify (λ s : emu, s <| waitr := 0 |> <| Pc := pc |>))
       else mret ()
     else if bool_decide (c = char 103) then EditGlobalReg (s32 (strtoul cp).1)
     else if bool_decide (c = char 108) then EditLocalReg (s32 (u64 ((strtoul cp).1 + GREGS)))
     else mret ()) (λ _ s', session_ok s') s.
Proof.
  intros Hs Hg. case_bool_decide.
  { wp_step. cut (∀ s, session_ok s → wp (let cnt := s32 (strtoul cp).1 in
      on_machine (execute_n load (Z.to_nat (if cnt <=? 0 then 1 else cnt));;
                  modify (λ s : emu, s <| Dfs := [] |>))) (λ _ s', session_ok s') s).
    { intros Hrun. wp_step; wp_step; apply Hrun; [|done]. by destruct Hs. }
    clear s Hs. intros s Hs. cbv zeta. apply on_machine_ok; [done| |done]. wp_step.
    eapply wp_mono; [apply wp_execute_n, Hs|]. intros [] e He. wp_step. by apply clear_dfs. }
  case_bool_decide.
  { cbv zeta. wp_step; [|by wp_step]. apply on_machine_ok; [done| |done]. wp_step.
    pose proof (so_machine _ Hs) as [S1 S2 S3 S4 S5]. split; try done.
    eapply in_program_spec; [apply Hs|apply s32_range|done]. }
  case_bool_decide.
  { unfold EditGlobalReg, GREGS in *. wp_step; [by wp_step|]. apply wp_open_editor; [done|lia|lia|].
    specialize (Hg ltac:(done)). lia. }
  case_bool_decide; [|by wp_step].
  unfold EditLocalReg, REGS, LREGS, GREGS in *. wp_step; [by wp_step|]. apply wp_open_editor; [done|lia..].
Qed.

Lemma wp_operator c cp s :
  session_ok s →
  wp (if bool_decide (c = char 47) then
       let '(v, some) := number cp in
       let pc := s32 v in
       if some && in_program load count pc
       then modify (λ s : session, s <| list_i := s32 (pc - load) |>)
       else mret ()
     else mret ()) (λ _ s', session_ok s') s.
Proof.
  intros Hs. case_bool_decide; [|by wp_step]. destruct (number cp) as [v some]. cbv zeta.
  destruct (eo_prog _ _ _ (so_machine _ Hs)) as [P1 (P2 & P3 & P4) _ _].
  wp_step; [|by wp_step]. match goal with E : _ && _ = true |- _ => apply andb_true_iff in E as [_ E] end.
  wp_step. apply session_list; [done|].
  pose proof (in_program_spec (s32 v) _ (so_machine _ Hs) (s32_range v) ltac:(done)).
  rewrite s32_small by (unfold is_s32; lia). lia.
Qed.

Lemma wp_command_line ln s :
  session_ok s → line_ok ln → wp (command_line load count ln) (λ _ s', session_ok s') s.
Proof.
  intros Hs [Hln Hg]. unfold command_line. wp_step. wp_step. wp_step. wp_step. wp_step. wp_step.
  pose proof (so_list _ Hs) as Hi. rewrite (proj2 (Z.ltb_ge _ 0)) by lia. wp_step.
  destruct (eo_prog _ _ _ (so_machine _ Hs)) as [P1 (P2 & P3 & P4) _ _].
  destruct (lookup_lt_is_Some_2 (emu_prog (machine s)) (Z.to_nat (list_i s))) as [inst Hin]; [lia|].
  unfold wp at 1, lift_opt. unfold compose. rewrite Hin. cbn [fmap option_fmap option_map].
  cbv zeta. wp_step.
  assert (Hc : code (default (char 0) (head ln)) < 128).
  { destruct ln as [|c ln]; [done|]. by apply Forall_cons_1 in Hln as [? _]. }
  destruct (atomhash_ascii _ Hc) as [a Ha]. unfold wp at 1, lift_opt. rewrite Ha. cbn [fmap option_fmap option_map].
  assert (Hend : ∀ m : I (), wp m (λ _ s', session_ok s') s → wp (m;; mret true) (λ _ s', session_ok s') s).
  { intros m Hm. wp_step. eapply wp_mono; [exact Hm|]. intros [] s1 H1. by wp_step. }
  destruct a; try (by wp_step).
  - apply Hend. by apply wp_separator.
  - apply Hend. by apply wp_operator.
  - apply Hend. apply wp_letter; [done|]. intros E. apply Hg. destruct ln; [done|]. simpl in *. by f_equal.
  - wp_step; [by wp_step|]. wp_step. wp_step. wp_step. by destruct Hs.
Qed.

Lemma wp_input_line ln s :
  session_ok s → line_ok ln → wp (input_line load count ln) (λ _ s', session_ok s') s.
Proof.
  intros Hs Hln. unfold input_line. wp_step. wp_step.
  destruct (editing s) as [ed|] eqn:Ee; [|by apply wp_command_line].
  wp_step. eapply wp_mono; [apply wp_edit_line; [done|by apply (so_edit _ Hs)|apply Hln]|].
  intros [] s1 H1. by wp_step.
Qed.
End session.

(** The machine is in order at the start. *)
Lemma start_ok (code : ProgramBuf) :
  prog_wf (LoadAddress code) (InstructionCount code) (Program code) →
  session_ok (LoadAddress code) (InstructionCount code) (emu_start code).
Proof.
  intros Hp. destruct (pw_load _ _ _ Hp) as (P1 & P2 & P3). split; [|simpl; lia|done]. split.
  - done.
  - by apply (Forall_replicate (A := Z)).
  - simpl. rewrite s32_small by (unfold is_s32; lia). lia.
  - by apply (bool_decide_unpack _).
  - done.
Qed.

