(* ===== verification/MttEmuSpec.v ===== *)
(** The instruction set as an abstract machine, and the emulator as its
    implementation.

    The abstract machine has one rule per kind of instruction; the kind of the
    first operand comes from the table of the instruction set.  The emulator's
    36 cases refine it ([emulator_refines]) except where it deviates
    ([emulator_deviations]). *)
From Stdlib Require Import Ascii String.
From S2P Require Import Prelude MttText MttIsa MttObj MttEmu MttEmuProofs.

Local Open Scope Z_scope.

(** * The abstract machine *)

Inductive source := SLit (v : Z) | SReg (r : Z).
Inductive wait_kind := WaitEqual | WaitRelative | WaitBits.
Inductive alu := Move | Add | Sub | Or | And | Xor | LeftShift | RightShift.
Inductive cond := Always | Equal | NotEqual | Less | Greater | LessEqual | GreaterEqual | Carry.

Inductive instr :=
  | IStop
  | ISkip
  | IWait (k : wait_kind) (src : source) (reg : Z)
  | ICompute (op : alu) (src : source) (reg dst : Z)
  | ILoadIndexed (dst : Z)
  | IBranch (c : cond) (a : Z).

(** [a_last]: the last result compared with zero; [a_wait]: what an unfinished
    wait waits for. *)
Record amach := mk_amach {
  a_regs : list Z;
  a_pc : Z;
  a_last : option comparison;
  a_wait : option Z
}.

(** Waits, computations and branches by the low bits of the opcode. *)
Definition wait_of (n : Z) : option wait_kind :=
  match n with 0x11 => Some WaitEqual | 0x12 => Some WaitRelative | 0x13 => Some WaitBits | _ => None end.
Definition alu_of (n : Z) : option alu :=
  match n with
  | 0x62 => Some Move | 0x66 => Some Add | 0x67 => Some Sub | 0x68 => Some Or | 0x69 => Some And
  | 0x6a => Some Xor | 0x6b => Some LeftShift | 0x6c => Some RightShift | _ => None
  end.
Definition cond_of (n : Z) : option cond :=
  match n with
  | 0x05 => Some Always | 0x06 => Some Equal | 0x07 => Some NotEqual | 0x08 => Some Less
  | 0x09 => Some Greater | 0x0a => Some LessEqual | 0x0b => Some GreaterEqual | 0x0c => Some Carry
  | _ => None
  end.

(** Decoding by the instruction set's table. *)
Definition decode (inst : Instruction) : option instr :=
  o ← find_opcode (Number inst);
  let n := Z.land (Number inst) 0x7f in
  match op_Src1 o with
  | AtNothing => Some (if Number inst =? HALT then IStop else ISkip)
  | AtAddress => if Number inst =? WDOG then None else (λ c, IBranch c (Src1 inst)) <$> cond_of n
  | t =>
    let src := match t with AtRegister => SReg (Src1 inst) | _ => SLit (Src1 inst) end in
    if Number inst =? INT then Some ISkip
    else if Number inst =? MOVIR then Some (ILoadIndexed (Dest inst))
    else if Number inst =? MOVRI then None
    else match wait_of n with
         | Some k => Some (IWait k src (Src2 inst))
         | None => (λ op, ICompute op src (Src2 inst) (Dest inst)) <$> alu_of n
         end
  end.

Definition reg (s : amach) (r : Z) : Z := a_regs s !!! Z.to_nat r.
Definition value (s : amach) (src : source) : Z := match src with SLit v => v | SReg r => reg s r end.

(** The result of a computation; the operand of a move is not read. *)
Definition compute (op : alu) (x v : Z) : Z :=
  match op with
  | Move => v
  | Add => x + v
  | Sub => x - v
  | Or => Z.lor x v
  | And => Z.land x v
  | Xor => Z.lxor x v
  | LeftShift => shl x v
  | RightShift => shr x v
  end.

Definition advance (s : amach) : amach := s <| a_pc := a_pc s + 1 |>.

Definition assign_reg (d v : Z) (s : amach) : amach :=
  s <| a_regs := <[Z.to_nat d := s32 v]> (a_regs s) |> <| a_last := Some (s32 v ?= 0) |>.

(** Does a condition hold of the last result?  Nothing sets the carry. *)
Definition holds (c : cond) (last : option comparison) : bool :=
  match c, last with
  | Always, _ => true
  | Equal, Some Eq => true
  | NotEqual, Some Eq => false
  | NotEqual, _ => true
  | Less, Some Lt => true
  | Greater, Some Gt => true
  | LessEqual, Some (Eq | Lt) => true
  | GreaterEqual, Some (Eq | Gt) => true
  | _, _ => false
  end.

Definition astep (ins : instr) (s : amach) : amach :=
  match ins with
  | IStop => s
  | ISkip => advance s
  | IWait k src r =>
    let target := match a_wait s with
                  | Some t => t
                  | None => s32 (match k with WaitRelative => reg s r + value s src | _ => value s src end)
                  end in
    let over := match k with
                | WaitEqual => reg s r =? value s src
                | WaitRelative => reg s r >=? target
                | WaitBits => truthy (Z.land (reg s r) (value s src))
                end in
    if over then advance (s <| a_wait := None |>) else s <| a_wait := Some target |>
  | ICompute op src r d => advance (assign_reg d (compute op (reg s r) (value s src)) s)
  | ILoadIndexed d =>
    let i := reg s LAdrINDEX in
    advance (if (0 <=? i) && (i <? 256) then assign_reg d (reg s i) s else s)
  | IBranch c a => if holds c (a_last s) then s <| a_pc := a |> else advance s
  end.

(** * The emulator's state as an abstract machine *)

Definition last_of (psw : Z) : option comparison :=
  if psw =? PsEQ then Some Eq else if psw =? PsLT then Some Lt
  else if psw =? PsGT then Some Gt else None.

Definition abs (s : emu) : amach :=
  mk_amach (Regm s) (Pc s) (last_of (PSwd s)) (if waiting s =? 0 then None else Some (waitr s)).

Lemma last_of_psw v : last_of (psw_of v) = Some (v ?= 0).
Proof.
  unfold psw_of. destruct (Z.compare_spec v 0) as [->|Hlt|Hgt]; [done|..].
  - rewrite (proj2 (Z.eqb_neq v 0)) by lia. rewrite (proj2 (Z.ltb_lt v 0)) by lia.
    by destruct (Z.gtb_spec v 0); [lia|].
  - rewrite (proj2 (Z.eqb_neq v 0)) by lia. rewrite (proj2 (Z.ltb_ge v 0)) by lia.
    by destruct (Z.gtb_spec v 0); [|lia].
Qed.

Section refine.
Variable load count : Z.
Notation emu_ok := (emu_ok load count).

(** A read of a register. *)
Lemma wp_get r (Q : Z → emu → Prop) s :
  length (Regm s) = 256%nat → 0 <= r < 256 → Q (reg (abs s) r) s → wp (get_reg r) Q s.
Proof.
  intros Hs Hr HQ. unfold get_reg. wp_step. wp_step. rewrite (proj2 (Z.ltb_ge r 0)) by lia.
  unfold wp, lift_opt. destruct (lookup_lt_is_Some_2 (Regm s) (Z.to_nat r)) as [x Hx]; [lia|].
  rewrite Hx. simpl. unfold reg in HQ. simpl in HQ. by rewrite (list_lookup_total_correct _ _ _ Hx) in HQ.
Qed.

Lemma wp_set r v (Q : () → emu → Prop) s :
  length (Regm s) = 256%nat → 0 <= r < 256 → Q () (s <| Regm := <[Z.to_nat r := s32 v]> (Regm s) |>) →
  wp (set_reg r v) Q s.
Proof.
  intros Hs Hr HQ. unfold set_reg. wp_step. wp_step. rewrite Hs.
  rewrite (proj2 (Z.ltb_ge r 0)), (proj2 (Z.leb_gt _ r)) by lia. cbn [orb]. cbv iota. by wp_step.
Qed.

(** [refines f m s]: [m] returns, its effect on the abstract state is [f], and
    the program is the same. *)
Definition refines (f : amach → amach) (m : E ()) (s : emu) : Prop :=
  wp m (λ _ s', abs s' = f (abs s) ∧ emu_prog s' = emu_prog s) s.

Definition room (s : emu) : Prop := 0 <= Pc s < 2 ^ 31 - 1.

Lemma refines_next s : room s → refines advance next s.
Proof.
  intros Hr. unfold refines, next. wp_step. split; [|done]. unfold abs, advance. simpl.
  unfold room in Hr. rewrite s32_small; [done|]. unfold is_s32. lia.
Qed.

Lemma refines_jump a s : is_s32 a → refines (λ x : amach, x <| a_pc := a |>) (jump a) s.
Proof. intros Ha. unfold refines, jump. wp_step. split; [|done]. unfold abs. simpl. by rewrite s32_small. Qed.

(** The tail of a computation, from any state with the same registers. *)
Lemma wp_finish d x (Q : () → emu → Prop) s :
  length (Regm s) = 256%nat → 0 <= d < 256 → reg (abs s) d = x →
  Q () (s <| PSwd := psw_of x |> <| Dfs := diff_text (old_regm s) (Regm s) ++
         (if truthy (waiting s)
          then str "Wait[" ++ GetRegisterName (regwa s) ++ str "/" ++ hex0x (waitr s) ++ str "]"
          else []) |> <| old_regm := Regm s |>) →
  wp (x ← get_reg d; SetPSwd x;; ShowDiffs) Q s.
Proof.
  intros Hl Hd Hx HQ. wp_step. apply wp_get; [done|done|]. rewrite Hx. wp_step. unfold SetPSwd. wp_step.
  unfold ShowDiffs. by wp_step.
Qed.

Lemma reg_insert s d v :
  length (Regm s) = 256%nat → 0 <= d < 256 →
  reg (abs (s <| Regm := <[Z.to_nat d := v]> (Regm s) |>)) d = v.
Proof.
  intros Hl Hd. unfold reg. simpl. apply list_lookup_total_correct, list_lookup_insert_eq. lia.
Qed.

(** Assigning, without moving on. *)
Lemma wp_set_finish d v (Q : () → emu → Prop) s :
  length (Regm s) = 256%nat → 0 <= d < 256 →
  (∀ s', abs s' = assign_reg d v (abs s) → emu_prog s' = emu_prog s → Pc s' = Pc s → Q () s') →
  wp (set_reg d v;; x ← get_reg d; SetPSwd x;; ShowDiffs) Q s.
Proof.
  intros Hl Hd HQ. wp_step. apply wp_set; [done|done|].
  eapply wp_finish; [simpl; by rewrite length_insert|done|by apply reg_insert|].
  apply HQ; [|done|done]. unfold abs, assign_reg. simpl. by rewrite last_of_psw.
Qed.

Lemma refines_assign d v s :
  length (Regm s) = 256%nat → room s → 0 <= d < 256 →
  refines (λ a, advance (assign_reg d v a)) (assign d v) s.
Proof.
  intros Hl Hr Hd. unfold refines, assign.
  cut (wp ((set_reg d v;; x ← get_reg d; SetPSwd x;; ShowDiffs);; next)
    (λ _ s', abs s' = advance (assign_reg d v (abs s)) ∧ emu_prog s' = emu_prog s) s).
  { unfold wp, mbind, M_bind. destruct (set_reg d v s) as [[[] s1]|]; [|done].
    destruct (get_reg d s1) as [[x s2]|]; [|done]. by destruct (SetPSwd x s2) as [[[] s3]|]. }
  wp_step. apply wp_set_finish; [done|done|]. intros s1 Ha Hp Hpc.
  eapply wp_mono; [apply refines_next; unfold room; by rewrite Hpc|]. intros [] s2 [E1 E2].
  split; [by rewrite E1, Ha|congruence].
Qed.

(** * Waits *)

Lemma wp_begin_wait m r t (Q : () → emu → Prop) s :
  wp m (λ x s', x = t ∧ s' = s) s →
  (∀ s1, Regm s1 = Regm s → emu_prog s1 = emu_prog s → Pc s1 = Pc s →
     waitr s1 = default (s32 t) (a_wait (abs s)) →
     abs s1 = (abs s) <| a_wait := Some (waitr s1) |> → Q () s1) →
  wp (begin_wait m r) Q s.
Proof.
  intros Hm HQ. unfold begin_wait. wp_step. wp_step. unfold abs in HQ. simpl in HQ.
  destruct (waiting s =? 0) eqn:Ew; wp_step.
  - eapply wp_mono; [exact Hm|]. intros x s' [-> ->]. wp_step. by apply HQ.
  - apply HQ; try done. unfold abs. by rewrite Ew.
Qed.

Lemma wp_end_wait (b : bool) (Q : () → emu → Prop) s :
  room s →
  (∀ s', abs s' = (if b then advance ((abs s) <| a_wait := None |>) else abs s) →
     emu_prog s' = emu_prog s → Q () s') →
  wp (end_wait b) Q s.
Proof.
  intros Hr HQ. unfold end_wait. wp_step. destruct b.
  - set (s0 := s <| waiting := 0 |> : emu). pose proof (refines_next s0 Hr) as Hn.
    unfold refines in Hn. wp_step. wp_step. fold s0. eapply wp_mono; [exact Hn|]. intros [] s1 [E1 E2].
    unfold ShowDiffs. wp_step. apply HQ; [|done]. etrans; [|exact E1]. done.
  - wp_step. unfold ShowDiffs. wp_step. by apply HQ.
Qed.

(** * One instruction *)

Lemma emu_room s : emu_ok s → room s.
Proof.
  intros Hs. pose proof (eo_pc _ _ _ Hs) as Hpc. destruct (pw_load _ _ _ (eo_prog _ _ _ Hs)) as (? & ? & ?).
  unfold room. lia.
Qed.

(** Reads of equal registers. *)
Lemma reg_same s s1 r : Regm s1 = Regm s → reg (abs s1) r = reg (abs s) r.
Proof. unfold reg. simpl. by intros ->. Qed.

Definition src_ok (src : source) : Prop := match src with SReg r => 0 <= r < 256 | SLit _ => True end.

(** The value of an operand, read by the emulator. *)
Definition read_src (src : source) : E Z := match src with SReg r => get_reg r | SLit v => mret v end.

Lemma wp_read_src src (Q : Z → emu → Prop) s :
  length (Regm s) = 256%nat → src_ok src → Q (value (abs s) src) s → wp (read_src src) Q s.
Proof. intros Hl Hs HQ. destruct src; cbn [read_src]; [by wp_step|by apply wp_get]. Qed.

(** The three waits, for both kinds of operand. *)
Definition wait_code (k : wait_kind) (src : source) (r : Z) : E () :=
  match k with
  | WaitRelative =>
    begin_wait (x ← get_reg r; v ← read_src src; mret (x + v)) r;;
    x ← get_reg r; t ← gets waitr; end_wait (x >=? t)
  | WaitEqual =>
    begin_wait (read_src src) r;;
    x ← get_reg r; v ← read_src src; end_wait (x =? v)
  | WaitBits =>
    begin_wait (read_src src) r;;
    x ← get_reg r; v ← read_src src; end_wait (truthy (Z.land x v))
  end.

Lemma refines_wait k src r s :
  length (Regm s) = 256%nat → room s → src_ok src → 0 <= r < 256 →
  refines (astep (IWait k src r)) (wait_code k src r) s.
Proof.
  intros Hl Hr Hs Hreg. unfold refines.
  assert (Hval : ∀ s1, Regm s1 = Regm s → value (abs s1) src = value (abs s) src).
  { intros s1 E1. destruct src; [done|by apply reg_same]. }
  assert (Hend : ∀ (b : bool) s1, Regm s1 = Regm s → emu_prog s1 = emu_prog s → Pc s1 = Pc s →
    abs s1 = (abs s) <| a_wait := Some (waitr s1) |> →
    astep (IWait k src r) (abs s) =
      (if b then advance ((abs s) <| a_wait := None |>) else (abs s) <| a_wait := Some (waitr s1) |>) →
    wp (end_wait b) (λ _ s', abs s' = astep (IWait k src r) (abs s) ∧ emu_prog s' = emu_prog s) s1).
  { intros b s1 E1 E2 E3 E4 E5. apply wp_end_wait; [unfold room; by rewrite E3|].
    intros s2 Ea Ep. rewrite Ea, E5, E4. split; [by destruct b|congruence]. }
  destruct k; cbn [wait_code]; wp_step.
  - eapply (wp_begin_wait _ _ (value (abs s) src)); [by apply wp_read_src|]. intros s1 E1 E2 E3 E4 E5.
    wp_step. apply wp_get; [by rewrite E1|done|]. wp_step. apply wp_read_src; [by rewrite E1|done|].
    rewrite (reg_same s s1), Hval by done. apply Hend; try done. cbn [astep]. by rewrite E4.
  - eapply (wp_begin_wait _ _ (reg (abs s) r + value (abs s) src)).
    { wp_step. apply wp_get; [done|done|]. wp_step. apply wp_read_src; [done|done|]. by wp_step. }
    intros s1 E1 E2 E3 E4 E5. wp_step. apply wp_get; [by rewrite E1|done|]. wp_step. wp_step.
    rewrite (reg_same s s1) by done. apply Hend; try done. cbn [astep]. by rewrite E4.
  - eapply (wp_begin_wait _ _ (value (abs s) src)); [by apply wp_read_src|]. intros s1 E1 E2 E3 E4 E5.
    wp_step. apply wp_get; [by rewrite E1|done|]. wp_step. apply wp_read_src; [by rewrite E1|done|].
    rewrite (reg_same s s1), Hval by done. apply Hend; try done. cbn [astep]. by rewrite E4.
Qed.

Definition compute_code (op : alu) (src : source) (r d : Z) : E () :=
  match op with
  | Move => v ← read_src src; assign d v
  | Add => match src with
           | SReg _ => v ← read_src src; x ← get_reg r; assign d (v + x)
           | SLit v => x ← get_reg r; assign d (x + v)
           end
  | _ => x ← get_reg r; v ← read_src src; assign d (compute op x v)
  end.

Lemma refines_compute op src r d s :
  length (Regm s) = 256%nat → room s → src_ok src → 0 <= r < 256 → 0 <= d < 256 →
  refines (astep (ICompute op src r d)) (compute_code op src r d) s.
Proof.
  intros Hl Hr Hs Hreg Hd. unfold refines. cbn [astep].
  assert (Hread : ∀ f : Z → Z → Z, wp (x ← get_reg r; v ← read_src src; assign d (f x v))
    (λ _ s', abs s' = advance (assign_reg d (f (reg (abs s) r) (value (abs s) src)) (abs s)) ∧
       emu_prog s' = emu_prog s) s).
  { intros f. wp_step. apply wp_get; [done|done|]. wp_step. apply wp_read_src; [done|done|].
    by apply refines_assign. }
  destruct op; cbn [compute_code compute]; try apply Hread.
  - wp_step. apply wp_read_src; [done|done|]. by apply refines_assign.
  - destruct src as [v|r1]; [apply (Hread (λ x v, x + v))|]. cbn [value read_src].
    wp_step. apply wp_get; [done|done|]. wp_step. apply wp_get; [done|done|].
    rewrite (Z.add_comm (reg (abs s) r)). by apply refines_assign.
Qed.

(** The branches: the tests of the status word. *)
Lemma psw_tests s :
  emu_ok s →
  let has m := truthy (Z.land (PSwd s) m) in let last := a_last (abs s) in
  has PsEQ = holds Equal last ∧ negb (has PsEQ) = holds NotEqual last ∧
  has PsLT = holds Less last ∧ has PsGT = holds Greater last ∧
  (has PsEQ || has PsLT) = holds LessEqual last ∧ (has PsEQ || has PsGT) = holds GreaterEqual last ∧
  has PsCR = holds Carry last.
Proof.
  intros Hs. pose proof (eo_psw _ _ _ Hs) as Hp. unfold abs. simpl.
  rewrite !elem_of_cons, elem_of_nil in Hp.
  destruct Hp as [->|[->|[->|[->|[]]]]]; vm_compute; by split_and!.
Qed.

Definition branch_code (c : cond) (a : Z) : E () :=
  match c with
  | Always => jump a
  | Equal => b ← psw_has PsEQ; branch b a
  | NotEqual => b ← psw_has PsEQ; branch (negb b) a
  | Less => b ← psw_has PsLT; branch b a
  | Greater => b ← psw_has PsGT; branch b a
  | LessEqual => b ← psw_has PsEQ; c ← psw_has PsLT; branch (b || c) a
  | GreaterEqual => b ← psw_has PsEQ; c ← psw_has PsGT; branch (b || c) a
  | Carry => b ← psw_has PsCR; branch b a
  end.

Lemma refines_branch c a s : emu_ok s → is_s32 a → refines (astep (IBranch c a)) (branch_code c a) s.
Proof.
  intros Hs Ha. unfold refines. cbn [astep].
  assert (Hb : ∀ b : bool, wp (branch b a) (λ _ s', abs s' =
    (if b then (abs s) <| a_pc := a |> else advance (abs s)) ∧ emu_prog s' = emu_prog s) s).
  { intros []; [by apply refines_jump|apply refines_next; by apply emu_room]. }
  destruct (psw_tests s Hs) as (T1 & T2 & T3 & T4 & T5 & T6 & T7).
  destruct c; cbn [branch_code]; unfold psw_has; [apply (Hb true)|..];
    repeat first [rewrite <- T1 | rewrite <- T2 | rewrite <- T3 | rewrite <- T4 | rewrite <- T5
                 | rewrite <- T6 | rewrite <- T7 | wp_step]; apply Hb.
Qed.

Lemma refines_indexed d s :
  emu_ok s → 0 <= d < 256 →
  refines (astep (ILoadIndexed d)) (
    irg ← get_reg GREGS;
    (if (irg >=? 0) && (irg <? REGS) then
       v ← get_reg irg; set_reg d v;; x ← get_reg d; SetPSwd x;; ShowDiffs
     else mret ());;
    next) s.
Proof.
  intros Hs Hd. pose proof (eo_regs _ _ _ Hs) as Hl. pose proof (emu_room s Hs) as Hr.
  unfold refines. cbn [astep]. wp_step. apply wp_get; [done|done|].
  change (reg (abs s) GREGS) with (reg (abs s) LAdrINDEX). set (i := reg (abs s) LAdrINDEX).
  change REGS with 256. rewrite (Z.geb_leb i 0). wp_step.
  destruct ((0 <=? i) && (i <? 256)) eqn:Ei; [|wp_step; by apply refines_next].
  wp_step. apply wp_get; [done|lia|]. apply wp_set_finish; [done|done|]. intros s1 Ea Ep Epc.
  eapply wp_mono; [apply refines_next; unfold room; by rewrite Epc|]. intros [] s2 [E1 E2].
  split; [by rewrite E1, Ea|congruence].
Qed.

(** The opcodes of the set, one by one. *)
Lemma find_opcode_number n o : find_opcode n = Some o → n ∈ op_Number <$> InstructionSet ∧ o ∈ InstructionSet.
Proof.
  unfold find_opcode. intros E. apply bind_Some in E as (i & Hi & Ho).
  apply find_idx_lookup in Hi as [(x & Hx & Hn) _]. rewrite Hx in Ho. injection Ho as <-.
  apply Z.eqb_eq in Hn as <-. assert (Hin : x ∈ InstructionSet) by (by eapply list_elem_of_lookup_2).
  split; [|done]. apply list_elem_of_fmap. by exists x.
Qed.

Lemma Execute_refines i inst ins s :
  emu_ok s → emu_prog s !! i = Some inst → Pc s = load + Z.of_nat i → decode inst = Some ins →
  refines (astep ins) (Execute i) s.
Proof.
  intros Hs Hi Hpc Hd. destruct (prog_inst _ _ _ _ _ Hs Hi) as [(W1 & W2 & W3 & W4) Hlt].
  pose proof (eo_regs _ _ _ Hs) as Hl. pose proof (emu_room s Hs) as Hr.
  destruct (pw_load _ _ _ (eo_prog _ _ _ Hs)) as (P1 & P2 & P3).
  assert (Hn : ∃ o, find_opcode (Number inst) = Some o).
  { unfold decode in Hd. destruct (find_opcode (Number inst)); [by eexists|done]. }
  destruct Hn as [o Ho]. destruct (find_opcode_number _ _ Ho) as [Hn _]. clear Ho.
  destruct inst as [d s2 n c s1]. simpl in *.
  unfold refines, Execute. wp_step. wp_step. wp_step. unfold wp at 1, lift_opt. rewrite Hi.
  cbn [fmap option_fmap option_map]. cbv zeta. cbn [Number Src1 Src2 Dest].
  fold (refines (astep ins)).
  rewrite !elem_of_cons, elem_of_nil in Hn.
  repeat (destruct Hn as [->|Hn]); try done; vm_compute in Hd; try done; injection Hd as <-.
  all: try (specialize (W3 eq_refl); assert (is_s32 s1) by (unfold is_s32; lia)).
  all: try (specialize (W4 _ eq_refl eq_refl)).
  all: lazymatch goal with
       | |- context [astep (IWait ?k ?src ?r)] => refine (refines_wait k src r s Hl Hr _ _); done
       | |- context [astep (ICompute ?op ?src ?r ?d)] => refine (refines_compute op src r d s Hl Hr _ _ _); done
       | |- context [astep (IBranch ?c ?a)] => refine (refines_branch c a s Hs _); done
       | |- context [astep (ILoadIndexed ?d)] => refine (refines_indexed d s Hs _); done
       | |- context [astep ISkip] => exact (refines_next s Hr)
       | |- context [astep IStop] => by split
       end.
Qed.

(** * Runs *)

(** [n] steps of a decoded program loaded at [load]; [None] when the program
    counter leaves it. *)
Fixpoint arun (prog : list instr) (n : nat) (s : amach) : option amach :=
  match n with
  | O => Some s
  | Datatypes.S n =>
    ins ← (if a_pc s <? load then None else prog !! Z.to_nat (a_pc s - load));
    arun prog n (astep ins s)
  end.

Lemma execute_n_refines prog n s :
  emu_ok s → mapM decode (emu_prog s) = Some prog →
  wp (execute_n load n) (λ _ s', arun prog n (abs s) = Some (abs s')) s.
Proof.
  revert s. induction n as [|n IH]; intros s Hs Hd; cbn [execute_n]; [by wp_step|].
  wp_step. unfold execute_pc. wp_step. wp_step. pose proof (eo_pc _ _ _ Hs) as Hpc.
  destruct (eo_prog _ _ _ Hs) as [P1 (P2 & P3 & P4) _ _].
  rewrite s32_small by (unfold is_s32; lia). rewrite (proj2 (Z.ltb_ge _ 0)) by lia.
  set (i := Z.to_nat (Pc s - load)).
  destruct (lookup_lt_is_Some_2 (emu_prog s) i) as [inst Hi]; [lia|].
  apply mapM_Some in Hd as Hd2. destruct (Forall2_lookup_l _ _ _ _ _ Hd2 Hi) as (ins & Hins & Hdec).
  assert (Hpci : Pc s = load + Z.of_nat i) by lia.
  pose proof (wp_Execute load count i inst s Hs Hi Hpci) as Hok.
  pose proof (Execute_refines i inst ins s Hs Hi Hpci Hdec) as Href.
  unfold refines, wp in *. destruct (Execute i s) as [[[] s1]|]; [|done].
  destruct Href as [Ha Hp]. specialize (IH s1 Hok ltac:(by rewrite Hp)).
  unfold wp in IH. destruct (execute_n load n s1) as [[[] s2]|]; [|done].
  cbn [arun]. change (a_pc (abs s)) with (Pc s). rewrite (proj2 (Z.ltb_ge _ _)) by lia.
  fold i. rewrite Hins. simpl. by rewrite <- Ha.
Qed.
End refine.

(** The abstract machine at the start of a program. *)
Definition a_start (load : Z) : amach := mk_amach (replicate 256 0) load None None.


Lemma wp_fetch i inst (body : Instruction → E ()) (Q : () → emu → Prop) s :
  emu_prog s !! i = Some inst → wp (body inst) Q s →
  wp (prog ← gets emu_prog; x ← lift_opt (prog !! i); body x) Q s.
Proof.
  intros Hi HQ. wp_step. wp_step. wp_step. unfold wp at 1, lift_opt. by rewrite Hi.
Qed.

(** Where the emulator deviates from its instruction set.  A watchdog
    instruction changes its own opcode when it runs, so that the next time it
    stops the program for good; MOVRI stores the register of the destination
    field, which it does not have, instead of its operand; and a branch on carry
    never branches. *)
Theorem emulator_deviations (load count : Z) (i : nat) (inst : Instruction) (s : emu) :
  emu_ok load count s → emu_prog s !! i = Some inst → Pc s = load + Z.of_nat i →
  (Number inst = WDOG →
     wp (Execute i) (λ _ s', ∀ s2, emu_prog s2 = emu_prog s' → Execute i s2 = Some ((), s2)) s) ∧
  (Number inst = MOVRI →
     let irg := Regm s !!! Z.to_nat LAdrINDEX in 0 <= irg < 256 →
     wp (Execute i) (λ _ s', Regm s' = <[Z.to_nat irg := Regm s !!! Z.to_nat (Dest inst)]> (Regm s)) s) ∧
  (Number inst = BCR → wp (Execute i) (λ _ s', Pc s' = Pc s + 1) s).
Proof.
  intros Hs Hi Hpc. pose proof (eo_regs _ _ _ Hs) as Hl. pose proof (emu_room _ _ _ Hs) as Hr.
  destruct (prog_inst _ _ _ _ _ Hs Hi) as [(W1 & W2 & W3 & W4) Hlt].
  destruct inst as [d s2 n c s1]. cbn [Number Src1 Src2 Dest] in *.
  split_and!; intros ->.
  - eapply wp_fetch; [exact Hi|].
    cut (wp (bump_number i;; next) (λ _ s', ∀ s2, emu_prog s2 = emu_prog s' → Execute i s2 = Some ((), s2)) s);
      [done|].
    unfold bump_number, next. wp_step. wp_step. wp_step. intros s3 E3. simpl in E3.
    assert (Hi3 : emu_prog s3 !! i = Some (mk_Instruction d s2 (u8 (WDOG + 1)) c s1)).
    { rewrite E3, list_lookup_alter, decide_True, Hi by done. done. }
    unfold Execute, mbind, M_bind, gets, lift_opt. rewrite Hi3. reflexivity.
  - set (irg := Regm s !!! Z.to_nat LAdrINDEX). intros Hirg. eapply wp_fetch; [exact Hi|]. cut (wp (r ← get_reg GREGS;
      (if (r >=? 0) && (r <? REGS) then
         v ← get_reg d; set_reg r v;; x ← get_reg r; SetPSwd x;; ShowDiffs
       else mret ());; next) (λ _ s', Regm s' = <[Z.to_nat irg := Regm s !!! Z.to_nat d]> (Regm s)) s); [done|].
    wp_step. apply wp_get; [done|done|]. change (reg (abs s) GREGS) with irg. change REGS with 256.
    rewrite (Z.geb_leb irg 0). rewrite (proj2 (Z.leb_le _ _)), (proj2 (Z.ltb_lt _ _)) by lia. cbn [andb]. cbv iota.
    wp_step. wp_step. apply wp_get; [done|lia|]. apply wp_set_finish; [done|done|].
    intros s3 Ea _ _. unfold next. wp_step.
    change (a_regs (abs s3) = <[Z.to_nat irg := Regm s !!! Z.to_nat d]> (Regm s)). rewrite Ea. simpl.
    rewrite s32_small; [done|].
    destruct (lookup_lt_is_Some_2 (Regm s) (Z.to_nat d)) as [x Hxx]; [lia|].
    change (is_s32 (Regm s !!! Z.to_nat d)). rewrite (list_lookup_total_correct _ _ _ Hxx).
    by apply (Forall_lookup_1 _ _ _ _ (eo_int _ _ _ Hs) Hxx).
  - eapply wp_fetch; [exact Hi|]. cut (wp (b ← psw_has PsCR; branch b s1) (λ _ s', Pc s' = Pc s + 1) s); [done|].
    unfold psw_has. repeat wp_step. destruct (psw_tests _ _ s Hs) as (_ & _ & _ & _ & _ & _ & T).
    rewrite T. simpl. unfold next. wp_step. simpl. unfold room in Hr. rewrite s32_small; [done|].
    unfold is_s32. lia.
Qed.

(** * Witnesses *)

(** Count down from 3 in GR1, then stop. *)
Definition countdown : ProgramBuf := mk_ProgramBuf 0x100 4 [
  mk_Instruction 0 0 MOVV 0 3;
  mk_Instruction 0 0 SUBV 0 1;
  mk_Instruction 0 0 BGT 0 0x101;
  mk_Instruction 0 0 HALT 0 0].

Lemma countdown_wf : prog_wf 0x100 4 (Program countdown).
Proof.
  eapply prog_wf_check; [lia|lia|done|by vm_compute|done|by left].
Qed.

(** Ten executions end at the stop with GR1 zero. *)
Example countdown_run :
  arun 0x100 [ICompute Move (SLit 3) 0 0; ICompute Sub (SLit 1) 0 0; IBranch Greater 0x101; IStop] 10
    (a_start 0x100) = Some (mk_amach (replicate 256 0) 0x103 (Some Eq) None).
Proof. vm_compute. reflexivity. Qed.



Definition watchdog : list Instruction := [mk_Instruction 0 0 WDOG 0 0; mk_Instruction 0 0 HALT 0 0].

Lemma emulator_deviations_witness :
  wp (Execute 0) (λ _ s', Execute 0 s' = Some ((), s'))
    (machine (emu_start (mk_ProgramBuf 0 2 watchdog))).
Proof.
  destruct (emulator_deviations 0 2 0 (mk_Instruction 0 0 WDOG 0 0)
    (machine (emu_start (mk_ProgramBuf 0 2 watchdog)))) as [Hw _]; [|reflexivity|reflexivity|].
  - apply (so_machine 0 2), (start_ok (mk_ProgramBuf 0 2 watchdog)). eapply prog_wf_check; [done|done|done|by vm_compute|done|by left].
  - eapply wp_mono; [by apply Hw|]. intros [] s' HE. by apply HE.
Defined.
