(* ===== verification/MttLex.v ===== *)
(** The scanner of the MTT assembler: [GetAtoms] and [LookUpOperator] of
    [src/mttn/tools/asm.c], with the operators of [asmP.h].

    The line number, position and file pointer of an atom only serve messages
    and are left out; [pos] stays because the scanner's loop tests it. *)
From Stdlib Require Import Ascii String.
From S2P Require Import Prelude MttText MttIsa MttObj.

Local Open Scope Z_scope.

(** * Operators *)

(** [OprId], by number. *)
Definition OprNOOP : nat := 0.
Definition OprNE : nat := 1.
Definition OprEQ : nat := 2.
Definition OprGT : nat := 3.
Definition OprGE : nat := 4.
Definition OprLT : nat := 5.
Definition OprLE : nat := 6.
Definition OprAS : nat := 7.
Definition OprPL : nat := 8.
Definition OprMI : nat := 9.
Definition OprTI : nat := 10.
Definition OprDI : nat := 11.
Definition OprAND : nat := 12.
Definition OprOR : nat := 13.
Definition OprXOR : nat := 14.
Definition OprNOT : nat := 15.
Definition OprNEG : nat := 16.
Definition OprLSH : nat := 17.
Definition OprRSH : nat := 18.
Definition OprINC : nat := 19.
Definition OprDECR : nat := 20.
Definition OprPOP : nat := 21.
Definition OprSTM : nat := 22.
Definition OprLBL : nat := 23.

(** The names of [OprNames]. *)
Definition OprNames : list string :=
  ["?"; "!="; "="; ">"; ">="; "<"; "<="; ":="; "+"; "-"; "*"; "/"; "&"; "!"; "!!"; "~"; "-~";
   "<<"; ">>"; "++"; "--"; ";"; "->"; ":"]%string.

(** * Atoms *)

Record Atom := mk_Atom {
  a_Type : AtomType;
  a_Text : option text;
  a_Value : Z
}.

(** [NewAtom]: all zeros, and zero is [Seperator]. *)
Definition blank : Atom := mk_Atom Seperator None 0.

(** [LookUpOperator]: the value stays 0 when there is no such operator. *)
Definition LookUpOperator (t : text) : Z :=
  Z.of_nat (default 0%nat (find_idx (λ n, bool_decide (t = str n)) OprNames)).

(** [if (!LookUpOpCode(atom)) LookUpRegister(atom);] *)
Definition alpha_atom (t : text) : option Atom :=
  o ← LookUpOpCode t;
  match o with
  | Some i => Some (mk_Atom Op_code (Some t) (Z.of_nat i))
  | None =>
    r ← LookUpRegister t;
    match r with
    | Some n => Some (mk_Atom Register (Some t) n)
    | None => Some (mk_Atom Alpha (Some t) 0)
    end
  end.

(** * Scanning *)

Definition TEXT : nat := 128.

(** [*cp]: behind the text there are zeros. *)
Definition cur (cp : text) : ascii := default (char 0) (head cp).

(** Characters of the given types, at most [n]. *)
Fixpoint span (ok : AtomType → bool) (n : nat) (l : text) : option (text * text) :=
  match n, l with
  | Datatypes.S n, c :: l' =>
    t ← atomhash c;
    if ok t then '(w, r) ← span ok n l'; Some (c :: w, r) else Some ([], l)
  | _, _ => Some ([], l)
  end.

(** A word for the buffer [text]: without room for its NUL the copy runs on. *)
Definition word (ok : AtomType → bool) (l : text) : option (text * text) :=
  '(w, r) ← span ok TEXT l; if (length w <? TEXT)%nat then Some (w, r) else None.

Definition is_alnum (t : AtomType) : bool := bool_decide (t = Alpha) || bool_decide (t = Numeric).
Definition is_operator (t : AtomType) : bool := bool_decide (t = Operator).

(** Separators up to the end of the line: how many, whether a newline ended
    them, and the rest. *)
Fixpoint separators (l : text) : option (Z * bool * text) :=
  match l with
  | c :: l' =>
    t ← atomhash c;
    if bool_decide (t = Seperator) then
      if bool_decide (c = newline) then Some (0, true, l')
      else '(n, nl, r) ← separators l'; Some (n + 1, nl, r)
    else Some (0, false, l)
  | [] => Some (0, false, [])
  end.

(** A comment after its opening mark: its text, whether a mark ended it (and
    not the line), and the rest, which begins with that mark.  The buffer is not
    checked: a long comment overflows it. *)
Fixpoint comment (room : nat) (l : text) : option (text * bool * text) :=
  t ← atomhash (cur l);
  if bool_decide (t = Comment) then Some ([], true, l)
  else match l with
  | [] => Some ([], false, [])
  | c :: l' =>
    if bool_decide (c = newline) || bool_decide (c = char 0) then Some ([], false, l')
    else match room with
    | O => None
    | Datatypes.S room => '(w, m, r) ← comment room l'; Some (c :: w, m, r)
    end
  end.

Section scan.
Variable st_size : Z.

(** The loop of [GetAtoms]: the atoms, the last one blank, and the number of
    errors reported. *)
Fixpoint scan (fuel : nat) (pos : Z) (cp : text) : option (list Atom * Z) :=
  match fuel with
  | O => None
  | Datatypes.S fuel =>
    if pos <=? st_size then
      t ← atomhash (cur cp);
      let put (a : Atom) (pos : Z) (cp : text) : option (list Atom * Z) :=
        '(l, e) ← scan fuel pos cp; Some (a :: l, e) in
      match t with
      | Numeric =>
        let '(v, ep) := strtoul cp in
        put (mk_Atom Numeric None (s32 v)) (pos + Z.of_nat (length cp - length ep)) ep
      | Alpha =>
        '(w, r) ← word is_alnum cp;
        a ← alpha_atom w;
        put a (pos + Z.of_nat (length w)) r
      | Seperator =>
        '(n, nl, r) ← separators cp;
        if nl : bool then put blank 0 r else scan fuel (pos + n) r
      | Comment =>
        '(w, m, r) ← comment TEXT (tail cp);
        if (length w <? TEXT)%nat then
          put (mk_Atom (if m : bool then Comment else Seperator) (Some w) 0)
            (pos + Z.of_nat (length w)) r
        else None
      | Operator =>
        '(w, r) ← word is_operator cp;
        put (mk_Atom Operator (Some w) (LookUpOperator w)) (pos + Z.of_nat (length w)) r
      | Open | Close | Open_index | Close_index | Bit => put (mk_Atom t None 0) (pos + 1) (tail cp)
      | Illegal_char => Some ([blank], 1)
      | _ => Some ([blank], 0)
      end
    else Some ([blank], 0)
  end.

(** [GetAtoms]; [None] inside is its NULL. *)
Definition GetAtoms (buf : text) : option (option (list Atom * Z)) :=
  if bool_decide (cur buf = char 46) then Some None
  else r ← scan (Datatypes.S (length buf)) 1 buf; Some (Some r).
End scan.
