(* ===== verification/MttAsm.v ===== *)
(** The assembler of the MTT: the symbol table, the expression stacks,
    [Assemble] and the compiling half of [main] ([src/mttn/tools/asm.c]).

    The static variables of the program and the locals of [Assemble] are the
    fields of one record; what is printed is left out, the number of errors
    reported is kept. *)
From Stdlib Require Import Ascii String.
From S2P Require Import Prelude MttText MttIsa MttObj MttLex.

Local Open Scope Z_scope.

(** * Data *)

Record Symbol := mk_Symbol {
  Name : text;
  Value : Z;
  Defined_ : Z
}.

(** [SymbolRef] is a position in the symbol table. *)
Record Operand := mk_Operand {
  SymbolRef : option nat;
  LiteralValue : Z
}.

Inductive ErrorType := FATAL_RUN_TIME | RUN_TIME | FATAL_SYNTAX | SYNTAX.

Definition MAX_ERROR_COUNT : Z := 10.
Definition SYMBOLS : nat := 1024.
Definition OPERAND_STACK : nat := 64.
Definition OPERATOR_STACK : nat := 32.
Definition FORWARD_REFS : nat := 100.

(** The static variables, the program and the locals of [Assemble].  The
    operand stack keeps the operands above its top; of the operators only those
    below the top can be read, the top is first.  [a_program] holds the
    instructions written so far, [a_inst] is the index of [inst]; [patom] is
    not initialised. *)
Record asm := mk_asm {
  error_count : Z;
  symbolTable : list Symbol;
  operandStack : list Operand;
  operandStackSize : nat;
  operatorStack : list nat;
  forward : list (nat * nat);
  a_load : Z;
  a_count : Z;
  a_program : list Instruction;
  pc : Z;
  index : nat;
  a_inst : nat;
  patom : option Atom;
  expect_lit : bool;
  expect_sr1 : bool;
  expect_sr2 : bool;
  expect_dst : bool
}.

(** * Outcomes

    A run ends, calls [exit(1)] or has undefined behaviour. *)
Inductive outcome (A : Type) := Done (a : A) | Exits | Undefined.
Arguments Done {A} _.
Arguments Exits {A}.
Arguments Undefined {A}.

Definition Asm (A : Type) : Type := asm → outcome (A * asm).

#[export] Instance Asm_ret : MRet Asm := λ A a s, Done (a, s).
#[export] Instance Asm_bind : MBind Asm := λ A B f m s,
  match m s with
  | Done (a, s') => f a s'
  | Exits => Exits
  | Undefined => Undefined
  end.

Definition get {A} (f : asm → A) : Asm A := λ s, Done (f s, s).
Definition put (f : asm → asm) : Asm () := λ s, Done ((), f s).
Definition undefined {A} : Asm A := λ _, Undefined.
Definition read {A} (o : option A) : Asm A := match o with Some a => mret a | None => undefined end.

(** * Errors *)

Definition fatal (et : ErrorType) : bool :=
  match et with FATAL_RUN_TIME | FATAL_SYNTAX => true | _ => false end.

Definition Error (et : ErrorType) : Asm () := λ s,
  if error_count s >=? MAX_ERROR_COUNT then Exits
  else if fatal et then Exits
  else Done ((), s <| error_count := error_count s + 1 |>).

(** * Symbols *)

Definition GetSymbol (name : text) : Asm nat :=
  tab ← get symbolTable;
  match find_idx (λ x, bool_decide (name = Name x)) tab with
  | Some i => mret i
  | None =>
    if (SYMBOLS <=? length tab)%nat then Error FATAL_RUN_TIME;; undefined
    else put (λ s : asm, s <| symbolTable := tab ++ [mk_Symbol name 0 0] |>);; mret (length tab)
  end.

Definition symbol (i : nat) : Asm Symbol := tab ← get symbolTable; read (tab !! i).

Definition define_symbol (i : nat) (v d : Z) : Asm () :=
  put (λ s : asm, s <| symbolTable := alter (λ x, mk_Symbol (Name x) v d) i (symbolTable s) |>).

(** * Expression stacks *)

Definition PushOperand (o : Operand) : Asm () :=
  n ← get operandStackSize;
  if (n <? OPERAND_STACK)%nat then
    put (λ s : asm, s <| operandStack := <[n := o]> (operandStack s) |> <| operandStackSize := S n |>)
  else Error FATAL_RUN_TIME;; undefined.

Definition PushOperator (o : nat) : Asm () :=
  l ← get operatorStack;
  if (length l <? OPERATOR_STACK)%nat then put (λ s : asm, s <| operatorStack := o :: l |>)
  else Error FATAL_RUN_TIME;; undefined.

Definition PopOperand : Asm (option Operand) :=
  n ← get operandStackSize;
  match n with
  | S n =>
    put (λ s : asm, s <| operandStackSize := n |>);;
    l ← get operandStack;
    o ← read (l !! n);
    mret (Some o)
  | O => Error RUN_TIME;; mret None
  end.

Definition PopOperator : Asm (option nat) :=
  l ← get operatorStack;
  match l with
  | o :: l => put (λ s : asm, s <| operatorStack := l |>);; mret (Some o)
  | [] => Error RUN_TIME;; mret None
  end.

Definition ResetStacks : Asm () :=
  put (λ s : asm, s <| operandStackSize := 0%nat |> <| operatorStack := [] |>).

Definition GetValue (o : Operand) : Asm Z :=
  match SymbolRef o with
  | Some i => x ← symbol i; mret (Value x)
  | None => mret (LiteralValue o)
  end.

(** * Expressions *)

Definition literal (v : Z) : Operand := mk_Operand None v.

(** [true_operand] and [false_operand]. *)
Definition truth (b : bool) : Operand := literal (if b then 0xFFFFFFFF else 0).

(** A binary operator on [long]s, which wrap; a shift count counts modulo 64.
    The inner [None] is a trap: a division by zero or an overflowing one. *)
Definition binary_operator (op : nat) (l r : Z) : option (option Operand) :=
  if (op =? OprNE)%nat then Some (Some (truth (negb (l =? r))))
  else if (op =? OprEQ)%nat then Some (Some (truth (l =? r)))
  else if (op =? OprGT)%nat then Some (Some (truth (l >? r)))
  else if (op =? OprGE)%nat then Some (Some (truth (l >=? r)))
  else if (op =? OprLT)%nat then Some (Some (truth (l <? r)))
  else if (op =? OprLE)%nat then Some (Some (truth (l <=? r)))
  else if (op =? OprPL)%nat then Some (Some (literal (s64 (l + r))))
  else if (op =? OprMI)%nat then Some (Some (literal (s64 (l - r))))
  else if (op =? OprTI)%nat then Some (Some (literal (s64 (l * r))))
  else if (op =? OprDI)%nat then
    Some (if (r =? 0) || ((l =? - 2 ^ 63) && (r =? -1)) then None else Some (literal (Z.quot l r)))
  else if (op =? OprAND)%nat then Some (Some (literal (Z.land l r)))
  else if (op =? OprOR)%nat then Some (Some (literal (Z.lor l r)))
  else if (op =? OprXOR)%nat then Some (Some (literal (Z.lxor l r)))
  else if (op =? OprLSH)%nat then Some (Some (literal (s64 (Z.shiftl l (r mod 64)))))
  else if (op =? OprRSH)%nat then Some (Some (literal (Z.shiftr l (r mod 64))))
  else None.

Definition unary_operator (op : nat) (l : Z) : option Operand :=
  if (op =? OprNOT)%nat then Some (literal (Z.lnot l))
  else if (op =? OprNEG)%nat then Some (literal (s64 (- l)))
  else None.

(** [++] and [--]: the step. *)
Definition step_operator (op : nat) : option Z :=
  if (op =? OprINC)%nat then Some 1 else if (op =? OprDECR)%nat then Some (-1) else None.

(** Pop one operand, or return 0. *)
Definition pop1 (k : Operand → Asm Z) : Asm Z :=
  o ← PopOperand; match o with Some o => k o | None => mret 0 end.

(** The loop of [DoExpression] pops an operator each time round: the fuel is
    their number and one more. *)
Fixpoint do_expression (fuel : nat) : Asm Z :=
  match fuel with
  | O => undefined
  | S fuel =>
    op ← PopOperator;
    match op with
    | None => mret 0
    | Some op =>
      if binary_operator op 0 1 then
        pop1 (λ right, pop1 (λ left,
          l ← GetValue left; r ← GetValue right;
          res ← read (binary_operator op l r ≫= id);
          PushOperand res;; do_expression fuel))
      else if unary_operator op 0 then
        pop1 (λ left, l ← GetValue left; res ← read (unary_operator op l);
          PushOperand res;; do_expression fuel)
      else match step_operator op with
      | Some d =>
        pop1 (λ left,
          l ← GetValue left;
          match SymbolRef left with
          | Some i =>
            x ← symbol i;
            define_symbol i (s64 (l + d)) (Defined_ x);;
            PushOperand (literal (s64 (l + d)))
          | None => Error RUN_TIME
          end;;
          do_expression fuel)
      | None =>
        if (op =? OprPOP)%nat then pop1 (λ right, mret (LiteralValue right))
        else if (op =? OprAS)%nat then
          pop1 (λ right, pop1 (λ left,
            r ← GetValue right;
            match SymbolRef left with
            | Some i => define_symbol i r 1;; PushOperand right
            | None => Error RUN_TIME
            end;;
            do_expression fuel))
        else if (op =? OprSTM)%nat then
          n ← get operandStackSize; l ← get operandStack; o ← read (l !! n); mret (LiteralValue o)
        else mret 0
      end
    end
  end.

Definition DoExpression : Asm Z := l ← get operatorStack; do_expression (S (length l)).

(** * Syntax *)

Definition CompareAtomTypes (x y : AtomType) : bool :=
  bool_decide (x = y) || bool_decide (x = Not_set) || bool_decide (y = Not_set) ||
  (bool_decide (x = Expression) && (bool_decide (y = Numeric) || bool_decide (y = Alpha))) ||
  (bool_decide (y = Expression) && (bool_decide (x = Numeric) || bool_decide (x = Alpha))) ||
  (bool_decide (x = Seperator) && bool_decide (y = Comment)) ||
  (bool_decide (y = Seperator) && bool_decide (x = Comment)).

(** The atom reached from the first one of the list by going to the next while
    there is one and the atom is a separator. *)
Fixpoint skip_separators (l : list Atom) : list Atom :=
  match l with
  | a :: (_ :: _) as l' =>
    if CompareAtomTypes (a_Type a) Seperator then skip_separators l' else l
  | _ => l
  end.

(** Go to the next atom, then over separators; stay at the last atom. *)
Definition next_atom (l : list Atom) : list Atom :=
  match l with
  | _ :: (_ :: _) as l' => skip_separators l'
  | _ => l
  end.

(** One expected operand: [None] is an error reported. *)
Definition confirm (want : AtomType) (l : list Atom) : Asm (option (list Atom)) :=
  if CompareAtomTypes (a_Type (default blank (head l))) want then mret (Some (next_atom l))
  else Error SYNTAX;; mret None.

(** The operands expected in turn. *)
Fixpoint confirm_all (wants : list AtomType) (l : list Atom) : Asm () :=
  match wants with
  | [] => mret ()
  | w :: wants =>
    r ← confirm w l;
    match r with Some l => confirm_all wants l | None => mret () end
  end.

Definition has_literal (opcd : OpCode) : bool :=
  match op_Src1 opcd with AtLiteral | AtAddress => true | _ => false end.
Definition is_register (t : ArgType) : bool := match t with AtRegister => true | _ => false end.

(** [atom] is the first of the list. *)
Definition GetConfirm (l : list Atom) (opcd : OpCode) : Asm () :=
  put (λ s : asm, s <| expect_lit := has_literal opcd |> <| expect_sr1 := is_register (op_Src1 opcd) |>
    <| expect_sr2 := is_register (op_Src2 opcd) |> <| expect_dst := is_register (op_Dest opcd) |>);;
  confirm_all
    ((if has_literal opcd then [Expression] else []) ++
     (if is_register (op_Src1 opcd) then [Register] else []) ++
     (if is_register (op_Src2 opcd) then [Register] else []) ++
     (if is_register (op_Dest opcd) then [Register] else [])) (next_atom l).

(** * Assembling *)

Definition zero_inst : Instruction := mk_Instruction 0 0 0 0 0.

(** [inst->field = v]. *)
Definition on_inst (f : Instruction → Instruction) : Asm () :=
  i ← get a_inst;
  l ← get a_program;
  x ← read (l !! i);
  put (λ s : asm, s <| a_program := <[i := f x]> l |>).

Section assemble.
(** The room for instructions: [malloc(sizeof(Instruction) * sourceLines)]. *)
Variable capacity : nat.

(** [inst = &(code->Program[index]); bzero(inst)] *)
Definition new_inst : Asm () :=
  i ← get index;
  l ← get a_program;
  if (i <? capacity)%nat && (i <=? length l)%nat then
    put (λ s : asm, s <| a_program := take i l ++ zero_inst :: drop (S i) l |> <| a_inst := i |>)
  else undefined.

Definition set_pc (v : Z) : Asm () := put (λ s : asm, s <| pc := v |>).

Definition numeric_atom (v : Z) : Asm () :=
  e ← get expect_lit;
  if e : bool then
    on_inst (λ x, x <| Src1 := v |>);; put (λ s : asm, s <| expect_lit := false |>)
  else PushOperand (literal v).

Definition symbol_atom (t : text) : Asm () :=
  i ← GetSymbol t;
  e ← get expect_lit;
  if e : bool then
    x ← symbol i;
    on_inst (λ y, y <| Src1 := Value x |>);;
    put (λ s : asm, s <| expect_lit := false |>);;
    if Value x =? 0 then
      put (λ s : asm, s <| forward := forward s ++ [(i, a_inst s)] |>);;
      f ← get forward;
      if (FORWARD_REFS <=? length f)%nat then Error FATAL_RUN_TIME else mret ()
    else mret ()
  else PushOperand (mk_Operand (Some i) 0).

(** A colon: what precedes it becomes a label or the start address. *)
Definition label_atom : Asm () :=
  p ← get patom;
  p ← read p;
  if bool_decide (a_Type p = Alpha) then
    t ← read (a_Text p);
    i ← GetSymbol t;
    x ← symbol i;
    (if truthy (Value x) then Error SYNTAX else mret ());;
    a ← get pc;
    define_symbol i a 1
  else if bool_decide (a_Type p = Numeric) then
    a ← get pc;
    if a =? 0 then
      set_pc (s32 (a_Value p));;
      put (λ s : asm, s <| a_load := u64 (pc s) |>)
    else Error SYNTAX
  else mret ().

Definition opcode_atom (atom : Atom) (rest : list Atom) : Asm () :=
  new_inst;;
  opcd ← read (InstructionSet !! Z.to_nat (a_Value atom));
  GetConfirm (atom :: rest) opcd;;
  on_inst (λ x, x <| Number := u8 (op_Number opcd) |>);;
  put (λ s : asm, s <| pc := s32 (pc s + 1) |> <| index := S (index s) |>
    <| a_count := Z.of_nat (S (index s)) |>).

Definition register_atom (v : Z) : Asm () :=
  e1 ← get expect_sr1; e2 ← get expect_sr2; ed ← get expect_dst;
  if e1 : bool then
    on_inst (λ x, x <| Src1 := v |>);; put (λ s : asm, s <| expect_sr1 := false |>)
  else if e2 : bool then
    on_inst (λ x, x <| Src2 := u8 v |>);; put (λ s : asm, s <| expect_sr2 := false |>)
  else if ed : bool then
    on_inst (λ x, x <| Dest := u8 v |>);; put (λ s : asm, s <| expect_dst := false |>)
  else mret ().

Definition separator_atom : Asm () :=
  ResetStacks;;
  e ← get expect_lit;
  if e : bool then Error SYNTAX;; put (λ s : asm, s <| expect_lit := false |>) else mret ().

(** The switch on the type of an atom; [rest] are the atoms behind it. *)
Definition assemble_atom (atom : Atom) (rest : list Atom) : Asm () :=
  match a_Type atom with
  | Numeric => numeric_atom (a_Value atom)
  | Alpha => t ← read (a_Text atom); symbol_atom t
  | Operator =>
    if (Z.to_nat (a_Value atom) =? OprLBL)%nat then label_atom
    else PushOperator (Z.to_nat (a_Value atom))
  | Op_code => opcode_atom atom rest
  | Register => register_atom (a_Value atom)
  | Open | Open_index =>
    PushOperator OprSTM;; put (λ s : asm, s <| expect_lit := false |>)
  | Close | Close_index =>
    v ← DoExpression;
    on_inst (λ x, x <| Src1 := v |>);;
    put (λ s : asm, s <| expect_lit := false |>)
  | Seperator => separator_atom
  | _ => mret ()
  end.

Fixpoint assemble_atoms (l : list Atom) : Asm () :=
  match l with
  | [] => mret ()
  | atom :: rest =>
    assemble_atom atom rest;;
    put (λ s : asm, s <| patom := Some atom |>);;
    assemble_atoms rest
  end.

(** [Assemble], for a file of [st_size] bytes. *)
Definition Assemble (st_size : Z) (source : text) : Asm Z :=
  r ← read (GetAtoms st_size source);
  match r with
  | None => Error FATAL_SYNTAX;; undefined
  | Some (atoms, e) =>
    put (λ s : asm, s <| error_count := error_count s + e |> <| pc := 0 |> <| index := 0%nat |>);;
    new_inst;;
    assemble_atoms atoms;;
    get error_count
  end.

(** [for (i = 0; i < fwix; i++) forward[i].Inst->Src1 = forward[i].Symb->Value] *)
Fixpoint fix_forward (l : list (nat * nat)) : Asm () :=
  match l with
  | [] => mret ()
  | (sy, i) :: l =>
    x ← symbol sy;
    prog ← get a_program;
    y ← read (prog !! i);
    put (λ s : asm, s <| a_program := <[i := y <| Src1 := Value x |>]> prog |>);;
    fix_forward l
  end.
End assemble.

(** The static variables at the start. *)
Definition asm_start : asm :=
  mk_asm 0 [] (replicate OPERAND_STACK (literal 0)) 0 [] [] 0 0 [] 0 0 0 None false false false false.

(** The characters of the file up to a zero or the character that equals
    [(char) EOF]. *)
Fixpoint read_source (f : text) : text :=
  match f with
  | [] => []
  | c :: f =>
    if bool_decide (c = char 255) || bool_decide (c = char 0) then [] else c :: read_source f
  end.

Definition sourceLines (source : text) : nat :=
  length (filter (λ c, c = newline) source).

(** The compiling half of [main]: the object file written. *)
Definition compile (file : text) : outcome text :=
  if (length file <? 2)%nat then Exits
  else
    let source := read_source file in
    match
      (e ← Assemble (sourceLines source) (Z.of_nat (length file)) source;
       (if e =? 0 then f ← get forward; fix_forward f else mret ());;
       l ← get a_load; n ← get a_count; prog ← get a_program;
       mret (mk_ProgramBuf l n prog)) asm_start
    with
    | Done (prog, _) => Done (WriteObject prog)
    | Exits => Exits
    | Undefined => Undefined
    end.

(** An example: the label of a loop, used before and after its definition. *)
Definition sample : text := str
"0x100 :
  MOVV 0x5 GR1
loop: SUBV 0x1 GR1 GR1
  BEQ done
  JMP loop % again
done: HALT
".
