(* ===== verification/MttLexProofs.v ===== *)
(** What the scanner of the MTT assembler makes of a text: [spells] is the
    lexical grammar, and a text that spells a list of atoms is scanned into that
    list ([scan_spells]), whatever the fuel above its length. *)
From Stdlib Require Import Ascii String.
From S2P Require Import Prelude MttText MttIsa MttObj MttLex.

Local Open Scope Z_scope.

(** * Characters *)

Definition class (c : ascii) (t : AtomType) : Prop := atomhash c = Some t.

(** A separator that does not end the line. *)
Definition blank_char (c : ascii) : Prop := class c Seperator ∧ c ≠ newline.

(** A character that ends a word: it has a type, of another kind. *)
Definition stops (ok : AtomType → bool) (rest : text) : Prop :=
  match rest with [] => True | c :: _ => ∃ t, class c t ∧ ok t = false end.

Definition all_ok (ok : AtomType → bool) (w : text) : Prop :=
  Forall (λ c, ∃ t, class c t ∧ ok t = true) w.

(** A character that is allowed in a comment. *)
Definition comment_char (c : ascii) : Prop :=
  (∃ t, class c t ∧ t ≠ Comment) ∧ c ≠ newline ∧ c ≠ char 0.

(** * The lexical grammar *)

Inductive spells : list Atom → text → Prop :=
  | spells_end : spells [blank] []
  | spells_blank c l t : blank_char c → spells l t → spells l (c :: t)
  | spells_eol l t : spells l t → spells (blank :: l) (newline :: t)
  | spells_comment w l t :
      Forall comment_char w → (length w < TEXT)%nat → spells l t →
      spells (mk_Atom Seperator (Some w) 0 :: l) (char 37 :: w ++ newline :: t)
  | spells_number c w v l t :
      class c Numeric → all_ok is_alnum w → strtoul (c :: w ++ t) = (v, t) → spells l t →
      spells (mk_Atom Numeric None (s32 v) :: l) (c :: w ++ t)
  | spells_word c w a l t :
      class c Alpha → all_ok is_alnum w → (S (length w) < TEXT)%nat → stops is_alnum t →
      alpha_atom (c :: w) = Some a → spells l t →
      spells (a :: l) (c :: w ++ t)
  | spells_operator c w l t :
      class c Operator → all_ok is_operator w → (S (length w) < TEXT)%nat → stops is_operator t →
      spells l t →
      spells (mk_Atom Operator (Some (c :: w)) (LookUpOperator (c :: w)) :: l) (c :: w ++ t)
  | spells_single c a l t :
      class c a → a ∈ [Open; Close; Open_index; Close_index; Bit] → spells l t →
      spells (mk_Atom a None 0 :: l) (c :: t).

(** * Scanning *)

Section scans.
Variable st_size : Z.

(** The text is scanned into these atoms and without an error, wherever the
    position stands. *)
Definition scans (t : text) (l : list Atom) : Prop :=
  ∀ fuel pos, (length t < fuel)%nat → 0 <= pos → pos + Z.of_nat (length t) <= st_size + 1 →
  scan st_size fuel pos t = Some (l, 0).

Lemma span_ok ok w rest n :
  all_ok ok w → stops ok rest → (length w < n)%nat → span ok n (w ++ rest) = Some (w, rest).
Proof.
  intros Hw Hr. revert n. induction Hw as [|c w (t & Ht & Ho) Hw IH]; intros [|n] Hn; try (simpl in Hn; lia).
  - destruct rest as [|c rest]; [done|]. destruct Hr as (t & Ht & Ho).
    cbn [app span]. unfold class in Ht. rewrite Ht. unfold mbind, option_bind. by rewrite Ho.
  - cbn [app span]. unfold class in Ht. rewrite Ht. unfold mbind, option_bind.
    rewrite Ho, IH by (simpl in Hn; lia). done.
Qed.

Lemma word_ok ok c w rest t :
  class c t → ok t = true → all_ok ok w → (S (length w) < TEXT)%nat → stops ok rest →
  word ok (c :: w ++ rest) = Some (c :: w, rest).
Proof.
  intros Hc Ho Hw Hl Hr. unfold word. change (c :: w ++ rest) with ((c :: w) ++ rest).
  rewrite (span_ok ok (c :: w)); [|by constructor; eauto|done|by simpl].
  unfold mbind, option_bind. cbv beta iota. destruct (Nat.ltb_spec (length (c :: w)) TEXT); simpl in *; [done|lia].
Qed.

Lemma comment_ok w rest n :
  Forall comment_char w → (length w <= n)%nat → comment n (w ++ newline :: rest) = Some (w, false, rest).
Proof.
  intros Hw. revert n. induction Hw as [|c w ((t & Ht & Hn) & Hnl & H0) Hw IH]; intros n Hl.
  - destruct n; reflexivity.
  - destruct n as [|n]; [simpl in Hl; lia|]. cbn [app comment]. change (cur (c :: w ++ newline :: rest)) with c.
    unfold class in Ht. rewrite Ht. unfold mbind, option_bind.
    rewrite (bool_decide_false (t = Comment)) by done.
    rewrite (bool_decide_false (c = newline)), (bool_decide_false (c = char 0)) by done. cbn [orb].
    rewrite IH by (simpl in Hl; lia). done.
Qed.

(** One step of the scanner. *)
Lemma scan_step fuel pos c t a :
  (length (c :: t) < fuel)%nat → pos + Z.of_nat (length (c :: t)) <= st_size + 1 → class c a →
  ∃ fuel', fuel = S fuel' ∧ (pos <=? st_size) = true ∧ atomhash (cur (c :: t)) = Some a ∧ (length t < fuel')%nat.
Proof.
  intros Hf Hp Hc. destruct fuel as [|fuel]; [simpl in Hf; lia|]. exists fuel.
  split; [done|]. split; [apply Z.leb_le; simpl in Hp; lia|]. split; [done|]. simpl in Hf. lia.
Qed.

Lemma scans_end : scans [] [blank].
Proof.
  intros [|fuel] pos Hf _ _; [simpl in Hf; lia|]. cbn [scan]. destruct (pos <=? st_size); reflexivity.
Qed.

Ltac start c t := let fuel := fresh "fuel" in let pos := fresh "pos" in
  intros fuel pos Hf H0 Hp;
  destruct (scan_step fuel pos c t _ Hf Hp ltac:(eassumption)) as (fuel' & -> & Hpos & Hat & Hf');
  cbn [scan]; rewrite Hpos, Hat; unfold mbind at 1, option_bind at 1.

(** Put an atom in front of what the rest is scanned into. *)
Lemma put_ok t l a fuel pos :
  scans t l → (length t < fuel)%nat → 0 <= pos → pos + Z.of_nat (length t) <= st_size + 1 →
  ('(l, e) ← scan st_size fuel pos t; Some (a :: l, e)) = Some (a :: l, 0).
Proof. intros Hs Hf H0 Hp. by rewrite (Hs fuel pos). Qed.

Lemma scans_newline t l : scans t l → scans (newline :: t) (blank :: l).
Proof.
  intros Hs. assert (class newline Seperator) by reflexivity. start newline t.
  change (separators (newline :: t)) with (Some (0, true, t)). cbv beta iota.
  apply put_ok; [done|done|lia|]. simpl in Hp. lia.
Qed.

Lemma scans_comment w t l :
  Forall comment_char w → (length w < TEXT)%nat → scans t l →
  scans (char 37 :: w ++ newline :: t) (mk_Atom Seperator (Some w) 0 :: l).
Proof.
  intros Hw Hl Hs. assert (class (char 37) Comment) by reflexivity. start (char 37) (w ++ newline :: t).
  cbn [tail]. rewrite comment_ok by (done || lia). unfold mbind at 1, option_bind at 1. cbv beta iota.
  destruct (Nat.ltb_spec (length w) TEXT); [|lia].
  rewrite length_app in Hf'. simpl in Hf'. cbn [length] in Hp. rewrite length_app in Hp. simpl in Hp.
  apply put_ok; [done|lia|lia|lia].
Qed.

Lemma scans_number c w v t l :
  class c Numeric → strtoul (c :: w ++ t) = (v, t) → scans t l →
  scans (c :: w ++ t) (mk_Atom Numeric None (s32 v) :: l).
Proof.
  intros Hc Hn Hs. start c (w ++ t). rewrite Hn. cbn [length] in *. rewrite length_app in *.
  apply put_ok; [done|lia|lia|lia].
Qed.

Lemma scans_word c w a t l :
  class c Alpha → all_ok is_alnum w → (S (length w) < TEXT)%nat → stops is_alnum t →
  alpha_atom (c :: w) = Some a → scans t l →
  scans (c :: w ++ t) (a :: l).
Proof.
  intros Hc Hw Hl Ht Ha Hs. start c (w ++ t).
  rewrite (word_ok is_alnum c w t Alpha) by done. unfold mbind at 1, option_bind at 1. cbv beta iota.
  rewrite Ha. unfold mbind at 1, option_bind at 1. cbv beta iota.
  cbn [length] in *. rewrite length_app in *. apply put_ok; [done|lia|lia|lia].
Qed.

Lemma scans_operator c w t l :
  class c Operator → all_ok is_operator w → (S (length w) < TEXT)%nat → stops is_operator t →
  scans t l →
  scans (c :: w ++ t) (mk_Atom Operator (Some (c :: w)) (LookUpOperator (c :: w)) :: l).
Proof.
  intros Hc Hw Hl Ht Hs. start c (w ++ t).
  rewrite (word_ok is_operator c w t Operator) by done. unfold mbind at 1, option_bind at 1. cbv beta iota.
  cbn [length] in *. rewrite length_app in *. apply put_ok; [done|lia|lia|lia].
Qed.

Lemma scans_single c a t l :
  class c a → a ∈ [Open; Close; Open_index; Close_index; Bit] → scans t l →
  scans (c :: t) (mk_Atom a None 0 :: l).
Proof.
  intros Hc Ha Hs. start c t. cbn [tail].
  assert (H1 : ('(l, e) ← scan st_size fuel' (pos + 1) t; Some (mk_Atom a None 0 :: l, e)) =
               Some (mk_Atom a None 0 :: l, 0)) by (apply put_ok; [done|done|lia|simpl in Hp; lia]).
  rewrite !elem_of_cons in Ha. do 5 (destruct Ha as [->|Ha]; [exact H1|]). by apply elem_of_nil in Ha.
Qed.

Lemma separators_blank c t :
  blank_char c → separators (c :: t) = '(n, nl, r) ← separators t; Some (n + 1, nl, r).
Proof.
  intros [Hc Hn]. cbn [separators]. unfold class in Hc. rewrite Hc. unfold mbind at 1, option_bind at 1.
  by rewrite bool_decide_true, bool_decide_false.
Qed.

Lemma separators_stop c t a : class c a → a ≠ Seperator → separators (c :: t) = Some (0, false, c :: t).
Proof.
  intros Hc Hn. cbn [separators]. unfold class in Hc. rewrite Hc. unfold mbind at 1, option_bind at 1.
  by rewrite bool_decide_false.
Qed.

(** A run of separators is scanned in one step, like its tail. *)
Lemma scans_blank c t l : blank_char c → scans t l → scans (c :: t) l.
Proof.
  intros Hb Hs. pose proof (proj1 Hb) as Hc. start c t. rewrite separators_blank by done. cbn [length] in *.
  destruct fuel' as [|fuel'']; [lia|].
  destruct t as [|c' t].
  { cbn [separators]. unfold mbind, option_bind. cbv beta iota.
    by rewrite (Hs (S fuel'') (pos + (0 + 1))) by (simpl in *; lia). }
  pose proof (Hs (S (S fuel'')) (pos + 1) ltac:(simpl in *; lia) ltac:(lia) ltac:(simpl in *; lia)) as Hone.
  pose proof (Hs (S fuel'') (pos + 1) ltac:(simpl in *; lia) ltac:(lia) ltac:(simpl in *; lia)) as Hone'.
  remember (S fuel'') as fuel' eqn:Ef. clear Ef.
  cbn [scan] in Hone. rewrite (proj2 (Z.leb_le (pos + 1) st_size)) in Hone by (simpl in *; lia).
  change (cur (c' :: t)) with c' in Hone.
  destruct (atomhash c') as [t'|] eqn:E'; [|discriminate Hone].
  unfold mbind at 1, option_bind at 1 in Hone.
  destruct (decide (t' = Seperator)) as [->|Hne].
  - destruct (separators (c' :: t)) as [[[n nl] r]|] eqn:Es; [|discriminate Hone].
    unfold mbind, option_bind in Hone |- *. cbv beta iota in Hone |- *.
    replace (pos + (n + 1)) with (pos + 1 + n) by lia. exact Hone.
  - rewrite (separators_stop c' t t') by done.
    unfold mbind, option_bind in Hone' |- *. cbv beta iota. replace (pos + (0 + 1)) with (pos + 1) by lia. exact Hone'.
Qed.

(** The scanner recognises the grammar. *)
Lemma scan_spells l t : spells l t → scans t l.
Proof.
  induction 1; eauto using scans_end, scans_blank, scans_newline, scans_comment, scans_number,
    scans_word, scans_operator, scans_single.
Qed.
End scans.

(** [GetAtoms] on the text of a whole file. *)
Lemma GetAtoms_spells l t :
  spells l t → head t ≠ Some (char 46) → GetAtoms (Z.of_nat (length t)) t = Some (Some (l, 0)).
Proof.
  intros Hs Hh. unfold GetAtoms. rewrite bool_decide_false.
  - rewrite (scan_spells _ _ _ Hs) by lia. done.
  - destruct t as [|c t]; [done|]. change (cur (c :: t)) with c. intros ->. by apply Hh.
Qed.

(** A text of the grammar has no character that would end the reading of the
    file, and a newline for every end of line. *)
Definition plain (c : ascii) : Prop := c ≠ char 255 ∧ c ≠ char 0.

Lemma class_plain c t : class c t → t ≠ Terminator → plain c.
Proof. intros Hc Ht. split; intros ->; cbv in Hc; congruence. Qed.

Lemma all_ok_plain ok w : ok Terminator = false → all_ok ok w → Forall plain w.
Proof.
  intros Hk Hw. eapply Forall_impl; [exact Hw|]. intros c (t & Hc & Ho). apply (class_plain c t Hc). congruence.
Qed.

Lemma comment_plain w : Forall comment_char w → Forall plain w.
Proof.
  intros Hw. eapply Forall_impl; [exact Hw|]. intros c ((t & Hc & _) & _ & H0). split; [|done]. intros ->. discriminate Hc.
Qed.

Lemma newline_plain : plain newline.
Proof. by apply (class_plain _ Seperator). Qed.

Lemma spells_plain l t : spells l t → Forall plain t.
Proof.
  induction 1 as [|c l t [Hc _]| |w l t Hw|c w v l t Hc Hw|c w a l t Hc Hw|c w l t Hc Hw|c a l t Hc Ha].
  - constructor.
  - constructor; [by eapply class_plain|done].
  - constructor; [by split|done].
  - constructor; [by split|]. apply Forall_app. split; [by apply comment_plain|].
    by constructor; [apply newline_plain|].
  - constructor; [by eapply class_plain|]. apply Forall_app. split; [|done]. by apply (all_ok_plain is_alnum).
  - constructor; [by eapply class_plain|]. apply Forall_app. split; [|done]. by apply (all_ok_plain is_alnum).
  - constructor; [by eapply class_plain|]. apply Forall_app. split; [|done]. by apply (all_ok_plain is_operator).
  - constructor; [|done]. eapply class_plain; [exact Hc|]. intros ->. by apply (bool_decide_pack _) in Ha.
Qed.

Definition ends (l : list Atom) : nat := length (filter (λ a, a_Type a = Seperator) l).

Definition newlines (t : text) : nat := length (filter (λ c, c = newline) t).

Lemma newlines_app t1 t2 : newlines (t1 ++ t2) = (newlines t1 + newlines t2)%nat.
Proof. unfold newlines. by rewrite filter_app, length_app. Qed.

Lemma newlines_cons c t : (newlines t <= newlines (c :: t))%nat.
Proof. change (c :: t) with ([c] ++ t). rewrite newlines_app. lia. Qed.

Lemma ends_cons a l : ends (a :: l) = ((if bool_decide (a_Type a = Seperator) then 1 else 0) + ends l)%nat.
Proof. unfold ends. rewrite filter_cons. repeat case_decide; case_bool_decide; done. Qed.

Lemma alpha_atom_type w a : alpha_atom w = Some a → a_Type a ≠ Seperator.
Proof.
  unfold alpha_atom, mbind, option_bind. destruct (LookUpOpCode w) as [[i|]|]; [by intros [= <-]| |done].
  by destruct (LookUpRegister w) as [[n|]|]; intros [= <-].
Qed.

Lemma spells_ends l t : spells l t → (ends l <= S (newlines t))%nat.
Proof.
  induction 1 as [|c l t Hc| |w l t|c w v l t|c w a l t Hc Hw Hl Ht Ha|c w l t|c a l t Hc Ha]; try rewrite ends_cons.
  - done.
  - pose proof (newlines_cons c t). lia.
  - change (newlines (newline :: t)) with (S (newlines t)). rewrite bool_decide_true by done. lia.
  - pose proof (newlines_cons (char 37) (w ++ newline :: t)). rewrite newlines_app in *.
    change (newlines (newline :: t)) with (S (newlines t)) in *. rewrite bool_decide_true by done. lia.
  - pose proof (newlines_cons c (w ++ t)). rewrite newlines_app in *. rewrite bool_decide_false by done. lia.
  - pose proof (newlines_cons c (w ++ t)). rewrite newlines_app in *.
    rewrite bool_decide_false by by eapply alpha_atom_type. lia.
  - pose proof (newlines_cons c (w ++ t)). rewrite newlines_app in *. rewrite bool_decide_false by done. lia.
  - pose proof (newlines_cons c t). rewrite bool_decide_false; [lia|]. cbn. intros ->.
    by apply (bool_decide_pack _) in Ha.
Qed.
