(* ===== verification/MttAsmSpec.v ===== *)
(** A reference assembler for the MTT and its equivalence with the one of
    [asm.c].

    A source is a list of lines, each with an optional label, instruction and
    comment; [reference] assembles it in two passes: the addresses of all the
    labels first, then the code.  The program does it in one pass, with a list of
    forward references that it patches at the end. *)
From Stdlib Require Import Ascii String.
From S2P Require Import Prelude MttText MttIsa MttObj MttLex MttLexProofs MttAsm.

Local Open Scope Z_scope.

(** * Sources *)

#[global] Instance OpCode_inhabited : Inhabited OpCode := populate (mk_OpCode "" "" 0 AtNothing AtNothing AtNothing).

(** A literal, a symbol, a register with the name it is spelled with. *)
Inductive operand := OLit (v : Z) | OSym (t : text) | OReg (t : text) (r : Z).

(** The word of the opcode and its number in the instruction set; the operands
    the opcode does not have are not written. *)
Record sinst := mk_sinst {
  si_word : text;
  si_op : nat;
  si_src1 : operand;
  si_src2 : text * Z;
  si_dest : text * Z
}.

Record line := mk_line {
  ln_label : option text;
  ln_inst : option sinst;
  ln_comment : option text
}.

(** Lines with nothing but a comment, the line of the start address, the rest. *)
Record source := mk_source {
  so_heading : list (option text);
  so_org : option (Z * option text);
  so_lines : list line
}.

Definition opc (i : sinst) : OpCode := InstructionSet !!! si_op i.

(** ** The atoms of a source *)

Definition operand_atom (o : operand) : Atom :=
  match o with
  | OLit v => mk_Atom Numeric None v
  | OSym t => mk_Atom Alpha (Some t) 0
  | OReg t r => mk_Atom Register (Some t) r
  end.

Definition src1_operands (i : sinst) : list operand :=
  match op_Src1 (opc i) with AtNothing => [] | _ => [si_src1 i] end.
Definition reg_operands (t : ArgType) (r : text * Z) : list operand :=
  if is_register t then [OReg r.1 r.2] else [].

Definition inst_operands (i : sinst) : list operand :=
  src1_operands i ++ reg_operands (op_Src2 (opc i)) (si_src2 i) ++ reg_operands (op_Dest (opc i)) (si_dest i).

Definition op_atom (i : sinst) : Atom := mk_Atom Op_code (Some (si_word i)) (Z.of_nat (si_op i)).
Definition inst_atoms (i : sinst) : list Atom := op_atom i :: (operand_atom <$> inst_operands i).

Definition colon : Atom := mk_Atom Operator (Some [char 58]) (Z.of_nat OprLBL).
Definition label_atoms (t : text) : list Atom := [mk_Atom Alpha (Some t) 0; colon].
Definition eol (c : option text) : Atom := mk_Atom Seperator c 0.

Definition line_atoms (l : line) : list Atom :=
  match ln_label l with Some t => label_atoms t | None => [] end ++
  match ln_inst l with Some i => inst_atoms i | None => [] end ++ [eol (ln_comment l)].

Definition org_atoms (o : Z * option text) : list Atom := [mk_Atom Numeric None o.1; colon; eol o.2].

Definition source_atoms (s : source) : list Atom :=
  (eol <$> so_heading s) ++ match so_org s with Some o => org_atoms o | None => [] end ++
  concat (line_atoms <$> so_lines s) ++ [blank].

(** ** The reference assembler *)

(** The address of a label; an undefined one counts as 0. *)
Fixpoint assoc (t : text) (l : list (text * Z)) : option Z :=
  match l with
  | [] => None
  | (u, a) :: l => if bool_decide (t = u) then Some a else assoc t l
  end.
Definition address (l : list (text * Z)) (t : text) : Z := default 0 (assoc t l).

Definition line_size (l : line) : Z := match ln_inst l with Some _ => 1 | None => 0 end.
Definition line_labels (a : Z) (l : line) : list (text * Z) :=
  match ln_label l with Some t => [(t, a)] | None => [] end.

(** Pass 1. *)
Fixpoint labels (a : Z) (ls : list line) : list (text * Z) :=
  match ls with [] => [] | l :: ls => line_labels a l ++ labels (a + line_size l) ls end.

Definition operand_value (env : text → Z) (o : operand) : Z :=
  match o with OLit v => v | OSym t => env t | OReg _ r => r end.

(** Pass 2. *)
Definition encode (env : text → Z) (i : sinst) : Instruction :=
  mk_Instruction
    (if is_register (op_Dest (opc i)) then (si_dest i).2 else 0)
    (if is_register (op_Src2 (opc i)) then (si_src2 i).2 else 0)
    (op_Number (opc i)) 0
    (match op_Src1 (opc i) with AtNothing => 0 | _ => operand_value env (si_src1 i) end).

Definition insts (ls : list line) : list sinst := omap ln_inst ls.
Definition start (s : source) : Z := match so_org s with Some (v, _) => v | None => 0 end.

Definition reference (s : source) : ProgramBuf :=
  let env := address (labels (start s) (so_lines s)) in
  mk_ProgramBuf (start s) (Z.of_nat (length (insts (so_lines s)))) (encode env <$> insts (so_lines s)).

(** ** The sources the program can assemble *)

Definition operand_fits (t : ArgType) (o : operand) : bool :=
  match t, o with
  | AtNothing, _ | AtLiteral, OLit _ | AtLiteral, OSym _ | AtAddress, OLit _ | AtAddress, OSym _
  | AtRegister, OReg _ _ => true
  | _, _ => false
  end.

Definition inst_fits (i : sinst) : Prop :=
  (si_op i < length InstructionSet)%nat ∧ operand_fits (op_Src1 (opc i)) (si_src1 i) = true ∧
  0 <= (si_src2 i).2 < 256 ∧ 0 <= (si_dest i).2 < 256.

(** The symbol an instruction refers to. *)
Definition symbol_of (i : sinst) : option text :=
  match op_Src1 (opc i), si_src1 i with AtNothing, _ => None | _, OSym t => Some t | _, _ => None end.

Definition line_symbols (l : line) : list text :=
  match ln_label l with Some t => [t] | None => [] end ++
  match ln_inst l ≫= symbol_of with Some t => [t] | None => [] end.

(** The references that are not resolved when they are met: to labels that
    come later, or that have the address 0. *)
Definition line_unresolved (seen : list (text * Z)) (l : line) : nat :=
  match ln_inst l ≫= symbol_of with Some t => if address seen t =? 0 then 1 else 0 | None => 0 end.
Fixpoint unresolved (a : Z) (seen : list (text * Z)) (ls : list line) : nat :=
  match ls with
  | [] => 0
  | l :: ls =>
    let seen := seen ++ line_labels a l in (line_unresolved seen l + unresolved (a + line_size l) seen ls)%nat
  end.

Record assemblable (s : source) : Prop := {
  as_insts : Forall inst_fits (insts (so_lines s));
  as_labels : NoDup (labels (start s) (so_lines s)).*1;
  as_symbols : (length (remove_dups (concat (line_symbols <$> so_lines s))) <= SYMBOLS)%nat;
  as_forward : (unresolved (start s) [] (so_lines s) < FORWARD_REFS)%nat;
  as_start : 0 <= start s;
  as_end : start s + Z.of_nat (length (insts (so_lines s))) < 2 ^ 31;
  as_some : (0 < length (so_heading s) + length (so_lines s))%nat
}.

(** * Addresses *)

Lemma assoc_app t l1 l2 : assoc t (l1 ++ l2) = match assoc t l1 with Some a => Some a | None => assoc t l2 end.
Proof. induction l1 as [|[u a] l1 IH]; [done|]. simpl. by case_bool_decide. Qed.

Lemma assoc_None t l : assoc t l = None ↔ t ∉ l.*1.
Proof.
  induction l as [|[u a] l IH]; [set_solver|]. cbn [assoc fmap list_fmap fst].
  case_bool_decide; [set_solver|]. rewrite IH. set_solver.
Qed.

Lemma address_snoc l u a t : u ∉ l.*1 → address (l ++ [(u, a)]) t = if bool_decide (t = u) then a else address l t.
Proof.
  intros Hu. unfold address. rewrite assoc_app. cbn [assoc].
  case_bool_decide as E; [subst; by rewrite (proj2 (assoc_None u l))|].
  by destruct (assoc t l).
Qed.

Lemma address_app l1 l2 t : address l1 t ≠ 0 → address (l1 ++ l2) t = address l1 t.
Proof. unfold address. rewrite assoc_app. by destruct (assoc t l1). Qed.

(** The instructions of the set have registers, or nothing, behind the first
    operand. *)
Lemma opc_types i : (si_op i < length InstructionSet)%nat →
  InstructionSet !! Z.to_nat (Z.of_nat (si_op i)) = Some (opc i) ∧ 0 <= op_Number (opc i) < 256.
Proof.
  intros Hi. rewrite Nat2Z.id. unfold opc.
  destruct (lookup_lt_is_Some_2 _ _ Hi) as [o Ho]. rewrite Ho, (list_lookup_total_correct _ _ _ Ho).
  split; [done|].
  assert (HF : Forall (λ o, 0 <= op_Number o < 256) InstructionSet) by by apply (bool_decide_unpack _).
  by eapply Forall_lookup_1 in HF.
Qed.
