(* ===== verification/MttAsmProofs.v ===== *)
(** The assembler of the MTT line by line: the invariant between the lines of
    [Assemble] and what each kind of atom does to it. *)
From Stdlib Require Import Ascii String.
From S2P Require Import Prelude MttText MttIsa MttObj MttLex MttAsm MttAsmSpec.

Local Open Scope Z_scope.

(** * Runs *)

Lemma bind_done {A B} (m : Asm A) (f : A → Asm B) s a s' : m s = Done (a, s') → (m ≫= f) s = f a s'.
Proof. intros E. unfold mbind, Asm_bind. by rewrite E. Qed.

Lemma bind_put {B} f (k : () → Asm B) s : (put f ≫= k) s = k () (f s).
Proof. done. Qed.

Section runs.
Variable capacity : nat.

Lemma atoms_cons atom rest s s' :
  assemble_atom capacity atom rest s = Done ((), s') →
  assemble_atoms capacity (atom :: rest) s = assemble_atoms capacity rest (s' <| patom := Some atom |>).
Proof. intros E. cbn [assemble_atoms]. rewrite (bind_done _ _ _ _ _ E). reflexivity. Qed.

(** * The symbol table *)

Section table.
Variable names : list text.
Hypothesis few_names : (length (remove_dups names) <= SYMBOLS)%nat.

Record table_ok (seen : list (text * Z)) (tab : list Symbol) : Prop := {
  tb_nodup : NoDup (Name <$> tab);
  tb_names : Forall (λ x, Name x ∈ names ∧ Value x = address seen (Name x)) tab;
  tb_seen : Forall (λ t, t ∈ Name <$> tab) seen.*1
}.

Lemma table_start : table_ok [] [].
Proof. split; constructor. Qed.

Lemma table_room seen tab t :
  table_ok seen tab → t ∈ names → t ∉ Name <$> tab → (length tab < SYMBOLS)%nat.
Proof.
  intros Ht Hin Hn.
  assert (Hs : t :: (Name <$> tab) ⊆+ remove_dups names).
  { apply NoDup_submseteq.
    - constructor; [done|apply Ht].
    - intros u. rewrite list.elem_of_cons, elem_of_remove_dups. intros [->|Hu]; [done|].
      apply list_elem_of_fmap in Hu as (x & -> & Hx).
      pose proof (tb_names _ _ Ht) as HF. rewrite Forall_forall in HF. by apply HF. }
  apply submseteq_length in Hs. cbn [length] in Hs. rewrite length_fmap in Hs. lia.
Qed.

(** A lookup finds the symbol or adds it. *)
Lemma GetSymbol_ok seen t s :
  table_ok seen (symbolTable s) → t ∈ names →
  ∃ i x more,
    GetSymbol t s = Done (i, s <| symbolTable := symbolTable s ++ more |>) ∧
    table_ok seen (symbolTable s ++ more) ∧ (symbolTable s ++ more) !! i = Some x ∧
    Name x = t ∧ Value x = address seen t.
Proof.
  intros Ht Hin. destruct s as [ec tab]. cbn [symbolTable] in *. unfold GetSymbol.
  erewrite bind_done by reflexivity. cbn [symbolTable].
  destruct (find_idx _ tab) as [i|] eqn:E.
  - apply find_idx_lookup in E as [(x & Hx & Hb) _]. apply bool_decide_eq_true in Hb.
    exists i, x, []. rewrite app_nil_r. split; [done|]. split; [done|]. split; [done|]. split; [done|].
    pose proof (tb_names _ _ Ht) as HF. eapply Forall_lookup_1 in HF as [_ ->]; [by subst|done].
  - assert (Hn : t ∉ Name <$> tab).
    { intros (x & -> & Hx)%list_elem_of_fmap. 
      rewrite find_idx_None in E. apply E in Hx. by apply bool_decide_eq_false in Hx. }
    pose proof (table_room _ _ _ Ht Hin Hn) as Hroom.
    destruct (Nat.leb_spec SYMBOLS (length tab)); [lia|].
    assert (Hz : address seen t = 0).
    { unfold address. rewrite (proj2 (assoc_None t seen)); [done|]. intros Hs. apply Hn.
      pose proof (tb_seen _ _ Ht) as HF. rewrite Forall_forall in HF. by apply HF. }
    exists (length tab), (mk_Symbol t 0 0), [mk_Symbol t 0 0].
    split; [reflexivity|]. split; [|split; [by rewrite list_lookup_middle|done]].
    split.
    + rewrite fmap_app. apply NoDup_app. split; [apply Ht|]. split; [set_solver|]. apply NoDup_singleton.
    + apply Forall_app. split; [apply Ht|]. constructor; [|done]. by split.
    + eapply Forall_impl; [apply Ht|]. intros u Hu. rewrite fmap_app. set_solver.
Qed.

Lemma alter_names i (tab : list Symbol) a : Name <$> alter (λ x, mk_Symbol (Name x) a 1) i tab = Name <$> tab.
Proof.
  revert i. induction tab as [|x tab IH]; intros [|i]; try done.
  unfold fmap in IH |- *. simpl. f_equal. apply IH.
Qed.

(** The definition of a label. *)
Lemma define_ok seen tab i x t a :
  table_ok seen tab → tab !! i = Some x → Name x = t → t ∉ seen.*1 →
  table_ok (seen ++ [(t, a)]) (alter (λ x, mk_Symbol (Name x) a 1) i tab).
Proof.
  intros [Hd Hn Hs] Hi Hx Ht.
  set (tab' := alter (λ x, mk_Symbol (Name x) a 1) i tab).
  assert (Hl : ∀ j y, tab' !! j = Some y → ∃ z, tab !! j = Some z ∧ y = if decide (i = j) then mk_Symbol (Name z) a 1 else z).
  { intros j y. unfold tab'. rewrite list_lookup_alter.
    destruct (decide (i = j)) as [->|Hj]; [rewrite Hi; simpl; intros [= <-]|]; eauto. }
  assert (Hnames : Name <$> tab' = Name <$> tab) by apply alter_names.
  split.
  - by rewrite Hnames.
  - apply Forall_lookup_2. intros j y Hy. apply Hl in Hy as (z & Hz & ->).
    eapply Forall_lookup_1 in Hn as [Hin Hv]; [|exact Hz].
    destruct (decide (i = j)) as [->|Hj]; cbn [Name Value]; (split; [done|]); rewrite address_snoc by done.
    + rewrite bool_decide_true; [done|]. congruence.
    + rewrite bool_decide_false; [done|]. intros E. apply Hj.
      eapply (NoDup_lookup _ i j (Name x) Hd); rewrite list_lookup_fmap; [by rewrite Hi|rewrite Hz; simpl; congruence].
  - rewrite Hnames, fmap_app. apply Forall_app. split; [done|]. constructor; [|done].
    cbn. subst t. apply list_elem_of_fmap. exists x. split; [done|]. by eapply list_elem_of_lookup_2.
Qed.

(** * Code and forward references *)

Section code.
(** The address of a label once all are known, and the load address. *)
Variable env : text → Z.
Variable load : Z.

(** An instruction without its first operand. *)
Definition hole (x : Instruction) : Instruction := x <| Src1 := 0 |>.

(** Every instruction written is the final one, or waits for its operand. *)
Definition written (done : list sinst) (fwd : list (nat * nat)) (prog : list Instruction) : Prop :=
  length prog = length done ∧
  ∀ i d, done !! i = Some d → ∃ x, prog !! i = Some x ∧
    hole x = hole (encode env d) ∧ (x = encode env d ∨ i ∈ fwd.*2).

(** A forward reference is one to the symbol of its instruction. *)
Definition fwd_ok (done : list sinst) (tab : list text) (f : nat * nat) : Prop :=
  ∃ d t, done !! f.2 = Some d ∧ symbol_of d = Some t ∧ tab !! f.1 = Some t.

Lemma fwd_ok_more done more tab more' f : fwd_ok done tab f → fwd_ok (done ++ more) (tab ++ more') f.
Proof.
  intros (d & t & Hd & Hs & Ht). exists d, t. split; [|split; [done|]]; by apply lookup_app_l_Some.
Qed.

Lemma written_more done fwd fwd' prog : written done fwd prog → written done (fwd ++ fwd') prog.
Proof.
  intros [Hl Hw]. split; [done|]. intros i d Hd. destruct (Hw i d Hd) as (x & Hx & He & Hc).
  exists x. split; [done|]. split; [done|]. rewrite fmap_app, elem_of_app. tauto.
Qed.

Lemma written_snoc done fwd prog d y :
  written done fwd prog → hole y = hole (encode env d) →
  (y = encode env d ∨ length done ∈ fwd.*2) → written (done ++ [d]) fwd (prog ++ [y]).
Proof.
  intros [Hl Hw] He Hc. split; [rewrite !length_app; simpl; lia|]. intros i e Hi.
  apply lookup_app_Some in Hi as [Hi|[Hi1 Hi2]].
  - destruct (Hw i e Hi) as (x & Hx & Hr). exists x. split; [by apply lookup_app_l_Some|done].
  - apply list_lookup_singleton_Some in Hi2 as [Hi2 ->].
    assert (i = length done) as -> by lia. exists y. split; [by rewrite <- Hl, list_lookup_middle|done].
Qed.

(** ** Between two lines *)

Record ok (a : Z) (seen : list (text * Z)) (done : list sinst) (s : asm) : Prop := {
  ok_err : error_count s = 0;
  ok_pc : pc s = a;
  ok_index : index s = length done;
  ok_count : a_count s = Z.of_nat (length done);
  ok_load : a_load s = load;
  ok_lit : expect_lit s = false;
  ok_tab : table_ok seen (symbolTable s);
  ok_fwd : Forall (fwd_ok done (Name <$> symbolTable s)) (forward s);
  ok_prog : ∃ prog rest, a_program s = prog ++ rest ∧ written done (forward s) prog ∧ (length rest <= 1)%nat
}.

(** ** Inside an instruction: the code before it, and its own words so far *)

Record mid (a : Z) (seen : list (text * Z)) (done : list sinst) (d : sinst) (y : Instruction) (s : asm) : Prop := {
  mi_err : error_count s = 0;
  mi_pc : pc s = s32 (a + 1);
  mi_index : index s = S (length done);
  mi_count : a_count s = Z.of_nat (S (length done));
  mi_load : a_load s = load;
  mi_inst : a_inst s = length done;
  mi_tab : table_ok seen (symbolTable s);
  mi_fwd : Forall (fwd_ok (done ++ [d]) (Name <$> symbolTable s)) (forward s);
  mi_prog : ∃ prog, a_program s = prog ++ [y] ∧ written done (forward s) prog
}.

Definition flags (s : asm) : bool * bool * bool * bool := (expect_lit s, expect_sr1 s, expect_sr2 s, expect_dst s).

Lemma mid_patom a seen done d y s p : mid a seen done d y s → mid a seen done d y (s <| patom := p |>).
Proof. destruct s. intros []. split; done. Qed.

Lemma ok_patom a seen done s p : ok a seen done s → ok a seen done (s <| patom := p |>).
Proof. destruct s. intros []. split; done. Qed.

Lemma on_inst_at f prog y s :
  a_program s = prog ++ [y] → a_inst s = length prog →
  on_inst f s = Done ((), s <| a_program := prog ++ [f y] |>).
Proof.
  destruct s. simpl. intros -> ->. unfold on_inst, get, put, read, mbind, Asm_bind. simpl.
  rewrite list_lookup_middle by done. simpl. by rewrite insert_app_r_alt, Nat.sub_diag by lia.
Qed.

Lemma on_inst_mid f a seen done d y s :
  mid a seen done d y s →
  ∃ s', on_inst f s = Done ((), s') ∧ mid a seen done d (f y) s' ∧ flags s' = flags s ∧
    forward s' = forward s ∧ symbolTable s' = symbolTable s.
Proof.
  intros [He Hpc Hi Hc Hl Hins Ht Hf (prog & Hp & Hw)].
  exists (s <| a_program := prog ++ [f y] |>). split.
  - apply on_inst_at; [done|]. by rewrite Hins, (proj1 Hw).
  - destruct s. simpl in *. split; [|done]. split; try done. by exists prog.
Qed.

(** ** The opcode *)

Lemma operand_type o : a_Type (operand_atom o) ≠ Seperator ∧ CompareAtomTypes (a_Type (operand_atom o)) Seperator = false.
Proof. by destruct o. Qed.

Lemma confirm_ok wants os x c rest s :
  Forall2 (λ w o, CompareAtomTypes (a_Type (operand_atom o)) w = true) wants os →
  confirm_all wants (next_atom (x :: (operand_atom <$> os) ++ eol c :: rest)) s = Done ((), s).
Proof.
  intros Hf. revert x. induction Hf as [|w o wants os Hw Hf IH]; intros x; [done|].
  assert (Hnext : next_atom (x :: (operand_atom <$> o :: os) ++ eol c :: rest) =
                  operand_atom o :: (operand_atom <$> os) ++ eol c :: rest).
  { cbn [next_atom fmap list_fmap app]. destruct (operand_type o) as [_ Ho].
    destruct ((operand_atom <$> os) ++ eol c :: rest) as [|a l] eqn:E; [by destruct os|].
    cbn [skip_separators]. by rewrite Ho. }
  rewrite Hnext. cbn [confirm_all].
  assert (Hc : confirm w (operand_atom o :: (operand_atom <$> os) ++ eol c :: rest) s =
    Done (Some (next_atom (operand_atom o :: (operand_atom <$> os) ++ eol c :: rest)), s)).
  { unfold confirm. cbn [head]. change (default blank (Some (operand_atom o))) with (operand_atom o). by rewrite Hw. }
  rewrite (bind_done _ _ _ _ _ Hc). apply IH.
Qed.

Definition wants (d : sinst) : list AtomType :=
  (if has_literal (opc d) then [Expression] else []) ++
  (if is_register (op_Src1 (opc d)) then [Register] else []) ++
  (if is_register (op_Src2 (opc d)) then [Register] else []) ++
  (if is_register (op_Dest (opc d)) then [Register] else []).

Lemma wants_operands d : inst_fits d →
  Forall2 (λ w o, CompareAtomTypes (a_Type (operand_atom o)) w = true) (wants d) (inst_operands d).
Proof.
  intros (_ & Ho & _). unfold wants, inst_operands, src1_operands, reg_operands, has_literal.
  rewrite app_assoc. apply Forall2_app; [|apply Forall2_app].
  - destruct (op_Src1 (opc d)), (si_src1 d); simpl in *; try discriminate Ho; repeat constructor.
  - destruct (is_register (op_Src2 (opc d))); repeat constructor.
  - destruct (is_register (op_Dest (opc d))); repeat constructor.
Qed.

Definition start_flags (d : sinst) : bool * bool * bool * bool :=
  (has_literal (opc d), is_register (op_Src1 (opc d)), is_register (op_Src2 (opc d)), is_register (op_Dest (opc d))).

Lemma new_inst_ok a seen done s :
  ok a seen done s → (length done < capacity)%nat →
  ∃ prog, new_inst capacity s =
    Done ((), s <| a_program := prog ++ [zero_inst] |> <| a_inst := length done |>) ∧
    written done (forward s) prog.
Proof.
  intros Hok Hcap. destruct Hok as [_ _ Hi _ _ _ _ _ (prog & rest & Hp & Hw & Hr)].
  exists prog. split; [|done]. destruct s. simpl in *. subst index a_program. pose proof (proj1 Hw) as Hl.
  unfold new_inst, get, put, mbind, Asm_bind. simpl. rewrite length_app.
  destruct (Nat.ltb_spec (length done) capacity); [|lia].
  destruct (Nat.leb_spec (length done) (length prog + length rest)); [|lia].
  simpl. rewrite take_app_length' by done. rewrite drop_ge; [done|]. rewrite length_app. lia.
Qed.

Lemma GetConfirm_ok d c rest s : inst_fits d →
  GetConfirm (op_atom d :: (operand_atom <$> inst_operands d) ++ eol c :: rest) (opc d) s =
  Done ((), s <| expect_lit := has_literal (opc d) |> <| expect_sr1 := is_register (op_Src1 (opc d)) |>
    <| expect_sr2 := is_register (op_Src2 (opc d)) |> <| expect_dst := is_register (op_Dest (opc d)) |>).
Proof.
  intros Hfit. unfold GetConfirm, put. rewrite (bind_done _ _ s () _ eq_refl).
  apply (confirm_ok (wants d)). by apply wants_operands.
Qed.

Lemma opcode_step a seen done d c rest s :
  ok a seen done s → inst_fits d → (length done < capacity)%nat →
  let tail := (operand_atom <$> inst_operands d) ++ eol c :: rest in
  ∃ s', assemble_atoms capacity (op_atom d :: tail) s = assemble_atoms capacity tail s' ∧
    mid a seen done d (mk_Instruction 0 0 (op_Number (opc d)) 0 0) s' ∧ flags s' = start_flags d ∧
    forward s' = forward s ∧ symbolTable s' = symbolTable s.
Proof.
  intros Hok Hfit Hcap tail. destruct (new_inst_ok _ _ _ _ Hok Hcap) as (prog & Hnew & Hw).
  destruct (opc_types d (proj1 Hfit)) as [Hopc Hnum].
  set (s1 := s <| a_program := prog ++ [zero_inst] |> <| a_inst := length done |>) in Hnew.
  set (s2 := s1 <| expect_lit := has_literal (opc d) |> <| expect_sr1 := is_register (op_Src1 (opc d)) |>
    <| expect_sr2 := is_register (op_Src2 (opc d)) |> <| expect_dst := is_register (op_Dest (opc d)) |>).
  set (y := mk_Instruction 0 0 (op_Number (opc d)) 0 0).
  set (s3 := s2 <| a_program := prog ++ [y] |>).
  set (s4 := s3 <| pc := s32 (pc s3 + 1) |> <| index := S (index s3) |> <| a_count := Z.of_nat (S (index s3)) |>).
  exists (s4 <| patom := Some (op_atom d) |>). split; [apply atoms_cons|].
  - change (assemble_atom capacity (op_atom d) tail) with (opcode_atom capacity (op_atom d) tail). unfold opcode_atom.
    rewrite (bind_done _ _ _ _ _ Hnew). cbn [a_Value op_atom]. rewrite Hopc.
    rewrite (bind_done _ _ s1 (opc d) s1 eq_refl).
    rewrite (bind_done _ _ s1 () s2 (GetConfirm_ok d c rest s1 Hfit)).
    rewrite (bind_done _ _ s2 () s3); [reflexivity|].
    rewrite (on_inst_at _ prog zero_inst); [|by destruct s|by destruct s; simpl; rewrite (proj1 Hw)].
    unfold s3, y. cbn. by rewrite u8_small.
  - split; [apply mid_patom|by destruct s]. destruct Hok as [He Hpc Hi Hc Hl Hlit Ht Hf _]. destruct s. simpl in *. subst.
    split; try done. 
    + eapply Forall_impl; [exact Hf|]. intros f Hd.
      rewrite <- (app_nil_r (Name <$> symbolTable)). by apply fwd_ok_more.
    + by exists prog.
Qed.

(** ** The operands *)

(** The first operand is in place, or noted as a forward reference. *)
Definition src1_done (done : list sinst) (d : sinst) (v : Z) (s : asm) : Prop :=
  v = Src1 (encode env d) ∨ length done ∈ (forward s).*2.

(** The flags are those after the first operand. *)
Definition after_src1 (d : sinst) : bool * bool * bool * bool :=
  (false, false, is_register (op_Src2 (opc d)), is_register (op_Dest (opc d))).

Lemma flags_lit (s : asm) b : flags s = b → expect_lit s = b.1.1.1.
Proof. by intros <-. Qed.
Lemma flags_sr1 (s : asm) b : flags s = b → expect_sr1 s = b.1.1.2.
Proof. by intros <-. Qed.
Lemma flags_sr2 (s : asm) b : flags s = b → expect_sr2 s = b.1.2.
Proof. by intros <-. Qed.
Lemma flags_dst (s : asm) b : flags s = b → expect_dst s = b.2.
Proof. by intros <-. Qed.

Lemma literal_step a seen done d y v rest s :
  mid a seen done d y s → expect_lit s = true →
  ∃ s', assemble_atoms capacity (mk_Atom Numeric None v :: rest) s = assemble_atoms capacity rest s' ∧
    mid a seen done d (y <| Src1 := v |>) s' ∧ flags s' = (false, expect_sr1 s, expect_sr2 s, expect_dst s) ∧
    forward s' = forward s.
Proof.
  intros Hm Hlit. destruct (on_inst_mid (λ x, x <| Src1 := v |>) _ _ _ _ _ _ Hm) as (s1 & E & Hm1 & Hfl & Hfw & _).
  exists ((s1 <| expect_lit := false |>) <| patom := Some (mk_Atom Numeric None v) |>). split.
  - apply atoms_cons. cbn [assemble_atom a_Type a_Value]. unfold numeric_atom.
    rewrite (bind_done _ _ s true s); [|unfold get; by rewrite Hlit]. by rewrite (bind_done _ _ _ _ _ E).
  - split; [apply mid_patom; destruct s1; destruct Hm1; by split|].
    split; [|by destruct s1]. unfold flags in *. destruct s1. simpl in *. congruence.
Qed.

(** The table only grows: the forward references stay right. *)
Lemma mid_table a seen done d y s more :
  mid a seen done d y s → table_ok seen (symbolTable s ++ more) →
  mid a seen done d y (s <| symbolTable := symbolTable s ++ more |>).
Proof.
  intros [He Hpc Hi Hc Hl Hins Ht Hf Hp] Ht'. destruct s. simpl in *. split; try done. simpl.
  eapply Forall_impl; [exact Hf|]. intros f Hd. rewrite fmap_app.
  rewrite <- (app_nil_r (done ++ [d])). by apply fwd_ok_more.
Qed.

Lemma mid_forward a seen done d y s i t :
  mid a seen done d y s → symbol_of d = Some t → (Name <$> symbolTable s) !! i = Some t →
  mid a seen done d y (s <| forward := forward s ++ [(i, length done)] |>).
Proof.
  intros [He Hpc Hi Hc Hl Hins Ht Hf (prog & Hp & Hw)] Hs Hn. destruct s. simpl in *. split; try done; simpl.
  - apply Forall_app. split; [done|]. constructor; [|done]. exists d, t. simpl.
    by rewrite list_lookup_middle.
  - exists prog. split; [done|]. by apply written_more.
Qed.

Lemma symbol_atom_run t i x s s0 s1 :
  GetSymbol t s = Done (i, s0) → symbolTable s0 !! i = Some x → expect_lit s0 = true →
  on_inst (λ y, y <| Src1 := Value x |>) s0 = Done ((), s1) →
  let s2 := s1 <| expect_lit := false |> in
  symbol_atom t s =
    if Value x =? 0 then
      let s3 := s2 <| forward := forward s2 ++ [(i, a_inst s2)] |> in
      if (FORWARD_REFS <=? length (forward s3))%nat then Error FATAL_RUN_TIME s3 else Done ((), s3)
    else Done ((), s2).
Proof.
  intros Eg Hx Hlit E s2. unfold symbol_atom.
  rewrite (bind_done _ _ _ _ _ Eg), (bind_done (get expect_lit) _ s0 true s0) by (unfold get; by rewrite Hlit).
  rewrite (bind_done (symbol i) _ s0 x s0).
  2:{ unfold symbol. rewrite (bind_done (get symbolTable) _ s0 (symbolTable s0) s0 eq_refl). by rewrite Hx. }
  rewrite (bind_done _ _ _ _ _ E), (bind_done (put (λ s : asm, s <| expect_lit := false |>)) _ s1 () s2 eq_refl).
  destruct (Value x =? 0); [|done].
  rewrite (bind_done (put (λ s : asm, s <| forward := forward s ++ [(i, a_inst s)] |>)) _ s2 () _ eq_refl).
  set (s3 := s2 <| forward := _ |>). rewrite (bind_done (get forward) _ s3 (forward s3) s3 eq_refl).
  cbv zeta. by destruct (FORWARD_REFS <=? length (forward s3))%nat.
Qed.

Lemma symbol_step a seen done d y t rest s :
  mid a seen done d y s → expect_lit s = true → t ∈ names → symbol_of d = Some t →
  (∀ u, address seen u ≠ 0 → env u = address seen u) →
  (length (forward s) + line_unresolved seen (mk_line None (Some d) None) < FORWARD_REFS)%nat →
  ∃ s' v, assemble_atoms capacity (mk_Atom Alpha (Some t) 0 :: rest) s = assemble_atoms capacity rest s' ∧
    mid a seen done d (y <| Src1 := v |>) s' ∧ flags s' = (false, expect_sr1 s, expect_sr2 s, expect_dst s) ∧
    (v = env t ∨ length done ∈ (forward s').*2) ∧
    length (forward s') = (length (forward s) + line_unresolved seen (mk_line None (Some d) None))%nat.
Proof.
  intros Hm Hlit Hin Hsym Henv Hroom.
  destruct (GetSymbol_ok seen t s (mi_tab _ _ _ _ _ _ Hm) Hin) as (i & x & more & Eg & Ht & Hx & Hnx & Hv).
  apply (mid_table _ _ _ _ _ _ more) in Hm; [|done].
  set (s0 := s <| symbolTable := symbolTable s ++ more |>) in *.
  destruct (on_inst_mid (λ z, z <| Src1 := Value x |>) _ _ _ _ _ _ Hm) as (s1 & E & Hm1 & Hfl & Hfw & Htab).
  assert (Hs0 : symbolTable s0 !! i = Some x) by by destruct s.
  assert (Hlit0 : expect_lit s0 = true) by by destruct s.
  pose proof (symbol_atom_run _ _ _ _ _ _ Eg Hs0 Hlit0 E) as Hrun. cbv zeta in Hrun.
  set (s2 := s1 <| expect_lit := false |>) in *.
  assert (Hm2 : mid a seen done d (y <| Src1 := Value x |>) s2) by (destruct s1; destruct Hm1; by split).
  assert (Hfl2 : flags s2 = (false, expect_sr1 s, expect_sr2 s, expect_dst s)).
  { unfold flags in *. destruct s1, s. simpl in *. congruence. }
  assert (Hfw2 : forward s2 = forward s) by (destruct s1, s; simpl in *; congruence).
  assert (Htab2 : symbolTable s2 !! i = Some x) by (destruct s1; simpl in *; congruence).
  rewrite (mi_inst _ _ _ _ _ _ Hm2) in Hrun.
  unfold line_unresolved in *. cbn [ln_inst mbind option_bind] in *. rewrite Hsym, <- Hv in *.
  destruct (Z.eqb_spec (Value x) 0) as [H0|H0].
  - set (s3 := s2 <| forward := forward s2 ++ [(i, length done)] |>) in *.
    assert (Hf3 : forward s3 = forward s ++ [(i, length done)]) by (unfold s3; destruct s2; simpl in *; congruence).
    rewrite Hf3, length_app in Hrun. cbn [length] in Hrun.
    rewrite (proj2 (Nat.leb_gt FORWARD_REFS (length (forward s) + 1))) in Hrun by lia.
    exists (s3 <| patom := Some (mk_Atom Alpha (Some t) 0) |>), (Value x).
    split; [apply atoms_cons; exact Hrun|]. split; [|split; [|split]].
    + apply mid_patom, (mid_forward _ _ _ _ _ _ i t); [done|done|]. rewrite list_lookup_fmap, Htab2. simpl. by f_equal.
    + unfold flags in *. unfold s3. by destruct s2.
    + right. replace (forward (s3 <| patom := _ |>)) with (forward s3) by by destruct s3.
      rewrite Hf3, fmap_app. set_solver.
    + replace (forward (s3 <| patom := _ |>)) with (forward s3) by by destruct s3.
      by rewrite Hf3, length_app.
  - exists (s2 <| patom := Some (mk_Atom Alpha (Some t) 0) |>), (Value x).
    split; [apply atoms_cons; exact Hrun|]. split; [by apply mid_patom|]. split; [by destruct s2|].
    split; [|destruct s2; simpl in *; by rewrite Hfw2, Nat.add_0_r].
    left. rewrite Hv. symmetry. apply Henv. congruence.
Qed.

Lemma mid_expect a seen done d y s : mid a seen done d y s →
  mid a seen done d y (s <| expect_sr1 := false |>) ∧ mid a seen done d y (s <| expect_sr2 := false |>) ∧
  mid a seen done d y (s <| expect_dst := false |>).
Proof. destruct s. intros []. by repeat (split; [by split|]). Qed.

(** A register goes to the first place that still expects one. *)
Lemma register_step a seen done d y w r rest s f b2 bd :
  mid a seen done d y s →
  (flags s = (false, true, b2, bd) ∧ f = (λ x, x <| Src1 := r |>) ∨
   flags s = (false, false, true, bd) ∧ f = (λ x, x <| Src2 := u8 r |>) ∨
   flags s = (false, false, false, true) ∧ f = (λ x, x <| Dest := u8 r |>)) →
  ∃ s', assemble_atoms capacity (mk_Atom Register (Some w) r :: rest) s = assemble_atoms capacity rest s' ∧
    mid a seen done d (f y) s' ∧ forward s' = forward s ∧
    flags s' = match flags s with
               | (l, true, b2, bd) => (l, false, b2, bd)
               | (l, false, true, bd) => (l, false, false, bd)
               | (l, _, _, _) => (l, false, false, false)
               end.
Proof.
  intros Hm Hf. destruct (on_inst_mid f _ _ _ _ _ _ Hm) as (s1 & E & Hm1 & Hfl & Hfw & _).
  assert (Hrun : ∃ s2, register_atom r s = Done ((), s2) ∧ mid a seen done d (f y) s2 ∧ forward s2 = forward s1 ∧
    flags s2 = match flags s with
               | (l, true, b2, bd) => (l, false, b2, bd)
               | (l, false, true, bd) => (l, false, false, bd)
               | (l, _, _, _) => (l, false, false, false)
               end).
  { unfold register_atom.
    rewrite (bind_done (get expect_sr1) _ s _ s eq_refl), (bind_done (get expect_sr2) _ s _ s eq_refl),
      (bind_done (get expect_dst) _ s _ s eq_refl).
    destruct Hf as [[Hs ->]|[[Hs ->]|[Hs ->]]]; rewrite (flags_sr1 _ _ Hs), ?(flags_sr2 _ _ Hs), ?(flags_dst _ _ Hs);
      cbn [fst snd]; rewrite (bind_done _ _ _ _ _ E), Hs; eexists; (split; [reflexivity|]);
      (split; [by apply mid_expect|]); rewrite Hs in Hfl; unfold flags in *; destruct s1; simpl in *; simplify_eq; done. }
  destruct Hrun as (s2 & E2 & Hm2 & Hfw2 & Hfl2).
  exists (s2 <| patom := Some (mk_Atom Register (Some w) r) |>). split; [by apply atoms_cons|].
  split; [by apply mid_patom|]. destruct s2. split; [|exact Hfl2]. simpl in *. congruence.
Qed.

(** The first operand. *)
Lemma src1_step a seen done d y rest s :
  mid a seen done d y s → flags s = start_flags d → inst_fits d → Src1 y = 0 →
  Forall (.∈ names) (from_option (λ t, [t]) [] (symbol_of d)) →
  (∀ u, address seen u ≠ 0 → env u = address seen u) →
  (length (forward s) + line_unresolved seen (mk_line None (Some d) None) < FORWARD_REFS)%nat →
  ∃ s' v, assemble_atoms capacity ((operand_atom <$> src1_operands d) ++ rest) s = assemble_atoms capacity rest s' ∧
    mid a seen done d (y <| Src1 := v |>) s' ∧ flags s' = after_src1 d ∧ src1_done done d v s' ∧
    length (forward s') = (length (forward s) + line_unresolved seen (mk_line None (Some d) None))%nat.
Proof.
  intros Hm Hfl (_ & Ho & _) Hy Hin Henv Hroom. unfold src1_operands, src1_done, encode, start_flags, after_src1 in *.
  unfold line_unresolved, symbol_of in *. cbn [ln_inst mbind option_bind Src1] in *. unfold has_literal in *.
  destruct (op_Src1 (opc d)) eqn:Eop, (si_src1 d) as [v|t|w r] eqn:Es; simpl in Ho; try discriminate Ho;
    cbn [fmap list_fmap app operand_atom operand_value is_register from_option] in *.
  1-3: (exists s, 0; split; [done|]; split; [destruct y; simpl in *; by subst|]; split; [done|]; split; [by left|lia]).
  all: try (destruct (literal_step _ _ _ _ _ v rest _ Hm (flags_lit _ _ Hfl)) as (s' & E & Hm' & Hfl' & Hfw);
    exists s', v; split; [done|]; split; [done|]; split;
    [by rewrite Hfl', (flags_sr1 _ _ Hfl), (flags_sr2 _ _ Hfl), (flags_dst _ _ Hfl)|]; split; [by left|by rewrite Hfw, Nat.add_0_r]).
  all: try (destruct (symbol_step _ _ _ _ _ t rest _ Hm (flags_lit _ _ Hfl)) as (s' & v & E & Hm' & Hfl' & Hv & Hfw);
    [by inversion Hin|unfold symbol_of; by rewrite Eop, Es|done|
     unfold line_unresolved, symbol_of; cbn [ln_inst mbind option_bind]; by rewrite Eop, Es|];
    exists s', v; split; [done|]; split; [done|]; split;
    [by rewrite Hfl', (flags_sr1 _ _ Hfl), (flags_sr2 _ _ Hfl), (flags_dst _ _ Hfl)|]; split; [done|];
    revert Hfw; unfold line_unresolved, symbol_of; cbn [ln_inst mbind option_bind]; by rewrite Eop, Es).
  destruct (register_step _ _ _ _ _ w r rest _ _ _ _ Hm (or_introl (conj Hfl eq_refl))) as (s' & E & Hm' & Hfw & Hfl').
  exists s', r. split; [done|]. split; [done|]. split; [by rewrite Hfl', Hfl|]. split; [by left|]. by rewrite Hfw, Nat.add_0_r.
Qed.

(** The second source and the destination. *)
Lemma registers_step a seen done d y rest s :
  mid a seen done d y s → flags s = after_src1 d → inst_fits d → Src2 y = 0 → Dest y = 0 →
  ∃ s', assemble_atoms capacity
      ((operand_atom <$> reg_operands (op_Src2 (opc d)) (si_src2 d) ++ reg_operands (op_Dest (opc d)) (si_dest d)) ++ rest) s =
      assemble_atoms capacity rest s' ∧
    mid a seen done d (y <| Src2 := Src2 (encode env d) |> <| Dest := Dest (encode env d) |>) s' ∧
    forward s' = forward s ∧ expect_lit s' = false.
Proof.
  intros Hm Hfl (_ & _ & H2 & Hd) Hy2 Hyd. unfold after_src1, reg_operands, encode in *. cbn [Src2 Dest] in *.
  assert (Hs2 : ∃ s', assemble_atoms capacity ((operand_atom <$>
      (if is_register (op_Src2 (opc d)) then [OReg (si_src2 d).1 (si_src2 d).2] else []) ++
      (if is_register (op_Dest (opc d)) then [OReg (si_dest d).1 (si_dest d).2] else [])) ++ rest) s =
    assemble_atoms capacity ((operand_atom <$>
      (if is_register (op_Dest (opc d)) then [OReg (si_dest d).1 (si_dest d).2] else [])) ++ rest) s' ∧
    mid a seen done d (y <| Src2 := if is_register (op_Src2 (opc d)) then (si_src2 d).2 else 0 |>) s' ∧
    forward s' = forward s ∧ flags s' = (false, false, false, is_register (op_Dest (opc d)))).
  { destruct (is_register (op_Src2 (opc d))).
    - destruct (register_step _ _ _ _ _ (si_src2 d).1 (si_src2 d).2
        ((operand_atom <$> (if is_register (op_Dest (opc d)) then [OReg (si_dest d).1 (si_dest d).2] else [])) ++ rest)
        _ _ false _ Hm (or_intror (or_introl (conj Hfl eq_refl)))) as (s' & E & Hm' & Hfw & Hfl').
      exists s'. split; [exact E|]. split; [|split; [done|by rewrite Hfl', Hfl]]. by rewrite u8_small in Hm'.
    - exists s. split; [done|]. split; [|by split]. destruct y. simpl in *. by subst. }
  destruct Hs2 as (s1 & -> & Hm1 & Hfw1 & Hfl1).
  destruct (is_register (op_Dest (opc d))).
  - destruct (register_step _ _ _ _ _ (si_dest d).1 (si_dest d).2 rest
      _ _ false true Hm1 (or_intror (or_intror (conj Hfl1 eq_refl)))) as (s' & E & Hm' & Hfw & Hfl').
    exists s'. split; [exact E|]. rewrite u8_small in Hm' by done. split; [done|].
    split; [congruence|]. rewrite Hfl1 in Hfl'. by rewrite (flags_lit _ _ Hfl').
  - exists s1. split; [done|]. split; [|split; [done|by rewrite (flags_lit _ _ Hfl1)]].
    destruct y. simpl in *. by subst.
Qed.

(** The end of a line. *)
Lemma eol_run c rest s : expect_lit s = false →
  assemble_atoms capacity (eol c :: rest) s =
  assemble_atoms capacity rest ((s <| operandStackSize := 0%nat |> <| operatorStack := [] |>) <| patom := Some (eol c) |>).
Proof.
  intros Hlit. apply atoms_cons. change (separator_atom s = Done ((), s <| operandStackSize := 0%nat |> <| operatorStack := [] |>)).
  unfold separator_atom, ResetStacks, put.
  rewrite (bind_done _ _ s () (s <| operandStackSize := 0%nat |> <| operatorStack := [] |>) eq_refl).
  rewrite (bind_done (get expect_lit) _ _ false (s <| operandStackSize := 0%nat |> <| operatorStack := [] |>)); [done|].
  unfold get. destruct s. simpl in *. by rewrite Hlit.
Qed.

Lemma ok_stacks a seen done s : ok a seen done s →
  ok a seen done (s <| operandStackSize := 0%nat |> <| operatorStack := [] |>).
Proof. destruct s. intros []. by split. Qed.

(** An instruction and the end of its line. *)
Lemma inst_step a seen done d c rest s :
  ok a seen done s → inst_fits d → (length done < capacity)%nat →
  Forall (.∈ names) (from_option (λ t, [t]) [] (symbol_of d)) →
  (∀ u, address seen u ≠ 0 → env u = address seen u) →
  0 <= a → a + 1 < 2 ^ 31 →
  (length (forward s) + line_unresolved seen (mk_line None (Some d) None) < FORWARD_REFS)%nat →
  ∃ s', assemble_atoms capacity (inst_atoms d ++ eol c :: rest) s = assemble_atoms capacity rest s' ∧
    ok (a + 1) seen (done ++ [d]) s' ∧ operandStackSize s' = 0%nat ∧
    length (forward s') = (length (forward s) + line_unresolved seen (mk_line None (Some d) None))%nat.
Proof.
  intros Hok Hfit Hcap Hin Henv Ha Ha' Hroom. unfold inst_atoms. cbn [app].
  destruct (opcode_step _ _ _ d c rest s Hok Hfit Hcap) as (s1 & -> & Hm1 & Hfl1 & Hfw1 & _).
  unfold inst_operands. rewrite (fmap_app operand_atom (src1_operands d)), <- app_assoc. rewrite <- Hfw1 in Hroom.
  destruct (src1_step _ _ _ _ _ ((operand_atom <$> reg_operands (op_Src2 (opc d)) (si_src2 d) ++
    reg_operands (op_Dest (opc d)) (si_dest d)) ++ eol c :: rest) _ Hm1 Hfl1 Hfit eq_refl Hin Henv Hroom)
    as (s2 & v & -> & Hm2 & Hfl2 & Hv & Hfw2).
  destruct (registers_step _ _ _ _ _ (eol c :: rest) _ Hm2 Hfl2 Hfit eq_refl eq_refl) as (s3 & -> & Hm3 & Hfw3 & Hlit).
  eexists. split; [by apply eol_run|]. rewrite Hfw1, <- Hfw3 in Hfw2.
  split; [|split; destruct s3; [done|exact Hfw2]]. apply ok_patom, ok_stacks.
  destruct Hm3 as [He Hpc Hi Hc Hl Hins Ht Hf (prog & Hp & Hw)]. split; try done.
  - rewrite Hpc. unfold s32. rewrite Z.mod_small by lia. lia.
  - rewrite Hi, length_app. simpl. lia.
  - rewrite Hc, length_app. simpl. lia.
  - exists (prog ++ [mk_Instruction (Dest (encode env d)) (Src2 (encode env d)) (op_Number (opc d)) 0 v]), [].
    split; [by rewrite app_nil_r|]. split; [|simpl; lia].
    apply written_snoc; [done|done|]. rewrite Hfw3. destruct Hv as [->|Hv]; [by left|by right].
Qed.

(** ** Labels *)

Lemma ok_table a seen seen' done s tab more :
  ok a seen done s → table_ok seen' tab → Name <$> tab = (Name <$> symbolTable s) ++ more →
  ok a seen' done (s <| symbolTable := tab |>).
Proof.
  intros [He Hpc Hi Hc Hl Hlit Ht Hf Hp] Ht' Hn. destruct s. simpl in *. split; try done. simpl. rewrite Hn.
  eapply Forall_impl; [exact Hf|]. intros f Hd. rewrite <- (app_nil_r done). by apply fwd_ok_more.
Qed.

(** A name in front of the colon: it is looked up and pushed. *)
Lemma name_step a seen done t rest s :
  ok a seen done s → operandStackSize s = 0%nat → t ∈ names →
  ∃ s', assemble_atoms capacity (mk_Atom Alpha (Some t) 0 :: rest) s = assemble_atoms capacity rest s' ∧
    ok a seen done s' ∧ forward s' = forward s ∧ patom s' = Some (mk_Atom Alpha (Some t) 0).
Proof.
  intros Hok Hsize Hin.
  destruct (GetSymbol_ok seen t s (ok_tab _ _ _ _ Hok) Hin) as (i & x & more & Eg & Ht & Hx & Hnx & Hv).
  pose proof (ok_table _ _ _ _ _ _ (Name <$> more) Hok Ht (fmap_app _ _ _)) as Hok0.
  set (s0 := s <| symbolTable := symbolTable s ++ more |>) in *.
  set (s1 := s0 <| operandStack := <[0%nat := mk_Operand (Some i) 0]> (operandStack s0) |> <| operandStackSize := 1%nat |>).
  exists (s1 <| patom := Some (mk_Atom Alpha (Some t) 0) |>). split; [|split; [|by destruct s]].
  - apply atoms_cons. change (symbol_atom t s = Done ((), s1)). unfold symbol_atom.
    rewrite (bind_done _ _ _ _ _ Eg), (bind_done (get expect_lit) _ s0 false s0).
    2:{ unfold get. by rewrite (ok_lit _ _ _ _ Hok0). }
    unfold PushOperand. rewrite (bind_done (get operandStackSize) _ s0 0%nat s0); [done|].
    unfold get. destruct s. simpl in *. by rewrite Hsize.
  - apply ok_patom. unfold s1. clearbody s0. destruct s0, Hok0. by split.
Qed.

(** The colon behind a name. *)
Lemma colon_step a seen done t rest s :
  ok a seen done s → patom s = Some (mk_Atom Alpha (Some t) 0) → t ∈ names → t ∉ seen.*1 →
  ∃ s', assemble_atoms capacity (colon :: rest) s = assemble_atoms capacity rest s' ∧
    ok a (seen ++ [(t, a)]) done s' ∧ forward s' = forward s.
Proof.
  intros Hok Hp Hin Hn.
  destruct (GetSymbol_ok seen t s (ok_tab _ _ _ _ Hok) Hin) as (i & x & more & Eg & Ht & Hx & Hnx & Hv).
  assert (Hz : Value x = 0) by (rewrite Hv; unfold address; by rewrite (proj2 (assoc_None t seen))).
  set (s0 := s <| symbolTable := symbolTable s ++ more |>) in *.
  set (tab := alter (λ x, mk_Symbol (Name x) a 1) i (symbolTable s ++ more)).
  assert (Htab : Name <$> tab = (Name <$> symbolTable s) ++ (Name <$> more)) by (unfold tab; by rewrite alter_names, fmap_app).
  exists ((s <| symbolTable := tab |>) <| patom := Some colon |>). split; [|split; [|by destruct s]].
  - apply atoms_cons. change (label_atom s = Done ((), s <| symbolTable := tab |>)). unfold label_atom.
    rewrite (bind_done (get patom) _ s _ s eq_refl), Hp. cbn [read].
    rewrite (bind_done _ _ s (mk_Atom Alpha (Some t) 0) s eq_refl). cbn [a_Type a_Text].
    rewrite bool_decide_true by done. cbn [read]. rewrite (bind_done _ _ s t s eq_refl).
    rewrite (bind_done _ _ _ _ _ Eg). fold s0.
    rewrite (bind_done (symbol i) _ s0 x s0).
    2:{ unfold symbol. rewrite (bind_done (get symbolTable) _ s0 (symbolTable s ++ more) s0); [by rewrite Hx|by destruct s]. }
    rewrite Hz. cbn [truthy]. change (truthy 0) with false. cbv iota.
    rewrite (bind_done (mret ()) _ s0 () s0 eq_refl).
    rewrite (bind_done (get pc) _ s0 a s0).
    2:{ unfold get. pose proof (ok_pc _ _ _ _ Hok). destruct s. simpl in *. by subst. }
    unfold define_symbol, put, tab. by destruct s.
  - apply ok_patom. eapply ok_table; [exact Hok| |exact Htab]. by eapply define_ok.
Qed.

Lemma label_step a seen done t rest s :
  ok a seen done s → operandStackSize s = 0%nat → t ∈ names → t ∉ seen.*1 →
  ∃ s', assemble_atoms capacity (label_atoms t ++ rest) s = assemble_atoms capacity rest s' ∧
    ok a (seen ++ [(t, a)]) done s' ∧ forward s' = forward s.
Proof.
  intros Hok Hsize Hin Hn. cbn [label_atoms app].
  destruct (name_step _ _ _ t (colon :: rest) _ Hok Hsize Hin) as (s1 & -> & Hok1 & Hf1 & Hp1).
  destruct (colon_step _ _ _ t rest _ Hok1 Hp1 Hin Hn) as (s2 & -> & Hok2 & Hf2).
  exists s2. split; [done|]. split; [done|]. congruence.
Qed.

(** ** A line *)

Lemma line_step a seen done l rest s :
  ok a seen done s → operandStackSize s = 0%nat →
  from_option inst_fits True (ln_inst l) → (length done < capacity)%nat →
  Forall (.∈ names) (line_symbols l) →
  Forall (.∉ seen.*1) (line_labels a l).*1 →
  (∀ u, address (seen ++ line_labels a l) u ≠ 0 → env u = address (seen ++ line_labels a l) u) →
  0 <= a → a + line_size l < 2 ^ 31 →
  (length (forward s) + line_unresolved (seen ++ line_labels a l) l < FORWARD_REFS)%nat →
  ∃ s', assemble_atoms capacity (line_atoms l ++ rest) s = assemble_atoms capacity rest s' ∧
    ok (a + line_size l) (seen ++ line_labels a l) (done ++ insts [l]) s' ∧ operandStackSize s' = 0%nat ∧
    length (forward s') = (length (forward s) + line_unresolved (seen ++ line_labels a l) l)%nat.
Proof.
  destruct l as [lbl ins cmt]. unfold line_atoms, line_symbols, line_labels, line_size, line_unresolved, insts.
  cbn [ln_label ln_inst ln_comment]. intros Hok Hsize Hfit Hcap Hin Hn Henv Ha Ha' Hroom.
  apply Forall_app in Hin as [Hin1 Hin2].
  assert (Hl : ∃ s', assemble_atoms capacity (match lbl with Some t => label_atoms t | None => [] end ++
      match ins with Some i => inst_atoms i | None => [] end ++ eol cmt :: rest) s =
    assemble_atoms capacity (match ins with Some i => inst_atoms i | None => [] end ++ eol cmt :: rest) s' ∧
    ok a (seen ++ match lbl with Some t => [(t, a)] | None => [] end) done s' ∧ forward s' = forward s).
  { destruct lbl as [t|].
    - inversion Hin1; inversion Hn; subst. by apply label_step.
    - exists s. rewrite app_nil_r. by split. }
  rewrite <- !app_assoc. cbn [app]. destruct Hl as (s1 & -> & Hok1 & Hf1).
  destruct ins as [d|]; cbn [mbind option_bind] in *.
  - assert (Hin' : Forall (.∈ names) (from_option (λ t, [t]) [] (symbol_of d))) by by destruct (symbol_of d).
    rewrite <- Hf1 in *.
    destruct (inst_step _ _ _ d cmt rest _ Hok1 Hfit Hcap Hin' Henv Ha Ha' Hroom) as (s2 & -> & Hok2 & Hsize2 & Hf2).
    by exists s2.
  - eexists. split; [apply eol_run, Hok1|]. rewrite Z.add_0_r. cbn [omap list_omap]. rewrite app_nil_r.
    split; [by apply ok_patom, ok_stacks|]. rewrite Nat.add_0_r, <- Hf1. by destruct s1.
Qed.

Lemma lines_step ls : ∀ a seen done rest s,
  ok a seen done s → operandStackSize s = 0%nat →
  Forall inst_fits (insts ls) → (length done + length ls <= capacity)%nat →
  Forall (.∈ names) (concat (line_symbols <$> ls)) →
  NoDup (seen ++ labels a ls).*1 → (∀ u, env u = address (seen ++ labels a ls) u) →
  0 <= a → a + Z.of_nat (length (insts ls)) < 2 ^ 31 →
  (length (forward s) + unresolved a seen ls < FORWARD_REFS)%nat →
  ∃ s' a', assemble_atoms capacity (concat (line_atoms <$> ls) ++ rest) s = assemble_atoms capacity rest s' ∧
    ok a' (seen ++ labels a ls) (done ++ insts ls) s' ∧ operandStackSize s' = 0%nat.
Proof.
  induction ls as [|l ls IH]; intros a seen done rest s Hok Hsize Hfit Hcap Hin Hnd Henv Ha Ha' Hroom.
  { exists s, a. unfold insts. cbn. by rewrite !app_nil_r. }
  cbn [fmap list_fmap concat labels unresolved length] in *. rewrite <- app_assoc.
  apply Forall_app in Hin as [Hin1 Hin2].
  change (insts (l :: ls)) with (insts ([l] ++ ls)) in *. unfold insts in *. rewrite omap_app in *.
  rewrite length_app in Ha'. apply Forall_app in Hfit as [Hfit1 Hfit2].
  assert (Hn1 : Forall (.∉ seen.*1) (line_labels a l).*1).
  { rewrite !fmap_app in Hnd. apply NoDup_app in Hnd as (_ & Hd & _). apply Forall_forall.
    intros u Hu Hs. eapply Hd; [exact Hs|]. apply elem_of_app. by left. }
  rewrite (app_assoc seen) in Hnd, Henv |- *. rewrite (app_assoc done).
  assert (Hsz : line_size l = Z.of_nat (length (omap ln_inst [l]))) by by destruct l as [? [] ?].
  destruct (line_step a seen done l (concat (line_atoms <$> ls) ++ rest) s) as (s1 & E & Hok1 & Hsize1 & Hf1); try done.
  - destruct l as [? [] ?]; [|done]. by inversion Hfit1.
  - lia.
  - intros u Hu. rewrite Henv. by apply address_app.
  - lia.
  - lia.
  - rewrite E. eapply IH; try done.
    + rewrite length_app. unfold insts. destruct l as [? [] ?]; cbn; lia.
    + destruct l as [? [] ?]; unfold line_size; simpl; lia.
    + lia.
    + lia.
Qed.

End code.
End table.
End runs.
