(* ===== verification/MttAsmCorrect.v ===== *)
(** The assembler of [asm.c] writes the object file of the reference assembler
    of MttAsmSpec ([assembler_correct]). *)
From Stdlib Require Import Ascii String.
From S2P Require Import Prelude MttText MttIsa MttObj MttLex MttLexProofs MttAsm MttAsmSpec MttAsmProofs.

Local Open Scope Z_scope.

(** * Forward references *)

Section fix_forward.
Variable env : text → Z.
Variable done : list sinst.

(** An instruction that waits for its symbol, completed. *)
Lemma complete d t x :
  symbol_of d = Some t → hole x = hole (encode env d) → x <| Src1 := env t |> = encode env d.
Proof.
  intros Hs Hh. destruct x. unfold hole, encode, symbol_of in *. simpl in *. simplify_eq. f_equal.
  by destruct (op_Src1 (opc d)), (si_src1 d); simplify_eq.
Qed.

Lemma fix_forward_ok l : ∀ s prog rest,
  Forall (fwd_ok done (Name <$> symbolTable s)) l →
  Forall (λ x, Value x = env (Name x)) (symbolTable s) →
  a_program s = prog ++ rest → written env done l prog →
  ∃ s', fix_forward l s = Done ((), s') ∧ a_program s' = (encode env <$> done) ++ rest ∧
    a_load s' = a_load s ∧ a_count s' = a_count s.
Proof.
  induction l as [|[sy i] l IH]; intros s prog rest Hf Hv Hp [Hl Hw].
  { exists s. split; [done|]. split; [|done]. rewrite Hp. f_equal. apply list_eq_same_length with (length done).
    - by rewrite length_fmap.
    - done.
    - intros j x y Hj Hx Hy. rewrite list_lookup_fmap in Hy.
      destruct (done !! j) as [d|] eqn:Hd; [|discriminate Hy]. injection Hy as <-.
      destruct (Hw j d Hd) as (x' & Hx' & _ & [->|Hn]); [congruence|by apply elem_of_nil in Hn]. }
  apply Forall_cons in Hf as [(d & t & Hd & Hs & Ht) Hf']. cbn [fst snd] in *.
  rewrite list_lookup_fmap in Ht. destruct (symbolTable s !! sy) as [sx|] eqn:Hsy; [|discriminate Ht].
  injection Ht as Ht. pose proof (Forall_lookup_1 _ _ _ _ Hv Hsy) as Hval. cbv beta in Hval. rewrite Ht in Hval.
  destruct (Hw i d Hd) as (x & Hx & Hh & _).
  set (s1 := s <| a_program := <[i := x <| Src1 := Value sx |>]> (a_program s) |>).
  assert (Hi : (i < length prog)%nat) by by eapply lookup_lt_Some.
  destruct (IH s1 (<[i := encode env d]> prog) rest) as (s' & E & Hp' & Hl' & Hc').
  - by destruct s.
  - by destruct s.
  - unfold s1. destruct s. simpl in *. rewrite Hp, insert_app_l by done. f_equal. f_equal.
    rewrite Hval. by apply (complete d t).
  - split; [by rewrite length_insert|]. intros j e He. destruct (decide (i = j)) as [<-|Hj].
    + assert (e = d) as -> by congruence. exists (encode env d). rewrite list_lookup_insert_eq by done. tauto.
    + destruct (Hw j e He) as (y & Hy & Hhy & Hc). exists y. rewrite list_lookup_insert_ne by done.
      split; [done|]. split; [done|]. destruct Hc as [Hc|Hc]; [by left|]. right. cbn in Hc.
      apply list.elem_of_cons in Hc as [Hc|Hc]; [by destruct Hj|done].
  - exists s'. split; [|split; [done|]; destruct s; by split].
    cbn [fix_forward]. unfold symbol.
    rewrite (bind_done _ _ s sx s).
    2:{ rewrite (bind_done (get symbolTable) _ s _ s eq_refl). by rewrite Hsy. }
    rewrite (bind_done (get a_program) _ s _ s eq_refl).
    assert (Hxa : a_program s !! i = Some x) by (rewrite Hp; by apply lookup_app_l_Some).
    rewrite Hxa. cbn [read]. rewrite (bind_done _ _ s x s eq_refl).
    by rewrite bind_put.
Qed.
End fix_forward.

(** * The heading of a source *)

Section heading.
Variable capacity : nat.
Variable names : list text.

(** Lines with nothing but a comment, at the start. *)
Lemma heading_step (h : list (option text)) rest s :
  ok names (λ _, 0) 0 0 [] [] s → operandStackSize s = 0%nat →
  ∃ s', assemble_atoms capacity ((eol <$> h) ++ rest) s = assemble_atoms capacity rest s' ∧
    ok names (λ _, 0) 0 0 [] [] s' ∧ operandStackSize s' = 0%nat ∧ forward s' = forward s.
Proof.
  revert s. induction h as [|c h IH]; intros s Hok Hs; [by exists s|]. cbn [fmap list_fmap app].
  rewrite eol_run by apply Hok.
  destruct (IH ((s <| operandStackSize := 0%nat |> <| operatorStack := [] |>) <| patom := Some (eol c) |>))
    as (s' & E & Hok' & Hs' & Hf'); [by apply ok_patom, ok_stacks|by destruct s|].
  exists s'. rewrite Hf'. destruct s. by split.
Qed.

(** Before the first instruction nothing depends on the addresses. *)
Lemma ok_env env load a done s : forward s = [] → done = [] →
  ok names (λ _, 0) load a [] done s → ok names env load a [] done s.
Proof.
  intros Hf -> [? ? ? ? ? ? ? _ (prog & rest & Hp & [Hl Hw] & Hr)]. split; try done; rewrite Hf; [done|].
  exists prog, rest. by repeat split.
Qed.

(** The start address. *)
Lemma org_step v c rest s :
  ok names (λ _, 0) 0 0 [] [] s → operandStackSize s = 0%nat → 0 <= v < 2 ^ 31 →
  ∃ s', assemble_atoms capacity (org_atoms (v, c) ++ rest) s = assemble_atoms capacity rest s' ∧
    ok names (λ _, 0) v v [] [] s' ∧ operandStackSize s' = 0%nat ∧ forward s' = forward s.
Proof.
  intros Hok Hs Hv. cbn [org_atoms fst snd app].
  set (num := mk_Atom Numeric None v).
  set (s1 := (s <| operandStack := <[0%nat := literal v]> (operandStack s) |> <| operandStackSize := 1%nat |>)
    <| patom := Some num |>).
  assert (E1 : assemble_atoms capacity (num :: colon :: eol c :: rest) s =
               assemble_atoms capacity (colon :: eol c :: rest) s1).
  { apply atoms_cons. change (numeric_atom v s = Done ((), s <| operandStack := <[0%nat := literal v]> (operandStack s) |>
      <| operandStackSize := 1%nat |>)).
    unfold numeric_atom. rewrite (bind_done (get expect_lit) _ s false s) by (unfold get; by rewrite (ok_lit _ _ _ _ _ _ _ Hok)).
    unfold PushOperand. by rewrite (bind_done (get operandStackSize) _ s 0%nat s) by (unfold get; by rewrite Hs). }
  rewrite E1.
  set (s2 := (s1 <| pc := v |> <| a_load := v |>) <| patom := Some colon |>).
  assert (Hpc1 : pc s1 = 0) by (pose proof (ok_pc _ _ _ _ _ _ _ Hok); by destruct s).
  assert (E2 : assemble_atoms capacity (colon :: eol c :: rest) s1 = assemble_atoms capacity (eol c :: rest) s2).
  { apply atoms_cons. change (label_atom s1 = Done ((), s1 <| pc := v |> <| a_load := v |>)). unfold label_atom.
    rewrite (bind_done (get patom) _ s1 (Some num) s1) by by destruct s.
    cbn [read]. rewrite (bind_done _ _ s1 num s1 eq_refl). unfold num. cbn [a_Type a_Value].
    rewrite bool_decide_false, bool_decide_true by done.
    rewrite (bind_done (get pc) _ s1 0 s1) by (unfold get; by rewrite Hpc1). cbn [Z.eqb]. rewrite s32_small by lia.
    unfold set_pc. rewrite bind_put. unfold put. f_equal. f_equal.
    clear E1. destruct s1. cbn. f_equal. unfold u64. rewrite Z.mod_small by lia. done. }
  rewrite E2. assert (Hlit : expect_lit s2 = false) by (pose proof (ok_lit _ _ _ _ _ _ _ Hok); by destruct s).
  eexists. split; [by apply eol_run|]. split; [|by destruct s]. apply ok_patom, ok_stacks, ok_patom.
  subst s1 s2 num. clear E1 E2 Hpc1 Hlit. destruct s, Hok. by split.
Qed.
End heading.

(** * The text of a source *)

Lemma ends_app l1 l2 : ends (l1 ++ l2) = (ends l1 + ends l2)%nat.
Proof. unfold ends. by rewrite filter_app, length_app. Qed.

Lemma ends_eol (h : list (option text)) : ends (eol <$> h) = length h.
Proof. induction h as [|c h IH]; [done|]. cbn [fmap list_fmap length]. rewrite ends_cons, <- IH. done. Qed.

Lemma ends_lines ls : (length ls <= ends (concat (line_atoms <$> ls)))%nat.
Proof.
  induction ls as [|l ls IH]; [simpl; lia|]. cbn [fmap list_fmap concat length]. rewrite ends_app.
  unfold line_atoms at 1. rewrite !ends_app, ends_cons. simpl. lia.
Qed.

(** There is room for an instruction on every line. *)
Lemma source_room s file : spells (source_atoms s) file →
  (length (so_heading s) + length (so_lines s) <= sourceLines file)%nat.
Proof.
  intros Hs%spells_ends. change (sourceLines file) with (newlines file). pose proof (ends_lines (so_lines s)).
  unfold source_atoms in Hs. rewrite !ends_app, ends_eol in Hs.
  change (ends [blank]) with 1%nat in Hs. lia.
Qed.

Lemma read_source_plain t : Forall plain t → read_source t = t.
Proof.
  induction 1 as [|c t [H1 H2] _ IH]; [done|]. cbn [read_source]. by rewrite !bool_decide_false, IH by done.
Qed.

(** No source begins with a full stop. *)
Lemma spells_dot l t : spells l (char 46 :: t) → ∃ l', l = mk_Atom Bit None 0 :: l'.
Proof.
  assert (Hc : ∀ a, class (char 46) a → a = Bit) by (intros a Ha; cbv in Ha; congruence).
  inversion 1 as [|c l' t' [Hb _]| |w l' t' Hw|c w v l' t' Hb|c w a l' t' Hb|c w l' t' Hb|c a l' t' Hb];
    subst; try (apply Hc in Hb; discriminate Hb).
  exists l'. by rewrite (Hc a Hb).
Qed.

Lemma source_head s : ∀ l, source_atoms s ≠ mk_Atom Bit None 0 :: l.
Proof.
  intros l. unfold source_atoms. destruct (so_heading s); [|done]. destruct (so_org s); [done|].
  destruct (so_lines s) as [|[lbl ins c] ls]; [done|]. unfold line_atoms. by destruct lbl, ins.
Qed.

(** * The whole program *)

Section program.
Variable capacity : nat.

Lemma asm_start_ok names :
  let s := asm_start <| a_program := [zero_inst] |> <| a_inst := 0%nat |> in
  ok names (λ _, 0) 0 0 [] [] s.
Proof.
  cbv zeta. split; try done.
  - apply table_start.
  - exists [], [zero_inst]. split; [done|]. split; [|simpl; lia]. split; [done|]. by intros i d Hd.
Qed.

(** All the atoms of a source. *)
Lemma source_step s st : 
  assemblable s → (length (so_heading s) + length (so_lines s) <= capacity)%nat →
  let names := concat (line_symbols <$> so_lines s) in
  let all := labels (start s) (so_lines s) in
  ok names (λ _, 0) 0 0 [] [] st → operandStackSize st = 0%nat → forward st = [] →
  ∃ st' a, assemble_atoms capacity (source_atoms s) st = Done ((), st') ∧
    ok names (address all) (start s) a all (insts (so_lines s)) st'.
Proof.
  intros [Hfit Hnd Hnames Hfwd Hstart Hend Hsome] Hcap names all Hok Hs Hf. unfold source_atoms.
  destruct (heading_step capacity names (so_heading s) (match so_org s with Some o => org_atoms o | None => [] end ++
    concat (line_atoms <$> so_lines s) ++ [blank]) st Hok Hs) as (s1 & -> & Hok1 & Hs1 & Hf1).
  assert (Horg : ∃ s2, assemble_atoms capacity (match so_org s with Some o => org_atoms o | None => [] end ++
    concat (line_atoms <$> so_lines s) ++ [blank]) s1 =
    assemble_atoms capacity (concat (line_atoms <$> so_lines s) ++ [blank]) s2 ∧
    ok names (λ _, 0) (start s) (start s) [] [] s2 ∧ operandStackSize s2 = 0%nat ∧ forward s2 = forward s1).
  { unfold start in *. destruct (so_org s) as [[v c]|]; [|by exists s1]. apply org_step; [done|done|lia]. }
  destruct Horg as (s2 & -> & Hok2 & Hs2 & Hf2).
  assert (Hf0 : forward s2 = []) by congruence.
  apply (ok_env names (address all)) in Hok2; [|done|done].
  destruct (lines_step capacity names Hnames (address all) (start s) (so_lines s) (start s) [] [] [blank] s2)
    as (s3 & a & -> & Hok3 & _); try done.
  - simpl. lia.
  - by apply Forall_forall.
  - by rewrite Hf0.
  - eexists _, a. split; [|apply ok_patom, ok_stacks; exact Hok3].
    change [blank] with (eol None :: []). rewrite eol_run by apply Hok3. done.
Qed.
End program.

Lemma WriteObject_app l n prog rest : Z.of_nat (length prog) = n →
  WriteObject (mk_ProgramBuf l n (prog ++ rest)) = WriteObject (mk_ProgramBuf l n prog).
Proof.
  intros <-. unfold WriteObject. cbn [InstructionCount Program LoadAddress]. rewrite Nat2Z.id.
  by rewrite take_app_length, take_ge.
Qed.

Lemma assemble_reference (s : source) (file : text) :
  assemblable s → spells (source_atoms s) file → (2 <= length file)%nat →
  compile file = Done (WriteObject (reference s)).
Proof.
  intros Has Hsp Hlen. pose proof (source_room s file Hsp) as Hroom.
  pose proof (as_some _ Has) as Hsome. pose proof (spells_plain _ _ Hsp) as Hplain.
  unfold compile. rewrite (proj2 (Nat.ltb_ge _ _)) by done. rewrite read_source_plain by done.
  assert (Hdot : head file ≠ Some (char 46)).
  { destruct file as [|c file]; [done|]. intros [= ->]. apply spells_dot in Hsp as [l Hl]. by eapply source_head. }
  set (s0 := asm_start <| a_program := [zero_inst] |> <| a_inst := 0%nat |>).
  destruct (source_step (sourceLines file) s s0 Has Hroom) as (st & a & E & Hok); [apply asm_start_ok|done|done|].
  assert (HA : Assemble (sourceLines file) (Z.of_nat (length file)) file asm_start = Done (0, st)).
  { unfold Assemble. rewrite GetAtoms_spells with (l := source_atoms s) by done. cbn [read].
    rewrite (bind_done _ _ asm_start (Some (source_atoms s, 0)) asm_start eq_refl), bind_put.
    rewrite (bind_done (new_inst _) _ _ () s0).
    2:{ unfold new_inst, get, put, mbind, Asm_bind. cbn. destruct (sourceLines file); [lia|done]. }
    rewrite (bind_done _ _ _ _ _ E). unfold get. by rewrite (ok_err _ _ _ _ _ _ _ Hok). }
  destruct Hok as [_ _ _ Hc Hl _ Ht Hf (prog & rest & Hp & Hw & _)].
  destruct (fix_forward_ok (address (labels (start s) (so_lines s))) (insts (so_lines s)) (forward st) st prog rest)
    as (st' & Efix & Hp' & Hl' & Hc'); try done.
  { eapply Forall_impl; [apply Ht|]. by intros x [_ Hx]. }
  rewrite (bind_done _ _ _ _ _ HA). cbn [Z.eqb].
  rewrite (bind_done _ _ st () st').
  2:{ by rewrite (bind_done (get forward) _ st _ st eq_refl). }
  unfold get, mret, Asm_ret, mbind, Asm_bind. rewrite Hl', Hc', Hp', Hl, Hc.
  f_equal. rewrite WriteObject_app by by rewrite length_fmap. done.
Qed.

(** C11 Correctness of the assembler.  A text that spells a source with at most
    1024 symbols, distinct labels and less than 100 unresolved references is
    assembled, without an error, into exactly the object file of the two-pass
    reference: labels get the address of the instruction that follows, symbols
    are replaced by their addresses wherever they are defined, and a symbol
    that is never defined silently counts as 0. *)
Theorem assembler_correct (s : source) (file : text) :
  assemblable s → spells (source_atoms s) file → (2 <= length file)%nat →
  compile file = Done (WriteObject (reference s)).
Proof. apply assemble_reference. Qed.

(** * An example: the sample of MttAsm *)

Ltac all_chars := repeat (apply List.Forall_cons; [eexists; split; reflexivity|]); apply List.Forall_nil.
Ltac stop := first [exact I | eexists; split; reflexivity].

(** Recognise the next piece of a concrete text. *)
Ltac spell_one :=
  match goal with
  | |- spells _ [] => apply spells_end
  | |- spells _ (?c :: ?t) =>
    let k := eval vm_compute in (atomhash c, bool_decide (c = newline)) in
    lazymatch k with
    | (Some Seperator, true) => apply spells_eol
    | (Some Seperator, false) => apply spells_blank; [by split|]
    | (Some Numeric, _) =>
      let v := eval vm_compute in (strtoul (c :: t)).1 in
      let p := eval vm_compute in (span is_alnum TEXT t) in
      lazymatch p with Some (?w, ?r) =>
        apply (spells_number c w v _ r); [reflexivity|all_chars|vm_compute; reflexivity|] end
    | (Some Alpha, _) =>
      let p := eval vm_compute in (span is_alnum TEXT t) in
      lazymatch p with Some (?w, ?r) =>
        apply (spells_word c w _ _ r); [reflexivity|all_chars|by apply Nat.ltb_lt|stop|vm_compute; reflexivity|] end
    | (Some Operator, _) =>
      let p := eval vm_compute in (span is_operator TEXT t) in
      lazymatch p with Some (?w, ?r) =>
        apply (spells_operator c w _ r); [reflexivity|all_chars|by apply Nat.ltb_lt|stop|] end
    | (Some Comment, _) =>
      let p := eval vm_compute in (take_line TEXT t) in
      lazymatch p with (?l, ?r) =>
        let w := eval vm_compute in (take (pred (length l)) l) in
        apply (spells_comment w _ r);
          [repeat (apply List.Forall_cons; [split; [eexists; split; [reflexivity|discriminate]|by split]|]); apply List.Forall_nil
          |by apply Nat.ltb_lt|] end
    end
  end.

Definition sample_inst (w : string) (op : nat) (x : operand) (r2 rd : string * Z) : sinst :=
  mk_sinst (str w) op x (str r2.1, r2.2) (str rd.1, rd.2).

Definition sample_source : source := mk_source [] (Some (256, None)) [
  mk_line None (Some (sample_inst "MOVV" 9 (OLit 5) (""%string, 0) ("GR1"%string, 0))) None;
  mk_line (Some (str "loop")) (Some (sample_inst "SUBV" 21 (OLit 1) ("GR1"%string, 0) ("GR1"%string, 0))) None;
  mk_line None (Some (sample_inst "BEQ" 29 (OSym (str "done")) (""%string, 0) (""%string, 0))) None;
  mk_line None (Some (sample_inst "JMP" 28 (OSym (str "loop")) (""%string, 0) (""%string, 0))) (Some (str " again"));
  mk_line (Some (str "done")) (Some (sample_inst "HALT" 0 (OLit 0) (""%string, 0) (""%string, 0))) None].

Lemma sample_spells : spells (source_atoms sample_source) sample.
Proof. vm_compute. repeat spell_one. Qed.

Lemma assembler_correct_witness :
  compile sample = Done (WriteObject (mk_ProgramBuf 0x100 5 [
    mk_Instruction 0 0 MOVV 0 5; mk_Instruction 0 0 SUBV 0 1; mk_Instruction 0 0 BEQ 0 0x104;
    mk_Instruction 0 0 JMP 0 0x101; mk_Instruction 0 0 HALT 0 0])).
Proof.
  apply (assembler_correct sample_source sample).
  - split.
    + repeat (apply List.Forall_cons; [by apply (bool_decide_unpack _)|]). apply List.Forall_nil.
    + by apply (bool_decide_unpack _).
    + by apply Nat.leb_le.
    + by apply Nat.ltb_lt.
    + by apply Z.leb_le.
    + by apply Z.ltb_lt.
    + by apply Nat.ltb_lt.
  - exact sample_spells.
  - by apply Nat.leb_le.
Defined.
