(* ===== verification/MttAsmListing.v ===== *)
(** The listing that the emulator prints of a program is a source of that
    program: [InstToStr] and the assembler are inverse where the columns of the
    listing leave a space between two operands ([listing_roundtrip]). *)
From Stdlib Require Import Ascii String.
From S2P Require Import Prelude MttText MttIsa MttObj MttLex MttLexProofs MttAsm MttAsmSpec MttAsmProofs MttAsmCorrect.

Local Open Scope Z_scope.

(** * Pieces of a line *)

(** A piece of text that is scanned into these atoms when no letter or digit
    follows. *)
Definition piece (p : text) (al : list Atom) : Prop :=
  ∀ l t, stops is_alnum t → spells l t → spells (al ++ l) (p ++ t).

Definition spaces (n : nat) : text := replicate n (char 32).

Lemma spells_spaces n l t : spells l t → spells l (spaces n ++ t).
Proof. intros Hs. induction n as [|n IH]; [done|]. apply spells_blank; [by split|exact IH]. Qed.

Lemma stops_spaces n t : (n = 0%nat → stops is_alnum t) → stops is_alnum (spaces n ++ t).
Proof. destruct n; [by intros H; apply H|]. intros _. exists Seperator. by split. Qed.

(** A piece in a column. *)
Lemma piece_column p al n l t :
  piece p al → (n = 0%nat → stops is_alnum t) → spells l t → spells (al ++ l) (p ++ spaces n ++ t).
Proof. intros Hp Hn Hs. apply Hp; [by apply stops_spaces|by apply spells_spaces]. Qed.

Lemma piece_nil : piece [] [].
Proof. by intros l t _ Hs. Qed.

Lemma piece_word c w a :
  class c Alpha → all_ok is_alnum w → (S (length w) < TEXT)%nat → alpha_atom (c :: w) = Some a → piece (c :: w) [a].
Proof. intros Hc Hw Hl Ha l t Ht Hs. by apply (spells_word c w a l t). Qed.

Lemma piece_number c w v :
  class c Numeric → all_ok is_alnum w → (∀ t, stops is_alnum t → strtoul (c :: w ++ t) = (v, t)) →
  piece (c :: w) [mk_Atom Numeric None (s32 v)].
Proof. intros Hc Hw Hn l t Ht Hs. apply (spells_number c w v l t); auto. Qed.

(** ** Registers and opcodes *)

#[global] Instance Atom_dec : EqDecision Atom.
Proof. solve_decision. Defined.

Definition word_b (p : text) : bool :=
  match p with
  | c :: w =>
    bool_decide (atomhash c = Some Alpha) && forallb (λ c, from_option is_alnum false (atomhash c)) w &&
    (S (length w) <? TEXT)%nat
  | [] => false
  end.

Lemma word_piece p a : word_b p = true → alpha_atom p = Some a → piece p [a].
Proof.
  destruct p as [|c w]; [done|]. unfold word_b. rewrite !andb_true_iff, bool_decide_eq_true, Nat.ltb_lt.
  intros [[Hc Hw] Hl] Ha. apply piece_word; try done. apply List.Forall_forall. intros d Hd.
  rewrite forallb_forall in Hw. apply Hw in Hd. unfold class.
  destruct (atomhash d) as [t|]; [exists t; by split|discriminate Hd].
Qed.

Lemma register_piece r : 0 <= r < 256 → piece (GetRegisterName r) [mk_Atom Register (Some (GetRegisterName r)) r].
Proof.
  intros Hr. cut (word_b (GetRegisterName r) = true ∧
    alpha_atom (GetRegisterName r) = Some (mk_Atom Register (Some (GetRegisterName r)) r)).
  { intros [Hw Ha]. by apply word_piece. }
  revert r Hr. apply (all_registers (λ r, word_b (GetRegisterName r) = true ∧
      alpha_atom (GetRegisterName r) = Some (mk_Atom Register (Some (GetRegisterName r)) r))).
  vm_compute. reflexivity.
Qed.

(** The names of the opcodes are read as what they are, and fit their column. *)
Definition opname (k : nat) : text := str (op_Name (InstructionSet !!! k)).

Lemma opcode_table k : (k < length InstructionSet)%nat →
  word_b (opname k) = true ∧ alpha_atom (opname k) = Some (mk_Atom Op_code (Some (opname k)) (Z.of_nat k)) ∧
  (length (opname k) < 8)%nat ∧
  find_idx (λ o, op_Number o =? op_Number (InstructionSet !!! k)) InstructionSet = Some k.
Proof.
  intros Hk.
  assert (HF : Forall (λ k, word_b (opname k) = true ∧
    alpha_atom (opname k) = Some (mk_Atom Op_code (Some (opname k)) (Z.of_nat k)) ∧ (length (opname k) < 8)%nat ∧
    find_idx (λ o, op_Number o =? op_Number (InstructionSet !!! k)) InstructionSet = Some k) (seq 0 (length InstructionSet)))
    by by apply (bool_decide_unpack _).
  rewrite Forall_forall in HF. apply HF. apply elem_of_seq. lia.
Qed.

(** No letter or digit is no hexadecimal digit. *)
Lemma stops_no_digit t : stops is_alnum t → no_digit 16 t.
Proof.
  destruct t as [|c t]; [done|]. intros (a & Hc & Ha). unfold class in Hc. cbn [no_digit].
  revert Hc Ha. clear t. destruct c as [[] [] [] [] [] [] [] []]; intros [= <-]; (done || (intros Ha; discriminate Ha)).
Qed.

Lemma digit_char_alnum d : 0 <= d < 16 → from_option is_alnum false (atomhash (digit_char d)) = true.
Proof.
  intros Hd. assert (HF : Forall (λ d, from_option is_alnum false (atomhash (digit_char d)) = true) (seqZ 0 16))
    by by apply (bool_decide_unpack _).
  rewrite Forall_forall in HF. apply HF. apply elem_of_seqZ. lia.
Qed.

Lemma number_piece v : piece (hex0x v) [mk_Atom Numeric None (s32 (u32 v))].
Proof.
  change (hex0x v) with (char 48 :: (char 120 :: hex v)). apply piece_number; [done| |].
  - constructor; [by exists Alpha|]. pose proof (u32_range v) as Hr. unfold is_u32 in Hr.
    eapply Forall_impl; [apply (print_chars 16 8 (u32 v)); lia|]. intros c (d & Hd & ->).
    pose proof (digit_char_alnum d Hd). unfold class. destruct (atomhash (digit_char d)) as [t|]; [exists t; by split|done].
  - intros t Ht. apply (strtoul_hex [] v t); [constructor|by apply stops_no_digit].
Qed.

(** * A line of the listing *)

Definition field_ok (t : ArgType) (v : Z) : Prop :=
  match t with
  | AtNothing => v = 0
  | AtLiteral | AtAddress => - 2 ^ 31 <= v < 2 ^ 31
  | AtRegister => 0 <= v < 256
  end.

(** An instruction of the set whose fields are in range, or zero when the
    opcode does not have them, and whose operands leave a space between the
    columns. *)
Definition listable (inst : Instruction) : Prop :=
  ∃ k, (k < length InstructionSet)%nat ∧
  let o := InstructionSet !!! k in
  let w1 := length (operand_str (op_Src1 o) (Src1 inst)) in
  let w2 := length (operand_str (op_Src2 o) (Src2 inst)) in
  Number inst = op_Number o ∧ Crc inst = 0 ∧
  field_ok (op_Src1 o) (Src1 inst) ∧ field_ok (op_Src2 o) (Src2 inst) ∧ field_ok (op_Dest o) (Dest inst) ∧
  (op_Src2 o ≠ AtNothing → 8 + w1 < 16)%nat ∧
  (op_Dest o ≠ AtNothing → Nat.max 16 (8 + w1) + w2 < 24)%nat.

Definition op_index (inst : Instruction) : nat := default 0%nat (find_idx (λ o, op_Number o =? Number inst) InstructionSet).

(** The instruction as the assembler reads it. *)
Definition operand_of (t : ArgType) (v : Z) : operand :=
  match t with AtRegister => OReg (GetRegisterName v) v | _ => OLit v end.
Definition sinst_of (inst : Instruction) : sinst :=
  mk_sinst (opname (op_index inst)) (op_index inst)
    (operand_of (op_Src1 (InstructionSet !!! op_index inst)) (Src1 inst))
    (GetRegisterName (Src2 inst), Src2 inst) (GetRegisterName (Dest inst), Dest inst).

Lemma pad_length pos ln : length (pad pos ln) = Nat.max pos (length ln).
Proof. unfold pad. rewrite length_app, length_replicate. lia. Qed.

Lemma src2_types k : (k < length InstructionSet)%nat → let o := InstructionSet !!! k in
  (op_Src2 o = AtNothing ∨ op_Src2 o = AtRegister) ∧ (op_Dest o = AtNothing ∨ op_Dest o = AtRegister).
Proof.
  intros Hk. do 36 (destruct k as [|k]; [cbn; tauto|]). change (length InstructionSet) with 36%nat in Hk. lia.
Qed.

Lemma s32_u32 v : - 2 ^ 31 <= v < 2 ^ 31 → s32 (u32 v) = v.
Proof. intros Hv. unfold s32, u32. rewrite Zplus_mod_idemp_l, Z.mod_small by lia. lia. Qed.

Lemma s32_byte v : 0 <= v < 256 → s32 v = v.
Proof. intros Hv. apply s32_small. lia. Qed.

(** The text of an operand. *)
Lemma operand_piece t v : field_ok t v →
  piece (operand_str t v) (match t with AtNothing => [] | _ => [operand_atom (operand_of t v)] end).
Proof.
  destruct t; cbn [field_ok operand_str operand_of operand_atom]; intros Hv.
  - apply piece_nil.
  - rewrite <- (s32_u32 v) at 2 by done. apply number_piece.
  - rewrite <- (s32_u32 v) at 2 by done. apply number_piece.
  - rewrite s32_byte by done. by apply register_piece.
Qed.

Lemma pad_spaces pos ln : pad pos ln = ln ++ spaces (pos - length ln).
Proof. done. Qed.

Lemma op_index_eq inst k : (k < length InstructionSet)%nat → Number inst = op_Number (InstructionSet !!! k) →
  op_index inst = k ∧ find_opcode (Number inst) = Some (InstructionSet !!! k).
Proof.
  intros Hk Hn. destruct (opcode_table k Hk) as (_ & _ & _ & Hf). unfold op_index, find_opcode. rewrite Hn, Hf.
  split; [done|]. cbn. destruct (lookup_lt_is_Some_2 _ _ Hk) as [o Ho].
  by rewrite Ho, (list_lookup_total_correct _ _ _ Ho).
Qed.

(** The columns of a line. *)
Lemma InstToStr_columns inst k : (k < length InstructionSet)%nat → Number inst = op_Number (InstructionSet !!! k) →
  let o := InstructionSet !!! k in
  let p1 := operand_str (op_Src1 o) (Src1 inst) in
  let p2 := operand_str (op_Src2 o) (Src2 inst) in
  let p3 := operand_str (op_Dest o) (Dest inst) in
  ∃ n1 n4, (0 < n1)%nat ∧
    InstToStr inst = opname k ++ spaces n1 ++ p1 ++ spaces (16 - (8 + length p1)) ++
      p2 ++ spaces (24 - (Nat.max 16 (8 + length p1) + length p2)) ++ p3 ++ spaces n4.
Proof.
  intros Hk Hn o p1 p2 p3. destruct (opcode_table k Hk) as (_ & _ & Hl & _).
  unfold InstToStr. rewrite (proj2 (op_index_eq inst k Hk Hn)). fold o p1 p2 p3. change (str (op_Name o)) with (opname k).
  assert (H8 : length (pad 8 (opname k)) = 8%nat) by (rewrite pad_length; lia).
  set (l1 := pad 8 (opname k)) in *.
  assert (H16 : length (pad 16 (l1 ++ p1)) = Nat.max 16 (8 + length p1)) by (rewrite pad_length, length_app; lia).
  set (l2 := pad 16 (l1 ++ p1)) in *.
  exists (8 - length (opname k))%nat, (32 - length (pad 24 (l2 ++ p2) ++ p3))%nat. split; [lia|].
  rewrite (pad_spaces 32), (pad_spaces 24), length_app, H16. subst l2.
  rewrite (pad_spaces 16), length_app, H8. subst l1. rewrite pad_spaces. by rewrite <- !app_assoc.
Qed.

Lemma listing_line inst l t : listable inst → spells l t →
  spells (line_atoms (mk_line None (Some (sinst_of inst)) None) ++ l) (InstToStr inst ++ newline :: t).
Proof.
  intros (k & Hk & Hn & _ & H1 & H2 & H3 & Hc2 & Hc3) Hs.
  destruct (InstToStr_columns inst k Hk Hn) as (n1 & n4 & Hn1 & ->).
  destruct (op_index_eq inst k Hk Hn) as [Hix _]. destruct (opcode_table k Hk) as (Hw & Ha & _ & _).
  destruct (src2_types k Hk) as [Ht2 Ht3].
  assert (Hatoms : line_atoms (mk_line None (Some (sinst_of inst)) None) ++ l =
    [mk_Atom Op_code (Some (opname k)) (Z.of_nat k)] ++
    match op_Src1 (InstructionSet !!! k) with AtNothing => [] | _ => [operand_atom (operand_of (op_Src1 (InstructionSet !!! k)) (Src1 inst))] end ++
    match op_Src2 (InstructionSet !!! k) with AtNothing => [] | _ => [operand_atom (operand_of (op_Src2 (InstructionSet !!! k)) (Src2 inst))] end ++
    match op_Dest (InstructionSet !!! k) with AtNothing => [] | _ => [operand_atom (operand_of (op_Dest (InstructionSet !!! k)) (Dest inst))] end ++
    [] ++ blank :: l).
  { unfold line_atoms, inst_atoms, inst_operands, src1_operands, reg_operands, op_atom, opc, sinst_of.
    cbn [ln_label ln_inst ln_comment si_op si_word si_src1 si_src2 si_dest]. rewrite Hix.
    destruct (op_Src1 (InstructionSet !!! k)), Ht2 as [-> | ->], Ht3 as [-> | ->]; done. }
  rewrite Hatoms. rewrite <- !app_assoc.
  apply piece_column; [by apply word_piece|lia|].
  apply piece_column; [by apply operand_piece| |].
  { intros H0. destruct Ht2 as [E2|E2]; [|rewrite E2 in Hc2; specialize (Hc2 ltac:(done)); lia].
    rewrite E2 in *. cbn [operand_str app] in *. apply stops_spaces. intros H0'.
    destruct Ht3 as [E3|E3]; [|rewrite E3 in Hc3; specialize (Hc3 ltac:(done)); lia].
    rewrite E3. cbn [operand_str app]. apply stops_spaces. intros _. by exists Seperator. }
  apply piece_column; [by apply operand_piece| |].
  { intros H0. destruct Ht3 as [E3|E3]; [|rewrite E3 in Hc3; specialize (Hc3 ltac:(done)); lia].
    rewrite E3. cbn [operand_str app]. apply stops_spaces. intros _. by exists Seperator. }
  apply piece_column; [by apply operand_piece| |].
  { intros _. by exists Seperator. }
  by apply spells_eol.
Qed.

(** * The whole listing *)

Definition listing (prog : list Instruction) : text := concat ((λ i, InstToStr i ++ [newline]) <$> prog).
Definition listing_line_of (i : Instruction) : line := mk_line None (Some (sinst_of i)) None.
Definition listing_source (prog : list Instruction) : source := mk_source [] None (listing_line_of <$> prog).

Lemma listing_spells prog : Forall listable prog → spells (source_atoms (listing_source prog)) (listing prog).
Proof.
  unfold source_atoms, listing. cbn [listing_source so_heading so_org so_lines fmap list_fmap app].
  induction 1 as [|inst prog Hi _ IH]; [apply spells_end|]. cbn [fmap list_fmap concat].
  rewrite <- !app_assoc. cbn [app]. by apply listing_line.
Qed.

Lemma sinst_of_encode env inst : listable inst → inst_fits (sinst_of inst) ∧ encode env (sinst_of inst) = inst ∧ symbol_of (sinst_of inst) = None.
Proof.
  intros (k & Hk & Hn & Hcrc & H1 & H2 & H3 & _). destruct (op_index_eq inst k Hk Hn) as [Hix _].
  destruct (src2_types k Hk) as [Ht2 Ht3].
  unfold inst_fits, encode, symbol_of, opc, sinst_of. cbn [si_op si_src1 si_src2 si_dest fst snd]. rewrite Hix. cbv zeta in *.
  assert (R2 : 0 <= Src2 inst < 256) by (destruct Ht2 as [E|E]; rewrite E in H2; simpl in H2; lia).
  assert (R3 : 0 <= Dest inst < 256) by (destruct Ht3 as [E|E]; rewrite E in H3; simpl in H3; lia).
  split; [|split].
  - split; [done|]. split; [|done]. by destruct (op_Src1 (InstructionSet !!! k)).
  - destruct inst as [d s2 n c s1]. cbn [Dest Src2 Number Crc Src1] in *. subst n c. f_equal.
    + destruct Ht3 as [E|E]; rewrite E in H3 |- *; [by rewrite H3|done].
    + destruct Ht2 as [E|E]; rewrite E in H2 |- *; [by rewrite H2|done].
    + destruct (op_Src1 (InstructionSet !!! k)); cbn in *; by subst.
  - by destruct (op_Src1 (InstructionSet !!! k)).
Qed.

(** A listing defines no label and refers to none. *)
Lemma listing_plain prog : Forall listable prog → ∀ a seen,
  let ls := listing_line_of <$> prog in
  insts ls = sinst_of <$> prog ∧ concat (line_symbols <$> ls) = [] ∧ labels a ls = [] ∧ unresolved a seen ls = 0%nat.
Proof.
  induction 1 as [|i prog Hi _ IH]; intros a seen; [done|]. cbv zeta in *.
  destruct (IH (a + 1) (seen ++ [])) as (E1 & E2 & E3 & E4).
  pose proof (proj2 (proj2 (sinst_of_encode (λ _, 0) i Hi))) as Hs.
  assert (Hls : line_symbols (listing_line_of i) = []) by (unfold line_symbols; cbn; by rewrite Hs).
  assert (Hlu : ∀ seen, line_unresolved seen (listing_line_of i) = 0%nat) by (intros ?; unfold line_unresolved; cbn; by rewrite Hs).
  rewrite !fmap_cons. cbn [labels unresolved concat].
  change (line_labels a (listing_line_of i)) with (@nil (text * Z)).
  change (line_size (listing_line_of i)) with 1. rewrite Hls, Hlu, E2, E3, E4, <- E1. by split.
Qed.


(** The fields and columns of a concrete instruction. *)
Ltac list_inst k := exists k; vm_compute; repeat split; intros; first [lia | congruence].

