(* ===== verification/MttAsmExpr.v ===== *)
(** The expressions of the MTT assembler: what a parenthesis in an operand is
    worth ([expression_value]). *)
From Stdlib Require Import Ascii String.
From S2P Require Import Prelude MttText MttIsa MttObj MttLex MttAsm MttAsmSpec MttAsmProofs.

Local Open Scope Z_scope.

(** [right] and [left] on the stack, popped and evaluated. *)
Lemma pop_at s n o (k : Operand → Asm Z) :
  operandStackSize s = S n → operandStack s !! n = Some o →
  pop1 k s = k o (s <| operandStackSize := n |>).
Proof.
  intros Hs Ho. unfold pop1, PopOperand. destruct s. simpl in *. subst.
  unfold get, put, read, mbind, Asm_bind. simpl. by rewrite Ho.
Qed.

(** The value of an operand depends on the symbols only. *)
Lemma value_keeps o s s1 v :
  symbolTable s1 = symbolTable s → GetValue o s = Done (v, s) → GetValue o s1 = Done (v, s1).
Proof.
  intros Ht. unfold GetValue. destruct (SymbolRef o) as [i|].
  - unfold symbol, get, read, mbind, Asm_bind. rewrite Ht. destruct (symbolTable s !! i); [|discriminate].
    by intros [= <-].
  - unfold mret, Asm_ret. by intros [= <-].
Qed.

(** C40 The value of an expression.  For a binary operator between two operands
    in parentheses the assembler computes the result and leaves it on the
    operand stack, but the value of the parenthesis, which becomes the operand
    of the instruction, is what the slot above the top still holds: the right
    operand if that is a literal, and 0 if it is a symbol. *)
Theorem expression_value (s : asm) (op n : nat) (opers : list nat) (left right res : Operand) (l r : Z) :
  operatorStack s = op :: OprSTM :: opers →
  operandStackSize s = S (S n) → length (operandStack s) = OPERAND_STACK →
  operandStack s !! n = Some left → operandStack s !! S n = Some right →
  GetValue left s = Done (l, s) → GetValue right s = Done (r, s) →
  binary_operator op l r = Some (Some res) →
  ∃ s', DoExpression s = Done (LiteralValue right, s') ∧
    operandStack s' = <[n := res]> (operandStack s) ∧ operandStackSize s' = S n ∧
    symbolTable s' = symbolTable s ∧ error_count s' = error_count s.
Proof.
  intros Hops Hsize Hlen Hl Hr Vl Vr Hbin.
  assert (Hn : (n < OPERAND_STACK)%nat) by (rewrite <- Hlen; by eapply lookup_lt_Some).
  assert (Hb : ∃ x, binary_operator op 0 1 = Some x).
  { revert Hbin. unfold binary_operator. repeat (destruct (_ =? _)%nat; [eauto|]). done. }
  destruct Hb as [x Hb].
  set (s1 := s <| operatorStack := OprSTM :: opers |>).
  set (s2 := s1 <| operandStackSize := S n |>). set (s3 := s2 <| operandStackSize := n |>).
  set (s4 := s3 <| operandStack := <[n := res]> (operandStack s3) |> <| operandStackSize := S n |>).
  exists (s4 <| operatorStack := opers |>).
  split; [|destruct s; by repeat split].
  unfold DoExpression. rewrite (bind_done (get operatorStack) _ s _ s eq_refl), Hops. cbn [length].
  cbn [do_expression].
  rewrite (bind_done PopOperator _ s (Some op) s1).
  2:{ unfold PopOperator. by rewrite (bind_done (get operatorStack) _ s _ s eq_refl), Hops. }
  rewrite Hb. cbv iota.
  rewrite (pop_at s1 (S n) right) by by destruct s. fold s2.
  rewrite (pop_at s2 n left) by by destruct s. fold s3.
  apply (value_keeps left s s3) in Vl; [|by destruct s]. apply (value_keeps right s s3) in Vr; [|by destruct s].
  rewrite (bind_done _ _ _ _ _ Vl), (bind_done _ _ _ _ _ Vr), Hbin. cbn [mbind option_bind id read].
  rewrite (bind_done _ _ s3 res s3 eq_refl).
  rewrite (bind_done (PushOperand res) _ s3 () s4).
  2:{ unfold PushOperand. rewrite (bind_done (get operandStackSize) _ s3 n s3) by by destruct s.
      destruct (Nat.ltb_spec n OPERAND_STACK); [done|lia]. }
  rewrite (bind_done PopOperator _ s4 (Some OprSTM) (s4 <| operatorStack := opers |>)) by by destruct s.
  change (binary_operator OprSTM 0 1) with (@None (option Operand)).
  change (unary_operator OprSTM 0) with (@None Operand). change (step_operator OprSTM) with (@None Z). cbv iota.
  change (OprSTM =? OprPOP)%nat with false. change (OprSTM =? OprAS)%nat with false. change (OprSTM =? OprSTM)%nat with true.
  cbv iota. set (s5 := s4 <| operatorStack := opers |>).
  rewrite (bind_done (get operandStackSize) _ s5 (S n) s5) by by destruct s.
  rewrite (bind_done (get operandStack) _ s5 (<[n := res]> (operandStack s)) s5) by by destruct s.
  rewrite list_lookup_insert_ne by lia. rewrite Hr. done.
Qed.

(** [( 2 3 + )]: the value is 3, and 5 stays on the stack. *)
Definition two_plus_three : asm :=
  asm_start <| operandStack := <[0%nat := literal 2]> (<[1%nat := literal 3]> (operandStack asm_start)) |>
    <| operandStackSize := 2%nat |> <| operatorStack := [OprPL; OprSTM] |>.

Lemma expression_value_witness :
  ∃ s', DoExpression two_plus_three = Done (3, s') ∧ operandStack s' !! 0%nat = Some (literal 5).
Proof.
  destruct (expression_value two_plus_three OprPL 0 [] (literal 2) (literal 3) (literal 5) 2 3)
    as (s' & E & Hs & _); try reflexivity.
  exists s'. split; [exact E|]. by rewrite Hs.
Defined.
