(* ===== verification/CdcmSem.v ===== *)
(** The counting semaphore of the LynxOS emulation: [struct cdcm_sem] and the
    operations on it in [src/cdcm/cdcmTime.c], and the variant of
    [src/cdcm/cdcmSem.c], which also looks at [kthread_should_stop].

    Everything happens in sections under the spinlock of the semaphore; a task
    that has to wait leaves the section when it sleeps and comes back to one when
    the scheduler wakes it.  A waiter is a local variable of the waiting task:
    it exists from the section that blocks to the one that returns, and an access
    to one that does not exist is stuck. *)
From S2P Require Import Prelude.

Local Open Scope Z_scope.

(** * Data *)

Inductive task_state := TASK_INTERRUPTIBLE | TASK_UNINTERRUPTIBLE.

#[global] Instance task_state_dec : EqDecision task_state.
Proof. solve_decision. Defined.

(** [LONG_MAX] *)
Definition MAX_SCHEDULE_TIMEOUT : Z := 2 ^ 63 - 1.

(** [struct cdcm_sem]; [wait_list] holds the tasks of the waiters, and
    [waiters] the field [up] of every waiter that exists. *)
Record cdcm_sem := mk_cdcm_sem {
  count : Z;
  wait_list : list nat;
  waiters : gmap nat bool
}.

Notation SM := (M cdcm_sem).

Definition cdcm_sem_init (val : Z) : cdcm_sem := mk_cdcm_sem (u32 val) [] ∅.

(** [signal_pending_state], when a signal is pending or not. *)
Definition signal_pending_state (state : task_state) (pending : bool) : bool :=
  bool_decide (state = TASK_INTERRUPTIBLE) && pending.

(** * Waiting *)

(** The node of a task that is not on the list has been unlinked already. *)
Definition list_del (t : nat) : SM () :=
  l ← gets wait_list;
  if bool_decide (t ∈ l) then modify (λ s : cdcm_sem, s <| wait_list := filter (λ u, u ≠ t) l |>) else stuck.

(** The local variable of [__cdcm_down_common] goes out of scope. *)
Definition end_waiter (t : nat) : SM () := modify (λ s : cdcm_sem, s <| waiters := delete t (waiters s) |>).

(** The head of the loop of [__cdcm_down_common]: the task returns, or sleeps
    ([None]). *)
Definition down_loop (t : nat) (state : task_state) (timeout : Z) (pending : bool) : SM (option Z) :=
  if signal_pending_state state pending then list_del t;; end_waiter t;; mret (Some (- EINTR))
  else if timeout <=? 0 then list_del t;; end_waiter t;; mret (Some (- ETIME))
  else mret None.

(** [__cdcm_down_common] up to the first sleep. *)
Definition cdcm_down_common (t : nat) (state : task_state) (timeout : Z) (pending : bool) : SM (option Z) :=
  modify (λ s : cdcm_sem, s <| wait_list := wait_list s ++ [t] |> <| waiters := <[t := false]> (waiters s) |>);;
  down_loop t state timeout pending.

Section variant.
(** Whether the code looks at [kthread_should_stop]: cdcmTime.c does not,
    cdcmSem.c does. *)
Variable checks_stop : bool.

(** From a sleep on: [timeout] is what [schedule_timeout] returned. *)
Definition down_wakes (t : nat) (state : task_state) (timeout : Z) (pending should_stop : bool) : SM (option Z) :=
  w ← gets waiters;
  up ← lift_opt (w !! t);
  if up || (checks_stop && should_stop) then end_waiter t;; mret (Some 0)
  else down_loop t state timeout pending.
End variant.

(** [cdcm_down], [cdcm_down_interruptible] and [cdcm_down_timeout]. *)
Definition down (t : nat) (state : task_state) (timeout : Z) (pending : bool) : SM (option Z) :=
  c ← gets count;
  if c >? 0 then modify (λ s : cdcm_sem, s <| count := u32 (c - 1) |>);; mret (Some 0)
  else cdcm_down_common t state timeout pending.

Definition cdcm_down (t : nat) (pending : bool) : SM (option Z) :=
  down t TASK_UNINTERRUPTIBLE MAX_SCHEDULE_TIMEOUT pending.
Definition cdcm_down_interruptible (t : nat) (pending : bool) : SM (option Z) :=
  down t TASK_INTERRUPTIBLE MAX_SCHEDULE_TIMEOUT pending.
Definition cdcm_down_timeout (t : nat) (jiffies : Z) (pending : bool) : SM (option Z) :=
  down t TASK_UNINTERRUPTIBLE jiffies pending.

(** The unsigned count minus one, as an [int]. *)
Definition cdcm_down_trylock : SM Z :=
  c ← gets count;
  let n := s32 (c - 1) in
  (if n >=? 0 then modify (λ s : cdcm_sem, s <| count := u32 n |>) else mret ());;
  mret (if n <? 0 then 1 else 0).

(** * Waking *)

(** The first entry of an empty list is no waiter; [up] of a waiter that is gone
    is a write into the stack of a task that has returned. *)
Definition cdcm_up_waiter : SM () :=
  l ← gets wait_list;
  match l with
  | [] => stuck
  | t :: rest =>
    modify (λ s : cdcm_sem, s <| wait_list := rest |>);;
    w ← gets waiters;
    lift_opt (w !! t);;
    modify (λ s : cdcm_sem, s <| waiters := <[t := true]> w |>)
  end.

Definition cdcm_up : SM () :=
  l ← gets wait_list;
  match l with
  | [] => modify (λ s : cdcm_sem, s <| count := u32 (count s + 1) |>)
  | _ => cdcm_up_waiter
  end.

Fixpoint times (n : nat) (m : SM ()) : SM () :=
  match n with O => mret () | S n => m;; times n m end.

(** The section of [ssignaln]. *)
Definition up_n (n : Z) : SM () := times (Z.to_nat n) cdcm_up.

(** [__sreset] *)
Definition reset : SM () :=
  c ← gets count;
  if c =? 0 then l ← gets wait_list; times (length l) cdcm_up_waiter
  else modify (λ s : cdcm_sem, s <| count := 0 |>).

(** [__scount] *)
Definition scount_section : SM Z :=
  c ← gets count;
  if c >? 0 then mret (s32 c)
  else l ← gets wait_list; mret (- Z.of_nat (length l)).

(** * Tasks

    Any number of tasks use one semaphore.  [tasks] are those that sleep in it,
    with what they wait for. *)
Record sys := mk_sys {
  sem : cdcm_sem;
  tasks : gmap nat (task_state * Z)
}.

(** One section: a task calls a down, tries, is woken up; an up, a reset, from a
    task or an interrupt. *)
Inductive event :=
  | Down (t : nat) (state : task_state) (timeout : Z) (pending : bool)
  | Try (t : nat)
  | Wake (t : nat) (timeout : Z) (pending should_stop : bool)
  | Up
  | UpN (n : Z)
  | Reset
  | Count.

(** [schedule_timeout] returns what is left of the time; without a limit,
    everything. *)
Definition left_of (timeout rest : Z) : Prop :=
  if decide (timeout = MAX_SCHEDULE_TIMEOUT) then rest = timeout else 0 <= rest <= timeout.

#[global] Instance left_of_dec timeout rest : Decision (left_of timeout rest).
Proof. unfold left_of. destruct (decide _); apply _. Defined.

(** When an event can happen. *)
Definition enabled (ev : event) (s : sys) : bool :=
  match ev with
  | Down t _ _ _ | Try t => bool_decide (tasks s !! t = None)
  | Wake t rest _ _ => match tasks s !! t with Some (_, timeout) => bool_decide (left_of timeout rest) | None => false end
  | _ => true
  end.

Section machine.
Variable checks_stop : bool.

(** What the event does: the result of the call that returns, if one does. *)
Definition run_event (ev : event) : M sys (option Z) :=
  let on {A} (m : SM A) : M sys A := zoom sem (λ c (s : sys), s <| sem := c |>) m in
  let sleep t w (r : option Z) : M sys () :=
    match r with
    | Some _ => modify (λ s : sys, s <| tasks := delete t (tasks s) |>)
    | None => modify (λ s : sys, s <| tasks := <[t := w]> (tasks s) |>)
    end in
  match ev with
  | Down t state timeout pending => r ← on (down t state timeout pending); sleep t (state, timeout) r;; mret r
  | Try t => r ← on cdcm_down_trylock; mret (Some r)
  | Wake t rest pending should_stop =>
    ts ← gets tasks;
    w ← lift_opt (ts !! t);
    r ← on (down_wakes checks_stop t w.1 rest pending should_stop); sleep t (w.1, rest) r;; mret r
  | Up => on cdcm_up;; mret None
  | UpN n => on (up_n n);; mret None
  | Reset => on reset;; mret None
  | Count => r ← on scount_section; mret (Some r)
  end.

(** A sequence of events, each enabled when it comes: the results, event by
    event.  The outer [None] is a sequence that cannot happen, or a stuck run;
    [run] tells them apart. *)
Inductive run : list event → sys → list (option Z) → sys → Prop :=
  | run_nil s : run [] s [] s
  | run_cons ev evs s r s' rs s'' :
      enabled ev s = true → run_event ev s = Some (r, s') → run evs s' rs s'' →
      run (ev :: evs) s (r :: rs) s''.
End machine.

Definition sys_init (val : Z) : sys := mk_sys (cdcm_sem_init val) ∅.
