(* ===== verification/CdcmSemProofs.v ===== *)
(** The invariant of the semaphore and what each section does to it and to the
    number of tokens in circulation. *)
From S2P Require Import Prelude CdcmSem.
From stdpp Require Import fin_maps.

Local Open Scope Z_scope.

(** * The invariant of a semaphore *)

(** A waiter is on the list exactly as long as it has not been granted the
    semaphore; and nobody waits while the count is positive. *)
Record sem_inv (c : cdcm_sem) : Prop := {
  si_count : 0 <= count c < 2 ^ 32;
  si_nodup : NoDup (wait_list c);
  si_list : ∀ t, t ∈ wait_list c ↔ waiters c !! t = Some false;
  si_excl : 0 < count c → wait_list c = []
}.

(** What the semaphore still has to give: the count, and the waiters that were
    granted it and have not returned yet. *)
Definition tokens (c : cdcm_sem) : Z :=
  count c + Z.of_nat (size (waiters c)) - Z.of_nat (length (wait_list c)).

Lemma filter_absent t (l : list nat) : t ∉ l → filter (λ u, u ≠ t) l = l.
Proof.
  induction l as [|u l IH]; [done|]. intros Hu. apply not_elem_of_cons in Hu as [Hu Hl].
  rewrite filter_cons, decide_True by done. f_equal. by apply IH.
Qed.

Lemma length_remove t (l : list nat) : NoDup l → t ∈ l → S (length (filter (λ u, u ≠ t) l)) = length l.
Proof.
  induction 1 as [|u l Hu Hnd IH]; intros Hin; [by apply elem_of_nil in Hin|].
  rewrite filter_cons. apply list.elem_of_cons in Hin as [->|Hin].
  - rewrite decide_False by tauto. simpl. by rewrite filter_absent.
  - rewrite decide_True by (intros ->; done). simpl. by rewrite IH.
Qed.

Lemma inv_init val : sem_inv (cdcm_sem_init val) ∧ tokens (cdcm_sem_init val) = u32 val.
Proof.
  split; [|unfold tokens; simpl; rewrite map_size_empty; simpl; lia]. split; simpl.
  - apply u32_range.
  - constructor.
  - intros t. rewrite lookup_empty. split; [intros Ht; by apply elem_of_nil in Ht|done].
  - done.
Qed.

(** * Sections *)

Lemma size_insert_new (m : gmap nat bool) t b : m !! t = None → size (<[t := b]> m) = S (size m).
Proof. apply map_size_insert_None. Qed.

(** The head of the loop: the task sleeps, or takes its waiter away. *)
Lemma down_loop_ok t state timeout pending c :
  sem_inv c → waiters c !! t = Some false →
  ∃ r c', down_loop t state timeout pending c = Some (r, c') ∧ sem_inv c' ∧
    match r with
    | None => c' = c ∧ 0 < timeout ∧ signal_pending_state state pending = false
    | Some v => v = (if signal_pending_state state pending then - EINTR else - ETIME) ∧
        waiters c' = delete t (waiters c) ∧ wait_list c' = filter (λ u, u ≠ t) (wait_list c) ∧
        count c' = count c ∧ tokens c' = tokens c
    end.
Proof.
  intros Hi Hw.
  assert (Hin : t ∈ wait_list c) by by apply (si_list _ Hi).
  set (c' := mk_cdcm_sem (count c) (filter (λ u, u ≠ t) (wait_list c)) (delete t (waiters c))).
  assert (Hdel : ∀ v, ((list_del t;; end_waiter t;; mret (Some v)) : SM (option Z)) c = Some (Some v, c')).
  { intros v. unfold list_del, end_waiter, gets, modify, mbind, M_bind. destruct c. simpl in *.
    by rewrite bool_decide_true. }
  assert (Hi' : sem_inv c').
  { destruct Hi as [Hc Hn Hl Hx]. split; simpl.
    - done.
    - by apply NoDup_filter.
    - intros u. rewrite list_elem_of_filter. destruct (decide (u = t)) as [->|Hu].
      + rewrite lookup_delete_eq. split; [tauto|done].
      + rewrite lookup_delete_ne by done. rewrite Hl. tauto.
    - intros Hp. rewrite (Hx Hp). done. }
  assert (Ht : tokens c' = tokens c).
  { unfold tokens. simpl. rewrite map_size_delete, Hw. pose proof (length_remove _ _ (si_nodup _ Hi) Hin).
    assert (size (waiters c) ≠ 0%nat) by (rewrite map_size_ne_0_lookup; by eauto). lia. }
  unfold down_loop. destruct (signal_pending_state state pending) eqn:Es.
  - rewrite Hdel. exists (Some (- EINTR)), c'. by repeat split; try apply Hi'.
  - destruct (Z.leb_spec timeout 0).
    + rewrite Hdel. exists (Some (- ETIME)), c'. by repeat split; try apply Hi'.
    + exists None, c. by repeat split; try apply Hi.
Qed.

Lemma down_ok t state timeout pending c :
  sem_inv c → waiters c !! t = None →
  ∃ r c', down t state timeout pending c = Some (r, c') ∧ sem_inv c' ∧
    match r with
    | None => c' = c <| wait_list := wait_list c ++ [t] |> <| waiters := <[t := false]> (waiters c) |> ∧
        count c = 0 ∧ 0 < timeout ∧ tokens c' = tokens c
    | Some v => waiters c' = waiters c ∧ wait_list c' = wait_list c ∧ count c' <= count c ∧
        (v = 0 ∧ 0 < count c ∧ tokens c' = tokens c - 1 ∨ v < 0 ∧ count c = 0 ∧ tokens c' = tokens c)
    end.
Proof.
  intros Hi Hw. unfold down. unfold gets at 1, mbind, M_bind. cbv beta iota.
  pose proof (si_count _ Hi) as Hc. destruct (Z.gtb_spec (count c) 0) as [Hp|Hz].
  - set (c' := c <| count := u32 (count c - 1) |>).
    assert (Hc' : count c' = count c - 1) by (unfold c'; destruct c; simpl in *; apply u32_small; unfold is_u32; lia).
    assert (Hw' : waiters c' = waiters c ∧ wait_list c' = wait_list c) by (unfold c'; by destruct c).
    destruct Hw' as [Hww Hwl].
    exists (Some 0), c'. split; [done|]. split.
    + destruct Hi as [? ? ? Hx]. split; rewrite ?Hc', ?Hww, ?Hwl; try done; [lia|]. intros _. by apply Hx.
    + split; [done|]. split; [done|]. split; [lia|]. left. split; [done|]. split; [done|].
      unfold tokens. rewrite Hc', Hww, Hwl. lia.
  - assert (H0 : count c = 0) by lia.
    set (c1 := c <| wait_list := wait_list c ++ [t] |> <| waiters := <[t := false]> (waiters c) |>).
    assert (Hnt : t ∉ wait_list c) by (intros Ht; apply (si_list _ Hi) in Ht; congruence).
    assert (Hi1 : sem_inv c1).
    { destruct Hi as [? Hn Hl Hx]. destruct c as [n l w]. simpl in *. split; simpl.
      - done.
      - apply NoDup_app. split; [done|]. split; [|apply NoDup_singleton].
        intros u Hu Hu'. apply list_elem_of_singleton in Hu' as ->. done.
      - intros u. rewrite elem_of_app, list_elem_of_singleton. destruct (decide (u = t)) as [->|Hu].
        + rewrite lookup_insert_eq. tauto.
        + rewrite lookup_insert_ne by done. rewrite Hl. tauto.
      - lia. }
    assert (Hw1 : waiters c1 !! t = Some false) by (unfold c1; destruct c; simpl; apply lookup_insert_eq).
    assert (Ht1 : tokens c1 = tokens c).
    { unfold tokens, c1. destruct c. simpl in *. rewrite size_insert_new, length_app by done. simpl. lia. }
    destruct (down_loop_ok t state timeout pending c1 Hi1 Hw1) as (r & c' & E & Hi' & Hr).
    exists r, c'. split; [exact E|]. split; [done|]. destruct r as [v|].
    + destruct Hr as (-> & Hw' & Hl' & Hc' & Ht'). unfold c1 in Hw', Hl', Hc'. destruct c as [n l w]. simpl in *.
      split; [by rewrite Hw', delete_insert_id|]. split; [|split; [lia|right; split; [by destruct (signal_pending_state _ _)|]; split; [done|congruence]]].
      rewrite Hl', filter_app, filter_cons, decide_False, filter_nil, app_nil_r by tauto. by apply filter_absent.
    + destruct Hr as (-> & ? & _). by repeat split.
Qed.

(** A task comes back from a sleep (without a look at [kthread_should_stop]). *)
Lemma wake_ok t state timeout pending stop b c :
  sem_inv c → waiters c !! t = Some b →
  ∃ r c', down_wakes false t state timeout pending stop c = Some (r, c') ∧ sem_inv c' ∧ count c' = count c ∧
    match r with
    | None => c' = c ∧ b = false ∧ 0 < timeout
    | Some v => waiters c' = delete t (waiters c) ∧ wait_list c' = filter (λ u, u ≠ t) (wait_list c) ∧
        (v = 0 ∧ b = true ∧ tokens c' = tokens c - 1 ∨ v < 0 ∧ b = false ∧ tokens c' = tokens c)
    end.
Proof.
  intros Hi Hw. unfold down_wakes. unfold gets at 1, mbind at 1, M_bind at 1. cbv beta iota. rewrite Hw.
  unfold lift_opt, mbind at 1, M_bind at 1. cbn [fmap option_fmap option_map]. rewrite andb_false_l, orb_false_r.
  destruct b.
  - set (c' := c <| waiters := delete t (waiters c) |>). exists (Some 0), c'.
    assert (Hnt : t ∉ wait_list c) by (rewrite (si_list _ Hi); congruence).
    assert (Hs : size (waiters c) ≠ 0%nat) by (rewrite map_size_ne_0_lookup; by eauto).
    assert (Hl : wait_list c = filter (λ u, u ≠ t) (wait_list c)).
    { symmetry. by apply filter_absent. }
    unfold c'. destruct c as [n l w]. simpl in *. split; [done|]. split; [|split; [done|]].
    + destruct Hi as [? ? Hli ?]. split; simpl in *; try done.
      intros u. destruct (decide (u = t)) as [->|Hu].
      * rewrite lookup_delete_eq. by split.
      * by rewrite lookup_delete_ne.
    + split; [done|]. split; [done|]. left. split; [done|]. split; [done|].
      unfold tokens. simpl. rewrite map_size_delete, Hw. simpl. lia.
  - destruct (down_loop_ok t state timeout pending c Hi Hw) as (r & c' & E & Hi' & Hr).
    exists r, c'. split; [exact E|]. split; [done|]. destruct r as [v|].
    + destruct Hr as (-> & Hw' & Hl' & Hc' & Ht'). split; [done|]. split; [done|]. split; [done|]. right.
      split; [by destruct (signal_pending_state _ _)|done].
    + destruct Hr as (-> & ? & _). by repeat split.
Qed.

Lemma up_waiter_ok c t rest :
  sem_inv c → wait_list c = t :: rest →
  let c' := c <| wait_list := rest |> <| waiters := <[t := true]> (waiters c) |> in
  cdcm_up_waiter c = Some ((), c') ∧ sem_inv c' ∧ tokens c' = tokens c + 1.
Proof.
  intros Hi Hl. cbv zeta. assert (Hw : waiters c !! t = Some false) by (apply (si_list _ Hi); rewrite Hl; set_solver).
  destruct Hi as [Hc Hn Hli Hx]. destruct c as [n l w]. simpl in *. subst l.
  split; [|split].
  - unfold cdcm_up_waiter, gets, modify, lift_opt, mbind, M_bind. simpl. by rewrite Hw.
  - apply list.NoDup_cons in Hn as [Hnt Hn]. split; simpl; try done.
    + intros u. destruct (decide (u = t)) as [->|Hu].
      * rewrite lookup_insert_eq. by split.
      * rewrite lookup_insert_ne by done. rewrite <- Hli, list.elem_of_cons. tauto.
    + intros Hp. specialize (Hx Hp). discriminate Hx.
  - unfold tokens. simpl. rewrite map_size_insert, Hw. simpl. lia.
Qed.

(** An up: one token more; the first waiter gets it. *)
Lemma up_ok c :
  sem_inv c → ∃ c', cdcm_up c = Some ((), c') ∧ sem_inv c' ∧
    wait_list c' = tail (wait_list c) ∧ dom (waiters c') = dom (waiters c) ∧
    (∀ t, waiters c !! t = Some true → waiters c' !! t = Some true) ∧
    (∀ t, head (wait_list c) = Some t → waiters c' !! t = Some true) ∧
    (count c + 1 < 2 ^ 32 → tokens c' = tokens c + 1 ∧ count c' <= count c + 1).
Proof.
  intros Hi. unfold cdcm_up. unfold gets at 1, mbind at 1, M_bind at 1. cbv beta iota.
  destruct (wait_list c) as [|t rest] eqn:Hl.
  - set (c' := c <| count := u32 (count c + 1) |>). exists c'. unfold c'. destruct Hi as [Hc Hn Hli Hx].
    destruct c as [n l w]. simpl in *. subst l. split; [done|]. split; [|split; [done|]; split; [done|]; split; [done|]; split; [done|]].
    + split; simpl; try done. apply u32_range.
    + intros Hb. unfold tokens. simpl. rewrite u32_small by (unfold is_u32; lia). lia.
  - destruct (up_waiter_ok c t rest Hi Hl) as (E & Hi' & Ht). eexists. split; [exact E|]. split; [done|].
    assert (Hw : waiters c !! t = Some false) by (apply (si_list _ Hi); rewrite Hl; set_solver).
    clear Hi' E. destruct c as [n l w]. simpl in *. split; [done|]. split; [|split; [|split]].
    + rewrite dom_insert_L. apply elem_of_dom_2 in Hw. set_solver.
    + intros u Hu. rewrite lookup_insert_ne; [done|]. congruence.
    + intros u [= <-]. apply lookup_insert_eq.
    + intros _. split; [exact Ht|lia].
Qed.

(** Ups keep whoever has been granted, and reach the first waiters in order. *)
Lemma ups_ok n : ∀ c, sem_inv c →
  ∃ c', times n cdcm_up c = Some ((), c') ∧ sem_inv c' ∧
    wait_list c' = drop n (wait_list c) ∧ dom (waiters c') = dom (waiters c) ∧
    (∀ t, waiters c !! t = Some true → waiters c' !! t = Some true) ∧
    (∀ i t, (i < n)%nat → wait_list c !! i = Some t → waiters c' !! t = Some true) ∧
    (count c + Z.of_nat n < 2 ^ 32 → tokens c' = tokens c + Z.of_nat n ∧ count c' <= count c + Z.of_nat n).
Proof.
  induction n as [|n IH]; intros c Hi.
  { exists c. rewrite drop_0. split; [done|]. repeat split; try done; try apply Hi; lia. }
  destruct (up_ok c Hi) as (c1 & E1 & Hi1 & Hl1 & Hd1 & Hk1 & Hh1 & Ht1).
  destruct (IH c1 Hi1) as (c2 & E2 & Hi2 & Hl2 & Hd2 & Hk2 & Hh2 & Ht2).
  exists c2. cbn [times]. unfold mbind, M_bind. rewrite E1. split; [exact E2|]. split; [done|].
  split; [rewrite Hl2, Hl1; by destruct (wait_list c), n|]. split; [congruence|]. split; [auto|]. split.
  - intros [|i] t Hn Hit.
    + apply Hk2, Hh1. by destruct (wait_list c).
    + apply (Hh2 i); [lia|]. rewrite Hl1. by destruct (wait_list c).
  - intros Hb. destruct Ht1 as [T1 C1]; [lia|]. destruct Ht2 as [T2 C2]; [lia|]. split; lia.
Qed.

(** A reset wakes every waiter, or takes the count back to zero. *)
Lemma wake_all_ok l : ∀ c, sem_inv c → wait_list c = l →
  ∃ c', times (length l) cdcm_up_waiter c = Some ((), c') ∧ sem_inv c' ∧ wait_list c' = [] ∧
    dom (waiters c') = dom (waiters c) ∧ count c' = count c ∧
    (∀ t b, waiters c !! t = Some b → waiters c' !! t = Some true).
Proof.
  induction l as [|t l IH]; intros c Hi Hl.
  - exists c. split; [done|]. split; [done|]. split; [done|]. split; [done|]. split; [done|]. intros t [] Ht; [done|].
    apply (si_list _ Hi) in Ht. rewrite Hl in Ht. by apply elem_of_nil in Ht.
  - destruct (up_waiter_ok c t l Hi Hl) as (E & Hi1 & _).
    assert (Hw : waiters c !! t = Some false) by (apply (si_list _ Hi); rewrite Hl; set_solver).
    destruct (IH _ Hi1) as (c2 & E2 & Hi2 & Hl2 & Hd2 & Hc2 & Hk2); [by destruct c|].
    exists c2. cbn [length times]. unfold mbind, M_bind. rewrite E. split; [exact E2|]. split; [done|]. split; [done|].
    clear E E2 Hi1. destruct c as [n w0 w]. simpl in *. split; [|split; [done|]].
    + rewrite Hd2, dom_insert_L. apply elem_of_dom_2 in Hw. set_solver.
    + intros u b Hu. destruct (decide (u = t)) as [->|Hne].
      * apply (Hk2 t true). apply lookup_insert_eq.
      * apply (Hk2 u b). by rewrite lookup_insert_ne.
Qed.

Lemma reset_ok c : sem_inv c →
  ∃ c', reset c = Some ((), c') ∧ sem_inv c' ∧ wait_list c' = [] ∧ dom (waiters c') = dom (waiters c) ∧
    count c' = 0 ∧ (∀ t b, waiters c !! t = Some b → waiters c' !! t = Some true).
Proof.
  intros Hi. unfold reset. unfold gets, mbind, M_bind. cbv beta iota.
  destruct (Z.eqb_spec (count c) 0) as [H0|H0].
  - destruct (wake_all_ok _ c Hi eq_refl) as (c' & E & ? & ? & ? & ? & ?).
    exists c'. split; [exact E|]. split; [done|]. split; [done|]. split; [done|]. split; [congruence|done].
  - pose proof (si_excl _ Hi) as Hx. pose proof (si_count _ Hi) as Hc. specialize (Hx ltac:(lia)).
    exists (c <| count := 0 |>). pose proof (si_list _ Hi) as Hli. rewrite Hx in Hli.
    destruct c as [n l w]. simpl in *. subst l. split; [by destruct (Z.eqb_spec n 0)|].
    split; [split; simpl; [lia|constructor|exact Hli|done]|].
    split; [done|]. split; [done|]. split; [done|]. intros t [] Ht; [done|].
    apply Hli in Ht. by apply elem_of_nil in Ht.
Qed.

Lemma try_ok c : sem_inv c →
  ∃ r c', cdcm_down_trylock c = Some (r, c') ∧ sem_inv c' ∧ waiters c' = waiters c ∧ wait_list c' = wait_list c ∧
    count c' <= count c ∧
    (r = 0 ∧ 0 < count c ∧ tokens c' = tokens c - 1 ∨ r = 1 ∧ c' = c ∧ (count c = 0 ∨ 2 ^ 31 < count c)).
Proof.
  intros Hi. pose proof (si_count _ Hi) as Hc. unfold cdcm_down_trylock.
  unfold gets at 1, mbind at 1, M_bind at 1. cbv beta iota.
  destruct (decide (1 <= count c <= 2 ^ 31)) as [Hp|Hp].
  - assert (Hs : s32 (count c - 1) = count c - 1) by (apply s32_small; lia). rewrite Hs.
    rewrite (proj2 (Z.geb_le _ _)), (proj2 (Z.ltb_ge _ _)) by lia.
    exists 0, (c <| count := count c - 1 |>). split.
    { unfold modify, mbind, M_bind, mret, M_ret. rewrite u32_small by (unfold is_u32; lia). done. }
    destruct Hi as [? Hn Hli Hx]. destruct c as [n l w]. simpl in *.
    split; [split; simpl; try done; [lia|intros _; apply Hx; lia]|]. split; [done|]. split; [done|]. split; [lia|].
    left. split; [done|]. split; [lia|]. unfold tokens. simpl. lia.
  - assert (Hs : s32 (count c - 1) < 0).
    { unfold s32. destruct (decide (count c = 0)) as [->|]; [done|].
      rewrite <- (Z.mod_unique (count c - 1 + 2 ^ 31) (2 ^ 32) 1 (count c - 1 + 2 ^ 31 - 2 ^ 32)); lia. }
    rewrite (proj2 (Z.ltb_lt _ _) Hs).
    assert (Hg : (s32 (count c - 1) >=? 0) = false) by (rewrite Z.geb_leb; apply Z.leb_gt; lia). rewrite Hg.
    exists 1, c. split; [done|]. split; [done|]. split; [done|]. split; [done|]. split; [lia|]. right.
    split; [done|]. split; [done|]. lia.
Qed.
