(* ===== verification/CdcmSemSpec.v ===== *)
(** What the semaphore of the LynxOS emulation promises to any number of tasks:
    it never leaves its invariant, hands out no more than it was given, forgets
    no waiter; and how the variant of [src/cdcm/cdcmSem.c] breaks this. *)
From S2P Require Import Prelude CdcmSem CdcmSemProofs.
From stdpp Require Import fin_maps.

Local Open Scope Z_scope.

(** * The invariant of the system *)

(** The waiters are those of the sleeping tasks. *)
Record sys_ok (s : sys) : Prop := {
  so_sem : sem_inv (sem s);
  so_tasks : dom (waiters (sem s)) = dom (tasks s)
}.

(** The ups of an event, and whether its result is a successful down. *)
Definition ups (ev : event) : Z := match ev with Up => 1 | UpN n => Z.max 0 n | _ => 0 end.
Definition acquired (ev : event) (r : option Z) : Z :=
  match ev, r with
  | Down _ _ _ _, Some 0 | Try _, Some 0 | Wake _ _ _ _, Some 0 => 1
  | _, _ => 0
  end.
Definition wakes (t : nat) (ev : event) : Prop := match ev with Wake u _ _ _ => u = t | _ => False end.

Definition granted_to (t : nat) (s : sys) : Prop := waiters (sem s) !! t = Some true.
Definition waits_at (i : nat) (t : nat) (s : sys) : Prop := wait_list (sem s) !! i = Some t.

(** What an event does to the invariant, to the tokens, and to the other tasks
    in the queue. *)
Record effect (ev : event) (r : option Z) (s s' : sys) : Prop := {
  ef_ok : sys_ok s';
  ef_tokens : ev ≠ Reset → count (sem s) + ups ev < 2 ^ 32 →
    tokens (sem s') + acquired ev r = tokens (sem s) + ups ev ∧ count (sem s') <= count (sem s) + ups ev;
  ef_granted : ∀ t, ¬ wakes t ev → granted_to t s → granted_to t s';
  ef_queue : ∀ t i, ¬ wakes t ev → waits_at i t s →
    granted_to t s' ∨ ∃ j, waits_at j t s' ∧ Z.of_nat j <= Z.of_nat i - ups ev
}.

Lemma filter_position t u i (l : list nat) : l !! i = Some t → t ≠ u →
  ∃ j, filter (λ v, v ≠ u) l !! j = Some t ∧ (j <= i)%nat.
Proof.
  revert i. induction l as [|v l IH]; intros [|i] Hi Hne; try done.
  - injection Hi as ->. rewrite filter_cons, decide_True by done. by exists 0%nat.
  - destruct (IH i Hi Hne) as (j & Hj & Hle). rewrite filter_cons. case_decide.
    + exists (S j). split; [done|lia].
    + exists j. split; [done|lia].
Qed.

Lemma zoom_run {A} (m : SM A) (s : sys) a c' :
  m (sem s) = Some (a, c') →
  zoom sem (λ c (s : sys), s <| sem := c |>) m s = Some (a, s <| sem := c' |>).
Proof. intros E. unfold zoom. by rewrite E. Qed.

(** Events that touch the semaphore only. *)
Lemma simple_effect ev r s c' :
  (∀ t, ¬ wakes t ev) → sem_inv c' → dom (waiters c') = dom (tasks s) →
  (ev ≠ Reset → count (sem s) + ups ev < 2 ^ 32 →
    tokens c' + acquired ev r = tokens (sem s) + ups ev ∧ count c' <= count (sem s) + ups ev) →
  (∀ t, waiters (sem s) !! t = Some true → waiters c' !! t = Some true) →
  (∀ t i, wait_list (sem s) !! i = Some t →
    waiters c' !! t = Some true ∨ ∃ j, wait_list c' !! j = Some t ∧ Z.of_nat j <= Z.of_nat i - ups ev) →
  effect ev r s (s <| sem := c' |>).
Proof. intros Hw Hi Hd Ht Hg Hq. destruct s. simpl in *. split; simpl; [by split|done| |]; unfold granted_to, waits_at; simpl; intros t; [|intros i]; intros _; auto. Qed.

Lemma same_queue (c c' : cdcm_sem) n : wait_list c' = wait_list c → n = 0 → ∀ t i, wait_list c !! i = Some t →
  waiters c' !! t = Some true ∨ ∃ j, wait_list c' !! j = Some t ∧ Z.of_nat j <= Z.of_nat i - n.
Proof. intros -> -> t i Hi. right. exists i. split; [done|lia]. Qed.

Lemma down_effect t state timeout pending s :
  sys_ok s → enabled (Down t state timeout pending) s = true →
  ∃ r s', run_event false (Down t state timeout pending) s = Some (r, s') ∧ effect (Down t state timeout pending) r s s'.
Proof.
  intros [Hi Hd] Hen. apply bool_decide_eq_true in Hen.
  assert (Hw : waiters (sem s) !! t = None).
  { apply not_elem_of_dom. rewrite Hd. by apply not_elem_of_dom. }
  destruct (down_ok t state timeout pending (sem s) Hi Hw) as (r & c' & E & Hi' & Hr).
  pose proof (zoom_run _ _ _ _ E) as Ez. exists r.
  exists (s <| sem := c' |> <| tasks := match r with Some _ => delete t (tasks s) | None => <[t := (state, timeout)]> (tasks s) end |>).
  split.
  { cbn [run_event]. unfold mbind, M_bind. rewrite Ez. by destruct r, s. }
  destruct r as [v|].
  - destruct Hr as (Hw' & Hl' & Hc' & Ht'). destruct s as [c ts]. simpl in *.
    rewrite delete_id by done. split; simpl; unfold granted_to, waits_at; simpl.
    + split; simpl; [done|by rewrite Hw'].
    + intros _ _. destruct Ht' as [(-> & ? & ?)|(? & ? & ?)]; [simpl; lia|]. destruct v; simpl; lia.
    + intros u _. by rewrite Hw'.
    + intros u i _ Hu. right. exists i. rewrite Hl'. split; [done|lia].
  - destruct Hr as (-> & Hz & Hp & Ht'). destruct s as [[n l w] ts]. simpl in *.
    split; simpl; unfold granted_to, waits_at; simpl.
    + split; simpl; [done|]. by rewrite !dom_insert_L, Hd.
    + intros _ _. lia.
    + intros u _ Hu. rewrite lookup_insert_ne; [done|]. congruence.
    + intros u i _ Hu. right. exists i. split; [by apply lookup_app_l_Some|lia].
Qed.

Lemma wake_effect t rest pending stop s :
  sys_ok s → enabled (Wake t rest pending stop) s = true →
  ∃ r s', run_event false (Wake t rest pending stop) s = Some (r, s') ∧ effect (Wake t rest pending stop) r s s' ∧
    (granted_to t s → r = Some 0 ∧ tasks s' !! t = None).
Proof.
  intros [Hi Hd] Hen. cbn [enabled] in Hen. destruct (tasks s !! t) as [[state timeout]|] eqn:Ht; [|done].
  assert (Hw : ∃ b, waiters (sem s) !! t = Some b).
  { apply elem_of_dom. rewrite Hd. apply elem_of_dom. by eexists. }
  destruct Hw as [b Hw].
  destruct (wake_ok t state rest pending stop b (sem s) Hi Hw) as (r & c' & E & Hi' & Hc' & Hr).
  pose proof (zoom_run _ _ _ _ E) as Ez. exists r.
  exists (s <| sem := c' |> <| tasks := match r with Some _ => delete t (tasks s) | None => <[t := (state, rest)]> (tasks s) end |>).
  split.
  { cbn [run_event]. unfold gets at 1, lift_opt at 1, mbind, M_bind. rewrite Ht. cbn [fmap option_fmap option_map fst].
    rewrite Ez. by destruct r, s. }
  destruct r as [v|].
  - destruct Hr as (Hw' & Hl' & Ht'). destruct s as [c ts]. simpl in *.
    split; [split; simpl; unfold granted_to, waits_at; simpl|].
    + split; simpl; [done|by rewrite Hw', !dom_delete_L, Hd].
    + intros _ _. destruct Ht' as [(-> & ? & ?)|(? & ? & ?)]; [simpl; lia|]. destruct v; simpl; lia.
    + intros u Hu. rewrite Hw', lookup_delete_ne by congruence. done.
    + intros u i Hu Hiu. right. rewrite Hl'. destruct (filter_position u t i _ Hiu) as (j & Hj & Hle); [congruence|].
      exists j. split; [done|lia].
    + unfold granted_to. simpl. rewrite Hw, lookup_delete_eq. intros [= ->]. destruct Ht' as [(-> & _)|(_ & ? & _)]; done.
  - destruct Hr as (-> & -> & Hp). destruct s as [c ts]. simpl in *.
    split; [split; simpl; unfold granted_to, waits_at; simpl|].
    + split; simpl; [done|]. rewrite dom_insert_L, Hd. apply elem_of_dom_2 in Ht. set_solver.
    + intros _ _. lia.
    + done.
    + intros u i _ Hu. right. exists i. split; [done|lia].
    + unfold granted_to. simpl. by rewrite Hw.
Qed.

Lemma event_effect ev s :
  sys_ok s → enabled ev s = true → ∃ r s', run_event false ev s = Some (r, s') ∧ effect ev r s s'.
Proof.
  intros Hok Hen. destruct ev as [t state timeout pending|t|t rest pending stop| |n| |].
  - by apply down_effect.
  - destruct Hok as [Hi Hd]. destruct (try_ok (sem s) Hi) as (r & c' & E & Hi' & Hw' & Hl' & Hc' & Hr).
    exists (Some r), (s <| sem := c' |>). split; [cbn [run_event]; unfold mbind, M_bind; by rewrite (zoom_run _ _ _ _ E)|].
    apply simple_effect; [by intros ? ?|done|by rewrite Hw'| |by rewrite Hw'|by apply same_queue].
    intros _ _. destruct Hr as [(-> & _ & ->)|(-> & -> & _)]; cbn [acquired ups]; lia.
  - destruct (wake_effect t rest pending stop s Hok Hen) as (r & s' & E & He & _). eauto.
  - destruct Hok as [Hi Hd]. destruct (up_ok (sem s) Hi) as (c' & E & Hi' & Hl' & Hd' & Hk & Hh & Ht).
    exists None, (s <| sem := c' |>). split; [cbn [run_event]; unfold mbind, M_bind; by rewrite (zoom_run _ _ _ _ E)|].
    apply simple_effect; [by intros ? ?|done|congruence| |done|].
    + intros _ Hb. cbn [ups acquired] in *. destruct Ht as [-> ?]; [done|lia].
    + intros t i Hti. destruct i as [|i].
      * left. apply Hh. by destruct (wait_list (sem s)).
      * right. exists i. rewrite Hl'. split; [by destruct (wait_list (sem s))|cbn [ups]; lia].
  - destruct Hok as [Hi Hd]. destruct (ups_ok (Z.to_nat n) (sem s) Hi) as (c' & E & Hi' & Hl' & Hd' & Hk & Hh & Ht).
    exists None, (s <| sem := c' |>). split; [cbn [run_event]; unfold up_n, mbind, M_bind; by rewrite (zoom_run _ _ _ _ E)|].
    apply simple_effect; [by intros ? ?|done|congruence| |done|].
    + intros _ Hb. cbn [ups acquired] in *. destruct Ht as [-> ?]; lia.
    + intros t i Hti. destruct (decide (i < Z.to_nat n)%nat) as [Hlt|Hge]; [left; by eapply Hh|].
      right. exists (i - Z.to_nat n)%nat. rewrite Hl', lookup_drop. cbn [ups].
      replace (Z.to_nat n + (i - Z.to_nat n))%nat with i by lia. split; [done|lia].
  - destruct Hok as [Hi Hd]. destruct (reset_ok (sem s) Hi) as (c' & E & Hi' & Hl' & Hd' & Hc' & Hk).
    exists None, (s <| sem := c' |>). split; [cbn [run_event]; unfold mbind, M_bind; by rewrite (zoom_run _ _ _ _ E)|].
    apply simple_effect; [by intros ? ?|done|congruence|done|by eauto|].
    intros t i Hti. left. apply (Hk t false). apply (si_list _ Hi). by eapply list_elem_of_lookup_2.
  - destruct Hok as [Hi Hd].
    assert (E : ∃ r, scount_section (sem s) = Some (r, sem s)).
    { unfold scount_section, gets, mbind, M_bind. destruct (count (sem s) >? 0); by eexists. }
    destruct E as [r E]. exists (Some r), (s <| sem := sem s |>).
    split; [cbn [run_event]; unfold mbind, M_bind; by rewrite (zoom_run _ _ _ _ E)|].
    apply simple_effect; [by intros ? ?|done|done| |done|by apply same_queue]. intros _ _. cbn [acquired ups]. lia.
Qed.

(** * Sequences of events *)

Definition total_ups (evs : list event) : Z := zsum ups evs.

(** The downs that succeeded. *)
Fixpoint total_acquired (evs : list event) (rs : list (option Z)) : Z :=
  match evs, rs with
  | ev :: evs, r :: rs => acquired ev r + total_acquired evs rs
  | _, _ => 0
  end.

Lemma sys_init_ok val : sys_ok (sys_init val).
Proof. split; [apply inv_init|]. simpl. by rewrite !dom_empty_L. Qed.

Lemma run_effect ev s r s' :
  sys_ok s → enabled ev s = true → run_event false ev s = Some (r, s') → effect ev r s s'.
Proof. intros Hok Hen E. destruct (event_effect ev s Hok Hen) as (r1 & s1 & E1 & He). congruence. Qed.

Lemma run_ok evs s rs s' : run false evs s rs s' → sys_ok s → sys_ok s'.
Proof. induction 1 as [s|ev evs s r s' rs s'' Hen E _ IH]; intros Hok; [done|]. apply IH. by destruct (run_effect _ _ _ _ Hok Hen E). Qed.

Lemma ups_nonneg ev : 0 <= ups ev.
Proof. destruct ev; simpl; lia. Qed.

Lemma total_ups_nonneg evs : 0 <= total_ups evs.
Proof. unfold total_ups. induction evs as [|ev evs IH]; [done|]. rewrite zsum_cons. pose proof (ups_nonneg ev). lia. Qed.

Lemma run_tokens evs s rs s' :
  run false evs s rs s' → sys_ok s → Reset ∉ evs → count (sem s) + total_ups evs < 2 ^ 32 →
  tokens (sem s') + total_acquired evs rs = tokens (sem s) + total_ups evs.
Proof.
  induction 1 as [s|ev evs s r s' rs s'' Hen E _ IH]; intros Hok Hr Hb; [simpl; unfold total_ups; simpl; lia|].
  unfold total_ups in *. rewrite zsum_cons in *. cbn [total_acquired].
  apply not_elem_of_cons in Hr as [Hr1 Hr2]. pose proof (total_ups_nonneg evs) as Hn. unfold total_ups in Hn.
  destruct (run_effect _ _ _ _ Hok Hen E) as [Hok' Ht _ _].
  destruct Ht as [Ht Hc]; [congruence|lia|]. specialize (IH Hok' Hr2 ltac:(lia)). lia.
Qed.

(** The tokens are the count and the waiters that were granted one. *)
Definition granted (c : cdcm_sem) : nat := size (filter (λ p, p.2 = true) (waiters c)).

Lemma tokens_granted c : sem_inv c → tokens c = count c + Z.of_nat (granted c).
Proof.
  intros Hi. unfold tokens, granted.
  assert (Hs : size (waiters c) = (size (filter (λ p : nat * bool, p.2 = true) (waiters c)) + length (wait_list c))%nat).
  { rewrite <- (size_dom (waiters c)), <- (size_dom (filter _ _)).
    assert (Hd : dom (waiters c) = dom (filter (λ p : nat * bool, p.2 = true) (waiters c)) ∪ list_to_set (wait_list c)).
    { apply set_eq. intros t. rewrite elem_of_union, elem_of_list_to_set, (si_list _ Hi), !elem_of_dom. split.
      - intros [[] Hb]; [left; exists true; by rewrite map_lookup_filter_Some|by right].
      - intros [[b Hb]|Hb]; [apply map_lookup_filter_Some in Hb as [Hb _]|]; eauto. }
    rewrite Hd, size_union.
    - by rewrite size_list_to_set by apply Hi.
    - intros t Ht Hl. apply elem_of_dom in Ht as [b Hb]. apply map_lookup_filter_Some in Hb as [Hb Hbt].
      rewrite elem_of_list_to_set, (si_list _ Hi) in Hl. simpl in Hbt. congruence. }
  rewrite Hs. lia.
Qed.

(** C22 Safety of the semaphore.  Whatever tasks and interrupts do with it, in
    whatever order, from initialisation on: the waiters on the list are
    exactly those that were not granted the semaphore, each once, nobody waits
    while the count is positive, only sleeping tasks have a waiter; and no
    section gets stuck, in particular none touches a waiter that is gone. *)
Theorem semaphore_safe (val : Z) (evs : list event) (rs : list (option Z)) (s : sys) :
  run false evs (sys_init val) rs s →
  sys_ok s ∧ ∀ ev, enabled ev s = true → ∃ r s', run_event false ev s = Some (r, s').
Proof.
  intros Hrun. assert (Hok : sys_ok s) by by eapply run_ok, sys_init_ok. split; [done|].
  intros ev Hen. destruct (event_effect ev s Hok Hen) as (r & s' & E & _). eauto.
Qed.

(** C21 Accounting.  Without a reset, and as long as the unsigned count cannot
    overflow: the downs that returned 0, with what the semaphore still has to give
    (its count and the grants that were not picked up yet), are exactly the
    initial value and the ups.  So never more tasks hold it than it admits. *)
Theorem semaphore_tokens (val : Z) (evs : list event) (rs : list (option Z)) (s : sys) :
  run false evs (sys_init val) rs s → Reset ∉ evs → u32 val + total_ups evs < 2 ^ 32 →
  total_acquired evs rs + (count (sem s) + Z.of_nat (granted (sem s))) = u32 val + total_ups evs ∧
  0 <= count (sem s).
Proof.
  intros Hrun Hr Hb. pose proof (run_tokens _ _ _ _ Hrun (sys_init_ok val) Hr Hb) as Ht.
  pose proof (run_ok _ _ _ _ Hrun (sys_init_ok val)) as [Hi _].
  rewrite (tokens_granted _ Hi) in Ht. change (tokens (sem (sys_init val))) with (tokens (cdcm_sem_init val)) in Ht.
  rewrite (proj2 (inv_init val)) in Ht. pose proof (si_count _ Hi). lia.
Qed.

Lemma run_queue t : ∀ evs s rs s', run false evs s rs s' → sys_ok s → Forall (λ ev, ¬ wakes t ev) evs →
  (granted_to t s → granted_to t s') ∧
  ∀ i, waits_at i t s → granted_to t s' ∨ ∃ j, waits_at j t s' ∧ Z.of_nat j <= Z.of_nat i - total_ups evs.
Proof.
  induction 1 as [s|ev evs s r s' rs s'' Hen E _ IH]; intros Hok Hw.
  { split; [done|]. intros i Hi. right. exists i. split; [done|]. unfold total_ups. simpl. lia. }
  apply Forall_cons in Hw as [Hw1 Hw2]. destruct (run_effect _ _ _ _ Hok Hen E) as [Hok' _ Hg Hq].
  destruct (IH Hok' Hw2) as [IHg IHq]. split; [auto|].
  intros i Hi. destruct (Hq t i Hw1 Hi) as [Hgr|(j & Hj & Hle)]; [left; auto|].
  destruct (IHq j Hj) as [Hgr|(k & Hk & Hle')]; [by left|]. right. exists k. split; [done|].
  unfold total_ups in *. rewrite zsum_cons. lia.
Qed.

(** C20 No waiter is forgotten.  A task that waits behind [i] others and is not
    woken up before is granted the semaphore after at most [i + 1] ups, whatever
    else happens, and those that come later do not overtake it; and when it
    then runs it returns 0, even with a signal pending and its time over. *)
Theorem no_starvation (val : Z) (evs0 evs : list event) (rs0 rs : list (option Z)) (s s' : sys) (t i : nat) :
  run false evs0 (sys_init val) rs0 s → run false evs s rs s' →
  waits_at i t s → Forall (λ ev, ¬ wakes t ev) evs → Z.of_nat i < total_ups evs →
  granted_to t s' ∧ ∃ state timeout, tasks s' !! t = Some (state, timeout) ∧
  ∀ rest pending stop, left_of timeout rest →
    ∃ s'', run_event false (Wake t rest pending stop) s' = Some (Some 0, s'') ∧ tasks s'' !! t = None.
Proof.
  intros Hrun0 Hrun Hi Hw Hn. pose proof (run_ok _ _ _ _ Hrun0 (sys_init_ok val)) as Hok.
  destruct (run_queue t _ _ _ _ Hrun Hok Hw) as [_ Hq].
  destruct (Hq i Hi) as [Hg|(j & _ & Hle)]; [|lia]. split; [done|].
  pose proof (run_ok _ _ _ _ Hrun Hok) as Hok'.
  assert (Ht : is_Some (tasks s' !! t)).
  { apply elem_of_dom. rewrite <- (so_tasks _ Hok'). by eapply elem_of_dom_2. }
  destruct Ht as [[state timeout] Ht]. exists state, timeout. split; [done|]. intros rest pending stop Hrest.
  assert (Hen : enabled (Wake t rest pending stop) s' = true).
  { cbn [enabled]. rewrite Ht. by apply bool_decide_eq_true. }
  destruct (wake_effect t rest pending stop s' Hok' Hen) as (r & s'' & E & He & Hr).
  destruct (Hr Hg) as [-> Hnone]. by exists s''.
Qed.

Lemma stopped_run s t state timeout rest pending :
  waiters (sem s) !! t = Some false → tasks s !! t = Some (state, timeout) →
  run_event true (Wake t rest pending true) s =
    Some (Some 0, mk_sys (mk_cdcm_sem (count (sem s)) (wait_list (sem s)) (delete t (waiters (sem s)))) (delete t (tasks s))).
Proof.
  intros Hw Ht.
  assert (E : down_wakes true t state rest pending true (sem s) =
    Some (Some 0, mk_cdcm_sem (count (sem s)) (wait_list (sem s)) (delete t (waiters (sem s))))).
  { unfold down_wakes, gets, lift_opt. cbv beta iota delta [mbind M_bind]. rewrite Hw. by destruct (sem s). }
  cbn [run_event]. unfold gets at 1, lift_opt at 1, mbind, M_bind. rewrite Ht. cbn [fmap option_fmap option_map fst].
  rewrite (zoom_run _ _ _ _ E). by destruct s.
Qed.

(** The variant that looks at [kthread_should_stop].  When the first waiter of
    the queue is woken up because its thread is to be stopped, the wait returns
    0, as if the semaphore had been acquired, although the count is 0 and no up
    was meant for it; and its waiter stays on the list, so that the next up
    writes into the stack of a function that has returned. *)
Theorem kthread_stop_dangles (s : sys) (t : nat) (state : task_state) (timeout rest : Z) (pending : bool) :
  sys_ok s → waits_at 0 t s → tasks s !! t = Some (state, timeout) →
  ∃ s', run_event true (Wake t rest pending true) s = Some (Some 0, s') ∧
    count (sem s') = 0 ∧ t ∈ wait_list (sem s') ∧ tasks s' !! t = None ∧ run_event true Up s' = None.
Proof.
  intros [Hi _] Hh Ht. unfold waits_at in Hh. pose proof (si_excl _ Hi) as Hx. pose proof (si_count _ Hi) as Hc.
  assert (Hw : waiters (sem s) !! t = Some false) by (apply (si_list _ Hi); by eapply list_elem_of_lookup_2).
  eexists. split; [by eapply stopped_run|]. destruct s as [[n l w] ts]. simpl in *.
  destruct l as [|u l]; [done|]. injection Hh as ->. split; [|split; [|split]].
  - destruct (decide (0 < n)) as [Hp|Hp]; [by specialize (Hx Hp)|lia].
  - set_solver.
  - apply lookup_delete_eq.
  - unfold run_event, zoom, mbind, M_bind, cdcm_up, cdcm_up_waiter, gets, lift_opt, modify, mbind, M_bind. simpl.
    by rewrite lookup_delete_eq.
Qed.

(** * Examples *)

(** A mutex: one task in, two waiting, one of them interrupted. *)
Definition mutex_events : list event :=
  [Down 1 TASK_UNINTERRUPTIBLE MAX_SCHEDULE_TIMEOUT false;
   Down 2 TASK_INTERRUPTIBLE MAX_SCHEDULE_TIMEOUT false;
   Down 3 TASK_UNINTERRUPTIBLE 100 false;
   Wake 3 40 false false].
Definition mutex_results : list (option Z) := [Some 0; None; None; None].
Definition mutex_state : sys :=
  mk_sys (mk_cdcm_sem 0 [2; 3]%nat (<[3%nat := false]> (<[2%nat := false]> ∅)))
    (<[3%nat := (TASK_UNINTERRUPTIBLE, 40)]> (<[2%nat := (TASK_INTERRUPTIBLE, MAX_SCHEDULE_TIMEOUT)]> ∅)).

Ltac run_events := repeat (eapply run_cons; [vm_compute; reflexivity|vm_compute; reflexivity|]); apply run_nil.

Lemma mutex_run b : run b mutex_events (sys_init 1) mutex_results mutex_state.
Proof. destruct b; run_events. Qed.

Lemma semaphore_safe_witness : sys_ok mutex_state ∧ enabled Up mutex_state = true.
Proof. split; [|done]. apply (semaphore_safe 1 mutex_events mutex_results). apply mutex_run. Defined.

Lemma semaphore_tokens_witness :
  total_acquired mutex_events mutex_results = 1 ∧ count (sem mutex_state) = 0.
Proof.
  destruct (semaphore_tokens 1 mutex_events mutex_results mutex_state) as [Ht Hc].
  - apply mutex_run.
  - intros Hr. repeat (apply list.elem_of_cons in Hr as [Hr|Hr]; [discriminate|]). by apply not_elem_of_nil in Hr.
  - vm_compute. reflexivity.
  - split; [|done]. change (granted (sem mutex_state)) with 0%nat in Ht. vm_compute in Ht |- *. done.
Defined.

Lemma no_starvation_witness : ∃ s', run false [Up; Up] mutex_state [None; None] s' ∧ granted_to 3 s'.
Proof.
  eexists. split; [run_events|].
  apply (no_starvation 1 mutex_events [Up; Up] mutex_results [None; None] mutex_state _ 3 1).
  - apply mutex_run.
  - run_events.
  - reflexivity.
  - repeat constructor; intros [].
  - vm_compute. reflexivity.
Defined.

Lemma kthread_stop_dangles_witness :
  ∃ s', run_event true (Wake 2 MAX_SCHEDULE_TIMEOUT false true) mutex_state = Some (Some 0, s') ∧ run_event true Up s' = None.
Proof.
  destruct (kthread_stop_dangles mutex_state 2 TASK_INTERRUPTIBLE MAX_SCHEDULE_TIMEOUT MAX_SCHEDULE_TIMEOUT false)
    as (s' & E & _ & _ & _ & Hup).
  - eapply run_ok; [apply mutex_run|apply sys_init_ok].
  - reflexivity.
  - vm_compute. reflexivity.
  - exists s'. split; [exact E|exact Hup].
Defined.
