(* ===== verification/CdcmSemaSpec.v ===== *)
(** The semaphore calls of LynxOS, [swait], [tswait], [ssignal], [ssignaln],
    [sreset] and [scount] of [src/cdcm/cdcmTime.c], and their specification: one counting
    semaphore per user pointer, the machine of [CdcmSem], whose guarantees ([CdcmSemSpec]) hold for
    each of them.

    The user names a semaphore by the address of an [int]; the semaphore behind it
    is allocated, and initialised with what the [int] holds, at the first use.  A
    call that has to wait comes back with [None] and is taken up again when the
    scheduler runs the task. *)
From S2P Require Import Prelude KernelIf CdcmSem CdcmSemProofs.
From S2P Require CdcmSemSpec.
From stdpp Require Import fin_maps.

Local Open Scope Z_scope.

Definition SYSERR : Z := -1.
Definition OK : Z := 0.
Definition SEM_SIGIGNORE : Z := -1.
Definition SEM_SIGRETRY : Z := 0.
Definition SEM_SIGABORT : Z := 1.
Definition TSWAIT_ABORTED : Z := -1.
Definition TSWAIT_TIMEDOUT : Z := 1.

(** [struct cdcm_semaphore], with its own address. *)
Record cdcm_semaphore := mk_cdcm_semaphore {
  sema_addr : Z;
  user_sem : Z;
  sema_sem : cdcm_sem
}.

Section api.
Context {K : Type} `{Kernel K}.

(** What [msecs_to_jiffies] makes of an [unsigned int], and the user's memory. *)
Variable msecs_to_jiffies : Z → Z.
Variable user_int : Z → Z.

Record semas := mk_semas {
  kern : K;
  sem_list : list cdcm_semaphore
}.

Notation AM := (M semas).

(** * Finding a semaphore *)

Definition is_user (u : Z) (x : cdcm_semaphore) : bool := user_sem x =? u.
Definition is_addr (a : Z) (x : cdcm_semaphore) : bool := sema_addr x =? a.

(** [__get_sema], and [get_sema], which calls it under the lock of the list. *)
Definition get_sema (u : Z) : AM Z :=
  l ← gets sem_list;
  match list_find (λ x, is_user u x) l with
  | Some (_, x) => mret (sema_addr x)
  | None =>
    k ← gets kern;
    let '(a, k) := kmalloc 48 k in
    modify (λ s : semas, s <| kern := k |>);;
    if a =? 0 then mret 0
    else
      modify (λ s : semas, s <| sem_list := mk_cdcm_semaphore a u (cdcm_sem_init (user_int u)) :: sem_list s |>);;
      mret a
  end.

(** A section on the semaphore at an address. *)
Definition on_sema {A} (a : Z) (m : M cdcm_sem A) : AM A :=
  l ← gets sem_list;
  p ← lift_opt (list_find (λ x, is_addr a x) l);
  let '(i, x) := p in
  r ← lift_opt (m (sema_sem x));
  let '(v, c) := r in
  modify (λ s : semas, s <| sem_list := <[i := mk_cdcm_semaphore (sema_addr x) (user_sem x) c]> l |>);;
  mret v.

(** * The calls *)

(** How the result of a wait becomes the result of the call. *)
Inductive waiting := Swait | Tswait.

Definition wait_result (w : waiting) (r : Z) : Z :=
  match w with
  | Swait => if r =? 0 then OK else SYSERR
  | Tswait => if r =? 0 then OK else if r =? - ETIME then TSWAIT_TIMEDOUT else if r =? - EINTR then TSWAIT_ABORTED else SYSERR
  end.

(** A task that sleeps in a call: in which semaphore, in which state, for how
    long. *)
Record sleeper := mk_sleeper {
  sl_addr : Z;
  sl_state : task_state;
  sl_timeout : Z;
  sl_call : waiting
}.

(** A call that returns, or sleeps. *)
Definition outcome (w : sleeper) (r : option Z) : Z + sleeper :=
  match r with Some v => inl (wait_result (sl_call w) v) | None => inr w end.

Definition swait (t : nat) (u sig : Z) (pending : bool) : AM (Z + sleeper) :=
  a ← get_sema u;
  if a =? 0 then mret (inl SYSERR)
  else if sig =? SEM_SIGIGNORE then
    r ← on_sema a (cdcm_down t pending);
    mret (outcome (mk_sleeper a TASK_UNINTERRUPTIBLE MAX_SCHEDULE_TIMEOUT Swait) r)
  else if (sig =? SEM_SIGABORT) || (sig =? SEM_SIGRETRY) then
    r ← on_sema a (cdcm_down_interruptible t pending);
    mret (outcome (mk_sleeper a TASK_INTERRUPTIBLE MAX_SCHEDULE_TIMEOUT Swait) r)
  else mret (inl (wait_result Swait SYSERR)).

Definition tswait (t : nat) (u sig interval : Z) (pending : bool) : AM (Z + sleeper) :=
  let expires := msecs_to_jiffies (u32 (s32 (10 * interval))) in
  if u =? 0 then mret (inl TSWAIT_TIMEDOUT)
  else
    a ← get_sema u;
    if a =? 0 then mret (inl SYSERR)
    else if interval =? 0 then r ← on_sema a cdcm_down_trylock; mret (inl r)
    else if interval <? 0 then swait t u sig pending
    else
      r ← on_sema a (cdcm_down_timeout t expires pending);
      mret (outcome (mk_sleeper a TASK_UNINTERRUPTIBLE expires Tswait) r).

(** The task runs again, [rest] jiffies before its time is over. *)
Definition resume (t : nat) (w : sleeper) (rest : Z) (pending : bool) : AM (Z + sleeper) :=
  r ← on_sema (sl_addr w) (down_wakes false t (sl_state w) rest pending false);
  mret (outcome (mk_sleeper (sl_addr w) (sl_state w) rest (sl_call w)) r).

Definition ssignal (u : Z) : AM Z :=
  a ← get_sema u;
  if a =? 0 then mret SYSERR else on_sema a cdcm_up;; mret OK.

Definition ssignaln (u n : Z) : AM Z :=
  a ← get_sema u;
  if a =? 0 then mret SYSERR else on_sema a (up_n n);; mret OK.

Definition sreset (u : Z) : AM () :=
  a ← get_sema u;
  if a =? 0 then mret () else on_sema a reset.

Definition scount (u : Z) : AM Z :=
  a ← get_sema u;
  if a =? 0 then mret SYSERR else on_sema a scount_section.

(** [cdcm_sema_cleanup_all] *)
Definition cdcm_sema_cleanup_all : AM () :=
  l ← gets sem_list;
  mfold (λ _ x, modify (λ s : semas, s <| sem_list := filter (λ y, sema_addr y ≠ sema_addr x) (sem_list s) |>
                                     <| kern := kfree (sema_addr x) (kern s) |>)) () l.
End api.

Arguments semas : clear implicits.

Notation sys_ok := CdcmSemSpec.sys_ok.

(** * Calls in a world of sleeping tasks *)

Record world (K : Type) := mk_world {
  tab : semas K;
  asleep : gmap nat sleeper
}.
Arguments mk_world {K} _ _.
Arguments tab {K} _.
Arguments asleep {K} _.

Inductive call :=
  | CSwait (t : nat) (u sig : Z) (pending : bool)
  | CTswait (t : nat) (u sig interval : Z) (pending : bool)
  | CResume (t : nat) (rest : Z) (pending : bool)
  | CSsignal (u : Z)
  | CSsignaln (u n : Z)
  | CSreset (u : Z)
  | CScount (u : Z).

Section sections.
Implicit Types (s : sys) (ev : event).

(** The first element with a key that only it has. *)
Lemma list_find_key {A} (f : A → Z) (l : list A) i x :
  NoDup (f <$> l) → l !! i = Some x → list_find (λ y, Is_true (f y =? f x)) l = Some (i, x).
Proof.
  intros Hn Hi. apply list_find_Some. split; [done|]. split; [by apply Is_true_true, Z.eqb_eq|].
  intros j y Hj Hlt Hy. apply Is_true_true, Z.eqb_eq in Hy.
  assert (j = i); [|lia]. eapply NoDup_lookup; [exact Hn| |].
  - rewrite list_lookup_fmap, Hj. reflexivity.
  - rewrite list_lookup_fmap, Hi. simpl. by rewrite Hy.
Qed.

(** An event as the section it runs, of a task that sleeps in the state [st], and
    what it does to the sleeping tasks. *)
Definition section_of (ev : event) (st : task_state) : M cdcm_sem (option Z) :=
  match ev with
  | Down t state timeout pending => down t state timeout pending
  | Try _ => r ← cdcm_down_trylock; mret (Some r)
  | Wake t rest pending stop => down_wakes false t st rest pending stop
  | Up => cdcm_up;; mret None
  | UpN n => up_n n;; mret None
  | Reset => reset;; mret None
  | Count => r ← scount_section; mret (Some r)
  end.

Definition tasks_after {A} (w : task_state → Z → A) (ev : event) (st : task_state) (r : option Z) (ts : gmap nat A) : gmap nat A :=
  match ev, r with
  | Down t state timeout _, None => <[t := w state timeout]> ts
  | Wake t rest _ _, None => <[t := w st rest]> ts
  | Down t _ _ _, Some _ | Wake t _ _ _, Some _ => delete t ts
  | _, _ => ts
  end.

Definition state_ok (ev : event) (st : task_state) (ts : gmap nat (task_state * Z)) : Prop :=
  match ev with Wake t _ _ _ => ∃ timeout, ts !! t = Some (st, timeout) | _ => True end.

Lemma run_event_section ev st s r c :
  state_ok ev st (tasks s) → section_of ev st (sem s) = Some (r, c) →
  run_event false ev s = Some (r, mk_sys c (tasks_after pair ev st r (tasks s))).
Proof.
  intros Hst E. destruct ev as [t state timeout pending|t|t rest pending stop| |n| |]; cbn [section_of run_event] in *.
  - unfold mbind, M_bind. rewrite (CdcmSemSpec.zoom_run _ _ _ _ E). by destruct r, s.
  - unfold mbind, M_bind in E. destruct (cdcm_down_trylock (sem s)) as [[v c']|] eqn:E1; [|done]. injection E as <- <-.
    unfold mbind, M_bind. rewrite (CdcmSemSpec.zoom_run _ _ _ _ E1). by destruct s.
  - destruct Hst as [timeout Ht]. unfold gets at 1, lift_opt at 1, mbind, M_bind. rewrite Ht.
    cbn [fmap option_fmap option_map fst]. rewrite (CdcmSemSpec.zoom_run _ _ _ _ E). by destruct r, s.
  - unfold mbind, M_bind in E. destruct (cdcm_up (sem s)) as [[v c']|] eqn:E1; [|done]. injection E as <- <-.
    unfold mbind, M_bind. rewrite (CdcmSemSpec.zoom_run _ _ _ _ E1). by destruct s.
  - unfold mbind, M_bind in E. destruct (up_n n (sem s)) as [[v c']|] eqn:E1; [|done]. injection E as <- <-.
    unfold mbind, M_bind. rewrite (CdcmSemSpec.zoom_run _ _ _ _ E1). by destruct s.
  - unfold mbind, M_bind in E. destruct (reset (sem s)) as [[v c']|] eqn:E1; [|done]. injection E as <- <-.
    unfold mbind, M_bind. rewrite (CdcmSemSpec.zoom_run _ _ _ _ E1). by destruct s.
  - unfold mbind, M_bind in E. destruct (scount_section (sem s)) as [[v c']|] eqn:E1; [|done]. injection E as <- <-.
    unfold mbind, M_bind. rewrite (CdcmSemSpec.zoom_run _ _ _ _ E1). by destruct s.
Qed.

Lemma section_runs ev st s :
  sys_ok s → enabled ev s = true → state_ok ev st (tasks s) →
  ∃ r c, section_of ev st (sem s) = Some (r, c) ∧ sys_ok (mk_sys c (tasks_after pair ev st r (tasks s))).
Proof.
  intros Hok Hen Hst. destruct (section_of ev st (sem s)) as [[r c]|] eqn:E.
  - exists r, c. split; [done|]. pose proof (run_event_section _ _ _ _ _ Hst E) as Er.
    by destruct (CdcmSemSpec.run_effect _ _ _ _ Hok Hen Er).
  - exfalso. destruct (CdcmSemSpec.event_effect ev s Hok Hen) as (r & s' & Er & _).
    destruct ev as [t state timeout pending|t|t rest pending stop| |n| |]; cbn [section_of run_event] in *;
      unfold zoom, mbind, M_bind in *; try by destruct s; simpl in *; repeat case_match.
    destruct Hst as [timeout Ht]. unfold gets, lift_opt in Er. rewrite Ht in Er.
    cbn [fmap option_fmap option_map fst] in Er. by rewrite E in Er.
Qed.
End sections.

Section spec.
Context {K : Type} `{KernelLaws K}.
Variable msecs_to_jiffies : Z → Z.
Variable user_int : Z → Z.
Implicit Types (s : world K) (ev : event).

Notation WM := (M (world K)).

Definition on_tab {A} (m : M (semas K) A) : WM A :=
  zoom tab (λ c (s : world K), mk_world c (asleep s)) m.

(** The task sleeps, or is back. *)
Definition settle (t : nat) (r : Z + sleeper) : WM (option Z) :=
  match r with
  | inl v => modify (λ s : world K, mk_world (tab s) (delete t (asleep s)));; mret (Some v)
  | inr w => modify (λ s : world K, mk_world (tab s) (<[t := w]> (asleep s)));; mret None
  end.

(** The result of a call that returns; [sreset] returns nothing. *)
Definition run_call (c : call) : WM (option Z) :=
  match c with
  | CSwait t u sig pending => r ← on_tab (swait user_int t u sig pending); settle t r
  | CTswait t u sig interval pending => r ← on_tab (tswait msecs_to_jiffies user_int t u sig interval pending); settle t r
  | CResume t rest pending =>
    sl ← gets asleep; w ← lift_opt (sl !! t);
    r ← on_tab (resume t w rest pending); settle t r
  | CSsignal u => r ← on_tab (ssignal user_int u); mret (Some r)
  | CSsignaln u n => r ← on_tab (ssignaln user_int u n); mret (Some r)
  | CSreset u => on_tab (sreset user_int u);; mret None
  | CScount u => r ← on_tab (scount user_int u); mret (Some r)
  end.

Definition call_enabled (c : call) (s : world K) : Prop :=
  match c with
  | CSwait t _ _ _ | CTswait t _ _ _ _ => asleep s !! t = None
  | CResume t rest _ => ∃ w, asleep s !! t = Some w ∧ left_of (sl_timeout w) rest
  | _ => True
  end.

(** * The abstraction *)

(** Who sleeps in the semaphore at an address. *)
Definition sleepers_of (a : Z) (sl : gmap nat sleeper) : gmap nat (task_state * Z) :=
  omap (λ w, if sl_addr w =? a then Some (sl_state w, sl_timeout w) else None) sl.

Definition entry_of (u : Z) (s : world K) : option cdcm_semaphore :=
  snd <$> list_find (λ x, is_user u x) (sem_list (tab s)).

(** The semaphore behind a user pointer; before its first use, the one that will
    be set up. *)
Definition view (u : Z) (s : world K) : sys :=
  match entry_of u s with
  | Some x => mk_sys (sema_sem x) (sleepers_of (sema_addr x) (asleep s))
  | None => sys_init (user_int u)
  end.

(** The address a call is about, and the section it runs there, if any. *)
Definition call_user (c : call) (s : world K) (u : Z) : Prop :=
  match c with
  | CSwait _ v _ _ | CTswait _ v _ _ _ | CSsignal v | CSsignaln v _ | CSreset v | CScount v => u = v
  | CResume t _ _ => ∃ w x, asleep s !! t = Some w ∧ entry_of u s = Some x ∧ sema_addr x = sl_addr w
  end.

Definition swait_event (t : nat) (sig : Z) (pending : bool) : option event :=
  if sig =? SEM_SIGIGNORE then Some (Down t TASK_UNINTERRUPTIBLE MAX_SCHEDULE_TIMEOUT pending)
  else if (sig =? SEM_SIGABORT) || (sig =? SEM_SIGRETRY) then Some (Down t TASK_INTERRUPTIBLE MAX_SCHEDULE_TIMEOUT pending)
  else None.

Definition call_event (c : call) : option event :=
  match c with
  | CSwait t _ sig pending => swait_event t sig pending
  | CTswait t u sig interval pending =>
    if u =? 0 then None
    else if interval =? 0 then Some (Try t)
    else if interval <? 0 then swait_event t sig pending
    else Some (Down t TASK_UNINTERRUPTIBLE (msecs_to_jiffies (u32 (s32 (10 * interval)))) pending)
  | CResume t rest pending => Some (Wake t rest pending false)
  | CSsignal _ => Some Up
  | CSsignaln _ n => Some (UpN n)
  | CSreset _ => Some Reset
  | CScount _ => Some Count
  end.

(** What the call makes of the result of the section. *)
Definition call_result (c : call) (s : world K) (r : option Z) : option Z :=
  match c with
  | CSwait _ _ _ _ => wait_result Swait <$> r
  | CTswait _ _ _ interval _ => if interval =? 0 then r else wait_result (if interval <? 0 then Swait else Tswait) <$> r
  | CResume t _ _ => wait_result (default Swait (sl_call <$> asleep s !! t)) <$> r
  | CSsignal _ | CSsignaln _ _ => Some OK
  | CSreset _ => None
  | CScount _ => r
  end.

(** Without a section: no memory for the semaphore, a bad argument, or only a
    delay. *)
Definition call_failed (c : call) : option Z :=
  match c with
  | CTswait _ u _ _ _ => Some (if u =? 0 then TSWAIT_TIMEDOUT else SYSERR)
  | CSreset _ => None
  | _ => Some SYSERR
  end.

(** * The invariant *)

Definition blocks (l : list cdcm_semaphore) : gmultiset resource := list_to_set_disj ((λ x, Block (sema_addr x)) <$> l).

Record world_ok (base : gmultiset resource) (s : world K) : Prop := {
  wo_users : NoDup (user_sem <$> sem_list (tab s));
  wo_addrs : NoDup (sema_addr <$> sem_list (tab s));
  wo_pos : ∀ x, x ∈ sem_list (tab s) → 0 < sema_addr x;
  wo_live : live (kern (tab s)) = blocks (sem_list (tab s)) ⊎ base;
  wo_asleep : ∀ t w, asleep s !! t = Some w → sl_addr w ∈ sema_addr <$> sem_list (tab s);
  wo_sems : ∀ x, x ∈ sem_list (tab s) → sys_ok (mk_sys (sema_sem x) (sleepers_of (sema_addr x) (asleep s)))
}.

(** * Entries *)

Lemma entry_of_key s i x : NoDup (user_sem <$> sem_list (tab s)) →
  sem_list (tab s) !! i = Some x → entry_of (user_sem x) s = Some x.
Proof. intros Hn Hi. unfold entry_of. by rewrite (list_find_key user_sem _ i x). Qed.

Lemma entry_of_in s u x : entry_of u s = Some x → ∃ i, sem_list (tab s) !! i = Some x ∧ user_sem x = u.
Proof.
  unfold entry_of. destruct (list_find _ _) as [[i y]|] eqn:E; [|done]. intros [= <-].
  apply list_find_Some in E as (Hi & Hy & _). exists i. split; [done|]. by apply Is_true_true, Z.eqb_eq in Hy.
Qed.

Lemma entry_of_none s u : entry_of u s = None → u ∉ user_sem <$> sem_list (tab s).
Proof.
  unfold entry_of. destruct (list_find _ _) as [|] eqn:E; [done|]. intros _. apply list_find_None in E.
  rewrite list_elem_of_fmap. intros (x & -> & Hx). eapply Forall_forall in E; [|done]. apply E.
  by apply Is_true_true, Z.eqb_eq.
Qed.

Lemma sleepers_lookup a sl t : sleepers_of a sl !! t =
  match sl !! t with Some w => if sl_addr w =? a then Some (sl_state w, sl_timeout w) else None | None => None end.
Proof. unfold sleepers_of. rewrite lookup_omap. by destruct (sl !! t). Qed.

(** A task that sleeps nowhere, or in [a], starts or goes on sleeping in [a]. *)
Lemma sleepers_insert a b sl t w : sl_addr w = a →
  (∀ v, sl !! t = Some v → sl_addr v = a) →
  sleepers_of b (<[t := w]> sl) = if decide (b = a) then <[t := (sl_state w, sl_timeout w)]> (sleepers_of a sl) else sleepers_of b sl.
Proof.
  intros Ha Hv. apply map_eq. intros u. rewrite sleepers_lookup. destruct (decide (u = t)) as [->|Hne].
  - rewrite lookup_insert_eq, Ha. destruct (decide (b = a)) as [->|Hb].
    + by rewrite Z.eqb_refl, lookup_insert_eq.
    + rewrite (proj2 (Z.eqb_neq a b)), sleepers_lookup by congruence. destruct (sl !! t) as [v|]; [|done].
      by rewrite (Hv v eq_refl), (proj2 (Z.eqb_neq a b)) by congruence.
  - rewrite lookup_insert_ne by done. destruct (decide (b = a)) as [->|Hb]; [rewrite lookup_insert_ne by done|]; by rewrite sleepers_lookup.
Qed.

Lemma sleepers_delete a b sl t : (∀ v, sl !! t = Some v → sl_addr v = a) →
  sleepers_of b (delete t sl) = if decide (b = a) then delete t (sleepers_of a sl) else sleepers_of b sl.
Proof.
  intros Hv. apply map_eq. intros u. rewrite sleepers_lookup. destruct (decide (u = t)) as [->|Hne].
  - rewrite lookup_delete_eq. destruct (decide (b = a)) as [->|Hb]; [by rewrite lookup_delete_eq|].
    rewrite sleepers_lookup. destruct (sl !! t) as [v|]; [|done]. by rewrite (Hv v eq_refl), (proj2 (Z.eqb_neq a b)) by congruence.
  - rewrite lookup_delete_ne by done. destruct (decide (b = a)) as [->|Hb]; [rewrite lookup_delete_ne by done|]; by rewrite sleepers_lookup.
Qed.

(** ** A section on an entry *)

Definition world_after (s : world K) (i : nat) (x : cdcm_semaphore) (c : cdcm_sem) (sl : gmap nat sleeper) : world K :=
  mk_world (mk_semas (kern (tab s)) (<[i := mk_cdcm_semaphore (sema_addr x) (user_sem x) c]> (sem_list (tab s)))) sl.

Lemma fmap_insert_same {A} (f : cdcm_semaphore → A) (l : list cdcm_semaphore) i x y :
  l !! i = Some x → f y = f x → f <$> <[i := y]> l = f <$> l.
Proof. intros Hi Hf. rewrite list_fmap_insert, Hf. apply list_insert_id. by rewrite list_lookup_fmap, Hi. Qed.

Lemma world_after_ok base s i x c sl :
  world_ok base s → sem_list (tab s) !! i = Some x →
  sys_ok (mk_sys c (sleepers_of (sema_addr x) sl)) →
  (∀ b, b ≠ sema_addr x → sleepers_of b sl = sleepers_of b (asleep s)) →
  (∀ t w, sl !! t = Some w → sl_addr w = sema_addr x ∨ asleep s !! t = Some w) →
  world_ok base (world_after s i x c sl) ∧
  view (user_sem x) (world_after s i x c sl) = mk_sys c (sleepers_of (sema_addr x) sl) ∧
  ∀ v, v ≠ user_sem x → view v (world_after s i x c sl) = view v s.
Proof.
  intros Hw Hi Hok Hother Hsl. set (y := mk_cdcm_semaphore (sema_addr x) (user_sem x) c).
  assert (Hil : (i < length (sem_list (tab s)))%nat) by by eapply lookup_lt_Some.
  assert (Hy : sem_list (tab (world_after s i x c sl)) !! i = Some y) by by apply list_lookup_insert_eq.
  assert (Hu : user_sem <$> sem_list (tab (world_after s i x c sl)) = user_sem <$> sem_list (tab s)) by by eapply fmap_insert_same.
  assert (Ha : sema_addr <$> sem_list (tab (world_after s i x c sl)) = sema_addr <$> sem_list (tab s)) by by eapply fmap_insert_same.
  assert (Hne : ∀ j z, sem_list (tab (world_after s i x c sl)) !! j = Some z → j ≠ i →
    sem_list (tab s) !! j = Some z ∧ sema_addr z ≠ sema_addr x ∧ user_sem z ≠ user_sem x).
  { intros j z Hz Hj. unfold world_after in Hz. cbn [tab sem_list] in Hz. rewrite list_lookup_insert_ne in Hz by done.
    split; [done|]. split; intros Heq; apply Hj.
    - eapply NoDup_lookup; [exact (wo_addrs _ _ Hw)|rewrite list_lookup_fmap, Hz; reflexivity|]. rewrite list_lookup_fmap, Hi. simpl. by rewrite Heq.
    - eapply NoDup_lookup; [exact (wo_users _ _ Hw)|rewrite list_lookup_fmap, Hz; reflexivity|]. rewrite list_lookup_fmap, Hi. simpl. by rewrite Heq. }
  assert (Hw' : world_ok base (world_after s i x c sl)).
  { split.
    - rewrite Hu. apply Hw.
    - rewrite Ha. apply Hw.
    - intros z Hz. apply list_elem_of_lookup in Hz as [j Hz]. destruct (decide (j = i)) as [->|Hj].
      + rewrite Hy in Hz. injection Hz as <-. change (0 < sema_addr x). apply (wo_pos _ _ Hw). by eapply list_elem_of_lookup_2.
      + destruct (Hne j z Hz Hj) as (Hz' & _). apply (wo_pos _ _ Hw). by eapply list_elem_of_lookup_2.
    - unfold blocks. unfold world_after. cbn [tab sem_list kern].
      rewrite (fmap_insert_same (λ x, Block (sema_addr x)) _ _ x) by done. apply Hw.
    - intros t w Ht. rewrite Ha. destruct (Hsl t w Ht) as [->|Ht']; [|by eapply wo_asleep].
      apply list_elem_of_fmap. exists x. split; [done|]. by eapply list_elem_of_lookup_2.
    - intros z Hz. apply list_elem_of_lookup in Hz as [j Hz]. destruct (decide (j = i)) as [->|Hj].
      + rewrite Hy in Hz. injection Hz as <-. exact Hok.
      + destruct (Hne j z Hz Hj) as (Hz' & Hza & _). unfold world_after. cbn [asleep]. rewrite (Hother _ Hza).
        apply (wo_sems _ _ Hw). by eapply list_elem_of_lookup_2. }
  split; [done|]. split.
  - unfold view. change (user_sem x) with (user_sem y). by rewrite (entry_of_key _ i y (wo_users _ _ Hw') Hy).
  - intros v Hv. unfold view. destruct (entry_of v (world_after s i x c sl)) as [z|] eqn:E.
    + apply entry_of_in in E as (j & Hz & <-). destruct (decide (j = i)) as [->|Hj]; [rewrite Hy in Hz; injection Hz as <-; done|].
      destruct (Hne j z Hz Hj) as (Hz' & Hza & _). rewrite (entry_of_key s j z (wo_users _ _ Hw) Hz').
      unfold world_after. cbn [asleep]. by rewrite (Hother _ Hza).
    + destruct (entry_of v s) as [z|] eqn:E'; [|done]. exfalso. apply entry_of_none in E. rewrite Hu in E. apply E.
      apply entry_of_in in E' as (j & Hz & <-). apply list_elem_of_fmap. exists z. split; [done|]. by eapply list_elem_of_lookup_2.
Qed.

(** * The calls *)

Lemma on_sema_run {A} base s i x (m : M cdcm_sem A) r c :
  world_ok base s → sem_list (tab s) !! i = Some x → m (sema_sem x) = Some (r, c) →
  on_sema (sema_addr x) m (tab s) = Some (r, tab (world_after s i x c (asleep s))).
Proof.
  intros Hw Hi E. unfold on_sema, is_addr, gets, lift_opt, mbind, M_bind.
  rewrite (list_find_key sema_addr _ i x (wo_addrs _ _ Hw) Hi). cbn. rewrite E. cbn. by destruct (tab s).
Qed.

(** [get_sema] gives nothing, and nothing changes, or it gives the entry of the pointer, and the
    views are as before. *)
Lemma get_sema_ok base s u : world_ok base s →
  ∃ a s', get_sema user_int u (tab s) = Some (a, tab s') ∧ world_ok base s' ∧ asleep s' = asleep s ∧
    (∀ v, view v s' = view v s) ∧
    (a = 0 ∧ entry_of u s' = None ∨ 0 < a ∧ ∃ i x, sem_list (tab s') !! i = Some x ∧ sema_addr x = a ∧ user_sem x = u) ∧
    (∀ v x, entry_of v s = Some x → entry_of v s' = Some x).
Proof.
  intros Hw. unfold get_sema, gets, mbind, M_bind. cbv beta iota.
  destruct (list_find (λ x, is_user u x) (sem_list (tab s))) as [[i x]|] eqn:Hf.
  { apply list_find_Some in Hf as (Hi & Hx & _). apply Is_true_true, Z.eqb_eq in Hx.
    exists (sema_addr x), s. split; [done|]. split; [done|]. split; [done|]. split; [done|]. split; [|done].
    right. split; [|by exists i, x]. apply (wo_pos _ _ Hw). by eapply list_elem_of_lookup_2. }
  pose proof (kmalloc_live 48 (kern (tab s))) as Hk.
  destruct (kmalloc 48 (kern (tab s))) as [a k]. simpl in Hk. unfold modify.
  assert (Hnone : entry_of u s = None) by (unfold entry_of; by rewrite Hf).
  destruct Hk as [[-> Hk]|(Ha & Hfresh & Hk)].
  { exists 0, (mk_world (mk_semas k (sem_list (tab s))) (asleep s)). destruct s as [[k0 l] sl]. cbn in *.
    split; [done|]. split; [|split; [done|split; [done|split; [by left|done]]]].
    destruct Hw as [? ? ? Hl ? ?]. split; try done. cbn in *. by rewrite Hk. }
  rewrite (proj2 (Z.eqb_neq a 0)) by lia. set (y := mk_cdcm_semaphore a u (cdcm_sem_init (user_int u))).
  set (s' := mk_world (mk_semas k (y :: sem_list (tab s))) (asleep s)).
  assert (Hna : a ∉ sema_addr <$> sem_list (tab s)).
  { intros Hin. apply Hfresh. rewrite (wo_live _ _ Hw). apply gmultiset_elem_of_disj_union. left.
    apply elem_of_list_to_set_disj, list_elem_of_fmap. apply list_elem_of_fmap in Hin as (x & -> & Hx). by exists x. }
  assert (Hsl : sleepers_of a (asleep s) = ∅).
  { apply map_empty. intros t. rewrite sleepers_lookup. destruct (asleep s !! t) as [w|] eqn:Ht; [|done].
    destruct (Z.eqb_spec (sl_addr w) a) as [<-|]; [|done]. by apply (wo_asleep _ _ Hw) in Ht. }
  assert (Hold : ∀ v, v ≠ u → entry_of v s' = entry_of v s).
  { intros v Hv. unfold entry_of. cbn [s' tab sem_list list_find]. rewrite decide_False.
    - by destruct (list_find (λ x, is_user v x) (sem_list (tab s))) as [[]|].
    - intros Hb%Is_true_true%Z.eqb_eq. change (u = v) in Hb. congruence. }
  assert (Hnew : entry_of u s' = Some y).
  { unfold entry_of. cbn [s' tab sem_list list_find]. rewrite decide_True; [done|]. apply Is_true_true, Z.eqb_refl. }
  exists a, s'. split; [by destruct s as [[]]|]. split; [|split; [done|split; [|split]]].
  - destruct Hw as [Hu Had Hp Hl Has Hs]. split; cbn [s' tab sem_list kern asleep].
    + apply list.NoDup_cons. split; [by apply entry_of_none|done].
    + by apply list.NoDup_cons.
    + intros x [->|Hx]%list.elem_of_cons; [done|auto].
    + rewrite Hk, Hl. unfold blocks. cbn [fmap list_fmap list_to_set_disj]. change (sema_addr y) with a. multiset_solver.
    + intros t w Ht. cbn [fmap list_fmap]. apply list.elem_of_cons. right. by eapply Has.
    + intros x [->|Hx]%list.elem_of_cons; [|auto]. cbn [y sema_addr sema_sem]. rewrite Hsl. apply CdcmSemSpec.sys_init_ok.
  - intros v. unfold view. destruct (decide (v = u)) as [->|Hv].
    + rewrite Hnew, Hnone. cbn [y sema_addr sema_sem s' asleep]. by rewrite Hsl.
    + by rewrite Hold.
  - right. split; [done|]. by exists 0%nat, y.
  - intros v x Hx. rewrite Hold; [done|]. congruence.
Qed.

(** What a call on [u] does: its section on the semaphore of [u], or nothing, because there is
    no section or no semaphore; and nothing to the semaphores of the others. *)
Record call_done (base : gmultiset resource) (c : call) (u : Z) (s : world K) (r : option Z) (s' : world K) : Prop := {
  cd_ok : world_ok base s';
  cd_other : ∀ v, v ≠ u → view v s' = view v s;
  cd_done :
    (r = call_failed c ∧ view u s' = view u s ∧ (call_event c = None ∨ entry_of u s' = None)) ∨
    (∃ ev er, call_event c = Some ev ∧ enabled ev (view u s) = true ∧ run_event false ev (view u s) = Some (er, view u s') ∧ r = call_result c s er)
}.

Definition event_ok (ev : event) (st : task_state) (a : Z) (sl : gmap nat sleeper) : Prop :=
  match ev with
  | Down t _ _ _ | Try t => sl !! t = None
  | Wake t rest _ _ => ∃ w, sl !! t = Some w ∧ sl_addr w = a ∧ sl_state w = st ∧ left_of (sl_timeout w) rest
  | _ => True
  end.

Lemma sleepers_after a b w ev st r sl :
  event_ok ev st a sl →
  sleepers_of b (tasks_after (λ st timeout, mk_sleeper a st timeout w) ev st r sl) =
  if decide (b = a) then tasks_after pair ev st r (sleepers_of a sl) else sleepers_of b sl.
Proof.
  intros Hok.
  assert (Hsame : sleepers_of b sl = if decide (b = a) then sleepers_of a sl else sleepers_of b sl) by (destruct (decide (b = a)); congruence).
  destruct ev as [t state timeout pending|t|t rest pending stop| |n| |]; try exact Hsame; destruct r as [v|]; try exact Hsame; cbn [event_ok tasks_after] in *.
  - apply sleepers_delete. congruence.
  - by apply (sleepers_insert a b sl t (mk_sleeper a state timeout w)); [|congruence].
  - destruct Hok as (w' & Hw & Ha & _). apply sleepers_delete. congruence.
  - destruct Hok as (w' & Hw & Ha & _). by apply (sleepers_insert a b sl t (mk_sleeper a st rest w)); [|congruence].
Qed.

Lemma tasks_after_lookup a w ev st r sl t v :
  tasks_after (λ st timeout, mk_sleeper a st timeout w) ev st r sl !! t = Some v → sl_addr v = a ∨ sl !! t = Some v.
Proof.
  destruct ev; destruct r; cbn [tasks_after]; auto; rewrite ?lookup_insert_Some, ?lookup_delete_Some; naive_solver.
Qed.

Lemma section_ok base s i x ev st w :
  world_ok base s → sem_list (tab s) !! i = Some x → event_ok ev st (sema_addr x) (asleep s) →
  ∃ r c s', section_of ev st (sema_sem x) = Some (r, c) ∧
    s' = world_after s i x c (tasks_after (λ st timeout, mk_sleeper (sema_addr x) st timeout w) ev st r (asleep s)) ∧
    world_ok base s' ∧ enabled ev (view (user_sem x) s) = true ∧
    run_event false ev (view (user_sem x) s) = Some (r, view (user_sem x) s') ∧
    ∀ v, v ≠ user_sem x → view v s' = view v s.
Proof.
  intros Hw Hi Hev. set (y := mk_sys (sema_sem x) (sleepers_of (sema_addr x) (asleep s))).
  assert (Hview : view (user_sem x) s = y) by (unfold view; by rewrite (entry_of_key s i x (wo_users _ _ Hw) Hi)).
  assert (Hy : sys_ok y) by (apply (wo_sems _ _ Hw); by eapply list_elem_of_lookup_2).
  assert (Hen : enabled ev y = true ∧ state_ok ev st (tasks y)).
  { destruct ev as [t state timeout pending|t|t rest pending stop| |n| |]; try done; cbn [event_ok enabled state_ok tasks y] in *;
      rewrite sleepers_lookup.
    1,2: by rewrite Hev.
    destruct Hev as (w' & -> & -> & <- & Hl). rewrite Z.eqb_refl. split; [by apply bool_decide_eq_true|by eexists]. }
  destruct Hen as [Hen Hst]. destruct (section_runs ev st y Hy Hen Hst) as (r & c & E & Hok).
  exists r, c. eexists. split; [exact E|]. split; [reflexivity|].
  set (sl := tasks_after (λ st timeout, mk_sleeper (sema_addr x) st timeout w) ev st r (asleep s)).
  assert (Hsl : sleepers_of (sema_addr x) sl = tasks_after pair ev st r (tasks y)).
  { unfold sl. rewrite (sleepers_after (sema_addr x) (sema_addr x) w ev st r _ Hev). by rewrite decide_True. }
  destruct (world_after_ok base s i x c sl Hw Hi) as (Hw' & Hv & Hother).
  - by rewrite Hsl.
  - intros b Hb. unfold sl. rewrite (sleepers_after (sema_addr x) b w ev st r _ Hev). by rewrite decide_False.
  - intros t v. apply tasks_after_lookup.
  - split; [done|]. split; [by rewrite Hview|]. split; [|done]. rewrite Hview, (run_event_section ev st y r c Hst E), Hv, Hsl. done.
Qed.

(** ** Calls one by one *)

Lemma world_eta s : mk_world (tab s) (asleep s) = s.
Proof. by destruct s. Qed.

(** The state after [get_sema]: the same, seen from outside. *)
Record prepared (base : gmultiset resource) (s s1 : world K) : Prop := {
  pr_ok : world_ok base s1;
  pr_asleep : asleep s1 = asleep s;
  pr_view : ∀ v, view v s1 = view v s
}.

Lemma prepared_trans base s s1 s2 : prepared base s s1 → prepared base s1 s2 → prepared base s s2.
Proof. intros [? Ha Hv] [? Ha' Hv']. split; [done|congruence|]. intros v. by rewrite Hv', Hv. Qed.

Lemma wp_get_sema base u (Q : Z → semas K → Prop) s :
  world_ok base s →
  (∀ s1, prepared base s s1 → entry_of u s1 = None → Q 0 (tab s1)) →
  (∀ s1 i x, prepared base s s1 → sem_list (tab s1) !! i = Some x → user_sem x = u → 0 < sema_addr x → Q (sema_addr x) (tab s1)) →
  wp (get_sema user_int u) Q (tab s).
Proof.
  intros Hw HQ0 HQ1. destruct (get_sema_ok base s u Hw) as (a & s1 & E & Hw1 & Hsl & Hv & Ha & _).
  unfold wp. rewrite E. destruct Ha as [[-> Hn]|[Ha (i & x & Hi & Hxa & Hu)]]; [by apply HQ0|].
  rewrite <- Hxa in Ha |- *. by apply (HQ1 s1 i x).
Qed.

(** What a section of the event [ev], with result [r], leaves. *)
Record stepped (base : gmultiset resource) (s1 : world K) (x : cdcm_semaphore) (ev : event) (r : option Z) (s' : world K) : Prop := {
  st_ok : world_ok base s';
  st_enabled : enabled ev (view (user_sem x) s1) = true;
  st_run : run_event false ev (view (user_sem x) s1) = Some (r, view (user_sem x) s');
  st_other : ∀ v, v ≠ user_sem x → view v s' = view v s1
}.

Lemma wp_on_sema {A} base s1 i x ev st w (m : M cdcm_sem A) (g : A → option Z) (Q : A → semas K → Prop) :
  world_ok base s1 → sem_list (tab s1) !! i = Some x → event_ok ev st (sema_addr x) (asleep s1) →
  (∀ c, section_of ev st c = match m c with Some (a, c') => Some (g a, c') | None => None end) →
  (∀ a s', asleep s' = tasks_after (λ st timeout, mk_sleeper (sema_addr x) st timeout w) ev st (g a) (asleep s1) →
    stepped base s1 x ev (g a) s' → Q a (tab s')) →
  wp (on_sema (sema_addr x) m) Q (tab s1).
Proof.
  intros Hw Hi Hev Hm HQ. destruct (section_ok base s1 i x ev st w Hw Hi Hev) as (r & c & s' & E & Hs' & Hw' & Hen & Hrun & Hother).
  rewrite Hm in E. destruct (m (sema_sem x)) as [[a c']|] eqn:Em; [|done]. injection E as <- <-.
  unfold wp. rewrite (on_sema_run base s1 i x m a c' Hw Hi Em).
  change (tab (world_after s1 i x c' (asleep s1))) with (tab (world_after s1 i x c' (tasks_after (λ st timeout, mk_sleeper (sema_addr x) st timeout w) ev st (g a) (asleep s1)))).
  rewrite <- Hs'. apply HQ; [by rewrite Hs'|done].
Qed.

Lemma stepped_done base c s s1 x ev r s' res :
  prepared base s s1 → stepped base s1 x ev r s' → call_event c = Some ev → res = call_result c s r →
  call_done base c (user_sem x) s res s'.
Proof.
  intros [Hw1 _ Hv] [Hw' Hen Hrun Hother] Hev Hres. split; [done| |].
  - intros v Hne. by rewrite Hother, Hv.
  - right. exists ev, r. by rewrite <- Hv.
Qed.

Lemma failed_done base c u s s1 : prepared base s s1 →
  call_event c = None ∨ entry_of u s1 = None → call_done base c u s (call_failed c) s1.
Proof. intros [Hw1 _ Hv] Hc. split; [done|done|]. left. by rewrite Hv. Qed.

(** The task did not sleep, and does not. *)
Lemma wp_settle_inl t v (Q : option Z → world K → Prop) s :
  asleep s !! t = None → Q (Some v) s → wp (settle t (inl v)) Q s.
Proof. intros Ht HQ. unfold settle. repeat wp_step. rewrite delete_id by done. by rewrite world_eta. Qed.

(** A down and what becomes of its task. *)
Lemma wp_wait base c s s1 i x t st timeout pending w :
  prepared base s s1 → sem_list (tab s1) !! i = Some x → asleep s !! t = None →
  call_event c = Some (Down t st timeout pending) → (∀ r, call_result c s r = wait_result w <$> r) →
  wp (on_sema (sema_addr x) (down t st timeout pending))
    (λ r q, wp (settle t (outcome (mk_sleeper (sema_addr x) st timeout w) r)) (call_done base c (user_sem x) s) (mk_world q (asleep s))) (tab s1).
Proof.
  intros Hp Hi Ht Hev Hres. pose proof (pr_asleep _ _ _ Hp) as Hsl.
  apply (wp_on_sema base s1 i x (Down t st timeout pending) st w _ id); [apply Hp|done|cbn [event_ok]; congruence| |].
  { intros d. cbn [section_of]. by destruct (down t st timeout pending d) as [[]|]. }
  intros r s' Ha Hst. rewrite Hsl in Ha.
  assert (Hd : call_done base c (user_sem x) s (wait_result w <$> r) s') by (eapply stepped_done; [done|done|done|by rewrite Hres]).
  destruct r as [v|]; cbn [id tasks_after outcome settle] in *; repeat wp_step; cbn [tab asleep]; rewrite <- Ha, world_eta; exact Hd.
Qed.

Ltac sema_null := rewrite Z.eqb_refl; cbv iota; wp_steps.
Ltac sema_addr := rewrite (proj2 (Z.eqb_neq _ 0)) by lia; cbv iota.

Ltac sema_wait Hp Hi Ht Hev Hres :=
  unfold cdcm_down, cdcm_down_interruptible, cdcm_down_timeout; eapply wp_mono;
  [eapply wp_wait; [exact Hp|exact Hi|exact Ht|exact Hev|exact Hres]|intros r q Hr; wp_step; exact Hr].

Lemma wp_swait base c t u sig pending s s0 :
  prepared base s s0 → asleep s !! t = None → call_failed c = Some SYSERR → call_event c = swait_event t sig pending →
  (∀ r, call_result c s r = wait_result Swait <$> r) →
  wp (swait user_int t u sig pending) (λ r q, wp (settle t r) (call_done base c u s) (mk_world q (asleep s))) (tab s0).
Proof.
  intros Hp0 Ht Hf Hev Hres. unfold swait. wp_step. apply (wp_get_sema base); [apply Hp0| |].
  - intros s1 Hp Hn. sema_null. rewrite <- (pr_asleep _ _ _ Hp0), <- (pr_asleep _ _ _ Hp), world_eta.
    pose proof (prepared_trans _ _ _ _ Hp0 Hp) as Hp'. apply wp_settle_inl; [by rewrite (pr_asleep _ _ _ Hp')|].
    rewrite <- Hf. apply failed_done; auto.
  - intros s1 i x Hp Hi <- Hx. sema_addr. pose proof (prepared_trans _ _ _ _ Hp0 Hp) as Hp'.
    unfold swait_event in Hev. destruct (sig =? SEM_SIGIGNORE); [wp_step; sema_wait Hp' Hi Ht Hev Hres|].
    destruct ((sig =? SEM_SIGABORT) || (sig =? SEM_SIGRETRY)); [wp_step; sema_wait Hp' Hi Ht Hev Hres|].
    wp_step. change (wait_result Swait SYSERR) with SYSERR. rewrite <- (pr_asleep _ _ _ Hp'), world_eta.
    apply wp_settle_inl; [by rewrite (pr_asleep _ _ _ Hp')|]. rewrite <- Hf. apply failed_done; auto.
Qed.

(** A call that does not wait. *)
Lemma wp_short {A} base c s s1 i x ev (m : M cdcm_sem A) (g : A → option Z) (res : A → option Z) :
  prepared base s s1 → sem_list (tab s1) !! i = Some x →
  (ev = Up ∨ (∃ n, ev = UpN n) ∨ ev = Reset ∨ ev = Count ∨ (∃ t, ev = Try t ∧ asleep s !! t = None)) →
  (∀ d, section_of ev TASK_INTERRUPTIBLE d = match m d with Some (a, c') => Some (g a, c') | None => None end) →
  call_event c = Some ev → (∀ a, res a = call_result c s (g a)) →
  wp (on_sema (sema_addr x) m) (λ a q, call_done base c (user_sem x) s (res a) (mk_world q (asleep s))) (tab s1).
Proof.
  intros Hp Hi Hev Hm Hce Hres. pose proof (pr_asleep _ _ _ Hp) as Hsl.
  apply (wp_on_sema base s1 i x ev TASK_INTERRUPTIBLE Swait m g); [apply Hp|done| |done|].
  - destruct Hev as [->|[[n ->]|[->|[->|(t & -> & Ht)]]]]; cbn [event_ok]; try done; congruence.
  - intros a s' Ha Hst. replace (mk_world (tab s') (asleep s)) with s'; [by eapply stepped_done|].
    rewrite <- Hsl. replace (asleep s1) with (asleep s'); [by rewrite world_eta|]. rewrite Ha.
    by destruct Hev as [->|[[n ->]|[->|[->|(t & -> & Ht)]]]]; destruct (g a).
Qed.

Lemma wp_failed base c u s s1 : prepared base s s1 → call_event c = None ∨ entry_of u s1 = None →
  call_done base c u s (call_failed c) (mk_world (tab s1) (asleep s)).
Proof. intros Hp Hc. rewrite <- (pr_asleep _ _ _ Hp), world_eta. by apply failed_done. Qed.

Lemma wp_tswait base t u sig interval pending s :
  world_ok base s → asleep s !! t = None →
  wp (run_call (CTswait t u sig interval pending)) (call_done base (CTswait t u sig interval pending) u s) s.
Proof.
  intros Hw Ht. cbn [run_call]. set (c := CTswait t u sig interval pending). wp_step. apply wp_zoom. unfold tswait. cbv zeta.
  assert (Hp0 : prepared base s s) by by split.
  assert (Hev : call_event c = if u =? 0 then None else if interval =? 0 then Some (Try t) else if interval <? 0 then swait_event t sig pending
    else Some (Down t TASK_UNINTERRUPTIBLE (msecs_to_jiffies (u32 (s32 (10 * interval)))) pending)) by done.
  assert (Hf : call_failed c = Some (if u =? 0 then TSWAIT_TIMEDOUT else SYSERR)) by done.
  assert (Hres : ∀ r, call_result c s r = if interval =? 0 then r else wait_result (if interval <? 0 then Swait else Tswait) <$> r) by done.
  destruct (Z.eqb_spec u 0) as [->|Hu].
  { wp_step. rewrite world_eta. apply wp_settle_inl; [done|]. rewrite <- Hf. apply failed_done; [done|by left]. }
  wp_step. apply (wp_get_sema base); [done| |].
  - intros s1 Hp Hn. sema_null. apply wp_settle_inl; [done|]. rewrite <- Hf. apply wp_failed; auto.
  - intros s1 i x Hp Hi <- Hx. sema_addr. destruct (Z.eqb_spec interval 0) as [->|Hne].
    { wp_step. eapply wp_mono; [eapply (wp_short base c s s1 i x (Try t) _ Some Some)|]; try done.
      - do 4 right. by exists t.
      - cbv beta. intros r q Hd. wp_step. by apply wp_settle_inl. }
    destruct (Z.ltb_spec interval 0) as [Hlt|Hge]; [by apply wp_swait|].
    wp_step. sema_wait Hp Hi Ht Hev Hres.
Qed.

Lemma wp_resume base t rest pending s u :
  world_ok base s → call_enabled (CResume t rest pending) s → call_user (CResume t rest pending) s u →
  wp (run_call (CResume t rest pending)) (call_done base (CResume t rest pending) u s) s.
Proof.
  intros Hw (w & Ht & Hleft) (w' & x & Ht' & Hx & Ha). assert (w' = w) as -> by congruence.
  apply entry_of_in in Hx as (i & Hi & <-). cbn [run_call]. set (c := CResume t rest pending).
  wp_step. wp_step. cbv beta. wp_step. unfold lift_opt, wp at 1. rewrite Ht. cbn [fmap option_fmap option_map].
  wp_step. apply wp_zoom. unfold resume. wp_step. rewrite <- Ha.
  apply (wp_on_sema base s i x (Wake t rest pending false) (sl_state w) (sl_call w) _ id); [done|done| | |].
  - exists w. auto.
  - intros d. cbn [section_of]. by destruct (down_wakes false t (sl_state w) rest pending false d) as [[]|].
  - intros r s' Hsl Hst. wp_step.
    assert (Hd : call_done base c (user_sem x) s (wait_result (sl_call w) <$> r) s').
    { eapply stepped_done; [by split|done|done|]. cbn [call_result c]. by rewrite Ht. }
    destruct r as [v|]; cbn [id tasks_after outcome settle] in *; repeat wp_step; cbn [tab asleep sl_addr]; rewrite <- Hsl, world_eta; exact Hd.
Qed.

Lemma call_runs base c u s :
  world_ok base s → call_enabled c s → call_user c s u → wp (run_call c) (call_done base c u s) s.
Proof.
  intros Hw Hen Hu. assert (Hp0 : prepared base s s) by by split.
  destruct c as [t v sig pending|t v sig interval pending|t rest pending|v|v n|v|v];
    try (cbn [call_user] in Hu; subst u); try (by apply wp_resume).
  - cbn [run_call]. wp_step. apply wp_zoom. by apply (wp_swait base _ t v sig pending s s).
  - by apply wp_tswait.
  - cbn [run_call]. wp_step. apply wp_zoom. unfold ssignal. wp_step. apply (wp_get_sema base); [done| |].
    + intros s1 Hp Hn. sema_null. apply (wp_failed base (CSsignal v)); auto.
    + intros s1 i x Hp Hi <- Hx. sema_addr. wp_step.
      eapply wp_mono; [eapply (wp_short base (CSsignal (user_sem x)) s s1 i x Up _ (λ _, None) (λ _, Some OK)); try done; auto|].
      * intros [] q Hd. by wp_steps.
  - cbn [run_call]. wp_step. apply wp_zoom. unfold ssignaln. wp_step. apply (wp_get_sema base); [done| |].
    + intros s1 Hp Hn. sema_null. apply (wp_failed base (CSsignaln v n)); auto.
    + intros s1 i x Hp Hi <- Hx. sema_addr. wp_step.
      eapply wp_mono; [eapply (wp_short base (CSsignaln (user_sem x) n) s s1 i x (UpN n) _ (λ _, None) (λ _, Some OK)); try done; eauto|].
      * intros [] q Hd. by wp_steps.
  - cbn [run_call]. wp_step. apply wp_zoom. unfold sreset. wp_step. apply (wp_get_sema base); [done| |].
    + intros s1 Hp Hn. sema_null. apply (wp_failed base (CSreset v)); auto.
    + intros s1 i x Hp Hi <- Hx. sema_addr.
      eapply wp_mono; [eapply (wp_short base (CSreset (user_sem x)) s s1 i x Reset _ (λ _, None) (λ _, None)); try done; eauto|].
      * intros [] q Hd. by wp_steps.
  - cbn [run_call]. wp_step. apply wp_zoom. unfold scount. wp_step. apply (wp_get_sema base); [done| |].
    + intros s1 Hp Hn. sema_null. apply (wp_failed base (CScount v)); auto.
    + intros s1 i x Hp Hi <- Hx. sema_addr.
      eapply wp_mono; [eapply (wp_short base (CScount (user_sem x)) s s1 i x Count _ Some Some); try done; eauto|].
      * intros r q Hd. by wp_steps.
Qed.

(** * Histories *)

Definition world_init (k : K) : world K := mk_world (mk_semas k []) ∅.

Inductive calls : list call → world K → list (option Z) → world K → Prop :=
  | calls_nil s : calls [] s [] s
  | calls_cons c cs s r s' rs s'' :
      call_enabled c s → run_call c s = Some (r, s') → calls cs s' rs s'' → calls (c :: cs) s (r :: rs) s''.

Lemma world_init_ok k : world_ok (live k) (world_init k).
Proof.
  split; cbn [world_init tab sem_list kern asleep]; [constructor|constructor| | |done|].
  - intros x Hx. by apply elem_of_nil in Hx.
  - unfold blocks. multiset_solver.
  - intros x Hx. by apply elem_of_nil in Hx.
Qed.

Lemma call_user_exists base c s : world_ok base s → call_enabled c s → ∃ u, call_user c s u.
Proof.
  intros Hw Hen. destruct c as [t u sig pending|t u sig interval pending|t rest pending|u|u n|u|u]; try by exists u.
  destruct Hen as (w & Hw1 & _). pose proof (wo_asleep _ _ Hw _ _ Hw1) as Hin.
  apply list_elem_of_fmap in Hin as (x & Ha & Hx). apply list_elem_of_lookup in Hx as [i Hi].
  exists (user_sem x), w, x. split; [done|]. split; [|done]. by apply (entry_of_key s i x (wo_users _ _ Hw)).
Qed.

Lemma run_snoc b evs (s : sys) rs (s' : sys) ev r (s'' : sys) :
  run b evs s rs s' → enabled ev s' = true → run_event b ev s' = Some (r, s'') → run b (evs ++ [ev]) s (rs ++ [r]) s''.
Proof.
  induction 1 as [s|ev0 evs s r0 s1 rs s2 Hen0 E0 _ IH]; intros Hen E.
  - eapply run_cons; [done|done|apply run_nil].
  - eapply run_cons; [done|done|]. by apply IH.
Qed.

(** A semaphore of the machine, as a history of events leads to it. *)
Definition reached (u : Z) (s : world K) : Prop :=
  ∃ evs rs, run false evs (sys_init (user_int u)) rs (view u s).

Lemma calls_reach base cs s rs s' :
  calls cs s rs s' → world_ok base s → (∀ u, reached u s) → world_ok base s' ∧ ∀ u, reached u s'.
Proof.
  induction 1 as [s|c cs s r s1 rs s2 Hen E _ IH]; intros Hw Hr; [done|].
  destruct (call_user_exists base c s Hw Hen) as [u Hu]. pose proof (call_runs base c u s Hw Hen Hu) as Hrun.
  unfold wp in Hrun. rewrite E in Hrun. destruct Hrun as [Hw1 Hother Hdone]. apply IH; [done|].
  intros v. destruct (decide (v = u)) as [->|Hne]; [|unfold reached; rewrite Hother by done; apply Hr].
  destruct Hdone as [(_ & Hv & _)|(ev & er & _ & Hev & Hrun & _)]; [unfold reached; rewrite Hv; apply Hr|].
  destruct (Hr u) as (evs & ers & Hru). exists (evs ++ [ev]), (ers ++ [er]). by eapply run_snoc.
Qed.

(** ** Cleanup *)

Lemma cleanup_ok base l : ∀ k sl, NoDup (sema_addr <$> l) → live k = blocks l ⊎ base →
  ∃ k', mfold (λ _ x, modify (λ s : semas K, s <| sem_list := filter (λ y, sema_addr y ≠ sema_addr x) (sem_list s) |>
                                     <| kern := kfree (sema_addr x) (kern s) |>)) () l (mk_semas k sl) =
    Some ((), mk_semas k' (filter (λ y, sema_addr y ∉ sema_addr <$> l) sl)) ∧ live k' = base.
Proof.
  induction l as [|x l IH]; intros k sl Hn Hl.
  - exists k. split; [|rewrite Hl; unfold blocks; multiset_solver]. cbn [mfold fmap list_fmap].
    assert (Hf : filter (λ y : cdcm_semaphore, sema_addr y ∉ []) sl = sl).
    { clear. induction sl as [|y sl IH]; [done|]. rewrite filter_cons, decide_True by apply not_elem_of_nil. by rewrite IH. }
    by rewrite Hf.
  - cbn [fmap list_fmap] in Hn. apply list.NoDup_cons in Hn as [Hx Hn].
    destruct (IH (kfree (sema_addr x) k) (filter (λ y, sema_addr y ≠ sema_addr x) sl) Hn) as (k' & E & Hk').
    + rewrite kfree_live, Hl. unfold blocks. cbn [fmap list_fmap list_to_set_disj]. multiset_solver.
    + exists k'. split; [|done]. cbn [mfold]. unfold modify, mbind, M_bind. cbn. unfold modify in E. cbn in E. rewrite E.
      do 3 f_equal. rewrite list_filter_filter. apply list_filter_iff. intros y. cbn [fmap list_fmap].
      rewrite not_elem_of_cons. tauto.
Qed.

(** C19 The semaphore calls implement one counting semaphore per user pointer.  In
    every history from the load of the module on: what is behind a pointer is always
    what some history of events of the semaphore machine leads to, from the value of the user's
    integer; a call that can happen does not get stuck, runs at most one event,
    on the semaphore of its own pointer, returns what the call makes of its
    result, and leaves the semaphores of all others alone. *)
Theorem sema_refines (k : K) (cs : list call) (rs : list (option Z)) (s : world K) :
  calls cs (world_init k) rs s →
  world_ok (live k) s ∧ (∀ u, reached u s) ∧
  ∀ c, call_enabled c s → ∃ u r s', call_user c s u ∧ run_call c s = Some (r, s') ∧ call_done (live k) c u s r s'.
Proof.
  intros Hcs. destruct (calls_reach (live k) _ _ _ _ Hcs (world_init_ok k)) as [Hw Hr].
  { intros u. exists [], []. apply run_nil. }
  split; [done|]. split; [done|]. intros c Hen. destruct (call_user_exists _ c s Hw Hen) as [u Hu].
  pose proof (call_runs _ c u s Hw Hen Hu) as Hrun. apply wp_run in Hrun as (r & s' & E & Hd). by exists u, r, s'.
Qed.

(** The cleanup at the end gives back the memory of every semaphore, and nothing
    else, whatever was called before. *)
Theorem sema_cleanup_exact (k : K) (cs : list call) (rs : list (option Z)) (s : world K) :
  calls cs (world_init k) rs s →
  ∃ t, cdcm_sema_cleanup_all (tab s) = Some ((), t) ∧ sem_list t = [] ∧ live (kern t) = live k.
Proof.
  intros Hcs. destruct (calls_reach (live k) _ _ _ _ Hcs (world_init_ok k)) as [Hw _].
  { intros u. exists [], []. apply run_nil. }
  destruct (cleanup_ok (live k) _ (kern (tab s)) (sem_list (tab s)) (wo_addrs _ _ Hw) (wo_live _ _ Hw)) as (k' & E & Hk).
  exists (mk_semas k' (filter (λ y, sema_addr y ∉ sema_addr <$> sem_list (tab s)) (sem_list (tab s)))). split; [|split; [|exact Hk]].
  - unfold cdcm_sema_cleanup_all, gets, mbind at 1, M_bind at 1. destruct (tab s) as [k1 l]. exact E.
  - cbn [sem_list]. apply elem_of_nil_inv. intros y [Hn Hy]%list_elem_of_filter. apply Hn. apply list_elem_of_fmap. by exists y.
Qed.
End spec.

(** * Examples *)

(** Two semaphores, of the users' integers 1 and 0; a task waits on the second and is
    woken up. *)
Definition sema_calls : list call :=
  [CSwait 1 100 SEM_SIGIGNORE false; CTswait 2 200 SEM_SIGABORT 5 false; CScount 200; CSsignal 200;
   CResume 2 30 false; CSsignaln 100 3; CTswait 3 300 SEM_SIGABORT 0 false].
Definition sema_results : list (option Z) := [Some 0; None; Some (-1); Some 0; Some 0; Some 0; Some 1].
Definition user_ints (u : Z) : Z := if u =? 100 then 1 else 0.

Lemma sema_run : ∃ s, calls id user_ints sema_calls (world_init SimKernel.boot) sema_results s.
Proof.
  eexists. repeat (eapply calls_cons; [|vm_compute; reflexivity|]); try apply calls_nil; try done; try (vm_compute; done).
  vm_compute. eexists. split; [reflexivity|]. split; discriminate.
Defined.

Lemma sema_refines_witness : ∃ s, world_ok (live SimKernel.boot) s ∧ reached user_ints 200 s.
Proof.
  destruct sema_run as [s Hs]. exists s.
  destruct (sema_refines id user_ints SimKernel.boot sema_calls sema_results s Hs) as (Hw & Hr & _). split; [exact Hw|apply Hr].
Defined.

Lemma sema_cleanup_exact_witness :
  ∃ s t, cdcm_sema_cleanup_all (tab s) = Some ((), t) ∧ sem_list t = [] ∧ live (kern t) = live SimKernel.boot.
Proof.
  destruct sema_run as [s Hs]. exists s. exact (sema_cleanup_exact id user_ints SimKernel.boot sema_calls sema_results s Hs).
Defined.
