(* ===== verification/CdcmTimers.v ===== *)
(** The timeouts of the LynxOS emulation, [timeout], [cancel_timeout] and
    [cdcm_timer_cb] of [src/cdcm/cdcmTime.c], and their refinement of a table from
    ids to what is to be called.

    The kernel keeps the armed timers in a queue.  A structure that is linked into
    it must not be set up and linked again: this is stuck. *)
From S2P Require Import Prelude.

Local Open Scope Z_scope.

Definition MAX_CDCM_TIMERS : Z := 16.
Definition SYSERR : Z := -1.
Definition OK : Z := 0.

(** * Data *)

(** [struct _cdcmTimer]; of [ct_timer], the time it expires at. *)
Record cdcmt_t := mk_cdcmt {
  ct_on : Z;
  ct_expires : Z;
  ct_uf : Z;
  ct_arg : Z
}.

(** The table [cdcm_timer] of [struct _cdcmStatics], and the kernel's queue, as
    the indices of the timers that are linked into it. *)
Record timers := mk_timers {
  cdcm_timer : list cdcmt_t;
  queue : gset nat
}.

Notation TM := (M timers).

(** * Operations *)

Definition add_timer (tid : nat) : TM () :=
  q ← gets queue;
  if bool_decide (tid ∈ q) then stuck else modify (λ s : timers, s <| queue := {[tid]} ∪ q |>).

Definition del_timer (tid : nat) : TM () := modify (λ s : timers, s <| queue := queue s ∖ {[tid]} |>).

(** An access to [cdcm_timer[tid]]. *)
Definition timer_at (tid : nat) : TM cdcmt_t := l ← gets cdcm_timer; lift_opt (l !! tid).
Definition timer_set (tid : nat) (t : cdcmt_t) : TM () :=
  timer_at tid;; modify (λ s : timers, s <| cdcm_timer := <[tid := t]> (cdcm_timer s) |>).

Definition timer_off (tid : nat) : TM () :=
  t ← timer_at tid; timer_set tid (mk_cdcmt 0 (ct_expires t) (ct_uf t) (ct_arg t)).

(** The callback: what it calls, with which argument. *)
Definition cdcm_timer_cb (tid : nat) : TM (Z * Z) :=
  del_timer tid;; timer_off tid;;
  t ← timer_at tid; mret (ct_uf t, ct_arg t).

Section clock.
(** [msecs_to_jiffies], of an [unsigned int]. *)
Variable msecs_to_jiffies : Z → Z.

Definition cdcm_timer_init (pid jiffies func arg interval : Z) (tid : nat) : TM () :=
  timer_set tid (mk_cdcmt pid (u64 (jiffies + msecs_to_jiffies (u32 (s32 (10 * interval))))) func arg).

(** The loop of [timeout]: [n] slots to go, from [tid] on. *)
Fixpoint timeout_loop (pid jiffies func arg interval : Z) (n tid : nat) : TM Z :=
  match n with
  | O => mret SYSERR
  | S n =>
    t ← timer_at tid;
    if bool_decide (ct_on t ≠ 0) then timeout_loop pid jiffies func arg interval n (S tid)
    else
      cdcm_timer_init pid jiffies func arg interval tid;;
      add_timer tid;;
      mret (Z.of_nat tid + 1)
  end.

(** [timeout], called by the task [pid] at the time [jiffies]. *)
Definition timeout (pid jiffies func arg interval : Z) : TM Z :=
  timeout_loop pid jiffies func arg interval (Z.to_nat MAX_CDCM_TIMERS) 0.

Definition cancel_timeout (id : Z) : TM Z :=
  let tid := s32 (id - 1) in
  if (tid <? 0) || (MAX_CDCM_TIMERS <=? tid) then mret SYSERR
  else
    t ← timer_at (Z.to_nat tid);
    if ct_on t =? 0 then mret OK
    else del_timer (Z.to_nat tid);; timer_off (Z.to_nat tid);; mret OK.

(** * A history

    Calls, and the kernel's timer interrupt for an armed timer, which unlinks it
    and calls the callback. *)
Inductive tick :=
  | Timeout (pid jiffies func arg interval : Z)
  | Cancel (id : Z)
  | Expire (tid : nat).

Definition tick_enabled (e : tick) (s : timers) : bool :=
  match e with Expire tid => bool_decide (tid ∈ queue s) | _ => true end.

(** The result of the call, or what is called. *)
Definition run_tick (e : tick) : TM (Z + Z * Z) :=
  match e with
  | Timeout pid jiffies func arg interval => r ← timeout pid jiffies func arg interval; mret (inl r)
  | Cancel id => r ← cancel_timeout id; mret (inl r)
  | Expire tid => del_timer tid;; c ← cdcm_timer_cb tid; mret (inr c)
  end.

Inductive ticks : list tick → timers → list (Z + Z * Z) → timers → Prop :=
  | ticks_nil s : ticks [] s [] s
  | ticks_cons e es s r s' rs s'' :
      tick_enabled e s = true → run_tick e s = Some (r, s') → ticks es s' rs s'' →
      ticks (e :: es) s (r :: rs) s''.
End clock.

(** The module is loaded with the table zeroed. *)
Definition timers_init : timers := mk_timers (replicate (Z.to_nat MAX_CDCM_TIMERS) (mk_cdcmt 0 0 0 0)) ∅.

(** * The specification

    A partial map from the slots to what is to be called. *)
Notation table := (gmap nat (Z * Z)).

(** The lowest slot of [n] from [tid] on that is free. *)
Fixpoint lowest (m : table) (n tid : nat) : option nat :=
  match n with
  | O => None
  | S n => match m !! tid with Some _ => lowest m n (S tid) | None => Some tid end
  end.

Definition spec_tick (e : tick) (m : table) : (Z + Z * Z) * table :=
  match e with
  | Timeout _ _ func arg _ =>
    match lowest m 16 0 with
    | Some tid => (inl (Z.of_nat tid + 1), <[tid := (func, arg)]> m)
    | None => (inl SYSERR, m)
    end
  | Cancel id => if decide (1 <= id <= 16) then (inl OK, delete (Z.to_nat (id - 1)) m) else (inl SYSERR, m)
  | Expire tid => (inr (default (0, 0) (m !! tid)), delete tid m)
  end.

Fixpoint spec_ticks (es : list tick) (m : table) : list (Z + Z * Z) * table :=
  match es with
  | [] => ([], m)
  | e :: es => let '(r, m) := spec_tick e m in let '(rs, m) := spec_ticks es m in (r :: rs, m)
  end.

(** What the specification keeps of the state: the slots whose [ct_on] is set,
    which are those in the kernel's queue. *)
Record represents (s : timers) (m : table) : Prop := {
  re_length : length (cdcm_timer s) = 16%nat;
  re_queue : dom m = queue s;
  re_slot : ∀ tid t, cdcm_timer s !! tid = Some t →
    m !! tid = if ct_on t =? 0 then None else Some (ct_uf t, ct_arg t);
  re_bound : ∀ tid, (16 <= tid)%nat → m !! tid = None
}.

(** The caller is a task, not the idle one, and the ids are of type [int]. *)
Definition tick_ok (e : tick) : Prop :=
  match e with
  | Timeout pid _ _ _ _ => pid ≠ 0
  | Cancel id => - 2 ^ 31 <= id < 2 ^ 31
  | Expire _ => True
  end.

(** * The operations implement the specification *)

Lemma represents_init : represents timers_init ∅.
Proof.
  split; [done|by rewrite dom_empty_L| |done].
  intros tid t Ht. rewrite lookup_empty. unfold timers_init in Ht. cbn [cdcm_timer] in Ht.
  by apply lookup_replicate in Ht as [-> _].
Qed.

Lemma timer_at_run s tid t : cdcm_timer s !! tid = Some t → timer_at tid s = Some (t, s).
Proof. intros Ht. unfold timer_at, gets, lift_opt, mbind, M_bind. by rewrite Ht. Qed.

Lemma timer_set_run s tid t t' : cdcm_timer s !! tid = Some t' →
  timer_set tid t s = Some ((), s <| cdcm_timer := <[tid := t]> (cdcm_timer s) |>).
Proof. intros Ht. unfold timer_set, mbind, M_bind. by rewrite (timer_at_run _ _ _ Ht). Qed.

Lemma timer_off_run s tid t : cdcm_timer s !! tid = Some t →
  timer_off tid s = Some ((), s <| cdcm_timer := <[tid := mk_cdcmt 0 (ct_expires t) (ct_uf t) (ct_arg t)]> (cdcm_timer s) |>).
Proof. intros Ht. unfold timer_off, mbind, M_bind. rewrite (timer_at_run _ _ _ Ht). by apply (timer_set_run _ _ _ t). Qed.

Lemma re_lookup s m tid : represents s m → (tid < 16)%nat → ∃ t, cdcm_timer s !! tid = Some t.
Proof. intros Hr Ht. apply lookup_lt_is_Some. by rewrite (re_length _ _ Hr). Qed.

Lemma represents_arm s m tid t : represents s m → (tid < 16)%nat → ct_on t ≠ 0 →
  represents (mk_timers (<[tid := t]> (cdcm_timer s)) ({[tid]} ∪ queue s)) (<[tid := (ct_uf t, ct_arg t)]> m).
Proof.
  intros [Hl Hq Hs Hb] Ht Hon. split; cbn [cdcm_timer queue].
  - by rewrite length_insert.
  - by rewrite dom_insert_L, Hq.
  - intros u v Hv. destruct (decide (u = tid)) as [->|Hne].
    + rewrite list_lookup_insert_eq in Hv by lia. injection Hv as <-. rewrite lookup_insert_eq.
      by rewrite (proj2 (Z.eqb_neq _ _) Hon).
    + rewrite list_lookup_insert_ne in Hv by done. rewrite lookup_insert_ne by done. by apply Hs.
  - intros u Hu. rewrite lookup_insert_ne by lia. by apply Hb.
Qed.

Lemma represents_disarm s m tid t : represents s m → (tid < 16)%nat → ct_on t = 0 →
  represents (mk_timers (<[tid := t]> (cdcm_timer s)) (queue s ∖ {[tid]})) (delete tid m).
Proof.
  intros [Hl Hq Hs Hb] Ht Hon. split; cbn [cdcm_timer queue].
  - by rewrite length_insert.
  - by rewrite dom_delete_L, Hq.
  - intros u v Hv. destruct (decide (u = tid)) as [->|Hne].
    + rewrite list_lookup_insert_eq in Hv by lia. injection Hv as <-. by rewrite lookup_delete_eq, Hon.
    + rewrite list_lookup_insert_ne in Hv by done. rewrite lookup_delete_ne by done. by apply Hs.
  - intros u Hu. apply lookup_delete_None. right. by apply Hb.
Qed.

Section refinement.
Variable msecs_to_jiffies : Z → Z.
Implicit Types m : table.

Definition new_timer (pid jiffies func arg interval : Z) : cdcmt_t :=
  mk_cdcmt pid (u64 (jiffies + msecs_to_jiffies (u32 (s32 (10 * interval))))) func arg.

Lemma timeout_loop_ok pid jiffies func arg interval s m : represents s m → ∀ n tid, (tid + n <= 16)%nat →
  timeout_loop msecs_to_jiffies pid jiffies func arg interval n tid s =
  match lowest m n tid with
  | Some u => Some (Z.of_nat u + 1,
      mk_timers (<[u := new_timer pid jiffies func arg interval]> (cdcm_timer s)) ({[u]} ∪ queue s))
  | None => Some (SYSERR, s)
  end.
Proof.
  intros Hr. induction n as [|n IH]; intros tid Hn; [done|]. cbn [timeout_loop lowest].
  destruct (re_lookup s m tid Hr) as [t Ht]; [lia|].
  unfold mbind at 1, M_bind at 1. rewrite (timer_at_run _ _ _ Ht).
  rewrite (re_slot _ _ Hr _ _ Ht). destruct (Z.eqb_spec (ct_on t) 0) as [Hon|Hon].
  - rewrite bool_decide_eq_false_2 by auto. unfold cdcm_timer_init, mbind, M_bind.
    rewrite (timer_set_run _ _ _ t Ht). unfold add_timer, gets, mbind, M_bind.
    assert (Hq : tid ∉ queue s).
    { rewrite <- (re_queue _ _ Hr), elem_of_dom, (re_slot _ _ Hr _ _ Ht), Hon. by intros [? [=]]. }
    destruct s as [l q]. simpl in *. by rewrite bool_decide_eq_false_2.
  - rewrite bool_decide_eq_true_2 by done. apply IH. lia.
Qed.

Lemma lowest_free m : ∀ n tid u, lowest m n tid = Some u → (tid <= u < tid + n)%nat ∧ m !! u = None.
Proof.
  induction n as [|n IH]; intros tid u Hu; [done|]. cbn [lowest] in Hu. destruct (m !! tid) eqn:Hm.
  - apply IH in Hu as [? ?]. split; [lia|done].
  - injection Hu as <-. split; [lia|done].
Qed.

Lemma tick_refines e s m : represents s m → tick_ok e → tick_enabled e s = true →
  ∃ s', run_tick msecs_to_jiffies e s = Some ((spec_tick e m).1, s') ∧ represents s' (spec_tick e m).2.
Proof.
  intros Hr Hok Hen. destruct e as [pid jiffies func arg interval|id|tid]; cbn [run_tick spec_tick].
  - unfold timeout, mbind, M_bind. change (Z.to_nat MAX_CDCM_TIMERS) with 16%nat.
    rewrite (timeout_loop_ok _ _ _ _ _ s m Hr) by lia.
    destruct (lowest m 16 0) as [u|] eqn:Hl; [|by eexists].
    apply lowest_free in Hl as [Hu _]. eexists. split; [done|].
    apply (represents_arm s m u (new_timer pid jiffies func arg interval)); [done|lia|exact Hok].
  - unfold cancel_timeout. cbv zeta. simpl in Hok. destruct (decide (1 <= id <= 16)) as [Hid|Hid].
    + rewrite (s32_small (id - 1)) by lia. change MAX_CDCM_TIMERS with 16.
      rewrite (proj2 (Z.ltb_ge _ _)), (proj2 (Z.leb_gt _ _)) by lia. cbn [orb].
      destruct (re_lookup s m (Z.to_nat (id - 1)) Hr) as [t Ht]; [lia|].
      unfold mbind, M_bind. rewrite (timer_at_run _ _ _ Ht). pose proof (re_slot _ _ Hr _ _ Ht) as Hs.
      destruct (Z.eqb_spec (ct_on t) 0) as [Hon|Hon].
      * eexists. split; [done|]. by rewrite delete_id.
      * unfold del_timer, modify. rewrite (timer_off_run _ _ t) by (by destruct s). eexists. split; [done|].
        destruct s as [l q]. by apply (represents_disarm (mk_timers l q)); [|lia|].
    + change MAX_CDCM_TIMERS with 16.
      assert (Ho : (s32 (id - 1) <? 0) || (16 <=? s32 (id - 1)) = true).
      { apply orb_true_iff. destruct (decide (id = - 2 ^ 31)) as [->|Hne]; [by right|].
        rewrite s32_small by lia. destruct (decide (id <= 0)); [left|right]; lia. }
      rewrite Ho. by eexists.
  - cbn [tick_enabled] in Hen. apply bool_decide_eq_true in Hen.
    assert (Hm : is_Some (m !! tid)) by (by apply elem_of_dom; rewrite (re_queue _ _ Hr)).
    assert (Hlt : (tid < 16)%nat).
    { destruct (decide (16 <= tid)%nat) as [Hge|]; [|lia]. rewrite (re_bound _ _ Hr) in Hm by done. by destruct Hm. }
    destruct (re_lookup s m tid Hr Hlt) as [t Ht]. pose proof (re_slot _ _ Hr _ _ Ht) as Hs.
    unfold cdcm_timer_cb, del_timer, modify, mbind, M_bind. rewrite (timer_off_run _ _ t) by (by destruct s).
    destruct s as [l q]. cbn [cdcm_timer] in *.
    pose proof (lookup_lt_Some _ _ _ Ht) as Hll. erewrite timer_at_run by (cbn [cdcm_timer]; by apply list_lookup_insert_eq).
    rewrite Hs in Hm. destruct (ct_on t =? 0); [by destruct Hm|]. rewrite Hs. eexists. split; [done|].
    simpl. rewrite difference_difference_l_L, union_idemp_L. by apply (represents_disarm (mk_timers l q)).
Qed.
End refinement.

Lemma ticks_refine mj es s rs s' m : ticks mj es s rs s' → represents s m → Forall tick_ok es →
  ∃ m', spec_ticks es m = (rs, m') ∧ represents s' m'.
Proof.
  intros Ht. revert m. induction Ht as [s|e es s r s' rs s'' Hen E _ IH]; intros m Hr Hok; [by exists m|].
  apply Forall_cons in Hok as [Hok1 Hok2]. destruct (tick_refines mj e s m Hr Hok1 Hen) as (s1 & E1 & Hr1).
  rewrite E in E1. injection E1 as -> ->. destruct (IH _ Hr1 Hok2) as (m' & Hm & Hr').
  exists m'. split; [|done]. cbn [spec_ticks]. destruct (spec_tick e m) as [r m1]. simpl in Hm. by rewrite Hm.
Qed.

(** A free slot of the specification before which nothing is free, whose timer is in the
    queue although [ct_on] is 0. *)
Lemma timeout_loop_lost mj pid jiffies func arg interval s (m : table) u (t : cdcmt_t) :
  (∀ v, v < u → ∃ w, cdcm_timer s !! v = Some w ∧ (m !! v = None ↔ ct_on w = 0%Z))%nat →
  cdcm_timer s !! u = Some t → ct_on t = 0 → u ∈ queue s →
  ∀ n tid, lowest m n tid = Some u → timeout_loop mj pid jiffies func arg interval n tid s = None.
Proof.
  intros Hs Ht Hon Hq. induction n as [|n IH]; intros tid Hl; [done|]. cbn [timeout_loop lowest] in *.
  unfold mbind at 1, M_bind at 1. destruct (m !! tid) as [c|] eqn:Hm.
  - pose proof (lowest_free _ _ _ _ Hl) as [Hb _]. destruct (Hs tid) as (w & Hw & Hiff); [lia|].
    rewrite (timer_at_run _ _ _ Hw), bool_decide_eq_true_2; [by apply IH|]. intros Hw0. rewrite Hm in Hiff. naive_solver.
  - injection Hl as <-. rewrite (timer_at_run _ _ _ Ht), bool_decide_eq_false_2 by auto.
    unfold cdcm_timer_init, mbind, M_bind. rewrite (timer_set_run _ _ _ t Ht). unfold add_timer, gets, mbind, M_bind.
    destruct s as [l q]. simpl in *. by rewrite bool_decide_eq_true_2.
Qed.

Lemma re_lookup_slot s (m : table) u : represents s m → (u < 16)%nat →
  ∃ w, cdcm_timer s !! u = Some w ∧ (m !! u = None ↔ ct_on w = 0).
Proof.
  intros Hr Hu. destruct (re_lookup s m u Hr Hu) as [t Ht]. exists t. split; [done|].
  rewrite (re_slot _ _ Hr _ _ Ht). destruct (Z.eqb_spec (ct_on t) 0); naive_solver.
Qed.


(** [timeout] marks a slot as taken with the pid of the caller, which is 0 when it
    runs in an interrupt or a timer callback on an idle processor.  Then it returns an id
    and arms the timer, but the slot looks free: cancelling the id reports success and leaves the
    timer armed, and the next call of [timeout] sets up a timer that is in the
    kernel's queue. *)
Theorem idle_timeout_lost (msecs_to_jiffies : Z → Z) (s : timers) (m : table) (tid : nat)
    (jiffies func arg interval : Z) :
  represents s m → lowest m 16 0 = Some tid →
  ∃ s', timeout msecs_to_jiffies 0 jiffies func arg interval s = Some (Z.of_nat tid + 1, s') ∧
    tid ∈ queue s' ∧ cancel_timeout (Z.of_nat tid + 1) s' = Some (OK, s') ∧
    ∀ pid jiffies' func' arg' interval', timeout msecs_to_jiffies pid jiffies' func' arg' interval' s' = None.
Proof.
  intros Hr Hl. pose proof (lowest_free _ _ _ _ Hl) as [Hb _]. unfold timeout. change (Z.to_nat MAX_CDCM_TIMERS) with 16%nat.
  rewrite (timeout_loop_ok _ _ _ _ _ _ s m Hr) by lia. rewrite Hl. eexists. split; [done|].
  set (t := new_timer _ _ _ _ _ _). set (s' := mk_timers _ _).
  assert (Ht : cdcm_timer s' !! tid = Some t).
  { apply list_lookup_insert_eq. rewrite (re_length _ _ Hr). lia. }
  split; [cbn [queue s']; set_solver|]. split.
  - unfold cancel_timeout. cbv zeta. rewrite (s32_small (Z.of_nat tid + 1 - 1)) by lia. change MAX_CDCM_TIMERS with 16.
    rewrite (proj2 (Z.ltb_ge _ _)), (proj2 (Z.leb_gt _ _)) by lia. cbn [orb].
    replace (Z.to_nat (Z.of_nat tid + 1 - 1)) with tid by lia.
    unfold mbind, M_bind. by rewrite (timer_at_run _ _ _ Ht).
  - intros pid jiffies' func' arg' interval'.
    apply (timeout_loop_lost _ _ _ _ _ _ s' m tid t); [|done|done|cbn [queue s']; set_solver|done].
    intros u Hu. cbn [cdcm_timer s']. rewrite list_lookup_insert_ne by lia. apply (re_lookup_slot s m u Hr). lia.
Qed.

(** * Examples *)

Definition tick_events : list tick :=
  [Timeout 7 100 1000 1 5; Timeout 8 100 2000 2 6; Expire 0; Timeout 7 110 3000 3 (-1); Cancel 2; Cancel 17].

Definition tick_results : list (Z + Z * Z) := [inl 1; inl 2; inr (1000, 1); inl 1; inl 0; inl (-1)].

Lemma tick_run : ∃ s, ticks id tick_events timers_init tick_results s.
Proof. eexists. repeat (eapply ticks_cons; [vm_compute; reflexivity|vm_compute; reflexivity|]). apply ticks_nil. Defined.


Lemma idle_timeout_lost_witness :
  ∃ s', timeout id 0 100 1000 1 5 timers_init = Some (1, s') ∧ timeout id 7 100 2000 2 5 s' = None.
Proof.
  destruct (idle_timeout_lost id timers_init ∅ 0 100 1000 1 5) as (s' & E & _ & _ & Hn).
  - apply represents_init.
  - reflexivity.
  - exists s'. split; [exact E|apply Hn].
Defined.
