(* ===== verification/CtrHard.v ===== *)
(** The timing receiver as its driver sees it ([src/ctr/driver/ctrhard.h],
    [ctrdrvr.h]): triggers and counter configurations, their packing into the words of
    the hardware tables, and the registers of the PLX bridge
    ([src/ctr/driver/ctrdrvr-pci.c]). *)
From S2P Require Import Prelude.

Local Open Scope Z_scope.

(** * Constants *)

Definition CtrDrvrCOUNTERS : Z := 9.
Definition CtrDrvrInterruptSOURCES : Z := 14.
Definition CtrDrvrRamTableSIZE : Z := 2048.
Definition CtrDrvrCLIENT_CONTEXTS : Z := 16.
Definition CtrDrvrMODULE_CONTEXTS : Z := 16.
Definition CtrDrvrCtimOBJECTS : Z := 2048.
Definition CtrDrvrPtimOBJECTS : Z := 2048.
Definition CtrDrvrCONNECTIONS : Z := 512.

Definition CtrDrvrCounterConfigON_ZERO_MASK : Z := 0xC0000000.
Definition CtrDrvrCounterConfigSTART_MASK : Z := 0x38000000.
Definition CtrDrvrCounterConfigMODE_MASK : Z := 0x06000000.
Definition CtrDrvrCounterConfigCLOCK_MASK : Z := 0x01C00000.
Definition CtrDrvrCounterConfigPULSE_WIDTH_MASK : Z := 0x003FFFFF.

Definition CtrDrvrTrigCONDITION_MASK : Z := 0xC0000000.
Definition CtrDrvrTrigMACHINE_MASK : Z := 0x38000000.
Definition CtrDrvrTrigCOUNTER_MASK : Z := 0x07800000.
Definition CtrDrvrTrigGROUP_NUMBER_MASK : Z := 0x007F0000.
Definition CtrDrvrTrigGROUP_VALUE_MASK : Z := 0x0000FFFF.

Definition CtrDrvrCntrCntrlREMOTE_MASK : Z := 0x3F.
Definition CtrDrvrCntrCntrlOUT_MASK : Z := 0x3FFC0.
Definition CtrDrvrCntrCntrlTTL_BAR : Z := 0x80000000.
Definition CtrDrvrRemoteEXEC : Z := 0x20.

Definition CtrDrvrCounter0 : Z := 0.
Definition CtrDrvrCounter1 : Z := 1.
Definition CtrDrvrCounter8 : Z := 8.
Definition CtrDrvrCounterOnZeroBUS : Z := 0x01.
Definition CtrDrvrCounterOnZeroOUT : Z := 0x02.
Definition CtrDrvrCounterStartNORMAL : Z := 0.
Definition CtrDrvrCounterSTARTS : Z := 8.
Definition CtrDrvrCounterModeNORMAL : Z := 0.
Definition CtrDrvrCounterMODES : Z := 4.
Definition CtrDrvrCounterClock1KHZ : Z := 0.
Definition CtrDrvrCounterCLOCKS : Z := 6.
Definition CtrDrvrMachineNONE : Z := 0.
Definition CtrDrvrTriggerConditionNO_CHECK : Z := 0.
Definition CtrDrvrInterruptMaskCOUNTER_0 : Z := 0x01.

Definition CtrDrvrCommandRESET : Z := 0x01.
Definition CtrDrvrCommandENABLE : Z := 0x02.
Definition CtrDrvrCommandDISABLE : Z := 0x04.
Definition CtrDrvrCommandLATCH_UTC : Z := 0x08.
Definition CtrDrvrCommandSET_UTC : Z := 0x10.
Definition CtrDrvrCommandSET_HPTDC : Z := 0x20.
Definition CtrDrvrCommandDebugHisOn : Z := 0x80.
Definition CtrDrvrCommandDebugHisOff : Z := 0x100.
Definition CtrDrvrCommandUtcPllOff : Z := 0x200.
Definition CtrDrvrCommandUtcPllOn : Z := 0x400.

Definition CtrDrvrHwStatusMASK : Z := 0x3FF.
Definition CtrDrvrStatusNO_LOST_INTERRUPTS : Z := 0x400.
Definition CtrDrvrStatusNO_BUS_ERROR : Z := 0x800.

(** * Data *)

(** [CtrDrvrConnectionClass] *)
Inductive CtrDrvrConnectionClass := HARD | CTIM | PTIM.

#[global] Instance connection_class_dec : EqDecision CtrDrvrConnectionClass.
Proof. solve_decision. Defined.

(** The union [CtrDrvrEventFrame], as its 32 bits on a little endian host. *)
Definition Header (frame : Z) : Z := Z.shiftr frame 24.
Definition set_Value (frame v : Z) : Z := Z.lor (Z.land frame 0xFFFF0000) (Z.land v 0xFFFF).

Record CtrDrvrTrigger := mk_trigger {
  Ctim : Z;
  Frame : Z;
  TriggerCondition : Z;
  Machine : Z;
  Counter : Z;
  GroupNumber : Z;
  GroupValue : Z
}.

Record CtrDrvrCounterConfiguration := mk_configuration {
  OnZero : Z;
  Start : Z;
  Mode : Z;
  Clock : Z;
  PulsWidth : Z;
  Delay : Z
}.

Record CtrDrvrHwTrigger := mk_hw_trigger { hw_Frame : Z; hw_Trigger : Z }.
Record CtrDrvrHwCounterConfiguration := mk_hw_configuration { hw_Config : Z; hw_Delay : Z }.

Record CtrDrvrCTime := mk_ctime { CTrain : Z; Second : Z; TicksHPTDC : Z }.

Record CtrDrvrCounterHistory := mk_history {
  hist_Index : Z;
  hist_Frame : Z;
  hist_TriggerTime : CtrDrvrCTime;
  hist_StartTime : CtrDrvrCTime;
  hist_OnZeroTime : CtrDrvrCTime
}.

Record CtrDrvrFpgaCounter := mk_fpga_counter {
  LockConfig : Z;
  LockHistory : Z;
  RemOutMask : Z;
  History : CtrDrvrCounterHistory;
  Config : CtrDrvrHwCounterConfiguration
}.

Record CtrDrvrConnection := mk_connection {
  conx_Module : Z;
  conx_EqpClass : CtrDrvrConnectionClass;
  conx_EqpNum : Z
}.

(** What a client reads. *)
Record CtrDrvrReadBuf := mk_read_buf {
  rb_Connection : CtrDrvrConnection;
  rb_TriggerNumber : Z;
  rb_InterruptNumber : Z;
  rb_Ctim : Z;
  rb_Frame : Z;
  rb_TriggerTime : CtrDrvrCTime;
  rb_StartTime : CtrDrvrCTime;
  rb_OnZeroTime : CtrDrvrCTime
}.

Definition zero_trigger : CtrDrvrTrigger := mk_trigger 0 0 0 0 0 0 0.
Definition zero_configuration : CtrDrvrCounterConfiguration := mk_configuration 0 0 0 0 0 0.
Definition zero_ctime : CtrDrvrCTime := mk_ctime 0 0 0.
Definition zero_read_buf : CtrDrvrReadBuf :=
  mk_read_buf (mk_connection 0 HARD 0) 0 0 0 0 zero_ctime zero_ctime zero_ctime.

(** * Packing *)

(** The loop of [AutoShiftLeft] and [AutoShiftRight] over an [int]: how far the
    mask was shifted, and the shifted mask. *)
Fixpoint shift_down (n : nat) (m i : Z) : Z * Z :=
  match n with
  | O => (i, m)
  | S n => if truthy (Z.land m 1) then (i, m) else shift_down n (Z.shiftr m 1) (i + 1)
  end.

Definition AutoShiftLeft (mask value : Z) : Z :=
  let '(i, _) := shift_down 32 (s32 mask) 0 in Z.land (u32 (Z.shiftl value i)) mask.

Definition AutoShiftRight (mask value : Z) : Z :=
  let '(i, m) := shift_down 32 (s32 mask) 0 in Z.land (Z.shiftr value i) (u32 m).

Definition TriggerToHard (strg : CtrDrvrTrigger) : CtrDrvrHwTrigger :=
  let trigger := AutoShiftLeft CtrDrvrTrigGROUP_VALUE_MASK (GroupValue strg) in
  let trigger := Z.lor trigger (AutoShiftLeft CtrDrvrTrigCONDITION_MASK (TriggerCondition strg)) in
  let trigger := Z.lor trigger (AutoShiftLeft CtrDrvrTrigMACHINE_MASK (Machine strg)) in
  let trigger := Z.lor trigger (AutoShiftLeft CtrDrvrTrigCOUNTER_MASK (Counter strg)) in
  let trigger := Z.lor trigger (AutoShiftLeft CtrDrvrTrigGROUP_NUMBER_MASK (GroupNumber strg)) in
  mk_hw_trigger (Frame strg) trigger.

(** The static result is never given a [Ctim]. *)
Definition HardToTrigger (htrg : CtrDrvrHwTrigger) : CtrDrvrTrigger :=
  let trigger := hw_Trigger htrg in
  mk_trigger 0 (hw_Frame htrg)
    (AutoShiftRight CtrDrvrTrigCONDITION_MASK trigger)
    (AutoShiftRight CtrDrvrTrigMACHINE_MASK trigger)
    (AutoShiftRight CtrDrvrTrigCOUNTER_MASK trigger)
    (AutoShiftRight CtrDrvrTrigGROUP_NUMBER_MASK trigger)
    (AutoShiftRight CtrDrvrTrigGROUP_VALUE_MASK trigger).

Definition ConfigToHard (scnf : CtrDrvrCounterConfiguration) : CtrDrvrHwCounterConfiguration :=
  let config := AutoShiftLeft CtrDrvrCounterConfigPULSE_WIDTH_MASK (PulsWidth scnf) in
  let config := Z.lor config (AutoShiftLeft CtrDrvrCounterConfigCLOCK_MASK (Clock scnf)) in
  let config := Z.lor config (AutoShiftLeft CtrDrvrCounterConfigMODE_MASK (Mode scnf)) in
  let config := Z.lor config (AutoShiftLeft CtrDrvrCounterConfigSTART_MASK (Start scnf)) in
  let config := Z.lor config (AutoShiftLeft CtrDrvrCounterConfigON_ZERO_MASK (OnZero scnf)) in
  mk_hw_configuration config (Delay scnf).

Definition HardToConfig (hcnf : CtrDrvrHwCounterConfiguration) : CtrDrvrCounterConfiguration :=
  let config := hw_Config hcnf in
  mk_configuration
    (AutoShiftRight CtrDrvrCounterConfigON_ZERO_MASK config)
    (AutoShiftRight CtrDrvrCounterConfigSTART_MASK config)
    (AutoShiftRight CtrDrvrCounterConfigMODE_MASK config)
    (AutoShiftRight CtrDrvrCounterConfigCLOCK_MASK config)
    (AutoShiftRight CtrDrvrCounterConfigPULSE_WIDTH_MASK config)
    (hw_Delay hcnf).

(** * The local registers of the PLX 9030 *)

Definition PLX9030_LAS0BA : Z := 0x14.
Definition PLX9030_INTCSR : Z := 0x4C.
Definition PLX9030_CNTRL : Z := 0x50.
Definition PLX9030_GPIOC : Z := 0x54.

(** [CtrDrvrEndian], without the value before [SetEndian]. *)
Inductive CtrDrvrEndian := CtrDrvrEndianBIG | CtrDrvrEndianLITTLE.

(** The bits of a long that [cp[i]] (size 1) or [sp[i]] (size 2) is on the host: where they
    start and how many they are. *)
Definition part_bits (e : CtrDrvrEndian) (addr size : Z) : Z * Z :=
  if size =? 1 then
    let i := 3 - Z.land addr 3 in
    (8 * match e with CtrDrvrEndianBIG => 3 - i | CtrDrvrEndianLITTLE => i end, 8)
  else if size =? 2 then
    let i := 1 - Z.land (Z.shiftr addr 1) 1 in
    (16 * match e with CtrDrvrEndianBIG => 1 - i | CtrDrvrEndianLITTLE => i end, 16)
  else (0, 32).

(** A long with a part replaced. *)
Definition set_part (r v : Z) (p : Z * Z) : Z :=
  Z.lor (Z.ldiff r (Z.shiftl (Z.ones p.2) p.1)) (Z.shiftl (Z.land v (Z.ones p.2)) p.1).

(** The registers by number; [ToLittleEndian] undoes what the access to a long does on
    a big endian host, so that [regval] is the value of the register on both. *)
Definition DrmLocalReadWrite (e : CtrDrvrEndian) (Local : option (gmap Z Z)) (addr value size : Z) (flag : bool) :
    option (gmap Z Z * Z) :=
  match Local with
  | None => None
  | Some regs =>
    let regnum := Z.shiftr addr 2 in
    let regval := default 0 (regs !! regnum) in
    let p := part_bits e addr size in
    if flag then Some (<[regnum := set_part regval value p]> regs, value)
    else Some (regs, bits p.1 p.2 regval)
  end.
