(* ===== verification/CtrHardProofs.v ===== *)
(** The packing of triggers and configurations is a bijection between values in range
    and 32-bit words; where a short access to the PLX bridge goes. *)
From S2P Require Import Prelude CtrHard.

Local Open Scope Z_scope.

(** * Fields *)

(** A mask of [w] bits from [i] on, and what the loop makes of it. *)
Record mask_of (mask i w m : Z) : Prop := {
  mo_shift : shift_down 32 (s32 mask) 0 = (i, m);
  mo_mask : mask = Z.shiftl (Z.ones w) i;
  mo_rest : Z.land (Z.ones (32 - i)) (u32 m) = Z.ones w;
  mo_range : 0 <= i ∧ 0 <= w ∧ i + w <= 32
}.

Ltac mask_tac := split; [vm_compute; reflexivity|vm_compute; reflexivity|vm_compute; reflexivity|lia].

Lemma mask_condition : mask_of CtrDrvrTrigCONDITION_MASK 30 2 (-1).
Proof. mask_tac. Qed.
Lemma mask_machine : mask_of CtrDrvrTrigMACHINE_MASK 27 3 7.
Proof. mask_tac. Qed.
Lemma mask_counter : mask_of CtrDrvrTrigCOUNTER_MASK 23 4 15.
Proof. mask_tac. Qed.
Lemma mask_group_number : mask_of CtrDrvrTrigGROUP_NUMBER_MASK 16 7 127.
Proof. mask_tac. Qed.
Lemma mask_group_value : mask_of CtrDrvrTrigGROUP_VALUE_MASK 0 16 65535.
Proof. mask_tac. Qed.
Lemma mask_mode : mask_of CtrDrvrCounterConfigMODE_MASK 25 2 3.
Proof. mask_tac. Qed.
Lemma mask_clock : mask_of CtrDrvrCounterConfigCLOCK_MASK 22 3 7.
Proof. mask_tac. Qed.
Lemma mask_pulse_width : mask_of CtrDrvrCounterConfigPULSE_WIDTH_MASK 0 22 4194303.
Proof. mask_tac. Qed.

Lemma shift_left_field mask i w m v : mask_of mask i w m → AutoShiftLeft mask v = Z.shiftl (v mod 2 ^ w) i.
Proof.
  intros [Hs Hm _ (Hi & Hw & Hr)]. unfold AutoShiftLeft. rewrite Hs. apply Z.bits_inj'. intros k Hk.
  unfold u32. rewrite Z.land_spec, Hm, !Z.shiftl_spec, Z.testbit_ones by lia.
  destruct (decide (k < i)) as [Hlt|Hge].
  - rewrite !(Z.testbit_neg_r _ (k - i)) by lia. destruct (Z.leb_spec 0 (k - i)); [lia|]. by rewrite andb_false_r.
  - destruct (Z.ltb_spec (k - i) w) as [Hkw|Hkw].
    + rewrite !Z.mod_pow2_bits_low, Z.shiftl_spec by lia.
      destruct (Z.leb_spec 0 (k - i)); [by rewrite andb_true_r|lia].
    + rewrite (Z.mod_pow2_bits_high v) by lia. by rewrite !andb_false_r.
Qed.

Lemma shift_right_field mask i w m x : mask_of mask i w m → is_u32 x → AutoShiftRight mask x = bits i w x.
Proof.
  intros [Hs _ Hm (Hi & Hw & Hr)] [Hx1 Hx2]. unfold AutoShiftRight, bits. rewrite Hs, <- Hm, Z.land_assoc. f_equal.
  rewrite Z.land_ones, Z.mod_small; [done| |lia]. rewrite Z.shiftr_div_pow2 by lia.
  split; [apply Z.div_pos; lia|]. apply Z.div_lt_upper_bound; [lia|]. rewrite <- Z.pow_add_r by lia.
  by replace (i + (32 - i)) with 32 by lia.
Qed.

Lemma bits_field_same i w v : 0 <= i → 0 <= w → bits i w (Z.shiftl (v mod 2 ^ w) i) = v mod 2 ^ w.
Proof.
  intros. unfold bits. rewrite Z.shiftr_shiftl_l, Z.sub_diag, Z.shiftl_0_r, Z.land_ones by lia. apply Z.mod_mod. lia.
Qed.

Lemma bits_field_other i w j u v : 0 <= i → 0 <= w → 0 <= j → 0 <= u → i + w <= j ∨ j + u <= i →
  bits i w (Z.shiftl (v mod 2 ^ u) j) = 0.
Proof.
  intros Hi Hw Hj Hu Hd. unfold bits. apply Z.bits_inj'. intros k Hk.
  rewrite Z.bits_0, Z.land_spec, Z.testbit_ones, Z.shiftr_spec, Z.shiftl_spec by lia.
  destruct (Z.ltb_spec k w) as [Hkw|Hkw]; [|by rewrite !andb_false_r].
  destruct Hd as [Hd|Hd]; [by rewrite Z.testbit_neg_r by lia|by rewrite Z.mod_pow2_bits_high by lia].
Qed.

Lemma field_range i w v : 0 <= i → 0 <= w → i + w <= 32 → is_u32 (Z.shiftl (v mod 2 ^ w) i).
Proof.
  intros Hi Hw Hr. unfold is_u32. rewrite Z.shiftl_mul_pow2 by lia.
  pose proof (Z.mod_pos_bound v (2 ^ w) ltac:(lia)) as Hv. split; [nia|].
  apply Z.lt_le_trans with (2 ^ w * 2 ^ i); [nia|]. rewrite <- Z.pow_add_r by lia. apply Z.pow_le_mono_r; lia.
Qed.

Lemma lor_u32 x y : is_u32 x → is_u32 y → is_u32 (Z.lor x y).
Proof. unfold is_u32. intros Hx Hy. by apply lor_range. Qed.

(** Putting a field of a word back where it was is masking the word. *)
Lemma field_back i w x : 0 <= i → 0 <= w → Z.shiftl (bits i w x mod 2 ^ w) i = Z.land x (Z.shiftl (Z.ones w) i).
Proof.
  intros Hi Hw. rewrite Z.mod_small by by apply bits_range. unfold bits. apply Z.bits_inj'. intros k Hk.
  rewrite Z.land_spec, !Z.shiftl_spec by lia. destruct (decide (k < i)) as [Hlt|Hge].
  - rewrite !(Z.testbit_neg_r _ (k - i)) by lia. by rewrite andb_false_r.
  - rewrite Z.land_spec, Z.shiftr_spec by lia. by replace (k - i + i) with k by lia.
Qed.

Lemma mask_on_zero : mask_of CtrDrvrCounterConfigON_ZERO_MASK 30 2 (-1).
Proof. exact mask_condition. Qed.
Lemma mask_start : mask_of CtrDrvrCounterConfigSTART_MASK 27 3 7.
Proof. exact mask_machine. Qed.

#[global] Hint Resolve mask_condition mask_machine mask_counter mask_group_number mask_group_value
  mask_on_zero mask_start mask_mode mask_clock mask_pulse_width : ctr_masks.

(** * The words *)

Lemma trigger_word t : hw_Trigger (TriggerToHard t) =
  Z.lor (Z.lor (Z.lor (Z.lor (Z.shiftl (GroupValue t mod 2 ^ 16) 0) (Z.shiftl (TriggerCondition t mod 2 ^ 2) 30))
    (Z.shiftl (Machine t mod 2 ^ 3) 27)) (Z.shiftl (Counter t mod 2 ^ 4) 23)) (Z.shiftl (GroupNumber t mod 2 ^ 7) 16).
Proof.
  unfold TriggerToHard. cbv zeta. cbn [hw_Trigger].
  by rewrite (shift_left_field _ _ _ _ _ mask_group_value), (shift_left_field _ _ _ _ _ mask_condition),
    (shift_left_field _ _ _ _ _ mask_machine), (shift_left_field _ _ _ _ _ mask_counter), (shift_left_field _ _ _ _ _ mask_group_number).
Qed.

Lemma config_word c : hw_Config (ConfigToHard c) =
  Z.lor (Z.lor (Z.lor (Z.lor (Z.shiftl (PulsWidth c mod 2 ^ 22) 0) (Z.shiftl (Clock c mod 2 ^ 3) 22))
    (Z.shiftl (Mode c mod 2 ^ 2) 25)) (Z.shiftl (Start c mod 2 ^ 3) 27)) (Z.shiftl (OnZero c mod 2 ^ 2) 30).
Proof.
  unfold ConfigToHard. cbv zeta. cbn [hw_Config].
  by rewrite (shift_left_field _ _ _ _ _ mask_pulse_width), (shift_left_field _ _ _ _ _ mask_clock),
    (shift_left_field _ _ _ _ _ mask_mode), (shift_left_field _ _ _ _ _ mask_start), (shift_left_field _ _ _ _ _ mask_on_zero).
Qed.

Ltac words_u32 := repeat (apply lor_u32 || (apply field_range; lia)).

Lemma trigger_word_u32 t : is_u32 (hw_Trigger (TriggerToHard t)).
Proof. rewrite trigger_word. words_u32. Qed.

Lemma config_word_u32 c : is_u32 (hw_Config (ConfigToHard c)).
Proof. rewrite config_word. words_u32. Qed.

(** Reading one field of a word put together from fields. *)
Ltac read_field :=
  rewrite !bits_lor;
  repeat first [rewrite bits_field_same by lia | rewrite bits_field_other by lia | rewrite Z.lor_0_l | rewrite Z.lor_0_r].

Lemma trigger_unpack t : HardToTrigger (TriggerToHard t) =
  mk_trigger 0 (Frame t) (TriggerCondition t mod 4) (Machine t mod 8) (Counter t mod 16) (GroupNumber t mod 128) (GroupValue t mod 65536).
Proof.
  pose proof (trigger_word_u32 t) as Hu. unfold HardToTrigger. cbv zeta.
  rewrite (shift_right_field _ _ _ _ _ mask_condition Hu), (shift_right_field _ _ _ _ _ mask_machine Hu),
    (shift_right_field _ _ _ _ _ mask_counter Hu), (shift_right_field _ _ _ _ _ mask_group_number Hu),
    (shift_right_field _ _ _ _ _ mask_group_value Hu), trigger_word.
  f_equal; by read_field.
Qed.

Lemma config_unpack c : HardToConfig (ConfigToHard c) =
  mk_configuration (OnZero c mod 4) (Start c mod 8) (Mode c mod 4) (Clock c mod 8) (PulsWidth c mod 4194304) (Delay c).
Proof.
  pose proof (config_word_u32 c) as Hu. unfold HardToConfig. cbv zeta.
  rewrite (shift_right_field _ _ _ _ _ mask_on_zero Hu), (shift_right_field _ _ _ _ _ mask_start Hu),
    (shift_right_field _ _ _ _ _ mask_mode Hu), (shift_right_field _ _ _ _ _ mask_clock Hu),
    (shift_right_field _ _ _ _ _ mask_pulse_width Hu), config_word.
  f_equal; by read_field.
Qed.

(** Masks that cover the word. *)
Lemma masks_cover x a b c d e : is_u32 x → Z.lor (Z.lor (Z.lor (Z.lor a b) c) d) e = Z.ones 32 →
  Z.lor (Z.lor (Z.lor (Z.lor (Z.land x a) (Z.land x b)) (Z.land x c)) (Z.land x d)) (Z.land x e) = x.
Proof.
  intros Hx Hm. rewrite <- !Z.land_lor_distr_r, Hm, Z.land_ones by lia. by apply Z.mod_small.
Qed.

Lemma trigger_repack h : is_u32 (hw_Trigger h) → TriggerToHard (HardToTrigger h) = h.
Proof.
  intros Hu. destruct h as [f w]. simpl in Hu.
  assert (Hw : hw_Trigger (TriggerToHard (HardToTrigger (mk_hw_trigger f w))) = w).
  { rewrite trigger_word. unfold HardToTrigger. cbn [hw_Trigger TriggerCondition Machine Counter GroupNumber GroupValue].
    rewrite (shift_right_field _ _ _ _ _ mask_condition Hu), (shift_right_field _ _ _ _ _ mask_machine Hu),
      (shift_right_field _ _ _ _ _ mask_counter Hu), (shift_right_field _ _ _ _ _ mask_group_number Hu),
      (shift_right_field _ _ _ _ _ mask_group_value Hu), !field_back by lia.
    by apply masks_cover. }
  unfold TriggerToHard in *. cbv zeta in *. cbn [hw_Trigger] in Hw. by rewrite Hw.
Qed.

Lemma config_repack h : is_u32 (hw_Config h) → ConfigToHard (HardToConfig h) = h.
Proof.
  intros Hu. destruct h as [w d]. simpl in Hu.
  assert (Hw : hw_Config (ConfigToHard (HardToConfig (mk_hw_configuration w d))) = w).
  { rewrite config_word. unfold HardToConfig. cbn [hw_Config OnZero Start Mode Clock PulsWidth].
    rewrite (shift_right_field _ _ _ _ _ mask_on_zero Hu), (shift_right_field _ _ _ _ _ mask_start Hu),
      (shift_right_field _ _ _ _ _ mask_mode Hu), (shift_right_field _ _ _ _ _ mask_clock Hu),
      (shift_right_field _ _ _ _ _ mask_pulse_width Hu), !field_back by lia.
    by apply masks_cover. }
  unfold ConfigToHard in *. cbv zeta in *. cbn [hw_Config] in Hw. by rewrite Hw.
Qed.

(** C26 The packed words of the hardware tables lose nothing that fits them.
    Unpacking a packed trigger gives it back with each field cut to its width
    and without the CTIM number, which the word has no place for; unpacking a packed
    configuration likewise; and packing what was unpacked from any 32-bit word gives the word. *)
Theorem hardware_packing :
  (∀ t, HardToTrigger (TriggerToHard t) =
    mk_trigger 0 (Frame t) (TriggerCondition t mod 4) (Machine t mod 8) (Counter t mod 16) (GroupNumber t mod 128) (GroupValue t mod 65536)) ∧
  (∀ h, is_u32 (hw_Trigger h) → TriggerToHard (HardToTrigger h) = h) ∧
  (∀ c, HardToConfig (ConfigToHard c) =
    mk_configuration (OnZero c mod 4) (Start c mod 8) (Mode c mod 4) (Clock c mod 8) (PulsWidth c mod 4194304) (Delay c)) ∧
  (∀ h, is_u32 (hw_Config h) → ConfigToHard (HardToConfig h) = h).
Proof. split; [exact trigger_unpack|]. split; [exact trigger_repack|]. split; [exact config_unpack|exact config_repack]. Qed.

Lemma hardware_packing_witness : TriggerToHard (HardToTrigger (mk_hw_trigger 5 0xDEADBEEF)) = mk_hw_trigger 5 0xDEADBEEF.
Proof. apply hardware_packing. unfold is_u32. simpl. lia. Defined.

(** ** The short access to the PLX bridge *)

(** Bits of the register of INTCSR that a 16-bit write touches. *)
Lemma intcsr_half e regs v : ∃ r,
  DrmLocalReadWrite e (Some regs) PLX9030_INTCSR v 2 true = Some (<[19 := r]> regs, v) ∧
  bits (match e with CtrDrvrEndianBIG => 0 | CtrDrvrEndianLITTLE => 16 end) 16 r = v mod 2 ^ 16 ∧
  bits (match e with CtrDrvrEndianBIG => 16 | CtrDrvrEndianLITTLE => 0 end) 16 r =
  bits (match e with CtrDrvrEndianBIG => 16 | CtrDrvrEndianLITTLE => 0 end) 16 (default 0 (regs !! 19)).
Proof.
  eexists. split; [reflexivity|]. unfold set_part.
  assert (Hsame : ∀ i x, 0 <= i → bits i 16 (Z.lor (Z.ldiff x (Z.shiftl (Z.ones 16) i)) (Z.shiftl (Z.land v (Z.ones 16)) i)) = v mod 2 ^ 16).
  { intros i x Hi. rewrite bits_lor, (Z.land_ones v), bits_field_same by lia.
    assert (Hz : bits i 16 (Z.ldiff x (Z.shiftl (Z.ones 16) i)) = 0).
    { apply Z.bits_inj'. intros k Hk. unfold bits.
      rewrite Z.bits_0, Z.land_spec, Z.testbit_ones, Z.shiftr_spec, Z.ldiff_spec, Z.shiftl_spec, Z.testbit_ones by lia.
      replace (k + i - i) with k by lia. destruct (Z.leb_spec 0 k); [|lia]. destruct (Z.ltb_spec k 16); simpl; by rewrite ?andb_false_r. }
    by rewrite Hz, Z.lor_0_l. }
  assert (Hother : ∀ i j x, 0 <= i → 0 <= j → i + 16 <= j ∨ j + 16 <= i →
    bits i 16 (Z.lor (Z.ldiff x (Z.shiftl (Z.ones 16) j)) (Z.shiftl (Z.land v (Z.ones 16)) j)) = bits i 16 x).
  { intros i j x Hi Hj Hd. rewrite bits_lor, (Z.land_ones v), (bits_field_other i 16 j 16), Z.lor_0_r by lia.
    apply Z.bits_inj'. intros k Hk. unfold bits. rewrite !Z.land_spec, !Z.testbit_ones, !Z.shiftr_spec, Z.ldiff_spec, Z.shiftl_spec by lia.
    destruct (Z.ltb_spec k 16) as [Hlt|Hge]; [|by rewrite !andb_false_r]. f_equal.
    destruct (decide (0 <= k + i - j)) as [Hp|Hp]; [|by rewrite (Z.testbit_neg_r _ (k + i - j)), andb_true_r by lia].
    rewrite Z.testbit_ones by lia. destruct (Z.ltb_spec (k + i - j) 16); [lia|]. by rewrite andb_false_r, andb_true_r. }
  destruct e; [change (part_bits CtrDrvrEndianBIG PLX9030_INTCSR 2) with (0, 16)|change (part_bits CtrDrvrEndianLITTLE PLX9030_INTCSR 2) with (16, 16)];
    cbn [fst snd]; (split; [by apply Hsame|apply Hother; lia]).
Qed.
