(* ===== verification/CtrDrvr.v ===== *)
(** The driver of the timing receiver, PCI version
    ([src/ctr/driver/ctrdrvr-pci.c], [ctrdrvrP.h]): its working area, and the
    connections of clients to timing objects and interrupt sources.

    A pointer to a module or client is its index in the working area.  An access
    through a [Map] that is NULL, or to a module that does not exist, is stuck.  A call that
    sets [errno] gives the negative code. *)
From S2P Require Import Prelude CtrHard CdcmSem.

Local Open Scope Z_scope.

Definition OK : Z := 0.
Definition CtrDrvrDEFAULT_TIMEOUT : Z := 2000.
Definition CtrDrvrQUEUE_SIZE : Z := 64.

(** * State *)

Record CtrDrvrPll := mk_pll {
  pll_Error : Z; Integrator : Z; Dac : Z; LastItLen : Z; Phase : Z; NumAverage : Z; KP : Z; KI : Z
}.

(** What the driver uses of [CtrDrvrMemoryMap]. *)
Record CtrDrvrMemoryMap := mk_map {
  mm_InterruptSource : Z;
  mm_InterruptEnable : Z;
  mm_InputDelay : Z;
  mm_CableId : Z;
  mm_OutputByte : Z;
  mm_Status : Z;
  mm_Command : Z;
  mm_Pll : CtrDrvrPll;
  mm_ReadTime : CtrDrvrCTime;
  mm_SetTime : Z;
  mm_Counters : list CtrDrvrFpgaCounter;
  mm_Trigs : list CtrDrvrHwTrigger;
  mm_Configs : list CtrDrvrHwCounterConfiguration
}.

(** An index of the tables of a module context. *)
Record slot := mk_slot {
  EqpNum : Z;
  EqpClass : CtrDrvrConnectionClass;
  Clients : Z;
  Trigs : CtrDrvrTrigger;
  Configs : CtrDrvrCounterConfiguration
}.

Record CtrDrvrModuleContext := mk_module {
  Local : option (gmap Z Z);
  LocalOpen : Z;
  ConfigOpen : Z;
  PciSlot : Z;
  IrqBalance : Z;
  Map : option CtrDrvrMemoryMap;
  FlashOpen : Z;
  HptdcOpen : Z;
  ModuleIndex : Z;
  Command : Z;
  InterruptEnable : Z;
  InputDelay : Z;
  Pll : CtrDrvrPll;
  Status : Z;
  InUse : Z;
  BusErrorCount : Z;
  CableId : Z;
  UpLock : Z;
  slots : list slot;
  HardClients : list Z
}.

Record CtrDrvrQueue := mk_queue {
  QueueOff : Z;
  Missed : Z;
  Size : Z;
  RdPntr : Z;
  WrPntr : Z;
  Entries : list CtrDrvrReadBuf
}.

Record CtrDrvrClientContext := mk_client {
  cl_InUse : Z;
  DebugOn : Z;
  Pid : Z;
  ClientIndex : Z;
  cl_ModuleIndex : Z;
  Timeout : Z;
  Timer : Z;
  Semaphore : cdcm_sem;
  Queue : CtrDrvrQueue
}.

Record CtrDrvrCtimBinding := mk_ctim { ct_EqpNum : Z; ct_Frame : Z }.
Record CtrDrvrPtimBinding := mk_ptim {
  pt_EqpNum : Z; pt_ModuleIndex : Z; pt_Counter : Z; pt_Size : Z; pt_StartIndex : Z
}.

(** The objects in use of [Ctim.Objects] and [Ptim.Objects]; [Size] is how many. *)
Record CtrDrvrWorkingArea := mk_wa {
  Endian : CtrDrvrEndian;
  Ctims : list CtrDrvrCtimBinding;
  Ptims : list CtrDrvrPtimBinding;
  Modules : Z;
  ModuleContexts : list CtrDrvrModuleContext;
  ClientContexts : list CtrDrvrClientContext
}.

Notation WaM := (M CtrDrvrWorkingArea).

(** * Access *)

Definition index (i : Z) : option nat := if i <? 0 then None else Some (Z.to_nat i).

Definition mcon (midx : Z) : WaM CtrDrvrModuleContext :=
  l ← gets ModuleContexts; i ← lift_opt (index midx); lift_opt (l !! i).

Definition upd_mcon (midx : Z) (f : CtrDrvrModuleContext → CtrDrvrModuleContext) : WaM () :=
  mcon midx;; modify (λ wa : CtrDrvrWorkingArea, wa <| ModuleContexts := alter f (Z.to_nat midx) (ModuleContexts wa) |>).

Definition ccon (cnum : Z) : WaM CtrDrvrClientContext :=
  l ← gets ClientContexts; i ← lift_opt (index cnum); lift_opt (l !! i).

Definition upd_ccon (cnum : Z) (f : CtrDrvrClientContext → CtrDrvrClientContext) : WaM () :=
  ccon cnum;; modify (λ wa : CtrDrvrWorkingArea, wa <| ClientContexts := alter f (Z.to_nat cnum) (ClientContexts wa) |>).

Definition mmap (midx : Z) : WaM CtrDrvrMemoryMap := m ← mcon midx; lift_opt (Map m).

Definition upd_mmap (midx : Z) (f : CtrDrvrMemoryMap → CtrDrvrMemoryMap) : WaM () :=
  mmap midx;; upd_mcon midx (λ m : CtrDrvrModuleContext, m <| Map := f <$> Map m |>).

Definition upd_slot (midx : Z) (i : nat) (f : slot → slot) : WaM () :=
  upd_mcon midx (λ m : CtrDrvrModuleContext, m <| slots := alter f i (slots m) |>).

(** * Interrupts *)

Definition Plx9030IntcsrLINT_ENABLE : Z := 0x09.
Definition Plx9030IntcsrLINT_HIGH : Z := 0x12.
Definition Plx9030IntcsrPCI_INT_ENABLE : Z := 0x40.

(** A write of [DrmLocalReadWrite]; its result is not looked at. *)
Definition local_write (midx addr value size : Z) : WaM () :=
  e ← gets Endian; m ← mcon midx;
  match DrmLocalReadWrite e (Local m) addr value size true with
  | Some (regs, _) => upd_mcon midx (λ m : CtrDrvrModuleContext, m <| Local := Some regs |>)
  | None => mret ()
  end.

Definition EnableInterrupts (midx msk : Z) : WaM Z :=
  let intcsr := Z.lor (Z.lor Plx9030IntcsrLINT_ENABLE Plx9030IntcsrLINT_HIGH) Plx9030IntcsrPCI_INT_ENABLE in
  local_write midx PLX9030_INTCSR intcsr 2;;
  upd_mcon midx (λ m : CtrDrvrModuleContext, m <| InterruptEnable := Z.lor (InterruptEnable m) msk |>);;
  m ← mcon midx;
  upd_mmap midx (λ mm : CtrDrvrMemoryMap, mm <| mm_InterruptEnable := InterruptEnable m |>);;
  (if IrqBalance m =? 0 then upd_mcon midx (λ m : CtrDrvrModuleContext, m <| IrqBalance := 1 |>) else mret ());;
  mret OK.

(** [1 << n] *)
Definition bit (n : Z) : Z := u32 (Z.shiftl 1 n).

Section driver.
(** What an access to [HardClients] behind its end reads. *)
Variable beyond : Z → Z.

Definition hard_clients (m : CtrDrvrModuleContext) (i : Z) : Z :=
  match index i with
  | Some n => default (beyond i) (HardClients m !! n)
  | None => beyond i
  end.

(** Clients in a mask other than those of [cmsk]. *)
Definition others (clients cmsk : Z) : bool := truthy (Z.ldiff clients cmsk).

Definition other_trigger (cntr cmsk : Z) (s : slot) : bool := (s32 (Counter (Trigs s)) =? cntr) && others (Clients s) cmsk.

Definition mask_interrupts (midx hmsk : Z) : WaM Z :=
  upd_mcon midx (λ m : CtrDrvrModuleContext, m <| InterruptEnable := Z.ldiff (InterruptEnable m) hmsk |>);;
  m ← mcon midx;
  upd_mmap midx (λ mm : CtrDrvrMemoryMap, mm <| mm_InterruptEnable := InterruptEnable m |>);;
  mret OK.

Definition DisableInterrupts (tndx : nat) (midx : Z) (clss : CtrDrvrConnectionClass) (c : CtrDrvrClientContext) : WaM Z :=
  let cmsk := bit (ClientIndex c) in
  m ← mcon midx;
  cntr ← (match clss with
          | HARD => mret (if Z.of_nat tndx <=? CtrDrvrCOUNTERS then Z.of_nat tndx else -1)
          | _ => s ← lift_opt (slots m !! tndx); mret (s32 (Counter (Trigs s)))
          end);
  let hmsk := if cntr =? -1 then bit (Z.of_nat tndx) else bit cntr in
  if negb (cntr =? -1) && others (hard_clients m cntr) cmsk then mret OK
  else if negb (cntr =? -1) && existsb (other_trigger cntr cmsk) (slots m) then mret OK
  else if others (hard_clients m (Z.of_nat tndx)) cmsk then mret OK
  else mask_interrupts midx hmsk.

(** * Connecting *)

Definition GetPtimModule (l : list CtrDrvrPtimBinding) (eqpnum : Z) : Z :=
  match find_idx (λ p, eqpnum =? pt_EqpNum p) l with
  | Some i => match l !! i with Some p => pt_ModuleIndex p + 1 | None => 0 end
  | None => 0
  end.

Definition same_object (conx : CtrDrvrConnection) (s : slot) : bool :=
  (conx_EqpNum conx =? EqpNum s) && bool_decide (conx_EqpClass conx = EqpClass s).

Definition bus_bit : Z := AutoShiftLeft CtrDrvrCounterConfigON_ZERO_MASK CtrDrvrCounterOnZeroBUS.
Definition add_client (cmsk : Z) (s : slot) : slot := s <| Clients := Z.lor (Clients s) cmsk |>.
Definition set_bus (h : CtrDrvrHwCounterConfiguration) : CtrDrvrHwCounterConfiguration :=
  h <| hw_Config := Z.lor (hw_Config h) bus_bit |>.
Definition clear_bus (h : CtrDrvrHwCounterConfiguration) : CtrDrvrHwCounterConfiguration :=
  h <| hw_Config := Z.ldiff (hw_Config h) bus_bit |>.

(** The slots of an existing PTIM object: the number of connections made. *)
Definition connect_ptim (conx : CtrDrvrConnection) (cmsk midx : Z) : WaM Z :=
  m ← mcon midx;
  mfold (λ count i,
    m ← mcon midx;
    s ← lift_opt (slots m !! i);
    if same_object conx s then
      upd_slot midx i (add_client cmsk);;
      upd_mcon midx (λ m : CtrDrvrModuleContext, m <| InterruptEnable := Z.lor (InterruptEnable m) (bit (Counter (Trigs s))) |>);;
      upd_mmap midx (λ mm : CtrDrvrMemoryMap, mm <| mm_Configs := alter set_bus i (mm_Configs mm) |>);;
      mret (count + 1)
    else mret count) 0 (seq 0 (length (slots m))).

Definition ctim_trigger (eqpnum frame : Z) : CtrDrvrTrigger :=
  mk_trigger eqpnum frame CtrDrvrTriggerConditionNO_CHECK CtrDrvrMachineNONE CtrDrvrCounter0 0 0.
Definition ctim_configuration : CtrDrvrCounterConfiguration :=
  mk_configuration CtrDrvrCounterOnZeroBUS CtrDrvrCounterStartNORMAL CtrDrvrCounterModeNORMAL CtrDrvrCounterClock1KHZ 0 0.

Definition write_slot (midx : Z) (i : nat) (t : CtrDrvrHwTrigger) (c : CtrDrvrHwCounterConfiguration) : WaM () :=
  upd_mmap midx (λ mm : CtrDrvrMemoryMap, mm <| mm_Trigs := <[i := t]> (mm_Trigs mm) |>);;
  upd_mmap midx (λ mm : CtrDrvrMemoryMap, mm <| mm_Configs := <[i := c]> (mm_Configs mm) |>).

(** A new instance of a CTIM object in the empty slot [i]. *)
Definition create_instance (conx : CtrDrvrConnection) (frame cmsk midx : Z) (i : nat) : WaM () :=
  let trig := ctim_trigger (conx_EqpNum conx) frame in
  upd_slot midx i (λ s : slot, s <| EqpNum := conx_EqpNum conx |> <| EqpClass := CTIM |>
                                 <| Trigs := trig |> <| Configs := ctim_configuration |>);;
  write_slot midx i (TriggerToHard trig) (ConfigToHard ctim_configuration);;
  upd_slot midx i (add_client cmsk);;
  upd_mcon midx (λ m : CtrDrvrModuleContext, m <| InterruptEnable := Z.lor (InterruptEnable m) CtrDrvrInterruptMaskCOUNTER_0 |>).

(** The frame of a CTIM object, 0 when there is none. *)
Definition ctim_frame (l : list CtrDrvrCtimBinding) (eqpnum : Z) : Z :=
  match find_idx (λ o, eqpnum =? ct_EqpNum o) l with
  | Some i => match l !! i with Some o => ct_Frame o | None => 0 end
  | None => 0
  end.

(** The number of connections made, or an error. *)
Definition connect_ctim (conx : CtrDrvrConnection) (cmsk midx : Z) : WaM Z :=
  m ← mcon midx;
  match find_idx (same_object conx) (slots m) with
  | Some i =>
    upd_slot midx i (add_client cmsk);;
    upd_mcon midx (λ m : CtrDrvrModuleContext, m <| InterruptEnable := Z.lor (InterruptEnable m) CtrDrvrInterruptMaskCOUNTER_0 |>);;
    upd_mmap midx (λ mm : CtrDrvrMemoryMap, mm <| mm_Configs := alter set_bus i (mm_Configs mm) |>);;
    mret 1
  | None =>
    objs ← gets Ctims;
    let frame := ctim_frame objs (conx_EqpNum conx) in
    if Header frame =? 0 then mret 0
    else match find_idx (λ s, EqpNum s =? 0) (slots m) with
         | Some i => create_instance conx frame cmsk midx i;; mret 1
         | None => mret (- ENOMEM)
         end
  end.

Definition hard_bits (eqpnum : Z) : list nat :=
  filter (λ i, truthy (Z.land eqpnum (bit (Z.of_nat i))) = true) (seq 0 (Z.to_nat CtrDrvrInterruptSOURCES)).

Definition connect_hard (conx : CtrDrvrConnection) (cmsk midx : Z) : WaM Z :=
  mfold (λ count i,
    upd_mcon midx (λ m : CtrDrvrModuleContext, m <| InterruptEnable := Z.lor (InterruptEnable m) (bit (Z.of_nat i)) |>
                                  <| HardClients := alter (Z.lor cmsk) i (HardClients m) |>);;
    mret (count + 1)) 0 (hard_bits (conx_EqpNum conx)).

Definition connection_module (conx : CtrDrvrConnection) (c : CtrDrvrClientContext) : Z :=
  let midx := s32 (conx_Module conx - 1) in
  if (midx <? 0) || (CtrDrvrMODULE_CONTEXTS <=? midx) then cl_ModuleIndex c else midx.

Definition Connect (conx : CtrDrvrConnection) (c : CtrDrvrClientContext) : WaM Z :=
  let midx := connection_module conx c in
  let cmsk := bit (ClientIndex c) in
  '(count, midx) ← (match conx_EqpClass conx with
    | PTIM =>
      ptims ← gets Ptims;
      let pidx := GetPtimModule ptims (conx_EqpNum conx) - 1 in
      if pidx >=? 0 then count ← connect_ptim conx cmsk pidx; mret (count, pidx) else mret (0, midx)
    | CTIM => count ← connect_ctim conx cmsk midx; mret (count, midx)
    | HARD => count ← connect_hard conx cmsk midx; mret (count, midx)
    end);
  if count <? 0 then mret count
  else if truthy count then m ← mcon midx; EnableInterrupts midx (InterruptEnable m)
  else mret (- ENXIO).

(** * Disconnecting *)

Definition free_slot (s : slot) : slot := s <| EqpNum := 0 |> <| EqpClass := HARD |>.
Definition drop_client (cmsk : Z) (s : slot) : slot := s <| Clients := Z.ldiff (Clients s) cmsk |>.

Definition DisConnectOne (tndx : nat) (midx : Z) (clss : CtrDrvrConnectionClass) (c : CtrDrvrClientContext) : WaM Z :=
  let cmsk := bit (ClientIndex c) in
  m ← mcon midx;
  (match clss with
   | HARD =>
     if truthy (hard_clients m (Z.of_nat tndx)) then
       upd_mcon midx (λ m : CtrDrvrModuleContext, m <| HardClients := alter (λ k, Z.ldiff k cmsk) tndx (HardClients m) |>);;
       m ← mcon midx;
       if hard_clients m (Z.of_nat tndx) =? 0 then DisableInterrupts tndx midx clss c;; mret () else mret ()
     else mret ()
   | _ =>
     s ← lift_opt (slots m !! tndx);
     if truthy (Z.land cmsk (Clients s)) then
       upd_slot midx tndx (drop_client cmsk);;
       if Z.ldiff (Clients s) cmsk =? 0 then
         DisableInterrupts tndx midx clss c;;
         (match EqpClass s with
          | CTIM =>
            write_slot midx tndx (TriggerToHard zero_trigger) (ConfigToHard zero_configuration);;
            upd_slot midx tndx free_slot
          | _ => upd_mmap midx (λ mm : CtrDrvrMemoryMap, mm <| mm_Configs := alter clear_bus tndx (mm_Configs mm) |>)
          end)
       else mret ()
     else mret ()
   end);;
  mret OK.

(** The loops over all sources, and over the slots that satisfy [p], which may give the class to disconnect. *)
Definition disconnect_hard (midx : Z) (c : CtrDrvrClientContext) : WaM () :=
  mfold (λ _ i, DisConnectOne i midx HARD c;; mret ()) () (seq 0 (Z.to_nat CtrDrvrInterruptSOURCES)).

Definition disconnect_slots (p : slot → bool) (midx : Z) (c : CtrDrvrClientContext) : WaM () :=
  m ← mcon midx;
  mfold (λ _ i,
    m ← mcon midx;
    s ← lift_opt (slots m !! i);
    if p s then DisConnectOne i midx (EqpClass s) c;; mret () else mret ()) () (seq 0 (length (slots m))).

Definition DisConnect (conx : CtrDrvrConnection) (c : CtrDrvrClientContext) : WaM Z :=
  let midx := s32 (conx_Module conx - 1) in
  match conx_EqpClass conx with
  | HARD => disconnect_hard midx c
  | _ => disconnect_slots (same_object conx) midx c
  end;;
  mret OK.

Definition DisConnectAll (c : CtrDrvrClientContext) : WaM Z :=
  n ← gets Modules;
  mfold (λ _ midx,
    disconnect_slots (λ s, truthy (EqpNum s)) (Z.of_nat midx) c;;
    disconnect_hard (Z.of_nat midx) c) () (seq 0 (Z.to_nat n));;
  mret OK.
End driver.
