(* ===== verification/CtrQueue.v ===== *)
(** Delivery of interrupts to clients in [src/ctr/driver/ctrdrvr-pci.c]: the queue
    of a client, the interrupt handler, and open, close, read and write.

    A read waits on the semaphore of its client ([CdcmSem]); it is split where the
    task may sleep or be interrupted, into [CtrDrvrRead_start], the wait, and
    [CtrDrvrRead_end]. *)
From S2P Require Import Prelude CtrHard CdcmSem CtrDrvr.

Local Open Scope Z_scope.

(** * The queue *)

(** Place an entry, dropping the oldest one when the queue is full; true when a
    place was free. *)
Definition queue_put (rbf : CtrDrvrReadBuf) (q : CtrDrvrQueue) : CtrDrvrQueue * bool :=
  let q := q <| Entries := <[Z.to_nat (WrPntr q) := rbf]> (Entries q) |>
             <| WrPntr := (WrPntr q + 1) mod CtrDrvrQUEUE_SIZE |> in
  if Size q <? CtrDrvrQUEUE_SIZE then (q <| Size := Size q + 1 |>, true)
  else (q <| Missed := (Missed q + 1) mod 2 ^ 16 |> <| RdPntr := (RdPntr q + 1) mod CtrDrvrQUEUE_SIZE |>, false).

(** Take the oldest entry, of a queue that is not empty. *)
Definition queue_take (q : CtrDrvrQueue) : option (CtrDrvrReadBuf * CtrDrvrQueue) :=
  rb ← Entries q !! Z.to_nat (RdPntr q);
  Some (rb, q <| RdPntr := (RdPntr q + 1) mod CtrDrvrQUEUE_SIZE |> <| Size := Size q - 1 |>).

Definition queue_reset (q : CtrDrvrQueue) : CtrDrvrQueue :=
  q <| Size := 0 |> <| Missed := 0 |> <| WrPntr := 0 |> <| RdPntr := 0 |>.

(** Operations of the semaphore of a client. *)
Definition on_semaphore {A} (cnum : Z) (m : M cdcm_sem A) : WaM A :=
  c ← ccon cnum;
  r ← lift_opt (m (Semaphore c));
  let '(a, sem) := r in
  upd_ccon cnum (λ c : CtrDrvrClientContext, c <| Semaphore := sem |>);; mret a.

(** The body of the loops over the clients. *)
Definition deliver (rbf : CtrDrvrReadBuf) (cnum : Z) : WaM () :=
  c ← ccon cnum;
  let '(q, free) := queue_put rbf (Queue c) in
  upd_ccon cnum (λ c : CtrDrvrClientContext, c <| Queue := q |>);;
  if free : bool then on_semaphore cnum cdcm_up else mret ().

Definition deliver_all (rbf : CtrDrvrReadBuf) (clients : Z) : WaM () :=
  mfold (λ _ i, if truthy (Z.land clients (bit (Z.of_nat i))) then deliver rbf (Z.of_nat i) else mret ()) ()
    (seq 0 (Z.to_nat CtrDrvrCLIENT_CONTEXTS)).

(** * The interrupt handler *)

Definition GetTime (midx : Z) : WaM CtrDrvrCTime :=
  upd_mmap midx (λ mm : CtrDrvrMemoryMap, mm <| mm_Command := CtrDrvrCommandLATCH_UTC |>);;
  mm ← mmap midx; mret (mm_ReadTime mm).

(** Clients of the timing object that loaded the counter [inum], and what they
    are to read. *)
Definition object_clients (midx : Z) (inum : nat) : WaM (Z * CtrDrvrReadBuf) :=
  m ← mcon midx; mm ← mmap midx;
  fpgc ← lift_opt (mm_Counters mm !! inum);
  let hist := History fpgc in
  if LockConfig fpgc =? 0 then
    if hist_Index hist <? Z.of_nat (length (slots m)) then
      s ← lift_opt (slots m !! Z.to_nat (hist_Index hist));
      if truthy (Clients s) then
        (* Reading LockHistory clears it. *)
        upd_mmap midx (λ mm : CtrDrvrMemoryMap, mm <| mm_Counters := alter (λ f : CtrDrvrFpgaCounter, f <| LockHistory := 0 |>) inum (mm_Counters mm) |>);;
        (if LockHistory fpgc >? 1 then
           upd_mcon midx (λ m : CtrDrvrModuleContext, m <| Status := Z.ldiff (Status m) CtrDrvrStatusNO_LOST_INTERRUPTS |>)
         else mret ());;
        mret (Clients s,
          mk_read_buf (mk_connection (ModuleIndex m + 1) (EqpClass s) (EqpNum s)) (hist_Index hist + 1) 0
            (Ctim (Trigs s)) (hist_Frame hist) (hist_TriggerTime hist) (hist_StartTime hist) (hist_OnZeroTime hist))
      else mret (0, zero_read_buf)
    else mret (0, zero_read_buf)
  else mret (0, zero_read_buf).

(** Clients of the source itself. *)
Definition source_clients (midx : Z) (inum : nat) : WaM (Z * CtrDrvrReadBuf) :=
  m ← mcon midx;
  clients ← lift_opt (HardClients m !! inum);
  if truthy clients then
    t ← (if Z.of_nat inum <? CtrDrvrCOUNTERS then
           mm ← mmap midx; f ← lift_opt (mm_Counters mm !! inum); mret (hist_OnZeroTime (History f))
         else GetTime midx);
    mret (clients, zero_read_buf <| rb_OnZeroTime := t |>
                     <| rb_Connection := mk_connection (ModuleIndex m + 1) HARD (bit (Z.of_nat inum)) |>)
  else mret (0, zero_read_buf).

(** One source. *)
Definition handle_source (midx : Z) (inum : nat) : WaM () :=
  '(clients, rbf) ← (if Z.of_nat inum <? CtrDrvrCOUNTERS then object_clients midx inum else mret (0, zero_read_buf));
  '(clients, rbf) ← (if clients =? 0 then source_clients midx inum else mret (clients, rbf));
  let rbf := rbf <| rb_InterruptNumber := Z.of_nat inum |> in
  m ← mcon midx;
  hard ← lift_opt (HardClients m !! inum);
  deliver_all rbf (Z.lor clients hard).

(** The sources of a word. *)
Definition sources (isrc : Z) : list nat :=
  filter (λ i, truthy (Z.land (bit (Z.of_nat i)) isrc) = true) (seq 0 (Z.to_nat CtrDrvrInterruptSOURCES)).

Definition IRQ_NONE : Z := 0.
Definition IRQ_HANDLED : Z := 1.

(** Reading the sources clears them. *)
Definition IntrHandler (midx : Z) : WaM Z :=
  mm ← mmap midx;
  let isrc := mm_InterruptSource mm in
  upd_mmap midx (λ mm : CtrDrvrMemoryMap, mm <| mm_InterruptSource := 0 |>);;
  if isrc =? 0 then mret IRQ_NONE
  else mfold (λ _ inum, handle_source midx inum) () (sources isrc);; mret IRQ_HANDLED.

(** * Open and close *)

Definition zero_queue : CtrDrvrQueue := mk_queue 0 0 0 0 0 (replicate (Z.to_nat CtrDrvrQUEUE_SIZE) zero_read_buf).

Definition client_number (cnum : Z) : bool := (0 <=? cnum) && (cnum <? CtrDrvrCLIENT_CONTEXTS).

(** [minor - 1] is the client.  The whole context is cleared, the word that refers to
    the semaphore included, so that the semaphore is a new one. *)
Definition CtrDrvrOpen (minor pid : Z) : WaM Z :=
  let cnum := minor - 1 in
  if negb (client_number cnum) then mret (- EFAULT)
  else
    c ← ccon cnum;
    if truthy (cl_InUse c) then mret (- EBUSY)
    else
      upd_ccon cnum (λ _ : CtrDrvrClientContext,
        mk_client 1 0 pid cnum 0 CtrDrvrDEFAULT_TIMEOUT 0 (cdcm_sem_init 0) zero_queue);;
      on_semaphore cnum reset;;
      mret OK.

(** [CancelTimeout]: the timer that the kernel is asked to cancel, if any. *)
Definition CancelTimeout (cnum : Z) : WaM (option Z) :=
  c ← ccon cnum;
  if truthy (Timer c) then
    upd_ccon cnum (λ c : CtrDrvrClientContext, c <| Timer := 0 |>);; mret (Some (s32 (Timer c)))
  else mret None.

Section driver.
Variable beyond : Z → Z.

Definition CtrDrvrClose (minor : Z) : WaM Z :=
  let cnum := minor - 1 in
  if client_number cnum then
    upd_ccon cnum (λ c : CtrDrvrClientContext, c <| cl_InUse := 0 |>);;
    CancelTimeout cnum;;
    c ← ccon cnum;
    DisConnectAll beyond c;;
    mret OK
  else mret (- EFAULT).

(** * Read *)

(** The callback of the timer of a read. *)
Definition ReadTimeout (cnum : Z) : WaM () :=
  upd_ccon cnum (λ c : CtrDrvrClientContext, c <| Timer := 0 |>);; on_semaphore cnum reset.

(** Up to the wait; [tid] is what [timeout] returns if it is called.  [ccon->Timer]
    is unsigned, and is never less than 0. *)
Definition CtrDrvrRead_start (minor tid : Z) : WaM () :=
  let cnum := minor - 1 in
  c ← ccon cnum;
  (if truthy (QueueOff (Queue c)) then
     upd_ccon cnum (λ c : CtrDrvrClientContext, c <| Queue := queue_reset (Queue c) |>);; on_semaphore cnum reset
   else mret ());;
  (if truthy (Timeout c) then upd_ccon cnum (λ c : CtrDrvrClientContext, c <| Timer := u32 tid |>) else mret ()).

(** From the wait on: [r] is its result. *)
Definition CtrDrvrRead_end (minor r : Z) : WaM (Z * option CtrDrvrReadBuf) :=
  let cnum := minor - 1 in
  if truthy r then CancelTimeout cnum;; mret (- EINTR, None)
  else
    c ← ccon cnum;
    if truthy (Timeout c) && (Timer c =? 0) then mret (- ETIME, None)
    else
      (if truthy (Timeout c) then CancelTimeout cnum;; mret () else mret ());;
      if truthy (Size (Queue c)) then
        p ← lift_opt (queue_take (Queue c));
        let '(rb, q) := p in
        upd_ccon cnum (λ c : CtrDrvrClientContext, c <| Queue := q |>);;
        mret (64, Some rb)
      else mret (- EINTR, None).
End driver.

(** * Write: simulated events *)

Record CtrDrvrWriteBuf := mk_write_buf {
  wb_TriggerNumber : Z;
  wb_Connection : CtrDrvrConnection;
  wb_Payload : Z
}.

Definition written_trigger (tndx : nat) (s : slot) (frame : Z) : Z * CtrDrvrReadBuf :=
  (Clients s, zero_read_buf <| rb_TriggerNumber := Z.of_nat tndx + 1 |> <| rb_Frame := frame |>
                <| rb_Ctim := Ctim (Trigs s) |> <| rb_InterruptNumber := Counter (Trigs s) |>).

(** The clients and the buffer of a written event.  A trigger number is not checked:
    beyond the table this is stuck. *)
Definition written_clients (m : CtrDrvrModuleContext) (wb : CtrDrvrWriteBuf) : option (Z * CtrDrvrReadBuf) :=
  let conx := wb_Connection wb in
  match conx_EqpClass conx with
  | HARD => Some (foldl (λ '(clients, rb) i, (Z.lor clients (nth i (HardClients m) 0), rb <| rb_InterruptNumber := Z.of_nat i + 1 |>))
              (0, zero_read_buf) (hard_bits (conx_EqpNum conx)))
  | _ =>
    if wb_TriggerNumber wb =? 0 then
      match find_idx (same_object conx) (slots m) with
      | Some i => s ← slots m !! i; Some (written_trigger i s (set_Value (Frame (Trigs s)) (wb_Payload wb)))
      | None => Some (0, zero_read_buf)
      end
    else
      i ← index (wb_TriggerNumber wb - 1); s ← slots m !! i; Some (written_trigger i s (Frame (Trigs s)))
  end.

Definition CtrDrvrWrite (wb : CtrDrvrWriteBuf) : WaM Z :=
  let conx := wb_Connection wb in
  let midx := s32 (conx_Module conx - 1) in
  if (midx <? 0) || (CtrDrvrMODULE_CONTEXTS <=? midx) then mret (- EINVAL)
  else
    m ← mcon midx;
    p ← lift_opt (written_clients m wb);
    let '(clients, rb) := p in
    (if truthy clients then
       t ← GetTime midx;
       deliver_all (rb <| rb_Connection := conx |> <| rb_TriggerTime := t |> <| rb_StartTime := t |> <| rb_OnZeroTime := t |>) clients
     else mret ());;
    mret 12.
