(* ===== verification/CtrIoctl.v ===== *)
(** The ioctls of the timing receiver ([CtrDrvrIoctl] in
    [src/ctr/driver/ctrdrvr-pci.c]): selection of modules, locking, connections,
    actions, CTIM and PTIM objects, counters.

    The argument is its readable and writable sizes and its value as a [long]; a
    structure it points to is part of the request, what is written back is the reply.
    Leaving the switch is the error EINVAL. *)
From S2P Require Import Prelude CtrHard CdcmSem CtrDrvr CtrQueue.

Local Open Scope Z_scope.

Record argument := mk_argument { null : bool; rcnt : Z; wcnt : Z; lav : Z }.

Record CtrDrvrAction := mk_action {
  act_TriggerNumber : Z;
  act_EqpNum : Z;
  act_EqpClass : CtrDrvrConnectionClass;
  act_Trigger : CtrDrvrTrigger;
  act_Config : CtrDrvrCounterConfiguration
}.

(** [Size] is kept apart from the connections: the loop may count one more than fit. *)
Record CtrDrvrClientConnections := mk_client_connections {
  ccn_Pid : Z;
  ccn_Size : Z;
  ccn_Connections : list CtrDrvrConnection
}.

Inductive reply :=
  | Nothing
  | Long (v : Z)
  | PidList (l : list Z)
  | ConnectionList (ccn : CtrDrvrClientConnections)
  | Time (t : CtrDrvrCTime)
  | Action (a : CtrDrvrAction)
  | CtimList (l : list CtrDrvrCtimBinding)
  | PtimList (l : list CtrDrvrPtimBinding)
  | Binding (p : CtrDrvrPtimBinding)
  | OutMask (mask polarity : Z)
  | Configuration (c : CtrDrvrCounterConfiguration)
  | CounterHistory (h : CtrDrvrCounterHistory)
  | PllRegisters (p : CtrDrvrPll).

Definition SYSERR : Z := -1.
Definition EBADF : Z := 9.
Definition einval : Z * reply := (- EINVAL, Nothing).
Definition ok : Z * reply := (OK, Nothing).

Notation Call := (WaM (Z * reply)).

(** [if (mcon->UpLock) break;] *)
Definition unless_locked (m : CtrDrvrModuleContext) (k : Call) : Call :=
  if truthy (UpLock m) then mret einval else k.

(** [if (lap)] *)
Definition with_long (arg : argument) (k : Call) : Call := if null arg then mret einval else k.
Definition readable (arg : argument) (size : Z) (k : Call) : Call := if rcnt arg >=? size then k else mret einval.
Definition writable (arg : argument) (size : Z) (k : Call) : Call := if wcnt arg >=? size then k else mret einval.

(** * Clients and modules *)

Definition set_timeout (cnum lav : Z) : Call :=
  upd_ccon cnum (λ c : CtrDrvrClientContext, c <| Timeout := u32 lav |>);; mret ok.

Definition set_queue_flag (cnum lav : Z) : Call :=
  upd_ccon cnum (λ c : CtrDrvrClientContext, c <| Queue := ((Queue c) <| QueueOff := if truthy lav then 1 else 0 |>) |>);; mret ok.

Definition get_queue_overflow (cnum : Z) : Call :=
  c ← ccon cnum;
  upd_ccon cnum (λ c : CtrDrvrClientContext, c <| Queue := ((Queue c) <| Missed := 0 |>) |>);;
  mret (OK, Long (Missed (Queue c))).

Definition set_module (cnum lav : Z) : Call :=
  n ← gets Modules;
  if (1 <=? lav) && (lav <=? n) then
    upd_ccon cnum (λ c : CtrDrvrClientContext, c <| cl_ModuleIndex := lav - 1 |>);;
    upd_mcon (lav - 1) (λ m : CtrDrvrModuleContext, m <| ModuleIndex := lav - 1 |>);;
    mret ok
  else mret einval.

Definition set_module_by_slot (cnum lav : Z) : Call :=
  n ← gets Modules; l ← gets ModuleContexts;
  match find_idx (λ m, PciSlot m =? lav) (take (Z.to_nat n) l) with
  | Some i => upd_ccon cnum (λ c : CtrDrvrClientContext, c <| cl_ModuleIndex := Z.of_nat i |>);; mret ok
  | None => mret einval
  end.

(** The sum of the nibbles of the password. *)
Fixpoint nibbles (n : nat) (pw : Z) : Z :=
  match n with O => 0 | S n => Z.land pw 0xF + nibbles n (Z.shiftr pw 4) end.

Definition clr_uplock (midx pw : Z) : WaM () :=
  if nibbles 8 (u32 pw) =? 0x24 then upd_mcon midx (λ m : CtrDrvrModuleContext, m <| UpLock := 0 |>) else mret ().

Definition get_client_list (l : list CtrDrvrClientContext) : list Z := Pid <$> filter (λ c, truthy (cl_InUse c) = true) l.

(** ** The connections of a client *)

(** Add a connection at the index [Size], then count it; true when the list is
    full. *)
Definition add_connection (conx : CtrDrvrConnection) (ccn : CtrDrvrClientConnections) : CtrDrvrClientConnections * bool :=
  (ccn <| ccn_Connections := ccn_Connections ccn ++ [conx] |> <| ccn_Size := ccn_Size ccn + 1 |>,
   ccn_Size ccn >=? CtrDrvrCONNECTIONS).

Definition listed (s : slot) (ccn : CtrDrvrClientConnections) : bool :=
  existsb (λ x, same_object x s) (ccn_Connections ccn).

(** One step of the loops; a list that is full stops them all. *)
Definition add_unless_full (conx : CtrDrvrConnection) (st : CtrDrvrClientConnections * bool) : CtrDrvrClientConnections * bool :=
  if st.2 then st else add_connection conx st.1.

Definition module_connections (msk : Z) (m : CtrDrvrModuleContext) (st : CtrDrvrClientConnections * bool) :
    CtrDrvrClientConnections * bool :=
  let st := foldl (λ st s,
      if truthy (Z.land msk (Clients s)) && negb (listed s st.1)
      then add_unless_full (mk_connection (ModuleIndex m + 1) (EqpClass s) (EqpNum s)) st else st) st (slots m) in
  let hmsk := foldl (λ h i, if truthy (Z.land msk (nth i (HardClients m) 0)) then Z.lor h (bit (Z.of_nat i)) else h) 0
      (seq 0 (Z.to_nat CtrDrvrInterruptSOURCES)) in
  if truthy hmsk then add_unless_full (mk_connection (ModuleIndex m + 1) HARD hmsk) st else st.

Definition get_client_connections (pid : Z) (wa : CtrDrvrWorkingArea) : CtrDrvrClientConnections :=
  (foldl (λ st c,
    if truthy (cl_InUse c) && (Pid c =? pid)
    then foldl (λ st m, module_connections (bit (ClientIndex c)) m st) st (ModuleContexts wa) else st)
    (mk_client_connections pid 0 [], false) (ClientContexts wa)).1.

(** * Actions: the tables *)

Definition get_action (midx tnum : Z) : Call :=
  m ← mcon midx; mm ← mmap midx;
  if (0 <? tnum) && (tnum <=? Z.of_nat (length (slots m))) then
    let i := Z.to_nat (tnum - 1) in
    s ← lift_opt (slots m !! i); t ← lift_opt (mm_Trigs mm !! i); c ← lift_opt (mm_Configs mm !! i);
    mret (OK, Action (mk_action tnum (EqpNum s) (EqpClass s) ((HardToTrigger t) <| Ctim := Ctim (Trigs s) |>) (HardToConfig c)))
  else mret einval.

Definition write_action (midx : Z) (i : nat) (act : CtrDrvrAction) : Call :=
  m ← mcon midx; s ← lift_opt (slots m !! i);
  let config := (act_Config act) <| OnZero := if truthy (Clients s)
    then Z.lor (OnZero (act_Config act)) CtrDrvrCounterOnZeroBUS
    else Z.ldiff (OnZero (act_Config act)) CtrDrvrCounterOnZeroBUS |> in
  upd_mmap midx (λ mm : CtrDrvrMemoryMap, mm <| mm_Trigs := <[i := TriggerToHard (act_Trigger act)]> (mm_Trigs mm) |>);;
  upd_slot midx i (λ s : slot, s <| Trigs := act_Trigger act |>);;
  upd_mmap midx (λ mm : CtrDrvrMemoryMap, mm <| mm_Configs := <[i := ConfigToHard config]> (mm_Configs mm) |>);;
  upd_slot midx i (λ s : slot, s <| Configs := config |>);;
  mret ok.

Definition set_action (midx : Z) (act : CtrDrvrAction) : Call :=
  m ← mcon midx;
  if (0 <? act_TriggerNumber act) && (act_TriggerNumber act <=? Z.of_nat (length (slots m))) then
    let i := Z.to_nat (act_TriggerNumber act - 1) in
    s ← lift_opt (slots m !! i);
    if bool_decide (EqpClass s = HARD) then mret einval
    else if negb (EqpNum s =? 0) then
      if negb (EqpNum s =? act_EqpNum act) then mret einval
      else if bool_decide (EqpClass s ≠ act_EqpClass act) then mret einval
      else if negb (Counter (Trigs s) =? Counter (act_Trigger act)) then mret einval
      else write_action midx i act
    else
      upd_slot midx i (λ s : slot, s <| EqpNum := act_EqpNum act |> <| EqpClass := act_EqpClass act |>
        <| Trigs := ((Trigs s) <| Counter := Counter (act_Trigger act) |>) |>);;
      write_action midx i act
  else mret einval.

(** * CTIM objects *)

Definition create_ctim (o : CtrDrvrCtimBinding) : Call :=
  l ← gets Ctims;
  if existsb (λ x, ct_EqpNum o =? ct_EqpNum x) l then mret (- EBUSY, Nothing)
  else if Z.of_nat (length l) <? CtrDrvrCtimOBJECTS then
    modify (λ wa : CtrDrvrWorkingArea, wa <| Ctims := l ++ [o] |>);; mret ok
  else mret (- ENOMEM, Nothing).

(** Move the last object to the place of the one that goes. *)
Definition remove_swap {A} (i : nat) (l : list A) : list A :=
  match last l with
  | Some x => take (length l - 1) (<[i := x]> l)
  | None => l
  end.

Definition uses_ctim (eqpnum : Z) (s : slot) : bool := Ctim (Trigs s) =? eqpnum.

(** The object of a CTIM binding that no trigger of the module refers to. *)
Definition with_unused_ctim (midx : Z) (o : CtrDrvrCtimBinding) (k : nat → list CtrDrvrCtimBinding → Call) : Call :=
  l ← gets Ctims;
  match find_idx (λ x, ct_EqpNum o =? ct_EqpNum x) l with
  | None => mret einval
  | Some i =>
    m ← mcon midx;
    if existsb (uses_ctim (ct_EqpNum o)) (slots m) then mret (- EBUSY, Nothing) else k i l
  end.

Definition destroy_ctim (midx : Z) (o : CtrDrvrCtimBinding) : Call :=
  with_unused_ctim midx o (λ i l,
    modify (λ wa : CtrDrvrWorkingArea, wa <| Ctims := remove_swap i l |>);; mret ok).

Definition change_ctim_frame (midx : Z) (o : CtrDrvrCtimBinding) : Call :=
  with_unused_ctim midx o (λ i l,
    modify (λ wa : CtrDrvrWorkingArea, wa <| Ctims := alter (λ x : CtrDrvrCtimBinding, x <| ct_Frame := ct_Frame o |>) i l |>);; mret ok).

(** * PTIM objects *)

(** The search for empty slots: from the slot [i] on, [size] empty ones before it
    that start at [start]; the start of the first run of [want]. *)
Fixpoint find_run (want : Z) (l : list slot) (i size start : Z) : option Z :=
  match l with
  | [] => None
  | s :: l =>
    if EqpNum s =? 0 then
      let start := if size =? 0 then i else start in
      if size + 1 >=? want then Some start else find_run want l (i + 1) (size + 1) start
    else find_run want l (i + 1) 0 start
  end.

Definition ptim_slot (p : CtrDrvrPtimBinding) (s : slot) : slot :=
  s <| EqpNum := pt_EqpNum p |> <| EqpClass := PTIM |> <| Trigs := ((Trigs s) <| Counter := pt_Counter p |>) |>.

(** The slots from [start] on, [size] of them. *)
Definition in_run (start size : Z) (i : nat) : bool := (start <=? Z.of_nat i) && (Z.of_nat i <? start + size).

Definition create_ptim (p : CtrDrvrPtimBinding) : Call :=
  l ← gets Ptims;
  if existsb (λ x, pt_EqpNum p =? pt_EqpNum x) l then mret (- EBUSY, Nothing)
  else if Z.of_nat (length l) >=? CtrDrvrPtimOBJECTS then mret (- ENOMEM, Nothing)
  else
    n ← gets Modules;
    if pt_ModuleIndex p <? n then
      m ← mcon (pt_ModuleIndex p);
      match find_run (pt_Size p) (slots m) 0 0 0 with
      | Some start =>
        upd_mcon (pt_ModuleIndex p) (λ m : CtrDrvrModuleContext,
          m <| slots := imap (λ i s, if in_run start (pt_Size p) i then ptim_slot p s else s) (slots m) |>);;
        modify (λ wa : CtrDrvrWorkingArea, wa <| Ptims := l ++ [p <| pt_StartIndex := start |>] |>);;
        mret ok
      | None => mret einval
      end
    else mret einval.

Definition zero_binding : CtrDrvrPtimBinding := mk_ptim 0 0 0 0 0.

Definition get_ptim_binding (p : CtrDrvrPtimBinding) : Call :=
  l ← gets Ptims;
  match find_idx (λ x, pt_EqpNum p =? pt_EqpNum x) l with
  | Some i => x ← lift_opt (l !! i); mret (OK, Binding x)
  | None => mret (- EINVAL, Binding zero_binding)
  end.

Definition of_ptim (eqpnum : Z) (s : slot) : bool := (EqpNum s =? eqpnum) && bool_decide (EqpClass s = PTIM).

Definition clear_slot (s : slot) : slot :=
  s <| EqpNum := 0 |> <| EqpClass := HARD |> <| Configs := zero_configuration |> <| Trigs := zero_trigger |>.

Definition destroy_ptim (p : CtrDrvrPtimBinding) : Call :=
  n ← gets Modules;
  if pt_ModuleIndex p >=? n then mret einval
  else
    m ← mcon (pt_ModuleIndex p);
    let mine := of_ptim (pt_EqpNum p) in
    if existsb (λ s, mine s && truthy (Clients s)) (slots m) then mret (- EBUSY, Nothing)
    else if existsb mine (slots m) then
      mfold (λ _ i,
        m ← mcon (pt_ModuleIndex p);
        s ← lift_opt (slots m !! i);
        if mine s then
          write_slot (pt_ModuleIndex p) i (mk_hw_trigger 0 0) (ConfigToHard zero_configuration);;
          upd_slot (pt_ModuleIndex p) i clear_slot
        else mret ()) () (seq 0 (length (slots m)));;
      l ← gets Ptims;
      (match find_idx (λ x, pt_EqpNum p =? pt_EqpNum x) l with
       | Some i => modify (λ wa : CtrDrvrWorkingArea, wa <| Ptims := remove_swap i l |>)
       | None => mret ()
       end);;
      mret ok
    else mret einval.

(** * Commands, counters, the bridge *)

(** The shadow of the command word, and the word itself. *)
Definition set_command (midx : Z) (on off : Z) : Call :=
  upd_mcon midx (λ m : CtrDrvrModuleContext, m <| Command := Z.ldiff (Z.lor (Command m) on) off |>);;
  m ← mcon midx;
  upd_mmap midx (λ mm : CtrDrvrMemoryMap, mm <| mm_Command := Command m |>);;
  mret ok.

Definition enable (midx lav : Z) : Call :=
  if lav =? CtrDrvrCommandSET_HPTDC then set_command midx CtrDrvrCommandSET_HPTDC 0
  else if lav =? - CtrDrvrCommandSET_HPTDC - 1 then set_command midx 0 CtrDrvrCommandSET_HPTDC
  else if truthy lav then set_command midx CtrDrvrCommandENABLE CtrDrvrCommandDISABLE
  else set_command midx CtrDrvrCommandDISABLE CtrDrvrCommandENABLE.

Definition set_debug_history (midx lav : Z) : Call :=
  if truthy lav then set_command midx CtrDrvrCommandDebugHisOn CtrDrvrCommandDebugHisOff
  else set_command midx CtrDrvrCommandDebugHisOff CtrDrvrCommandDebugHisOn.

Definition set_brutal_pll (midx lav : Z) : Call :=
  if truthy lav then set_command midx CtrDrvrCommandUtcPllOff CtrDrvrCommandUtcPllOn
  else set_command midx CtrDrvrCommandUtcPllOn CtrDrvrCommandUtcPllOff.

Definition SetTime (midx tod : Z) : WaM () :=
  upd_mmap midx (λ mm : CtrDrvrMemoryMap, mm <| mm_SetTime := tod |> <| mm_Command := CtrDrvrCommandSET_UTC |>).

Definition GetStatus (midx : Z) : WaM Z :=
  mm ← mmap midx;
  upd_mcon midx (λ m : CtrDrvrModuleContext, if BusErrorCount m >? 0 then m <| BusErrorCount := BusErrorCount m - 1 |> else m);;
  upd_mcon midx (λ m : CtrDrvrModuleContext,
    if BusErrorCount m =? 0 then m <| Status := Z.lor (Status m) CtrDrvrStatusNO_BUS_ERROR |> else m);;
  m ← mcon midx;
  mret (Z.lor (Z.land (mm_Status mm) CtrDrvrHwStatusMASK) (Z.ldiff (Status m) CtrDrvrHwStatusMASK)).

(** A counter that can be operated from the host. *)
Definition real_counter (c : Z) : bool := (CtrDrvrCounter1 <=? c) && (c <=? CtrDrvrCounter8).

Definition counter (midx c : Z) : WaM CtrDrvrFpgaCounter :=
  mm ← mmap midx; i ← lift_opt (index c); lift_opt (mm_Counters mm !! i).

Definition upd_counter (midx c : Z) (f : CtrDrvrFpgaCounter → CtrDrvrFpgaCounter) : WaM () :=
  counter midx c;; upd_mmap midx (λ mm : CtrDrvrMemoryMap, mm <| mm_Counters := alter f (Z.to_nat c) (mm_Counters mm) |>).

Definition set_remote (midx c remote : Z) : Call :=
  if real_counter c then upd_counter midx c (λ f : CtrDrvrFpgaCounter, f <| LockConfig := if truthy remote then 1 else 0 |>);; mret ok
  else mret einval.

Definition get_remote (midx c : Z) : Call :=
  if real_counter c then f ← counter midx c; mret (OK, Long (LockConfig f)) else mret einval.

Definition remote_command (midx c remote : Z) : Call :=
  if real_counter c then
    f ← counter midx c;
    if truthy (LockConfig f) then
      upd_counter midx c (λ f : CtrDrvrFpgaCounter,
        f <| RemOutMask := Z.lor CtrDrvrRemoteEXEC (Z.land CtrDrvrCntrCntrlREMOTE_MASK remote) |>);; mret ok
    else mret einval
  else mret einval.

Definition CtrDrvrPolarityTTL : Z := 0.
Definition CtrDrvrPolarityTTL_BAR : Z := 1.

Definition get_out_mask (midx c : Z) : Call :=
  if real_counter c then
    f ← counter midx c;
    let polarity := if truthy (Z.land CtrDrvrCntrCntrlTTL_BAR (RemOutMask f)) then CtrDrvrPolarityTTL_BAR else CtrDrvrPolarityTTL in
    mret (OK, OutMask (AutoShiftRight CtrDrvrCntrCntrlOUT_MASK (Z.ldiff (RemOutMask f) CtrDrvrCntrCntrlTTL_BAR)) polarity)
  else mret einval.

(** The mask is written back when it was 0. *)
Definition set_out_mask (midx c mask polarity : Z) : Call :=
  if real_counter c then
    let mask := if mask =? 0 then bit c else mask in
    let msk := if polarity =? CtrDrvrPolarityTTL_BAR then CtrDrvrCntrCntrlTTL_BAR else 0 in
    upd_counter midx c (λ f : CtrDrvrFpgaCounter, f <| RemOutMask := Z.lor (AutoShiftLeft CtrDrvrCntrCntrlOUT_MASK mask) msk |>);;
    mret (OK, OutMask mask polarity)
  else mret einval.

Definition get_config (midx c : Z) : Call :=
  if (CtrDrvrCounter0 <=? c) && (c <=? CtrDrvrCounter8) then
    f ← counter midx c;
    let conf := HardToConfig (Config f) in
    if (OnZero conf >? Z.lor CtrDrvrCounterOnZeroBUS CtrDrvrCounterOnZeroOUT) || (Start conf >? CtrDrvrCounterSTARTS)
       || (Mode conf >? CtrDrvrCounterMODES) || (Clock conf >? CtrDrvrCounterCLOCKS)
    then mret (- EFAULT, Configuration conf) else mret (OK, Configuration conf)
  else mret einval.

(** The counter is looked at before it is checked. *)
Definition set_config (midx c : Z) (conf : CtrDrvrCounterConfiguration) : Call :=
  f ← counter midx c;
  if truthy (LockConfig f) then
    if (CtrDrvrCounter0 <=? c) && (c <=? CtrDrvrCounter8) then
      upd_counter midx c (λ f : CtrDrvrFpgaCounter, f <| Config := ConfigToHard conf |>);; mret ok
    else mret einval
  else mret einval.

Definition get_counter_history (midx c : Z) : Call :=
  if real_counter c then f ← counter midx c; mret (OK, CounterHistory (History f)) else mret einval.

Definition set_pll (midx : Z) (p : CtrDrvrPll) : Call :=
  upd_mmap midx (λ mm : CtrDrvrMemoryMap, mm <| mm_Pll := p |>);;
  upd_mcon midx (λ m : CtrDrvrModuleContext, m <| Pll := p |>);; mret ok.

Definition get_cable_id (midx : Z) : Call :=
  m ← mcon midx;
  if truthy (CableId m) then mret (OK, Long (CableId m)) else mm ← mmap midx; mret (OK, Long (mm_CableId mm)).

Definition set_input_delay (midx lav : Z) : Call :=
  upd_mmap midx (λ mm : CtrDrvrMemoryMap, mm <| mm_InputDelay := u32 lav |>);;
  upd_mcon midx (λ m : CtrDrvrModuleContext, m <| InputDelay := u32 lav |>);; mret ok.

(** ** JTAG: the bit stream of the gate array *)

Definition CtrDrvrJTAG_PIN_TMS_ONE : Z := 0x4.
Definition CtrDrvrJTAG_PIN_TMS_OUT : Z := 0x2.
Definition CtrDrvrJTAG_PIN_TCK_ONE : Z := 0x20.
Definition CtrDrvrJTAG_PIN_TCK_OUT : Z := 0x10.
Definition CtrDrvrJTAG_PIN_TDI_ONE : Z := 0x100.
Definition CtrDrvrJTAG_PIN_TDI_OUT : Z := 0x80.
Definition jtag_pins : Z := Z.lor (Z.lor CtrDrvrJTAG_PIN_TMS_OUT CtrDrvrJTAG_PIN_TCK_OUT) CtrDrvrJTAG_PIN_TDI_OUT.

Definition jtag_open (midx : Z) : Call :=
  upd_mcon midx (λ m : CtrDrvrModuleContext, if IrqBalance m =? 1 then m <| IrqBalance := 0 |> else m);;
  upd_mmap midx (λ mm : CtrDrvrMemoryMap, mm <| mm_InterruptEnable := 0 |>);;
  local_write midx PLX9030_INTCSR 0 2;;
  local_write midx PLX9030_LAS0BA 0 4;;
  local_write midx PLX9030_GPIOC jtag_pins 4;;
  upd_mcon midx (λ m : CtrDrvrModuleContext, m <| FlashOpen := 1 |>);;
  mret ok.

Definition CtrDrvrJTAG_TDO : Z := 0x01.
Definition CtrDrvrJTAG_TDI : Z := 0x02.
Definition CtrDrvrJTAG_TMS : Z := 0x04.
Definition CtrDrvrJTAG_TCK : Z := 0x08.
Definition CtrDrvrJTAG_PIN_TDO_ONE : Z := 0x800.

Definition jtag_read_byte (midx : Z) : Call :=
  e ← gets Endian; m ← mcon midx;
  if truthy (FlashOpen m) then
    p ← lift_opt (DrmLocalReadWrite e (Local m) PLX9030_GPIOC 0 4 false);
    mret (OK, Long (if truthy (Z.land p.2 CtrDrvrJTAG_PIN_TDO_ONE) then CtrDrvrJTAG_TDO else 0))
  else mret (- EBUSY, Nothing).

Definition jtag_write_byte (midx lav : Z) : Call :=
  m ← mcon midx;
  if truthy (FlashOpen m) then
    let pin (b one v : Z) := if truthy (Z.land lav b) then Z.lor v one else v in
    local_write midx PLX9030_GPIOC
      (pin CtrDrvrJTAG_TDI CtrDrvrJTAG_PIN_TDI_ONE
        (pin CtrDrvrJTAG_TCK CtrDrvrJTAG_PIN_TCK_ONE (pin CtrDrvrJTAG_TMS CtrDrvrJTAG_PIN_TMS_ONE jtag_pins))) 4;;
    mret ok
  else mret (- EBUSY, Nothing).

(** The wait for the module to settle leaves the timer of the module at 0. *)
Definition jtag_close (midx : Z) : Call :=
  local_write midx PLX9030_LAS0BA 1 4;;
  EnableInterrupts midx 0;;
  upd_mcon midx (λ m : CtrDrvrModuleContext, m <| FlashOpen := 0 |> <| IrqBalance := 1 |>);;
  mret ok.

(** * Reset *)

Definition default_pll (p : CtrDrvrPll) : CtrDrvrPll :=
  if KP p =? 0 then p <| KP := 337326 |> <| KI := 901 |> <| NumAverage := 100 |> <| Phase := 1950 |> else p.

(** A counter without an output gets its own. *)
Definition default_output (i : nat) (f : CtrDrvrFpgaCounter) : CtrDrvrFpgaCounter :=
  if real_counter (Z.of_nat i) && (RemOutMask f =? 0)
  then f <| RemOutMask := AutoShiftLeft CtrDrvrCntrCntrlOUT_MASK (bit (Z.of_nat i)) |> else f.

(** The wait after the reset command, and the JTAG registers of the HPTDC chip, change
    nothing else of the state. *)
Definition Reset (midx : Z) : WaM Z :=
  upd_mmap midx (λ mm : CtrDrvrMemoryMap, mm <| mm_Command := CtrDrvrCommandRESET |>);;
  upd_mcon midx (λ m : CtrDrvrModuleContext, m <| Status := Z.lor CtrDrvrStatusNO_LOST_INTERRUPTS CtrDrvrStatusNO_BUS_ERROR |>
    <| BusErrorCount := 0 |> <| Command := Z.ldiff (Command m) CtrDrvrCommandSET_HPTDC |>);;
  m ← mcon midx;
  upd_mmap midx (λ mm : CtrDrvrMemoryMap, mm <| mm_Command := Command m |> <| mm_Counters := imap default_output (mm_Counters mm) |>
    <| mm_OutputByte := 0x100 |>);;
  upd_mcon midx (λ m : CtrDrvrModuleContext, m <| Pll := default_pll (Pll m) |>);;
  m ← mcon midx;
  upd_mmap midx (λ mm : CtrDrvrMemoryMap, mm <| mm_Pll := Pll m |>);;
  EnableInterrupts midx (InterruptEnable m);;
  mret OK.

(** * The switch *)

Inductive request :=
  | SET_TIMEOUT | GET_TIMEOUT | SET_QUEUE_FLAG | GET_QUEUE_FLAG | GET_QUEUE_SIZE | GET_QUEUE_OVERFLOW
  | SET_MODULE_BY_SLOT | GET_MODULE_SLOT | SET_MODULE | GET_MODULE | GET_MODULE_COUNT
  | LOCK | UNLOCK | RESET | GET_STATUS
  | GET_CLIENT_LIST | CONNECT (conx : CtrDrvrConnection) | DISCONNECT (conx : CtrDrvrConnection)
  | GET_CLIENT_CONNECTIONS (pid : Z)
  | SET_UTC | GET_UTC | GET_CABLE_ID | SET_CABLE_ID
  | JTAG_OPEN | JTAG_READ_BYTE | JTAG_WRITE_BYTE | JTAG_CLOSE | HPTDC_OPEN | HPTDC_CLOSE
  | PLX9030_CONFIG_OPEN | PLX9030_CONFIG_CLOSE | PLX9030_LOCAL_OPEN | PLX9030_LOCAL_CLOSE
  | GET_ACTION (tnum : Z) | SET_ACTION (act : CtrDrvrAction)
  | CREATE_CTIM_OBJECT (o : CtrDrvrCtimBinding) | DESTROY_CTIM_OBJECT (o : CtrDrvrCtimBinding)
  | CHANGE_CTIM_FRAME (o : CtrDrvrCtimBinding) | LIST_CTIM_OBJECTS
  | CREATE_PTIM_OBJECT (p : CtrDrvrPtimBinding) | GET_PTIM_BINDING (p : CtrDrvrPtimBinding)
  | DESTROY_PTIM_OBJECT (p : CtrDrvrPtimBinding) | LIST_PTIM_OBJECTS
  | ENABLE | SET_DEBUG_HISTORY | SET_BRUTAL_PLL | GET_INPUT_DELAY | SET_INPUT_DELAY
  | GET_REMOTE (c : Z) | SET_REMOTE (c remote : Z) | REMOTE (c remote : Z)
  | GET_OUT_MASK (c : Z) | SET_OUT_MASK (c mask polarity : Z)
  | GET_CONFIG (c : Z) | SET_CONFIG (c : Z) (conf : CtrDrvrCounterConfiguration)
  | GET_COUNTER_HISTORY (c : Z) | GET_PLL | SET_PLL (p : CtrDrvrPll)
  | OTHER.

Section driver.
Variable beyond : Z → Z.

(** A field of the module context that the request sets. *)
Definition set_mcon (midx : Z) (f : CtrDrvrModuleContext → CtrDrvrModuleContext) : Call := upd_mcon midx f;; mret ok.

Definition dispatch (cm : request) (arg : argument) (cnum : Z) (c : CtrDrvrClientContext) (midx : Z) (m : CtrDrvrModuleContext) : Call :=
  let v := lav arg in
  match cm with
  | SET_TIMEOUT => with_long arg (set_timeout cnum v)
  | GET_TIMEOUT => with_long arg (mret (OK, Long (Timeout c)))
  | SET_QUEUE_FLAG => with_long arg (set_queue_flag cnum v)
  | GET_QUEUE_FLAG => with_long arg (mret (OK, Long (QueueOff (Queue c))))
  | GET_QUEUE_SIZE => with_long arg (mret (OK, Long (Size (Queue c))))
  | GET_QUEUE_OVERFLOW => with_long arg (get_queue_overflow cnum)
  | SET_MODULE_BY_SLOT => with_long arg (set_module_by_slot cnum v)
  | GET_MODULE_SLOT => with_long arg (mret (OK, Long (PciSlot m)))
  | SET_MODULE => with_long arg (set_module cnum v)
  | GET_MODULE => with_long arg (mret (OK, Long (cl_ModuleIndex c + 1)))
  | GET_MODULE_COUNT => with_long arg (n ← gets Modules; mret (OK, Long n))
  | LOCK => set_mcon midx (λ m : CtrDrvrModuleContext, m <| UpLock := 1 |>)
  | UNLOCK => clr_uplock midx v;; mret ok
  | RESET => unless_locked m (r ← Reset midx; mret (r, Nothing))
  | GET_STATUS => with_long arg (s ← GetStatus midx; if s =? SYSERR then mret einval else mret (OK, Long s))
  | GET_CLIENT_LIST => writable arg 68 (l ← gets ClientContexts; mret (OK, PidList (get_client_list l)))
  | CONNECT conx => unless_locked m (readable arg 12 (r ← Connect conx c; mret (r, Nothing)))
  | DISCONNECT conx => unless_locked m (readable arg 12
      (if truthy (conx_EqpNum conx) then r ← DisConnect beyond conx c; mret (r, Nothing)
       else r ← DisConnectAll beyond c; mret (r, Nothing)))
  | GET_CLIENT_CONNECTIONS pid => writable arg 6152 (ccn ← gets (get_client_connections pid); mret (OK, ConnectionList ccn))
  | SET_UTC => unless_locked m (with_long arg (SetTime midx (u32 v);; mret ok))
  | GET_UTC => writable arg 12 (t ← GetTime midx; mret (OK, Time t))
  | GET_CABLE_ID => with_long arg (get_cable_id midx)
  | SET_CABLE_ID => unless_locked m (with_long arg (set_mcon midx (λ m : CtrDrvrModuleContext, m <| CableId := u32 v |>)))
  | JTAG_OPEN => unless_locked m (jtag_open midx)
  | JTAG_READ_BYTE => unless_locked m (with_long arg (jtag_read_byte midx))
  | JTAG_WRITE_BYTE => unless_locked m (with_long arg (jtag_write_byte midx v))
  | JTAG_CLOSE => unless_locked m (jtag_close midx)
  | HPTDC_OPEN => unless_locked m (set_mcon midx (λ m : CtrDrvrModuleContext, m <| HptdcOpen := 1 |>))
  | HPTDC_CLOSE => unless_locked m (set_mcon midx (λ m : CtrDrvrModuleContext, m <| HptdcOpen := 0 |>))
  | PLX9030_CONFIG_OPEN => unless_locked m (set_mcon midx (λ m : CtrDrvrModuleContext, m <| ConfigOpen := 1 |>))
  | PLX9030_CONFIG_CLOSE => unless_locked m (set_mcon midx (λ m : CtrDrvrModuleContext, m <| ConfigOpen := 0 |>))
  | PLX9030_LOCAL_OPEN => unless_locked m (set_mcon midx (λ m : CtrDrvrModuleContext, m <| LocalOpen := 1 |>))
  | PLX9030_LOCAL_CLOSE => unless_locked m (set_mcon midx (λ m : CtrDrvrModuleContext, m <| LocalOpen := 0 |>))
  | GET_ACTION tnum => writable arg 60 (get_action midx tnum)
  | SET_ACTION act => unless_locked m (readable arg 60 (set_action midx act))
  | CREATE_CTIM_OBJECT o => unless_locked m (readable arg 8 (create_ctim o))
  | DESTROY_CTIM_OBJECT o => unless_locked m (readable arg 8 (destroy_ctim midx o))
  | CHANGE_CTIM_FRAME o => unless_locked m (readable arg 8 (change_ctim_frame midx o))
  | LIST_CTIM_OBJECTS => writable arg 16388 (l ← gets Ctims; mret (OK, CtimList l))
  | CREATE_PTIM_OBJECT p => unless_locked m (readable arg 12 (create_ptim p))
  | GET_PTIM_BINDING p => readable arg 12 (get_ptim_binding p)
  | DESTROY_PTIM_OBJECT p => unless_locked m (readable arg 12 (destroy_ptim p))
  | LIST_PTIM_OBJECTS => writable arg 24580 (l ← gets Ptims; mret (OK, PtimList l))
  | ENABLE => unless_locked m (enable midx v)
  | SET_DEBUG_HISTORY => unless_locked m (set_debug_history midx v)
  | SET_BRUTAL_PLL => unless_locked m (set_brutal_pll midx v)
  | GET_INPUT_DELAY => with_long arg (mm ← mmap midx; mret (OK, Long (mm_InputDelay mm)))
  | SET_INPUT_DELAY => unless_locked m (set_input_delay midx v)
  | GET_REMOTE c => writable arg 8 (get_remote midx c)
  | SET_REMOTE c remote => unless_locked m (readable arg 8 (set_remote midx c remote))
  | REMOTE c remote => unless_locked m (readable arg 8 (remote_command midx c remote))
  | GET_OUT_MASK c => writable arg 12 (get_out_mask midx c)
  | SET_OUT_MASK c mask polarity => unless_locked m (readable arg 12 (set_out_mask midx c mask polarity))
  | GET_CONFIG c => writable arg 28 (get_config midx c)
  | SET_CONFIG c conf => unless_locked m (readable arg 28 (set_config midx c conf))
  | GET_COUNTER_HISTORY c => writable arg 48 (get_counter_history midx c)
  | GET_PLL => writable arg 32 (mm ← mmap midx; mret (OK, PllRegisters (mm_Pll mm)))
  | SET_PLL p => unless_locked m (readable arg 32 (set_pll midx p))
  | OTHER => mret einval
  end.

Definition CtrDrvrIoctl (minor : Z) (cm : request) (arg : argument) : Call :=
  if negb (null arg) && (rcnt arg <? 4) then mret einval
  else
    let cnum := minor - 1 in
    if negb (client_number cnum) then mret (- ENODEV, Nothing)
    else
      c ← ccon cnum;
      if cl_InUse c =? 0 then mret (- EBADF, Nothing)
      else
        m ← mcon (cl_ModuleIndex c);
        if InUse m =? 0 then mret (- ENODEV, Nothing)
        else dispatch cm arg cnum c (cl_ModuleIndex c) m.
End driver.
