(* ===== verification/CtrQueueProofs.v ===== *)
(** The queue of a client is a first-in first-out list of at most 64 entries that
    forgets its oldest entry when it is full. *)
From S2P Require Import Prelude CtrHard CdcmSem CtrDrvr CtrQueue.

Local Open Scope Z_scope.

(** * The specification *)

Definition limit : nat := 64.

(** The newest [limit] entries. *)
Definition bounded_put {A} (x : A) (l : list A) : list A := newest limit x l.

Lemma bounded_put_length {A} (x : A) l : (length l <= limit)%nat → (length (bounded_put x l) <= limit)%nat.
Proof. apply newest_length. unfold limit. lia. Qed.

(** * The ring *)

(** The entries of [q], oldest first, are [l]. *)
Record ring (q : CtrDrvrQueue) (l : list CtrDrvrReadBuf) : Prop := {
  ri_length : length (Entries q) = limit;
  ri_ring : ring_at (Entries q) (RdPntr q) l;
  ri_size : Size q = Z.of_nat (length l);
  ri_wr : WrPntr q = (RdPntr q + Size q) mod 64
}.

Lemma ring_zero : ring zero_queue [].
Proof. split; try done. apply ring_empty. done. Qed.

Lemma queue_put_ring q l x : ring q l →
  ring (queue_put x q).1 (bounded_put x l) ∧ (queue_put x q).2 = bool_decide (length l < limit)%nat ∧
  Missed (queue_put x q).1 = (if decide (length l < limit)%nat then Missed q else (Missed q + 1) mod 2 ^ 16).
Proof.
  intros [Hlen Hring Hsz Hwr]. pose proof (ring_put _ _ _ x Hring) as Hput. pose proof (ra_fits _ _ _ Hring).
  unfold queue_put. change CtrDrvrQUEUE_SIZE with 64. rewrite Hlen in Hput. cbv zeta in Hput |- *.
  change (Z.of_nat limit) with 64 in Hput. rewrite <- Hsz, <- Hwr in Hput.
  destruct q as [off miss sz rd wr es]. cbn in *. unfold limit in *.
  destruct (decide (length l < 64)%nat) as [Hlt|Hge].
  - rewrite (proj2 (Z.ltb_lt sz 64)), bool_decide_eq_true_2 by lia. split; [|done].
    split; cbn; [by rewrite length_insert|done| |].
    + unfold bounded_put, newest. rewrite decide_True, length_app by (unfold limit; lia). simpl. lia.
    + rewrite Hwr, Zplus_mod_idemp_l. f_equal. lia.
  - rewrite (proj2 (Z.ltb_ge sz 64)), bool_decide_eq_false_2 by lia. split; [|done].
    split; cbn; [by rewrite length_insert|done| |].
    + unfold bounded_put, newest. rewrite decide_False, length_app by (unfold limit; lia). destruct l; simpl in *; lia.
    + rewrite Hwr, !Zplus_mod_idemp_l. f_equal. lia.
Qed.

Lemma queue_take_ring q x l : ring q (x :: l) → ∃ q', queue_take q = Some (x, q') ∧ ring q' l ∧ Missed q' = Missed q.
Proof.
  intros [Hlen Hring Hsz Hwr]. destruct (ring_take _ _ _ _ Hring) as [Hx Hrest]. rewrite Hlen in Hrest.
  unfold queue_take. change CtrDrvrQUEUE_SIZE with 64. rewrite Hx. cbn. eexists. split; [done|]. split; [|by destruct q].
  destruct q as [off miss sz rd wr es]. cbn in *. split; cbn; [done|done|lia|].
  rewrite Hwr, Zplus_mod_idemp_l. f_equal. lia.
Qed.

Lemma queue_reset_ring q l : ring q l → ring (queue_reset q) [].
Proof. intros [Hlen _ _ _]. destruct q. split; cbn in *; try done. apply ring_empty. rewrite Hlen. done. Qed.

(** * Histories of one queue *)

Inductive queue_op := Put (x : CtrDrvrReadBuf) | Take | Clear.

(** What the driver does; a take looks at [Size] first. *)
Definition run_op (o : queue_op) (q : CtrDrvrQueue) : option (option CtrDrvrReadBuf * CtrDrvrQueue) :=
  match o with
  | Put x => Some (None, (queue_put x q).1)
  | Take => if truthy (Size q) then '(x, q) ← queue_take q; Some (Some x, q) else Some (None, q)
  | Clear => Some (None, queue_reset q)
  end.

Definition spec_op (o : queue_op) (l : list CtrDrvrReadBuf) : option CtrDrvrReadBuf * list CtrDrvrReadBuf :=
  match o with
  | Put x => (None, bounded_put x l)
  | Take => (head l, tail l)
  | Clear => (None, [])
  end.

Fixpoint run_ops (os : list queue_op) (q : CtrDrvrQueue) : option (list (option CtrDrvrReadBuf) * CtrDrvrQueue) :=
  match os with
  | [] => Some ([], q)
  | o :: os => '(r, q) ← run_op o q; '(rs, q) ← run_ops os q; Some (r :: rs, q)
  end.

Fixpoint spec_ops (os : list queue_op) (l : list CtrDrvrReadBuf) : list (option CtrDrvrReadBuf) * list CtrDrvrReadBuf :=
  match os with
  | [] => ([], l)
  | o :: os => let '(r, l) := spec_op o l in let '(rs, l) := spec_ops os l in (r :: rs, l)
  end.

Lemma run_op_ring o q l : ring q l → ∃ q', run_op o q = Some ((spec_op o l).1, q') ∧ ring q' (spec_op o l).2.
Proof.
  intros Hr. destruct o as [x| |].
  - eexists. split; [done|]. by apply queue_put_ring.
  - cbn [run_op spec_op]. rewrite (ri_size _ _ Hr). destruct l as [|x l]; [by eexists|].
    destruct (queue_take_ring q x l Hr) as (q' & E & Hr' & _). exists q'. rewrite E. done.
  - eexists. split; [done|]. by eapply queue_reset_ring.
Qed.

Lemma run_ops_ring os : ∀ q l, ring q l → ∃ q', run_ops os q = Some ((spec_ops os l).1, q') ∧ ring q' (spec_ops os l).2.
Proof.
  induction os as [|o os IH]; intros q l Hr; [by exists q|]. destruct (run_op_ring o q l Hr) as (q1 & E1 & Hr1).
  cbn [run_ops spec_ops]. rewrite E1. destruct (spec_op o l) as [r l1]. cbn in *.
  destruct (IH q1 l1 Hr1) as (q2 & E2 & Hr2). rewrite E2. cbn. destruct (spec_ops os l1) as [rs l2]. by exists q2.
Qed.

(** C24 The queue of a client is a first-in first-out list of the newest 64 entries.
    In every history of entries placed, taken and cleared, what is taken is what this list gives,
    and no index leaves the array. *)
Theorem queue_refines (os : list queue_op) :
  ∃ q, run_ops os zero_queue = Some ((spec_ops os []).1, q) ∧ ring q (spec_ops os []).2.
Proof. apply run_ops_ring, ring_zero. Qed.
