(* ===== verification/CtrIntr.v ===== *)
(** What the interrupt handler of the timing receiver does to the queues of the clients. *)
From S2P Require Import Prelude CtrHard CdcmSem CdcmSemProofs CtrDrvr CtrQueue CtrQueueProofs.

Local Open Scope Z_scope.

#[local] Arguments Nat.ltb : simpl never.

(** * Running accesses *)

Lemma index_nat n : index (Z.of_nat n) = Some n.
Proof. unfold index. destruct (Z.ltb_spec (Z.of_nat n) 0); [lia|]. by rewrite Nat2Z.id. Qed.

Lemma mcon_run wa n m : ModuleContexts wa !! n = Some m → mcon (Z.of_nat n) wa = Some (m, wa).
Proof. intros Hm. unfold mcon, gets, lift_opt, mbind, M_bind. rewrite index_nat. cbn. by rewrite Hm. Qed.

Definition set_module_context (n : nat) (m : CtrDrvrModuleContext) (wa : CtrDrvrWorkingArea) : CtrDrvrWorkingArea :=
  wa <| ModuleContexts := <[n := m]> (ModuleContexts wa) |>.

Lemma alter_at_insert {A} (f : A → A) (l : list A) n x : l !! n = Some x → alter f n l = <[n := f x]> l.
Proof. revert n. induction l as [|y l IH]; intros [|n] Hx; try done; simpl in *; [by injection Hx as ->|by rewrite <- (IH n)]. Qed.

Lemma upd_mcon_run wa n m f : ModuleContexts wa !! n = Some m →
  upd_mcon (Z.of_nat n) f wa = Some ((), set_module_context n (f m) wa).
Proof.
  intros Hm. unfold upd_mcon, mbind, M_bind. rewrite (mcon_run wa n m Hm). unfold modify, set_module_context.
  by rewrite Nat2Z.id, (alter_at_insert f _ n m Hm).
Qed.

Lemma mmap_run wa n m mm : ModuleContexts wa !! n = Some m → Map m = Some mm → mmap (Z.of_nat n) wa = Some (mm, wa).
Proof. intros Hm Hmm. unfold mmap, lift_opt, mbind, M_bind. rewrite (mcon_run wa n m Hm). by rewrite Hmm. Qed.

Definition set_map (mm : CtrDrvrMemoryMap) (m : CtrDrvrModuleContext) : CtrDrvrModuleContext := m <| Map := Some mm |>.

Lemma upd_mmap_run wa n m mm f : ModuleContexts wa !! n = Some m → Map m = Some mm →
  upd_mmap (Z.of_nat n) f wa = Some ((), set_module_context n (set_map (f mm) m) wa).
Proof.
  intros Hm Hmm. unfold upd_mmap, mbind, M_bind. rewrite (mmap_run wa n m mm Hm Hmm), (upd_mcon_run wa n m _ Hm).
  unfold set_map. by rewrite Hmm.
Qed.

Lemma ccon_run wa n c : ClientContexts wa !! n = Some c → ccon (Z.of_nat n) wa = Some (c, wa).
Proof. intros Hm. unfold ccon, gets, lift_opt, mbind, M_bind. rewrite index_nat. cbn. by rewrite Hm. Qed.

Definition set_client (n : nat) (c : CtrDrvrClientContext) (wa : CtrDrvrWorkingArea) : CtrDrvrWorkingArea :=
  wa <| ClientContexts := <[n := c]> (ClientContexts wa) |>.

Lemma upd_ccon_run wa n c f : ClientContexts wa !! n = Some c →
  upd_ccon (Z.of_nat n) f wa = Some ((), set_client n (f c) wa).
Proof.
  intros Hm. unfold upd_ccon, mbind, M_bind. rewrite (ccon_run wa n c Hm). unfold modify, set_client.
  by rewrite Nat2Z.id, (alter_at_insert f _ n c Hm).
Qed.

Lemma set_client_lookup n c wa c0 : ClientContexts wa !! n = Some c0 → ClientContexts (set_client n c wa) !! n = Some c.
Proof. intros Hc. unfold set_client. cbn. apply list_lookup_insert_eq. by eapply lookup_lt_Some. Qed.

Lemma set_client_twice n c c' wa : set_client n c (set_client n c' wa) = set_client n c wa.
Proof. unfold set_client. destruct wa. cbn. by rewrite list_insert_insert_eq. Qed.

Lemma on_semaphore_run {A} wa n c (m : M cdcm_sem A) a s : ClientContexts wa !! n = Some c → m (Semaphore c) = Some (a, s) →
  on_semaphore (Z.of_nat n) m wa = Some (a, set_client n (c <| Semaphore := s |>) wa).
Proof.
  intros Hc E. unfold on_semaphore, lift_opt, mbind, M_bind. rewrite (ccon_run wa n c Hc), E. cbn.
  by rewrite (upd_ccon_run wa n c _ Hc).
Qed.

(** * Delivery *)

Definition up_sem (s : cdcm_sem) : cdcm_sem := match cdcm_up s with Some (_, s') => s' | None => s end.

(** What one entry does to a client. *)
Definition put_client (rbf : CtrDrvrReadBuf) (c : CtrDrvrClientContext) : CtrDrvrClientContext :=
  let '(q, free) := queue_put rbf (Queue c) in
  c <| Queue := q |> <| Semaphore := if free : bool then up_sem (Semaphore c) else Semaphore c |>.

Lemma up_sem_run s : sem_inv s → cdcm_up s = Some ((), up_sem s) ∧ sem_inv (up_sem s).
Proof. intros Hi. destruct (up_ok s Hi) as (s' & E & Hi' & _). unfold up_sem. by rewrite E. Qed.

Lemma put_client_sem rbf c : sem_inv (Semaphore c) → sem_inv (Semaphore (put_client rbf c)).
Proof.
  intros Hi. unfold put_client. destruct (queue_put rbf (Queue c)) as [q []]; destruct c; cbn; [|done]. by apply up_sem_run.
Qed.

Lemma deliver_run rbf wa n c : ClientContexts wa !! n = Some c → sem_inv (Semaphore c) →
  deliver rbf (Z.of_nat n) wa = Some ((), set_client n (put_client rbf c) wa).
Proof.
  intros Hc Hi. unfold deliver, mbind, M_bind. rewrite (ccon_run wa n c Hc). unfold put_client.
  destruct (queue_put rbf (Queue c)) as [q free]. rewrite (upd_ccon_run wa n c _ Hc). destruct free.
  - rewrite (on_semaphore_run _ n (c <| Queue := q |>) cdcm_up () (up_sem (Semaphore c)));
      [|by eapply set_client_lookup|destruct c; cbn; by apply up_sem_run].
    rewrite set_client_twice. by destruct c.
  - unfold mret, M_ret. by destruct c.
Qed.

(** The clients of a mask, from the [k]-th on. *)
Definition put_some (rbf : CtrDrvrReadBuf) (clients : Z) (i : nat) (c : CtrDrvrClientContext) : CtrDrvrClientContext :=
  if Z.testbit clients (Z.of_nat i) then put_client rbf c else c.

Lemma bit_shift i : 0 <= i < 32 → bit i = Z.shiftl 1 i.
Proof.
  intros Hi. unfold bit, u32. rewrite Z.shiftl_1_l. apply Z.mod_small. split; [apply Z.pow_nonneg; lia|].
  apply Z.pow_lt_mono_r; lia.
Qed.

Lemma truthy_land_bit x i : 0 <= i < 32 → truthy (Z.land x (bit i)) = Z.testbit x i.
Proof. intros Hi. rewrite bit_shift by done. apply truthy_bit. lia. Qed.

Lemma deliver_loop rbf clients wa : Forall (λ c, sem_inv (Semaphore c)) (ClientContexts wa) →
  ∀ k n, (n + k <= 32)%nat → (n + k <= length (ClientContexts wa))%nat →
  mfold (λ _ i, if truthy (Z.land clients (bit (Z.of_nat i))) then deliver rbf (Z.of_nat i) else mret ()) () (seq n k)
    (wa <| ClientContexts := imap (λ i c, if (i <? n)%nat then put_some rbf clients i c else c) (ClientContexts wa) |>) =
  Some ((), wa <| ClientContexts := imap (λ i c, if (i <? n + k)%nat then put_some rbf clients i c else c) (ClientContexts wa) |>).
Proof.
  intros Hi. induction k as [|k IH]; intros n Hk Hl; [by rewrite Nat.add_0_r|]. cbn [seq mfold].
  destruct (lookup_lt_is_Some_2 (ClientContexts wa) n) as [c Hc]; [lia|].
  rewrite truthy_land_bit by lia.
  assert (Hstep : (if Z.testbit clients (Z.of_nat n) then deliver rbf (Z.of_nat n) else mret ())
     (wa <| ClientContexts := imap (λ i c, if (i <? n)%nat then put_some rbf clients i c else c) (ClientContexts wa) |>) =
     Some ((), wa <| ClientContexts := imap (λ i c, if (i <? S n)%nat then put_some rbf clients i c else c) (ClientContexts wa) |>)).
  { assert (Hn : imap (λ i c, if (i <? n)%nat then put_some rbf clients i c else c) (ClientContexts wa) !! n = Some c).
    { rewrite list_lookup_imap, Hc. cbn [fmap option_fmap option_map]. by rewrite (proj2 (Nat.ltb_ge n n)) by lia. }
    assert (Hext : ∀ c', c' = put_some rbf clients n c →
      <[n := c']> (imap (λ i c, if (i <? n)%nat then put_some rbf clients i c else c) (ClientContexts wa)) =
      imap (λ i c, if (i <? S n)%nat then put_some rbf clients i c else c) (ClientContexts wa)).
    { intros c' ->. apply list_eq. intros i. rewrite list_lookup_insert. rewrite !list_lookup_imap.
      destruct (decide _) as [[<- Hlt]|Hne].
      - rewrite Hc. cbn [fmap option_fmap option_map]. by rewrite (proj2 (Nat.ltb_lt n (S n))) by lia.
      - destruct (ClientContexts wa !! i) as [d|] eqn:Hd; [|done]. cbn [fmap option_fmap option_map]. f_equal.
        destruct (Nat.ltb_spec i n), (Nat.ltb_spec i (S n)); try done; try lia.
        exfalso. apply Hne. split; [lia|]. rewrite length_imap. lia. }
    pose proof (Hext _ eq_refl) as He. unfold put_some at 1 in He. destruct (Z.testbit clients (Z.of_nat n)).
    - rewrite (deliver_run rbf _ n c) by (cbn; first [exact Hn|eapply (Forall_lookup_1 _ _ _ _ Hi Hc)]).
      unfold set_client. cbn. rewrite <- He. by destruct wa.
    - unfold mret, M_ret. by rewrite <- He, list_insert_id by exact Hn. }
  unfold mbind, M_bind. rewrite Hstep. rewrite <- Nat.add_succ_comm. apply IH; lia.
Qed.

Lemma deliver_all_run rbf clients wa : length (ClientContexts wa) = 16%nat →
  Forall (λ c, sem_inv (Semaphore c)) (ClientContexts wa) →
  deliver_all rbf clients wa = Some ((), wa <| ClientContexts := imap (put_some rbf clients) (ClientContexts wa) |>).
Proof.
  intros Hl Hi. unfold deliver_all. change (Z.to_nat CtrDrvrCLIENT_CONTEXTS) with 16%nat.
  pose proof (deliver_loop rbf clients wa Hi 16 0 ltac:(lia) ltac:(lia)) as E.
  assert (H0 : wa <| ClientContexts := imap (λ i c, if (i <? 0)%nat then put_some rbf clients i c else c) (ClientContexts wa) |> = wa).
  { destruct wa. cbn. f_equal. apply list_eq. intros i. rewrite list_lookup_imap. by destruct (_ !! i). }
  rewrite H0 in E. rewrite E. f_equal. f_equal. destruct wa. cbn in *. f_equal. apply imap_ext. intros i c Hc.
  apply lookup_lt_Some in Hc. by destruct (Nat.ltb_spec i 16); [|lia].
Qed.

(** * Sources *)

Lemma wp_of_run {S A} (m : M S A) Q s a s' : m s = Some (a, s') → Q a s' → wp m Q s.
Proof. intros E HQ. unfold wp. by rewrite E. Qed.

Lemma set_module_lookup n m m0 wa : ModuleContexts wa !! n = Some m0 → ModuleContexts (set_module_context n m wa) !! n = Some m.
Proof. intros Hm. unfold set_module_context. cbn. apply list_lookup_insert_eq. by eapply lookup_lt_Some. Qed.

Lemma set_module_twice n m m' wa : set_module_context n m (set_module_context n m' wa) = set_module_context n m wa.
Proof. unfold set_module_context. destruct wa. cbn. by rewrite list_insert_insert_eq. Qed.

Lemma set_module_same n m wa : ModuleContexts wa !! n = Some m → set_module_context n m wa = wa.
Proof. intros Hm. unfold set_module_context. destruct wa. cbn in *. by rewrite list_insert_id. Qed.

(** The clients of the object that loaded a counter, and what they are to read. *)
Definition object_event (m : CtrDrvrModuleContext) (mm : CtrDrvrMemoryMap) (inum : nat) : Z * CtrDrvrReadBuf :=
  match mm_Counters mm !! inum with
  | Some f =>
    let hist := History f in
    if (LockConfig f =? 0) && (hist_Index hist <? Z.of_nat (length (slots m))) then
      match slots m !! Z.to_nat (hist_Index hist) with
      | Some s => if truthy (Clients s)
          then (Clients s,
            mk_read_buf (mk_connection (ModuleIndex m + 1) (EqpClass s) (EqpNum s)) (hist_Index hist + 1) 0
              (Ctim (Trigs s)) (hist_Frame hist) (hist_TriggerTime hist) (hist_StartTime hist) (hist_OnZeroTime hist))
          else (0, zero_read_buf)
      | None => (0, zero_read_buf)
      end
    else (0, zero_read_buf)
  | None => (0, zero_read_buf)
  end.

(** The clients of the source itself. *)
Definition source_event (m : CtrDrvrModuleContext) (mm : CtrDrvrMemoryMap) (inum : nat) : Z * CtrDrvrReadBuf :=
  let clients := nth inum (HardClients m) 0 in
  if truthy clients then
    let t := if Z.of_nat inum <? CtrDrvrCOUNTERS
             then match mm_Counters mm !! inum with Some f => hist_OnZeroTime (History f) | None => zero_ctime end
             else mm_ReadTime mm in
    (clients, zero_read_buf <| rb_OnZeroTime := t |> <| rb_Connection := mk_connection (ModuleIndex m + 1) HARD (bit (Z.of_nat inum)) |>)
  else (0, zero_read_buf).

Definition event (m : CtrDrvrModuleContext) (mm : CtrDrvrMemoryMap) (inum : nat) : Z * CtrDrvrReadBuf :=
  let p := if Z.of_nat inum <? CtrDrvrCOUNTERS then object_event m mm inum else (0, zero_read_buf) in
  let p := if p.1 =? 0 then source_event m mm inum else p in
  (Z.lor p.1 (nth inum (HardClients m) 0), p.2 <| rb_InterruptNumber := Z.of_nat inum |>).

(** What the handler reads of a module, and nothing of what it writes. *)
Record same_inputs (m : CtrDrvrModuleContext) (mm : CtrDrvrMemoryMap) (m' : CtrDrvrModuleContext) (mm' : CtrDrvrMemoryMap) : Prop := {
  sa_slots : slots m' = slots m;
  sa_hard : HardClients m' = HardClients m;
  sa_index : ModuleIndex m' = ModuleIndex m;
  sa_enable : InterruptEnable m' = InterruptEnable m ∧ mm_InterruptEnable mm' = mm_InterruptEnable mm;
  sa_time : mm_ReadTime mm' = mm_ReadTime mm;
  sa_counters : (λ f, (LockConfig f, History f)) <$> mm_Counters mm' = (λ f, (LockConfig f, History f)) <$> mm_Counters mm;
  sa_tables : mm_Trigs mm' = mm_Trigs mm ∧ mm_Configs mm' = mm_Configs mm;
  sa_source : mm_InterruptSource mm = 0 → mm_InterruptSource mm' = 0
}.

Lemma same_refl m mm : same_inputs m mm m mm.
Proof. by split. Qed.

Lemma same_trans m mm m1 mm1 m2 mm2 : same_inputs m mm m1 mm1 → same_inputs m1 mm1 m2 mm2 → same_inputs m mm m2 mm2.
Proof. intros [? ? ? [? ?] ? ? [? ?] ?] [? ? ? [? ?] ? ? [? ?] ?]. split; try split; first [congruence|auto]. Qed.

Lemma same_counter m mm m' mm' i f : same_inputs m mm m' mm' → mm_Counters mm !! i = Some f →
  ∃ f', mm_Counters mm' !! i = Some f' ∧ LockConfig f' = LockConfig f ∧ History f' = History f.
Proof.
  intros Hs Hf. pose proof (f_equal (λ l, l !! i) (sa_counters _ _ _ _ Hs)) as E. cbn in E.
  rewrite !list_lookup_fmap, Hf in E. destruct (mm_Counters mm' !! i) as [f'|]; [|done]. injection E as ? ?. by exists f'.
Qed.

Lemma same_counter_none m mm m' mm' i : same_inputs m mm m' mm' → mm_Counters mm !! i = None → mm_Counters mm' !! i = None.
Proof.
  intros Hs Hf. pose proof (f_equal (λ l, l !! i) (sa_counters _ _ _ _ Hs)) as E. cbn in E.
  rewrite !list_lookup_fmap, Hf in E. by destruct (mm_Counters mm' !! i).
Qed.

Lemma same_event m mm m' mm' inum : same_inputs m mm m' mm' → event m' mm' inum = event m mm inum.
Proof.
  intros Hs. pose proof (sa_slots _ _ _ _ Hs) as H1. pose proof (sa_hard _ _ _ _ Hs) as H2. pose proof (sa_index _ _ _ _ Hs) as H3.
  pose proof (sa_time _ _ _ _ Hs) as H4.
  assert (Ho : object_event m' mm' inum = object_event m mm inum).
  { unfold object_event. destruct (mm_Counters mm !! inum) as [f|] eqn:Hf.
    - destruct (same_counter _ _ _ _ _ _ Hs Hf) as (f' & -> & -> & ->). by rewrite H1, H3.
    - by rewrite (same_counter_none _ _ _ _ _ Hs Hf). }
  assert (Hc : source_event m' mm' inum = source_event m mm inum).
  { unfold source_event. destruct (mm_Counters mm !! inum) as [f|] eqn:Hf.
    - destruct (same_counter _ _ _ _ _ _ Hs Hf) as (f' & -> & _ & ->). by rewrite H2, H3, H4.
    - by rewrite (same_counter_none _ _ _ _ _ Hs Hf), H2, H3, H4. }
  unfold event. by rewrite Ho, Hc, H2.
Qed.

(** The sizes of the tables of a module. *)
Record module_shape (m : CtrDrvrModuleContext) (mm : CtrDrvrMemoryMap) : Prop := {
  ms_counters : length (mm_Counters mm) = 9%nat;
  ms_hard : length (HardClients m) = 14%nat;
  ms_slots : slots m ≠ []
}.

Lemma same_shape m mm m' mm' : same_inputs m mm m' mm' → module_shape m mm → module_shape m' mm'.
Proof.
  intros Hs [Hc Hh Hl]. split.
  - pose proof (f_equal length (sa_counters _ _ _ _ Hs)) as E. rewrite !length_fmap in E. congruence.
  - by rewrite (sa_hard _ _ _ _ Hs).
  - by rewrite (sa_slots _ _ _ _ Hs).
Qed.

(** The module after part of the work. *)
Definition worked (n : nat) (m : CtrDrvrModuleContext) (mm : CtrDrvrMemoryMap) (wa wa' : CtrDrvrWorkingArea) : Prop :=
  ∃ m' mm', wa' = set_module_context n m' wa ∧ Map m' = Some mm' ∧ same_inputs m mm m' mm'.

Lemma worked_refl n m mm wa : ModuleContexts wa !! n = Some m → Map m = Some mm → worked n m mm wa wa.
Proof. intros Hm Hmm. exists m, mm. split; [by rewrite set_module_same|]. split; [done|apply same_refl]. Qed.

Ltac run_step H := wp_step; eapply wp_of_run; [exact H|]; cbv beta.

Lemma lift_run {S A} (o : option A) a (s : S) : o = Some a → lift_opt o s = Some (a, s).
Proof. intros ->. done. Qed.

Lemma counters_touch (g : CtrDrvrFpgaCounter → CtrDrvrFpgaCounter) i (l : list CtrDrvrFpgaCounter) :
  (∀ f, LockConfig (g f) = LockConfig f ∧ History (g f) = History f) →
  (λ f, (LockConfig f, History f)) <$> alter g i l = (λ f, (LockConfig f, History f)) <$> l.
Proof.
  intros Hg. revert i. induction l as [|f l IH]; intros [|i]; try done; cbn.
  - by destruct (Hg f) as [-> ->].
  - f_equal. apply IH.
Qed.

Lemma wp_object_clients n m mm inum wa :
  ModuleContexts wa !! n = Some m → Map m = Some mm → module_shape m mm → (inum < 9)%nat →
  wp (object_clients (Z.of_nat n) inum) (λ r wa', r = object_event m mm inum ∧ worked n m mm wa wa') wa.
Proof.
  intros Hm Hmm [Hc Hh Hl] Hi. unfold object_clients.
  run_step (mcon_run wa n m Hm). run_step (mmap_run wa n m mm Hm Hmm).
  destruct (lookup_lt_is_Some_2 (mm_Counters mm) inum) as [f Hf]; [lia|].
  run_step (lift_run _ f wa Hf). cbv zeta. unfold object_event. rewrite Hf. cbv zeta.
  pose proof (worked_refl n m mm wa Hm Hmm) as Hw.
  destruct (LockConfig f =? 0); [|by wp_steps]. destruct (Z.ltb_spec (hist_Index (History f)) (Z.of_nat (length (slots m)))) as [Hlt|Hge];
    [|by wp_steps]. cbn [andb].
  destruct (lookup_lt_is_Some_2 (slots m) (Z.to_nat (hist_Index (History f)))) as [s Hs].
  { destruct (slots m); [done|]. simpl in *. lia. }
  run_step (lift_run _ s wa Hs). rewrite Hs. destruct (truthy (Clients s)); [|by wp_steps].
  run_step (upd_mmap_run wa n m mm (λ mm : CtrDrvrMemoryMap, mm <| mm_Counters := alter (λ f : CtrDrvrFpgaCounter, f <| LockHistory := 0 |>) inum (mm_Counters mm) |>) Hm Hmm).
  set (mm1 := mm <| mm_Counters := _ |>). set (m1 := set_map mm1 m).
  assert (Hsame : same_inputs m mm m1 mm1).
  { subst m1 mm1. split; destruct m, mm; try done; cbn. apply counters_touch. by intros []. }
  assert (Hm1 : ModuleContexts (set_module_context n m1 wa) !! n = Some m1) by (by eapply set_module_lookup).
  wp_step. destruct (LockHistory f >? 1); [|wp_steps; split; [done|]; exists m1, mm1; split; [done|split; [by destruct m|exact Hsame]]].
  eapply wp_of_run; [exact (upd_mcon_run _ n m1 _ Hm1)|]. wp_steps. split; [done|].
  rewrite set_module_twice. eexists _, mm1. split; [done|]. split; [by destruct m|].
  eapply same_trans; [exact Hsame|]. by destruct m1.
Qed.

Lemma GetTime_run wa n m mm : ModuleContexts wa !! n = Some m → Map m = Some mm →
  ∃ wa', GetTime (Z.of_nat n) wa = Some (mm_ReadTime mm, wa') ∧ worked n m mm wa wa'.
Proof.
  intros Hm Hmm. set (mm1 := mm <| mm_Command := CtrDrvrCommandLATCH_UTC |>). set (m1 := set_map mm1 m).
  exists (set_module_context n m1 wa). split.
  - unfold GetTime, mbind, M_bind. rewrite (upd_mmap_run wa n m mm _ Hm Hmm). fold mm1 m1.
    rewrite (mmap_run _ n m1 mm1); [by destruct mm|by eapply set_module_lookup|by destruct m].
  - exists m1, mm1. split; [done|]. split; [by destruct m|]. subst m1 mm1. by destruct m, mm; split.
Qed.

Lemma wp_source_clients n m mm inum wa :
  ModuleContexts wa !! n = Some m → Map m = Some mm → module_shape m mm → (inum < 14)%nat →
  wp (source_clients (Z.of_nat n) inum) (λ r wa', r = source_event m mm inum ∧ worked n m mm wa wa') wa.
Proof.
  intros Hm Hmm [Hc Hh Hl] Hi. unfold source_clients, source_event.
  run_step (mcon_run wa n m Hm). destruct (lookup_lt_is_Some_2 (HardClients m) inum) as [k Hk]; [lia|].
  run_step (lift_run _ k wa Hk). rewrite (nth_lookup_Some _ _ 0 _ Hk). cbv zeta.
  pose proof (worked_refl n m mm wa Hm Hmm) as Hw.
  destruct (truthy k); [|by wp_steps]. wp_step.
  change CtrDrvrCOUNTERS with 9. destruct (Z.ltb_spec (Z.of_nat inum) 9).
  - destruct (lookup_lt_is_Some_2 (mm_Counters mm) inum) as [f Hf]; [lia|].
    run_step (mmap_run wa n m mm Hm Hmm). run_step (lift_run _ f wa Hf). rewrite Hf. by wp_steps.
  - destruct (GetTime_run wa n m mm Hm Hmm) as (wa' & E & Hw'). eapply wp_of_run; [exact E|]. by wp_steps.
Qed.

Lemma worked_module n m mm wa wa' : ModuleContexts wa !! n = Some m → worked n m mm wa wa' →
  ∃ m' mm', ModuleContexts wa' !! n = Some m' ∧ Map m' = Some mm' ∧ same_inputs m mm m' mm' ∧
    ClientContexts wa' = ClientContexts wa.
Proof.
  intros Hm (m' & mm' & -> & Hmm & Hs). exists m', mm'. split; [by eapply set_module_lookup|]. by destruct wa.
Qed.

Lemma worked_trans n m mm m1 mm1 wa wa1 wa2 : ModuleContexts wa1 !! n = Some m1 → Map m1 = Some mm1 →
  worked n m mm wa wa1 → worked n m1 mm1 wa1 wa2 → ModuleContexts wa !! n = Some m → worked n m mm wa wa2.
Proof.
  intros Hm1 Hmm1 (m' & mm' & -> & Hm' & Hs) (m2 & mm2 & -> & Hm2 & Hs2) Hm.
  rewrite (set_module_lookup _ _ _ _ Hm) in Hm1. injection Hm1 as <-. rewrite Hm' in Hmm1. injection Hmm1 as <-.
  exists m2, mm2. rewrite set_module_twice. split; [done|]. split; [done|]. by eapply same_trans.
Qed.

(** The clients after one source. *)
Definition after_source (m : CtrDrvrModuleContext) (mm : CtrDrvrMemoryMap) (cs : list CtrDrvrClientContext) (inum : nat) :
  list CtrDrvrClientContext :=
  imap (put_some (event m mm inum).2 (event m mm inum).1) cs.

(** The state in which the handler works: a module with its map, and 16 clients. *)
Record ready (n : nat) (m : CtrDrvrModuleContext) (mm : CtrDrvrMemoryMap) (wa : CtrDrvrWorkingArea) : Prop := {
  rd_module : ModuleContexts wa !! n = Some m;
  rd_map : Map m = Some mm;
  rd_shape : module_shape m mm;
  rd_clients : length (ClientContexts wa) = 16%nat;
  rd_sems : Forall (λ c, sem_inv (Semaphore c)) (ClientContexts wa)
}.

Lemma after_source_ok m mm cs inum : Forall (λ c, sem_inv (Semaphore c)) cs →
  Forall (λ c, sem_inv (Semaphore c)) (after_source m mm cs inum) ∧ length (after_source m mm cs inum) = length cs.
Proof.
  intros Hi. split; [|apply length_imap]. apply Forall_lookup. intros i c' Hc. unfold after_source in Hc.
  rewrite list_lookup_imap in Hc. destruct (cs !! i) as [c|] eqn:Hci; [|done]. cbn in Hc. injection Hc as <-.
  unfold put_some. destruct (Z.testbit _ _); [apply put_client_sem|]; exact (Forall_lookup_1 _ _ _ _ Hi Hci).
Qed.

(** Nothing but module [n] and the clients changes. *)
Definition moved (n : nat) (wa wa' : CtrDrvrWorkingArea) : Prop :=
  ∃ m' cs, wa' = (set_module_context n m' wa) <| ClientContexts := cs |>.

Lemma moved_trans n wa wa1 wa2 : moved n wa wa1 → moved n wa1 wa2 → moved n wa wa2.
Proof.
  intros (m1 & cs1 & ->) (m2 & cs2 & ->). exists m2, cs2. destruct wa. unfold set_module_context. cbn. by rewrite list_insert_insert_eq.
Qed.

Lemma moved_refl n m wa : ModuleContexts wa !! n = Some m → moved n wa wa.
Proof. intros Hm. exists m, (ClientContexts wa). rewrite set_module_same by done. by destruct wa. Qed.

Lemma wp_handle_source n m mm inum wa : ready n m mm wa → (inum < 14)%nat →
  wp (handle_source (Z.of_nat n) inum) (λ _ wa', ∃ m' mm',
    ready n m' mm' wa' ∧ same_inputs m mm m' mm' ∧ ClientContexts wa' = after_source m mm (ClientContexts wa) inum ∧ moved n wa wa') wa.
Proof.
  intros [Hm Hmm Hsh Hlen Hsem] Hi. unfold handle_source. wp_step.
  apply (wp_mono _ (λ r wa', r = (if Z.of_nat inum <? CtrDrvrCOUNTERS then object_event m mm inum else (0, zero_read_buf))
    ∧ worked n m mm wa wa')).
  { change CtrDrvrCOUNTERS with 9. destruct (Z.ltb_spec (Z.of_nat inum) 9).
    - apply wp_object_clients; try done. lia.
    - wp_steps. split; [done|]. by apply worked_refl. }
  intros p wa1 [Hp Hw1]. destruct (worked_module _ _ _ _ _ Hm Hw1) as (m1 & mm1 & Hm1 & Hmm1 & Hs1 & Hc1).
  pose proof (same_shape _ _ _ _ Hs1 Hsh) as Hsh1. pose proof (same_event _ _ _ _ inum Hs1) as Hev.
  assert (Hsrc : source_event m1 mm1 inum = source_event m mm inum).
  { unfold source_event. rewrite (sa_hard _ _ _ _ Hs1), (sa_index _ _ _ _ Hs1), (sa_time _ _ _ _ Hs1).
    destruct (mm_Counters mm !! inum) as [f|] eqn:Hf.
    - by destruct (same_counter _ _ _ _ _ _ Hs1 Hf) as (f' & -> & _ & ->).
    - by rewrite (same_counter_none _ _ _ _ _ Hs1 Hf). }
  destruct p as [clients rbf]. wp_step.
  apply (wp_mono _ (λ r wa', r = (if clients =? 0 then source_event m mm inum else (clients, rbf)) ∧ worked n m mm wa wa')).
  { destruct (clients =? 0).
    - eapply wp_mono; [by apply (wp_source_clients n m1 mm1)|]. intros r wa2 [-> Hw2]. split; [done|].
      by eapply worked_trans.
    - done. }
  intros [clients2 rbf2] wa2 [Hp2 Hw2]. destruct (worked_module _ _ _ _ _ Hm Hw2) as (m2 & mm2 & Hm2 & Hmm2 & Hs2 & Hc2).
  pose proof (same_shape _ _ _ _ Hs2 Hsh) as [Hcn2 Hh2 Hl2]. cbv zeta.
  run_step (mcon_run wa2 n m2 Hm2). destruct (lookup_lt_is_Some_2 (HardClients m2) inum) as [k Hk]; [lia|].
  run_step (lift_run _ k wa2 Hk).
  assert (Hevent : event m mm inum = (Z.lor clients2 k, rbf2 <| rb_InterruptNumber := Z.of_nat inum |>)).
  { unfold event. cbv zeta. rewrite <- Hp. cbn [fst]. rewrite <- Hp2. cbn [fst snd].
    rewrite <- (sa_hard _ _ _ _ Hs2). by rewrite (nth_lookup_Some _ _ 0 _ Hk). }
  eapply wp_of_run; [apply deliver_all_run; [by rewrite Hc2|by rewrite Hc2]|].
  exists m2, mm2. destruct (after_source_ok m mm (ClientContexts wa) inum Hsem) as [Hsem' Hlen'].
  assert (Hcs : ClientContexts (wa2 <| ClientContexts := imap (put_some (rbf2 <| rb_InterruptNumber := Z.of_nat inum |>)
    (Z.lor clients2 k)) (ClientContexts wa2) |>) = after_source m mm (ClientContexts wa) inum).
  { unfold after_source. rewrite Hevent. cbn [fst snd]. rewrite <- Hc2. by destruct wa2. }
  split; [|split; [done|split; [exact Hcs|]]].
  2: { destruct Hw2 as (m' & mm' & -> & _). eexists _, _. reflexivity. }
  split; try done.
  - rewrite Hcs. congruence.
  - by rewrite Hcs.
Qed.

(** * The handler *)

(** The entries that the sources [srcs] place in the queue of client [i]. *)
Definition entries_for (m : CtrDrvrModuleContext) (mm : CtrDrvrMemoryMap) (i : nat) (srcs : list nat) : list CtrDrvrReadBuf :=
  (λ inum, (event m mm inum).2) <$> filter (λ inum, Z.testbit (event m mm inum).1 (Z.of_nat i) = true) srcs.

Definition put_all (rbs : list CtrDrvrReadBuf) (l : list CtrDrvrReadBuf) : list CtrDrvrReadBuf :=
  foldl (λ l rb, bounded_put rb l) l rbs.

(** A client that differs at most in its queue and semaphore. *)
Definition same_client (c c' : CtrDrvrClientContext) : Prop :=
  (cl_InUse c', Pid c', ClientIndex c', cl_ModuleIndex c', Timeout c', Timer c') =
  (cl_InUse c, Pid c, ClientIndex c, cl_ModuleIndex c, Timeout c, Timer c).

Lemma after_sources_client m mm srcs : ∀ cs i c l, cs !! i = Some c → ring (Queue c) l →
  ∃ c', foldl (after_source m mm) cs srcs !! i = Some c' ∧ ring (Queue c') (put_all (entries_for m mm i srcs) l) ∧ same_client c c'.
Proof.
  induction srcs as [|inum srcs IH]; intros cs i c l Hc Hr; [by exists c|]. cbn [foldl].
  assert (Hstep : after_source m mm cs inum !! i = Some (put_some (event m mm inum).2 (event m mm inum).1 i c)).
  { unfold after_source. by rewrite list_lookup_imap, Hc. }
  unfold entries_for. rewrite filter_cons. unfold put_some in Hstep.
  destruct (Z.testbit (event m mm inum).1 (Z.of_nat i)) eqn:Hb.
  - rewrite decide_True by done. cbn [fmap list_fmap put_all foldl].
    destruct (queue_put_ring (Queue c) l (event m mm inum).2 Hr) as [Hr' _].
    assert (Hq : Queue (put_client (event m mm inum).2 c) = (queue_put (event m mm inum).2 (Queue c)).1 ∧
      same_client c (put_client (event m mm inum).2 c)).
    { unfold put_client. destruct (queue_put _ _) as [q b]. by destruct c. }
    destruct Hq as [Hq Hsc]. rewrite <- Hq in Hr'.
    destruct (IH _ i _ _ Hstep Hr') as (c' & Hc' & Hr2 & Hsc'). exists c'. split; [done|]. split; [exact Hr2|].
    unfold same_client in *. congruence.
  - rewrite decide_False by done. by apply IH.
Qed.

Lemma wp_handle_sources n m mm srcs : ∀ wa m1 mm1, ready n m1 mm1 wa → same_inputs m mm m1 mm1 → Forall (λ i, i < 14)%nat srcs →
  wp (mfold (λ _ inum, handle_source (Z.of_nat n) inum) () srcs) (λ _ wa', ∃ m' mm',
    ready n m' mm' wa' ∧ same_inputs m mm m' mm' ∧ ClientContexts wa' = foldl (after_source m mm) (ClientContexts wa) srcs ∧ moved n wa wa') wa.
Proof.
  induction srcs as [|inum srcs IH]; intros wa m1 mm1 Hr Hs Hl; [exists m1, mm1; split; [done|]; split; [done|]; split; [done|]; eapply moved_refl, Hr|].
  apply Forall_cons in Hl as [Hi Hl]. cbn [mfold]. apply wp_bind.
  eapply wp_mono; [by apply (wp_handle_source n m1 mm1)|]. intros [] wa' (m2 & mm2 & Hr2 & Hs2 & Hc2 & Hv2).
  eapply wp_mono; [eapply (IH wa' m2 mm2); [done|by eapply same_trans|done]|].
  intros _ wa2 (m3 & mm3 & Hr3 & Hs3 & Hc3 & Hv3). exists m3, mm3. split; [done|]. split; [done|].
  split; [|by eapply moved_trans]. rewrite Hc3, Hc2. cbn [foldl]. f_equal. unfold after_source. by rewrite (same_event _ _ _ _ inum Hs).
Qed.

Lemma sources_bound isrc : Forall (λ i, i < 14)%nat (sources isrc).
Proof.
  apply Forall_forall. intros i Hi. apply list_elem_of_filter in Hi as [_ Hi]. apply elem_of_seq in Hi.
  change (Z.to_nat CtrDrvrInterruptSOURCES) with 14%nat in Hi. lia.
Qed.

Lemma after_sources_same m mm m1 mm1 srcs : same_inputs m mm m1 mm1 → ∀ cs, foldl (after_source m1 mm1) cs srcs = foldl (after_source m mm) cs srcs.
Proof.
  intros Hs. induction srcs as [|inum srcs IH]; intros cs; [done|]. cbn [foldl]. rewrite IH. f_equal. unfold after_source.
  by rewrite (same_event _ _ _ _ inum Hs).
Qed.

Lemma wp_IntrHandler n m mm wa : ready n m mm wa →
  wp (IntrHandler (Z.of_nat n)) (λ r wa',
    r = (if mm_InterruptSource mm =? 0 then IRQ_NONE else IRQ_HANDLED) ∧
    ∃ m' mm', ready n m' mm' wa' ∧ same_inputs m mm m' mm' ∧ mm_InterruptSource mm' = 0 ∧ moved n wa wa' ∧
      ClientContexts wa' = foldl (after_source m mm) (ClientContexts wa) (sources (mm_InterruptSource mm))) wa.
Proof.
  intros [Hm Hmm Hsh Hlen Hsem]. unfold IntrHandler.
  run_step (mmap_run wa n m mm Hm Hmm). cbv zeta.
  run_step (upd_mmap_run wa n m mm (λ mm : CtrDrvrMemoryMap, mm <| mm_InterruptSource := 0 |>) Hm Hmm).
  set (mm1 := mm <| mm_InterruptSource := 0 |>). set (m1 := set_map mm1 m).
  assert (Hs1 : same_inputs m mm m1 mm1) by (subst m1 mm1; destruct m, mm; by split).
  assert (Hz1 : mm_InterruptSource mm1 = 0) by (subst mm1; by destruct mm).
  assert (Hr1 : ready n m1 mm1 (set_module_context n m1 wa)).
  { split; [by eapply set_module_lookup|by destruct m|by eapply same_shape|by destruct wa|by destruct wa]. }
  assert (Hv1 : moved n wa (set_module_context n m1 wa)) by (exists m1, (ClientContexts wa); by destruct wa).
  apply wp_if; intros Hz; rewrite Hz.
  - wp_steps. split; [done|]. exists m1, mm1. apply Z.eqb_eq in Hz. rewrite Hz. do 4 (split; [done|]). by destruct wa.
  - wp_step. eapply wp_mono; [eapply (wp_handle_sources n m1 mm1); [exact Hr1|apply same_refl|apply sources_bound]|].
    intros [] wa' (m' & mm' & Hr' & Hs' & Hc' & Hv'). wp_steps. split; [done|]. exists m', mm'. split; [done|].
    split; [by eapply same_trans|]. split; [by apply (sa_source _ _ _ _ Hs')|]. split; [by eapply moved_trans|].
    rewrite Hc', (after_sources_same m mm m1 mm1 _ Hs1). by destruct wa.
Qed.

(** C16 The interrupt handler hands each client exactly the events it is connected to.
    It works through the sources of the word it read, in order, and never gets stuck.  A
    client that is connected to a source, or to the timing object that loaded the counter of the source, finds one entry
    for it in its queue, which keeps the newest 64; the queues of all other clients and
    the connections do not change, and the source word is cleared. *)
Theorem interrupt_delivers n m mm wa (Hready : ready n m mm wa) :
  wp (IntrHandler (Z.of_nat n)) (λ r wa',
    r = (if mm_InterruptSource mm =? 0 then IRQ_NONE else IRQ_HANDLED) ∧
    (∃ m' mm', ModuleContexts wa' !! n = Some m' ∧ Map m' = Some mm' ∧ slots m' = slots m ∧ HardClients m' = HardClients m ∧
      InterruptEnable m' = InterruptEnable m ∧ mm_InterruptSource mm' = 0) ∧
    ∀ i c l, ClientContexts wa !! i = Some c → ring (Queue c) l →
      ∃ c', ClientContexts wa' !! i = Some c' ∧ same_client c c' ∧
        ring (Queue c') (put_all (entries_for m mm i (sources (mm_InterruptSource mm))) l)) wa.
Proof.
  eapply wp_mono; [by apply wp_IntrHandler|]. intros r wa' (-> & m' & mm' & Hr' & Hs' & Hz & _ & Hc').
  split; [done|]. split.
  - exists m', mm'. destruct Hr' as [Hm' Hmm' _ _ _], Hs' as [? ? ? [? ?] ? ? _ _]. done.
  - intros i c l Hc Hr. rewrite Hc'.
    destruct (after_sources_client m mm (sources (mm_InterruptSource mm)) (ClientContexts wa) i c l Hc Hr) as (c' & E1 & Hr2 & Hsc).
    by exists c'.
Qed.

(** ** Waking a reader *)

Lemma up_sem_granted s t : sem_inv s → waiters s !! t = Some true ∨ head (wait_list s) = Some t → waiters (up_sem s) !! t = Some true.
Proof.
  intros Hi Ht. destruct (up_ok s Hi) as (s' & E & _ & _ & _ & Hk & Hh & _). unfold up_sem. rewrite E. destruct Ht; auto.
Qed.

Lemma put_client_granted rbf c t : sem_inv (Semaphore c) → waiters (Semaphore c) !! t = Some true → waiters (Semaphore (put_client rbf c)) !! t = Some true.
Proof.
  intros Hi Ht. unfold put_client. destruct (queue_put rbf (Queue c)) as [q []]; destruct c; cbn in *; [|done]. apply up_sem_granted; auto.
Qed.

Lemma put_client_wakes rbf c t l : sem_inv (Semaphore c) → ring (Queue c) l → (length l < limit)%nat → head (wait_list (Semaphore c)) = Some t →
  waiters (Semaphore (put_client rbf c)) !! t = Some true.
Proof.
  intros Hi Hr Hl Ht. destruct (queue_put_ring _ _ rbf Hr) as (_ & Hfree & _). unfold put_client.
  destruct (queue_put rbf (Queue c)) as [q b]. cbn in Hfree. rewrite Hfree, bool_decide_eq_true_2 by done. destruct c. cbn in *.
  apply up_sem_granted; auto.
Qed.

Lemma after_sources_granted m mm srcs t : ∀ cs i c, cs !! i = Some c → sem_inv (Semaphore c) → waiters (Semaphore c) !! t = Some true →
  ∃ c', foldl (after_source m mm) cs srcs !! i = Some c' ∧ waiters (Semaphore c') !! t = Some true.
Proof.
  induction srcs as [|inum srcs IH]; intros cs i c Hc Hi Ht; [by exists c|]. cbn [foldl].
  eapply IH; [unfold after_source; by rewrite list_lookup_imap, Hc|..]; unfold put_some; destruct (Z.testbit _ _); try done.
  - by apply put_client_sem.
  - by apply put_client_granted.
Qed.

Lemma after_sources_wakes m mm srcs t : ∀ cs i c, cs !! i = Some c → sem_inv (Semaphore c) → ring (Queue c) [] →
  head (wait_list (Semaphore c)) = Some t → entries_for m mm i srcs ≠ [] →
  ∃ c', foldl (after_source m mm) cs srcs !! i = Some c' ∧ waiters (Semaphore c') !! t = Some true.
Proof.
  induction srcs as [|inum srcs IH]; intros cs i c Hc Hi Hr Ht Hne; [done|]. cbn [foldl].
  assert (Hstep : after_source m mm cs inum !! i = Some (put_some (event m mm inum).2 (event m mm inum).1 i c)).
  { unfold after_source. by rewrite list_lookup_imap, Hc. }
  unfold entries_for in Hne. rewrite filter_cons in Hne. unfold put_some in Hstep.
  destruct (Z.testbit (event m mm inum).1 (Z.of_nat i)) eqn:Hb.
  - eapply after_sources_granted; [exact Hstep|by apply put_client_sem|].
    eapply put_client_wakes; [done|done|unfold limit; simpl; lia|done].
  - rewrite decide_False in Hne by done. by eapply IH.
Qed.

Lemma put_all_short rbs : ∀ l, (length l + length rbs <= limit)%nat → put_all rbs l = l ++ rbs.
Proof.
  induction rbs as [|rb rbs IH]; intros l Hl; [by rewrite app_nil_r|]. cbn [put_all foldl]. simpl in Hl.
  unfold put_all in IH. rewrite IH.
  - unfold bounded_put, newest. rewrite decide_True by lia. by rewrite <- app_assoc.
  - unfold bounded_put, newest. rewrite decide_True by lia. rewrite length_app. simpl. lia.
Qed.

Lemma entries_few m mm i isrc : (length (entries_for m mm i (sources isrc)) <= 14)%nat.
Proof.
  unfold entries_for. rewrite length_fmap. etransitivity; [apply length_filter|]. unfold sources.
  etransitivity; [apply length_filter|]. by rewrite length_seq.
Qed.

(** C17 An interrupt wakes the reader, and the reader gets the event.  When a task waits for a
    client whose queue is empty and the interrupt is for this client, the handler grants the task's wait;
    what the read returns when it goes on is the entry of the first source that concerns the client. *)
Theorem interrupt_wakes_reader n m mm wa i c t rb rest (Hready : ready n m mm wa) (Hc : ClientContexts wa !! i = Some c)
    (Hempty : ring (Queue c) []) (Hwait : head (wait_list (Semaphore c)) = Some t) (Htimer : Timeout c = 0 ∨ Timer c ≠ 0)
    (Hevent : entries_for m mm i (sources (mm_InterruptSource mm)) = rb :: rest) :
  wp (IntrHandler (Z.of_nat n)) (λ _ wa',
    (∃ c', ClientContexts wa' !! i = Some c' ∧ waiters (Semaphore c') !! t = Some true) ∧
    wp (CtrDrvrRead_end (Z.of_nat i + 1) 0) (λ r wa2, r = (64, Some rb) ∧
      ∃ c2, ClientContexts wa2 !! i = Some c2 ∧ ring (Queue c2) rest) wa') wa.
Proof.
  eapply wp_mono; [by apply wp_IntrHandler|]. intros r wa' (_ & m' & mm' & _ & _ & _ & _ & Hcs).
  pose proof (Forall_lookup_1 _ _ _ _ (rd_sems _ _ _ _ Hready) Hc) as Hsem. split.
  { rewrite Hcs. eapply after_sources_wakes; [done..|]. by rewrite Hevent. }
  destruct (after_sources_client m mm (sources (mm_InterruptSource mm)) _ _ _ _ Hc Hempty) as (c' & Hc' & Hr & Hsame).
  rewrite <- Hcs in Hc'. rewrite put_all_short in Hr by (pose proof (entries_few m mm i (mm_InterruptSource mm)); unfold limit; simpl; lia).
  rewrite Hevent in Hr. cbn [app] in Hr. injection Hsame as E1 E2 E3 E4 E5 E6.
  unfold CtrDrvrRead_end. replace (Z.of_nat i + 1 - 1) with (Z.of_nat i) by lia. cbv zeta. change (truthy 0) with false. cbv iota.
  run_step (ccon_run wa' i c' Hc').
  assert (Hgo : truthy (Timeout c') && (Timer c' =? 0) = false).
  { rewrite E5, E6. destruct Htimer as [->|Ht]; [done|]. destruct (Z.eqb_spec (Timer c) 0); [done|]. apply andb_false_r. }
  rewrite Hgo. wp_step.
  apply (wp_mono _ (λ _ wa2, ∃ c2, ClientContexts wa2 !! i = Some c2 ∧ Queue c2 = Queue c')).
  { wp_step; [|wp_step; by exists c']. wp_step. unfold CancelTimeout. run_step (ccon_run wa' i c' Hc').
    wp_step; [|wp_steps; by exists c']. wp_step. eapply wp_of_run; [by apply upd_ccon_run|]. wp_steps.
    eexists. split; [by eapply set_client_lookup|by destruct c']. }
  intros _ wa2 (c2 & Hc2 & Hq2). rewrite (ri_size _ _ Hr). change (truthy (Z.of_nat (length (rb :: rest)))) with true. cbv iota.
  destruct (queue_take_ring _ _ _ Hr) as (q & Et & Hr' & _). wp_step. eapply wp_of_run; [by apply lift_run|]. cbv beta iota.
  run_step (upd_ccon_run wa2 i c2 (λ c : CtrDrvrClientContext, c <| Queue := q |>) Hc2). wp_step. split; [done|].
  eexists. split; [by eapply set_client_lookup|by destruct c2].
Qed.

(** * An example

    A module with one trigger and a client 3 that is connected to the source 9. *)

Definition demo_map (isrc : Z) : CtrDrvrMemoryMap :=
  mk_map isrc 0 0 0 0 0 0 (mk_pll 0 0 0 0 0 0 0 0) (mk_ctime 0 1234 0) 0
    (replicate 9 (mk_fpga_counter 0 0 0 (mk_history 0 0 zero_ctime zero_ctime zero_ctime) (mk_hw_configuration 0 0)))
    [mk_hw_trigger 0 0; mk_hw_trigger 0 0] [mk_hw_configuration 0 0; mk_hw_configuration 0 0].

Definition demo_slot : slot := mk_slot 0 HARD 0 zero_trigger zero_configuration.

Definition demo_module (isrc : Z) (hard : list Z) : CtrDrvrModuleContext :=
  mk_module (Some ∅) 0 0 0 1 (Some (demo_map isrc)) 0 0 0 0 0 0 (mk_pll 0 0 0 0 0 0 0 0) 0 1 0 0 0 [demo_slot; demo_slot] hard.

Definition demo_client (s : cdcm_sem) : CtrDrvrClientContext := mk_client 0 0 0 0 0 0 0 s zero_queue.

Definition demo_wa (isrc : Z) (hard : list Z) (s : cdcm_sem) : CtrDrvrWorkingArea :=
  mk_wa CtrDrvrEndianLITTLE [] [] 1 [demo_module isrc hard] (replicate 16 (demo_client s)).

(** One task waits. *)
Definition demo_waiting : cdcm_sem := mk_cdcm_sem 0 [7%nat] {[7%nat := false]}.

Lemma demo_waiting_inv : sem_inv demo_waiting.
Proof.
  split; cbn; [lia|apply NoDup_singleton| |lia]. intros t. rewrite list_elem_of_singleton, lookup_singleton.
  case_decide; naive_solver.
Qed.

Lemma demo_ready isrc hard s : length hard = 14%nat → sem_inv s → ready 0 (demo_module isrc hard) (demo_map isrc) (demo_wa isrc hard s).
Proof. intros Hh Hs. split; try done. by apply Forall_replicate. Qed.

Definition demo_hard : list Z := <[9%nat := bit 3]> (replicate 14 0).

Lemma interrupt_delivers_witness :
  wp (IntrHandler 0) (λ r wa', r = IRQ_HANDLED ∧
    ∃ c, ClientContexts wa' !! 3%nat = Some c ∧ ∃ rb, ring (Queue c) [rb] ∧ rb_InterruptNumber rb = 9 ∧ Second (rb_OnZeroTime rb) = 1234)
    (demo_wa (bit 9) demo_hard demo_waiting).
Proof.
  eapply wp_mono; [apply (interrupt_delivers 0 (demo_module (bit 9) demo_hard) (demo_map (bit 9)));
    apply demo_ready; [done|apply demo_waiting_inv]|].
  intros r wa' (-> & _ & Hc). split; [done|]. destruct (Hc 3%nat (demo_client demo_waiting) [] eq_refl ring_zero) as (c' & Hc' & _ & Hr).
  exists c'. split; [done|]. eexists. split; [exact Hr|]. by split.
Defined.

Lemma interrupt_wakes_reader_witness :
  wp (IntrHandler 0) (λ _ wa', wp (CtrDrvrRead_end 4 0) (λ r _, r.1 = 64 ∧ r.2 ≠ None) wa') (demo_wa (bit 9) demo_hard demo_waiting).
Proof.
  eapply wp_mono; [eapply (interrupt_wakes_reader 0 (demo_module (bit 9) demo_hard) (demo_map (bit 9)) _ 3 (demo_client demo_waiting) 7 _ []);
    [apply demo_ready; [done|apply demo_waiting_inv]|done|apply ring_zero|done|by left|reflexivity]|].
  intros r wa' [_ Hr]. eapply wp_mono; [exact Hr|]. by intros r2 wa2 [-> _].
Defined.
