(* ===== verification/CtrModule.v ===== *)
(** What the operations of the timing receiver do to one module: a weakest
    precondition that looks at a module only, and the invariant of its tables. *)
From S2P Require Import Prelude CtrHard CtrHardProofs CdcmSem CdcmSemProofs CtrDrvr CtrQueue CtrQueueProofs CtrIntr CtrIoctl.

Local Open Scope Z_scope.

#[local] Arguments Z.testbit : simpl never.
#[local] Arguments Z.ldiff : simpl never.
#[local] Arguments Z.lor : simpl never.
#[local] Arguments truthy : simpl never.

(** * Operations on one module *)

(** The CTIM objects have numbers. *)
Definition objects_ok (wa : CtrDrvrWorkingArea) : Prop := Forall (λ o, ct_EqpNum o ≠ 0) (Ctims wa).

(** The operation does not get stuck, changes module [n] only, and gives [Q]. *)
Definition wpm {A} (n : nat) (op : WaM A) (Q : A → CtrDrvrModuleContext → Prop) (m : CtrDrvrModuleContext) : Prop :=
  ∀ wa, objects_ok wa → ModuleContexts wa !! n = Some m →
  ∃ r m', op wa = Some (r, set_module_context n m' wa) ∧ Q r m'.

Section wpm.
Variable n : nat.
Implicit Types (m : CtrDrvrModuleContext) (mm : CtrDrvrMemoryMap).

Lemma wpm_ret {A} (a : A) (Q : A → CtrDrvrModuleContext → Prop) m : Q a m → wpm n (mret a) Q m.
Proof. intros HQ wa Ho Hm. exists a, m. split; [|done]. by rewrite set_module_same. Qed.

Lemma wpm_bind {A B} (op : WaM A) (k : A → WaM B) (Q : B → CtrDrvrModuleContext → Prop) m :
  wpm n op (λ r m', wpm n (k r) Q m') m → wpm n (op ≫= k) Q m.
Proof.
  intros Hop wa Ho Hm. destruct (Hop wa Ho Hm) as (r & m' & E & Hk).
  destruct (Hk (set_module_context n m' wa)) as (r2 & m2 & E2 & HQ); [by destruct wa|by eapply set_module_lookup|].
  exists r2, m2. split; [|done]. unfold mbind, M_bind. rewrite E, E2. by rewrite set_module_twice.
Qed.

Lemma wpm_mono {A} (op : WaM A) (Q Q' : A → CtrDrvrModuleContext → Prop) m :
  wpm n op Q m → (∀ r m', Q r m' → Q' r m') → wpm n op Q' m.
Proof. intros Hop HQ wa Ho Hm. destruct (Hop wa Ho Hm) as (r & m' & E & HQr). eauto. Qed.

Lemma wpm_if {A} (b : bool) (op1 op2 : WaM A) (Q : A → CtrDrvrModuleContext → Prop) m :
  (b = true → wpm n op1 Q m) → (b = false → wpm n op2 Q m) → wpm n (if b then op1 else op2) Q m.
Proof. destruct b; auto. Qed.

Lemma wpm_gets {A} (f : CtrDrvrWorkingArea → A) (Q : A → CtrDrvrModuleContext → Prop) m :
  (∀ wa, objects_ok wa → Q (f wa) m) → wpm n (gets f) Q m.
Proof. intros HQ wa Ho Hm. exists (f wa), m. split; [by rewrite set_module_same|auto]. Qed.

Lemma wpm_lift {A} (o : option A) (Q : A → CtrDrvrModuleContext → Prop) m a : o = Some a → Q a m → wpm n (lift_opt o) Q m.
Proof. intros -> HQ wa Ho Hm. exists a, m. by rewrite set_module_same. Qed.

Lemma wpm_mcon (Q : CtrDrvrModuleContext → CtrDrvrModuleContext → Prop) m : Q m m → wpm n (mcon (Z.of_nat n)) Q m.
Proof. intros HQ wa Ho Hm. exists m, m. split; [|done]. by rewrite (mcon_run wa n m Hm), set_module_same. Qed.

Lemma wpm_upd_mcon f (Q : () → CtrDrvrModuleContext → Prop) m : Q () (f m) → wpm n (upd_mcon (Z.of_nat n) f) Q m.
Proof. intros HQ wa Ho Hm. exists (), (f m). split; [|done]. apply (upd_mcon_run wa n m f Hm). Qed.

Lemma wpm_mmap (Q : CtrDrvrMemoryMap → CtrDrvrModuleContext → Prop) m mm : Map m = Some mm → Q mm m → wpm n (mmap (Z.of_nat n)) Q m.
Proof. intros Hmm HQ wa Ho Hm. exists mm, m. split; [|done]. by rewrite (mmap_run wa n m mm Hm Hmm), set_module_same. Qed.

Lemma wpm_upd_mmap f (Q : () → CtrDrvrModuleContext → Prop) m mm : Map m = Some mm → Q () (set_map (f mm) m) →
  wpm n (upd_mmap (Z.of_nat n) f) Q m.
Proof. intros Hmm HQ wa Ho Hm. eexists (), _. split; [|exact HQ]. by apply upd_mmap_run. Qed.

Lemma wpm_mfold {A B} (f : B → A → WaM B) (I : list A → B → CtrDrvrModuleContext → Prop) l b m :
  (∀ x l b m, I (x :: l) b m → wpm n (f b x) (I l) m) → I l b m → wpm n (mfold f b l) (I []) m.
Proof.
  intros Hstep. revert b m. induction l as [|x l IH]; intros b m HI; [by apply wpm_ret|].
  cbn [mfold]. apply wpm_bind. eapply wpm_mono; [by apply Hstep|]. intros. by apply IH.
Qed.

(** The local registers are not part of any invariant. *)
Lemma wpm_local_write addr v size (Q : () → CtrDrvrModuleContext → Prop) m :
  (∀ l, Q () (m <| Local := l |>)) → wpm n (local_write (Z.of_nat n) addr v size) Q m.
Proof.
  intros HQ. unfold local_write. apply wpm_bind, wpm_gets. intros wa _. apply wpm_bind, wpm_mcon.
  destruct (DrmLocalReadWrite _ _ _ _ _ _) as [[regs x]|].
  - apply wpm_upd_mcon, HQ.
  - apply wpm_ret. specialize (HQ (Local m)). by destruct m.
Qed.

End wpm.

(** * The tables of a module *)

Section tables.
(** The clients that may be connected. *)
Variable allowed : Z → Prop.
Implicit Types (m : CtrDrvrModuleContext) (mm : CtrDrvrMemoryMap) (s : slot) (h : CtrDrvrHwCounterConfiguration).

Definition mask_ok (k : Z) : Prop := 0 <= k ∧ ∀ j, Z.testbit k j = true → allowed j.

(** A slot and its configuration in the hardware: a free one is empty, and the bus
    interrupt is asked for where there are clients.  (The driver does not clear the configurations
    when it is loaded, so it may be asked for elsewhere too.) *)
Record entry_ok (s : slot) (h : CtrDrvrHwCounterConfiguration) : Prop := {
  en_free : EqpNum s = 0 → EqpClass s = HARD ∧ Clients s = 0;
  en_used : EqpNum s ≠ 0 → EqpClass s ≠ HARD;
  en_clients : mask_ok (Clients s);
  en_bus : truthy (Clients s) = true → Z.testbit (hw_Config h) 30 = true
}.

Record map_ok (m : CtrDrvrModuleContext) (mm : CtrDrvrMemoryMap) : Prop := {
  mk_map_eq : Map m = Some mm;
  mk_shape : module_shape m mm;
  mk_entries : Forall2 entry_ok (slots m) (mm_Configs mm);
  mk_trigs : length (mm_Trigs mm) = length (slots m);
  mk_hard : Forall mask_ok (HardClients m)
}.

Definition tables_ok (m : CtrDrvrModuleContext) : Prop := ∃ mm, map_ok m mm.

(** What the invariant looks at. *)
Lemma tables_ext m m' mm mm' : map_ok m mm → Map m' = Some mm' → slots m' = slots m → HardClients m' = HardClients m →
  length (mm_Counters mm') = length (mm_Counters mm) → mm_Configs mm' = mm_Configs mm → length (mm_Trigs mm') = length (mm_Trigs mm) →
  map_ok m' mm'.
Proof.
  intros [Hmm [Hc Hh Hl] He Ht Hk] Hmm' Es Eh Ec Ef Et. split; [done| |by rewrite Es, Ef|by rewrite Et, Es|by rewrite Eh].
  split; [by rewrite Ec|by rewrite Eh|by rewrite Es].
Qed.

(** One entry changes. *)
Lemma tables_entry m m' mm mm' i s h s' h' : map_ok m mm → slots m !! i = Some s → mm_Configs mm !! i = Some h →
  (entry_ok s h → entry_ok s' h') →
  Map m' = Some mm' → slots m' = <[i := s']> (slots m) → HardClients m' = HardClients m →
  length (mm_Counters mm') = length (mm_Counters mm) → mm_Configs mm' = <[i := h']> (mm_Configs mm) →
  length (mm_Trigs mm') = length (mm_Trigs mm) → map_ok m' mm'.
Proof.
  intros [Hmm [Hc Hh Hl] He Ht Hk] Hs Hf Hent Hmm' Es Eh Ec Ef Et.
  split; [done| | |by rewrite Et, Es, length_insert|by rewrite Eh].
  - split; [by rewrite Ec|by rewrite Eh|]. rewrite Es. intros E. apply (f_equal length) in E. rewrite length_insert in E.
    by destruct (slots m).
  - rewrite Es, Ef. apply Forall2_insert; [done|]. apply Hent. by eapply Forall2_lookup_lr.
Qed.

Lemma entry_at m mm i s : map_ok m mm → slots m !! i = Some s → ∃ h, mm_Configs mm !! i = Some h ∧ entry_ok s h.
Proof. intros Hm Hs. destruct (Forall2_lookup_l _ _ _ _ _ (mk_entries _ _ Hm) Hs) as (h & Hh & He). by exists h. Qed.

(** ** Masks *)

Lemma mask_zero : mask_ok 0.
Proof. split; [done|]. intros j Hj. by rewrite Z.testbit_0_l in Hj. Qed.

Lemma mask_add k i : 0 <= i < 32 → allowed i → mask_ok k → mask_ok (Z.lor k (bit i)).
Proof.
  intros Hi Ha [Hk Hb]. rewrite bit_shift, Z.shiftl_1_l by done. split; [apply Z.lor_nonneg; split; [done|apply Z.pow_nonneg; lia]|].
  intros j Hj. rewrite Z.lor_spec, Z.pow2_bits_eqb in Hj by lia. apply orb_prop in Hj as [Hj|Hj]; [by apply Hb|].
  apply Z.eqb_eq in Hj. by subst j.
Qed.

Lemma mask_drop k c : mask_ok k → mask_ok (Z.ldiff k c).
Proof.
  intros [Hk Hb]. split; [apply Z.ldiff_nonneg; by left|]. intros j Hj. rewrite Z.ldiff_spec in Hj.
  apply andb_prop in Hj as [Hj _]. by apply Hb.
Qed.

Lemma bit_truthy k i : 0 <= i < 32 → truthy (Z.lor k (bit i)) = true.
Proof.
  intros Hi. rewrite bit_shift, Z.shiftl_1_l by done. unfold truthy. apply negb_true_iff, Z.eqb_neq. intros E.
  apply (f_equal (λ x, Z.testbit x i)) in E. rewrite Z.lor_spec, Z.pow2_bits_true, orb_true_r, Z.testbit_0_l in E by lia. done.
Qed.

(** ** Entries *)

Lemma entry_connect s h i : 0 <= i < 32 → allowed i → EqpNum s ≠ 0 → entry_ok s h → entry_ok (add_client (bit i) s) (set_bus h).
Proof.
  intros Hi Ha Hn [Hf Hu Hc Hb]. assert (Hc' := mask_add _ _ Hi Ha Hc). pose proof (bit_truthy (Clients s) i Hi) as Ht.
  destruct s, h. split; cbn in *; try done.
  intros _. rewrite Z.lor_spec. change (Z.testbit bus_bit 30) with true. apply orb_true_r.
Qed.

Lemma truthy_zero k : truthy k = false → k = 0.
Proof. unfold truthy. intros E. apply negb_false_iff in E. lia. Qed.

Lemma entry_drop s h c : EqpNum s ≠ 0 → (Z.ldiff (Clients s) c =? 0) = true → entry_ok s h → entry_ok (drop_client c s) (clear_bus h).
Proof.
  intros Hn Hz [Hf Hu Hc Hb]. apply (mask_drop _ c) in Hc. apply Z.eqb_eq in Hz. destruct s, h. split; cbn in *; try done.
  by rewrite Hz.
Qed.

Lemma entry_drop_some s h c : truthy (Z.land c (Clients s)) = true → (Z.ldiff (Clients s) c =? 0) = false → entry_ok s h → entry_ok (drop_client c s) h.
Proof.
  intros Ht Hz [Hf Hu Hc Hb]. assert (Hn : Clients s ≠ 0).
  { intros E. rewrite E, Z.land_0_r in Ht. done. }
  apply (mask_drop _ c) in Hc. destruct s, h. split; cbn in *; try done.
  - intros E. by destruct (Hf E).
  - intros _. apply Hb. unfold truthy. by destruct (Z.eqb_spec Clients 0).
Qed.

Lemma entry_empty t c : entry_ok (mk_slot 0 HARD 0 t c) (ConfigToHard zero_configuration).
Proof. split; try done. apply mask_zero. Qed.

Lemma entry_free s c : (Z.ldiff (Clients s) c =? 0) = true → entry_ok (free_slot (drop_client c s)) (ConfigToHard zero_configuration).
Proof. intros Hz. apply Z.eqb_eq in Hz. destruct s. cbn in *. unfold free_slot, drop_client. cbn. rewrite Hz. apply entry_empty. Qed.

End tables.
