(* ===== verification/CtrTables.v ===== *)
(** The operations of the timing receiver keep the tables of its modules in order. *)
From S2P Require Import Prelude CtrHard CtrHardProofs CdcmSem CdcmSemProofs CtrDrvr CtrQueue CtrQueueProofs CtrIntr CtrIoctl CtrModule.

Local Open Scope Z_scope.

#[local] Arguments Z.testbit : simpl never.
#[local] Arguments Z.ldiff : simpl never.
#[local] Arguments Z.lor : simpl never.
#[local] Arguments truthy : simpl never.

(** To be used when the module is a constructor application. *)
Ltac wpm_step :=
  lazymatch goal with
  | |- wpm _ (_ ≫= _) _ _ => apply wpm_bind
  | |- wpm _ (mret _) _ _ => apply wpm_ret
  | |- wpm _ (gets _) _ _ => apply wpm_gets; intros ? ?
  | |- wpm _ (mcon _) _ _ => apply wpm_mcon
  | |- wpm _ (upd_mcon _ _) _ _ => apply wpm_upd_mcon
  | |- wpm _ (upd_slot _ _ _) _ _ => apply wpm_upd_mcon
  | |- wpm _ (mmap _) _ _ => eapply wpm_mmap; [reflexivity|]
  | |- wpm _ (upd_mmap _ _) _ _ => eapply wpm_upd_mmap; [reflexivity|]
  | |- wpm _ (local_write _ _ _ _) _ _ => apply wpm_local_write; intros ?
  | |- wpm _ (if _ then _ else _) _ _ => apply wpm_if; intros ?
  end.
Ltac wpm_steps := repeat (wpm_step; cbv beta).

(** Slots and sources stay as they are. *)
Definition same_tables (m m' : CtrDrvrModuleContext) : Prop := slots m' = slots m ∧ HardClients m' = HardClients m.

Section tables.
Variable allowed : Z → Prop.
Variable n : nat.
Implicit Types (m : CtrDrvrModuleContext) (mm : CtrDrvrMemoryMap).
#[local] Notation tables_ok := (tables_ok allowed).
#[local] Notation map_ok := (map_ok allowed).
#[local] Notation midx := (Z.of_nat n).

(** Open a module whose tables are in order. *)
Ltac open_module H := destruct H as [mm Hok]; lazymatch goal with |- wpm _ _ _ ?m =>
  pose proof (mk_map_eq _ _ _ Hok) as Hmap; destruct m; cbn in Hmap; subst end.
Ltac same_ok Hok := eexists; eapply tables_ext; [exact Hok|cbn; reflexivity|done|done|..]; cbn; rewrite ?length_alter, ?length_insert, ?length_imap; done.

Lemma wpm_EnableInterrupts msk m : tables_ok m →
  wpm n (EnableInterrupts midx msk) (λ r m', r = OK ∧ tables_ok m' ∧ same_tables m m') m.
Proof. intros Hok. open_module Hok. unfold EnableInterrupts. wpm_steps; (split; [done|]; split; [same_ok Hok|done]). Qed.

(** Only the interrupt enable words change. *)
Definition irq_words (v w : Z) (m : CtrDrvrModuleContext) : CtrDrvrModuleContext :=
  m <| InterruptEnable := v |> <| Map := (λ mm : CtrDrvrMemoryMap, mm <| mm_InterruptEnable := w |>) <$> Map m |>.

Lemma wpm_DisableInterrupts beyond tndx clss c m mm s : Map m = Some mm → slots m !! tndx = Some s ∨ clss = HARD →
  wpm n (DisableInterrupts beyond tndx midx clss c) (λ r m', r = OK ∧ (m' = m ∨ ∃ v w, m' = irq_words v w m)) m.
Proof.
  intros Hmap Hs. destruct m. cbn in Hmap. subst.
  assert (Hmask : ∀ hmsk, wpm n (mask_interrupts midx hmsk) (λ r m', r = OK ∧ (m' = mk_module Local LocalOpen ConfigOpen PciSlot IrqBalance (Some mm)
    FlashOpen HptdcOpen ModuleIndex Command InterruptEnable InputDelay Pll Status InUse BusErrorCount CableId UpLock slots HardClients
      ∨ ∃ v w, m' = irq_words v w (mk_module Local LocalOpen ConfigOpen PciSlot IrqBalance (Some mm)
    FlashOpen HptdcOpen ModuleIndex Command InterruptEnable InputDelay Pll Status InUse BusErrorCount CableId UpLock slots HardClients)))
    (mk_module Local LocalOpen ConfigOpen PciSlot IrqBalance (Some mm)
    FlashOpen HptdcOpen ModuleIndex Command InterruptEnable InputDelay Pll Status InUse BusErrorCount CableId UpLock slots HardClients)).
  { intros hmsk. unfold mask_interrupts. wpm_steps. split; [done|]. right. by eexists _, _. }
  unfold DisableInterrupts. cbv zeta. wpm_step. wpm_step. wpm_step.
  destruct clss; [wpm_step|destruct Hs as [Hs|]; [|done]; wpm_step; eapply wpm_lift; [exact Hs|]; wpm_step..];
  (wpm_step; [wpm_step; split; [done|by left]|]; wpm_step; [wpm_step; split; [done|by left]|];
    wpm_step; [wpm_step; split; [done|by left]|]; apply Hmask).
Qed.

(** ** Disconnecting *)

(** Table entries where a client may no longer be. *)
Definition dropped (i : nat) (cmsk : Z) (m m' : CtrDrvrModuleContext) : Prop :=
  length (slots m') = length (slots m) ∧ HardClients m' = HardClients m ∧
  (∀ j, j ≠ i → slots m' !! j = slots m !! j) ∧
  ∀ s', slots m' !! i = Some s' → Z.land cmsk (Clients s') = 0.

Lemma drop_none k c : 0 <= k → Z.land c (Z.ldiff k c) = 0.
Proof. intros Hk. rewrite Z.land_comm, Z.land_comm. apply Z.bits_inj'. intros j Hj. rewrite Z.land_spec, Z.ldiff_spec, Z.testbit_0_l.
  by destruct (Z.testbit c j), (Z.testbit k j). Qed.

Lemma alter_alter_insert {A} (f g : A → A) (l : list A) k x : l !! k = Some x → alter g k (alter f k l) = <[k := g (f x)]> l.
Proof.
  intros Hx. rewrite (alter_at_insert f l k x Hx), (alter_at_insert g _ k (f x)); [apply list_insert_insert_eq|].
  apply list_lookup_insert_eq. by eapply lookup_lt_Some.
Qed.

(** After the client is gone from entry [i], whatever was done to the entry. *)
Lemma dropped_insert i cmsk m m' s s' : slots m !! i = Some s → slots m' = <[i := s']> (slots m) → HardClients m' = HardClients m →
  Z.land cmsk (Clients s') = 0 → dropped i cmsk m m'.
Proof.
  intros Hs Es Eh Hd. split; [by rewrite Es, length_insert|]. split; [done|]. rewrite Es. split.
  - intros j Hj. by apply list_lookup_insert_ne.
  - intros s2 Hs2. rewrite list_lookup_insert_eq in Hs2 by by eapply lookup_lt_Some. by injection Hs2 as <-.
Qed.

Lemma wpm_DisConnectOne_slot beyond i c m s : tables_ok m → slots m !! i = Some s → EqpNum s ≠ 0 →
  wpm n (DisConnectOne beyond i midx (EqpClass s) c) (λ r m', r = OK ∧ tables_ok m' ∧ dropped i (bit (ClientIndex c)) m m') m.
Proof.
  intros [mm Hok] Hs Hn. pose proof (mk_map_eq _ _ _ Hok) as Hmap. destruct (entry_at _ _ _ _ _ Hok Hs) as (h & Hh & He).
  pose proof (en_used _ _ _ He Hn) as Hclass. set (cmsk := bit (ClientIndex c)).
  assert (Hd : Z.land cmsk (Clients (drop_client cmsk s)) = 0).
  { destruct (en_clients _ _ _ He) as [Hc _]. destruct s. cbn in *. by apply drop_none. }
  unfold DisConnectOne. cbv zeta. fold cmsk. wpm_step. wpm_step. cbv beta. wpm_step.
  apply (wpm_mono _ _ (λ _ m', tables_ok m' ∧ dropped i cmsk m m')); [|intros _ m' [? ?]; by wpm_step].
  destruct m. cbn in Hmap, Hs. subst.
  destruct (EqpClass s) eqn:Hcl; [done|..];
  (wpm_step; eapply wpm_lift; [exact Hs|]; wpm_step;
   [|wpm_step; split; [by exists mm|]; split; [done|]; split; [done|]; split; [done|]; intros s' Hs'; cbn in Hs';
     assert (s' = s) as -> by congruence; by apply truthy_zero]);
  (wpm_step; wpm_step; cbv beta; wpm_step;
   [|wpm_step; split; [|eapply dropped_insert; [exact Hs|exact (alter_at_insert (drop_client cmsk) _ i s Hs)|done|exact Hd]];
     eexists; eapply (tables_entry _ _ _ mm _ i s h (drop_client cmsk s) h); [exact Hok|exact Hs|exact Hh|by apply entry_drop_some|reflexivity|exact (alter_at_insert (drop_client cmsk) _ i s Hs)
       |done|done|by rewrite list_insert_id|done]]);
  (wpm_step; eapply wpm_mono; [eapply wpm_DisableInterrupts; [reflexivity|left; cbn; rewrite list_lookup_alter, Hs, decide_True by done; reflexivity]|]);
  (intros _ m' [_ [->|(v & w & ->)]]; rewrite Hcl).
  1, 2 : unfold write_slot; wpm_steps; split;
    [eexists; eapply (tables_entry _ _ _ mm _ i s h (free_slot (drop_client cmsk s)) (ConfigToHard zero_configuration));
      [exact Hok|exact Hs|exact Hh|intros _; by apply entry_free|reflexivity
        |exact (alter_alter_insert (drop_client cmsk) free_slot _ i s Hs)|done|done|done|cbn; by rewrite length_insert]
    |eapply (dropped_insert _ _ _ _ s (free_slot (drop_client cmsk s))); [exact Hs|exact (alter_alter_insert (drop_client cmsk) free_slot _ i s Hs)|done|];
     by destruct s].
  all : wpm_steps; split;
    [eexists; eapply (tables_entry _ _ _ mm _ i s h (drop_client cmsk s) (clear_bus h));
      [exact Hok|exact Hs|exact Hh|by apply entry_drop|reflexivity
        |exact (alter_at_insert (drop_client cmsk) _ i s Hs)|done|done|exact (alter_at_insert clear_bus _ i h Hh)|done]
    |eapply (dropped_insert _ _ _ _ s (drop_client cmsk s)); [exact Hs|exact (alter_at_insert (drop_client cmsk) _ i s Hs)|done|exact Hd]].
Qed.

Lemma hard_clients_at beyond m i k : HardClients m !! i = Some k → hard_clients beyond m (Z.of_nat i) = k.
Proof. intros Hk. unfold hard_clients. by rewrite index_nat, Hk. Qed.

(** Sources change, slots do not. *)
Lemma tables_hard m m' mm mm' l : map_ok m mm → Map m' = Some mm' → slots m' = slots m → HardClients m' = l → Forall (mask_ok allowed) l →
  length l = length (HardClients m) → mm_Counters mm' = mm_Counters mm → mm_Configs mm' = mm_Configs mm → mm_Trigs mm' = mm_Trigs mm →
  map_ok m' mm'.
Proof.
  intros [Hmm [Hc Hh Hl] He Ht Hk] Hmm' Es Eh Hm El Ec Ef Et. split; [done| |by rewrite Es, Ef|by rewrite Et, Es|by rewrite Eh].
  split; [by rewrite Ec|by rewrite Eh, El|by rewrite Es].
Qed.

Lemma Forall_alter_mask f l i : (∀ k, mask_ok allowed k → mask_ok allowed (f k)) → Forall (mask_ok allowed) l →
  Forall (mask_ok allowed) (alter f i l).
Proof. intros Hf Hl. apply Forall_alter; [done|]. intros k _. apply Hf. Qed.

Lemma wpm_DisConnectOne_hard beyond i c m : tables_ok m → (i < 14)%nat →
  wpm n (DisConnectOne beyond i midx HARD c) (λ r m', r = OK ∧ tables_ok m' ∧ slots m' = slots m ∧
    (∀ j, j ≠ i → HardClients m' !! j = HardClients m !! j) ∧
    ∀ k, HardClients m' !! i = Some k → Z.land (bit (ClientIndex c)) k = 0) m.
Proof.
  intros [mm Hok] Hi. pose proof (mk_map_eq _ _ _ Hok) as Hmap. pose proof (mk_shape _ _ _ Hok) as [_ Hlen _].
  pose proof (mk_hard _ _ _ Hok) as Hmasks.
  destruct (lookup_lt_is_Some_2 (HardClients m) i) as [k Hk]; [lia|]. set (cmsk := bit (ClientIndex c)).
  unfold DisConnectOne. cbv zeta. fold cmsk. wpm_step. wpm_step. cbv beta. wpm_step.
  apply (wpm_mono _ _ (λ _ m', tables_ok m' ∧ slots m' = slots m ∧ (∀ j, j ≠ i → HardClients m' !! j = HardClients m !! j) ∧
    ∀ k, HardClients m' !! i = Some k → Z.land cmsk k = 0)); [|intros _ m' Hm'; wpm_step; by split].
  rewrite (hard_clients_at _ _ _ _ Hk). pose proof (Forall_lookup_1 _ _ _ _ Hmasks Hk) as [Hk0 _].
  destruct m. cbn in Hmap, Hk, Hlen, Hmasks. subst.
  set (l2 := alter (λ k, Z.ldiff k cmsk) i HardClients).
  assert (Hl2 : Forall (mask_ok allowed) l2) by (apply Forall_alter_mask; [intros ? ?; by apply mask_drop|done]).
  assert (Hlen2 : length l2 = length HardClients) by apply length_alter.
  assert (Hother : ∀ j, j ≠ i → l2 !! j = HardClients !! j).
  { intros j Hj. unfold l2. rewrite list_lookup_alter, decide_False by done. done. }
  assert (Hd : ∀ k', l2 !! i = Some k' → Z.land cmsk k' = 0).
  { intros k' Hk'. unfold l2 in Hk'. rewrite list_lookup_alter, Hk, decide_True in Hk' by done. injection Hk' as <-. by apply drop_none. }
  wpm_step.
  - wpm_step. wpm_step. cbv beta. fold l2. wpm_step. wpm_step. wpm_step.
    + wpm_step. eapply wpm_mono; [eapply (wpm_DisableInterrupts _ _ _ _ _ _ (mk_slot 0 HARD 0 zero_trigger zero_configuration)); [reflexivity|by right]|].
      intros _ m' [_ [->|(v & w & ->)]]; wpm_step; (split; [|by split; [|split]]);
        eexists; (eapply (tables_hard _ _ _ _ l2); [exact Hok|reflexivity|done|done|done|done|done|done|done]).
    + wpm_step. split; [|by split; [|split]].
      eexists; eapply (tables_hard _ _ _ _ l2); [exact Hok|reflexivity|done|done|done|done|done|done|done].
  - wpm_step. split; [by exists mm|]. split; [done|]. split; [done|]. intros k' Hk'. cbn in Hk'.
    assert (k' = k) as -> by congruence. rewrite (truthy_zero k) by done. apply Z.land_0_r.
Qed.

Lemma wpm_disconnect_hard beyond c m : tables_ok m →
  wpm n (disconnect_hard beyond midx c) (λ _ m', tables_ok m' ∧ slots m' = slots m ∧
    ∀ i k, HardClients m' !! i = Some k → Z.land (bit (ClientIndex c)) k = 0) m.
Proof.
  intros Hok. unfold disconnect_hard.
  eapply wpm_mono; [eapply (wpm_mfold _ _ (λ l _ m', ∃ a, l = seq a (14 - a) ∧ (a <= 14)%nat ∧ tables_ok m' ∧ slots m' = slots m ∧
    ∀ i k, (i < a)%nat → HardClients m' !! i = Some k → Z.land (bit (ClientIndex c)) k = 0))|].
  - intros i l [] m1 (a & El & Ha & Hok1 & Es & Hd). destruct (decide (a = 14)%nat) as [->|Hne]; [done|].
    replace (14 - a)%nat with (S (14 - S a)) in El by lia. cbn [seq] in El. injection El as -> ->.
    apply wpm_bind. eapply wpm_mono; [apply wpm_DisConnectOne_hard; [done|lia]|].
    intros r m2 (-> & Hok2 & Es2 & Ho2 & Hi2). wpm_step. exists (S a). split; [done|]. split; [lia|]. split; [done|]. split; [congruence|].
    intros i k Hi Hk. destruct (decide (i = a)) as [->|Hia]; [by apply Hi2|]. rewrite Ho2 in Hk by done. apply (Hd i k); [lia|done].
  - exists 0%nat. change (Z.to_nat CtrDrvrInterruptSOURCES) with 14%nat. split; [done|]. split; [lia|]. split; [done|]. split; [done|]. lia.
  - intros [] m' (a & El & Ha & (mm & Hok') & Es & Hd). split; [by exists mm|]. split; [done|]. intros i k Hk. apply (Hd i k); [|done].
    apply lookup_lt_Some in Hk. rewrite (ms_hard _ _ (mk_shape _ _ _ Hok')) in Hk.
    destruct (14 - a)%nat eqn:Ea; [lia|done].
Qed.

Lemma wpm_disconnect_slots beyond p c m : (∀ s, EqpNum s = 0 → EqpClass s = HARD → p s = false) → tables_ok m →
  wpm n (disconnect_slots beyond p midx c) (λ _ m', tables_ok m' ∧ HardClients m' = HardClients m ∧
    ∀ i s, slots m' !! i = Some s → Z.land (bit (ClientIndex c)) (Clients s) = 0 ∨ p s = false) m.
Proof.
  intros Hp Hok. unfold disconnect_slots. wpm_step. wpm_step. set (N := length (slots m)).
  eapply wpm_mono; [eapply (wpm_mfold _ _ (λ l _ m', ∃ a, l = seq a (N - a) ∧ (a <= N)%nat ∧ tables_ok m' ∧
    HardClients m' = HardClients m ∧ length (slots m') = N ∧
    ∀ i s, (i < a)%nat → slots m' !! i = Some s → Z.land (bit (ClientIndex c)) (Clients s) = 0 ∨ p s = false))|].
  - intros i l [] m1 (a & El & Ha & Hok1 & Eh & En & Hd).
    destruct (N - a)%nat as [|b] eqn:Eb; [done|]. cbn [seq] in El. injection El as -> ->.
    assert (Hnext : ∀ m2, tables_ok m2 → dropped a (bit (ClientIndex c)) m1 m2 ∨ m2 = m1 ∧ (∀ s, slots m1 !! a = Some s → p s = false) →
      ∃ a0, seq (S a) b = seq a0 (N - a0) ∧ (a0 <= N)%nat ∧ tables_ok m2 ∧ HardClients m2 = HardClients m ∧ length (slots m2) = N ∧
        ∀ i s, (i < a0)%nat → slots m2 !! i = Some s → Z.land (bit (ClientIndex c)) (Clients s) = 0 ∨ p s = false).
    { intros m2 Hok2 [(Hl2 & Hh2 & Ho2 & Hd2)|[-> Hf]]; (exists (S a); replace (N - S a)%nat with b by lia; split; [done|];
        split; [lia|]; split; [done|]; split; [congruence|]; split; [congruence|]); intros i s Hi Hs;
        (destruct (decide (i = a)) as [->|Hia]; [|]).
      - left. by apply Hd2.
      - rewrite Ho2 in Hs by done. apply (Hd i s); [lia|done].
      - right. by apply Hf.
      - apply (Hd i s); [lia|done]. }
    destruct (lookup_lt_is_Some_2 (slots m1) a) as [s Hs]; [lia|].
    wpm_step. wpm_step. wpm_step. eapply wpm_lift; [exact Hs|]. wpm_step.
    + wpm_step. eapply wpm_mono; [eapply wpm_DisConnectOne_slot; [exact Hok1|exact Hs|]|].
      { intros E. destruct Hok1 as [mm1 Hok1]. destruct (entry_at _ _ _ _ _ Hok1 Hs) as (h & _ & He).
        destruct (en_free _ _ _ He E) as [Hc _]. rewrite (Hp s E Hc) in *. done. }
      intros r m2 (-> & Hok2 & Hd2). wpm_step. apply Hnext; [done|by left].
    + wpm_step. apply Hnext; [done|]. right. split; [done|]. intros s' Hs'. by assert (s' = s) as -> by congruence.
  - exists 0%nat. rewrite Nat.sub_0_r. split; [done|]. split; [lia|]. split; [done|]. split; [done|]. split; [done|]. lia.
  - intros [] m' (a & El & Ha & Hok' & Eh & En & Hd). split; [done|]. split; [done|]. intros i s Hs. apply (Hd i s); [|done].
    apply lookup_lt_Some in Hs. destruct (N - a)%nat eqn:Ea; [lia|done].
Qed.
End tables.
