(* ===== verification/CtrOps.v ===== *)
(** Connections and requests of the timing receiver keep the tables in order. *)
From S2P Require Import Prelude CtrHard CtrHardProofs CdcmSem CdcmSemProofs CtrDrvr CtrQueue CtrQueueProofs CtrIntr CtrIoctl CtrModule CtrTables.

Local Open Scope Z_scope.

#[local] Arguments Z.testbit : simpl never.
#[local] Arguments Z.ldiff : simpl never.
#[local] Arguments Z.lor : simpl never.
#[local] Arguments truthy : simpl never.

Section ops.
Variable allowed : Z → Prop.
Variable n : nat.
Implicit Types (m : CtrDrvrModuleContext) (mm : CtrDrvrMemoryMap).
#[local] Notation tables_ok := (tables_ok allowed).
#[local] Notation map_ok := (map_ok allowed).
#[local] Notation midx := (Z.of_nat n).

(** ** Connecting *)

Lemma entry_named m mm i s : map_ok m mm → slots m !! i = Some s → EqpClass s ≠ HARD → EqpNum s ≠ 0.
Proof. intros Hok Hs Hc E. destruct (entry_at _ _ _ _ _ Hok Hs) as (h & _ & He). by destruct (en_free _ _ _ He E). Qed.

Lemma same_object_class conx s : same_object conx s = true → EqpClass s = conx_EqpClass conx ∧ EqpNum s = conx_EqpNum conx.
Proof.
  unfold same_object. intros E. apply andb_prop in E as [En Ec]. apply bool_decide_eq_true in Ec. split; [done|lia].
Qed.

(** A client more in an entry. *)
Lemma wpm_connect_entry {B} (k : WaM B) (Q : B → CtrDrvrModuleContext → Prop) idx i s v m : 0 <= idx < 32 → allowed idx → tables_ok m →
  slots m !! i = Some s → EqpNum s ≠ 0 →
  (∀ m', tables_ok m' → length (slots m') = length (slots m) → wpm n k Q m') →
  wpm n (upd_slot midx i (add_client (bit idx));;
         upd_mcon midx (λ m : CtrDrvrModuleContext, m <| InterruptEnable := Z.lor (InterruptEnable m) v |>);;
         upd_mmap midx (λ mm : CtrDrvrMemoryMap, mm <| mm_Configs := alter set_bus i (mm_Configs mm) |>);; k) Q m.
Proof.
  intros Hidx Hall [mm Hok] Hs Hn HQ. destruct (entry_at _ _ _ _ _ Hok Hs) as (h & Hh & _).
  pose proof (mk_map_eq _ _ _ Hok) as Hmap. destruct m. cbn in Hmap, Hs. subst.
  do 3 (wpm_step; wpm_step; cbv beta). apply HQ.
  - eexists; eapply (tables_entry _ _ _ mm _ i s h (add_client (bit idx) s) (set_bus h)); [exact Hok|exact Hs|exact Hh|by apply entry_connect
      |reflexivity|exact (alter_at_insert (add_client (bit idx)) _ i s Hs)|done|done|exact (alter_at_insert set_bus _ i h Hh)|done].
  - apply length_alter.
Qed.

Lemma wpm_connect_ptim conx idx m : 0 <= idx < 32 → allowed idx → conx_EqpClass conx = PTIM → tables_ok m →
  wpm n (connect_ptim conx (bit idx) midx) (λ r m', 0 <= r ∧ tables_ok m') m.
Proof.
  intros Hidx Hall Hc Hok. unfold connect_ptim. wpm_step. wpm_step.
  eapply wpm_mono; [eapply (wpm_mfold _ _ (λ l r m', 0 <= r ∧ tables_ok m' ∧ length (slots m') = length (slots m) ∧
    Forall (λ i, i < length (slots m))%nat l))|].
  - intros i l r m1 (Hr & Hok1 & El & Hl). apply Forall_cons in Hl as [Hi Hl].
    destruct (lookup_lt_is_Some_2 (slots m1) i) as [s Hs]; [lia|].
    wpm_step. wpm_step. wpm_step. eapply wpm_lift; [exact Hs|]. wpm_step; [|by wpm_step].
    destruct (same_object_class conx s) as [Hcl _]; [done|].
    assert (Hn : EqpNum s ≠ 0) by (destruct Hok1 as [mm1 Hok1]; eapply entry_named; [exact Hok1|exact Hs|congruence]).
    eapply wpm_connect_entry; [done..|]. intros m2 Hok2 El2. wpm_step. split; [lia|]. split; [done|]. split; [congruence|done].
  - split; [done|]. split; [done|]. split; [done|]. apply Forall_forall. intros i Hi. apply elem_of_seq in Hi. lia.
  - intros r m' (Hr & Hok' & _). done.
Qed.

Lemma ctim_frame_named wa eqpnum : objects_ok wa → (Header (ctim_frame (Ctims wa) eqpnum) =? 0) = false → eqpnum ≠ 0.
Proof.
  unfold objects_ok, ctim_frame. intros Ho Hf ->. destruct (find_idx _ (Ctims wa)) as [i|] eqn:Hi; [|done].
  apply find_idx_lookup in Hi as [(o & Hl & He) _]. apply Z.eqb_eq in He. by apply (Forall_lookup_1 _ _ _ _ Ho Hl).
Qed.

Lemma ctim_config_bus : Z.testbit (hw_Config (ConfigToHard ctim_configuration)) 30 = true.
Proof. done. Qed.

Lemma wpm_create_instance conx frame idx i s m : 0 <= idx < 32 → allowed idx → conx_EqpNum conx ≠ 0 → tables_ok m →
  slots m !! i = Some s → EqpNum s = 0 →
  wpm n (create_instance conx frame (bit idx) midx i) (λ _ m', tables_ok m') m.
Proof.
  intros Hidx Hall Hn [mm Hok] Hs Hz. destruct (entry_at _ _ _ _ _ Hok Hs) as (h & Hh & He). destruct (en_free _ _ _ He Hz) as [_ Hnone].
  pose proof (mk_map_eq _ _ _ Hok) as Hmap. destruct m. cbn in Hmap, Hs. subst. unfold create_instance, write_slot. cbv zeta.
  set (g := λ s : slot, _). wpm_steps.
  eexists; eapply (tables_entry _ _ _ mm _ i s h (add_client (bit idx) (g s)) (ConfigToHard ctim_configuration)); [exact Hok|exact Hs|exact Hh| 
      |reflexivity|exact (alter_alter_insert g (add_client (bit idx)) _ i s Hs)|done|done|done|cbn; by rewrite length_insert].
  intros _. subst g. destruct s as [num cl cs t c]. cbn in Hz, Hnone. subst. split; try done.
  - by apply mask_add; [| |apply mask_zero].

Qed.

Lemma wpm_connect_ctim conx idx m : 0 <= idx < 32 → allowed idx → conx_EqpClass conx = CTIM → tables_ok m →
  wpm n (connect_ctim conx (bit idx) midx) (λ r m', tables_ok m' ∧ (r <= 0 → m' = m)) m.
Proof.
  intros Hidx Hall Hc Hok. unfold connect_ctim. wpm_step. wpm_step.
  destruct (find_idx (same_object conx) (slots m)) as [i|] eqn:Hi.
  - apply find_idx_lookup in Hi as [(s & Hs & Hso) _]. destruct (same_object_class _ _ Hso) as [Hcl _].
    assert (Hn : EqpNum s ≠ 0) by (destruct Hok as [mm Hok]; eapply entry_named; [exact Hok|exact Hs|congruence]).
    eapply wpm_connect_entry; [done..|]. intros m2 Hok2 _. wpm_step. split; [done|]. lia.
  - wpm_step. wpm_step. wpm_step; [by wpm_step|].
    destruct (find_idx (λ s, EqpNum s =? 0) (slots m)) as [i|] eqn:Hf; [|by wpm_step].
    apply find_idx_lookup in Hf as [(s & Hs & Hz) _]. wpm_step.
    eapply wpm_mono; [eapply wpm_create_instance; [done|done|by eapply ctim_frame_named|done|exact Hs|lia]|].
    intros [] m' Hok'. wpm_step. split; [done|]. lia.
Qed.

Lemma wpm_connect_hard conx idx m : 0 <= idx < 32 → allowed idx → tables_ok m →
  wpm n (connect_hard conx (bit idx) midx) (λ r m', 0 <= r ∧ tables_ok m') m.
Proof.
  intros Hidx Hall Hok. unfold connect_hard.
  eapply wpm_mono; [eapply (wpm_mfold _ _ (λ _ r m', 0 <= r ∧ tables_ok m'))|]; [|done|done].
  intros i _ r m1 [Hr [mm Hok1]]. pose proof (mk_map_eq _ _ _ Hok1) as Hmap. pose proof (mk_hard _ _ _ Hok1) as Hh.
  destruct m1. cbn in Hmap, Hh. subst. wpm_steps. split; [lia|].
  eexists; eapply tables_hard; [exact Hok1|reflexivity|done|reflexivity| |apply length_alter|done|done|done].
  apply Forall_alter_mask; [|done]. intros k Hk. rewrite Z.lor_comm. by apply mask_add.
Qed.

(** ** Requests *)

Ltac open_tables Hok mm := destruct Hok as [mm Hok]; pose proof (mk_map_eq _ _ _ Hok) as Hmap;
  lazymatch goal with |- wpm _ _ _ ?m => destruct m; cbn in Hmap; subst end.
Ltac same_ok Hok := eexists; eapply tables_ext; [exact Hok|cbn; reflexivity|done|done|..]; cbn;
  rewrite ?length_alter, ?length_insert, ?length_imap; done.

Lemma wpm_set_command on off m : tables_ok m → wpm n (set_command midx on off) (λ _ m', tables_ok m') m.
Proof. intros Hok. open_tables Hok mm. unfold set_command. wpm_steps. same_ok Hok. Qed.

Lemma wpm_Reset m : tables_ok m → wpm n (Reset midx) (λ _ m', tables_ok m') m.
Proof.
  intros Hok. open_tables Hok mm. unfold Reset. wpm_steps.
  eapply wpm_mono; [apply (wpm_EnableInterrupts allowed); same_ok Hok|]. intros r m' (_ & Hok' & _). by wpm_step.
Qed.

Lemma bus_of_config c : Z.testbit (hw_Config (ConfigToHard c)) 30 = Z.testbit (OnZero c) 0.
Proof.
  pose proof (f_equal OnZero (config_unpack c)) as E. unfold HardToConfig in E. cbv zeta in E. cbn [OnZero] in E.
  rewrite (shift_right_field _ _ _ _ _ mask_on_zero (config_word_u32 c)) in E. apply (f_equal (λ x, Z.testbit x 0)) in E.
  unfold bits in E. rewrite Z.land_spec, Z.shiftr_spec, Z.add_0_l in E by lia.
  change (Z.testbit (Z.ones 2) 0) with true in E. rewrite andb_true_r in E. rewrite E.
  change 4 with (2 ^ 2). by rewrite Z.mod_pow2_bits_low by lia.
Qed.

Lemma wpm_write_action i act s m : tables_ok m → slots m !! i = Some s → wpm n (write_action midx i act) (λ _ m', tables_ok m') m.
Proof.
  intros [mm Hok] Hs. destruct (entry_at _ _ _ _ _ Hok Hs) as (h & Hh & _).
  pose proof (mk_map_eq _ _ _ Hok) as Hmap. destruct m. cbn in Hmap, Hs. subst. unfold write_action.
  wpm_step. wpm_step. wpm_step. eapply wpm_lift; [exact Hs|]. cbv zeta.
  set (config := (act_Config act) <| OnZero := _ |>). wpm_steps.
  eexists; eapply (tables_entry _ _ _ mm _ i s h ((s <| Trigs := act_Trigger act |>) <| Configs := config |>) (ConfigToHard config));
    [exact Hok|exact Hs|exact Hh| |reflexivity
    |exact (alter_alter_insert (λ s : slot, s <| Trigs := act_Trigger act |>) (λ s : slot, s <| Configs := config |>) _ i s Hs)
    |done|done|done|cbn; by rewrite length_insert].
  intros [Hf Hu Hc Hb]. split; [by destruct s..|]. rewrite bus_of_config. subst config. destruct act as [tn num cl t [oz st mo ck pw dl]].
  destruct s as [snum scl scs st0 sc]. cbn. intros ->.
  rewrite Z.lor_spec. change (Z.testbit CtrDrvrCounterOnZeroBUS 0) with true. apply orb_true_r.
Qed.

Lemma wpm_set_action act m : tables_ok m → wpm n (set_action midx act) (λ _ m', tables_ok m') m.
Proof.
  intros Hok. unfold set_action. wpm_step. wpm_step. wpm_step; [|by wpm_step]. cbv zeta.
  destruct (lookup_lt_is_Some_2 (slots m) (Z.to_nat (act_TriggerNumber act - 1))) as [s Hs].
  { match goal with Hc : _ && _ = true |- _ => apply andb_prop in Hc as [? ?] end. lia. }
  wpm_step. eapply wpm_lift; [exact Hs|]. wpm_step; [by wpm_step|]. wpm_step.
  - repeat (wpm_step; [by wpm_step|]). by eapply wpm_write_action.
  - match goal with Hc : bool_decide _ = false |- _ => apply bool_decide_eq_false in Hc; rename Hc into Hcl end.
    destruct Hok as [mm Hok]. pose proof (entry_named _ _ _ _ Hok Hs Hcl).
    match goal with Hc : negb (EqpNum s =? 0) = false |- _ => apply negb_false_iff in Hc end. lia.
Qed.

Lemma wpm_get_action tnum m : tables_ok m → wpm n (get_action midx tnum) (λ _ m', tables_ok m') m.
Proof.
  intros [mm Hok]. pose proof (mk_map_eq _ _ _ Hok) as Hmap. unfold get_action. wpm_step. wpm_step. wpm_step.
  eapply wpm_mmap; [exact Hmap|]. wpm_step; [|wpm_step; by exists mm]. cbv zeta.
  set (i := Z.to_nat (tnum - 1)). assert (Hi : (i < length (slots m))%nat).
  { match goal with Hc : _ && _ = true |- _ => apply andb_prop in Hc as [? ?] end. lia. }
  destruct (lookup_lt_is_Some_2 _ _ Hi) as [s Hs]. destruct (entry_at _ _ _ _ _ Hok Hs) as (h & Hh & _).
  destruct (lookup_lt_is_Some_2 (mm_Trigs mm) i) as [t Ht]; [by rewrite (mk_trigs _ _ _ Hok)|].
  wpm_step. eapply wpm_lift; [exact Hs|]. wpm_step. eapply wpm_lift; [exact Ht|]. wpm_step. eapply wpm_lift; [exact Hh|].
  wpm_step. by exists mm.
Qed.

(** ** Counters *)

Lemma wpm_counter c (Q : CtrDrvrFpgaCounter → CtrDrvrModuleContext → Prop) m : tables_ok m → 0 <= c <= 8 → (∀ f, Q f m) → wpm n (counter midx c) Q m.
Proof.
  intros [mm Hok] Hc HQ. unfold counter. wpm_step. eapply wpm_mmap; [exact (mk_map_eq _ _ _ Hok)|]. wpm_step.
  eapply wpm_lift; [unfold index; by destruct (Z.ltb_spec c 0); [lia|]|].
  pose proof (ms_counters _ _ (mk_shape _ _ _ Hok)). destruct (lookup_lt_is_Some_2 (mm_Counters mm) (Z.to_nat c)) as [f Hf]; [lia|].
  eapply wpm_lift; [exact Hf|]. apply HQ.
Qed.

Lemma wpm_upd_counter {B} c f (k : WaM B) (Q : B → CtrDrvrModuleContext → Prop) m : tables_ok m → 0 <= c <= 8 → (∀ m', tables_ok m' → wpm n k Q m') →
  wpm n (upd_counter midx c f;; k) Q m.
Proof.
  intros Hok Hc HQ. unfold upd_counter. wpm_step. wpm_step. apply wpm_counter; [done..|]. intros _.
  open_tables Hok mm. wpm_step. apply HQ. same_ok Hok.
Qed.

Lemma real_counter_range c : real_counter c = true → 0 <= c <= 8.
Proof. unfold real_counter. intros E. apply andb_prop in E as [E1 E2]. unfold CtrDrvrCounter1, CtrDrvrCounter8 in *. lia. Qed.

Ltac on_counter Hok := wpm_step; [|by wpm_step];
  lazymatch goal with Hc : real_counter _ = true |- _ => apply real_counter_range in Hc end.

Lemma wpm_set_remote c r m : tables_ok m → wpm n (set_remote midx c r) (λ _ m', tables_ok m') m.
Proof. intros Hok. unfold set_remote. on_counter Hok. apply wpm_upd_counter; [done..|]. intros m' Hm'. by wpm_step. Qed.

Lemma wpm_get_remote c m : tables_ok m → wpm n (get_remote midx c) (λ _ m', tables_ok m') m.
Proof. intros Hok. unfold get_remote. on_counter Hok. wpm_step. apply wpm_counter; [done..|]. intros f. by wpm_step. Qed.

Lemma wpm_remote_command c r m : tables_ok m → wpm n (remote_command midx c r) (λ _ m', tables_ok m') m.
Proof.
  intros Hok. unfold remote_command. on_counter Hok. wpm_step. apply wpm_counter; [done..|]. intros f.
  wpm_step; [|by wpm_step]. apply wpm_upd_counter; [done..|]. intros m' Hm'. by wpm_step.
Qed.

Lemma wpm_get_out_mask c m : tables_ok m → wpm n (get_out_mask midx c) (λ _ m', tables_ok m') m.
Proof. intros Hok. unfold get_out_mask. on_counter Hok. wpm_step. apply wpm_counter; [done..|]. intros f. by wpm_step. Qed.

Lemma wpm_set_out_mask c k p m : tables_ok m → wpm n (set_out_mask midx c k p) (λ _ m', tables_ok m') m.
Proof. intros Hok. unfold set_out_mask. on_counter Hok. cbv zeta. apply wpm_upd_counter; [done..|]. intros m' Hm'. by wpm_step. Qed.

Lemma counter_range c : (CtrDrvrCounter0 <=? c) && (c <=? CtrDrvrCounter8) = true → 0 <= c <= 8.
Proof. intros E. apply andb_prop in E as [E1 E2]. unfold CtrDrvrCounter0, CtrDrvrCounter8 in *. lia. Qed.

Lemma wpm_get_config c m : tables_ok m → wpm n (get_config midx c) (λ _ m', tables_ok m') m.
Proof.
  intros Hok. unfold get_config. wpm_step; [|by wpm_step]. wpm_step. apply wpm_counter; [done|by apply counter_range|].
  intros f. cbv zeta. wpm_step; by wpm_step.
Qed.

Lemma wpm_set_config c conf m : 0 <= c <= 8 → tables_ok m → wpm n (set_config midx c conf) (λ _ m', tables_ok m') m.
Proof.
  intros Hc Hok. unfold set_config. wpm_step. apply wpm_counter; [done..|]. intros f.
  wpm_step; [|by wpm_step]. wpm_step; [|by wpm_step]. apply wpm_upd_counter; [done..|]. intros m' Hm'. by wpm_step.
Qed.

Lemma wpm_get_counter_history c m : tables_ok m → wpm n (get_counter_history midx c) (λ _ m', tables_ok m') m.
Proof. intros Hok. unfold get_counter_history. on_counter Hok. wpm_step. apply wpm_counter; [done..|]. intros f. by wpm_step. Qed.

(** ** The rest *)

Lemma wpm_fields f m : tables_ok m →
  (∀ m, Map (f m) = Map m ∧ slots (f m) = slots m ∧ HardClients (f m) = HardClients m) → wpm n (upd_mcon midx f) (λ _ m', tables_ok m') m.
Proof.
  intros [mm Hok] Hf. destruct (Hf m) as (Em & Es & Eh). apply wpm_upd_mcon. exists mm. eapply tables_ext; [exact Hok| |done..].
  rewrite Em. apply (mk_map_eq _ _ _ Hok).
Qed.

Lemma wpm_set_mcon f m : tables_ok m →
  (∀ m, Map (f m) = Map m ∧ slots (f m) = slots m ∧ HardClients (f m) = HardClients m) → wpm n (set_mcon midx f) (λ _ m', tables_ok m') m.
Proof.
  intros Hok Hf. unfold set_mcon. wpm_step. eapply wpm_mono; [by apply wpm_fields|]. intros [] m' Hm'. by wpm_step.
Qed.

Lemma wpm_clr_uplock pw m : tables_ok m → wpm n (clr_uplock midx pw) (λ _ m', tables_ok m') m.
Proof. intros Hok. unfold clr_uplock. wpm_step; [|by wpm_step]. apply wpm_fields; [done|]. by intros []. Qed.

Lemma wpm_SetTime tod m : tables_ok m → wpm n (SetTime midx tod) (λ _ m', tables_ok m') m.
Proof. intros Hok. open_tables Hok mm. unfold SetTime. wpm_step. same_ok Hok. Qed.

Lemma wpm_GetTime m : tables_ok m → wpm n (GetTime midx) (λ _ m', tables_ok m') m.
Proof. intros Hok. open_tables Hok mm. unfold GetTime. wpm_steps. same_ok Hok. Qed.

Lemma wpm_GetStatus m : tables_ok m → wpm n (GetStatus midx) (λ _ m', tables_ok m') m.
Proof.
  intros Hok. open_tables Hok mm. unfold GetStatus. wpm_steps. exists mm.
  eapply tables_ext; [exact Hok|by repeat destruct (_ : bool)|by repeat destruct (_ : bool)|by repeat destruct (_ : bool)|done..].
Qed.

Lemma wpm_set_pll p m : tables_ok m → wpm n (set_pll midx p) (λ _ m', tables_ok m') m.
Proof. intros Hok. open_tables Hok mm. unfold set_pll. wpm_steps. same_ok Hok. Qed.

Lemma wpm_set_input_delay v m : tables_ok m → wpm n (set_input_delay midx v) (λ _ m', tables_ok m') m.
Proof. intros Hok. open_tables Hok mm. unfold set_input_delay. wpm_steps. same_ok Hok. Qed.

Lemma wpm_get_cable_id m : tables_ok m → wpm n (get_cable_id midx) (λ _ m', tables_ok m') m.
Proof.
  intros [mm Hok]. unfold get_cable_id. wpm_step. wpm_step. wpm_step; [wpm_step; by exists mm|].
  wpm_step. eapply wpm_mmap; [exact (mk_map_eq _ _ _ Hok)|]. wpm_step. by exists mm.
Qed.

Lemma wpm_enable v m : tables_ok m → wpm n (enable midx v) (λ _ m', tables_ok m') m.
Proof. intros Hok. unfold enable. repeat wpm_step; by apply wpm_set_command. Qed.

Lemma wpm_set_debug_history v m : tables_ok m → wpm n (set_debug_history midx v) (λ _ m', tables_ok m') m.
Proof. intros Hok. unfold set_debug_history. repeat wpm_step; by apply wpm_set_command. Qed.

Lemma wpm_set_brutal_pll v m : tables_ok m → wpm n (set_brutal_pll midx v) (λ _ m', tables_ok m') m.
Proof. intros Hok. unfold set_brutal_pll. repeat wpm_step; by apply wpm_set_command. Qed.

Lemma wpm_jtag_open m : tables_ok m → wpm n (jtag_open midx) (λ _ m', tables_ok m') m.
Proof.
  intros Hok. unfold jtag_open. wpm_step. eapply wpm_mono; [apply wpm_fields; [done|]|].
  - intros []. cbn. by destruct (_ =? _).
  - intros [] m' Hok'. open_tables Hok' mm. wpm_steps; same_ok Hok'.
Qed.

Lemma wpm_jtag_write_byte v m : tables_ok m → wpm n (jtag_write_byte midx v) (λ _ m', tables_ok m') m.
Proof.
  intros Hok. unfold jtag_write_byte. wpm_step. wpm_step. wpm_step; [|by wpm_step]. cbv zeta. open_tables Hok mm. wpm_steps. same_ok Hok.
Qed.

Lemma wpm_jtag_read_byte m regs : tables_ok m → Local m = Some regs → wpm n (jtag_read_byte midx) (λ _ m', tables_ok m') m.
Proof.
  intros Hok Hl. unfold jtag_read_byte. wpm_step. wpm_step. wpm_step. wpm_step. wpm_step; [|by wpm_step].
  wpm_step. rewrite Hl. eapply wpm_lift; [reflexivity|]. by wpm_step.
Qed.

Lemma wpm_jtag_close m : tables_ok m → wpm n (jtag_close midx) (λ _ m', tables_ok m') m.
Proof.
  intros Hok. unfold jtag_close. wpm_step. wpm_step. wpm_step.
  eapply wpm_mono; [apply (wpm_EnableInterrupts allowed)|].
  - destruct Hok as [mm Hok]. exists mm. eapply tables_ext; [exact Hok|by rewrite <- (mk_map_eq _ _ _ Hok); destruct m|by destruct m..].
  - intros r m' (_ & Hok' & _). wpm_step. eapply wpm_mono; [apply wpm_fields; [done|]; by intros []|]. intros [] m2 Hm2. by wpm_step.
Qed.
End ops.

(** Requests on one module that keep its tables in order. *)
Create HintDb ctr_ops.
#[export] Hint Resolve wpm_set_command wpm_Reset wpm_set_action wpm_get_action wpm_set_remote wpm_get_remote wpm_remote_command
  wpm_get_out_mask wpm_set_out_mask wpm_get_config wpm_set_config wpm_get_counter_history wpm_clr_uplock wpm_SetTime wpm_GetTime
  wpm_GetStatus wpm_set_pll wpm_set_input_delay wpm_get_cable_id wpm_enable wpm_set_debug_history wpm_set_brutal_pll wpm_jtag_open
  wpm_jtag_write_byte wpm_jtag_close : ctr_ops.
