(* ===== verification/CtrPtim.v ===== *)
(** PTIM objects of the timing receiver: the search for empty triggers, creation and destruction. *)
From S2P Require Import Prelude CtrHard CtrHardProofs CdcmSem CdcmSemProofs CtrDrvr CtrQueue CtrQueueProofs CtrIntr CtrIoctl CtrModule CtrTables CtrOps.

Local Open Scope Z_scope.

(** * First fit *)

(** The [w] slots from [j] on exist and are free. *)
Definition run_at (l : list slot) (w j : nat) : Prop := ∀ k, (j <= k < j + w)%nat → ∃ s, l !! k = Some s ∧ EqpNum s = 0.

Lemma find_run_spec (w : nat) l : ∀ pre z start, (z < w)%nat → (z <= length pre)%nat →
  (∀ k, (length pre - z <= k < length pre)%nat → ∃ s, (pre ++ l) !! k = Some s ∧ EqpNum s = 0) →
  (∀ j, (j < length pre - z)%nat → ¬ run_at (pre ++ l) w j) →
  (z ≠ 0%nat → start = Z.of_nat (length pre - z)) →
  match find_run (Z.of_nat w) l (Z.of_nat (length pre)) (Z.of_nat z) start with
  | Some st => ∃ k : nat, st = Z.of_nat k ∧ run_at (pre ++ l) w k ∧ ∀ j, (j < k)%nat → ¬ run_at (pre ++ l) w j
  | None => ∀ j, ¬ run_at (pre ++ l) w j
  end.
Proof.
  induction l as [|s l IH]; intros pre z start Hz Hzl Hfree Hno Hst; cbn [find_run].
  - intros j Hj. destruct (decide (j < length pre - z)%nat) as [Hlt|Hge]; [by apply (Hno j)|].
    destruct (Hj (Nat.max j (length pre))) as (x & Hx & _); [lia|]. rewrite app_nil_r, lookup_ge_None_2 in Hx by lia. done.
  - assert (Hat : (pre ++ s :: l) !! length pre = Some s) by by rewrite lookup_app_r, Nat.sub_diag by lia.
    replace (Z.of_nat (length pre) + 1) with (Z.of_nat (length (pre ++ [s]))) by (rewrite length_app; simpl; lia).
    assert (Happ : pre ++ s :: l = (pre ++ [s]) ++ l) by by rewrite <- app_assoc.
    destruct (Z.eqb_spec (EqpNum s) 0) as [He|He].
    + assert (Hstart : (if Z.of_nat z =? 0 then Z.of_nat (length pre) else start) = Z.of_nat (length pre - z)).
      { destruct (Z.eqb_spec (Z.of_nat z) 0); [f_equal; lia|apply Hst; lia]. }
      cbv zeta. rewrite Hstart. destruct (Z.geb_spec (Z.of_nat z + 1) (Z.of_nat w)).
      * exists (length pre - z)%nat. split; [done|]. split; [|exact Hno]. intros k Hk.
        destruct (decide (k = length pre)) as [->|]; [by exists s|]. apply Hfree. lia.
      * replace (Z.of_nat z + 1) with (Z.of_nat (S z)) by lia. rewrite Happ in *.
        apply IH; rewrite ?length_app; simpl; try lia.
        -- intros k Hk. destruct (decide (k = length pre)) as [->|]; [by exists s|]. apply Hfree. lia.
        -- intros j Hj. apply Hno. lia.
    + rewrite Happ in *. change 0 with (Z.of_nat 0). apply IH; rewrite ?length_app; simpl; try lia.
      intros j Hj Hrun. destruct (decide (j < length pre - z)%nat) as [Hlt|Hge]; [by apply (Hno j)|].
      destruct (Hrun (length pre)) as (x & Hx & Hxe); [lia|]. rewrite Hat in Hx. by injection Hx as ->.
Qed.

(** The first run, or none exists. *)
Lemma find_run_first_fit (w : nat) l : (0 < w)%nat →
  match find_run (Z.of_nat w) l 0 0 0 with
  | Some st => ∃ k : nat, st = Z.of_nat k ∧ run_at l w k ∧ ∀ j, (j < k)%nat → ¬ run_at l w j
  | None => ∀ j, ¬ run_at l w j
  end.
Proof. intros Hw. apply (find_run_spec w l [] 0 0); simpl; lia. Qed.

(** An object without triggers is put at the first free one. *)
Lemma find_run_nonneg want l : ∀ i size start, 0 <= i → 0 <= start → ∀ st, find_run want l i size start = Some st → 0 <= st.
Proof.
  induction l as [|s l IH]; intros i size start Hi Hs st E; [done|]. cbn [find_run] in E.
  destruct (EqpNum s =? 0); [|apply IH in E; lia]. cbv zeta in E.
  destruct (_ >=? _); [injection E as <-|apply IH in E]; destruct (size =? 0); lia.
Qed.

Section ops.
Variable allowed : Z → Prop.
Variable n : nat.
Implicit Types (m : CtrDrvrModuleContext) (mm : CtrDrvrMemoryMap).
#[local] Notation tables_ok := (tables_ok allowed).
#[local] Notation map_ok := (map_ok allowed).
#[local] Notation midx := (Z.of_nat n).

(** ** Creation *)

Definition put_ptim (p : CtrDrvrPtimBinding) (start : Z) (m : CtrDrvrModuleContext) : CtrDrvrModuleContext :=
  m <| slots := imap (λ i s, if in_run start (pt_Size p) i then ptim_slot p s else s) (slots m) |>.

Lemma put_ptim_ok p start m : tables_ok m → pt_EqpNum p ≠ 0 → find_run (pt_Size p) (slots m) 0 0 0 = Some start →
  tables_ok (put_ptim p start m).
Proof.
  intros [mm Hok] Hn Hrun. exists mm.
  assert (Hfree : ∀ i s, slots m !! i = Some s → in_run start (pt_Size p) i = true → EqpNum s = 0).
  { intros i s Hs Hin. unfold in_run in Hin. apply andb_prop in Hin as [H1 H2].
    pose proof (find_run_first_fit (Z.to_nat (pt_Size p)) (slots m) ltac:(pose proof (find_run_nonneg _ _ 0 0 0 ltac:(lia) ltac:(lia) _ Hrun); lia)) as Hf.
    rewrite Z2Nat.id in Hf by (pose proof (find_run_nonneg _ _ 0 0 0 ltac:(lia) ltac:(lia) _ Hrun); lia).
    rewrite Hrun in Hf. destruct Hf as (k & -> & Hk & _). destruct (Hk i) as (s' & Hs' & He); [lia|]. congruence. }
  destruct Hok as [Hmm [Hc Hh Hl] He Ht Hk]. destruct m as [? ? ? ? ? mp ? ? ? ? ? ? ? ? ? ? ? ? sl hc]. cbn in *.
  split; cbn; rewrite ?length_imap; try done.
  - split; cbn; try done. by destruct sl.
  - apply Forall2_same_length_lookup_2; [rewrite length_imap; by eapply Forall2_length|].
    intros i s h Hs Hh'. rewrite list_lookup_imap in Hs. destruct (sl !! i) as [s0|] eqn:Hs0; [|done]. cbn in Hs. injection Hs as <-.
    pose proof (Forall2_lookup_lr _ _ _ _ _ _ He Hs0 Hh') as [Hf Hu Hcl Hb].
    destruct (in_run start (pt_Size p) i) eqn:Hin; [|by split]. specialize (Hfree _ _ Hs0 Hin). destruct (Hf Hfree) as [_ Hz].
    destruct s0. by split.
Qed.

(** ** Destruction *)

Lemma wpm_clear_slots eqpnum m : tables_ok m → existsb (λ s, of_ptim eqpnum s && truthy (Clients s)) (slots m) = false →
  wpm n (mfold (λ _ i,
        m ← mcon midx;
        s ← lift_opt (slots m !! i);
        if of_ptim eqpnum s then
          write_slot midx i (mk_hw_trigger 0 0) (ConfigToHard zero_configuration);;
          upd_slot midx i clear_slot
        else mret ()) () (seq 0 (length (slots m)))) (λ _ m', tables_ok m') m.
Proof.
  intros Hok Hnone. 
  eapply wpm_mono; [eapply (wpm_mfold _ _ (λ l _ m', tables_ok m' ∧ length (slots m') = length (slots m) ∧
    (∀ i s, slots m' !! i = Some s → of_ptim eqpnum s = true → Clients s = 0) ∧ Forall (λ i, i < length (slots m))%nat l))|].
  - intros i l [] m1 (Hok1 & El & Hz & Hl). apply Forall_cons in Hl as [Hi Hl].
    destruct (lookup_lt_is_Some_2 (slots m1) i) as [s Hs]; [lia|].
    wpm_step. wpm_step. wpm_step. eapply wpm_lift; [exact Hs|]. wpm_step; [|by wpm_step].
    specialize (Hz i s Hs ltac:(done)) as Hs0. destruct Hok1 as [mm Hok1]. destruct (entry_at _ _ _ _ _ Hok1 Hs) as (h & Hh & _).
    pose proof (mk_map_eq _ _ _ Hok1) as Hmap. destruct m1. cbn in Hmap, Hs, El, Hz. subst. unfold write_slot. wpm_steps.
    split; [|split; [cbn; by rewrite length_alter|split; [|done]]].
    + eexists; eapply (tables_entry _ _ _ mm _ i s h (clear_slot s) (ConfigToHard zero_configuration)); [exact Hok1|exact Hs|exact Hh|
        |reflexivity|exact (alter_at_insert clear_slot _ i s Hs)|done|done|done|cbn; by rewrite length_insert].
      intros _. destruct s. cbn in Hs0. subst. apply entry_empty.
    + cbn. intros j s' Hs'. rewrite list_lookup_alter in Hs'. destruct (decide (i = j)) as [->|].
      * rewrite Hs in Hs'. injection Hs' as <-. intros _. by destruct s.
      * intros Hm. exact (Hz _ _ Hs' Hm).
  - split; [done|]. split; [done|]. split.
    + intros i s Hs Hm. destruct (truthy (Clients s)) eqn:Ht; [|by apply truthy_zero].
      exfalso. rewrite (proj2 (existsb_exists _ _)) in Hnone; [done|]. exists s. rewrite Hm, Ht. split; [|done].
      apply list_elem_of_In. by eapply list_elem_of_lookup_2.
    + apply Forall_forall. intros i Hi. apply elem_of_seq in Hi. lia.
  - intros [] m' (? & _). done.
Qed.
End ops.
