(* ===== verification/CtrSpec.v ===== *)
(** The invariant of the working area of the timing receiver driver, how operations on one
    module or client keep it, and whole operations: none gets stuck when it is used as its users must, and a
    client that is closed is gone from all tables. *)
From S2P Require Import Prelude CdcmSem CdcmSemProofs CtrHard CtrHardProofs CtrDrvr CtrQueue CtrIoctl CtrQueueProofs CtrIntr CtrModule CtrTables CtrOps CtrPtim.

Local Open Scope Z_scope.

(** A client that is open. *)
Definition is_open (wa : CtrDrvrWorkingArea) (j : Z) : Prop :=
  ∃ i c, j = Z.of_nat i ∧ ClientContexts wa !! i = Some c ∧ cl_InUse c ≠ 0.

Record client_ok (modules : Z) (i : nat) (c : CtrDrvrClientContext) : Prop := {
  cl_sem : sem_inv (Semaphore c);
  cl_ring : ∃ l, ring (Queue c) l;
  cl_open : cl_InUse c ≠ 0 → ClientIndex c = Z.of_nat i ∧ 0 <= cl_ModuleIndex c < modules
}.

(** The clients in the tables are among [allowed]. *)
Record inv_for (allowed : Z → Prop) (wa : CtrDrvrWorkingArea) : Prop := {
  in_clients : length (ClientContexts wa) = 16%nat;
  in_client : ∀ i c, ClientContexts wa !! i = Some c → client_ok (Modules wa) i c;
  in_modules : 1 <= Modules wa <= Z.of_nat (length (ModuleContexts wa));
  in_tables : ∀ n m, Z.of_nat n < Modules wa → ModuleContexts wa !! n = Some m → tables_ok allowed m;
  in_ctims : objects_ok wa;
  in_ptims : Forall (λ p, pt_EqpNum p ≠ 0 ∧ 0 <= pt_ModuleIndex p < Modules wa) (Ptims wa)
}.

Definition inv (wa : CtrDrvrWorkingArea) : Prop := inv_for (is_open wa) wa.

Lemma open_same wa wa' : ClientContexts wa' = ClientContexts wa → ∀ j, is_open wa j → is_open wa' j.
Proof. intros E j (i & c & Hj & Hc & Hu). exists i, c. by rewrite E. Qed.

(** ** More clients *)

Lemma mask_mono (A B : Z → Prop) k : (∀ j, A j → B j) → mask_ok A k → mask_ok B k.
Proof. intros HAB [Hk Hb]. split; [done|]. intros j Hj. by apply HAB, Hb. Qed.

Lemma tables_mono (A B : Z → Prop) m : (∀ j, A j → B j) → tables_ok A m → tables_ok B m.
Proof.
  intros HAB [mm [Hmm Hsh He Ht Hk]]. exists mm. split; try done.
  - eapply Forall2_impl; [exact He|]. intros s h [Hf Hu Hc Hb]. split; try done. by eapply mask_mono.
  - eapply Forall_impl; [exact Hk|]. intros k. by apply mask_mono.
Qed.

Lemma inv_for_mono (A B : Z → Prop) wa : (∀ j, A j → B j) → inv_for A wa → inv_for B wa.
Proof. intros HAB [H1 H2 H3 H4 H5 H6]. split; try done. intros n m Hn Hm. eapply tables_mono; [exact HAB|by eapply H4]. Qed.

(** ** Changes of one module *)

Section allowed.
Variable allowed : Z → Prop.
#[local] Notation inv_for := (inv_for allowed).
#[local] Notation tables_ok := (tables_ok allowed).

Lemma module_installed wa n : inv_for wa → Z.of_nat n < Modules wa → ∃ m, ModuleContexts wa !! n = Some m ∧ tables_ok m.
Proof.
  intros Hi Hn. destruct (lookup_lt_is_Some_2 (ModuleContexts wa) n) as [m Hm]; [pose proof (in_modules _ _ Hi); lia|].
  exists m. split; [done|]. by eapply in_tables.
Qed.

Lemma inv_set_module wa n m : inv_for wa → tables_ok m → inv_for (set_module_context n m wa).
Proof.
  intros [H1 H2 H3 H4 H5 H6] Hm. destruct wa as [en ct pt ms mcs ccs]. unfold set_module_context in *. split; cbn in *; try done.
  - by rewrite length_insert.
  - intros n' m' Hn' Hm'. rewrite list_lookup_insert in Hm'. destruct (decide _) as [[<- _]|].
    + injection Hm' as <-. exact Hm.
    + by apply (H4 n').
Qed.

(** A module that is not installed may change in any way. *)
Lemma inv_other_module wa n m : inv_for wa → Modules wa <= Z.of_nat n → inv_for (set_module_context n m wa).
Proof.
  intros [H1 H2 H3 H4 H5 H6] Hn. destruct wa as [en ct pt ms mcs ccs]. unfold set_module_context in *. split; cbn in *; try done.
  - by rewrite length_insert.
  - intros n' m' Hn' Hm'. rewrite list_lookup_insert_ne in Hm' by lia. by apply (H4 n').
Qed.

(** Objects other than triggers. *)
Lemma inv_ctims wa l : inv_for wa → Forall (λ o, ct_EqpNum o ≠ 0) l → inv_for (wa <| Ctims := l |>).
Proof. intros [H1 H2 H3 H4 H5 H6] Hl. destruct wa. by split. Qed.

Lemma inv_ptims wa l : inv_for wa → Forall (λ p, pt_EqpNum p ≠ 0 ∧ 0 <= pt_ModuleIndex p < Modules wa) l → inv_for (wa <| Ptims := l |>).
Proof. intros [H1 H2 H3 H4 H5 H6] Hl. destruct wa. by split. Qed.

Lemma wp_module {A} (op : WaM A) (Q : A → CtrDrvrModuleContext → Prop) n wa : inv_for wa → Z.of_nat n < Modules wa →
  (∀ m, ModuleContexts wa !! n = Some m → tables_ok m → wpm n op (λ r m', tables_ok m' ∧ Q r m') m) →
  wp op (λ r wa', inv_for wa' ∧ ∃ m', wa' = set_module_context n m' wa ∧ Q r m') wa.
Proof.
  intros Hi Hn Hop. destruct (module_installed wa n Hi Hn) as (m & Hm & Hok).
  destruct (Hop m Hm Hok wa (in_ctims _ _ Hi) Hm) as (r & m' & E & Hok' & HQ). eapply wp_of_run; [exact E|].
  split; [by apply inv_set_module|]. by exists m'.
Qed.

Lemma inv_for_clients wa ccs : inv_for wa → length ccs = 16%nat → (∀ i c, ccs !! i = Some c → client_ok (Modules wa) i c) →
  inv_for (wa <| ClientContexts := ccs |>).
Proof. intros [H1 H2 H3 H4 H5 H6] Hl Hc. destruct wa. by split. Qed.

Lemma inv_for_client wa n c0 c : inv_for wa → ClientContexts wa !! n = Some c0 → client_ok (Modules wa) n c → inv_for (set_client n c wa).
Proof.
  intros Hi H0 Hc. apply inv_for_clients; [done|rewrite length_insert; apply (in_clients _ _ Hi)|].
  intros i c' Hc'. rewrite list_lookup_insert in Hc'. destruct (decide _) as [[<- _]|]; [by injection Hc' as <-|by eapply in_client].
Qed.
End allowed.

(** ** Changes of clients *)

Lemma open_client wa n c0 c : ClientContexts wa !! n = Some c0 → (cl_InUse c0 ≠ 0 → cl_InUse c ≠ 0) →
  ∀ j, is_open wa j → is_open (set_client n c wa) j.
Proof.
  intros H0 Hu j (i & d & Hj & Hd & Hdu). destruct (decide (i = n)) as [->|Hne].
  - exists n, c. split; [done|]. split; [|apply Hu; congruence]. destruct wa. cbn in *. apply list_lookup_insert_eq. by eapply lookup_lt_Some.
  - exists i, d. split; [done|]. split; [|done]. destruct wa. cbn in *. by rewrite list_lookup_insert_ne.
Qed.

Lemma inv_set_client wa n c0 c : inv wa → ClientContexts wa !! n = Some c0 → client_ok (Modules wa) n c →
  (cl_InUse c0 ≠ 0 → cl_InUse c ≠ 0) → inv (set_client n c wa).
Proof.
  intros Hi H0 Hc Hu. unfold inv. eapply inv_for_mono; [by eapply open_client|]. by eapply inv_for_client.
Qed.

Lemma wp_client {A} (k : () → WaM A) (f : CtrDrvrClientContext → CtrDrvrClientContext) (Q : A → CtrDrvrWorkingArea → Prop) i c wa :
  inv wa → ClientContexts wa !! i = Some c → client_ok (Modules wa) i (f c) → (cl_InUse c ≠ 0 → cl_InUse (f c) ≠ 0) →
  (inv (set_client i (f c) wa) → wp (k ()) Q (set_client i (f c) wa)) → wp (upd_ccon (Z.of_nat i) f ≫= k) Q wa.
Proof.
  intros Hi Hc Hok Hu HQ. apply wp_bind. eapply wp_of_run; [by apply upd_ccon_run|]. apply HQ. by eapply inv_set_client.
Qed.

(** A semaphore operation that is defined. *)
Lemma wp_semaphore {A B} (op : M cdcm_sem A) (k : A → WaM B) (Q : B → CtrDrvrWorkingArea → Prop) i c a s wa :
  inv wa → ClientContexts wa !! i = Some c → op (Semaphore c) = Some (a, s) → sem_inv s →
  (inv (set_client i (c <| Semaphore := s |>) wa) → wp (k a) Q (set_client i (c <| Semaphore := s |>) wa)) →
  wp (on_semaphore (Z.of_nat i) op ≫= k) Q wa.
Proof.
  intros Hi Hc E Hs HQ. apply wp_bind. eapply wp_of_run; [by eapply on_semaphore_run|]. apply HQ.
  destruct (in_client _ _ Hi _ _ Hc) as [Hsem Hring Hop]. eapply inv_set_client; [done|done| |].
  - destruct c. by split.
  - by destruct c.
Qed.

Lemma set_module_frame n m wa : ClientContexts (set_module_context n m wa) = ClientContexts wa ∧ Modules (set_module_context n m wa) = Modules wa
  ∧ Ctims (set_module_context n m wa) = Ctims wa ∧ Ptims (set_module_context n m wa) = Ptims wa.
Proof. by destruct wa. Qed.

Lemma inv_of_for wa wa' : inv_for (is_open wa) wa' → ClientContexts wa' = ClientContexts wa → inv wa'.
Proof. intros Hi E. eapply inv_for_mono; [by apply open_same|done]. Qed.

#[local] Arguments Z.testbit : simpl never.
#[local] Arguments Z.ldiff : simpl never.
#[local] Arguments Z.lor : simpl never.
#[local] Arguments truthy : simpl never.

Section spec.
Variable beyond : Z → Z.
Variable allowed : Z → Prop.
#[local] Notation inv_for := (inv_for allowed).
#[local] Notation tables_ok := (tables_ok allowed).

(** Nothing but modules changes. *)
Definition modules_only (wa wa' : CtrDrvrWorkingArea) : Prop :=
  ClientContexts wa' = ClientContexts wa ∧ Modules wa' = Modules wa ∧ Ctims wa' = Ctims wa ∧ Ptims wa' = Ptims wa
  ∧ length (ModuleContexts wa') = length (ModuleContexts wa).

Lemma modules_only_set n m wa : modules_only wa (set_module_context n m wa).
Proof. destruct wa. repeat split. apply length_insert. Qed.

Lemma modules_only_refl wa : modules_only wa wa.
Proof. done. Qed.

Lemma modules_only_trans wa wa1 wa2 : modules_only wa wa1 → modules_only wa1 wa2 → modules_only wa wa2.
Proof. intros (E1 & E2 & E3 & E4 & E5) (F1 & F2 & F3 & F4 & F5). repeat split; congruence. Qed.

Lemma wp_on_module {A} (op : WaM A) midx wa : inv_for wa → 0 <= midx < Modules wa →
  (∀ m n, midx = Z.of_nat n → ModuleContexts wa !! n = Some m → tables_ok m → wpm n op (λ _ m', tables_ok m') m) →
  wp op (λ _ wa', inv_for wa' ∧ modules_only wa wa') wa.
Proof.
  intros Hi Hm Hop. eapply wp_mono; [apply (wp_module allowed op (λ _ _, True) (Z.to_nat midx)); [done|lia|]|].
  - intros m Hl Hok. eapply wpm_mono; [apply Hop; [lia|done|done]|]. done.
  - intros r wa' (Hi' & m' & -> & _). split; [done|apply modules_only_set].
Qed.

(** ** Connect *)

Lemma GetPtimModule_range l eqpnum n : Forall (λ p, pt_EqpNum p ≠ 0 ∧ 0 <= pt_ModuleIndex p < n) l →
  0 <= GetPtimModule l eqpnum - 1 → GetPtimModule l eqpnum - 1 < n.
Proof.
  unfold GetPtimModule. intros Hl. destruct (find_idx _ l) as [i|]; [|lia]. destruct (l !! i) as [p|] eqn:Hp; [|lia].
  pose proof (Forall_lookup_1 _ _ _ _ Hl Hp) as [_ ?]. lia.
Qed.

(** A connection to a module that is installed. *)
Definition connection_ok (conx : CtrDrvrConnection) (c : CtrDrvrClientContext) (modules : Z) : Prop :=
  conx_EqpClass conx = PTIM ∨ 0 <= connection_module conx c < modules.

Lemma Connect_ok conx c idx wa : inv_for wa → ClientIndex c = idx → 0 <= idx < 16 → allowed idx → connection_ok conx c (Modules wa) →
  wp (Connect conx c) (λ _ wa', inv_for wa' ∧ modules_only wa wa') wa.
Proof.
  intros Hi Hc Hidx Hall Hconx. unfold Connect. cbv zeta. rewrite Hc.
  assert (Hmod : ∀ m midx, inv_for m → modules_only wa m → 0 <= midx < Modules wa → ∀ count,
    wp (if count <? 0 then mret count else if truthy count then m ← mcon midx; EnableInterrupts midx (InterruptEnable m) else mret (- ENXIO))
      (λ _ wa', inv_for wa' ∧ modules_only wa wa') m).
  { intros wa1 midx Hi1 Hw1 Hm count. wp_step; [by wp_step|]. wp_step; [|by wp_step].
    pose proof Hw1 as (_ & Em & _).
    eapply wp_mono; [apply (wp_on_module _ midx); [done|by rewrite Em|]|].
    - intros m n -> Hl Hok. wpm_step. apply wpm_mcon.
      eapply wpm_mono; [by apply (wpm_EnableInterrupts allowed)|]. intros r m' (_ & ? & _). done.
    - intros r wa2 [Hi2 Hw2]. split; [done|]. by eapply modules_only_trans. }
  wp_step. destruct (conx_EqpClass conx) eqn:Hcl.
  - destruct Hconx as [|Hm]; [congruence|]. wp_step.
    eapply wp_mono; [apply (wp_on_module _ (connection_module conx c)); [done|done|]|].
    + intros m n E _ Hok. rewrite E.
      eapply wpm_mono; [apply (wpm_connect_hard allowed); [lia|done|done]|]. by intros r m' [_ ?].
    + intros r wa1 [Hi1 Hw1]. wp_step. by apply Hmod.
  - destruct Hconx as [|Hm]; [congruence|]. wp_step.
    eapply wp_mono; [apply (wp_on_module _ (connection_module conx c)); [done|done|]|].
    + intros m n E _ Hok. rewrite E.
      eapply wpm_mono; [apply (wpm_connect_ctim allowed); [lia|done|done|done]|]. by intros r m' [? _].
    + intros r wa1 [Hi1 Hw1]. wp_step. by apply Hmod.
  - wp_step. wp_step. cbv zeta. pose proof (GetPtimModule_range _ (conx_EqpNum conx) _ (in_ptims _ _ Hi)) as Hr.
    set (pidx := GetPtimModule (Ptims wa) (conx_EqpNum conx) - 1) in *. apply wp_if; intros Hp.
    + wp_step. eapply wp_mono; [apply (wp_on_module _ pidx); [done|lia|]|].
      * intros m n E _ Hok. rewrite E.
        eapply wpm_mono; [apply (wpm_connect_ptim allowed); [lia|done|done|done]|]. by intros r m' [_ ?].
      * intros r wa1 [Hi1 Hw1]. wp_step. apply Hmod; [done|done|lia].
    + wp_step. wp_step; [by wp_step|]. wp_step; [done|]. wp_step. split; [done|apply modules_only_refl].
Qed.

(** ** Disconnect *)

Lemma DisConnect_ok conx c wa : inv_for wa → 0 <= s32 (conx_Module conx - 1) < Modules wa →
  wp (DisConnect beyond conx c) (λ _ wa', inv_for wa' ∧ modules_only wa wa') wa.
Proof.
  intros Hi Hm. unfold DisConnect. cbv zeta. apply wp_bind. eapply wp_mono; [apply (wp_on_module _ (s32 (conx_Module conx - 1))); [done|done|]|].
  - intros m n E Hl Hok. rewrite E. destruct (conx_EqpClass conx) eqn:Hc.
    1: { eapply wpm_mono; [by apply (wpm_disconnect_hard allowed)|]. by intros r m' [? _]. }
    all: eapply wpm_mono; [apply (wpm_disconnect_slots allowed); [|done]|by intros r m' [? _]].
    all: intros s _ Hs; unfold same_object; rewrite Hs, Hc; apply andb_false_r.
  - intros r wa1 Hw. by wp_step.
Qed.

(** The clients of [cmsk] are nowhere in the tables. *)
Definition gone (cmsk : Z) (m : CtrDrvrModuleContext) : Prop :=
  (∀ i s, slots m !! i = Some s → Z.land cmsk (Clients s) = 0) ∧ ∀ i k, HardClients m !! i = Some k → Z.land cmsk k = 0.

Lemma wpm_disconnect_all n c m : tables_ok m →
  wpm n (disconnect_slots beyond (λ s, truthy (EqpNum s)) (Z.of_nat n) c;; disconnect_hard beyond (Z.of_nat n) c)
    (λ _ m', tables_ok m' ∧ gone (bit (ClientIndex c)) m') m.
Proof.
  intros Hok. wpm_step. eapply wpm_mono; [apply (wpm_disconnect_slots allowed); [|done]|].
  { intros s E _. by rewrite E. }
  intros [] m1 (Hok1 & Hh1 & Hs1). eapply wpm_mono; [by apply (wpm_disconnect_hard allowed)|].
  intros [] m2 (Hok2 & Es2 & Hd2). split; [done|]. split; [|done]. intros i s Hs. rewrite Es2 in Hs.
  destruct (Hs1 i s Hs) as [?|Hn]; [done|]. destruct Hok1 as [mm1 Hok1]. destruct (entry_at _ _ _ _ _ Hok1 Hs) as (h & _ & He).
  destruct (en_free _ _ _ He (truthy_zero _ Hn)) as [_ ->]. apply Z.land_0_r.
Qed.

Lemma DisConnectAll_ok c wa : inv_for wa →
  wp (DisConnectAll beyond c) (λ _ wa', inv_for wa' ∧ modules_only wa wa' ∧
    ∀ n m, Z.of_nat n < Modules wa → ModuleContexts wa' !! n = Some m → gone (bit (ClientIndex c)) m) wa.
Proof.
  intros Hi. unfold DisConnectAll. wp_step. wp_step. wp_step. set (N := Z.to_nat (Modules wa)).
  pose proof (in_modules _ _ Hi) as HN.
  eapply wp_mono; [eapply (wp_mfold _ (λ l _ wa', ∃ a, l = seq a (N - a) ∧ (a <= N)%nat ∧ inv_for wa' ∧ modules_only wa wa' ∧
    ∀ n m, (n < a)%nat → ModuleContexts wa' !! n = Some m → gone (bit (ClientIndex c)) m))|].
  - intros i l [] wa1 (a & El & Ha & Hi1 & Hw1 & Hg).
    destruct (N - a)%nat as [|b] eqn:Eb; [done|]. cbn [seq] in El. injection El as -> ->. pose proof Hw1 as (_ & Em & _).
    eapply wp_mono; [apply (wp_module allowed _ (λ _ m', gone (bit (ClientIndex c)) m') a); [done|lia|]|].
    { intros m _ Hok. by apply wpm_disconnect_all. }
    intros [] wa2 (Hi2 & m' & -> & Hg'). exists (S a). replace (N - S a)%nat with b by lia. split; [done|]. split; [lia|]. split; [done|].
    split; [eapply modules_only_trans; [done|apply modules_only_set]|].
    intros n m Hn Hm. unfold set_module_context in Hm. destruct wa1 as [? ? ? ? mcs ?]. cbn in Hm. rewrite list_lookup_insert in Hm.
    destruct (decide _) as [[<- _]|Hne]; [by injection Hm as <-|].
    destruct (decide (n = a)) as [->|]; [|apply (Hg n); [lia|done]]. exfalso. apply Hne. split; [done|].
    by eapply lookup_lt_Some.
  - exists 0%nat. rewrite Nat.sub_0_r. split; [done|]. split; [lia|]. split; [done|]. split; [done|]. lia.
  - intros [] wa' (a & El & Ha & Hi' & Hw' & Hg). wp_step. split; [done|]. split; [done|]. intros n m Hn. apply Hg.
    destruct (N - a)%nat eqn:Eb; [lia|done].
Qed.
End spec.
