(* ===== verification/CtrSafe.v ===== *)
(** Requests to the timing receiver driver: every one that is used as it must be is carried out,
    and keeps the invariant of the working area. *)
From S2P Require Import Prelude CtrHard CtrHardProofs CdcmSem CdcmSemProofs CtrDrvr CtrQueue CtrQueueProofs CtrIntr CtrIoctl CtrModule CtrTables CtrOps CtrPtim CtrSpec.

Local Open Scope Z_scope.

#[local] Arguments Z.testbit : simpl never.
#[local] Arguments Z.ldiff : simpl never.
#[local] Arguments Z.lor : simpl never.
#[local] Arguments truthy : simpl never.

(** What the users of the driver must respect: the code checks none of it. *)
Definition request_ok (wa : CtrDrvrWorkingArea) (c : CtrDrvrClientContext) (m : CtrDrvrModuleContext) (cm : request) : Prop :=
  match cm with
  | CONNECT conx => connection_ok conx c (Modules wa)
  | DISCONNECT conx => conx_EqpNum conx = 0 ∨ 0 <= s32 (conx_Module conx - 1) < Modules wa
  | JTAG_READ_BYTE => Local m ≠ None
  | CREATE_CTIM_OBJECT o => ct_EqpNum o ≠ 0
  | CREATE_PTIM_OBJECT p => pt_EqpNum p ≠ 0 ∧ 0 <= pt_ModuleIndex p
  | DESTROY_PTIM_OBJECT p => 0 <= pt_ModuleIndex p
  | SET_CONFIG k _ => 0 <= k <= 8
  | _ => True
  end.

(** The state after an operation. *)
Definition kept (wa wa' : CtrDrvrWorkingArea) : Prop := inv wa' ∧ Modules wa' = Modules wa.

Section safe.
Variable beyond : Z → Z.

Lemma kept_refl wa : inv wa → kept wa wa.
Proof. done. Qed.

Lemma kept_of_module wa wa' : inv_for (is_open wa) wa' → modules_only wa wa' → kept wa wa'.
Proof. intros Hi (E1 & E2 & _). split; [by eapply inv_of_for|done]. Qed.

Lemma wp_kept {A} (op : WaM A) midx wa : inv wa → 0 <= midx < Modules wa →
  (∀ m n, midx = Z.of_nat n → ModuleContexts wa !! n = Some m → tables_ok (is_open wa) m → wpm n op (λ _ m', tables_ok (is_open wa) m') m) →
  wp op (λ _ wa', kept wa wa') wa.
Proof.
  intros Hi Hm Hop. eapply wp_mono; [by apply (wp_on_module (is_open wa) op midx)|]. intros r wa' [Hi' Hw]. by apply kept_of_module.
Qed.

Lemma wp_of_kept {A B} (op : WaM A) (k : A → B) wa : wp op (λ _ wa', kept wa wa') wa → wp (r ← op; mret (k r)) (λ _ wa', kept wa wa') wa.
Proof. intros Hop. wp_step. eapply wp_mono; [exact Hop|]. intros r wa' Hk. by wp_step. Qed.

(** ** Requests about the client *)

Lemma wp_client_kept (f : CtrDrvrClientContext → CtrDrvrClientContext) r i c wa : inv wa → ClientContexts wa !! i = Some c →
  (∀ c, cl_InUse (f c) = cl_InUse c ∧ ClientIndex (f c) = ClientIndex c ∧ cl_ModuleIndex (f c) = cl_ModuleIndex c ∧
        Semaphore (f c) = Semaphore c) → (∀ l, ring (Queue c) l → ring (Queue (f c)) l) →
  wp (upd_ccon (Z.of_nat i) f;; mret r : WaM (Z * reply)) (λ _ wa', kept wa wa') wa.
Proof.
  intros Hi Hc Hf Hq. destruct (Hf c) as (Eu & Ei & Em & Es). destruct (in_client _ _ Hi _ _ Hc) as [Hsem [l Hring] Hop].
  eapply wp_client; [done|done| |congruence|].
  - split; [by rewrite Es|by exists l; apply Hq|]. by rewrite Eu, Ei, Em.
  - intros Hi'. wp_step. split; [done|]. by destruct wa.
Qed.

Lemma ring_flag q l v : ring q l → ring (q <| QueueOff := v |>) l ∧ ring (q <| Missed := v |>) l.
Proof. intros [H1 H2 H3 H4]. destruct q. by split. Qed.

Lemma set_module_ok i c lav wa : inv wa → ClientContexts wa !! i = Some c →
  wp (set_module (Z.of_nat i) lav) (λ _ wa', kept wa wa') wa.
Proof.
  intros Hi Hc. unfold set_module. wp_step. wp_step. wp_step; [|wp_step; by apply kept_refl].
  match goal with E : _ && _ = true |- _ => apply andb_prop in E as [E1 E2] end.
  destruct (in_client _ _ Hi _ _ Hc) as [Hsem Hring Hop].
  eapply wp_client; [done|done| |by destruct c|].
  - destruct c. split; try done. intros Hu. destruct (Hop Hu) as [? _]. split; [done|]. cbn. lia.
  - intros Hi'. set (wa1 := set_client _ _ _) in *. assert (Em : Modules wa1 = Modules wa) by by destruct wa.
    wp_step. eapply wp_mono; [apply (wp_kept _ (lav - 1)); [done|rewrite Em; lia|]|].
    + intros m n E Hl Hok. rewrite E. apply wpm_fields; [done|]. by intros [].
    + intros r wa' [Hk Ek]. wp_step. split; [done|congruence].
Qed.

Lemma set_module_by_slot_ok i c lav wa : inv wa → ClientContexts wa !! i = Some c →
  wp (set_module_by_slot (Z.of_nat i) lav) (λ _ wa', kept wa wa') wa.
Proof.
  intros Hi Hc. unfold set_module_by_slot. wp_step. wp_step. wp_step. wp_step.
  destruct (find_idx _ _) as [k|] eqn:Hk; [|wp_step; by apply kept_refl].
  apply find_idx_lookup in Hk as [(m & Hm & _) _]. apply lookup_lt_Some in Hm. rewrite length_take in Hm.
  destruct (in_client _ _ Hi _ _ Hc) as [Hsem Hring Hop]. pose proof (in_modules _ _ Hi).
  eapply wp_client; [done|done| |by destruct c|].
  - destruct c. split; try done. intros Hu. destruct (Hop Hu) as [? _]. split; [done|]. cbn. lia.
  - intros Hi'. wp_step. split; [done|]. by destruct wa.
Qed.

(** ** Objects *)

Lemma Forall_remove_swap {A} (P : A → Prop) i l : Forall P l → Forall P (remove_swap i l).
Proof.
  intros Hl. unfold remove_swap. destruct (last l) as [x|] eqn:Hx; [|done]. apply Forall_take, Forall_insert; [done|].
  rewrite last_lookup in Hx. by eapply Forall_lookup_1.
Qed.

Lemma inv_module wa i : inv wa → 0 <= i < Modules wa → ∃ n m, i = Z.of_nat n ∧ ModuleContexts wa !! n = Some m ∧ tables_ok (is_open wa) m.
Proof.
  intros Hi Hm. destruct (module_installed (is_open wa) wa (Z.to_nat i) Hi) as (m & Hl & Hok); [lia|]. exists (Z.to_nat i), m. split; [lia|done].
Qed.

Lemma kept_ctims wa l : inv wa → Forall (λ o, ct_EqpNum o ≠ 0) l → kept wa (wa <| Ctims := l |>).
Proof.
  intros Hi Hl. split; [|by destruct wa]. apply (inv_of_for wa); [by apply inv_ctims|by destruct wa].
Qed.

Lemma create_ctim_ok o wa : inv wa → ct_EqpNum o ≠ 0 → wp (create_ctim o) (λ _ wa', kept wa wa') wa.
Proof.
  intros Hi Ho. unfold create_ctim. wp_step. wp_step. wp_step; [by wp_step|]. wp_step; [|by wp_step]. wp_steps.
  apply kept_ctims; [done|]. apply Forall_app. split; [apply (in_ctims _ _ Hi)|]. by apply Forall_singleton.
Qed.

Lemma with_unused_ctim_ok midx o k wa : inv wa → 0 <= midx < Modules wa →
  (∀ i x, Ctims wa !! i = Some x → ct_EqpNum x = ct_EqpNum o → wp (k i (Ctims wa)) (λ _ wa', kept wa wa') wa) →
  wp (with_unused_ctim midx o k) (λ _ wa', kept wa wa') wa.
Proof.
  intros Hi Hm Hk. unfold with_unused_ctim. wp_step. wp_step. destruct (find_idx _ _) as [i|] eqn:Hf; [|by wp_step].
  apply find_idx_lookup in Hf as [(x & Hx & He) _]. destruct (inv_module wa midx Hi Hm) as (n & m & -> & Hl & _).
  run_step (mcon_run wa n m Hl). wp_step; [by wp_step|]. apply (Hk i x); [done|]. lia.
Qed.

Lemma destroy_ctim_ok midx o wa : inv wa → 0 <= midx < Modules wa → wp (destroy_ctim midx o) (λ _ wa', kept wa wa') wa.
Proof.
  intros Hi Hm. apply with_unused_ctim_ok; [done..|]. intros i x _ _. wp_steps. apply kept_ctims; [done|].
  apply Forall_remove_swap, (in_ctims _ _ Hi).
Qed.

Lemma change_ctim_frame_ok midx o wa : inv wa → 0 <= midx < Modules wa → wp (change_ctim_frame midx o) (λ _ wa', kept wa wa') wa.
Proof.
  intros Hi Hm. apply with_unused_ctim_ok; [done..|]. intros i x _ _. wp_steps. apply kept_ctims; [done|].
  apply Forall_alter; [apply (in_ctims _ _ Hi)|]. by intros [].
Qed.

Lemma kept_ptims wa l : inv wa → Forall (λ p, pt_EqpNum p ≠ 0 ∧ 0 <= pt_ModuleIndex p < Modules wa) l → kept wa (wa <| Ptims := l |>).
Proof.
  intros Hi Hl. split; [|by destruct wa]. apply (inv_of_for wa); [by apply inv_ptims|by destruct wa].
Qed.

Lemma kept_trans wa wa1 wa2 : kept wa wa1 → kept wa1 wa2 → kept wa wa2.
Proof. intros [? ?] [? ?]. split; [done|congruence]. Qed.

Lemma create_ptim_ok p wa : inv wa → pt_EqpNum p ≠ 0 → 0 <= pt_ModuleIndex p → wp (create_ptim p) (λ _ wa', kept wa wa') wa.
Proof.
  intros Hi Hn Hp. unfold create_ptim. wp_step. wp_step. wp_step; [by wp_step|]. wp_step; [by wp_step|]. wp_step. wp_step.
  wp_step; [|by wp_step]. destruct (inv_module wa (pt_ModuleIndex p) Hi) as (n & m & E & Hl & Hok); [lia|]. rewrite E.
  run_step (mcon_run wa n m Hl). destruct (find_run _ _ _ _ _) as [start|] eqn:Hr; [|by wp_step].
  run_step (upd_mcon_run wa n m (put_ptim p start) Hl). wp_steps.
  assert (Hk : kept wa (set_module_context n (put_ptim p start m) wa)).
  { split; [|by destruct wa]. apply (inv_of_for wa); [|by destruct wa]. apply inv_set_module; [done|]. by apply put_ptim_ok. }
  eapply kept_trans; [exact Hk|]. apply kept_ptims; [apply Hk|]. apply Forall_app. rewrite (proj2 Hk). split; [apply (in_ptims _ _ Hi)|].
  apply Forall_singleton. destruct p. cbn in *. split; [done|]. lia.
Qed.

Lemma destroy_ptim_ok p wa : inv wa → 0 <= pt_ModuleIndex p → wp (destroy_ptim p) (λ _ wa', kept wa wa') wa.
Proof.
  intros Hi Hp. unfold destroy_ptim. wp_step. wp_step. wp_step; [by wp_step|].
  destruct (inv_module wa (pt_ModuleIndex p) Hi) as (n & m & E & Hl & Hok); [lia|].
  rewrite E. run_step (mcon_run wa n m Hl). cbv zeta. apply wp_if; intros Hnone; [by wp_step|]. wp_step; [|by wp_step].
  wp_step. eapply wp_mono; [apply (wp_kept _ (Z.of_nat n)); [done|lia|]|].
  - intros m1 n1 En Hl1 _. apply Nat2Z.inj in En. subst n1. rewrite Hl in Hl1. injection Hl1 as <-. by apply (wpm_clear_slots (is_open wa)).
  - intros r wa1 [Hi1 Em]. wp_step. wp_step. wp_step. 
    apply (wp_mono _ (λ _ wa', kept wa1 wa')).
    + destruct (find_idx _ _) as [k|]; wp_steps; [|done]. apply kept_ptims; [done|]. apply Forall_remove_swap, (in_ptims _ _ Hi1).
    + intros _ wa2 Hk. wp_step. by eapply kept_trans.
Qed.

(** ** The switch *)

Lemma wp_checked (b : bool) (k : Call) wa : inv wa → wp k (λ _ wa', kept wa wa') wa →
  wp (if b then mret einval else k) (λ _ wa', kept wa wa') wa ∧ wp (if b then k else mret einval) (λ _ wa', kept wa wa') wa.
Proof. intros Hi Hk. by destruct b. Qed.

(** Skip the checks of the argument and the lock. *)
Ltac skip_checks Hi := repeat lazymatch goal with
  | |- wp (with_long _ _) _ _ => apply wp_checked; [exact Hi|]
  | |- wp (unless_locked _ _) _ _ => apply wp_checked; [exact Hi|]
  | |- wp (readable _ _ _) _ _ => apply wp_checked; [exact Hi|]
  | |- wp (writable _ _ _) _ _ => apply wp_checked; [exact Hi|]
  end.

(** A request that is carried out on the selected module. *)
Ltac on_selected Hi Hsel :=
  eapply (wp_kept _ _ _ Hi Hsel);
  let m := fresh in let k := fresh in let E := fresh in intros m k E ? ?; rewrite E.

(** The operation first, then a result that changes nothing. *)
Lemma wp_then {A B} (op : WaM A) (k : A → WaM B) wa : wp op (λ _ wa', kept wa wa') wa →
  (∀ a wa', kept wa wa' → wp (k a) (λ _ wa', kept wa wa') wa') → wp (op ≫= k) (λ _ wa', kept wa wa') wa.
Proof. intros Hop Hk. apply wp_bind. eapply wp_mono; [exact Hop|]. intros a wa'. apply Hk. Qed.

Lemma disconnect_request_ok conx c wa : inv wa → conx_EqpNum conx = 0 ∨ 0 <= s32 (conx_Module conx - 1) < Modules wa →
  wp (if truthy (conx_EqpNum conx) then r ← DisConnect beyond conx c; mret (r, Nothing)
      else r ← DisConnectAll beyond c; mret (r, Nothing) : Call) (λ _ wa', kept wa wa') wa.
Proof.
  intros Hi Hconx. apply wp_if; intros Ht; apply wp_then; try (intros; by wp_step).
  - destruct Hconx as [E|Hm]; [by rewrite E in Ht|]. eapply wp_mono; [by apply (DisConnect_ok beyond (is_open wa))|].
    intros r wa' [? ?]. by apply kept_of_module.
  - eapply wp_mono; [by apply (DisConnectAll_ok beyond (is_open wa))|]. intros r wa' (? & ? & _). by apply kept_of_module.
Qed.

Lemma mmap_request_ok (f : CtrDrvrMemoryMap → Z * reply) midx wa : inv wa → 0 <= midx < Modules wa →
  wp (mm ← mmap midx; mret (f mm)) (λ _ wa', kept wa wa') wa.
Proof.
  intros Hi Hm. destruct (inv_module wa midx Hi Hm) as (n & m & -> & Hl & [mm Hok]).
  run_step (mmap_run wa n m mm Hl (mk_map_eq _ _ _ Hok)). by wp_step.
Qed.

Lemma dispatch_ok cm arg i c m wa : inv wa → ClientContexts wa !! i = Some c → cl_InUse c ≠ 0 →
  ModuleContexts wa !! Z.to_nat (cl_ModuleIndex c) = Some m → request_ok wa c m cm → (i < 16)%nat →
  wp (dispatch beyond cm arg (Z.of_nat i) c (cl_ModuleIndex c) m) (λ _ wa', kept wa wa') wa.
Proof.
  intros Hi Hc Hu Hm Hreq Hi16. destruct (in_client _ _ Hi _ _ Hc) as [Hsem Hring Hop]. destruct (Hop Hu) as [Hidx Hsel].
  assert (Hopen : is_open wa (Z.of_nat i)) by by exists i, c.
  destruct cm; cbn [dispatch request_ok] in *; skip_checks Hi; try (by wp_steps).
  all: try (eapply wp_client_kept; [done|done|by intros []|]; intros l Hr; destruct c; cbn; by first [apply ring_flag|exact Hr]).
  all: try (on_selected Hi Hsel; first [by eauto with ctr_ops|apply wpm_set_mcon; [done|by intros []]]; fail).
  all: try (apply wp_then; [on_selected Hi Hsel; by eauto with ctr_ops|intros; by repeat wp_step]; fail).
  all: try by apply mmap_request_ok.
  - unfold get_queue_overflow. run_step (ccon_run wa i c Hc).
    eapply wp_client_kept; [done|done|by intros []|]. intros l Hr. destruct c. by apply ring_flag.
  - by eapply set_module_by_slot_ok.
  - by eapply set_module_ok.
  - apply wp_then; [|intros; by wp_step]. eapply wp_mono; [apply (Connect_ok (is_open wa) _ _ (Z.of_nat i)); [done|done|lia|done|done]|].
    intros r wa' [? ?]. by apply kept_of_module.
  - by apply disconnect_request_ok.
  - eapply (wp_kept _ _ _ Hi Hsel). intros m' k E Hl Hok. rewrite E in *. rewrite Nat2Z.id in Hm. assert (m' = m) as -> by congruence.
    destruct (Local m) as [regs|] eqn:Hregs; [|done]. by eapply wpm_jtag_read_byte.
  - by apply create_ctim_ok.
  - by apply destroy_ctim_ok.
  - by apply change_ctim_frame_ok.
  - destruct Hreq. by apply create_ptim_ok.
  - unfold get_ptim_binding. wp_step. wp_step. destruct (find_idx _ _) as [k|] eqn:Hk; [|by wp_step].
    apply find_idx_lookup in Hk as [(x & Hx & _) _]. run_step (lift_run _ x wa Hx). by wp_step.
  - by apply destroy_ptim_ok.
Qed.
End safe.
