(* ===== verification/CtrDriver.v ===== *)
(** The timing receiver driver as a whole: histories of opens, closes, requests, reads, writes,
    time-outs and interrupts. *)
From S2P Require Import Prelude CtrHard CtrHardProofs CdcmSem CdcmSemProofs CtrDrvr CtrQueue CtrQueueProofs CtrIntr CtrIoctl CtrModule CtrTables CtrOps CtrPtim CtrSpec CtrSafe.

Local Open Scope Z_scope.

#[local] Arguments Z.testbit : simpl never.
#[local] Arguments truthy : simpl never.

Section driver.
Variable beyond : Z → Z.

(** ** Open and close *)

Lemma client_exists wa cnum : inv wa → client_number cnum = true → ∃ i c, cnum = Z.of_nat i ∧ (i < 16)%nat ∧ ClientContexts wa !! i = Some c.
Proof.
  intros Hi Hc. unfold client_number in Hc. apply andb_prop in Hc as [H1 H2]. change CtrDrvrCLIENT_CONTEXTS with 16 in H2.
  destruct (lookup_lt_is_Some_2 (ClientContexts wa) (Z.to_nat cnum)) as [c Hc]; [rewrite (in_clients _ _ Hi); lia|].
  exists (Z.to_nat cnum), c. split; [lia|]. split; [lia|done].
Qed.

Lemma client_lookup wa n c0 c : ClientContexts wa !! n = Some c0 → ClientContexts (set_client n c wa) !! n = Some c.
Proof. apply set_client_lookup. Qed.

(** Only the semaphore differs. *)
Definition same_but_semaphore (c c' : CtrDrvrClientContext) : Prop :=
  (cl_InUse c', ClientIndex c', Queue c', Timeout c', Timer c') = (cl_InUse c, ClientIndex c, Queue c, Timeout c, Timer c).

Lemma reset_client i c wa : inv wa → ClientContexts wa !! i = Some c →
  wp (on_semaphore (Z.of_nat i) reset) (λ _ wa', ∃ c', wa' = set_client i c' wa ∧ inv wa' ∧ same_but_semaphore c c') wa.
Proof.
  intros Hi Hc. destruct (in_client _ _ Hi _ _ Hc) as [Hsem Hring Hop]. destruct (reset_ok _ Hsem) as (s & E & Hs & _).
  eapply wp_of_run; [by eapply on_semaphore_run|]. eexists. split; [done|]. split; [|by destruct c].
  eapply inv_set_client; [done|done|by destruct c|by destruct c].
Qed.

Lemma kept_set_client i c wa : inv (set_client i c wa) → kept wa (set_client i c wa).
Proof. intros Hi. split; [done|]. by destruct wa. Qed.

Lemma Open_ok minor pid wa : inv wa → wp (CtrDrvrOpen minor pid) (λ _ wa', kept wa wa') wa.
Proof.
  intros Hi. unfold CtrDrvrOpen. cbv zeta. wp_step; [by wp_step|].
  destruct (client_exists wa (minor - 1) Hi) as (i & c & -> & Hi16 & Hc); [by apply negb_false_iff|].
  run_step (ccon_run wa i c Hc). wp_step; [by wp_step|].
  eapply wp_client; [done|done| |done|].
  - split; [apply inv_init|exists []; apply ring_zero|]. intros _. split; [done|]. pose proof (in_modules _ _ Hi). cbn. lia.
  - intros Hi1. wp_step. eapply wp_mono; [eapply reset_client; [done|by eapply client_lookup]|].
    intros [] wa2 (c' & -> & Hi2 & _). wp_step. rewrite set_client_twice in *. by apply kept_set_client.
Qed.

Lemma CancelTimeout_ok {B} (k : option Z → WaM B) (Q : B → CtrDrvrWorkingArea → Prop) i c wa : ClientContexts wa !! i = Some c →
  (∀ r, wp (k r) Q (set_client i (c <| Timer := 0 |>) wa)) →
  wp (CancelTimeout (Z.of_nat i) ≫= k) Q wa.
Proof.
  intros Hc HQ. wp_step. unfold CancelTimeout. run_step (ccon_run wa i c Hc). wp_step.
  - wp_step. eapply wp_of_run; [by apply upd_ccon_run|]. wp_step. apply HQ.
  - wp_step. assert (E : set_client i (c <| Timer := 0 |>) wa = wa).
    { unfold set_client. destruct c. cbn in *. match goal with H : truthy _ = false |- _ => apply truthy_zero in H; subst end.
      rewrite list_insert_id by done. by destruct wa. }
    rewrite <- E. apply HQ.
Qed.

(** Tables without the clients of [bit i] are tables of the others. *)
Lemma mask_gone (A : Z → Prop) i k : 0 <= i < 32 → Z.land (bit i) k = 0 → mask_ok A k → mask_ok (λ j, A j ∧ j ≠ i) k.
Proof.
  intros Hi Hg [Hk Hb]. split; [done|]. intros j Hj. split; [by apply Hb|]. intros ->.
  rewrite bit_shift in Hg by done. apply (f_equal (λ x, Z.testbit x i)) in Hg. rewrite Z.land_spec, Hj, Z.testbit_0_l in Hg.
  rewrite Z.shiftl_1_l, Z.pow2_bits_true in Hg by lia. done.
Qed.

Lemma tables_gone (A : Z → Prop) i m : 0 <= i < 32 → gone (bit i) m → tables_ok A m → tables_ok (λ j, A j ∧ j ≠ i) m.
Proof.
  intros Hi [Hs Hh] [mm [Hmm Hsh He Ht Hk]]. exists mm. split; try done.
  - apply Forall2_same_length_lookup_2; [by eapply Forall2_length|]. intros n s h Hns Hnh.
    destruct (Forall2_lookup_lr _ _ _ _ _ _ He Hns Hnh) as [Hf Hu Hc Hb]. split; try done. apply mask_gone; [done|by eapply Hs|done].
  - apply Forall_lookup. intros n k Hnk. apply mask_gone; [done|by eapply Hh|]. exact (Forall_lookup_1 _ _ _ _ Hk Hnk).
Qed.

(** A client that was open is in no table after it is closed. *)
Lemma Close_ok minor wa : inv wa → is_open wa (minor - 1) → wp (CtrDrvrClose beyond minor) (λ r wa', r = OK ∧ kept wa wa') wa.
Proof.
  intros Hi (i & c & E & Hc & Hu). unfold CtrDrvrClose. cbv zeta. rewrite E.
  assert (Hi16 : (i < 16)%nat) by (rewrite <- (in_clients _ _ Hi); by eapply lookup_lt_Some).
  destruct (in_client _ _ Hi _ _ Hc) as [Hsem Hring Hop]. destruct (Hop Hu) as [Hidx _].
  apply wp_if; intros Hn; [|exfalso; unfold client_number in Hn; change CtrDrvrCLIENT_CONTEXTS with 16 in Hn; lia].
  run_step (upd_ccon_run wa i c (λ c : CtrDrvrClientContext, c <| cl_InUse := 0 |>) Hc).
  eapply CancelTimeout_ok; [by eapply client_lookup|]. intros _. rewrite set_client_twice. set (c' := _ <| Timer := 0 |>).
  run_step (ccon_run (set_client i c' wa) i c' (client_lookup _ _ _ _ Hc)).
  assert (Hi' : inv_for (is_open wa) (set_client i c' wa)).
  { eapply inv_for_client; [done|exact Hc|]. subst c'. destruct c. by split. }
  assert (Hidx' : ClientIndex c' = Z.of_nat i) by (subst c'; by destruct c).
  wp_step. eapply wp_mono; [by apply (DisConnectAll_ok beyond (is_open wa))|].
  intros r wa2 (Hi2 & (Ec & Em & _) & Hg). rewrite Hidx' in Hg. wp_step. split; [done|]. split; [|rewrite Em; by destruct wa].
  assert (Hopen : ∀ j, is_open wa j ∧ j ≠ Z.of_nat i → is_open wa2 j).
  { intros j [(i2 & d & -> & Hd & Hdu) Hne]. exists i2, d. split; [done|]. split; [|done]. rewrite Ec. destruct wa. cbn in *.
    rewrite list_lookup_insert_ne; [done|]. lia. }
  apply (inv_for_mono (λ j, is_open wa j ∧ j ≠ Z.of_nat i)); [exact Hopen|].
  destruct Hi2 as [G1 G2 G3 G4 G5 G6]. split; try done. intros n m Hnm Hm. apply tables_gone; [lia| |by eapply G4].
  apply (Hg n); [|done]. rewrite Em in Hnm. by destruct wa.
Qed.

(** ** Requests *)

Definition ioctl_ok (wa : CtrDrvrWorkingArea) (minor : Z) (cm : request) : Prop :=
  ∀ i c m, minor - 1 = Z.of_nat i → ClientContexts wa !! i = Some c → ModuleContexts wa !! Z.to_nat (cl_ModuleIndex c) = Some m →
    request_ok wa c m cm.

Lemma Ioctl_ok minor cm arg wa : inv wa → ioctl_ok wa minor cm → wp (CtrDrvrIoctl beyond minor cm arg) (λ _ wa', kept wa wa') wa.
Proof.
  intros Hi Hreq. unfold CtrDrvrIoctl. cbv zeta. wp_step; [by wp_step|]. wp_step; [by wp_step|].
  destruct (client_exists wa (minor - 1) Hi) as (i & c & E & Hi16 & Hc); [by apply negb_false_iff|]. rewrite E.
  run_step (ccon_run wa i c Hc). apply wp_if; intros Hu; [by wp_step|]. destruct (in_client _ _ Hi _ _ Hc) as [_ _ Hop].
  destruct Hop as [_ Hsel]; [lia|]. destruct (inv_module wa _ Hi Hsel) as (n & m & En & Hl & _).
  rewrite En. run_step (mcon_run wa n m Hl). wp_step; [by wp_step|]. rewrite <- En.
  assert (Hm : ModuleContexts wa !! Z.to_nat (cl_ModuleIndex c) = Some m) by by rewrite En, Nat2Z.id.
  apply dispatch_ok; [done|done|lia|done|by apply (Hreq i)|done].
Qed.

(** ** Read *)

Lemma client_kept f i c wa : inv wa → ClientContexts wa !! i = Some c → client_ok (Modules wa) i (f c) → (cl_InUse c ≠ 0 → cl_InUse (f c) ≠ 0) →
  wp (upd_ccon (Z.of_nat i) f) (λ _ wa', wa' = set_client i (f c) wa ∧ kept wa wa') wa.
Proof.
  intros Hi Hc Hok Hu. eapply wp_of_run; [by apply upd_ccon_run|]. split; [done|]. apply kept_set_client. by eapply inv_set_client.
Qed.

Lemma timer_ok modules i c t : client_ok modules i c → client_ok modules i (c <| Timer := t |>).
Proof. intros [H1 H2 H3]. destruct c. by split. Qed.

Lemma Read_start_ok minor tid wa : inv wa → client_number (minor - 1) = true →
  wp (CtrDrvrRead_start minor tid) (λ _ wa', kept wa wa') wa.
Proof.
  intros Hi Hn. destruct (client_exists wa (minor - 1) Hi Hn) as (i & c & E & Hi16 & Hc). unfold CtrDrvrRead_start. cbv zeta. rewrite E.
  run_step (ccon_run wa i c Hc). pose proof (in_client _ _ Hi _ _ Hc) as Hcl. pose proof Hcl as [Hsem [l Hring] Hop].
  assert (Hlast : ∀ wa1 c1, inv wa1 → Modules wa1 = Modules wa → ClientContexts wa1 !! i = Some c1 →
    wp (if truthy (Timeout c) then upd_ccon (Z.of_nat i) (λ c : CtrDrvrClientContext, c <| Timer := u32 tid |>) else mret ())
      (λ _ wa', kept wa wa') wa1).
  { intros wa1 c1 Hi1 Em Hc1. wp_step; [|by wp_step]. eapply wp_mono; [eapply client_kept; [done|done| |by destruct c1]|].
    - apply timer_ok. by eapply in_client.
    - intros _ wa2 [_ [? ?]]. split; [done|congruence]. }
  wp_step. apply wp_if; intros Hoff.
  - eapply wp_client; [done|done| |by destruct c|].
    + apply queue_reset_ring in Hring. destruct c. split; try done. by exists [].
    + intros Hi1. eapply wp_mono; [eapply reset_client; [done|by eapply client_lookup]|].
      intros [] wa2 (c' & -> & Hi2 & _). rewrite set_client_twice in *. apply (Hlast _ c'); [done|by destruct wa|by eapply client_lookup].
  - wp_step. by eapply Hlast.
Qed.

Lemma CancelTimeout_kept i c wa : inv wa → ClientContexts wa !! i = Some c →
  wp (CancelTimeout (Z.of_nat i)) (λ _ wa', wa' = set_client i (c <| Timer := 0 |>) wa ∧ kept wa wa') wa.
Proof.
  intros Hi Hc. unfold CancelTimeout. run_step (ccon_run wa i c Hc). wp_step.
  - wp_step. eapply wp_mono; [eapply client_kept; [done|done|by apply timer_ok; eapply in_client|by destruct c]|].
    intros [] wa' Hw. by wp_step.
  - wp_step. match goal with H : truthy _ = false |- _ => apply truthy_zero in H; rename H into Ht end.
    assert (E : set_client i (c <| Timer := 0 |>) wa = wa).
    { unfold set_client. destruct c. cbn in *. subst. rewrite list_insert_id by done. by destruct wa. }
    by rewrite E.
Qed.

(** The rest of a read: [r] is the result of its wait. *)
Lemma Read_end_ok minor r wa : inv wa → client_number (minor - 1) = true → wp (CtrDrvrRead_end minor r) (λ _ wa', kept wa wa') wa.
Proof.
  intros Hi Hn. destruct (client_exists wa (minor - 1) Hi Hn) as (i & c & E & Hi16 & Hc). unfold CtrDrvrRead_end. cbv zeta. rewrite E.
  pose proof (in_client _ _ Hi _ _ Hc) as Hcl. pose proof Hcl as [Hsem [l Hring] Hop].
  wp_step; [wp_step; eapply wp_mono; [by eapply CancelTimeout_kept|]; intros ? wa' [_ ?]; by wp_step|].
  run_step (ccon_run wa i c Hc). wp_step; [by wp_step|]. wp_step.
  apply (wp_mono _ (λ _ wa', kept wa wa' ∧ ∃ c', ClientContexts wa' !! i = Some c' ∧ Queue c' = Queue c)).
  { wp_step; [|wp_step; split; [done|by exists c]]. wp_step. eapply wp_mono; [by eapply CancelTimeout_kept|].
    intros ? wa' [-> ?]. wp_step. split; [done|]. eexists. split; [by eapply client_lookup|by destruct c]. }
  intros _ wa1 [[Hi1 Em] (c1 & Hc1 & Hq)]. wp_step; [|by wp_step]. destruct l as [|x l].
  { match goal with H : truthy (Size _) = true |- _ => rewrite (ri_size _ _ Hring) in H; done end. }
  destruct (queue_take_ring _ _ _ Hring) as (q & Et & Hring' & _). wp_step. eapply wp_of_run; [by apply lift_run|]. cbv beta iota.
  destruct (in_client _ _ Hi1 _ _ Hc1) as [Hsem1 _ Hop1].
  wp_step. eapply wp_mono; [eapply client_kept; [done|done| |by destruct c1]|].
  - destruct c1. split; try done. by exists l.
  - intros ? wa2 [_ [? ?]]. wp_step. split; [done|congruence].
Qed.

Lemma ReadTimeout_ok i wa : inv wa → (i < 16)%nat → wp (ReadTimeout (Z.of_nat i)) (λ _ wa', kept wa wa') wa.
Proof.
  intros Hi Hi16. destruct (lookup_lt_is_Some_2 (ClientContexts wa) i) as [c Hc]; [by rewrite (in_clients _ _ Hi)|].
  unfold ReadTimeout. eapply wp_client; [done|done|by apply timer_ok; eapply in_client|by destruct c|].
  intros Hi1. eapply wp_mono; [eapply reset_client; [done|by eapply client_lookup]|].
  intros [] wa2 (c' & -> & Hi2 & _). rewrite set_client_twice in *. by apply kept_set_client.
Qed.

(** ** Delivery *)

Lemma put_client_ok modules i rbf c : client_ok modules i c → client_ok modules i (put_client rbf c) ∧ cl_InUse (put_client rbf c) = cl_InUse c.
Proof.
  intros [Hsem [l Hring] Hop]. pose proof (put_client_sem rbf c Hsem) as Hs. destruct (queue_put_ring _ _ rbf Hring) as [Hr _].
  assert (Hq : Queue (put_client rbf c) = (queue_put rbf (Queue c)).1 ∧ cl_InUse (put_client rbf c) = cl_InUse c ∧
    ClientIndex (put_client rbf c) = ClientIndex c ∧ cl_ModuleIndex (put_client rbf c) = cl_ModuleIndex c).
  { unfold put_client. destruct (queue_put rbf (Queue c)) as [q []]; by destruct c. }
  destruct Hq as (Eq & Eu & Ei & Em). split; [|done]. split; [done|by rewrite Eq; eauto|]. by rewrite Eu, Ei, Em.
Qed.

(** Clients that are given entries. *)
Definition given (cs cs' : list CtrDrvrClientContext) : Prop :=
  length cs' = length cs ∧ ∀ i c, cs !! i = Some c → ∃ c', cs' !! i = Some c' ∧ (∀ modules, client_ok modules i c → client_ok modules i c') ∧
    cl_InUse c' = cl_InUse c.

Lemma given_put rbf clients cs : given cs (imap (put_some rbf clients) cs).
Proof.
  split; [apply length_imap|]. intros i c Hc. exists (put_some rbf clients i c). split; [by rewrite list_lookup_imap, Hc|].
  unfold put_some. destruct (Z.testbit _ _); [|done]. split.
  - intros modules Hok. by apply put_client_ok.
  - unfold put_client. destruct (queue_put rbf (Queue c)) as [q []]; by destruct c.
Qed.

Lemma given_trans cs cs1 cs2 : given cs cs1 → given cs1 cs2 → given cs cs2.
Proof.
  intros [L1 G1] [L2 G2]. split; [congruence|]. intros i c Hc. destruct (G1 _ _ Hc) as (c1 & Hc1 & Ho1 & Eu1).
  destruct (G2 _ _ Hc1) as (c2 & Hc2 & Ho2 & Eu2). exists c2. split; [done|]. split; [auto|congruence].
Qed.

Lemma inv_given wa ccs : inv wa → given (ClientContexts wa) ccs → inv (wa <| ClientContexts := ccs |>).
Proof.
  intros Hi [Hl Hg].
  assert (Ho : ∀ j, is_open wa j → is_open (wa <| ClientContexts := ccs |>) j).
  { intros j (i & c & -> & Hc & Hu). destruct (Hg _ _ Hc) as (c' & Hc' & _ & Eu). exists i, c'. rewrite Eu. by destruct wa. }
  apply (inv_for_mono (is_open wa)); [exact Ho|]. apply inv_for_clients; [done|rewrite Hl; apply (in_clients _ _ Hi)|].
  intros i c' Hc'. destruct (lookup_lt_is_Some_2 (ClientContexts wa) i) as [c Hc]; [rewrite <- Hl; by eapply lookup_lt_Some|].
  destruct (Hg _ _ Hc) as (c2 & Hc2 & Hok & _). assert (c2 = c') as -> by congruence. apply Hok. by eapply in_client.
Qed.

(** ** Interrupts *)

Lemma ready_of_inv wa n : inv wa → Z.of_nat n < Modules wa → ∃ m mm, ready n m mm wa ∧ map_ok (is_open wa) m mm.
Proof.
  intros Hi Hn. destruct (module_installed (is_open wa) wa n Hi Hn) as (m & Hm & mm & Hok). exists m, mm. split; [|done].
  split; [done|by apply (mk_map_eq _ _ _ Hok)|by apply (mk_shape _ _ _ Hok)|apply (in_clients _ _ Hi)|].
  apply Forall_lookup. intros i c Hc. apply (cl_sem _ _ _ (in_client _ _ Hi _ _ Hc)).
Qed.

Lemma given_after_sources m mm srcs : ∀ cs, given cs (foldl (after_source m mm) cs srcs).
Proof.
  induction srcs as [|inum srcs IH]; intros cs; cbn [foldl].
  - split; [done|]. intros i c Hc. by exists c.
  - eapply given_trans; [apply given_put|apply IH].
Qed.

Lemma IntrHandler_ok n wa : inv wa → Z.of_nat n < Modules wa → wp (IntrHandler (Z.of_nat n)) (λ _ wa', kept wa wa') wa.
Proof.
  intros Hi Hn. destruct (ready_of_inv wa n Hi Hn) as (m & mm & Hready & Hok).
  eapply wp_mono; [by apply wp_IntrHandler|]. intros r wa' (_ & m' & mm' & Hr' & Hs & _ & (m2 & cs & ->) & Hc).
  split; [|by destruct wa]. assert (E2 : m2 = m').
  { pose proof (rd_module _ _ _ _ Hr') as H'. pose proof (set_module_lookup n m2 m wa (rd_module _ _ _ _ Hready)) as H2.
    assert (E : ModuleContexts ((set_module_context n m2 wa) <| ClientContexts := cs |>) = ModuleContexts (set_module_context n m2 wa)) by by destruct wa.
    congruence. }
  subst m2. assert (Ecs : cs = foldl (after_source m mm) (ClientContexts wa) (sources (mm_InterruptSource mm))) by (rewrite <- Hc; by destruct wa).
  assert (Hm' : tables_ok (is_open wa) m').
  { exists mm'. eapply tables_ext; [exact Hok|apply (rd_map _ _ _ _ Hr')|apply (sa_slots _ _ _ _ Hs)|apply (sa_hard _ _ _ _ Hs)| | |].
    - pose proof (f_equal length (sa_counters _ _ _ _ Hs)) as E. by rewrite !length_fmap in E.
    - apply (sa_tables _ _ _ _ Hs).
    - by destruct (sa_tables _ _ _ _ Hs) as [-> _]. }
  assert (Hi1 : inv (set_module_context n m' wa)).
  { apply (inv_of_for wa); [by apply inv_set_module|by destruct wa]. }
  apply inv_given; [exact Hi1|]. rewrite Ecs. assert (E : ClientContexts (set_module_context n m' wa) = ClientContexts wa) by by destruct wa.
  rewrite E. apply given_after_sources.
Qed.

(** ** Write *)

(** The module exists, and so does the trigger if one is given. *)
Definition write_ok (wa : CtrDrvrWorkingArea) (wb : CtrDrvrWriteBuf) : Prop :=
  let midx := s32 (conx_Module (wb_Connection wb) - 1) in
  CtrDrvrMODULE_CONTEXTS <= midx ∨ midx < Modules wa ∧ (conx_EqpClass (wb_Connection wb) = HARD ∨
    ∀ m, ModuleContexts wa !! Z.to_nat midx = Some m → 0 <= wb_TriggerNumber wb <= Z.of_nat (length (slots m))).

Lemma written_clients_ok wa wb m : write_ok wa wb → (s32 (conx_Module (wb_Connection wb) - 1) <? 0) || (CtrDrvrMODULE_CONTEXTS <=? s32 (conx_Module (wb_Connection wb) - 1)) = false →
  ModuleContexts wa !! Z.to_nat (s32 (conx_Module (wb_Connection wb) - 1)) = Some m → ∃ p, written_clients m wb = Some p.
Proof.
  intros Hw Hr Hm. apply orb_false_iff in Hr as [Hr1 Hr2]. destruct Hw as [|[_ Hw]]; [lia|]. unfold written_clients. cbv zeta.
  destruct (conx_EqpClass (wb_Connection wb)) eqn:Hc; [by eexists|..].
  all: destruct Hw as [|Hw]; [done|]; specialize (Hw m Hm); destruct (Z.eqb_spec (wb_TriggerNumber wb) 0).
  1, 3: destruct (find_idx _ _) as [i|] eqn:Hi; [|by eexists]; apply find_idx_lookup in Hi as [(s & Hs & _) _]; rewrite Hs; by eexists.
  all: unfold index; destruct (Z.ltb_spec (wb_TriggerNumber wb - 1) 0); [lia|]; cbn;
    destruct (lookup_lt_is_Some_2 (slots m) (Z.to_nat (wb_TriggerNumber wb - 1))) as [s Hs]; [lia|]; rewrite Hs; by eexists.
Qed.

Lemma Write_ok wb wa : inv wa → write_ok wa wb → wp (CtrDrvrWrite wb) (λ _ wa', kept wa wa') wa.
Proof.
  intros Hi Hw. unfold CtrDrvrWrite. cbv zeta. apply wp_if; intros Hr; [by wp_step|].
  pose proof Hr as Hr'. apply orb_false_iff in Hr' as [Hr1 Hr2].
  destruct (inv_module wa (s32 (conx_Module (wb_Connection wb) - 1)) Hi) as (n & m & En & Hl & Hok); [destruct Hw as [|[? _]]; lia|].
  destruct (written_clients_ok wa wb m Hw Hr) as ([clients rb] & Ep); [by rewrite En, Nat2Z.id|].
  rewrite En. run_step (mcon_run wa n m Hl). run_step (lift_run _ _ wa Ep). cbv beta iota.
  wp_step. apply (wp_mono _ (λ _ wa', kept wa wa')); [|intros _ wa' Hk; by wp_step].
  wp_step; [|by wp_step]. wp_step. eapply wp_mono; [apply (wp_kept _ (Z.of_nat n)); [done|destruct Hw as [|[? _]]; lia|]|].
  - intros m1 n1 E1 _ Hok1. apply Nat2Z.inj in E1. subst n1. by apply wpm_GetTime.
  - intros t wa1 [Hi1 Em1]. eapply wp_of_run; [apply deliver_all_run; [apply (in_clients _ _ Hi1)|]|].
    + apply Forall_lookup. intros i c Hc. apply (cl_sem _ _ _ (in_client _ _ Hi1 _ _ Hc)).
    + split; [|by destruct wa1]. apply inv_given; [done|]. apply given_put.
Qed.

(** ** Histories *)

(** One entry of the driver; the tasks that wait on the semaphore of a client may change it
    as [CdcmSem] allows. *)
Inductive driver_event :=
  | Open (minor pid : Z)
  | Close (minor : Z)
  | Ioctl (minor : Z) (cm : request) (arg : argument)
  | StartRead (minor tid : Z)
  | EndRead (minor r : Z)
  | Expire (i : nat)
  | Write (wb : CtrDrvrWriteBuf)
  | Interrupt (n : nat)
  | Waits (i : nat) (s : cdcm_sem).

Definition run_event (e : driver_event) : WaM () :=
  match e with
  | Open minor pid => CtrDrvrOpen minor pid;; mret ()
  | Close minor => CtrDrvrClose beyond minor;; mret ()
  | Ioctl minor cm arg => CtrDrvrIoctl beyond minor cm arg;; mret ()
  | StartRead minor tid => CtrDrvrRead_start minor tid
  | EndRead minor r => CtrDrvrRead_end minor r;; mret ()
  | Expire i => ReadTimeout (Z.of_nat i)
  | Write wb => CtrDrvrWrite wb;; mret ()
  | Interrupt n => IntrHandler (Z.of_nat n);; mret ()
  | Waits i s => upd_ccon (Z.of_nat i) (λ c : CtrDrvrClientContext, c <| Semaphore := s |>)
  end.

(** What the kernel and the users guarantee: only open files are closed, only
    client devices are read, only installed modules interrupt. *)
Definition event_ok (wa : CtrDrvrWorkingArea) (e : driver_event) : Prop :=
  match e with
  | Open _ _ => True
  | Close minor => is_open wa (minor - 1)
  | Ioctl minor cm _ => ioctl_ok wa minor cm
  | StartRead minor _ | EndRead minor _ => client_number (minor - 1) = true
  | Expire i => (i < 16)%nat
  | Write wb => write_ok wa wb
  | Interrupt n => Z.of_nat n < Modules wa
  | Waits i s => (i < 16)%nat ∧ sem_inv s
  end.

Lemma event_kept e wa : inv wa → event_ok wa e → wp (run_event e) (λ _ wa', kept wa wa') wa.
Proof.
  intros Hi He. destruct e; cbn [run_event event_ok] in *; try (apply wp_then; [|intros; by wp_step]).
  - by apply Open_ok.
  - eapply wp_mono; [by apply Close_ok|]. by intros r wa' [_ ?].
  - by apply Ioctl_ok.
  - by apply Read_start_ok.
  - by apply Read_end_ok.
  - by apply ReadTimeout_ok.
  - by apply Write_ok.
  - by apply IntrHandler_ok.
  - destruct He as [Hi16 Hs]. destruct (lookup_lt_is_Some_2 (ClientContexts wa) i) as [c Hc]; [by rewrite (in_clients _ _ Hi)|].
    destruct (in_client _ _ Hi _ _ Hc) as [_ Hring Hop].
    eapply wp_mono; [eapply client_kept; [done|done|by destruct c|by destruct c]|]. by intros ? wa' [_ ?].
Qed.
End driver.
