(* ===== verification/CtrProps.v ===== *)
(** Properties of the timing receiver driver in every state that it can reach. *)
From S2P Require Import Prelude CtrHard CtrHardProofs CdcmSem CdcmSemProofs CtrDrvr CtrQueue CtrQueueProofs CtrIntr CtrIoctl CtrModule CtrTables CtrOps CtrPtim CtrSpec CtrSafe CtrDriver.

Local Open Scope Z_scope.

#[local] Arguments Z.testbit : simpl never.
#[local] Arguments truthy : simpl never.

(** * Reachable states *)

(** A module as it is found: no slot is used, what the RAM of the hardware holds does not matter. *)
Definition fresh_module (m : CtrDrvrModuleContext) : Prop :=
  ∃ mm, Map m = Some mm ∧ module_shape m mm ∧ length (mm_Configs mm) = length (slots m) ∧ length (mm_Trigs mm) = length (slots m) ∧
    Forall (λ s, EqpNum s = 0 ∧ EqpClass s = HARD ∧ Clients s = 0) (slots m) ∧ Forall (λ k, k = 0) (HardClients m).

(** After the driver is loaded. *)
Record loaded (wa : CtrDrvrWorkingArea) : Prop := {
  ld_clients : length (ClientContexts wa) = 16%nat;
  ld_client : Forall (λ c, cl_InUse c = 0 ∧ sem_inv (Semaphore c) ∧ Queue c = zero_queue) (ClientContexts wa);
  ld_modules : 1 <= Modules wa <= Z.of_nat (length (ModuleContexts wa));
  ld_fresh : ∀ n m, Z.of_nat n < Modules wa → ModuleContexts wa !! n = Some m → fresh_module m;
  ld_objects : Ctims wa = [] ∧ Ptims wa = []
}.

Lemma loaded_inv wa : loaded wa → inv wa.
Proof.
  intros [Hl Hc Hm Hf [Ec Ep]]. split; [done| |done| | |].
  - intros i c Hi. destruct (Forall_lookup_1 _ _ _ _ Hc Hi) as (Hu & Hs & Hq). split; [done|exists []; rewrite Hq; apply ring_zero|done].
  - intros n m Hn Hi. destruct (Hf n m Hn Hi) as (mm & Hmm & Hsh & Hcf & Ht & Hs & Hh). exists mm. split; try done.
    + apply Forall2_same_length_lookup_2; [done|]. intros j s h Hsj _. destruct (Forall_lookup_1 _ _ _ _ Hs Hsj) as (En & Ecl & Ecs).
      split; rewrite ?Ecs; try done. apply mask_zero.
    + eapply Forall_impl; [exact Hh|]. intros k ->. apply mask_zero.
  - unfold objects_ok. by rewrite Ec.
  - by rewrite Ep.
Qed.

Section driver.
Variable beyond : Z → Z.

Inductive reachable : CtrDrvrWorkingArea → Prop :=
  | reach_load wa : loaded wa → reachable wa
  | reach_event wa e wa' : reachable wa → event_ok wa e → run_event beyond e wa = Some ((), wa') → reachable wa'.

Lemma ctr_reachable_inv wa : reachable wa → inv wa.
Proof.
  induction 1 as [wa Hl|wa e wa' _ IH He Er]; [by apply loaded_inv|].
  pose proof (event_kept beyond e wa IH He) as Hk. unfold wp in Hk. rewrite Er in Hk. apply Hk.
Qed.
End driver.


(** * Closed clients *)

Lemma event_mask A m mm inum : map_ok A m mm → mask_ok A (event m mm inum).1.
Proof.
  intros Hok. assert (Hh : mask_ok A (nth inum (HardClients m) 0)).
  { destruct (HardClients m !! inum) as [k|] eqn:Hk.
    - rewrite (nth_lookup_Some _ _ 0 _ Hk). exact (Forall_lookup_1 _ _ _ _ (mk_hard _ _ _ Hok) Hk).
    - rewrite nth_overflow by by apply lookup_ge_None_1. apply mask_zero. }
  assert (Hobj : mask_ok A (object_event m mm inum).1).
  { unfold object_event. destruct (mm_Counters mm !! inum) as [f|]; [|apply mask_zero]. cbv zeta.
    destruct (_ && _); [|apply mask_zero]. destruct (slots m !! _) as [s|] eqn:Hs; [|apply mask_zero].
    destruct (truthy _); [|apply mask_zero]. destruct (entry_at _ _ _ _ _ Hok Hs) as (h & _ & He). apply He. }
  assert (Hsrc : mask_ok A (source_event m mm inum).1).
  { unfold source_event. cbv zeta. destruct (truthy _); [done|apply mask_zero]. }
  assert (Hor : ∀ k1 k2, mask_ok A k1 → mask_ok A k2 → mask_ok A (Z.lor k1 k2)).
  { intros k1 k2 [Hk1 Hb1] [Hk2 Hb2]. split; [by apply Z.lor_nonneg|]. intros j Hj. rewrite Z.lor_spec in Hj.
    apply orb_prop in Hj as [Hj|Hj]; auto. }
  unfold event. cbv zeta. cbn [fst]. apply Hor; [|done]. destruct (Z.of_nat inum <? CtrDrvrCOUNTERS);
    lazymatch goal with |- context[if ?b then source_event _ _ _ else _] => destruct b end; first [done|apply mask_zero].
Qed.

Lemma written_mask A m mm wb p : map_ok A m mm → written_clients m wb = Some p → mask_ok A p.1.
Proof.
  intros Hok. assert (Hslot : ∀ i s, slots m !! i = Some s → mask_ok A (Clients s)).
  { intros i s Hs. destruct (entry_at _ _ _ _ _ Hok Hs) as (h & _ & He). apply He. }
  assert (Hhard : ∀ l st, mask_ok A st.1 → mask_ok A (foldl (λ '(clients, rb) i, (Z.lor clients (nth i (HardClients m) 0),
      rb <| rb_InterruptNumber := Z.of_nat i + 1 |>)) st l).1).
  { induction l as [|i l IH]; intros [k rb] Hk; [done|]. cbn [foldl]. apply IH. cbn [fst].
    destruct (HardClients m !! i) as [k2|] eqn:Hk2.
    - rewrite (nth_lookup_Some _ _ 0 _ Hk2). pose proof (Forall_lookup_1 _ _ _ _ (mk_hard _ _ _ Hok) Hk2) as [H1 H2]. destruct Hk as [H3 H4].
      split; [by apply Z.lor_nonneg|]. intros j Hj. cbn [fst] in *. rewrite Z.lor_spec in Hj. apply orb_prop in Hj as [Hj|Hj]; auto.
    - rewrite nth_overflow by by apply lookup_ge_None_1. by rewrite Z.lor_0_r. }
  intros E. unfold written_clients in E. cbv zeta in E.
  destruct (conx_EqpClass (wb_Connection wb)); [injection E as <-; apply Hhard, mask_zero|..].
  all: destruct (_ =? 0).
  1, 3: destruct (find_idx _ _) as [i|]; [|injection E as <-; apply mask_zero];
    destruct (slots m !! i) as [s|] eqn:Hs; [|done]; cbn in E; injection E as <-; by eapply Hslot.
  all: destruct (index _) as [i|]; [|done]; cbn in E; destruct (slots m !! i) as [s|] eqn:Hs; [|done]; cbn in E; injection E as <-; by eapply Hslot.
Qed.

Lemma after_sources_closed A m mm srcs i c : map_ok A m mm → ¬ A (Z.of_nat i) → ∀ cs, cs !! i = Some c →
  foldl (after_source m mm) cs srcs !! i = Some c.
Proof.
  intros Hok Hna. induction srcs as [|inum srcs IH]; intros cs Hc; [done|]. cbn [foldl]. apply IH. unfold after_source.
  rewrite list_lookup_imap, Hc. cbn. unfold put_some. destruct (event_mask A m mm inum Hok) as [_ Hb].
  destruct (Z.testbit _ _) eqn:Ht; [|done]. destruct Hna. exact (Hb _ Ht).
Qed.


(** * PTIM objects *)

Lemma create_ptim_run p wa n m : pt_ModuleIndex p = Z.of_nat n → Z.of_nat n < Modules wa → ModuleContexts wa !! n = Some m →
  Forall (λ x, pt_EqpNum x ≠ pt_EqpNum p) (Ptims wa) → Z.of_nat (length (Ptims wa)) < CtrDrvrPtimOBJECTS →
  create_ptim p wa = match find_run (pt_Size p) (slots m) 0 0 0 with
    | Some start => Some (ok, (set_module_context n (put_ptim p start m) wa) <| Ptims := Ptims wa ++ [p <| pt_StartIndex := start |>] |>)
    | None => Some (einval, wa)
    end.
Proof.
  intros Hmod Hn Hm Hnew Hroom.
  assert (Hfresh : existsb (λ x, pt_EqpNum p =? pt_EqpNum x) (Ptims wa) = false).
  { apply not_true_iff_false. intros E. apply existsb_exists in E as (x & Hx & E). rewrite <- list_elem_of_In in Hx.
    rewrite Forall_forall in Hnew. specialize (Hnew x Hx). lia. }
  unfold create_ptim, gets, mbind, M_bind. cbv beta iota. rewrite Hfresh.
  destruct (Z.geb_spec (Z.of_nat (length (Ptims wa))) CtrDrvrPtimOBJECTS); [lia|]. cbv beta iota.
  rewrite Hmod. destruct (Z.ltb_spec (Z.of_nat n) (Modules wa)); [|lia].
  rewrite (mcon_run wa n m Hm). destruct (find_run _ _ _ _ _) as [start|]; [|done].
  by rewrite (upd_mcon_run wa n m _ Hm).
Qed.

(** C25 A PTIM object takes the first run of free triggers.  Creating a new object of [w]
    triggers on an installed module gives the first [w] free ones in a row, all of them and no
    other, to the object and records where they start; when no such run exists the request is refused and nothing changes. *)
Theorem create_ptim_first_fit p wa n m (w : nat) (Hmod : pt_ModuleIndex p = Z.of_nat n) (Hn : Z.of_nat n < Modules wa)
    (Hm : ModuleContexts wa !! n = Some m) (Hsize : pt_Size p = Z.of_nat w) (Hw : (0 < w)%nat)
    (Hnew : Forall (λ x, pt_EqpNum x ≠ pt_EqpNum p) (Ptims wa)) (Hroom : Z.of_nat (length (Ptims wa)) < CtrDrvrPtimOBJECTS) :
  (∃ k : nat, run_at (slots m) w k ∧ (∀ j, (j < k)%nat → ¬ run_at (slots m) w j) ∧
     ∃ m', create_ptim p wa = Some (ok, (set_module_context n m' wa) <| Ptims := Ptims wa ++ [p <| pt_StartIndex := Z.of_nat k |>] |>) ∧
       ∀ i, slots m' !! i = (if decide (k <= i < k + w)%nat then ptim_slot p <$> slots m !! i else slots m !! i))
  ∨ (∀ j, ¬ run_at (slots m) w j) ∧ create_ptim p wa = Some (einval, wa).
Proof.
  rewrite (create_ptim_run p wa n m) by done. rewrite Hsize. pose proof (find_run_first_fit w (slots m) Hw) as Hf.
  destruct (find_run _ _ _ _ _) as [start|]; [|by right].
  destruct Hf as (k & -> & Hk & Hno). left. exists k. split; [done|]. split; [done|]. eexists. split; [reflexivity|].
  intros i. destruct m. cbn. rewrite list_lookup_imap. unfold in_run. rewrite Hsize.
  destruct (slots !! i) as [s|]; cbn; [|by destruct (decide _)]. destruct (decide (k <= i < k + w)%nat).
  - rewrite (proj2 (Z.leb_le _ _)), (proj2 (Z.ltb_lt _ _)) by lia. done.
  - destruct (Z.leb_spec (Z.of_nat k) (Z.of_nat i)), (Z.ltb_spec (Z.of_nat i) (Z.of_nat k + Z.of_nat w)); try done. lia.
Qed.

Lemma create_ptim_first_fit_witness : ∃ wa', create_ptim (mk_ptim 300 0 2 1 0) (demo_wa 0 (replicate 14 0) demo_waiting) = Some (ok, wa').
Proof.
  destruct (create_ptim_first_fit (mk_ptim 300 0 2 1 0) (demo_wa 0 (replicate 14 0) demo_waiting) 0 (demo_module 0 (replicate 14 0)) 1)
    as [(k & _ & _ & m' & E & _)|[Hno _]]; try done; [lia| |].
  - by eexists.
  - destruct (Hno 0%nat). intros i Hi. exists demo_slot. assert (i = 0%nat) as -> by lia. done.
Defined.

(** * Examples of reachable states *)

Lemma demo_loaded : loaded (demo_wa 0 (replicate 14 0) demo_waiting).
Proof.
  split; [done| |done| |done].
  - apply Forall_replicate. split; [done|]. split; [apply demo_waiting_inv|done].
  - intros n m Hn Hm. destruct n as [|n]; [|cbn in Hn; lia]. injection Hm as <-. exists (demo_map 0). do 4 (split; [by split|]). split.
    + by repeat constructor.
    + by repeat constructor.
Qed.



(** * What disconnecting leaves behind *)

(** The results of a history of requests of one client, and the last state. *)
Fixpoint requests (beyond : Z → Z) (cms : list request) (wa : CtrDrvrWorkingArea) : option (list Z * CtrDrvrWorkingArea) :=
  match cms with
  | [] => Some ([], wa)
  | cm :: cms =>
    '(r, wa) ← CtrDrvrIoctl beyond 1 cm (mk_argument false 100000 100000 0) wa;
    '(rs, wa) ← requests beyond cms wa; Some (r.1 :: rs, wa)
  end.

Definition opened : option CtrDrvrWorkingArea := snd <$> CtrDrvrOpen 1 42 (demo_wa 0 (replicate 14 0) (cdcm_sem_init 0)).

Definition ctim_connection (num : Z) : CtrDrvrConnection := mk_connection 1 CTIM num.

(** Disconnecting from one object disturbs the others.  A client that is connected to two
    CTIM objects and disconnects from one is still connected to the other, but the interrupt of their counter is
    disabled, so it receives nothing more; and the object it left cannot be destroyed,
    because the free trigger keeps its number. *)
Theorem disconnect_leaves_traces (beyond : Z → Z) : ∃ wa wa',
  opened = Some wa ∧
  requests beyond [CREATE_CTIM_OBJECT (mk_ctim 100 0x64000000); CREATE_CTIM_OBJECT (mk_ctim 200 0x65000000);
    CONNECT (ctim_connection 100); CONNECT (ctim_connection 200); DISCONNECT (ctim_connection 100);
    DESTROY_CTIM_OBJECT (mk_ctim 100 0)] wa = Some ([OK; OK; OK; OK; OK; - EBUSY], wa') ∧
  ccn_Connections (get_client_connections 42 wa') = [ctim_connection 200] ∧
  ∃ m mm, ModuleContexts wa' !! 0%nat = Some m ∧ Map m = Some mm ∧ InterruptEnable m = 0 ∧ mm_InterruptEnable mm = 0.
Proof. eexists _, _. split; [vm_compute; reflexivity|]. split; [vm_compute; reflexivity|]. split; [vm_compute; reflexivity|]. eexists _, _. by repeat split. Qed.
