(* ===== verification/VmodCarrier.v ===== *)
(** What a carrier of MODULBUS mezzanine boards promises to their drivers
    ([src/vmod/driver/modulbus_register.h]), and the C arrays of the carrier drivers.

    A carrier has two entry points: [get_address_space], which tells where the window of
    a slot is, and [register_isr], which says what to call when a slot interrupts.  The class
    [CarrierLaws] is their contract; [VmodIo] and [ModPci] implement it, [VmodLunargs] uses it. *)
From S2P Require Import Prelude.

Local Open Scope Z_scope.

(** [struct carrier_as] *)
Record carrier_as := mk_carrier_as {
  as_address : Z;
  as_width : Z;
  as_size : Z;
  as_is_big_endian : Z
}.

(** * C arrays *)

Definition array_get {A} (l : list A) (i : Z) : option A := if i <? 0 then None else l !! Z.to_nat i.

Definition array_set {A} (l : list A) (i : Z) (x : A) : option (list A) :=
  if decide (0 <= i < Z.of_nat (length l)) then Some (<[Z.to_nat i := x]> l) else None.

Definition table_get {A} (t : list (list A)) (i j : Z) : option A := row ← array_get t i; array_get row j.

Definition table_set {A} (t : list (list A)) (i j : Z) (x : A) : option (list (list A)) :=
  row ← array_get t i;
  row ← array_set row j x;
  array_set t i row.

(** * The contract *)

(** Bytes between the windows of two slots; the boards have at most four. *)
Definition SLOT_SPACE : Z := 0x200.

(** The window of a slot of a board mapped at [base]. *)
Definition slot_window (base slot : Z) : carrier_as := mk_carrier_as (u64 (base + SLOT_SPACE * slot)) 16 SLOT_SPACE 1.

(** [C]: addresses of callbacks, [D]: what they are called with; a NULL pointer is [None]. *)
Class Carrier (S C D : Type) := {
  get_space : carrier_as → Z → Z → Z → M S (Z * carrier_as);
  set_isr : option C → option D → Z → Z → M S Z;
}.

Class CarrierLaws (S C D : Type) `{Carrier S C D} := {
  (** The carrier driver is loaded. *)
  carrier_ok : S → Prop;
  slots : Z;
  (** Where the board with a logical unit number is mapped, if there is one. *)
  board : S → Z → option Z;
  (** The callback of a slot. *)
  isr_of : S → Z → Z → option C * option D;
  get_space_law s a b p n : carrier_ok s →
    ∃ r a', get_space a b p n s = Some (r, a', s) ∧
      ((r < 0 ∧ a' = a) ∨ (r = 0 ∧ ∃ base, board s b = Some base ∧ 0 <= p < slots ∧ a' = slot_window base p));
  get_space_works s a b p base : carrier_ok s → board s b = Some base → 0 <= p < slots →
    get_space a b p 1 s = Some (0, slot_window base p, s);
  set_isr_law s c d b p : carrier_ok s →
    ∃ r s', set_isr c d b p s = Some (r, s') ∧ carrier_ok s' ∧ board s' = board s ∧
      ((r < 0 ∧ s' = s) ∨
       (r = 0 ∧ 0 <= p < slots ∧ isr_of s' b p = (c, d) ∧
        ∀ b' p', (b', p') ≠ (b, p) → isr_of s' b' p' = isr_of s b' p'));
}.

(** * Lemmas *)


Lemma array_get_Some {A} (l : list A) i x : array_get l i = Some x ↔ 0 <= i ∧ l !! Z.to_nat i = Some x.
Proof. unfold array_get. destruct (Z.ltb_spec i 0); naive_solver lia. Qed.

Lemma array_get_lt {A} (l : list A) i : 0 <= i < Z.of_nat (length l) → ∃ x, array_get l i = Some x.
Proof.
  intros Hi. destruct (lookup_lt_is_Some_2 l (Z.to_nat i)) as [x Hx]; [lia|].
  exists x. apply array_get_Some. split; [lia|done].
Qed.

Lemma array_get_None {A} (l : list A) i : array_get l i = None ↔ ¬ 0 <= i < Z.of_nat (length l).
Proof.
  unfold array_get. destruct (Z.ltb_spec i 0); [split; [lia|done]|]. rewrite lookup_ge_None. lia.
Qed.

Lemma array_get_nat {A} (l : list A) (i : nat) : array_get l (Z.of_nat i) = l !! i.
Proof. unfold array_get. rewrite (proj2 (Z.ltb_ge _ _)) by lia. by rewrite Nat2Z.id. Qed.

Lemma array_set_Some {A} (l : list A) i x l' :
  array_set l i x = Some l' ↔ 0 <= i < Z.of_nat (length l) ∧ l' = <[Z.to_nat i := x]> l.
Proof. unfold array_set. destruct (decide _); naive_solver. Qed.

Lemma array_set_length {A} (l : list A) i x l' : array_set l i x = Some l' → length l' = length l.
Proof. intros [_ ->]%array_set_Some. by rewrite length_insert. Qed.

Lemma array_set_get {A} (l : list A) i x l' j : array_set l i x = Some l' →
  array_get l' j = if decide (j = i) then Some x else array_get l j.
Proof.
  intros [Hi ->]%array_set_Some. unfold array_get. destruct (decide (j = i)) as [->|Hne].
  - rewrite (proj2 (Z.ltb_ge _ _)) by lia. apply list_lookup_insert_eq. lia.
  - destruct (Z.ltb_spec j 0); [done|]. apply list_lookup_insert_ne. lia.
Qed.

(** A table of [n] rows of [m] cells. *)
Definition table_shape {A} (n m : nat) (t : list (list A)) : Prop := length t = n ∧ Forall (λ r, length r = m) t.

Lemma table_row {A} n m (t : list (list A)) i : table_shape n m t → 0 <= i < Z.of_nat n →
  ∃ r, array_get t i = Some r ∧ length r = m.
Proof.
  intros [Ht Hf] Hi. destruct (array_get_lt t i) as [r Hr]; [lia|]. exists r. split; [done|].
  apply array_get_Some in Hr as [_ Hr]. by eapply Forall_lookup_1 in Hf.
Qed.

Lemma table_get_lt {A} n m (t : list (list A)) i j : table_shape n m t → 0 <= i < Z.of_nat n → 0 <= j < Z.of_nat m →
  ∃ x, table_get t i j = Some x.
Proof.
  intros Ht Hi Hj. destruct (table_row n m t i Ht Hi) as (r & Hr & Hl). unfold table_get. rewrite Hr. simpl.
  apply array_get_lt. lia.
Qed.

Lemma table_set_lt {A} n m (t : list (list A)) i j x : table_shape n m t → 0 <= i < Z.of_nat n → 0 <= j < Z.of_nat m →
  ∃ t', table_set t i j x = Some t' ∧ table_shape n m t' ∧
    ∀ i' j', table_get t' i' j' = if decide ((i', j') = (i, j)) then Some x else table_get t i' j'.
Proof.
  intros Ht Hi Hj. destruct (table_row n m t i Ht Hi) as (r & Hr & Hl). unfold table_set. rewrite Hr. cbn [mbind option_bind].
  assert (Hr' : array_set r j x = Some (<[Z.to_nat j := x]> r)) by (apply array_set_Some; split; [lia|done]).
  rewrite Hr'. cbn [mbind option_bind].
  assert (Hs : array_set t i (<[Z.to_nat j := x]> r) = Some (<[Z.to_nat i := <[Z.to_nat j := x]> r]> t)).
  { apply array_set_Some. destruct Ht. split; [lia|done]. }
  rewrite Hs. eexists. split; [done|]. split.
  - destruct Ht as [Ht Hf]. split; [by rewrite length_insert|]. apply Forall_insert; [done|]. by rewrite length_insert.
  - intros i' j'. unfold table_get. rewrite (array_set_get _ _ _ _ i' Hs).
    destruct (decide (i' = i)) as [->|Hne]; [|by rewrite decide_False by congruence].
    rewrite Hr. cbn [mbind option_bind]. rewrite (array_set_get _ _ _ _ j' Hr').
    destruct (decide (j' = j)) as [->|]; [by rewrite decide_True|by rewrite decide_False by congruence].
Qed.

(** The windows of two slots of a board have no address in common. *)
Lemma slot_windows_disjoint base p q : p ≠ q → 0 <= base → 0 <= p → 0 <= q → base + SLOT_SPACE * Z.max p q + SLOT_SPACE <= 2 ^ 64 →
  as_address (slot_window base p) + SLOT_SPACE <= as_address (slot_window base q) ∨
  as_address (slot_window base q) + SLOT_SPACE <= as_address (slot_window base p).
Proof.
  unfold slot_window, SLOT_SPACE, u64. cbn [as_address]. intros.
  rewrite !Z.mod_small by (split; [|destruct (Z.max_spec p q)]; lia). lia.
Qed.
