(* ===== verification/VmodIo.v ===== *)
(** The VMOD/IO carrier, a VME board with four slots: [src/vmod/driver/vmodio.c].

    It is a client of the VME bridge ([find_controller], [vme_request_irq],
    [vme_free_irq]: class [VmeServices]) and of the register of carriers, and promises the
    contract of [VmodCarrier] to the drivers of the mezzanine boards.  The loops are over the fixed
    tables of the code. *)
From S2P Require Import Prelude VmodBus VmodCarrier.

Local Open Scope Z_scope.

(** * Constants *)

Definition MAX_DEVICES : nat := 16.
Definition DRIVER_NAME : string := "vmodio".
Definition VMODIO_SLOTS : nat := 4.
Definition VMODIO_SLOT0 : Z := 0x0000.
Definition VMODIO_SLOT1 : Z := 0x0200.
Definition VMODIO_SLOT2 : Z := 0x0400.
Definition VMODIO_SLOT3 : Z := 0x0600.
Definition VMODIO_WINDOW_LENGTH : Z := 0x800.
Definition VMODIO_DATA_SIZE : Z := 2.
Definition VMODIO_ADDRESS_MODIFIER : Z := 0x29.

(** * The services of the VME bridge

    [find_controller] with its parameter block, as the driver fills it in, left out. *)
Class VmeServices (V : Type) := {
  find_controller : Z → Z → Z → Z → Z → M V Z;
  vme_request_irq : Z → Z → Z → M V Z;
  vme_free_irq : Z → M V Z;
}.

(** [on_vector]: the handler of an interrupt vector and its argument. *)
Class VmeServicesLaws (V : Type) `{VmeServices V} := {
  vme_ok : V → Prop;
  on_vector : V → Z → option (Z * Z);
  find_controller_law v addr len am off sz : vme_ok v →
    wp (find_controller addr len am off sz) (λ _ v', vme_ok v' ∧ on_vector v' = on_vector v) v;
  vme_request_irq_law v vec h a : vme_ok v → 0 <= vec → h ≠ 0 →
    wp (vme_request_irq vec h a) (λ rc v', vme_ok v' ∧
      ((rc < 0 ∧ on_vector v' = on_vector v) ∨
       (rc = 0 ∧ vec < 256 ∧ on_vector v vec = None ∧
        ∀ x, on_vector v' x = if decide (x = vec) then Some (h, a) else on_vector v x))) v;
  vme_free_irq_law v vec : vme_ok v → 0 <= vec →
    wp (vme_free_irq vec) (λ _ v', vme_ok v' ∧
      ∀ x, on_vector v' x = on_vector v x ∨ x = vec ∧ on_vector v' x = None) v;
}.

(** * Data *)

(** [struct vmodio] *)
Record vmodio := mk_vmodio {
  vm_lun : Z;
  vme_addr : Z;
  vaddr : Z;
  vm_irq : list Z
}.

Definition zero_vmodio : vmodio := mk_vmodio 0 0 0 [0; 0; 0; 0].

(** [struct mz_callback] *)
Record mz_callback (C D : Type) := mk_callback { callback : option C; mz_dev : option D }.
Arguments mk_callback {C D}.
Arguments callback {C D}.
Arguments mz_dev {C D}.

(** The module parameters; the kernel sets the counts to the lengths, 16 at most. *)
Record vmodio_params := mk_params {
  p_lun : list Z;
  p_base_address : list Z;
  p_irq : list Z
}.

(** The variables of the file. *)
Record vmodio_state (C D : Type) := mk_vmodio_state {
  device_table : list vmodio;
  devices : Z;
  irq_to_lun : list Z;
  lun_slot_to_irq : list (list Z);
  mezzanines_callback : list (list (mz_callback C D))
}.
Arguments mk_vmodio_state {C D}.
Arguments device_table {C D}.
Arguments devices {C D}.
Arguments irq_to_lun {C D}.
Arguments lun_slot_to_irq {C D}.
Arguments mezzanines_callback {C D}.

Definition vmodio_start {C D} : vmodio_state C D :=
  mk_vmodio_state (replicate MAX_DEVICES zero_vmodio) 0 (replicate MAX_DEVICES 0)
    (replicate MAX_DEVICES (replicate VMODIO_SLOTS 0)) (replicate MAX_DEVICES (replicate VMODIO_SLOTS (mk_callback None None))).

(** * Interrupt numbers *)

Definition vmodio_irq_shift (base_irq slot : Z) : Z :=
  base_irq - (0xe - Z.land (Z.lnot (Z.shiftl 1 slot)) 0xf).

Definition upper_nibble_of (byte : Z) : Z := Z.land 0xf (Z.shiftr byte 4).

Definition interrupt_to_slot : list Z :=
  [- 1; - 1; - 1; - 1;
   - 1; - 1; - 1; 3;
   - 1; - 1; - 1; 2;
   - 1; 1; 0; - 1].

Definition irq_to_slot (tmp : Z) : option Z := array_get interrupt_to_slot (Z.land tmp 0xf).

Definition vmodio_offsets : list Z := [VMODIO_SLOT0; VMODIO_SLOT1; VMODIO_SLOT2; VMODIO_SLOT3].

Inductive irqreturn := IRQ_NONE | IRQ_HANDLED.

Section vmodio.
(** Addresses of callbacks and their arguments; entry points of carriers. *)
Context {C D G R : Type}.
Notation VS := (vmodio_state C D).

(** * The entry points *)

(** All entries of the table are looked at, the unused ones too. *)
Definition lun_to_dev (lun : Z) : M VS (option vmodio) :=
  t ← gets device_table;
  mret (i ← find_idx (λ dev, vm_lun dev =? lun) t; t !! i).

Definition get_address_space (asp : carrier_as) (board_number board_position address_space_number : Z) : M VS (Z * carrier_as) :=
  if negb (address_space_number =? 1) then mret (- 1, asp) else
  dev ← lun_to_dev board_number;
  match dev with
  | None => mret (- 1, asp)
  | Some dev =>
    if (board_position <? 0) || (board_position >=? Z.of_nat VMODIO_SLOTS) then mret (- 1, asp) else
    offset ← lift_opt (array_get vmodio_offsets board_position);
    mret (0, mk_carrier_as (u64 (vaddr dev + offset)) 16 0x200 1)
  end.

Definition vmodio_get_address_space := get_address_space.

Definition within_bounds (board position : Z) : M VS bool :=
  dev ← lun_to_dev board;
  mret (match dev with
        | None => false
        | Some dev => (vm_lun dev >=? 0) && (position >=? 0) && (position <? Z.of_nat VMODIO_SLOTS)
        end).

Definition register_isr (cb : option C) (dev : option D) (board_number board_position : Z) : M VS Z :=
  ok ← within_bounds board_number board_position;
  if negb ok then mret (- 1) else
  t ← gets mezzanines_callback;
  t' ← lift_opt (table_set t board_number board_position (mk_callback cb dev));
  modify (λ s : VS, s <| mezzanines_callback := t' |>);;
  mret 0.

#[export] Instance vmodio_carrier : Carrier VS C D := {
  get_space := get_address_space;
  set_isr := register_isr;
}.

(** * Interrupts *)

Section interrupt.
(** The rest of the system, and the call of a callback in it. *)
Context {X : Type}.
Variable call_isr : C → option D → M X Z.
(** The address of [device_table]; an element has 40 bytes, with [irq] at the end. *)
Variable device_table_addr : Z.

Definition irq_cell (device slot : nat) : Z := device_table_addr + 40 * Z.of_nat device + 24 + 4 * Z.of_nat slot.

(** The [int] that [irq_id] points to. *)
Definition read_cell (t : list vmodio) (a : Z) : option Z :=
  let o := a - device_table_addr in
  dev ← array_get t (o / 40);
  if (24 <=? o mod 40) && (o mod 4 =? 0) then array_get (vm_irq dev) ((o mod 40 - 24) / 4) else None.

Definition of_vmodio {A} (m : M VS A) : M (VS * X) A := zoom fst (λ v (s : VS * X), (v, s.2)) m.
Definition outside {A} (m : M X A) : M (VS * X) A := zoom snd (λ x (s : VS * X), (s.1, x)) m.

Definition vmodio_interrupt (irq_id : Z) : M (VS * X) irqreturn :=
  t ← of_vmodio (gets device_table);
  irqno ← lift_opt (read_cell t irq_id);
  luns ← of_vmodio (gets irq_to_lun);
  carrier_number ← lift_opt (array_get luns (upper_nibble_of irqno));
  board_position ← lift_opt (irq_to_slot irqno);
  ok ← of_vmodio (within_bounds carrier_number board_position);
  if negb ok then mret IRQ_NONE else
  cbs ← of_vmodio (gets mezzanines_callback);
  entry ← lift_opt (table_get cbs carrier_number board_position);
  match callback entry with
  | None => mret IRQ_NONE
  | Some f =>
    rc ← outside (call_isr f (mz_dev entry));
    if rc <? 0 then mret IRQ_NONE else mret IRQ_HANDLED
  end.
End interrupt.

(** * Loading and unloading *)

Section init.
Context {V : Type} `{VmeServices V}.
(** The addresses of the two entry points, of the interrupt handler and of the table. *)
Variable gas_ptr : G.
Variable risr_ptr : R.
Variable vmodio_interrupt_addr device_table_addr : Z.

(** The state of the bridge, the register of carriers, and the driver's own. *)
Record vmodio_world := mk_vmodio_world {
  w_vme : V;
  w_register : registry G R;
  w_vmodio : VS
}.
Notation W := vmodio_world.

Definition on_vme {A} (m : M V A) : M W A := zoom w_vme (λ v (s : W), s <| w_vme := v |>) m.
Definition on_register {A} (m : M (registry G R) A) : M W A := zoom w_register (λ v (s : W), s <| w_register := v |>) m.
Definition on_vmodio {A} (m : M VS A) : M W A := zoom w_vmodio (λ v (s : W), s <| w_vmodio := v |>) m.

Definition upd_device (i : nat) (f : vmodio → vmodio) : M W () :=
  on_vmodio (modify (λ s : VS, s <| device_table := alter f i (device_table s) |>)).

Definition vmodio_map (base_address : Z) : M V Z :=
  find_controller base_address VMODIO_WINDOW_LENGTH VMODIO_ADDRESS_MODIFIER 0 VMODIO_DATA_SIZE.

(** One round of the loop over the slots in [device_init]. *)
Definition request_slot (device : nat) (lun base_irq : Z) (i : nat) : M W Z :=
  let slot_irq := vmodio_irq_shift base_irq (Z.of_nat i) in
  upd_device device (λ dev : vmodio, dev <| vm_irq := <[i := slot_irq]> (vm_irq dev) |>);;
  t ← on_vmodio (gets lun_slot_to_irq);
  t' ← lift_opt (table_set t lun (Z.of_nat i) slot_irq);
  on_vmodio (modify (λ s : VS, s <| lun_slot_to_irq := t' |>));;
  ret ← on_vme (vme_request_irq (u32 slot_irq) vmodio_interrupt_addr (irq_cell device_table_addr device i));
  mret (if ret <? 0 then - 1 else 0).

Definition device_init (device : nat) (lun base_address base_irq : Z) : M W Z :=
  upd_device device (λ dev : vmodio, dev <| vm_lun := lun |> <| vme_addr := base_address |>);;
  va ← on_vme (vmodio_map base_address);
  upd_device device (λ dev : vmodio, dev <| vaddr := va |>);;
  if va =? u64 (- 1) then mret (- 1) else
  luns ← on_vmodio (gets irq_to_lun);
  luns' ← lift_opt (array_set luns (upper_nibble_of base_irq) lun);
  on_vmodio (modify (λ s : VS, s <| irq_to_lun := luns' |>));;
  mfold (λ rc i, if truthy rc then mret rc else request_slot device lun base_irq i) 0 (seq 0 VMODIO_SLOTS).

(** The loop over the devices; it leaves at the first failure. *)
Definition init_devices (ps : vmodio_params) : M W Z :=
  mfold (λ rc device,
    if truthy rc then mret rc else
    lun ← lift_opt (p_lun ps !! device);
    base ← lift_opt (p_base_address ps !! device);
    irq ← lift_opt (p_irq ps !! device);
    rc ← device_init device lun base irq;
    if truthy rc then mret rc else on_vmodio (modify (λ s : VS, s <| devices := devices s + 1 |>));; mret 0)
    0 (seq 0 (length (p_lun ps))).

Definition vmodio_init (ps : vmodio_params) : M W Z :=
  on_vmodio (modify (λ s : VS, s <| irq_to_lun := replicate MAX_DEVICES (- 1) |>
    <| lun_slot_to_irq := replicate MAX_DEVICES (replicate VMODIO_SLOTS (- 1)) |>));;
  let nlun := length (p_lun ps) in
  if decide (MAX_DEVICES ≤ nlun)%nat then mret (- 1) else
  if decide (nlun ≠ length (p_base_address ps) ∨ nlun ≠ length (p_irq ps)) then mret (- 1) else
  rc ← on_register (modulbus_carrier_register DRIVER_NAME (Some gas_ptr) (Some risr_ptr));
  if truthy rc then mret (- 1) else
  on_vmodio (modify (λ s : VS, s <| devices := 0 |>));;
  rc ← init_devices ps;
  if truthy rc then on_register (modulbus_carrier_unregister DRIVER_NAME);; mret (- 1) else mret 0.

Definition vmodio_exit : M W () :=
  t ← on_vmodio (gets lun_slot_to_irq);
  mfold (λ _ row, mfold (λ _ irq, if irq >=? 0 then on_vme (vme_free_irq (u32 irq));; mret () else mret ()) () row) () t;;
  on_register (modulbus_carrier_unregister DRIVER_NAME);;
  mret ().
End init.
End vmodio.
Arguments vmodio_world : clear implicits.
