(* ===== verification/VmodIoProofs.v ===== *)
(** The VMOD/IO carrier keeps the contract of carriers, and the interrupts of its boards reach
    the callbacks of their slots. *)
From S2P Require Import Prelude VmodBus VmodCarrier VmodIo.

Local Open Scope Z_scope.

(** * Interrupt numbers *)

(** The number of slot 0 ends in [0xe]; each slot clears its own bit of the lower nibble. *)
Lemma irq_shift_cases base (i : nat) : (i < 4)%nat → base mod 16 = 14 →
  vmodio_irq_shift base (Z.of_nat i) = base - nth i [0; 1; 3; 7] 0.
Proof. intros Hi _. unfold vmodio_irq_shift. f_equal. do 4 (destruct i as [|i]; [done|]). lia. Qed.

Lemma land_15 x : Z.land x 0xf = x mod 16.
Proof. exact (Z.land_ones x 4 ltac:(lia)). Qed.

Lemma upper_nibble_div x : upper_nibble_of x = x / 16 mod 16.
Proof. unfold upper_nibble_of. by rewrite Z.land_comm, land_15, Z.shiftr_div_pow2. Qed.

(** The driver finds the slot and the board of an interrupt again. *)
Lemma irq_roundtrip base (i : nat) : (i < 4)%nat → base mod 16 = 14 →
  irq_to_slot (vmodio_irq_shift base (Z.of_nat i)) = Some (Z.of_nat i) ∧
  upper_nibble_of (vmodio_irq_shift base (Z.of_nat i)) = upper_nibble_of base.
Proof.
  intros Hi Hb. rewrite !upper_nibble_div, (irq_shift_cases base i Hi Hb). unfold irq_to_slot.
  rewrite land_15. pose proof (Z.div_mod base 16 ltac:(lia)) as Hd. rewrite Hb in Hd.
  assert (Hk : ∀ k, 0 <= k <= 14 → (base - k) mod 16 = 14 - k ∧ (base - k) / 16 = base / 16).
  { intros k Hk. split.
    - rewrite Hd. replace (16 * (base / 16) + 14 - k) with (14 - k + base / 16 * 16) by lia.
      rewrite Z.mod_add by lia. apply Z.mod_small. lia.
    - rewrite Hd at 1. replace (16 * (base / 16) + 14 - k) with (14 - k + base / 16 * 16) by lia.
      rewrite Z.div_add by lia. rewrite (Z.div_small (14 - k)) by lia. lia. }
  assert (Hn : 0 <= nth i [0; 1; 3; 7] 0 <= 14) by (do 4 (destruct i as [|i]; [simpl; lia|]); lia).
  destruct (Hk _ Hn) as [-> ->]. do 4 (destruct i as [|i]; [done|]). lia.
Qed.

(** Two base numbers of one board are equal. *)
Lemma upper_nibble_base a b : 0 <= a < 256 → 0 <= b < 256 → a mod 16 = 14 → b mod 16 = 14 →
  upper_nibble_of a = upper_nibble_of b → a = b.
Proof.
  rewrite !upper_nibble_div. intros Ha Hb Ea Eb.
  rewrite !(Z.mod_small (_ / 16)) by (split; [apply Z.div_pos; lia|apply Z.div_lt_upper_bound; lia]).
  pose proof (Z.div_mod a 16 ltac:(lia)). pose proof (Z.div_mod b 16 ltac:(lia)). lia.
Qed.

Section proofs.
Context {C D : Type}.
Notation VS := (vmodio_state C D).
Implicit Types s : VS.

(** * The contract of carriers *)

Record vmodio_ok s : Prop := {
  vo_table : length (device_table s) = MAX_DEVICES;
  vo_luns : Forall (λ dev, 0 <= vm_lun dev < 16) (device_table s);
  vo_irqs : Forall (λ dev, length (vm_irq dev) = VMODIO_SLOTS) (device_table s);
  vo_callbacks : table_shape MAX_DEVICES VMODIO_SLOTS (mezzanines_callback s);
  vo_to_lun : length (irq_to_lun s) = MAX_DEVICES;
  vo_to_irq : table_shape MAX_DEVICES VMODIO_SLOTS (lun_slot_to_irq s)
}.

Definition dev_of_lun (lun : Z) (t : list vmodio) : option vmodio :=
  i ← find_idx (λ dev, vm_lun dev =? lun) t; t !! i.

Lemma dev_of_lun_Some lun t dev : dev_of_lun lun t = Some dev → dev ∈ t ∧ vm_lun dev = lun.
Proof.
  unfold dev_of_lun. intros (i & Hi & Hd)%bind_Some. apply find_idx_lookup in Hi as [(x & Hx & Ht) _].
  simplify_eq. split; [by eapply list_elem_of_lookup_2|lia].
Qed.

Lemma dev_of_lun_is_Some lun t dev : dev ∈ t → vm_lun dev = lun → is_Some (dev_of_lun lun t).
Proof.
  intros Hin Hl. unfold dev_of_lun. destruct (find_idx _ _) as [i|] eqn:E.
  - apply find_idx_lookup in E as [(x & Hx & _) _]. by exists x.
  - eapply find_idx_None in E; [|exact Hin]. lia.
Qed.

Definition vmodio_board s (lun : Z) : option Z := vaddr <$> dev_of_lun lun (device_table s).

Definition vmodio_isr s (b p : Z) : option C * option D :=
  match table_get (mezzanines_callback s) b p with
  | Some e => (callback e, mz_dev e)
  | None => (None, None)
  end.

Lemma offset_of_slot p : 0 <= p < 4 → array_get vmodio_offsets p = Some (SLOT_SPACE * p).
Proof. intros Hp. assert (p = 0 ∨ p = 1 ∨ p = 2 ∨ p = 3) as [->|[->|[->| ->]]] by lia; done. Qed.

Lemma within_bounds_run s b p : within_bounds b p s =
  Some (match dev_of_lun b (device_table s) with
        | None => false
        | Some dev => (vm_lun dev >=? 0) && (p >=? 0) && (p <? 4)
        end, s).
Proof. done. Qed.

Lemma lun_in_range s b dev : vmodio_ok s → dev_of_lun b (device_table s) = Some dev → vm_lun dev = b ∧ 0 <= b < 16.
Proof.
  intros Hok [Hin Hb]%dev_of_lun_Some. split; [done|]. pose proof (vo_luns _ Hok) as Hl.
  rewrite Forall_forall in Hl. specialize (Hl _ Hin). lia.
Qed.

Lemma within_bounds_true s b p dev : vmodio_ok s → dev_of_lun b (device_table s) = Some dev → 0 <= p < 4 →
  within_bounds b p s = Some (true, s).
Proof.
  intros Hok Hd Hp. rewrite within_bounds_run, Hd. destruct (lun_in_range _ _ _ Hok Hd) as [-> ?].
  rewrite !(proj2 (Z.geb_le _ _)) by lia. by rewrite (proj2 (Z.ltb_lt _ _)) by lia.
Qed.

Lemma register_isr_run s c d b p : vmodio_ok s →
  ∃ r s', register_isr c d b p s = Some (r, s') ∧ vmodio_ok s' ∧ device_table s' = device_table s ∧ irq_to_lun s' = irq_to_lun s ∧
    ((r < 0 ∧ s' = s) ∨
     (r = 0 ∧ 0 <= p < 4 ∧ vmodio_isr s' b p = (c, d) ∧
      ∀ b' p', (b', p') ≠ (b, p) → vmodio_isr s' b' p' = vmodio_isr s b' p')).
Proof.
  intros Hok. unfold register_isr, mbind, M_bind. rewrite within_bounds_run.
  destruct (dev_of_lun b (device_table s)) as [dev|] eqn:Ed.
  2: { exists (- 1), s. split_and!; try done. by left. }
  destruct (lun_in_range _ _ _ Hok Ed) as [-> Hb]. rewrite (proj2 (Z.geb_le b 0)) by lia.
  destruct (Z.geb_spec p 0), (Z.ltb_spec p 4); cbn [andb negb];
    try (exists (- 1), s; split_and!; try done; by left).
  destruct (table_set_lt _ _ _ b p (mk_callback c d) (vo_callbacks _ Hok)) as (t' & Ht & Hsh & Hget); [unfold MAX_DEVICES, VMODIO_SLOTS; lia..|].
  unfold gets, lift_opt, modify. rewrite Ht. eexists 0, _. split; [done|].
  destruct s as [t n l q m], Hok as [O1 O2 O3 O4 O5 O6]; simpl in *. split_and!; try done. right. split_and!; try done.
  - unfold vmodio_isr. simpl. by rewrite Hget, decide_True.
  - intros b' p' Hne. unfold vmodio_isr. simpl. by rewrite Hget, decide_False.
Qed.

Lemma get_address_space_run s a b p n : get_address_space a b p n s =
  Some (if negb (n =? 1) then (- 1, a) else
        match dev_of_lun b (device_table s) with
        | None => (- 1, a)
        | Some dev => if decide (0 <= p < 4) then (0, slot_window (vaddr dev) p) else (- 1, a)
        end, s).
Proof.
  unfold get_address_space. destruct (negb _); [done|]. unfold mbind at 1, M_bind at 1.
  change (lun_to_dev b s) with (Some (dev_of_lun b (device_table s), s)). cbv beta iota.
  destruct (dev_of_lun b (device_table s)) as [dev|]; [|done].
  destruct (Z.ltb_spec p 0), (Z.geb_spec p (Z.of_nat VMODIO_SLOTS)), (decide (0 <= p < 4)); cbn [orb];
    try (unfold VMODIO_SLOTS in *; lia); try done.
  unfold mbind, M_bind, lift_opt. by rewrite offset_of_slot.
Qed.

#[export] Program Instance vmodio_carrier_laws : CarrierLaws VS C D := {|
  carrier_ok := vmodio_ok;
  slots := 4;
  board := vmodio_board;
  isr_of := vmodio_isr;
|}.
Next Obligation.
  intros s a b p n Hok. unfold get_space, vmodio_carrier. rewrite get_address_space_run. unfold vmodio_board.
  destruct (Z.eqb_spec n 1); cbn [negb]; [|exists (- 1), a; split; [done|by left]].
  destruct (dev_of_lun b (device_table s)) as [dev|]; [|exists (- 1), a; split; [done|by left]].
  destruct (decide (0 <= p < 4)) as [Hp|Hp]; [|exists (- 1), a; split; [done|by left]].
  eexists 0, _. split; [done|]. right. eauto.
Qed.
Next Obligation.
  intros s a b p base Hok (dev & Ed & ->)%fmap_Some Hp. unfold get_space, vmodio_carrier.
  rewrite get_address_space_run, Ed. by rewrite decide_True.
Qed.
Next Obligation.
  intros s c d b p Hok. destruct (register_isr_run s c d b p Hok) as (r & s' & E & Hok' & Ht & _ & H).
  exists r, s'. split_and!; try done. unfold vmodio_board. by rewrite Ht.
Qed.
End proofs.

(** * Loading the driver *)

Section init.
Context {C D G R V : Type} `{VmeServicesLaws V}.
Notation VS := (vmodio_state C D).
Notation W := (vmodio_world C D G R V).
Variable gas_ptr : G.
Variable risr_ptr : R.
Variable vmodio_interrupt_addr device_table_addr : Z.
Hypothesis handler_addr : vmodio_interrupt_addr ≠ 0.
Implicit Types (w : W) (ps : vmodio_params).

Notation cell := (irq_cell device_table_addr).
Notation slot_irq base i := (vmodio_irq_shift base (Z.of_nat i)).

(** The parameters that a crate can have: base numbers end in [0xe], logical units fit the tables. *)
Record params_ok ps : Prop := {
  po_luns : Forall (λ l, 0 <= l < 16) (p_lun ps);
  po_irqs : Forall (λ q, - 2 ^ 31 + 16 <= q < 2 ^ 31 ∧ q mod 16 = 14) (p_irq ps)
}.

(** Slot [i] of device [d] is served by the driver's handler. *)
Definition served w (d : nat) (base : Z) (i : nat) : Prop :=
  on_vector (w_vme w) (slot_irq base i) = Some (vmodio_interrupt_addr, cell d i).

(** Device [d] is set up. *)
Record device_done w (d : nat) (lun base : Z) : Prop := {
  dd_base : 0 <= base < 256 ∧ base mod 16 = 14;
  dd_dev : ∃ dev, device_table (w_vmodio w) !! d = Some dev ∧ vm_lun dev = lun ∧
    vm_irq dev = (λ i, slot_irq base i) <$> seq 0 4;
  dd_lun : array_get (irq_to_lun (w_vmodio w)) (upper_nibble_of base) = Some lun;
  dd_served : ∀ i, (i < 4)%nat → served w d base i
}.

(** The first [n] devices are. *)
Record progress ps (n : nat) w : Prop := {
  pr_ok : vmodio_ok (w_vmodio w);
  pr_vme : vme_ok (w_vme w);
  pr_done : ∀ d lun base, (d < n)%nat → p_lun ps !! d = Some lun → p_irq ps !! d = Some base → device_done w d lun base
}.

(** ** One slot *)

(** Slots below [i] of device [n] are served, and the device table has their numbers. *)
Record slots_done w (n : nat) (lun base : Z) (i : nat) : Prop := {
  sd_dev : ∃ dev, device_table (w_vmodio w) !! n = Some dev ∧ vm_lun dev = lun ∧
    ∀ j, (j < i)%nat → vm_irq dev !! j = Some (slot_irq base j);
  sd_base : (0 < i)%nat → 0 <= base < 256;
  sd_served : ∀ j, (j < i)%nat → served w n base j
}.

(** What one round leaves alone. *)
Record others_kept w w' (n : nat) : Prop := {
  ok_reg : w_register w' = w_register w;
  ok_lun : irq_to_lun (w_vmodio w') = irq_to_lun (w_vmodio w);
  ok_cbs : mezzanines_callback (w_vmodio w') = mezzanines_callback (w_vmodio w);
  ok_devs : ∀ d, d ≠ n → device_table (w_vmodio w') !! d = device_table (w_vmodio w) !! d;
  ok_vec : ∀ x y, on_vector (w_vme w) x = Some y → on_vector (w_vme w') x = Some y
}.

Lemma others_kept_refl w n : others_kept w w n.
Proof. by split. Qed.

Lemma others_kept_trans w w1 w2 n : others_kept w w1 n → others_kept w1 w2 n → others_kept w w2 n.
Proof.
  intros [A1 A2 A3 A4 A5] [B1 B2 B3 B4 B5]. split; [congruence..| |by auto]. intros d Hd. by rewrite B4, A4.
Qed.

Lemma slot_irq_u32 base (i : nat) : (i < 4)%nat → - 2 ^ 31 + 16 <= base < 2 ^ 31 → base mod 16 = 14 → u32 (slot_irq base i) < 256 →
  (14 <= base < 2 ^ 31 → slot_irq base i < 256) ∧ 14 <= base ∧ u32 (slot_irq base i) = slot_irq base i.
Proof.
  intros Hi Hb Hm Hu. rewrite (irq_shift_cases base i Hi Hm) in *.
  assert (Hn : 0 <= nth i [0; 1; 3; 7] 0 <= 7) by (do 4 (destruct i as [|i]; [simpl; lia|]); lia).
  unfold u32 in *. pose proof (Z.div_mod base 16 ltac:(lia)) as Hd. rewrite Hm in Hd.
  destruct (decide (0 <= base)) as [Hge|Hlt].
  - assert (14 <= base) by (pose proof (Z.div_pos base 16 ltac:(lia) ltac:(lia)); lia).
    rewrite Z.mod_small in * by lia. split_and!; lia.
  - assert (E : (base - nth i [0; 1; 3; 7] 0) mod 2 ^ 32 = base - nth i [0; 1; 3; 7] 0 + 2 ^ 32).
    { replace (base - nth i [0; 1; 3; 7] 0) with (base - nth i [0; 1; 3; 7] 0 + 2 ^ 32 + (- 1) * 2 ^ 32) at 1 by lia.
      rewrite Z.mod_add by lia. apply Z.mod_small. lia. }
    rewrite E in Hu. lia.
Qed.

Lemma wp_upd_device n f (Q : () → W → Prop) w :
  Q () (w <| w_vmodio := (w_vmodio w) <| device_table := alter f n (device_table (w_vmodio w)) |> |>) →
  wp (upd_device n f) Q w.
Proof. intros HQ. unfold upd_device, on_vmodio. apply wp_zoom. wp_step. exact HQ. Qed.

Lemma wp_table_set (t : list (list Z)) i j x (Q : list (list Z) → W → Prop) w : table_shape MAX_DEVICES VMODIO_SLOTS t →
  0 <= i < 16 → 0 <= j < 4 → (∀ t', table_shape MAX_DEVICES VMODIO_SLOTS t' → Q t' w) → wp (lift_opt (table_set t i j x)) Q w.
Proof.
  intros Ht Hi Hj HQ. destruct (table_set_lt _ _ _ i j x Ht Hi Hj) as (t' & E & Hs & _).
  unfold wp, lift_opt. rewrite E. by apply HQ.
Qed.

Lemma request_slot_step n lun base i w : vmodio_ok (w_vmodio w) → vme_ok (w_vme w) → (n < 16)%nat → 0 <= lun < 16 → (i < 4)%nat →
  - 2 ^ 31 + 16 <= base < 2 ^ 31 → base mod 16 = 14 → slots_done w n lun base i →
  wp (request_slot vmodio_interrupt_addr device_table_addr n lun base i) (λ rc w',
    vmodio_ok (w_vmodio w') ∧ vme_ok (w_vme w') ∧ others_kept w w' n ∧
    (rc = 0 → slots_done w' n lun base (S i) ∧ on_vector (w_vme w) (slot_irq base i) = None)) w.
Proof.
  intros Hok Hv Hn Hlun Hi Hb Hm [(dev & Hd & Hdl & Hdi) Hsb Hss]. destruct w as [v r s].
  cbn [w_vme w_vmodio w_register] in *. unfold request_slot. wp_step. apply wp_upd_device. cbn [w_vmodio].
  set (f := λ dev : vmodio, dev <| vm_irq := <[i := slot_irq base i]> (vm_irq dev) |>).
  wp_step. unfold on_vmodio at 1. apply wp_zoom. wp_step. wp_step.
  assert (Hok1 : vmodio_ok (s <| device_table := alter f n (device_table s) |>)).
  { destruct s as [t k l q m], Hok as [O1 O2 O3 O4 O5 O6]. simpl in *. split; simpl; try done.
    - by rewrite length_alter.
    - apply Forall_alter; [done|]. by intros [].
    - apply Forall_alter; [done|]. intros [] _ ?. simpl. by rewrite length_insert. }
  apply wp_table_set; [apply (vo_to_irq _ Hok1)|done|lia|]. intros t' Ht'.
  wp_step. unfold on_vmodio at 1. apply wp_zoom. wp_step. wp_step. unfold on_vme. apply wp_zoom. cbn [w_vme].
  eapply wp_mono; [apply vme_request_irq_law; [exact Hv|apply u32_range|exact handler_addr]|].
  intros rc v' [Hv' Hout]. wp_step. destruct s as [t k l q m]. simpl in *.
  assert (Hlen : length (vm_irq dev) = VMODIO_SLOTS).
  { destruct Hok as [_ _ O3 _ _ _]. simpl in O3. by eapply Forall_lookup_1 in O3. }
  split_and!; [|done| |].
  - destruct Hok1 as [O1 O2 O3 O4 O5 O6]. by split.
  - split; try done; simpl.
    + intros d Hne. by apply list_lookup_alter_ne.
    + intros x y Hx. destruct Hout as [[_ ->]|(_ & _ & Hnone & ->)]; [done|].
      destruct (decide (x = _)) as [->|]; [congruence|done].
  - destruct (Z.ltb_spec rc 0); [done|]. intros _. destruct Hout as [[? _]|(_ & Hlt & Hnone & Hset)]; [lia|].
    destruct (slot_irq_u32 base i Hi Hb Hm Hlt) as (Hr & Hge & Hu). rewrite Hu in *. split; [|done].
    split; unfold served; simpl.
    + exists (f dev). split; [by rewrite list_lookup_alter_eq, Hd|]. destruct dev as [dl da dv di]. simpl in *. split; [done|].
      intros j Hj. destruct (decide (j = i)) as [->|Hne].
      * apply list_lookup_insert_eq. rewrite Hlen. unfold VMODIO_SLOTS. lia.
      * rewrite list_lookup_insert_ne by done. apply Hdi. lia.
    + intros _. destruct i as [|i]; [|apply Hsb; lia].
      rewrite (irq_shift_cases base 0 ltac:(lia) Hm) in Hlt. simpl in Hlt. lia.
    + intros j Hj. rewrite Hset. destruct (decide (j = i)) as [->|Hne]; [by rewrite decide_True|].
      rewrite decide_False; [apply Hss; lia|].
      rewrite (irq_shift_cases base j ltac:(lia) Hm), (irq_shift_cases base i Hi Hm).
      do 4 (destruct i as [|i]; [do 4 (destruct j as [|j]; [simpl; lia|]); lia|]). lia.
Qed.

(** ** One device *)

Lemma request_slots n lun base w : vmodio_ok (w_vmodio w) → vme_ok (w_vme w) → (n < 16)%nat → 0 <= lun < 16 →
  - 2 ^ 31 + 16 <= base < 2 ^ 31 → base mod 16 = 14 →
  (∃ dev, device_table (w_vmodio w) !! n = Some dev ∧ vm_lun dev = lun) →
  wp (mfold (λ rc i, if truthy rc then mret rc else request_slot vmodio_interrupt_addr device_table_addr n lun base i) 0 (seq 0 VMODIO_SLOTS))
    (λ rc w', vmodio_ok (w_vmodio w') ∧ vme_ok (w_vme w') ∧ others_kept w w' n ∧
      (rc = 0 → slots_done w' n lun base 4 ∧ on_vector (w_vme w) (slot_irq base 0%nat) = None)) w.
Proof.
  intros Hok Hv Hn Hlun Hb Hm (dev & Hd & Hdl).
  eapply wp_mono; [apply (wp_mfold _ (λ l rc w', vmodio_ok (w_vmodio w') ∧ vme_ok (w_vme w') ∧ others_kept w w' n ∧
    (rc = 0 → ∃ i, (i <= 4)%nat ∧ l = seq i (4 - i) ∧ slots_done w' n lun base i ∧
       ((0 < i)%nat → on_vector (w_vme w) (slot_irq base 0%nat) = None))))|].
  - intros x l rc w' (Ho & Hv' & Hk & Hrc). unfold truthy. destruct (Z.eqb_spec rc 0) as [->|Hne]; cbn [negb].
    2: { wp_step. split_and!; [done..|]. by intros ->. }
    destruct (Hrc eq_refl) as (i & Hi & El & Hsl & Hnone).
    destruct (decide (i = 4%nat)) as [->|Hne]; [done|].
    replace (4 - i)%nat with (S (4 - S i)) in El by lia. cbn [seq] in El. injection El as -> ->.
    eapply wp_mono; [apply (request_slot_step n lun base i w'); try done; lia|].
    intros rc w2 (Ho2 & Hv2 & Hk2 & Hrc2). split_and!; [done|done|by eapply others_kept_trans|].
    intros E. destruct (Hrc2 E) as [Hsl2 Hn2]. exists (S i). split_and!; [lia|done|done|]. intros _.
    destruct i as [|i]; [|apply Hnone; lia].
    destruct (on_vector (w_vme w) (slot_irq base 0%nat)) as [y|] eqn:E0; [|done].
    apply (ok_vec _ _ _ Hk) in E0. congruence.
  - split_and!; [done|done|apply others_kept_refl|]. intros _. exists 0%nat. split_and!; [lia|done| |lia].
    split; [|lia|lia]. exists dev. split_and!; [done|done|lia].
  - intros rc w' (Ho & Hv' & Hk & Hrc). split_and!; [done..|]. intros E. destruct (Hrc E) as (i & Hi & El & Hsl & Hnone).
    destruct (decide (i = 4%nat)) as [->|Hne].
    + split; [done|]. apply Hnone. lia.
    + replace (4 - i)%nat with (S (4 - S i)) in El by lia. done.
Qed.

Lemma device_init_step ps n lun addr base w : progress ps n w → (n < 16)%nat → params_ok ps →
  p_lun ps !! n = Some lun → p_irq ps !! n = Some base →
  wp (device_init vmodio_interrupt_addr device_table_addr n lun addr base) (λ rc w',
    vmodio_ok (w_vmodio w') ∧ vme_ok (w_vme w') ∧ w_register w' = w_register w ∧ (rc = 0 → progress ps (S n) w')) w.
Proof.
  intros [Hok Hv Hdone] Hn [Hl Hq] El Eb. eapply Forall_lookup_1 in Hl; [|exact El].
  eapply Forall_lookup_1 in Hq; [|exact Eb]. destruct Hq as [Hb Hm]. unfold device_init, on_vme, vmodio_map.
  wp_step. apply wp_upd_device. wp_step. apply wp_zoom. cbn [w_vme].
  eapply wp_mono; [by apply find_controller_law|]. intros va v' [Hv' Hvec]. wp_step. apply wp_upd_device.
  destruct w as [v r s]. cbn [w_vme w_vmodio w_register] in *. change (on_vector v' = on_vector v) in Hvec.
  set (f1 := λ dev : vmodio, dev <| vm_lun := lun |> <| vme_addr := addr |>).
  set (f2 := λ dev : vmodio, dev <| vaddr := va |>).
  set (s2 := s <| device_table := alter f2 n (alter f1 n (device_table s)) |>).
  assert (Hok2 : vmodio_ok s2).
  { destruct s as [t k l q m], Hok as [O1 O2 O3 O4 O5 O6]. simpl in *. split; simpl; try done.
    - by rewrite !length_alter.
    - apply Forall_alter; [apply Forall_alter; [done|]|]; by intros [].
    - apply Forall_alter; [apply Forall_alter; [done|]|]; by intros []. }
  change (wp (if va =? u64 (- 1) then mret (- 1) else
    luns ← on_vmodio (gets irq_to_lun);
    luns' ← lift_opt (array_set luns (upper_nibble_of base) lun);
    on_vmodio (modify (λ s : VS, s <| irq_to_lun := luns' |>));;
    mfold (λ rc i, if truthy rc then mret rc else request_slot vmodio_interrupt_addr device_table_addr n lun base i) 0 (seq 0 VMODIO_SLOTS))
    (λ rc w', vmodio_ok (w_vmodio w') ∧ vme_ok (w_vme w') ∧ w_register w' = r ∧ (rc = 0 → progress ps (S n) w'))
    (mk_vmodio_world v' r s2)).
  wp_step; [wp_step; split_and!; done|].
  wp_step. unfold on_vmodio at 1. apply wp_zoom. wp_step. wp_step.
  assert (Hset : array_set (irq_to_lun s2) (upper_nibble_of base) lun = Some (<[Z.to_nat (upper_nibble_of base) := lun]> (irq_to_lun s2))).
  { apply array_set_Some. split; [|done]. rewrite (vo_to_lun _ Hok2), upper_nibble_div. apply Z.mod_pos_bound. done. }
  set (l' := <[Z.to_nat (upper_nibble_of base) := lun]> (irq_to_lun s2)) in *.
  cbn [w_vmodio]. unfold wp at 1, lift_opt. rewrite Hset. cbn [fmap option_fmap option_map].
  change (wp (on_vmodio (modify (λ s : VS, s <| irq_to_lun := l' |>));;
    mfold (λ rc i, if truthy rc then mret rc else request_slot vmodio_interrupt_addr device_table_addr n lun base i) 0 (seq 0 VMODIO_SLOTS))
    (λ rc w', vmodio_ok (w_vmodio w') ∧ vme_ok (w_vme w') ∧ w_register w' = r ∧ (rc = 0 → progress ps (S n) w'))
    (mk_vmodio_world v' r s2)).
  wp_step. unfold on_vmodio at 1. apply wp_zoom. wp_step. cbn [w_vmodio].
  assert (Hdev : ∃ dev, device_table s2 !! n = Some dev ∧ vm_lun dev = lun).
  { destruct (lookup_lt_is_Some_2 (device_table s) n) as [dev Hdev]; [rewrite (vo_table _ Hok); unfold MAX_DEVICES; lia|].
    exists (f2 (f1 dev)). destruct s as [t k l q m]. simpl in *. rewrite !list_lookup_alter_eq, Hdev. by destruct dev. }
  assert (Hold : ∀ d, d ≠ n → device_table s2 !! d = device_table s !! d).
  { intros d Hd. destruct s as [t k l q m]. simpl. by rewrite !list_lookup_alter_ne. }
  assert (Hlold : irq_to_lun s2 = irq_to_lun s) by by destruct s.
  eapply wp_mono; [apply (request_slots n lun base); try done|].
  { cbn [w_vmodio]. destruct s2 as [t k l q m], Hok2 as [O1 O2 O3 O4 O5 O6]. simpl in *. split; simpl; try done.
    rewrite (array_set_length _ _ _ _ Hset). done. }
  intros rc w' (Ho & Hv2 & Hk & Hrc). split_and!; [done|done|apply (ok_reg _ _ _ Hk)|]. intros E.
  destruct (Hrc E) as [[(dev & Hdev' & Hdl & Hdi) Hbase Hserved] Hnone]. change (on_vector v' (slot_irq base 0%nat) = None) in Hnone.
  specialize (Hbase ltac:(lia)). split; [done|done|]. intros d lun' base' Hd El' Eb'.
  assert (El2 : irq_to_lun (w_vmodio w') = l').
  { by rewrite (ok_lun _ _ _ Hk). }
  destruct (decide (d = n)) as [->|Hne].
  - simplify_eq. split; [done| |by rewrite El2, (array_set_get _ _ _ _ _ Hset), decide_True|done].
    exists dev. split_and!; [done|done|]. apply list_eq. intros j.
    destruct (decide (j < 4)%nat) as [Hj|Hj].
    + rewrite Hdi by done. symmetry. rewrite list_lookup_fmap, lookup_seq_lt by done. done.
    + assert (Hlen : length (vm_irq dev) = VMODIO_SLOTS) by (pose proof (vo_irqs _ Ho) as Hf; by eapply Forall_lookup_1 in Hf).
      rewrite !lookup_ge_None_2; [done|rewrite length_fmap, length_seq; lia|rewrite Hlen; unfold VMODIO_SLOTS; lia].
  - destruct (Hdone d lun' base' ltac:(lia) El' Eb') as [Db Dd Dl Ds].
    assert (Dserved : ∀ i, (i < 4)%nat → served w' d base' i).
    { intros i Hi. apply (ok_vec _ _ _ Hk). transitivity (on_vector v' (slot_irq base' i)); [done|].
      rewrite Hvec. by apply Ds. }
    split; [done| | |done].
    + rewrite (ok_devs _ _ _ Hk d Hne). destruct Dd as (dv & Hdv & ?). exists dv. split; [|done].
      transitivity (device_table s2 !! d); [done|]. by rewrite Hold.
    + rewrite El2, (array_set_get _ _ _ _ _ Hset). rewrite decide_False; [by rewrite Hlold|].
      intros Enib. assert (base' = base) as -> by (destruct Db; by apply upper_nibble_base).
      specialize (Ds 0%nat ltac:(lia)). unfold served in Ds. cbn [w_vme] in Ds. rewrite <- Hvec in Ds. congruence.
Qed.

(** ** All devices *)

Lemma init_devices_progress ps w : progress ps 0 w → params_ok ps → (length (p_lun ps) < MAX_DEVICES)%nat →
  length (p_lun ps) = length (p_base_address ps) → length (p_lun ps) = length (p_irq ps) →
  wp (init_devices vmodio_interrupt_addr device_table_addr ps) (λ rc w',
    w_register w' = w_register w ∧ (rc = 0 → progress ps (length (p_lun ps)) w')) w.
Proof.
  intros Hpr Hps Hlen Hbl Hql. unfold init_devices. set (n := length (p_lun ps)) in *.
  eapply wp_mono; [apply (wp_mfold _ (λ l rc w', w_register w' = w_register w ∧
    (rc = 0 → ∃ i, (i <= n)%nat ∧ l = seq i (n - i) ∧ progress ps i w')))|].
  - intros x l rc w' (Hreg & Hrc). unfold truthy at 1. destruct (Z.eqb_spec rc 0) as [->|Hne]; cbn [negb].
    2: { wp_step. split; [done|]. by intros ->. }
    destruct (Hrc eq_refl) as (i & Hi & El & Hp).
    destruct (decide (i = n)) as [->|Hne]; [by rewrite Nat.sub_diag in El|].
    replace (n - i)%nat with (S (n - S i)) in El by lia. cbn [seq] in El. injection El as -> ->.
    destruct (lookup_lt_is_Some_2 (p_lun ps) i) as [lun Hlun]; [lia|].
    destruct (lookup_lt_is_Some_2 (p_base_address ps) i) as [ba Hba]; [lia|].
    destruct (lookup_lt_is_Some_2 (p_irq ps) i) as [q Hq]; [lia|].
    wp_step. apply (wp_lift_opt _ _ _ _ Hlun). wp_step. apply (wp_lift_opt _ _ _ _ Hba).
    wp_step. apply (wp_lift_opt _ _ _ _ Hq). wp_step. eapply wp_mono; [apply (device_init_step ps i lun ba q w'); try done; unfold MAX_DEVICES in *; lia|].
    intros rc w2 (Ho & Hv & Hr & Hdone). unfold truthy. destruct (Z.eqb_spec rc 0) as [->|Hne']; cbn [negb].
    2: { wp_step. split; [congruence|]. by intros ->. }
    wp_step. unfold on_vmodio. apply wp_zoom. wp_step. wp_step. split; [by rewrite <- Hreg|]. intros _.
    exists (S i). split_and!; [lia|done|]. destruct (Hdone eq_refl) as [[O1 O2 O3 O4 O5 O6] Q2 Q3].
    split; [by split|done|]. intros d lun' base' Hd H1 H2. by destruct (Q3 d lun' base' Hd H1 H2).
  - split; [done|]. intros _. exists 0%nat. split_and!; [lia|by rewrite Nat.sub_0_r|done].
  - intros rc w' [Hr Hrc]. split; [done|]. intros E. destruct (Hrc E) as (i & Hi & El & Hp).
    destruct (decide (i = n)) as [->|]; [done|]. by replace (n - i)%nat with (S (n - S i)) in El by lia.
Qed.

(** ** Interrupts *)

Lemma read_cell_at (t : list vmodio) (d i : nat) dev : (i < 4)%nat → t !! d = Some dev →
  read_cell device_table_addr t (cell d i) = vm_irq dev !! i.
Proof.
  intros Hi Hd. unfold read_cell, irq_cell.
  replace (device_table_addr + 40 * Z.of_nat d + 24 + 4 * Z.of_nat i - device_table_addr) with (24 + 4 * Z.of_nat i + Z.of_nat d * 40) by lia.
  set (k := 24 + 4 * Z.of_nat i).
  assert (Hq : (k + Z.of_nat d * 40) / 40 = Z.of_nat d) by (rewrite Z.div_add, (Z.div_small k 40) by lia; lia).
  assert (Hm : (k + Z.of_nat d * 40) mod 40 = k) by (rewrite Z.mod_add, Z.mod_small; lia).
  assert (H4 : (k + Z.of_nat d * 40) mod 4 = 0).
  { replace (k + Z.of_nat d * 40) with ((6 + Z.of_nat i + Z.of_nat d * 10) * 4) by lia. by apply Z.mod_mul. }
  rewrite Hq, Hm, H4, array_get_nat, Hd. cbn [mbind option_bind].
  rewrite (proj2 (Z.leb_le 24 k)) by lia. cbn [Z.eqb andb].
  replace (k - 24) with (Z.of_nat i * 4) by lia. by rewrite Z.div_mul, array_get_nat by lia.
Qed.

(** States that calls of [register_isr] lead to. *)
Definition registers (s s' : VS) : Prop := ∃ c dv b p r, register_isr c dv b p s = Some (r, s').

Lemma registers_keep s s' : rtc registers s s' → vmodio_ok s →
  vmodio_ok s' ∧ device_table s' = device_table s ∧ irq_to_lun s' = irq_to_lun s.
Proof.
  induction 1 as [|s1 s2 s3 (c & dv & b & p & r & E) _ IH]; intros Hok; [done|].
  destruct (register_isr_run s1 c dv b p Hok) as (r' & s2' & E' & Hok' & Ht & Hl & _). simplify_eq.
  destruct (IH Hok') as (? & ? & ?). split_and!; [done|congruence..].
Qed.

(** The tables when the loop over the devices starts. *)
Lemma fresh_ok : vmodio_ok (mk_vmodio_state (replicate MAX_DEVICES zero_vmodio) 0 (replicate MAX_DEVICES (- 1))
  (replicate MAX_DEVICES (replicate VMODIO_SLOTS (- 1))) (replicate MAX_DEVICES (replicate VMODIO_SLOTS (mk_callback None None))) : VS).
Proof. split; try done; try (by apply Forall_replicate); by split; [|apply Forall_replicate]. Qed.

(** What an interrupt of slot [i] of the board [lun] does. *)
Definition slot_interrupt {X} (call_isr : C → option D → M X Z) (lun i : Z) : M (VS * X) irqreturn := λ sx,
  match isr_of sx.1 lun i with
  | (None, _) => Some (IRQ_NONE, sx)
  | (Some f, dv) => '(rc, x) ← call_isr f dv sx.2; Some (if rc <? 0 then IRQ_NONE else IRQ_HANDLED, (sx.1, x))
  end.

Lemma interrupt_of_slot {X} (call_isr : C → option D → M X Z) w d lun base (i : nat) (s : VS) x :
  vmodio_ok (w_vmodio w) → device_done w d lun base → (i < 4)%nat → rtc registers (w_vmodio w) s →
  vmodio_interrupt call_isr device_table_addr (cell d i) (s, x) = slot_interrupt call_isr lun (Z.of_nat i) (s, x).
Proof.
  intros Hok [[_ Hm] (dev & Hd & Hl & Hq) Hlun _] Hi Hr. destruct (registers_keep _ _ Hr Hok) as (Hok' & Et & El).
  destruct (irq_roundtrip base i Hi Hm) as [Es Eu].
  unfold vmodio_interrupt, of_vmodio, outside, zoom, gets, lift_opt, mbind, M_bind. cbn [fst snd].
  rewrite Et, (read_cell_at _ d i dev Hi Hd), Hq, list_lookup_fmap, lookup_seq_lt by done.
  cbn [fmap option_fmap option_map Nat.add fst]. rewrite Eu, El, Hlun, Es. cbn [fmap option_fmap option_map fst].
  destruct (dev_of_lun_is_Some lun (device_table s) dev) as [dev' Hdev']; [rewrite Et; by eapply list_elem_of_lookup_2|done|].
  rewrite (within_bounds_true s lun (Z.of_nat i) dev' Hok' Hdev') by lia. cbn [negb fst].
  destruct (lun_in_range s lun dev' Hok' Hdev') as [_ Hr16].
  destruct (table_get_lt _ _ _ lun (Z.of_nat i) (vo_callbacks _ Hok')) as [e He]; [unfold MAX_DEVICES, VMODIO_SLOTS; lia..|].
  unfold slot_interrupt, isr_of, vmodio_carrier_laws, vmodio_isr. cbn [fst snd]. rewrite He. cbn [fmap option_fmap option_map].
  destruct (callback e) as [f|]; [|done]. cbn [fst snd]. unfold mbind, option_bind.
  destruct (call_isr f (mz_dev e) x) as [[rc x']|]; [|done]. by destruct (rc <? 0).
Qed.

End init.

(** * Limits of the driver *)

(** Unused entries of the table answer for unit 0: without any board, a slot of unit 0 has a
    window at address 0. *)
Lemma unit_zero_answers {C D} (a : carrier_as) : get_address_space a 0 1 1 (vmodio_start : vmodio_state C D) =
  Some ((0, slot_window 0 1), vmodio_start).
Proof. done. Qed.

(** The second base number of the example in the file, 130, is not one of a slot 0: the driver
    does not know the slot of any of the numbers it requests for it. *)
Lemma example_irq_slots : (λ i, irq_to_slot (vmodio_irq_shift 130 i)) <$> [0; 1; 2; 3] =
  [Some (- 1); Some (- 1); Some (- 1); Some 2] ∧ upper_nibble_of (vmodio_irq_shift 130 3) ≠ upper_nibble_of 130.
Proof. by vm_compute. Qed.

(** A logical unit beyond the tables stops the kernel instead of being refused. *)
Lemma large_unit_stuck {C D} (cb : option C) (dv : option D) (s : vmodio_state C D) dev : dev_of_lun 16 (device_table s) = Some dev →
  length (mezzanines_callback s) = MAX_DEVICES → register_isr cb dv 16 0 s = None.
Proof.
  intros Hd Hl. unfold register_isr, mbind, M_bind. rewrite within_bounds_run, Hd.
  apply dev_of_lun_Some in Hd as [_ ->]. change (negb _) with false. cbv iota. unfold gets, lift_opt, table_set.
  assert (E : array_get (mezzanines_callback s) 16 = None) by (apply array_get_None; rewrite Hl; unfold MAX_DEVICES; lia).
  by rewrite E.
Qed.
