(* ===== verification/VmodVme.v ===== *)
(** The VMOD/IO carrier on the modelled VME bridge: the calls of
    [src/vmebridge/driver/vme_cesif.c] and [vme_irq.c] that it makes keep what
    [VmodIo.VmeServicesLaws] asks, so its theorem holds for the two drivers together. *)
From S2P Require Import Prelude VmeBus Tsi148Regs Tsi148Attr Tsi148Window KernelIf PciIf VmeMisc.
From S2P Require Import VmeWindow VmeWindowProofs VmeWindowSpec VmeWindowFops Tsi148Dma VmeDma VmeDmaProofs.
From S2P Require Import VmeIrq VmeIrqProofs VmeIrqSpec VmeCesif VmeFrame VmeBridge VmeBridgeSafety VmeBridgeProbe VmeBridgeInit VmeBridgeSpec.
From S2P Require Import VmodBus VmodCarrier VmodIo VmodIoProofs.

Local Open Scope Z_scope.

(** [struct pdparam_master param] of [vmodio.c] *)
Definition vmodio_param : pdparam_master := mk_pdparam_master 1 0 0 1 0 [VME_PG_SHARED; 0; 0].

(** The handler of a vector in the bridge's table, and its argument. *)
Definition vector_of {K C} (s : drv_state K C) (x : Z) : option (Z * Z) :=
  if x <? 0 then None else
  v ← vme_irq_table (d_irq s) !! Z.to_nat x;
  if handler v =? 0 then None else Some (handler v, arg v).

Section bridge.
Context `{KernelLaws K} `{!DmaKernel K} `{!DmaKernelLaws K} `{!PciKernel K} `{ChipLaws C}.
Notation S := (drv_state K C).
(** The task that loads the driver. *)
Variable cur : task.

#[local] Instance bridge_services : VmeServices S := {
  VmodIo.find_controller addr len am off sz := in_win (VmeCesif.find_controller addr len am sz vmodio_param cur);
  VmodIo.vme_request_irq vec h a := in_irq (VmeIrq.vme_request_irq vec h a (Some "vmodio"%string));
  VmodIo.vme_free_irq vec := in_irq (VmeIrq.vme_free_irq vec);
}.

#[local] Hint Resolve resp_wkcall resp_wkdo resp_find : frame.

Lemma resp_find_controller addr len am sz p : resp same_handlers (VmeCesif.find_controller (K := K) (C := C) addr len am sz p cur).
Proof. unfold VmeCesif.find_controller, vme_find_mapping. frame. Qed.

(** Mapping a window for the kernel keeps the block of its descriptor. *)
Lemma drv_find_controller base addr len am sz (s : S) : drv_inv base s →
  wp (in_win (VmeCesif.find_controller addr len am sz vmodio_param cur)) (λ _ s', ∃ base', drv_inv base' s') s.
Proof.
  intros [I1 I2 I5 I3 I4]. unfold in_win. apply wp_zoom.
  eapply wp_mono; [apply (wp_resp same_handlers); [apply resp_find_controller|
    apply (find_return_controller _ addr len am sz vmodio_param cur 0 _ I1)]|].
  intros r w' [Hout Hs]. unfold same_handlers in Hs.
  assert (E : handler_res (verr (br w')) = handler_res (verr (br (d_win s)))) by (unfold handler_res; by rewrite Hs).
  destruct Hout as [(_ & HI & _)|(p & dw & desc & i & _ & HI & _)].
  - exists base. split; try done. change (inv (handler_res (verr (br w')) ⊎ base) w'). by rewrite E.
  - exists ({[+ Block p +]} ⊎ base). split; try done.
    change (inv (handler_res (verr (br w')) ⊎ ({[+ Block p +]} ⊎ base)) w'). rewrite E.
    replace (handler_res (verr (br (d_win s))) ⊎ ({[+ Block p +]} ⊎ base))
      with ({[+ Block p +]} ⊎ (handler_res (verr (br (d_win s))) ⊎ base)) by multiset_solver. done.
Qed.

Lemma wp_in_irq {A} (m : M (irq_state K C) A) (Q : A → S → Prop) (s : S) :
  wp m (λ a i, Q a (s <| d_irq := i |> <| d_win := (d_win s) <| br := ibr i |> |>)) ((d_irq s) <| ibr := br (d_win s) |>) →
  wp (in_irq m) Q s.
Proof. intros Hm. by apply wp_zoom. Qed.

Lemma vector_of_insert (s : S) vec v x : length (vme_irq_table (d_irq s)) = 256%nat → 0 <= vec < 256 → handler v ≠ 0 →
  ∀ s' : S, vme_irq_table (d_irq s') = <[Z.to_nat vec := v]> (vme_irq_table (d_irq s)) →
  vector_of s' x = if decide (x = vec) then Some (handler v, arg v) else vector_of s x.
Proof.
  intros Hlen Hvec Hv s' Ht. unfold vector_of. rewrite Ht. destruct (Z.ltb_spec x 0), (decide (x = vec)) as [->|Hne]; try lia; [done|..].
  - rewrite list_lookup_insert_eq by lia. cbn [mbind option_bind]. by rewrite (proj2 (Z.eqb_neq _ _)).
  - by rewrite list_lookup_insert_ne by lia.
Qed.

Lemma table_request base vec h a n (s : S) : drv_inv base s → 0 <= vec → h ≠ 0 →
  wp (in_irq (VmeIrq.vme_request_irq vec h a n)) (λ rc s',
    (rc < 0 ∧ vector_of s' = vector_of s) ∨
    (rc = 0 ∧ vec < 256 ∧ vector_of s vec = None ∧
     ∀ x, vector_of s' x = if decide (x = vec) then Some (h, a) else vector_of s x)) s.
Proof.
  intros HI Hvec Hh. pose proof (dv_tbl _ _ HI) as Hlen. apply wp_in_irq.
  eapply wp_mono; [apply (request_free_irq vec h a); [apply (dv_lock _ _ HI)|exact Hlen|done|done]|].
  intros rc i (_ & [(Hrc & Ht & _)|(Hrc & v & Hv & Hz & Ht & _)]).
  - left. split; [done|]. unfold vector_of. change (d_irq (_ <| d_win := _ |>)) with i. by rewrite Ht.
  - right. change (vme_irq_table (d_irq s) !! Z.to_nat vec = Some v) in Hv.
    assert (vec < 256) by (apply lookup_lt_Some in Hv; lia). split_and!; [done|done| |].
    + unfold vector_of. rewrite (proj2 (Z.ltb_ge vec 0)), Hv by lia. cbn [mbind option_bind]. by rewrite (proj2 (Z.eqb_eq _ 0)).
    + intros x. by apply (vector_of_insert s vec (mk_vme_irq h a 0 (Some (default "Unknown"%string n)))).
Qed.

Lemma table_free base vec (s : S) : drv_inv base s → 0 <= vec →
  wp (in_irq (VmeIrq.vme_free_irq vec)) (λ _ s', ∀ x, vector_of s' x = vector_of s x ∨ x = vec ∧ vector_of s' x = None) s.
Proof.
  intros HI Hvec. pose proof (dv_tbl _ _ HI) as Hlen. pose proof (dv_lock _ _ HI) as Hlk. apply wp_in_irq.
  assert (Hsame : ∀ i, vme_irq_table i = vme_irq_table (d_irq s) → ∀ x,
    vector_of (s <| d_irq := i |> <| d_win := (d_win s) <| br := ibr i |> |>) x = vector_of s x).
  { intros i Hi x. unfold vector_of. change (d_irq (_ <| d_win := _ |>)) with i. by rewrite Hi. }
  assert (Hgone : ∀ i, vme_irq_table i = <[Z.to_nat vec := no_irq]> (vme_irq_table (d_irq s)) → ∀ x,
    let s' := s <| d_irq := i |> <| d_win := (d_win s) <| br := ibr i |> |> in
    vector_of s' x = vector_of s x ∨ x = vec ∧ vector_of s' x = None).
  { intros i Hi x s'. subst s'. unfold vector_of. change (d_irq (_ <| d_win := _ |>)) with i. rewrite Hi.
    destruct (Z.ltb_spec x 0); [by left|]. destruct (decide (x = vec)) as [->|Hne].
    - right. split; [done|]. destruct (decide (Z.to_nat vec < 256)%nat).
      + rewrite list_lookup_insert_eq by lia. done.
      + by rewrite lookup_ge_None_2 by (rewrite length_insert; lia).
    - left. by rewrite list_lookup_insert_ne by lia. }
  destruct (d_irq s) as [ib tbl lk st en cs]. cbn [vme_irq_table vme_irq_table_lock] in *. subst lk.
  destruct (br (d_win s)) as [k c v] eqn:Eb.
  change ((mk_irq_state ib tbl false st en cs) <| ibr := mk_bridge k c v |>) with (IS k c v tbl false st en cs).
  destruct (decide (256 <= vec)).
  { unfold VmeIrq.vme_free_irq. rewrite Z.geb_leb, (proj2 (Z.leb_le VME_NUM_VECTORS vec)) by (unfold VME_NUM_VECTORS; lia).
    wp_step. intros x. left. by apply Hsame. }
  destruct (lookup_lt_is_Some_2 tbl (Z.to_nat vec) ltac:(lia)) as [vi Hvi].
  destruct (decide (handler vi = 0)) as [Hz|Hz].
  - unfold VmeIrq.vme_free_irq. rewrite Z.geb_leb, (proj2 (Z.leb_gt VME_NUM_VECTORS vec)) by (unfold VME_NUM_VECTORS; lia).
    wp_step. apply wp_lock_table; intros k2.
    { change (truthy (- EINTR)) with true. cbv iota. wp_step. intros x. left. by apply Hsame. }
    change (truthy 0) with false. cbv iota. wp_step. eapply wp_get_irq; [lia|exact Hvi|]. wp_step.
    unfold truthy. rewrite (proj2 (Z.eqb_eq _ 0) Hz). cbn [negb]. cbv iota. wp_step. wp_step. unfold unlock_table.
    wp_step. wp_step. intros x. left. by apply Hsame.
  - apply wp_free_irq with vi; [unfold VME_NUM_VECTORS; lia|done|done|..]; intros k'; [by apply Hgone|].
    intros x. left. by apply Hsame.
Qed.

#[local] Instance bridge_services_laws : VmeServicesLaws S.
Proof.
  refine {| vme_ok s := ∃ base, drv_inv base s; on_vector := vector_of |}.
  - intros s addr len am off sz [base HI]. unfold VmodIo.find_controller, bridge_services.
    eapply wp_mono; [apply wp_and; [by apply (drv_find_controller base)|]|].
    + unfold in_win. apply wp_zoom. eapply wp_mono; [apply (find_return_controller _ addr len am sz vmodio_param cur 0 _ (dv_win _ _ HI))|].
      intros a t _. instantiate (1 := λ _ s', vector_of s' = vector_of s). done.
    + by intros r s' [? ?].
  - intros s vec h a [base HI] Hvec Hh. unfold VmodIo.vme_request_irq, bridge_services.
    eapply wp_mono; [apply wp_and; [apply (drv_irq base); [done|apply resp_request_irq|]|by apply (table_request base)]|].
    + intros i [Hv Hl] Hk. eapply wp_mono; [by apply wp_request_irq_size|]. intros rc i' (E1 & E2 & E3 & E4). by rewrite E2, E4.
    + intros rc s' [HI' Hout]. split; [by exists base|done].
  - intros s vec [base HI] Hvec. unfold VmodIo.vme_free_irq, bridge_services.
    eapply wp_mono; [apply wp_and; [apply (drv_irq base); [done|apply resp_free_irq|]|by apply (table_free base)]|].
    + intros i [Hv Hl] Hk. eapply wp_mono; [by apply wp_free_irq_size|]. intros rc i' (E1 & E2 & E3 & E4). by rewrite E2, E4.
    + intros rc s' [HI' Hout]. split; [by exists base|done].
Defined.
End bridge.

(** * A crate: one board on a running bridge *)

#[local] Instance sim_services : VmeServices sim_S := bridge_services (mk_task 1 "insmod").
#[local] Instance sim_services_laws : VmeServicesLaws sim_S := bridge_services_laws (mk_task 1 "insmod").

Definition sim_crate : vmodio_world nat nat Z Z sim_S := mk_vmodio_world sim_ready registry_start vmodio_start.
Definition sim_params : vmodio_params := mk_params [0] [0x1200] [0x7e].

Lemma sim_ready_inv : vme_ok sim_ready.
Proof.
  exists (module_res sim_ready minors). pose proof sim_ready_ok as [R1 R2 R3 R4 R5 R6 R7]. split; try done.
  intros Hne. by apply R3.
Qed.

Example sim_vmodio_loads : fst <$> vmodio_init 1 2 0x5000 0x6000 sim_params sim_crate = Some 0.
Proof. vm_compute. reflexivity. Qed.


(** A failure leaves the vectors requested before it to a handler that goes away with the
    module: here the second board has the number of the first. *)
Example failed_load_keeps_vectors :
  (λ '(rc, w), (rc, vector_of (w_vme w) 0x7e, used_entries (w_register w))) <$>
    vmodio_init 1 2 0x5000 0x6000 (mk_params [0; 1] [0x1200; 0x1a00] [0x7e; 0x7e]) sim_crate =
  Some (- 1, Some (0x5000, 0x6018), 0).
Proof. vm_compute. reflexivity. Qed.
