(* ===== verification/ModPci.v ===== *)
(** The MOD-PCI carrier, a PCI board with two slots: [src/vmod/driver/mod-pci.c].

    The PCI core and the kernel are the classes of [PciIf] and [KernelIf]; the registers on the
    board are bytes behind [OnboardIO].  The driver keeps the contract of
    [VmodCarrier] with the drivers of the mezzanine boards; the theorems say what its interrupt
    handler calls and what a probe holds and leaves behind. *)
From S2P Require Import Prelude KernelIf PciIf VmodBus VmodCarrier.

Local Open Scope Z_scope.

(** * Constants *)

Definition MAX_DEVICES : nat := 16.
Definition DRIVER_NAME : string := "mod-pci".
Definition MOD_PCI_BIG_BAR : Z := 3.
Definition MOD_PCI_ONBOARD_REGS_BAR : Z := 4.
Definition MOD_PCI_BIG_BAR_SIZE : Z := 4096.
Definition MOD_PCI_ONBOARD_REGS_BAR_SIZE : Z := 4096.
Definition MOD_PCI_SLOTS : nat := 2.
Definition MOD_PCI_SLOT0_OFFSET : Z := 0x000.
Definition MOD_PCI_SLOT1_OFFSET : Z := 0x200.
Definition MOD_PCI_WIDTH : Z := 16.
Definition MOD_PCI_WINDOW_SIZE : Z := 2048.
Definition IORESOURCE_MEM : Z := 0x200.

(** Offsets in [struct onboard] *)
Definition int_stat : Z := 1.
Definition int_disable : Z := 1.
Definition int_enable : Z := 3.
Definition reset_assert : Z := 5.
Definition reset_deassert : Z := 7.

(** * Data *)

(** [struct mod_pci] *)
Record mod_pci := mk_mod_pci {
  mp_lun : Z;
  bus_number : Z;
  slot_number : Z;
  vaddr : Z;
  onboard : Z
}.

Definition zero_mod_pci : mod_pci := mk_mod_pci 0 0 0 0 0.

Record mz_callback (C D : Type) := mk_callback { callback : option C; mz_dev : option D }.
Arguments mk_callback {C D}.
Arguments callback {C D}.
Arguments mz_dev {C D}.

Record modpci_params := mk_params {
  p_lun : list Z;
  p_bus_number : list Z;
  p_slot_number : list Z
}.

Record modpci_state (C D : Type) := mk_modpci_state {
  device_table : list mod_pci;
  devices : Z;
  modpci_callbacks : list (list (mz_callback C D))
}.
Arguments mk_modpci_state {C D}.
Arguments device_table {C D}.
Arguments devices {C D}.
Arguments modpci_callbacks {C D}.

Definition modpci_start {C D} : modpci_state C D :=
  mk_modpci_state (replicate MAX_DEVICES zero_mod_pci) 0 (replicate MAX_DEVICES (replicate MOD_PCI_SLOTS (mk_callback None None))).

(** What the driver uses of [struct pci_dev]; a resource is its start, length and flags. *)
Record pci_dev := mk_pci_dev {
  pd_bus : Z;
  devfn : Z;
  pd_irq : Z;
  pd_resources : list (Z * Z * Z)
}.

Definition PCI_SLOT (devfn : Z) : Z := Z.land (Z.shiftr devfn 3) 0x1f.

(** Byte access to the board. *)
Class OnboardIO (B : Type) := {
  ioread8 : Z → B → Z * B;
  iowrite8 : Z → Z → B → B;
}.

Inductive irqreturn := IRQ_NONE | IRQ_HANDLED.

Section modpci.
Context {C D G R : Type}.
Notation PS := (modpci_state C D).

(** * The entry points *)

(** Only the configured entries are looked at. *)
Definition find_device_by_lun (lun : Z) : M PS (option mod_pci) :=
  t ← gets device_table;
  n ← gets devices;
  i ← lift_opt (search (λ dev, mp_lun dev =? lun) n t);
  mret (i ≫= λ i, t !! i).

Definition modpci_offsets : list Z := [MOD_PCI_SLOT0_OFFSET; MOD_PCI_SLOT1_OFFSET].

Definition get_address_space (asp : carrier_as) (board_number board_position address_space_number : Z) : M PS (Z * carrier_as) :=
  dev ← find_device_by_lun board_number;
  match dev with
  | None => mret (- 1, asp)
  | Some dev =>
    if negb (Z.land board_position (Z.lnot 0x1) =? 0) then mret (- 1, asp) else
    offset ← lift_opt (array_get modpci_offsets board_position);
    mret (0, mk_carrier_as (u64 (vaddr dev + offset)) MOD_PCI_WIDTH (MOD_PCI_WINDOW_SIZE / 4) 1)
  end.

Definition within_range (board slot : Z) : bool :=
  (board >=? 0) && (board <? Z.of_nat MAX_DEVICES) && (slot >=? 0) && (slot <? Z.of_nat MOD_PCI_SLOTS).

Definition modpci_register_isr (cb : option C) (source : option D) (board_number board_position : Z) : M PS Z :=
  if negb (within_range board_number board_position) then mret (- 1) else
  t ← gets modpci_callbacks;
  t' ← lift_opt (table_set t board_number board_position (mk_callback cb source));
  modify (λ s : PS, s <| modpci_callbacks := t' |>);;
  mret 0.

#[export] Instance modpci_carrier : Carrier PS C D := {
  get_space := get_address_space;
  set_isr := modpci_register_isr;
}.

(** * Interrupts *)

Section interrupt.
Context {X B : Type} `{OnboardIO B}.
Variable call_isr : C → option D → M X Z.

(** The driver, the board and the rest of the system. *)
Record interrupt_world := mk_interrupt_world { iw_modpci : PS; iw_board : B; iw_rest : X }.
Notation IW := interrupt_world.
Definition of_modpci {A} (m : M PS A) : M IW A := zoom iw_modpci (λ v (s : IW), s <| iw_modpci := v |>) m.
Definition outside {A} (m : M X A) : M IW A := zoom iw_rest (λ v (s : IW), s <| iw_rest := v |>) m.
Definition read_onboard (a : Z) : M IW Z :=
  zoom iw_board (λ v (s : IW), s <| iw_board := v |>) (λ b, Some (ioread8 a b)).

(** The body of the loop for slot [i]: [Some] result returns. *)
Definition serve_slot (dev : mod_pci) (pending : bool) (i : nat) : M IW (option irqreturn) :=
  if negb pending then mret None else
  t ← of_modpci (gets modpci_callbacks);
  cb ← lift_opt (table_get t (mp_lun dev) (Z.of_nat i));
  match callback cb with
  | None => mret (Some IRQ_NONE)
  | Some f =>
    rc ← outside (call_isr f (mz_dev cb));
    mret (if rc <? 0 then Some IRQ_NONE else None)
  end.

(** [device_id] is the entry [d] of the table. *)
Definition modpci_interrupt (d : nat) : M IW irqreturn :=
  t ← of_modpci (gets device_table);
  dev ← lift_opt (t !! d);
  stat ← read_onboard (onboard dev + int_stat);
  let slot0 := negb (truthy (Z.land stat 1)) in
  let slot1 := negb (truthy (Z.land stat 2)) in
  if negb slot0 && negb slot1 then mret IRQ_NONE else
  r ← mfold (λ (r : option irqreturn) '(pending, i), if r is Some _ then mret r else serve_slot dev pending i)
        None [(slot0, 0%nat); (slot1, 1%nat)];
  mret (default IRQ_HANDLED r).
End interrupt.

(** * Probing and loading *)

Section probe.
Context {K B : Type} `{Kernel K} `{!PciKernel K} `{OnboardIO B}.
(** Other services: all regions of the device at once, the PCI driver. *)
Variable pci_release_regions : K → K.
Variable pci_register_driver : K → Z * K.
Variable pci_unregister_driver : K → K.
Variable gas_ptr : G.
Variable risr_ptr : R.

Record modpci_world := mk_modpci_world {
  w_kern : K;
  w_board : B;
  w_register : registry G R;
  w_modpci : PS
}.
Notation W := modpci_world.

Definition pcall {A} (f : K → A * K) : M W A :=
  zoom w_kern (λ v (s : W), s <| w_kern := v |>) (λ k, Some (f k)).
Definition pdo (f : K → K) : M W () := pcall (λ k, ((), f k)).
Definition on_register {A} (m : M (registry G R) A) : M W A := zoom w_register (λ v (s : W), s <| w_register := v |>) m.
Definition on_modpci {A} (m : M PS A) : M W A := zoom w_modpci (λ v (s : W), s <| w_modpci := v |>) m.
Definition write_onboard (a v : Z) : M W () :=
  modify (λ s : W, s <| w_board := iowrite8 a v (w_board s) |>).
Definition upd_entry (i : nat) (f : mod_pci → mod_pci) : M W () :=
  on_modpci (modify (λ s : PS, s <| device_table := alter f i (device_table s) |>)).
Definition get_entry (i : nat) : M W mod_pci :=
  t ← on_modpci (gets device_table); lift_opt (t !! i).

Definition find_device_config (dev : pci_dev) : M W (option nat) :=
  let bus := pd_bus dev in
  let slot := PCI_SLOT (devfn dev) in
  t ← on_modpci (gets device_table);
  n ← on_modpci (gets devices);
  lift_opt (search (λ e, (bus_number e =? bus) && (slot_number e =? slot)) n t).

(** NULL is 0. *)
Definition map_bar (dev : pci_dev) (bar bar_size : Z) : M W Z :=
  '(start, len, flags) ← lift_opt (array_get (pd_resources dev) bar);
  if negb (truthy (Z.land flags IORESOURCE_MEM)) then mret 0 else
  if len <? bar_size then mret 0 else
  rc ← pcall (pci_request_region bar);
  if negb (rc =? 0) then mret 0 else
  ret ← pcall (ioremap start bar_size);
  if ret =? 0 then pdo pci_release_regions;; mret 0 else mret ret.

Definition modpci_enable_irq (dev : mod_pci) : M W () := write_onboard (onboard dev + int_enable) 0x3.
Definition modpci_disable_irq (dev : mod_pci) : M W () := write_onboard (onboard dev + int_disable) 0x3.
Definition modpci_reset (dev : mod_pci) : M W () :=
  write_onboard (onboard dev + reset_assert) 0x3;;
  write_onboard (onboard dev + reset_deassert) 0x3.

(** From the label [failed_irq] to [failed_map]; [remove] does the same. *)
Definition unmap_bars (cfg : mod_pci) : M W () :=
  pdo (iounmap (onboard cfg));;
  pdo (iounmap (vaddr cfg));;
  pdo (pci_release_region MOD_PCI_ONBOARD_REGS_BAR);;
  pdo (pci_release_region MOD_PCI_BIG_BAR).

Definition probe (dev : pci_dev) : M W Z :=
  cfg ← find_device_config dev;
  match cfg with
  | None => mret (- ENODEV)
  | Some i =>
    rc ← pcall pci_enable_device;
    if rc <? 0 then mret (- ENODEV) else
    va ← map_bar dev MOD_PCI_BIG_BAR MOD_PCI_BIG_BAR_SIZE;
    upd_entry i (λ e : mod_pci, e <| vaddr := va |>);;
    ob ← map_bar dev MOD_PCI_ONBOARD_REGS_BAR MOD_PCI_ONBOARD_REGS_BAR_SIZE;
    upd_entry i (λ e : mod_pci, e <| onboard := ob |>);;
    if (va =? 0) || (ob =? 0) then pdo pci_disable_device;; mret (- ENODEV) else
    cfg ← get_entry i;
    let irq := u8 (pd_irq dev) in
    errno ← pcall (request_irq irq);
    if negb (errno =? 0) then
      modpci_disable_irq cfg;;
      unmap_bars cfg;;
      pdo pci_disable_device;;
      mret (- ENODEV)
    else
      modpci_reset cfg;;
      modpci_enable_irq cfg;;
      mret 0
  end.

(** A device without configuration is a NULL pointer. *)
Definition remove (dev : pci_dev) : M W () :=
  cfg ← find_device_config dev;
  i ← lift_opt cfg;
  cfg ← get_entry i;
  modpci_disable_irq cfg;;
  pdo (free_irq (pd_irq dev));;
  unmap_bars cfg;;
  pdo pci_disable_device.

Definition configure (ps : modpci_params) : M W () :=
  mfold (λ _ device,
    lun ← lift_opt (p_lun ps !! device);
    bus ← lift_opt (p_bus_number ps !! device);
    slot ← lift_opt (p_slot_number ps !! device);
    upd_entry device (λ e : mod_pci, e <| mp_lun := lun |> <| bus_number := bus |> <| slot_number := slot |>)) ()
    (seq 0 (length (p_lun ps))).

Definition modpci_init (ps : modpci_params) : M W Z :=
  rc ← on_register (modulbus_carrier_register DRIVER_NAME (Some gas_ptr) (Some risr_ptr));
  if truthy rc then mret (- 1) else
  let nlun := length (p_lun ps) in
  if decide (MAX_DEVICES ≤ nlun)%nat then mret (- 1) else
  if decide (length (p_bus_number ps) ≠ nlun ∨ length (p_slot_number ps) ≠ nlun) then mret (- 1) else
  configure ps;;
  on_modpci (modify (λ s : PS, s <| devices := Z.of_nat nlun |>));;
  pcall pci_register_driver.

Definition modpci_exit : M W () :=
  pdo pci_unregister_driver;;
  on_register (modulbus_carrier_unregister DRIVER_NAME);;
  mret ().
End probe.
End modpci.

Section proofs.
Context {C D : Type}.
Notation PS := (modpci_state C D).
Implicit Types s : PS.

(** * The contract of carriers *)

Record modpci_ok s : Prop := {
  mo_table : length (device_table s) = MAX_DEVICES;
  mo_devices : 0 <= devices s <= Z.of_nat MAX_DEVICES;
  mo_callbacks : table_shape MAX_DEVICES MOD_PCI_SLOTS (modpci_callbacks s)
}.

Definition dev_of_lun (lun : Z) s : option mod_pci :=
  search (λ dev, mp_lun dev =? lun) (devices s) (device_table s) ≫= λ i, i ≫= λ i, device_table s !! i.

Definition modpci_board s (lun : Z) : option Z := vaddr <$> dev_of_lun lun s.

Definition modpci_isr s (b p : Z) : option C * option D :=
  match table_get (modpci_callbacks s) b p with
  | Some e => (callback e, mz_dev e)
  | None => (None, None)
  end.

Lemma find_device_run s lun : modpci_ok s → find_device_by_lun lun s = Some (dev_of_lun lun s, s).
Proof.
  intros [Ht Hd _]. unfold find_device_by_lun, dev_of_lun, mbind, M_bind, gets, lift_opt.
  destruct (search_total (λ dev, mp_lun dev =? lun) (devices s) (device_table s)) as [r ->]; [lia|]. done.
Qed.

Lemma slot_test p : (Z.land p (Z.lnot 0x1) =? 0) = bool_decide (0 <= p < 2).
Proof.
  assert (E : Z.land p (Z.lnot 0x1) = p - p mod 2) by exact (ldiff_ones p 1 ltac:(lia)).
  rewrite E. pose proof (Z.mod_pos_bound p 2 ltac:(lia)). pose proof (Z.div_mod p 2 ltac:(lia)).
  apply eq_bool_prop_intro. rewrite Is_true_true, Z.eqb_eq, bool_decide_spec.
  split; [lia|]. intros Hp. rewrite Z.mod_small; lia.
Qed.

Lemma modpci_get_address_space_run s a b p n : modpci_ok s → get_address_space a b p n s =
  Some (match dev_of_lun b s with
        | None => (- 1, a)
        | Some dev => if decide (0 <= p < 2) then (0, slot_window (vaddr dev) p) else (- 1, a)
        end, s).
Proof.
  intros Hok. unfold get_address_space. unfold mbind at 1, M_bind at 1. rewrite find_device_run by done.
  destruct (dev_of_lun b s) as [dev|]; [|done]. rewrite slot_test. destruct (decide (0 <= p < 2)) as [Hp|Hp].
  - rewrite bool_decide_eq_true_2 by done. cbn [negb]. unfold mbind, M_bind, lift_opt.
    assert (p = 0 ∨ p = 1) as [-> | ->] by lia; done.
  - by rewrite bool_decide_eq_false_2.
Qed.

#[export] Program Instance modpci_carrier_laws : CarrierLaws PS C D := {|
  carrier_ok := modpci_ok;
  slots := 2;
  board := modpci_board;
  isr_of := modpci_isr;
|}.
Next Obligation.
  intros s a b p n Hok. unfold get_space, modpci_carrier. rewrite modpci_get_address_space_run by done. unfold modpci_board.
  destruct (dev_of_lun b s) as [dev|]; [|exists (- 1), a; split; [done|by left]].
  destruct (decide (0 <= p < 2)) as [Hp|Hp]; [|exists (- 1), a; split; [done|by left]].
  eexists 0, _. split; [done|]. right. eauto.
Qed.
Next Obligation.
  intros s a b p base Hok (dev & Ed & ->)%fmap_Some Hp. unfold get_space, modpci_carrier.
  rewrite modpci_get_address_space_run, Ed by done. by rewrite decide_True.
Qed.
Next Obligation.
  intros s c d b p Hok. unfold set_isr, modpci_carrier, modpci_register_isr, within_range.
  destruct (Z.geb_spec b 0), (Z.ltb_spec b (Z.of_nat MAX_DEVICES)), (Z.geb_spec p 0), (Z.ltb_spec p (Z.of_nat MOD_PCI_SLOTS));
    cbn [andb negb]; try (exists (- 1), s; split_and!; try done; by left).
  destruct (table_set_lt _ _ _ b p (mk_callback c d) (mo_callbacks _ Hok)) as (t' & Ht & Hsh & Hget); [lia..|].
  unfold mbind, M_bind, gets, lift_opt, modify. rewrite Ht. eexists 0, _. split; [done|].
  destruct s as [t n m], Hok as [O1 O2 O3]; simpl in *. split_and!; try done. right. split_and!; try done.
  - unfold modpci_isr. simpl. by rewrite Hget, decide_True.
  - intros b' p' Hne. unfold modpci_isr. simpl. by rewrite Hget, decide_False.
Qed.

(** * Interrupts *)

Section interrupt.
Context {X B : Type} `{OnboardIO B}.
Variable call_isr : C → option D → M X Z.

(** Call the callback of a slot, if the slot is pending and nothing failed before. *)
Definition slot_call (lun : Z) s (r : option irqreturn) (pending : bool) (i : Z) : M X (option irqreturn) := λ x,
  match r, pending with
  | Some r, _ => Some (Some r, x)
  | None, false => Some (None, x)
  | None, true =>
    match modpci_isr s lun i with
    | (None, _) => Some (Some IRQ_NONE, x)
    | (Some f, dv) => '(rc, x) ← call_isr f dv x; Some (if rc <? 0 then Some IRQ_NONE else None, x)
    end
  end.

(** An interrupt: the two low bits of the status are clear for the slots that ask.  Slot 0
    is served first; slot 1 is served only when that went well. *)
Lemma modpci_interrupt_run (d : nat) dev s (b : B) (x : X) : modpci_ok s → device_table s !! d = Some dev → 0 <= mp_lun dev < 16 →
  let '(stat, b') := ioread8 (onboard dev + int_stat) b in
  modpci_interrupt call_isr d (mk_interrupt_world s b x) =
    if Z.testbit stat 0 && Z.testbit stat 1 then Some (IRQ_NONE, mk_interrupt_world s b' x) else
    '(r, x1) ← slot_call (mp_lun dev) s None (negb (Z.testbit stat 0)) 0 x;
    '(r, x2) ← slot_call (mp_lun dev) s r (negb (Z.testbit stat 1)) 1 x1;
    Some (default IRQ_HANDLED r, mk_interrupt_world s b' x2).
Proof.
  intros Hok Hd Hl. destruct (ioread8 (onboard dev + int_stat) b) as [stat b'] eqn:Eio.
  assert (Eb : truthy (Z.land stat 1) = Z.testbit stat 0 ∧ truthy (Z.land stat 2) = Z.testbit stat 1)
    by (split; [exact (truthy_bit stat 0 ltac:(lia))|exact (truthy_bit stat 1 ltac:(lia))]).
  destruct Eb as [E0 E1].
  assert (Hslot : ∀ pending i x, (i < 2)%nat →
    serve_slot call_isr dev pending i (mk_interrupt_world s b' x) =
      '(r, x1) ← slot_call (mp_lun dev) s None pending (Z.of_nat i) x; Some (r, mk_interrupt_world s b' x1)).
  { intros [] i y Hi; [|done]. unfold serve_slot, slot_call, modpci_isr, of_modpci, outside, zoom, gets, lift_opt, mbind, M_bind.
    cbn [negb iw_modpci].
    destruct (table_get_lt _ _ _ (mp_lun dev) (Z.of_nat i) (mo_callbacks _ Hok)) as [e He];
      [unfold MAX_DEVICES, MOD_PCI_SLOTS; lia..|].
    cbv beta iota. change (modpci_callbacks (iw_modpci _)) with (modpci_callbacks s). rewrite He.
    cbn [fmap option_fmap option_map]. destruct (callback e) as [f|]; [|done]. cbn [iw_rest option_bind].
    change (iw_rest _) with y. destruct (call_isr f (mz_dev e) y) as [[rc y']|]; [|done]. simpl. by destruct (rc <? 0). }
  unfold modpci_interrupt. unfold mbind at 1, M_bind at 1, of_modpci at 1, zoom, gets at 1. cbv beta iota.
  unfold mbind at 1, M_bind at 1, lift_opt at 1. cbn [iw_modpci]. rewrite Hd. cbn [fmap option_fmap option_map].
  unfold mbind at 1, M_bind at 1, read_onboard, zoom. cbn [iw_board]. change (iw_board _) with b. rewrite Eio.
  rewrite E0, E1. rewrite !negb_involutive. change (_ <| iw_board := b' |>) with (mk_interrupt_world s b' x).
  destruct (Z.testbit stat 0 && Z.testbit stat 1) eqn:Eb; [done|].
  cbn [mfold]. unfold mbind at 1, M_bind at 1. unfold mbind at 1, M_bind at 1. rewrite Hslot by lia.
  change (Z.of_nat 0) with 0.
  destruct (slot_call (mp_lun dev) s None (negb (Z.testbit stat 0)) 0 x) as [[[r|] x1]|]; [done| |done].
  cbn [mbind option_bind]. unfold mbind at 1, M_bind at 1. rewrite Hslot by lia. change (Z.of_nat 1) with 1.
  destruct (slot_call (mp_lun dev) s None (negb (Z.testbit stat 1)) 1 x1) as [[r2 x2]|]; [|done]. by destruct r2.
Qed.
End interrupt.
End proofs.

(** * Probing *)

(** The regions of a device. *)
Definition is_bar (r : resource) : bool :=
  match r with
  | Reg kind a => (kind =? 1) && (0 <=? a) && (a <? 6)
  | _ => false
  end.

Section probe.
Context {C D G R K B : Type} `{KernelLaws K} `{!PciKernel K} `{!PciKernelLaws K} `{OnboardIO B}.
Notation W := (modpci_world (C := C) (D := D) (G := G) (R := R) (K := K) (B := B)).
Variable pci_release_regions : K → K.
(** No region of the device is held afterwards, and everything else still is. *)
Hypothesis release_regions_live : ∀ k r, multiplicity r (live (pci_release_regions k)) =
  if is_bar r then 0%nat else multiplicity r (live k).
Implicit Types (w : W) (L : gmultiset resource).

Definition held w : gmultiset resource := live (w_kern w).

(** The driver's table is as large as it says. *)
Definition table_ok w : Prop := modpci_ok (w_modpci w).

Definition no_bars L : Prop := ∀ n, Bar n ∉ L.

Lemma wp_pcall {A} (f : K → A * K) (Q : A → W → Prop) k b r s :
  (∀ a k', f k = (a, k') → Q a (mk_modpci_world k' b r s)) → wp (pcall f) Q (mk_modpci_world k b r s).
Proof. intros HQ. unfold pcall. apply wp_zoom. unfold wp. cbn [w_kern]. destruct (f k) as [a k'] eqn:E. by apply HQ. Qed.

Lemma wp_pdo (f : K → K) (Q : () → W → Prop) k b r s :
  Q () (mk_modpci_world (f k) b r s) → wp (pdo f) Q (mk_modpci_world k b r s).
Proof. intros HQ. unfold pdo. apply wp_pcall. by intros a k' [= <- <-]. Qed.

(** What is held after all regions were released. *)
Lemma released k Y X : no_bars Y → live k = X ⊎ Y → (∀ r, is_bar r = false → r ∉ X) → live (pci_release_regions k) = Y.
Proof.
  intros HY Hk HX. apply gmultiset_eq. intros r. rewrite release_regions_live. destruct (is_bar r) eqn:E.
  - destruct r as [| | | | | |kind n]; try done. cbn in E. destruct (Z.eqb_spec kind 1) as [->|]; [|done].
    symmetry. apply not_elem_of_multiplicity, HY.
  - rewrite Hk, multiplicity_disj_union. specialize (HX r E). apply not_elem_of_multiplicity in HX. lia.
Qed.

Lemma bar_not_in r n : is_bar r = false → 0 <= n < 6 → r ∉@{gmultiset resource} {[+ Bar n +]}.
Proof. intros E Hn ->%gmultiset_elem_of_singleton. cbn in E. lia. Qed.

Lemma union_swap (x y z : gmultiset resource) : x ⊎ (y ⊎ z) = y ⊎ x ⊎ z.
Proof. multiset_solver. Qed.

(** A BAR is mapped, or nothing is held; a failing [ioremap] also gives the other BAR's
    region back. *)
Lemma wp_map_bar dev bar size (Q : Z → W → Prop) k b r s : 0 <= bar < 6 → length (pd_resources dev) = 6%nat →
  (∀ k', live k' = live k → Q 0 (mk_modpci_world k' b r s)) →
  (∀ k' k0, live k0 = {[+ Bar bar +]} ⊎ live k → live k' = live (pci_release_regions k0) → Q 0 (mk_modpci_world k' b r s)) →
  (∀ k' a, 0 < a → live k' = {[+ Bar bar; IoMap a +]} ⊎ live k → Q a (mk_modpci_world k' b r s)) →
  wp (map_bar pci_release_regions dev bar size) Q (mk_modpci_world k b r s).
Proof.
  intros Hbar Hlen Hnull Hrel Hok. unfold map_bar. wp_step.
  destruct (array_get_lt (pd_resources dev) bar) as [[[start len] flags] Hres]; [lia|].
  apply (wp_lift_opt _ _ _ _ Hres).
  wp_step; [wp_step; by apply Hnull|]. wp_step; [wp_step; by apply Hnull|]. wp_step. apply wp_pcall.
  intros rc k1 E1. pose proof (request_region_live bar k) as Hl. rewrite E1 in Hl. cbn [fst snd] in Hl.
  destruct Hl as [[Hrc Hl]|[-> Hl]].
  - rewrite (proj2 (Z.eqb_neq _ 0)) by lia. cbn [negb]. wp_step. by apply Hnull.
  - cbn [Z.eqb negb]. wp_step. apply wp_pcall. intros a k2 E2. pose proof (ioremap_live start size k1) as Hl2.
    rewrite E2 in Hl2. cbn [fst snd] in Hl2. destruct Hl2 as [[-> Hl']|[Ha Hl']].
    + cbn [Z.eqb]. wp_step. apply wp_pdo. wp_step. by apply (Hrel _ k2); [rewrite Hl'|].
    + rewrite (proj2 (Z.eqb_neq _ 0)) by lia. wp_step. apply Hok; [done|]. rewrite Hl', Hl. apply union_swap.
Qed.

Lemma find_config_run dev w : table_ok w → ∃ r, find_device_config dev w = Some (r, w) ∧
  ∀ i, r = Some i → (i < MAX_DEVICES)%nat.
Proof.
  intros Hok. destruct w as [k b r s]. pose proof Hok as [Ht Hd _]. cbn in Ht, Hd. unfold find_device_config, on_modpci, zoom, mbind, M_bind, gets, lift_opt.
  destruct (search_total (λ e, (bus_number e =? pd_bus dev) && (slot_number e =? PCI_SLOT (devfn dev))) (devices s) (device_table s)) as [x Hx]; [lia|].
  cbn. rewrite Hx. exists x. split; [done|]. intros i ->. apply search_Some in Hx as (e & He & _).
  apply lookup_lt_Some in He. lia.
Qed.

(** What a probe took: [va] and [ob] are the mapped addresses. *)
Definition probe_res (va ob irq : Z) : gmultiset resource :=
  {[+ PciEnabled; Bar MOD_PCI_BIG_BAR; IoMap va; Bar MOD_PCI_ONBOARD_REGS_BAR; IoMap ob; IrqLine irq +]}.

(** What a probe that mapped one of the two BARs leaves behind. *)
Definition probe_leak (l : gmultiset resource) : Prop :=
  l = ∅ ∨ ∃ a, l = {[+ Bar MOD_PCI_BIG_BAR; IoMap a +]} ∨ l = {[+ IoMap a +]} ∨ l = {[+ Bar MOD_PCI_ONBOARD_REGS_BAR; IoMap a +]}.

Lemma wp_upd_entry i f (Q : () → W → Prop) w :
  Q () (w <| w_modpci := (w_modpci w) <| device_table := alter f i (device_table (w_modpci w)) |> |>) → wp (upd_entry i f) Q w.
Proof. intros HQ. unfold upd_entry, on_modpci. apply wp_zoom. by wp_step. Qed.

Lemma wp_unmap_bars cfg (Q : () → W → Prop) k b r s X :
  live k = {[+ Bar MOD_PCI_BIG_BAR; IoMap (vaddr cfg); Bar MOD_PCI_ONBOARD_REGS_BAR; IoMap (onboard cfg) +]} ⊎ X →
  (∀ k', live k' = X → Q () (mk_modpci_world k' b r s)) → wp (unmap_bars cfg) Q (mk_modpci_world k b r s).
Proof.
  intros Hh HQ. unfold unmap_bars. do 3 (wp_step; apply wp_pdo). apply wp_pdo.
  apply HQ. rewrite !release_region_live, !iounmap_live, Hh. clear. multiset_solver.
Qed.

(** Mapping changes neither the bus nor the slot of an entry. *)
Lemma search_alter {A} (test : A → bool) f i n (l : list A) : (∀ x, test (f x) = test x) → search test n (alter f i l) = search test n l.
Proof.
  intros Hf. unfold search. rewrite length_alter.
  assert (E : ∀ m l, find_idx test (take m (alter f i l)) = find_idx test (take m l)); [|by rewrite E].
  clear - Hf. intros m l. revert i m. induction l as [|x l IH]; intros i [|m]; try done.
  destruct i as [|i]; cbn; [by rewrite Hf|]. destruct (test x); [done|]. by rewrite IH.
Qed.

Definition config_test (dev : pci_dev) (e : mod_pci) : bool :=
  (bus_number e =? pd_bus dev) && (slot_number e =? PCI_SLOT (devfn dev)).

Lemma find_config_at dev k b r s i : search (config_test dev) (devices s) (device_table s) = Some (Some i) →
  find_device_config dev (mk_modpci_world k b r s : W) = Some (Some i, mk_modpci_world k b r s).
Proof. intros E. unfold find_device_config, on_modpci, zoom, mbind, M_bind, gets, lift_opt. cbn.
  change (search _ _ _) with (search (config_test dev) (devices s) (device_table s)). by rewrite E.
Qed.

Lemma wp_remove dev (Q : () → W → Prop) k b r s i e X : search (config_test dev) (devices s) (device_table s) = Some (Some i) →
  device_table s !! i = Some e → live k = probe_res (vaddr e) (onboard e) (pd_irq dev) ⊎ X →
  (∀ k' b', live k' = X → Q () (mk_modpci_world k' b' r s)) → wp (remove dev) Q (mk_modpci_world k b r s).
Proof.
  intros Hs He Hl HQ. unfold remove. wp_step. unfold wp at 1. rewrite (find_config_at _ _ _ _ _ _ Hs). wp_step.
  apply (wp_lift_opt _ _ _ _ eq_refl). wp_step. unfold get_entry. wp_step. unfold on_modpci. apply wp_zoom. wp_step.
  apply (wp_lift_opt _ _ _ _ He). wp_step. unfold modpci_disable_irq, write_onboard. wp_step. wp_step. apply wp_pdo. wp_step.
  apply wp_unmap_bars with ({[+ PciEnabled +]} ⊎ X).
  { change (live (free_irq (pd_irq dev) k) = {[+ Bar MOD_PCI_BIG_BAR; IoMap (vaddr e); Bar MOD_PCI_ONBOARD_REGS_BAR; IoMap (onboard e) +]} ⊎ ({[+ PciEnabled +]} ⊎ X)).
    rewrite free_irq_live, Hl. unfold probe_res. clear. multiset_solver. }
  intros k' Hk'. apply wp_pdo. apply HQ. rewrite disable_live, Hk'. clear. multiset_solver.
Qed.

(** What a probe leads to, when [L] was held before. *)
Definition probe_post dev L (rc : Z) w : Prop :=
  (rc = - ENODEV ∧ ∃ l, probe_leak l ∧ held w = l ⊎ L) ∨
  (rc = 0 ∧ ∃ i e, device_table (w_modpci w) !! i = Some e ∧ 0 < vaddr e ∧ 0 < onboard e ∧
     held w = probe_res (vaddr e) (onboard e) (pd_irq dev) ⊎ L ∧
     wp (remove dev) (λ _ w', held w' = L) w).

Lemma probe_fails dev L l k b r s : probe_leak l → live k = l ⊎ ({[+ PciEnabled +]} ⊎ L) →
  wp (pdo pci_disable_device;; mret (- ENODEV)) (probe_post dev L) (mk_modpci_world k b r s).
Proof.
  intros Hl Hk. wp_step. apply wp_pdo. wp_step. left. split; [done|]. exists l. split; [done|].
  unfold held. cbn [w_kern]. rewrite disable_live, Hk. clear. multiset_solver.
Qed.

Lemma no_bars_enabled L : no_bars L → no_bars ({[+ PciEnabled +]} ⊎ L).
Proof. intros HL n [Hn%gmultiset_elem_of_singleton|Hn]%gmultiset_elem_of_disj_union; [done|by apply (HL n)]. Qed.

(** The second half of [probe], after the first BAR. *)
Definition probe_rest (dev : pci_dev) (i : nat) (va : Z) : M W Z :=
  upd_entry i (λ e : mod_pci, e <| vaddr := va |>);;
  ob ← map_bar pci_release_regions dev MOD_PCI_ONBOARD_REGS_BAR MOD_PCI_ONBOARD_REGS_BAR_SIZE;
  upd_entry i (λ e : mod_pci, e <| onboard := ob |>);;
  if (va =? 0) || (ob =? 0) then pdo pci_disable_device;; mret (- ENODEV) else
  cfg ← get_entry i;
  errno ← pcall (request_irq (u8 (pd_irq dev)));
  if negb (errno =? 0) then
    modpci_disable_irq cfg;; unmap_bars cfg;; pdo pci_disable_device;; mret (- ENODEV)
  else modpci_reset cfg;; modpci_enable_irq cfg;; mret 0.

Lemma rest_without_big dev L i k b r s : length (pd_resources dev) = 6%nat → no_bars L → live k = {[+ PciEnabled +]} ⊎ L →
  wp (probe_rest dev i 0) (probe_post dev L) (mk_modpci_world k b r s).
Proof.
  intros Hlen Hnb Hk. unfold probe_rest. wp_step. apply wp_upd_entry. wp_step. cbn [Z.eqb orb].
  assert (E : ∀ X : gmultiset resource, X = ∅ ⊎ X) by (clear; multiset_solver).
  apply wp_map_bar; [done|done|..].
  - intros k2 Hk2. wp_step. apply wp_upd_entry. apply probe_fails with ∅; [by left|]. by rewrite Hk2, <- E.
  - intros k2 k0 Hk0 Hk2. wp_step. apply wp_upd_entry. apply probe_fails with ∅; [by left|].
    rewrite Hk2, (released k0 (live k) {[+ Bar MOD_PCI_ONBOARD_REGS_BAR +]}); [by rewrite <- E| |done|].
    + rewrite Hk. by apply no_bars_enabled.
    + intros x Hx. by apply bar_not_in.
  - intros k2 a Ha Hk2. wp_step. apply wp_upd_entry. eapply probe_fails; [|by rewrite Hk2, Hk]. right. exists a. auto.
Qed.

Lemma rest_irq dev L i k b r s e : 0 <= pd_irq dev < 256 → search (config_test dev) (devices s) (device_table s) = Some (Some i) →
  device_table s !! i = Some e → 0 < vaddr e → 0 < onboard e →
  live k = {[+ Bar MOD_PCI_BIG_BAR; IoMap (vaddr e); Bar MOD_PCI_ONBOARD_REGS_BAR; IoMap (onboard e) +]} ⊎ ({[+ PciEnabled +]} ⊎ L) →
  wp (cfg ← get_entry i;
      errno ← pcall (request_irq (u8 (pd_irq dev)));
      if negb (errno =? 0) then
        modpci_disable_irq cfg;; unmap_bars cfg;; pdo pci_disable_device;; mret (- ENODEV)
      else modpci_reset cfg;; modpci_enable_irq cfg;; mret 0) (probe_post dev L) (mk_modpci_world k b r s).
Proof.
  intros Hirq Hcfg He Hva Hob Hk. wp_step. unfold get_entry. wp_step. unfold on_modpci. apply wp_zoom. wp_step.
  apply (wp_lift_opt _ _ _ _ He). wp_step. apply wp_pcall. intros errno k2 E2.
  assert (Eu : u8 (pd_irq dev) = pd_irq dev) by (apply Z.mod_small; lia).
  pose proof (request_irq_live (u8 (pd_irq dev)) k) as Hl. rewrite E2, Eu in Hl. cbn [fst snd] in Hl.
  destruct Hl as [[Hrc Hl]|[-> Hl]].
  - rewrite (proj2 (Z.eqb_neq errno 0)) by lia. cbn [negb]. wp_step. unfold modpci_disable_irq, write_onboard. wp_step. wp_step.
    apply wp_unmap_bars with ({[+ PciEnabled +]} ⊎ L); [by rewrite <- Hk|]. intros k3 Hk3.
    apply probe_fails with ∅; [by left|]. rewrite Hk3. clear. multiset_solver.
  - cbn [Z.eqb negb]. wp_step. unfold modpci_reset, modpci_enable_irq, write_onboard. wp_steps. right. split; [done|].
    assert (E : live k2 = probe_res (vaddr e) (onboard e) (pd_irq dev) ⊎ L).
    { rewrite Hl, Hk. unfold probe_res. clear. multiset_solver. }
    exists i, e. split_and!; [done|done|done|exact E|].
    eapply wp_remove; [exact Hcfg|exact He|exact E|]. intros k3 b3 Hk3. exact Hk3.
Qed.

Lemma rest_with_big dev L i va k b r s : modpci_ok s → length (pd_resources dev) = 6%nat → no_bars L → 0 <= pd_irq dev < 256 →
  search (config_test dev) (devices s) (device_table s) = Some (Some i) → 0 < va →
  live k = {[+ Bar MOD_PCI_BIG_BAR; IoMap va +]} ⊎ ({[+ PciEnabled +]} ⊎ L) →
  wp (probe_rest dev i va) (probe_post dev L) (mk_modpci_world k b r s).
Proof.
  intros [Ht _ _] Hlen Hnb Hirq Hcfg Hva Hk. unfold probe_rest. wp_step. apply wp_upd_entry. wp_step.
  rewrite (proj2 (Z.eqb_neq va 0)) by lia. cbn [orb].
  apply wp_map_bar; [done|done|..].
  - intros k2 Hk2. wp_step. apply wp_upd_entry. eapply probe_fails; [|by rewrite Hk2, Hk]. right. exists va. auto.
  - intros k2 k0 Hk0 Hk2. wp_step. apply wp_upd_entry. apply probe_fails with {[+ IoMap va +]}; [right; exists va; auto|].
    rewrite Hk2. apply (released k0 _ {[+ Bar MOD_PCI_ONBOARD_REGS_BAR; Bar MOD_PCI_BIG_BAR +]}).
    + intros n [Hn%gmultiset_elem_of_singleton|Hn]%gmultiset_elem_of_disj_union; [done|by apply (no_bars_enabled L Hnb n)].
    + rewrite Hk0, Hk. clear. multiset_solver.
    + intros x Hx [Hn|Hn]%gmultiset_elem_of_disj_union; by eapply bar_not_in in Hn.
  - intros k2 ob Hob Hk2. wp_step. apply wp_upd_entry. rewrite (proj2 (Z.eqb_neq ob 0)) by lia.
    set (f1 := λ e : mod_pci, e <| vaddr := va |>). set (f2 := λ e : mod_pci, e <| onboard := ob |>).
    assert (Hlt : (i < length (device_table s))%nat).
    { apply search_Some in Hcfg as (x & Hx & _). by apply lookup_lt_Some in Hx. }
    apply lookup_lt_is_Some_2 in Hlt as [e0 He0].
    apply (rest_irq dev L i _ _ _ _ (f2 (f1 e0))); try done.
    + destruct s as [t n m]. cbn [devices device_table w_modpci] in *. simpl.
      rewrite !search_alter; [done|by intros []..].
    + destruct s as [t n m]. simpl in *. rewrite !list_lookup_alter_eq, He0. done.
    + change (vaddr (f2 (f1 e0))) with va. change (onboard (f2 (f1 e0))) with ob. rewrite Hk2, Hk. clear. multiset_solver.
Qed.

(** A probe and a removal.  A probe that succeeds has enabled the device, mapped both BARs and taken the
    interrupt line, and removal gives exactly that back.  One that fails gives everything
    back, except when one BAR only could be mapped: its mapping stays, with its region
    unless the other mapping failed in [ioremap]. *)
Theorem modpci_probe_remove dev k b r s : modpci_ok s → no_bars (live k) → length (pd_resources dev) = 6%nat → 0 <= pd_irq dev < 256 →
  wp (probe pci_release_regions dev) (probe_post dev (live k)) (mk_modpci_world k b r s).
Proof.
  intros Hok Hnb Hlen Hirq.
  assert (Hnone : ∀ k', live k' = live k → probe_post dev (live k) (- ENODEV) (mk_modpci_world k' b r s)).
  { intros k' E. left. split; [done|]. exists ∅. split; [by left|]. unfold held. cbn [w_kern]. rewrite E. clear. multiset_solver. }
  unfold probe. wp_step.
  destruct (find_config_run dev (mk_modpci_world k b r s) Hok) as (c & Hc & Hi). unfold wp at 1. rewrite Hc.
  destruct c as [i|]; [|wp_step; by apply Hnone].
  assert (Hcfg : search (config_test dev) (devices s) (device_table s) = Some (Some i)).
  { revert Hc. unfold find_device_config, on_modpci, zoom, mbind, M_bind, gets, lift_opt. cbn.
    change (search _ _ _) with (search (config_test dev) (devices s) (device_table s)).
    by destruct (search (config_test dev) _ _) as [c|]; intros [= ->]. }
  wp_step. apply wp_pcall. intros rc k1 E1. pose proof (enable_live k) as He. rewrite E1 in He. cbn [fst snd] in He.
  destruct He as [[Hrc He]|[-> He]].
  { rewrite (proj2 (Z.ltb_lt rc 0)) by lia. wp_step. by apply Hnone. }
  change (0 <? 0) with false. cbv iota. wp_step. apply wp_map_bar; [done|done|..].
  - intros k2 Hk2. apply (rest_without_big dev (live k) i); [done|done|by rewrite Hk2].
  - intros k2 k0 Hk0 Hk2. apply (rest_without_big dev (live k) i); [done|done|]. rewrite Hk2.
    apply (released k0 _ {[+ Bar MOD_PCI_BIG_BAR +]}); [by apply no_bars_enabled|by rewrite Hk0, He|].
    intros x Hx. by apply bar_not_in.
  - intros k2 va Hva Hk2. apply (rest_with_big dev (live k) i va); try done. by rewrite Hk2, He.
Qed.
End probe.
