(* ===== verification/VmodLunargs.v ===== *)
(** The module parameters of the mezzanine drivers: [src/vmod/driver/lunargs.c].

    A mezzanine board is named by a carrier, the logical unit of a board of it and a slot.  The drivers look the carrier up
    in the register and ask its entry point for the window of the slot.  They are proved against
    the contract of carriers ([CarrierFns] over [VmodCarrier.CarrierLaws]). *)
From S2P Require Import Prelude VmodBus VmodCarrier.

Local Open Scope Z_scope.

Definition VMOD_MAX_BOARDS : nat := 64.

(** [struct vmod_dev] *)
Record vmod_dev := mk_vmod_dev {
  vd_lun : Z;
  carrier_name : string;
  carrier_lun : Z;
  vd_slot : Z;
  address : Z;
  is_big_endian : Z
}.

Definition zero_dev : vmod_dev := mk_vmod_dev 0 "" 0 0 0 0.

(** [struct vmod_devices] *)
Record vmod_devices := mk_vmod_devices {
  num_modules : Z;
  modules : list vmod_dev
}.

Definition zero_devices : vmod_devices := mk_vmod_devices 0 (replicate VMOD_MAX_BOARDS zero_dev).

(** The module parameters; the kernel sets the counts to the lengths, 64 at most. *)
Record vmod_params := mk_vmod_params {
  p_lun : list Z;
  p_carrier : list string;
  p_carrier_number : list Z;
  p_slot : list Z
}.

(** * Calls through entry points *)

(** A call of the [get_address_space] at an address. *)
Class CarrierFns (S G : Type) := call_gas : G → carrier_as → Z → Z → Z → M S (Z * carrier_as).

Class CarrierFnsLaws (S G : Type) `{CarrierFns S G} := {
  fns_ok : S → Prop;
  fn_slots : G → Z;
  fn_board : S → G → Z → option Z;
  call_gas_law s g a b p : fns_ok s →
    ∃ r a', call_gas g a b p 1 s = Some (r, a', s) ∧
      ((r < 0 ∧ ∀ base, fn_board s g b = Some base → ¬ 0 <= p < fn_slots g) ∨
       (r = 0 ∧ ∃ base, fn_board s g b = Some base ∧ 0 <= p < fn_slots g ∧ a' = slot_window base p));
}.

(** Two carrier drivers side by side: the addresses of their entry points. *)
Inductive carrier_fn := First | Second.

#[global] Instance carrier_fn_dec : EqDecision carrier_fn.
Proof. solve_decision. Defined.

Section two.
Context {S1 S2 C D : Type} `{CarrierLaws S1 C D, CarrierLaws S2 C D}.

#[export] Instance two_carriers : CarrierFns (S1 * S2) carrier_fn := λ g a b p n,
  match g with
  | First => zoom fst (λ v s, (v, s.2)) (get_space (C := C) (D := D) a b p n)
  | Second => zoom snd (λ v s, (s.1, v)) (get_space (C := C) (D := D) a b p n)
  end.

Lemma get_space_1 {S} `{CarrierLaws S C D} (s : S) a b p : carrier_ok s →
  ∃ r a', get_space a b p 1 s = Some (r, a', s) ∧
    ((r < 0 ∧ ∀ base, board s b = Some base → ¬ 0 <= p < slots) ∨
     (r = 0 ∧ ∃ base, board s b = Some base ∧ 0 <= p < slots ∧ a' = slot_window base p)).
Proof.
  intros Hok. destruct (get_space_law s a b p 1 Hok) as (r & a' & E & [[Hr ->]|Hr]); [|exists r, a'; auto].
  exists r, a. split; [done|]. left. split; [done|]. intros base Hb Hp.
  rewrite (get_space_works s a b p base) in E by done. simplify_eq. lia.
Qed.

#[export] Instance two_carriers_laws : CarrierFnsLaws (S1 * S2) carrier_fn.
Proof.
  refine {| fns_ok s := carrier_ok s.1 ∧ carrier_ok s.2;
            fn_slots g := match g with First => slots (S := S1) | Second => slots (S := S2) end;
            fn_board s g b := match g with First => board s.1 b | Second => board s.2 b end |}.
  intros [s1 s2] [|] a b p [H1' H2']; cbn [fst snd] in *; unfold call_gas, two_carriers, zoom; cbn [fst snd].
  - destruct (get_space_1 s1 a b p H1') as (r & a' & E & Hr). rewrite E. by exists r, a'.
  - destruct (get_space_1 s2 a b p H2') as (r & a' & E & Hr). rewrite E. by exists r, a'.
Defined.
End two.

(** * Reading the parameters *)

Section lunargs.
Context {S G R : Type} `{CarrierFns S G}.
(** What [struct carrier_as as] holds before it is filled in. *)
Variable as0 : carrier_as.

Record lunargs_world := mk_lunargs_world {
  w_register : registry G R;
  w_carriers : S;
  w_devs : vmod_devices
}.
Notation W := lunargs_world.

Definition on_register {A} (m : M (registry G R) A) : M W A := zoom w_register (λ v (s : W), s <| w_register := v |>) m.
Definition on_carriers {A} (m : M S A) : M W A := zoom w_carriers (λ v (s : W), s <| w_carriers := v |>) m.

(** [devs->module[i] = dev] *)
Definition set_module (i : nat) (dev : vmod_dev) : M W () :=
  l ← gets (λ s : W, modules (w_devs s));
  l' ← lift_opt (array_set l (Z.of_nat i) dev);
  modify (λ s : W, s <| w_devs := (w_devs s) <| modules := l' |> |>).

Definition set_module_params (i : nat) (lun : Z) (cname : string) (carrier_lun slot : Z) : M W Z :=
  if lun <? 0 then mret (- 1) else
  g ← on_register (modulbus_carrier_as_entry cname);
  match g with
  | None => mret (- 1)
  | Some g =>
    '(r, asp) ← on_carriers (call_gas g as0 carrier_lun slot 1);
    if r <? 0 then mret (- 1) else
    set_module i (mk_vmod_dev lun cname carrier_lun slot (as_address asp) (as_is_big_endian asp));;
    mret 0
  end.

Definition read_params (ps : vmod_params) : M W Z :=
  let num_lun := length (p_lun ps) in
  if decide (num_lun ≠ length (p_carrier ps) ∨ num_lun ≠ length (p_carrier_number ps) ∨ num_lun ≠ length (p_slot ps) ∨
             VMOD_MAX_BOARDS ≤ num_lun)%nat then mret (- 1) else
  rc ← mfold (λ rc i,
    if truthy rc then mret rc else
    lun ← lift_opt (p_lun ps !! i);
    cname ← lift_opt (p_carrier ps !! i);
    number ← lift_opt (p_carrier_number ps !! i);
    slot ← lift_opt (p_slot ps !! i);
    rc ← set_module_params i lun cname number slot;
    mret (if truthy rc then - 1 else 0)) 0 (seq 0 num_lun);
  if truthy rc then mret rc else
  modify (λ s : W, s <| w_devs := (w_devs s) <| num_modules := Z.of_nat num_lun |> |>);;
  mret 0.
End lunargs.
Arguments lunargs_world : clear implicits.

Definition lun_to_index (devs : vmod_devices) (lun : Z) : option Z :=
  r ← search (λ m, lun =? vd_lun m) (num_modules devs) (modules devs);
  Some (match r with Some i => Z.of_nat i | None => - 1 end).

(** * The windows of the boards *)

(** Row [i] of the parameters. *)
Definition row (ps : vmod_params) (i : nat) : option (Z * string * Z * Z) :=
  lun ← p_lun ps !! i;
  cname ← p_carrier ps !! i;
  number ← p_carrier_number ps !! i;
  slot ← p_slot ps !! i;
  Some (lun, cname, number, slot).

Section proofs.
Context {S G R : Type} `{CarrierFnsLaws S G}.
Variable as0 : carrier_as.
Notation W := (lunargs_world S G R).
Implicit Types (w : W) (ps : vmod_params).

(** The slot with the name [cname], board [number], slot [slot] is that of entry point [g], at [base]. *)
Definition place w (cname : string) (number slot : Z) (g : G) (base : Z) : Prop :=
  (registered (w_register w) !! cname ≫= fst) = Some g ∧ fn_board (w_carriers w) g number = Some base ∧ 0 <= slot < fn_slots g.

(** Each row names a board and a slot that exist. *)
Definition params_valid ps w : Prop :=
  length (p_carrier ps) = length (p_lun ps) ∧ length (p_carrier_number ps) = length (p_lun ps) ∧
  length (p_slot ps) = length (p_lun ps) ∧ (length (p_lun ps) < VMOD_MAX_BOARDS)%nat ∧
  ∀ i lun cname number slot, row ps i = Some (lun, cname, number, slot) → 0 <= lun ∧ ∃ g base, place w cname number slot g base.

(** Module [i] describes row [i]. *)
Definition module_done ps w (i : nat) (devs : vmod_devices) : Prop :=
  ∀ lun cname number slot, row ps i = Some (lun, cname, number, slot) →
    0 <= lun ∧ ∃ g base, place w cname number slot g base ∧
      modules devs !! i = Some (mk_vmod_dev lun cname number slot (as_address (slot_window base slot)) 1).

Record world_ok w : Prop := {
  wo_register : registry_ok (w_register w);
  wo_carriers : fns_ok (w_carriers w);
  wo_modules : length (modules (w_devs w)) = VMOD_MAX_BOARDS
}.

(** The register and the carriers stay. *)
Definition same_places w w' : Prop :=
  registered (w_register w') = registered (w_register w) ∧ w_carriers w' = w_carriers w.

Lemma place_same w w' cname number slot g base : same_places w w' → place w' cname number slot g base ↔ place w cname number slot g base.
Proof. intros [E1 E2]. unfold place. by rewrite E1, E2. Qed.

Lemma set_module_params_step i lun cname number slot w : world_ok w → (i < VMOD_MAX_BOARDS)%nat →
  wp (set_module_params as0 i lun cname number slot) (λ rc w', world_ok w' ∧ same_places w w' ∧
    (∀ j, j ≠ i → modules (w_devs w') !! j = modules (w_devs w) !! j) ∧
    ((rc = - 1 ∧ ¬ (0 <= lun ∧ ∃ g base, place w cname number slot g base)) ∨
     (rc = 0 ∧ 0 <= lun ∧ ∃ g base, place w cname number slot g base ∧
        modules (w_devs w') !! i = Some (mk_vmod_dev lun cname number slot (as_address (slot_window base slot)) 1)))) w.
Proof.
  intros [Hr Hc Hm] Hi. destruct w as [r c dv]. cbn [w_register w_carriers w_devs] in *. unfold set_module_params.
  destruct (Z.ltb_spec lun 0) as [Hl|Hl].
  { wp_step. split_and!; [by split|by split|done|]. left. split; [done|]. intros [? _]. lia. }
  wp_step. unfold on_register. apply wp_zoom. apply wp_as_entry; [done|]. intros r' Hr' Er. cbn [w_register] in *.
  change (_ <| w_register := r' |>) with (mk_lunargs_world r' c dv).
  destruct (registered r !! cname ≫= fst) as [g|] eqn:Eg.
  2: { wp_step. split_and!; [by split|by split|done|]. left. split; [done|]. intros (_ & g & base & E & _).
       unfold place in E. cbn [w_register] in E. rewrite Eg in E. done. }
  wp_step. unfold on_carriers. apply wp_zoom. cbn [w_carriers].
  destruct (call_gas_law c g as0 number slot Hc) as (rc & a' & E & Hout). unfold wp at 1. rewrite E.
  destruct Hout as [[Hrc Hno]|(-> & base & Hb & Hs & ->)].
  - rewrite (proj2 (Z.ltb_lt rc 0)) by done. wp_step. split_and!; [by split|by split|done|]. left. split; [done|].
    intros (_ & g' & base & E' & Hb & Hs). cbn [w_register w_carriers] in *. simplify_eq. by apply (Hno base).
  - cbn [Z.ltb Z.compare]. wp_step. unfold set_module. wp_step. wp_step. wp_step.
    assert (Hset : array_set (modules dv) (Z.of_nat i) (mk_vmod_dev lun cname number slot (as_address (slot_window base slot)) 1) =
      Some (<[i := mk_vmod_dev lun cname number slot (as_address (slot_window base slot)) 1]> (modules dv))).
    { apply array_set_Some. rewrite Hm, Nat2Z.id. split; [lia|done]. }
    eapply wp_lift_opt; [exact Hset|]. wp_step. wp_step. destruct dv as [n l]. cbn [modules] in *.
    split_and!.
    + split; [done|done|]. simpl. by rewrite length_insert.
    + by split.
    + intros j Hj. simpl. by apply list_lookup_insert_ne.
    + right. split_and!; [done|done|]. exists g, base. split; [done|]. simpl. apply list_lookup_insert_eq. lia.
Qed.

Lemma row_Some ps i : (i < length (p_lun ps))%nat → length (p_carrier ps) = length (p_lun ps) →
  length (p_carrier_number ps) = length (p_lun ps) → length (p_slot ps) = length (p_lun ps) →
  ∃ lun cname number slot, p_lun ps !! i = Some lun ∧ p_carrier ps !! i = Some cname ∧ p_carrier_number ps !! i = Some number ∧
    p_slot ps !! i = Some slot ∧ row ps i = Some (lun, cname, number, slot).
Proof.
  intros Hi H1' H2' H3'. destruct (lookup_lt_is_Some_2 (p_lun ps) i) as [lun E1]; [lia|].
  destruct (lookup_lt_is_Some_2 (p_carrier ps) i) as [cname E2]; [lia|].
  destruct (lookup_lt_is_Some_2 (p_carrier_number ps) i) as [number E3]; [lia|].
  destruct (lookup_lt_is_Some_2 (p_slot ps) i) as [slot E4]; [lia|].
  exists lun, cname, number, slot. split_and!; try done. unfold row. by rewrite E1, E2, E3, E4.
Qed.

Lemma module_done_same ps w w' i devs : same_places w w' → module_done ps w' i devs → module_done ps w i devs.
Proof.
  intros Hs Hd lun cname number slot Hr. destruct (Hd _ _ _ _ Hr) as (Hl & g & base & Hp & Hm).
  split; [done|]. exists g, base. split; [|done]. by apply (place_same w w').
Qed.

Lemma wp_read_params ps w : world_ok w →
  wp (read_params as0 ps) (λ rc w', world_ok w' ∧ same_places w w' ∧
    ((rc = - 1 ∧ ¬ params_valid ps w) ∨
     (rc = 0 ∧ params_valid ps w ∧ num_modules (w_devs w') = Z.of_nat (length (p_lun ps)) ∧
      ∀ i, module_done ps w i (w_devs w')))) w.
Proof.
  intros Hok. unfold read_params. destruct (decide _) as [Hlen|Hlen].
  { wp_step. split_and!; [done|by split|]. left. split; [done|]. intros (L1 & L2 & L3 & L4 & _). lia. }
  set (n := length (p_lun ps)) in *.
  assert (L1 : length (p_carrier ps) = n) by lia. assert (L2 : length (p_carrier_number ps) = n) by lia.
  assert (L3 : length (p_slot ps) = n) by lia. assert (L4 : (n < VMOD_MAX_BOARDS)%nat) by lia.
  wp_step. eapply wp_mono; [apply (wp_mfold _ (λ l rc w', world_ok w' ∧ same_places w w' ∧
    ((rc = - 1 ∧ ¬ params_valid ps w) ∨
     (rc = 0 ∧ ∃ k, (k <= n)%nat ∧ l = seq k (n - k) ∧ ∀ i, (i < k)%nat → module_done ps w i (w_devs w')))))|].
  - intros x l rc w1 (Hok1 & Hs1 & [[-> Hnv]|(-> & k & Hk & El & Hdone)]).
    { change (truthy (- 1)) with true. cbv iota. wp_step. split_and!; [done|done|by left]. }
    change (truthy 0) with false. cbv iota. destruct (decide (k = n)) as [->|Hne]; [by rewrite Nat.sub_diag in El|].
    replace (n - k)%nat with (Datatypes.S (n - Datatypes.S k)) in El by lia. cbn [seq] in El. injection El as -> ->.
    destruct (row_Some ps k) as (lun & cname & number & slot & E1 & E2 & E3 & E4 & Er); [lia..|].
    wp_step. apply (wp_lift_opt _ _ _ _ E1). wp_step. apply (wp_lift_opt _ _ _ _ E2).
    wp_step. apply (wp_lift_opt _ _ _ _ E3). wp_step. apply (wp_lift_opt _ _ _ _ E4). wp_step.
    eapply wp_mono; [apply set_module_params_step; [done|lia]|]. intros rc w2 (Hok2 & Hs2 & Hkeep & Hout).
    assert (Hs : same_places w w2) by (destruct Hs1, Hs2; split; congruence).
    wp_step. split_and!; [done|done|]. destruct Hout as [[-> Hno]|(-> & Hl & g & base & Hp & Hm)].
    + left. split; [done|]. intros (_ & _ & _ & _ & Hv). apply Hno. destruct (Hv _ _ _ _ _ Er) as (? & g & base & ?).
      split; [done|]. exists g, base. by apply (place_same w w1).
    + right. split; [done|]. exists (Datatypes.S k). split_and!; [lia|done|]. intros i Hi.
      destruct (decide (i = k)) as [->|Hne'].
      * intros lun' cname' number' slot' Er'. simplify_eq. split; [done|]. exists g, base. split; [by apply (place_same w w1)|done].
      * intros lun' cname' number' slot' Er'. rewrite Hkeep by done. apply (Hdone i ltac:(lia) _ _ _ _ Er').
  - split_and!; [done|by split|]. right. split; [done|]. exists 0%nat. split_and!; [lia|by rewrite Nat.sub_0_r|lia].
  - intros rc w1 (Hok1 & Hs1 & [[-> Hnv]|(-> & k & Hk & El & Hdone)]).
    { change (truthy (- 1)) with true. cbv iota. wp_step. split_and!; [done|done|by left]. }
    change (truthy 0) with false. cbv iota. destruct (decide (k = n)) as [->|Hne].
    2: { replace (n - k)%nat with (Datatypes.S (n - Datatypes.S k)) in El by lia. done. }
    assert (Hall : ∀ i, module_done ps w i (w_devs w1)).
    { intros i lun cname number slot Er. apply (Hdone i); [|done]. unfold row in Er.
      apply bind_Some in Er as (? & Er & _). by apply lookup_lt_Some in Er. }
    wp_steps. destruct w1 as [r c [m l]]. destruct Hok1 as [O1 O2 O3]. split_and!; [by split|done|]. right.
    split_and!; [done| |done|done]. split_and!; [done|done|done|done|].
    intros i lun cname number slot Er. destruct (Hall i _ _ _ _ Er) as (Hl & g & base & Hp & _). split; [done|]. by exists g, base.
Qed.

(** ** Where the windows are *)

(** Boards are mapped below 2^64 and apart from each other. *)
Definition boards_apart w : Prop :=
  ∀ g1 b1 base1 g2 b2 base2, fn_board (w_carriers w) g1 b1 = Some base1 → fn_board (w_carriers w) g2 b2 = Some base2 →
    (0 <= base1 ∧ base1 + SLOT_SPACE * fn_slots g1 <= 2 ^ 64) ∧
    ((g1, b1) = (g2, b2) ∨ base1 + SLOT_SPACE * fn_slots g1 <= base2 ∨ base2 + SLOT_SPACE * fn_slots g2 <= base1).

(** The windows of two modules have no address in common. *)
Definition windows_apart (m1 m2 : vmod_dev) : Prop :=
  address m1 + SLOT_SPACE <= address m2 ∨ address m2 + SLOT_SPACE <= address m1.

Lemma slot_address base slot n : 0 <= base → base + SLOT_SPACE * n <= 2 ^ 64 → 0 <= slot < n →
  as_address (slot_window base slot) = base + SLOT_SPACE * slot.
Proof. unfold SLOT_SPACE. intros. apply Z.mod_small. lia. Qed.


(** A unit number leads to the first module that has it. *)
Lemma lun_to_index_spec devs lun : 0 <= num_modules devs <= Z.of_nat (length (modules devs)) →
  (lun_to_index devs lun = Some (- 1) ∧ ∀ j m, (j < Z.to_nat (num_modules devs))%nat → modules devs !! j = Some m → vd_lun m ≠ lun) ∨
  ∃ (i : nat) m, lun_to_index devs lun = Some (Z.of_nat i) ∧ (i < Z.to_nat (num_modules devs))%nat ∧ modules devs !! i = Some m ∧ vd_lun m = lun.
Proof.
  intros Hn. unfold lun_to_index. destruct (search_total (λ m, lun =? vd_lun m) (num_modules devs) (modules devs)) as [[i|] E]; [lia|..];
    rewrite E; cbn [mbind option_bind].
  - apply search_Some in E as (m & Hm & Ht%Z.eqb_eq & Hi & _). right. exists i, m. split_and!; [done|done|done|lia].
  - left. split; [done|]. intros j m Hj Hm. pose proof (search_None _ _ _ E j m Hj Hm) as Ht%Z.eqb_neq. lia.
Qed.
End proofs.
