(* ===== verification/VmodAnalog.v ===== *)
(** The drivers of output and converter boards: [vmod12a2drvr.c], [vmod12a4drvr.c],
    [vmod16a2drvr.c], [vmoddordrvr.c] and [vmod12e16drvr.c] of [src/vmod/driver].

    They open a module by its unit number and access the registers in the window of its slot.
    The accesses of the output boards are recorded in order; the converter of the VMOD12E16
    answers through [AdcIO].  The output drivers write in the windows of their modules only; conversions
    end, give the converter back and are within range. *)
From S2P Require Import Prelude VmodBus VmodCarrier VmodLunargs.

Local Open Scope Z_scope.

Definition EIO : Z := 5.
Definition ENOTTY : Z := 25.

(** A write to a register of a board. *)
Inductive io_write := Write16be (a v : Z) | Write16 (a v : Z) | Write8 (a v : Z).

Definition write_address (w : io_write) : Z := match w with Write16be a _ | Write16 a _ | Write8 a _ => a end.
Definition write_size (w : io_write) : Z := match w with Write8 _ _ => 1 | _ => 2 end.

(** The configuration of a driver and what it wrote. *)
Record board_state := mk_board_state {
  config : vmod_devices;
  writes : list io_write
}.

Notation BS := (M board_state).

Definition iowrite (w : io_write) : BS () := modify (λ s : board_state, s <| writes := writes s ++ [w] |>).
Definition iowrite16be (v a : Z) : BS () := iowrite (Write16be a (v mod 2 ^ 16)).
Definition iowrite16 (v a : Z) : BS () := iowrite (Write16 a (v mod 2 ^ 16)).
Definition iowrite8 (v a : Z) : BS () := iowrite (Write8 a (v mod 2 ^ 8)).

(** [open] of the 12A2, 12A4, 12E16 and 16A2: the index is unsigned, so the test for -1 never
    holds; the result is the return code and the index behind [private_data]. *)
Definition vmod_open (err lun : Z) (devs : vmod_devices) : option (Z * Z) :=
  idx ← lun_to_index devs lun;
  let idx := u32 idx in
  if idx <? 0 then Some (- err, idx) else Some (0, idx).

(** [*private_data]: an index beyond the table is stuck. *)
Definition private_dev (idx : Z) : BS vmod_dev := c ← gets config; lift_opt (array_get (modules c) idx).

(** * VMOD12A2, VMOD12A4 *)

Definition VMOD_12A2_CHANNELS : Z := 2.
Definition VMOD_12A4_CHANNELS : Z := 4.
Definition VMOD_12A2_CHANNEL0 : Z := 0x0.
Definition VMOD_12A2_CHANNEL1 : Z := 0x2.
Definition VMOD_12A4_CHANNEL2 : Z := 0x4.
Definition VMOD_12A4_CHANNEL3 : Z := 0x6.

Definition vmod12a2_offsets : list Z := [VMOD_12A2_CHANNEL0; VMOD_12A2_CHANNEL1].
Definition vmod12a4_offsets : list Z := [VMOD_12A2_CHANNEL0; VMOD_12A2_CHANNEL1; VMOD_12A4_CHANNEL2; VMOD_12A4_CHANNEL3].

(** [do_iocput] of the 12A2; the channel is converted to [unsigned], the value to 16 bits. *)
Definition vmod12a2_iocput (idx channel value : Z) : BS Z :=
  let channel := u32 channel in
  if negb (channel =? 0) && negb (channel =? 1) then mret (- EINVAL) else
  dev ← private_dev idx;
  offset ← lift_opt (array_get vmod12a2_offsets channel);
  iowrite16be value (u64 (address dev + offset));;
  mret 0.

Definition vmod12a4_iocput (idx channel value : Z) : BS Z :=
  let channel := u32 channel in
  if channel >=? VMOD_12A4_CHANNELS then mret (- EINVAL) else
  dev ← private_dev idx;
  offset ← lift_opt (array_get vmod12a4_offsets channel);
  iowrite16be value (u64 (address dev + offset));;
  mret 0.

(** * VMOD16A2 *)

Definition VMOD16A2_DAC0IN : Z := 0x00.
Definition VMOD16A2_DAC1IN : Z := 0x02.
Definition VMOD16A2_LDAC0 : Z := 0x04.
Definition VMOD16A2_LDAC1 : Z := 0x06.

(** [do_output]: write, then load. *)
Definition vmod16a2_output (idx channel value : Z) : BS Z :=
  dev ← private_dev idx;
  let regp := address dev in
  if s32 channel =? 0 then
    iowrite16be value (u64 (regp + VMOD16A2_DAC0IN));;
    iowrite16be value (u64 (regp + VMOD16A2_LDAC0));;
    mret 0
  else if s32 channel =? 1 then
    iowrite16be value (u64 (regp + VMOD16A2_DAC1IN));;
    iowrite16be value (u64 (regp + VMOD16A2_LDAC1));;
    mret 0
  else mret (- EINVAL).

(** The requests of the three drivers: a copy from user space that faults, an unknown code. *)
Inductive put_request := Put (channel value : Z) | PutFault | PutUnknown.

Definition put_ioctl (put : Z → Z → BS Z) (r : put_request) : BS Z :=
  match r with
  | Put channel value => put channel value
  | PutFault => mret (- EINVAL)
  | PutUnknown => mret (- ENOTTY)
  end.

Definition vmod12a2_ioctl (idx : Z) : put_request → BS Z := put_ioctl (vmod12a2_iocput idx).
Definition vmod12a4_ioctl (idx : Z) : put_request → BS Z := put_ioctl (vmod12a4_iocput idx).
Definition vmod16a2_ioctl (idx : Z) : put_request → BS Z := put_ioctl (vmod16a2_output idx).

(** * VMODDOR *)

Definition VMODDOR_MAX_DEVICES : nat := 16.

(** What the driver uses of [struct vmoddor_dev]. *)
Record vmoddor_dev := mk_vmoddor_dev {
  dor_lun : Z;
  dor_cname : string;
  dor_carrier : Z;
  dor_slot : Z;
  handle : Z;
  dor_is_big_endian : Z
}.

Definition zero_dor : vmoddor_dev := mk_vmoddor_dev 0 "" 0 0 0 0.

(** The loop of [vmoddor_init] over the modules. *)
Definition fill_entry (devs : vmod_devices) (vmoddor : option (list vmoddor_dev)) (i : nat) : option (list vmoddor_dev) :=
  l ← vmoddor;
  m ← modules devs !! i;
  array_set l (Z.of_nat i) (mk_vmoddor_dev (vd_lun m) (carrier_name m) (carrier_lun m) (vd_slot m) (address m) (is_big_endian m)).

Definition vmoddor_fill (devs : vmod_devices) : option (list vmoddor_dev) :=
  foldl (fill_entry devs) (Some (replicate VMODDOR_MAX_DEVICES zero_dor)) (seq 0 (Z.to_nat (num_modules devs))).

Definition vmoddor_write_word (pd : vmoddor_dev) (offset value : Z) : BS () :=
  let ioaddr := u64 (handle pd + offset) in
  if truthy (dor_is_big_endian pd) then iowrite16be value ioaddr else iowrite16 value ioaddr.

Definition vmoddor_write_byte (pd : vmoddor_dev) (offset value : Z) : BS () := iowrite8 value (u64 (handle pd + offset)).

Definition vmoddor_write_4bits (pd : vmoddor_dev) (offset value : Z) : BS () := vmoddor_write_byte pd offset (Z.land value 0xf).

(** [struct vmoddor_arg]: the size and the offset are [unsigned short]. *)
Inductive dor_request := DorWrite (data size offset : Z) | DorFault | DorUnknown.

(** [vmoddor_ioctl] on the table of boards; the minor number is the index. *)
Definition vmoddor_ioctl (vmoddor : list vmoddor_dev) (minor : Z) (r : dor_request) : BS Z :=
  match r with
  | DorFault => mret (- EIO)
  | DorUnknown => mret (- EINVAL)
  | DorWrite data size offset =>
    if size =? 16 then
      if negb (offset =? 0) then mret (- EINVAL) else
      pd ← lift_opt (array_get vmoddor minor);
      vmoddor_write_word pd 0 data;; mret 0
    else if size =? 8 then
      if offset >? 1 then mret (- EINVAL) else
      pd ← lift_opt (array_get vmoddor minor);
      vmoddor_write_byte pd offset (Z.land data 0xff);; mret 0
    else if size =? 4 then
      if (offset <? 2) || (offset >? 5) then mret (- EINVAL) else
      pd ← lift_opt (array_get vmoddor minor);
      vmoddor_write_4bits pd offset (Z.land data 0xff);; mret 0
    else mret (- EINVAL)
  end.

(** * VMOD12E16 *)

Definition VMOD_12E16_CONTROL : Z := 0x00.
Definition VMOD_12E16_ADC_DATA : Z := 0x00.
Definition VMOD_12E16_ADC_RDY : Z := 0x04.
Definition VMOD_12E16_INTERRUPT : Z := 0x06.
Definition VMOD_12E16_ADC_DATA_MASK : Z := 0x0fff.
Definition VMOD_12E16_ADC_INTERRUPT_MASK : Z := Z.shiftl 1 15.
Definition VMOD_12E16_RDY_BIT : Z := Z.shiftl 1 15.
Definition VMOD_12E16_CONVERSION_TIME : Z := 2.
Definition VMOD_12E16_MAX_CONVERSION_TIME : Z := 30.

(** The board; a read may depend on all that went before. *)
Class AdcIO (B : Type) := {
  adc_read : Z → B → Z * B;
  adc_write : Z → Z → B → B;
  (** [udelay] *)
  adc_delay : Z → B → B;
}.

Section adc.
Context {B : Type} `{AdcIO B}.

(** A module, its semaphore and its board. *)
Record adc_state := mk_adc_state {
  adc_config : vmod_dev;
  adc_sem : Z;
  adc_board : B
}.
Notation AS := adc_state.

(** [down_interruptible]: interrupted, taken, or waiting (stuck) for another user. *)
Definition down_interruptible (interrupted : bool) : M AS Z :=
  if interrupted then mret (- EINTR) else
  n ← gets adc_sem;
  if n >? 0 then modify (λ s : AS, s <| adc_sem := n - 1 |>);; mret 0 else stuck.
Definition up : M AS () := modify (λ s : AS, s <| adc_sem := adc_sem s + 1 |>).

Definition reg_read (offset : Z) : M AS Z := λ s,
  let '(v, b) := adc_read (u64 (address (adc_config s) + offset)) (adc_board s) in Some (v, s <| adc_board := b |>).
Definition reg_write (v offset : Z) : M AS () :=
  modify (λ s : AS, s <| adc_board := adc_write (u64 (address (adc_config s) + offset)) (v mod 2 ^ 16) (adc_board s) |>).
Definition udelay (us : Z) : M AS () := modify (λ s : AS, s <| adc_board := adc_delay us (adc_board s) |>).

(** The polling loop; it runs at most [n] times more. *)
Fixpoint poll (n : nat) (us_elapsed : Z) : M AS (option Z) :=
  match n with
  | O => mret None
  | S n =>
    if us_elapsed <? VMOD_12E16_MAX_CONVERSION_TIME then
      udelay VMOD_12E16_CONVERSION_TIME;;
      ready ← reg_read VMOD_12E16_ADC_RDY;
      if Z.land ready VMOD_12E16_RDY_BIT =? 0 then
        data ← reg_read VMOD_12E16_ADC_DATA;
        udelay VMOD_12E16_CONVERSION_TIME;;
        mret (Some (Z.land data VMOD_12E16_ADC_DATA_MASK))
      else poll n (us_elapsed + VMOD_12E16_CONVERSION_TIME)
    else mret None
  end.

(** More rounds than the loop has. *)
Definition POLLS : nat := 16.

(** [do_conversion]: the result and the data. *)
Definition do_conversion (interrupted : bool) (channel ampli : Z) : M AS (Z * option Z) :=
  rc ← down_interruptible interrupted;
  if truthy rc then mret (- ERESTARTSYS, None) else
  reg_write VMOD_12E16_ADC_INTERRUPT_MASK VMOD_12E16_INTERRUPT;;
  if truthy (Z.land ampli (Z.lnot (Z.shiftl 1 2 - 1))) || truthy (Z.land channel (Z.lnot (Z.shiftl 1 4 - 1))) then
    up;; mret (- EINVAL, None)
  else
    reg_write (Z.lor (Z.shiftl ampli 4) channel) VMOD_12E16_CONTROL;;
    data ← poll POLLS 0;
    up;;
    mret (match data with Some d => (0, Some d) | None => (- ETIME, None) end).
End adc.
Arguments adc_state : clear implicits.

(** * Opening *)

(** Every unit number can be opened; one that is not configured gives an index far
    behind the table, with which every access is stuck. *)
Lemma open_any_unit err lun devs : length (modules devs) = VMOD_MAX_BOARDS → 0 <= num_modules devs <= 64 →
  (∃ (i : nat) m, vmod_open err lun devs = Some (0, Z.of_nat i) ∧ modules devs !! i = Some m ∧ vd_lun m = lun) ∨
  (vmod_open err lun devs = Some (0, 2 ^ 32 - 1) ∧ ∀ s, config s = devs → private_dev (2 ^ 32 - 1) s = None).
Proof.
  intros Hl Hn. unfold vmod_open. destruct (lun_to_index_spec devs lun) as [[E _]|(i & m & E & Hi & Hm & Hlun)];
    [rewrite Hl; unfold VMOD_MAX_BOARDS; lia|right|left]; rewrite E; cbn [mbind option_bind].
  - split; [done|]. intros s <-. unfold private_dev, mbind, M_bind, gets, lift_opt.
    assert (E' : array_get (modules (config s)) (2 ^ 32 - 1) = None); [|by rewrite E'].
    apply array_get_None. rewrite Hl. unfold VMOD_MAX_BOARDS. lia.
  - exists i, m. apply lookup_lt_Some in Hm as Hlt. rewrite Hl in Hlt. unfold VMOD_MAX_BOARDS in Hlt.
    rewrite u32_small by (unfold is_u32; lia). by rewrite (proj2 (Z.ltb_ge _ _)) by lia.
Qed.

(** * Output boards *)

(** A write lies in the window that starts at [base]. *)
Definition in_window (base : Z) (w : io_write) : Prop :=
  base <= write_address w ∧ write_address w + write_size w <= base + SLOT_SPACE.

(** A request leaves the configuration, and writes in the window only; a refused one writes nothing. *)
Definition stays_in (base : Z) (m : BS Z) (s : board_state) : Prop :=
  wp m (λ rc s', config s' = config s ∧ rc <= 0 ∧
    ∃ ws, writes s' = writes s ++ ws ∧ Forall (in_window base) ws ∧ (rc < 0 → ws = [])) s.

(** The window of a module. *)
Definition window_ok (base : Z) : Prop := 0 <= base ∧ base + SLOT_SPACE <= 2 ^ 64.

Lemma stays_ret base rc s : rc <= 0 → stays_in base (mret rc) s.
Proof. intros Hrc. unfold stays_in. wp_step. split_and!; [done|done|]. exists []. by rewrite app_nil_r. Qed.

(** One write, or two. *)
Lemma stays_write base w s : in_window base w → stays_in base (iowrite w;; mret 0) s.
Proof.
  intros Hw. unfold stays_in, iowrite. wp_steps. destruct s as [c l]. split_and!; [done|done|]. exists [w].
  split_and!; [done|by apply Forall_singleton|lia].
Qed.

Lemma stays_write2 base w1 w2 s : in_window base w1 → in_window base w2 → stays_in base (iowrite w1;; iowrite w2;; mret 0) s.
Proof.
  intros H1 H2. unfold stays_in, iowrite. wp_steps. destruct s as [c l]. split_and!; [done|done|]. exists [w1; w2].
  split_and!; [simpl; by rewrite <- app_assoc|apply Forall_cons_2; [done|by apply Forall_singleton]|lia].
Qed.

Lemma stays_bind {A} base (m : BS A) (k : A → BS Z) a s : m s = Some (a, s) → stays_in base (k a) s → stays_in base (m ≫= k) s.
Proof. intros Hm Hk. unfold stays_in. wp_step. unfold wp at 1. by rewrite Hm. Qed.

Lemma stays_lift {A} base (o : option A) (k : A → BS Z) a s : o = Some a → stays_in base (k a) s → stays_in base (lift_opt o ≫= k) s.
Proof. intros -> Hk. by apply (stays_bind _ _ _ a). Qed.

Lemma window_address base offset : window_ok base → 0 <= offset < SLOT_SPACE → u64 (base + offset) = base + offset.
Proof. unfold window_ok, SLOT_SPACE. intros. apply Z.mod_small. lia. Qed.

Lemma in_window_at base offset v : window_ok base → 0 <= offset <= SLOT_SPACE - 2 → in_window base (Write16be (u64 (base + offset)) v).
Proof. unfold SLOT_SPACE. intros Hw Ho. unfold in_window. simpl. rewrite window_address by (unfold SLOT_SPACE; (done || lia)). unfold SLOT_SPACE. lia. Qed.

Lemma private_run (idx : nat) dev (s : board_state) : modules (config s) !! idx = Some dev → private_dev (Z.of_nat idx) s = Some (dev, s).
Proof. intros Hd. unfold private_dev, mbind, M_bind, gets, lift_opt. by rewrite array_get_nat, Hd. Qed.

(** What a driver of an output board promises for its requests. *)
Definition put_stays (put : Z → Z → Z → BS Z) : Prop := ∀ (idx : nat) dev channel value s,
  modules (config s) !! idx = Some dev → window_ok (address dev) → stays_in (address dev) (put (Z.of_nat idx) channel value) s.

Lemma vmod12a2_stays : put_stays vmod12a2_iocput.
Proof.
  intros idx dev channel value s Hd Hw. unfold vmod12a2_iocput.
  destruct (Z.eqb_spec (u32 channel) 0) as [->|]; [|destruct (Z.eqb_spec (u32 channel) 1) as [->|]; [|by apply stays_ret]];
    cbn [negb andb]; (eapply stays_bind; [by apply private_run|]); (eapply stays_lift; [reflexivity|]);
    apply stays_write, in_window_at; done.
Qed.

Lemma vmod12a4_stays : put_stays vmod12a4_iocput.
Proof.
  intros idx dev channel value s Hd Hw. unfold vmod12a4_iocput. pose proof (u32_range channel) as [Hc _].
  destruct (Z.geb_spec (u32 channel) VMOD_12A4_CHANNELS) as [|Hlt]; [by apply stays_ret|]. unfold VMOD_12A4_CHANNELS in Hlt.
  eapply stays_bind; [by apply private_run|].
  assert (u32 channel = 0 ∨ u32 channel = 1 ∨ u32 channel = 2 ∨ u32 channel = 3) as [->|[->|[->| ->]]] by lia;
    (eapply stays_lift; [reflexivity|]); apply stays_write, in_window_at; done.
Qed.

Lemma vmod16a2_stays : put_stays vmod16a2_output.
Proof.
  intros idx dev channel value s Hd Hw. unfold vmod16a2_output. eapply stays_bind; [by apply private_run|].
  destruct (s32 channel =? 0); [|destruct (s32 channel =? 1); [|by apply stays_ret]];
    apply stays_write2; apply in_window_at; done.
Qed.

Lemma put_ioctl_stays put (idx : nat) dev r s : put_stays put → modules (config s) !! idx = Some dev → window_ok (address dev) →
  stays_in (address dev) (put_ioctl (put (Z.of_nat idx)) r) s.
Proof. intros Hp Hd Hw. destruct r; cbn [put_ioctl]; [by apply Hp|by apply stays_ret..]. Qed.

(** The digital board: its table holds the windows of the modules. *)
Lemma vmoddor_stays (vmoddor : list vmoddor_dev) (minor : nat) pd r s : vmoddor !! minor = Some pd → window_ok (handle pd) →
  match r with DorWrite _ size offset => 0 <= size < 2 ^ 16 ∧ 0 <= offset < 2 ^ 16 | _ => True end →
  stays_in (handle pd) (vmoddor_ioctl vmoddor (Z.of_nat minor) r) s.
Proof.
  intros Hd Hw Hr. destruct r as [data size offset| |]; cbn [vmoddor_ioctl]; [|by apply stays_ret..].
  assert (Hb : ∀ o v, 0 <= o <= SLOT_SPACE - 2 → in_window (handle pd) (Write8 (u64 (handle pd + o)) v)).
  { intros o v Ho. unfold in_window, SLOT_SPACE in *. simpl. rewrite window_address by (unfold SLOT_SPACE; (done || lia)). lia. }
  destruct (size =? 16); [|destruct (size =? 8); [|destruct (size =? 4); [|by apply stays_ret]]].
  - destruct (offset =? 0); cbn [negb]; [|by apply stays_ret]. eapply stays_lift; [by rewrite array_get_nat|].
    unfold vmoddor_write_word. destruct (truthy _); apply stays_write; [by apply in_window_at|].
    by apply (in_window_at (handle pd) 0 data).
  - destruct (Z.gtb_spec offset 1); [by apply stays_ret|]. eapply stays_lift; [by rewrite array_get_nat|].
    apply stays_write, Hb. unfold SLOT_SPACE. lia.
  - destruct (Z.ltb_spec offset 2), (Z.gtb_spec offset 5); cbn [orb]; try (by apply stays_ret).
    eapply stays_lift; [by rewrite array_get_nat|]. apply stays_write, Hb. unfold SLOT_SPACE. lia.
Qed.


(** The table of the digital boards has 16 entries, the parameters may name 63: the loop leaves
    the table at the seventeenth. *)
Lemma fill_length devs ks l l' : foldl (fill_entry devs) (Some l) ks = Some l' → length l' = length l.
Proof.
  revert l. induction ks as [|i ks IH]; intros l E; [by injection E as <-|]. cbn [foldl] in E.
  destruct (fill_entry devs (Some l) i) as [l1|] eqn:E1.
  - rewrite (IH _ E). unfold fill_entry in E1. cbn [mbind option_bind] in E1. destruct (modules devs !! i); [|done].
    by apply array_set_length in E1.
  - exfalso. clear - E. induction ks as [|j ks IH]; [done|by apply IH].
Qed.

Lemma vmoddor_fill_overrun devs : 16 < num_modules devs → vmoddor_fill devs = None.
Proof.
  intros Hn. unfold vmoddor_fill.
  replace (Z.to_nat (num_modules devs)) with (16 + (1 + (Z.to_nat (num_modules devs) - 17)))%nat by lia.
  rewrite seq_app, foldl_app. destruct (foldl _ _ (seq 0 16)) as [l|] eqn:El.
  - apply fill_length in El. rewrite length_replicate in El. cbn [seq foldl Nat.add].
    assert (E : fill_entry devs (Some l) 16 = None).
    { unfold fill_entry. cbn [mbind option_bind]. destruct (modules devs !! 16%nat); [|done].
      cbn [mbind option_bind]. unfold array_set. by rewrite decide_False by (rewrite El; unfold VMODDOR_MAX_DEVICES; lia). }
    rewrite E. generalize (seq 17 (Z.to_nat (num_modules devs) - 17)). intros ks. by induction ks.
  - generalize (seq (0 + 16) (1 + (Z.to_nat (num_modules devs) - 17))). intros ks. by induction ks.
Qed.

(** * Conversions *)

Section adc.
Context {B : Type} `{AdcIO B}.
Notation AS := (adc_state B).
Implicit Types (s : AS) (b : B) (base : Z).

(** One round of the loop: what it reads, and the board after. *)
Definition round base b : Z * B := adc_read (u64 (base + VMOD_12E16_ADC_RDY)) (adc_delay VMOD_12E16_CONVERSION_TIME b).

(** The board after [k] rounds, and whether it is ready in the next. *)
Definition board_after base (k : nat) b : B := Nat.iter k (λ b, (round base b).2) b.
Definition ready_at base b (k : nat) : bool := Z.land (round base (board_after base k b)).1 VMOD_12E16_RDY_BIT =? 0.

(** What is read from a ready board. *)
Definition data_at base b (k : nat) : Z :=
  Z.land (adc_read (u64 (base + VMOD_12E16_ADC_DATA)) (round base (board_after base k b)).2).1 VMOD_12E16_ADC_DATA_MASK.

Lemma board_after_S base k b : board_after base (S k) b = board_after base k (round base b).2.
Proof. unfold board_after. by rewrite Nat.iter_succ_r. Qed.

Lemma ready_after base b k : ready_at base (round base b).2 k = ready_at base b (S k).
Proof. unfold ready_at. by rewrite board_after_S. Qed.

Lemma data_after base b k : data_at base (round base b).2 k = data_at base b (S k).
Proof. unfold data_at. by rewrite board_after_S. Qed.

(** The loop with [r] rounds left until the time is over, and fuel for one more. *)
Lemma poll_run (r n : nat) us s : us = VMOD_12E16_MAX_CONVERSION_TIME - 2 * Z.of_nat r → (r < n)%nat →
  ∃ res s', poll n us s = Some (res, s') ∧ adc_sem s' = adc_sem s ∧ adc_config s' = adc_config s ∧
    let base := address (adc_config s) in
    ((res = None ∧ ∀ k, (k < r)%nat → ready_at base (adc_board s) k = false) ∨
     ∃ k, (k < r)%nat ∧ ready_at base (adc_board s) k = true ∧ (∀ j, (j < k)%nat → ready_at base (adc_board s) j = false) ∧
       res = Some (data_at base (adc_board s) k)).
Proof.
  revert n us s. induction r as [|r IH]; intros [|n] us s Hus Hn; try lia.
  - exists None, s. cbn [poll]. rewrite (proj2 (Z.ltb_ge us _)) by lia. split_and!; [done..|]. left. split; [done|lia].
  - cbn [poll]. rewrite (proj2 (Z.ltb_lt us _)) by lia. destruct s as [c m b].
    unfold udelay, modify, mbind, M_bind, reg_read. cbn [adc_config adc_board].
    change (adc_config (_ <| adc_board := _ |>)) with c. change (adc_board (_ <| adc_board := _ |>)) with (adc_delay VMOD_12E16_CONVERSION_TIME b).
    fold (round (address c) b). destruct (round (address c) b) as [v b1] eqn:Er.
    change (_ <| adc_board := b1 |>) with (mk_adc_state c m b1).
    assert (E0 : ready_at (address c) b 0 = (Z.land v VMOD_12E16_RDY_BIT =? 0)) by (unfold ready_at, board_after; cbn; by rewrite Er).
    rewrite <- E0. destruct (ready_at (address c) b 0) eqn:Eready.
    + cbn [adc_config adc_board].
      destruct (adc_read (u64 (address c + VMOD_12E16_ADC_DATA)) b1) as [d b2] eqn:Ed. cbn [adc_board].
      eexists _, _. split; [reflexivity|]. split_and!; [done|done|]. right. exists 0%nat. split_and!; [lia|done|lia|].
      unfold data_at, board_after. cbn. rewrite Er. cbn [snd]. by rewrite Ed.
    + destruct (IH n (us + VMOD_12E16_CONVERSION_TIME) (mk_adc_state c m b1)) as (res & s' & E & Es & Ec & Hres);
        [unfold VMOD_12E16_CONVERSION_TIME in *; lia|lia|].
      exists res, s'. cbn [adc_config adc_board adc_sem] in *. split_and!; [exact E|done|done|].
      assert (Eb : (round (address c) b).2 = b1) by by rewrite Er.
      destruct Hres as [[-> Hno]|(k & Hk & Hr & Hb & ->)].
      * left. split; [done|]. intros [|k] Hk; [done|]. rewrite <- ready_after, Eb. apply Hno. lia.
      * right. exists (S k). rewrite <- ready_after, <- data_after, Eb. split_and!; [lia|done| |done].
        intros [|j] Hj; [done|]. rewrite <- ready_after, Eb. apply Hb. lia.
Qed.

Lemma mask_range x n m : 0 <= n → m = Z.lnot (2 ^ n - 1) → truthy (Z.land x m) = negb (bool_decide (0 <= x < 2 ^ n)).
Proof.
  intros Hn ->. unfold truthy. f_equal. replace (2 ^ n - 1) with (Z.ones n) by (rewrite Z.ones_equiv; lia).
  rewrite ldiff_ones by done. pose proof (Z.mod_pos_bound x (2 ^ n) ltac:(lia)).
  apply eq_bool_prop_intro. rewrite Is_true_true, Z.eqb_eq, bool_decide_spec. split; [lia|].
  intros Hx. rewrite Z.mod_small; lia.
Qed.

Lemma control_word ampli channel : 0 <= ampli < 4 → 0 <= channel < 16 → Z.lor (Z.shiftl ampli 4) channel mod 2 ^ 16 = ampli * 16 + channel.
Proof.
  intros Ha Hc. rewrite Z.shiftl_mul_pow2 by lia. change (2 ^ 4) with 16.
  assert (E : ∀ n, (n < 16)%nat → Z.lor (ampli * 16) (Z.of_nat n) = ampli * 16 + Z.of_nat n).
  { assert (ampli = 0 ∨ ampli = 1 ∨ ampli = 2 ∨ ampli = 3) as [->|[->|[->| ->]]] by lia;
      intros n Hn; do 16 (destruct n as [|n]; [done|]); lia. }
  specialize (E (Z.to_nat channel) ltac:(lia)). rewrite Z2Nat.id in E by lia.
  rewrite E. apply Z.mod_small. lia.
Qed.

Lemma land_u12 x : 0 <= Z.land x VMOD_12E16_ADC_DATA_MASK < 4096.
Proof. assert (E : Z.land x VMOD_12E16_ADC_DATA_MASK = x mod 2 ^ 12) by exact (Z.land_ones x 12 ltac:(lia)). rewrite E. by apply Z.mod_pos_bound. Qed.

(** C35: a conversion of the VMOD12E16 always ends and gives the converter back: whatever the
    board answers, within 15 rounds of two microseconds, with the semaphore as it was.
    Interrupted while waiting it does nothing; a channel or an amplification out of range is
    refused after the interrupt register is written; otherwise channel and amplification go to the control
    register, and the result is the twelve data bits read after the first round that shows
    the board ready, or the time-out if none of the 15 does. *)
Theorem conversion_ends interrupted channel ampli s : 0 < adc_sem s →
  let base := address (adc_config s) in
  let b0 := adc_write (u64 (base + VMOD_12E16_INTERRUPT)) VMOD_12E16_ADC_INTERRUPT_MASK (adc_board s) in
  let b1 := adc_write (u64 (base + VMOD_12E16_CONTROL)) (ampli * 16 + channel) b0 in
  ∃ rc data s', do_conversion interrupted channel ampli s = Some ((rc, data), s') ∧
    adc_sem s' = adc_sem s ∧ adc_config s' = adc_config s ∧
    ((interrupted = true ∧ rc = - ERESTARTSYS ∧ s' = s) ∨
     (interrupted = false ∧ ¬ (0 <= ampli < 4 ∧ 0 <= channel < 16) ∧ rc = - EINVAL ∧ adc_board s' = b0) ∨
     (interrupted = false ∧ 0 <= ampli < 4 ∧ 0 <= channel < 16 ∧
      ((rc = - ETIME ∧ ∀ k, (k < 15)%nat → ready_at base b1 k = false) ∨
       (rc = 0 ∧ ∃ k, (k < 15)%nat ∧ ready_at base b1 k = true ∧ (∀ j, (j < k)%nat → ready_at base b1 j = false) ∧
          data = Some (data_at base b1 k) ∧ 0 <= data_at base b1 k < 4096)))).
Proof.
  intros Hsem base b0 b1. unfold do_conversion, down_interruptible. destruct interrupted.
  { eexists _, _, s. split; [reflexivity|]. split_and!; [done..|]. by left. }
  destruct s as [c m b]. cbn [adc_config adc_sem adc_board] in *.
  assert (Hin : truthy (Z.land ampli (Z.lnot (Z.shiftl 1 2 - 1))) || truthy (Z.land channel (Z.lnot (Z.shiftl 1 4 - 1))) =
    negb (bool_decide (0 <= ampli < 4 ∧ 0 <= channel < 16))).
  { rewrite (mask_range ampli 2), (mask_range channel 4) by done.
    change (2 ^ 2) with 4. change (2 ^ 4) with 16. by repeat case_bool_decide; try tauto. }
  unfold reg_write, up, modify, mbind, M_bind, gets. cbn [adc_sem]. rewrite (proj2 (Z.gtb_lt m 0)) by lia.
  change (truthy 0) with false. cbv iota beta. rewrite Hin. unfold mret, M_ret. cbv iota beta. change (truthy 0) with false. cbv iota.
  case_bool_decide as Hr; cbn [negb].
  2: { eexists _, _, _. split; [reflexivity|]. split_and!; [simpl; lia|done|]. right. left. split_and!; done. }
  set (s1 := (_ <| adc_board := _ |>) : AS). destruct Hr as [Hampli Hchannel].
  assert (E1 : s1 = mk_adc_state c (m - 1) b1).
  { subst s1 b1. by rewrite <- (control_word ampli channel). }
  destruct (poll_run 15 POLLS 0 s1) as (res & s' & E & Es & Ec & Hres); [done|unfold POLLS; lia|].
  rewrite E. rewrite E1 in Es, Ec, Hres. cbn [adc_sem adc_config adc_board] in *. destruct s' as [c' m' b']. simpl in Es, Ec. subst.
  destruct Hres as [[-> Hno]|(k & Hk & Hrk & Hb & ->)]; (eexists _, _, _; split; [reflexivity|]);
    (split_and!; [simpl; lia|done|]); right; right; (split_and!; [done|lia|lia|lia|lia|]); [by left|].
  right. split; [done|]. exists k. split_and!; try done; apply land_u12.
Qed.
End adc.

(** A converter that is ready three rounds after the channel is written; its datum is the control word. *)
#[local] Instance sim_adc : AdcIO (Z * Z) := {
  adc_read a b := (if a =? 0x1004 then (if b.1 <? 3 then VMOD_12E16_RDY_BIT else 0) else 0xf000 + b.2, b);
  adc_write a v b := if a =? 0x1000 then (0, v) else b;
  adc_delay _ b := (b.1 + 1, b.2);
}.

Lemma conversion_ends_witness :
  ∃ rc data s', do_conversion false 5 2 (mk_adc_state (mk_vmod_dev 0 "vmodio" 0 0 0x1000 1) 1 (0, 0)) = Some ((rc, data), s') ∧
    adc_sem s' = 1 ∧ rc = 0 ∧ data = Some 0x25.
Proof.
  destruct (conversion_ends false 5 2 (mk_adc_state (mk_vmod_dev 0 "vmodio" 0 0 0x1000 1) 1 (0, 0)) eq_refl)
    as (rc & data & s' & E & Es & _). exists rc, data, s'. split; [exact E|]. split; [exact Es|].
  vm_compute in E. injection E as <- <- <-. done.
Defined.
