(* ===== verification/VmodTtl.v ===== *)
(** The digital I/O board: [src/vmod/driver/vmodttldrvr.c], with [vmodttl.h] and
    [cio8536.h].

    The board is a Z8536 with two ports of eight lines, A and B, and a port C for strobes.  The chip has one control
    address: a write selects a register, the next access goes to it ([CioLaws]).  The code of
    the ports A and B is the same but for the registers ([port_regs]). *)
From S2P Require Import Prelude VmodBus VmodCarrier VmodLunargs.

Local Open Scope Z_scope.

(** * Constants *)

Definition EIO : Z := 5.

Definition CHAN_A : Z := 0.
Definition CHAN_B : Z := 1.
Definition VMOD_TTL_CHANNEL_A : Z := 0.
Definition VMOD_TTL_CHANNEL_B : Z := 1.
Definition VMOD_TTL_CHANNELS_AB : Z := 2.
Definition A_CHAN_OUT : Z := 0x01.
Definition B_CHAN_OUT : Z := 0x02.
Definition C_CHAN_OUT : Z := 0x04.
Definition A_CHAN_IN : Z := 0x00.
Definition B_CHAN_IN : Z := 0x00.
Definition VMODTTL_O : Z := 0x08.
Definition A_CHAN_OPEN_COLLECTOR : Z := 0x01.
Definition B_CHAN_OPEN_COLLECTOR : Z := 0x02.
Definition C_CHAN_OPEN_COLLECTOR : Z := 0x04.
Definition NR_BITS : nat := 8.
Definition DEFAULT_DELAY : Z := 1.
Definition VMODTTL_PORTC : Z := 0.
Definition VMODTTL_PORTB : Z := 2.
Definition VMODTTL_PORTA : Z := 4.
Definition VMODTTL_CONTROL : Z := 6.

Definition MICR : Z := 0x00.
Definition MCCR : Z := 0x01.
Definition RESET : Z := 0x01.
Definition NV : Z := 0x20.
Definition MIE : Z := 0x80.
Definition PAE : Z := 0x04.
Definition PCE : Z := 0x10.
Definition PBE : Z := 0x80.
Definition PMSR_A : Z := 0x20.
Definition PMSR_B : Z := 0x28.
Definition PCSR_A : Z := 0x08.
Definition PCSR_B : Z := 0x09.
Definition IP : Z := 0x20.
Definition CLEAR_IP_IUS : Z := 0x20.
Definition CLEAR_IE : Z := 0xe0.
Definition SET_IE : Z := 0xc0.
Definition DPPR_A : Z := 0x22.
Definition DPPR_B : Z := 0x2a.
Definition DPPR_C : Z := 0x05.
Definition DDR_A : Z := 0x23.
Definition DDR_B : Z := 0x2b.
Definition DDR_C : Z := 0x06.
Definition SIOCR_A : Z := 0x24.
Definition SIOCR_B : Z := 0x2c.
Definition SIOCR_C : Z := 0x07.
Definition PPR_A : Z := 0x25.
Definition PPR_B : Z := 0x2d.
Definition PTR_A : Z := 0x26.
Definition PTR_B : Z := 0x2e.
Definition PMR_A : Z := 0x27.
Definition PMR_B : Z := 0x2f.

(** * Data *)

(** [struct vmodttl_pattern]: five bytes. *)
Record vmodttl_pattern := mk_pattern { pat_port : Z; pat_pos : Z; pat_ptr : Z; pat_pmr : Z; pat_ppr : Z }.

Definition zero_pattern : vmodttl_pattern := mk_pattern 0 0 0 0 0.

(** [struct vmodttlconfig] *)
Record vmodttlconfig := mk_config {
  cf_io_flag : Z;
  cf_us_pulse : Z;
  cf_open_collector : Z;
  cf_invert : Z;
  pattern_mode_a : Z;
  pattern_mode_b : Z;
  bit_pattern_a : list vmodttl_pattern;
  bit_pattern_b : list vmodttl_pattern
}.

Definition zero_config : vmodttlconfig :=
  mk_config 0 0 0 0 0 0 (replicate NR_BITS zero_pattern) (replicate NR_BITS zero_pattern).

(** What these functions use of [struct vmodttl_dev]; [ttl_lock] is [vmodttl_spinlock]. *)
Record vmodttl_dev := mk_vmodttl_dev {
  ttl_config : vmod_dev;
  OpenCount : Z;
  io_flag : Z;
  us_pulse : Z;
  open_collector : Z;
  ttl_lock : bool;
  ttl_irq : Z;
  ioconfig : vmodttlconfig;
  messages : Z * Z
}.

(** The registers and bits of a port. *)
Record port_regs := mk_port { pr_pcsr : Z; pr_pmsr : Z; pr_ddr : Z; pr_dppr : Z; pr_siocr : Z; pr_ppr : Z; pr_ptr : Z; pr_pmr : Z;
  pr_out : Z; pr_oc : Z; pr_enable : Z }.

Definition port_A : port_regs := mk_port PCSR_A PMSR_A DDR_A DPPR_A SIOCR_A PPR_A PTR_A PMR_A A_CHAN_OUT A_CHAN_OPEN_COLLECTOR PAE.
Definition port_B : port_regs := mk_port PCSR_B PMSR_B DDR_B DPPR_B SIOCR_B PPR_B PTR_B PMR_B B_CHAN_OUT B_CHAN_OPEN_COLLECTOR PBE.

(** * The chip *)

(** 16-bit accesses, big endian or not, and [udelay]. *)
Class CioIO (B : Type) := {
  cio_read : bool → Z → B → Z * B;
  cio_write : bool → Z → Z → B → B;
  cio_delay : Z → B → B;
}.

Section ttl.
Context {B : Type} `{CioIO B}.

Record ttl_state := mk_ttl_state { pd : vmodttl_dev; board : B }.
Notation T := (M ttl_state).

Definition upd_pd (f : vmodttl_dev → vmodttl_dev) : T () := modify (λ s : ttl_state, s <| pd := f (pd s) |>).

Definition vmodttl_read_word (offset : Z) : T Z := λ s,
  let c := ttl_config (pd s) in
  let '(v, b) := cio_read (truthy (is_big_endian c)) (u64 (address c + offset)) (board s) in
  Some (v mod 2 ^ 16, s <| board := b |>).

Definition vmodttl_write_word (offset value : Z) : T () :=
  modify (λ s : ttl_state, let c := ttl_config (pd s) in
    s <| board := cio_write (truthy (is_big_endian c)) (u64 (address c + offset)) (value mod 2 ^ 16) (board s) |>).

Definition vmodttl_write_reg (offset value : Z) : T () :=
  vmodttl_write_word VMODTTL_CONTROL offset;;
  vmodttl_write_word VMODTTL_CONTROL value.

Definition vmodttl_read_reg (offset : Z) : T Z :=
  vmodttl_write_word VMODTTL_CONTROL offset;;
  vmodttl_read_word VMODTTL_CONTROL.

Definition udelay (us : Z) : T () := modify (λ s : ttl_state, s <| board := cio_delay us (board s) |>).

(** [spin_lock], [spin_lock_irqsave] of [vmodttl_spinlock]; taken twice they never return. *)
Definition lock : T () :=
  l ← gets (λ s : ttl_state, ttl_lock (pd s));
  if l : bool then stuck else upd_pd (λ d : vmodttl_dev, d <| ttl_lock := true |>).
Definition unlock : T () := upd_pd (λ d : vmodttl_dev, d <| ttl_lock := false |>).

(** * Initialisation *)

(** Port A or B in [vmodttl_def_io]. *)
Definition def_port (p : port_regs) : T () :=
  d ← gets pd;
  vmodttl_write_reg (pr_pcsr p) CLEAR_IE;;
  vmodttl_write_reg (pr_pcsr p) CLEAR_IP_IUS;;
  vmodttl_write_reg (pr_pmsr p) 0x14;;
  (if Z.land (open_collector d) (pr_oc p) =? pr_oc p then
     if truthy (Z.land (io_flag d) (pr_out p)) then
       vmodttl_write_reg (pr_ddr p) 0x00;;
       vmodttl_write_reg (pr_dppr p) 0x00
     else
       vmodttl_write_reg (pr_ddr p) 0xff;;
       if truthy (Z.land (io_flag d) VMODTTL_O) then vmodttl_write_reg (pr_dppr p) 0xff
       else vmodttl_write_reg (pr_dppr p) 0x00
   else
     (if truthy (Z.land (io_flag d) (pr_out p)) then vmodttl_write_reg (pr_ddr p) 0x00
      else vmodttl_write_reg (pr_ddr p) 0xff);;
     if truthy (Z.land (io_flag d) VMODTTL_O) then vmodttl_write_reg (pr_dppr p) 0xff
     else vmodttl_write_reg (pr_dppr p) 0x00);;
  vmodttl_write_reg (pr_siocr p) 0x00.

Definition vmodttl_def_io : T () :=
  vmodttl_write_reg MCCR 0;;
  def_port port_A;;
  def_port port_B;;
  d ← gets pd;
  (if Z.land (open_collector d) C_CHAN_OPEN_COLLECTOR =? C_CHAN_OPEN_COLLECTOR then
     vmodttl_write_reg DDR_C 0x00;;
     vmodttl_write_reg DPPR_C 0x00
   else
     vmodttl_write_reg DDR_C 0x00;;
     if truthy (Z.land (io_flag d) VMODTTL_O) then vmodttl_write_reg DPPR_C 0x0f
     else vmodttl_write_reg DPPR_C 0x00);;
  vmodttl_write_reg SIOCR_C 0x00;;
  v ← vmodttl_read_reg MCCR;
  vmodttl_write_reg MCCR (u8 (Z.lor v (Z.lor PAE (Z.lor PBE PCE)))).

Definition vmodttl_default : T () :=
  lock;;
  vmodttl_read_word VMODTTL_CONTROL;;
  vmodttl_write_reg MCCR 0;;
  vmodttl_read_reg MICR;;
  vmodttl_write_reg MICR 0;;
  vmodttl_write_reg MICR RESET;;
  vmodttl_write_word VMODTTL_CONTROL 0;;
  vmodttl_def_io;;
  i ← vmodttl_read_reg MICR;
  vmodttl_write_reg MICR (Z.lor i (Z.lor MIE NV));;
  unlock.

Definition vmodttl_open : T Z := upd_pd (λ d : vmodttl_dev, d <| OpenCount := s32 (OpenCount d + 1) |>);; mret 0.
Definition vmodttl_release : T Z := upd_pd (λ d : vmodttl_dev, d <| OpenCount := s32 (OpenCount d - 1) |>);; mret 0.

(** * Interrupts *)

(** The loop that looks for the port, [n] rounds. *)
Fixpoint find_port (n : nat) : T (option port_regs) :=
  match n with
  | O => mret None
  | S n =>
    a ← vmodttl_read_reg PCSR_A;
    if truthy (Z.land a IP) then mret (Some port_A) else
    b ← vmodttl_read_reg PCSR_B;
    if truthy (Z.land b IP) then mret (Some port_B) else find_port n
  end.

(** The spinlock of the readers is taken and released inside. *)
Definition vmodttl_interrupt : T Z :=
  p ← find_port 10;
  match p with
  | None =>
    vmodttl_write_reg PCSR_A CLEAR_IP_IUS;;
    vmodttl_write_reg PCSR_B CLEAR_IP_IUS;;
    mret (- 1)
  | Some p =>
    let '(dev, port) := if pr_pcsr p =? PCSR_A then (CHAN_A, VMODTTL_PORTA) else (CHAN_B, VMODTTL_PORTB) in
    val ← vmodttl_read_word port;
    vmodttl_write_reg (pr_pcsr p) CLEAR_IP_IUS;;
    upd_pd (λ d : vmodttl_dev, d <| messages := (dev, u8 val) |> <| ttl_irq := 1 |>);;
    mret 0
  end.

(** * Requests *)

Definition vmodttl_change_bit (reg bit pos : Z) : Z :=
  let reg := Z.land reg 0xff in
  let value := u8 (Z.shiftl bit pos) in
  let mask := u8 (Z.lnot (Z.shiftl 1 pos)) in
  Z.lor (Z.land reg mask) value.

(** A pattern register: read, change a bit, write. *)
Definition change_reg (reg bit pos : Z) : T () :=
  byte ← vmodttl_read_reg reg;
  vmodttl_write_reg reg (vmodttl_change_bit byte bit pos).

(** The case of port A or B in [vmodttl_pattern]; both keep the request in [bit_pattern_a]. *)
Definition pattern_port (p : port_regs) (mode : vmodttlconfig → Z) (buf : vmodttl_pattern) : T Z :=
  d ← gets pd;
  if truthy (Z.land (io_flag d) (pr_out p)) then unlock;; mret (- EIO) else
  l ← lift_opt (array_set (bit_pattern_a (ioconfig d)) (pat_pos buf) buf);
  upd_pd (λ d : vmodttl_dev, d <| ioconfig := (ioconfig d) <| bit_pattern_a := l |> |>);;
  vmodttl_write_reg (pr_pcsr p) CLEAR_IE;;
  vmodttl_write_reg (pr_pcsr p) CLEAR_IP_IUS;;
  byte ← vmodttl_read_reg MCCR;
  vmodttl_write_reg MCCR (Z.land byte (Z.lnot (pr_enable p)));;
  vmodttl_write_reg (pr_pmsr p) (if truthy (mode (ioconfig d)) then 0x12 else 0x14);;
  vmodttl_write_reg (pr_dppr p) (if truthy (Z.land (io_flag d) VMODTTL_O) then 0xff else 0x00);;
  vmodttl_write_reg (pr_ddr p) 0xff;;
  vmodttl_write_reg (pr_siocr p) 0x00;;
  change_reg (pr_ppr p) (pat_ppr buf) (pat_pos buf);;
  change_reg (pr_ptr p) (pat_ptr buf) (pat_pos buf);;
  change_reg (pr_pmr p) (pat_pmr buf) (pat_pos buf);;
  byte ← vmodttl_read_reg MCCR;
  vmodttl_write_reg MCCR (Z.lor byte (pr_enable p));;
  vmodttl_write_reg (pr_pcsr p) SET_IE;;
  tmp ← vmodttl_read_reg MICR;
  vmodttl_write_reg MICR (Z.lor tmp (Z.lor MIE NV));;
  unlock;;
  mret 0.

(** [vmodttl_pattern]; its [default] cannot be reached. *)
Definition vmodttl_pattern_fn (buf : vmodttl_pattern) : T Z :=
  if (pat_port buf <? CHAN_A) || (pat_port buf >? CHAN_B) then mret (- EINVAL) else
  lock;;
  tmp ← vmodttl_read_reg MICR;
  vmodttl_write_reg MICR (Z.land tmp (Z.lnot MIE));;
  if pat_port buf =? CHAN_A then pattern_port port_A pattern_mode_a buf else pattern_port port_B pattern_mode_b buf.

Definition vmodttl_config (conf : vmodttlconfig) : T Z :=
  lock;;
  if (cf_io_flag conf >? A_CHAN_OUT + B_CHAN_OUT + C_CHAN_OUT) || (cf_io_flag conf <? 0) then unlock;; mret (- EINVAL) else
  upd_pd (λ d : vmodttl_dev, d <| io_flag := cf_io_flag conf |>
    <| us_pulse := if cf_us_pulse conf <? DEFAULT_DELAY then DEFAULT_DELAY else cf_us_pulse conf |>);;
  (if truthy (cf_invert conf) then upd_pd (λ d : vmodttl_dev, d <| io_flag := Z.lor (io_flag d) VMODTTL_O |>) else mret ());;
  upd_pd (λ d : vmodttl_dev, d <| open_collector := cf_open_collector conf |>);;
  vmodttl_def_io;;
  unlock;;
  mret 0.

(** The pulse on port C at the end of a transfer. *)
Definition strobe (value : Z) : T () :=
  vmodttl_write_word VMODTTL_PORTC value;;
  d ← gets pd;
  udelay (us_pulse d);;
  vmodttl_write_word VMODTTL_PORTC 0.

Definition vmodttl_read_chan (dev : Z) : T Z :=
  lock;;
  '(val, strobe_value) ←
    (if dev =? VMOD_TTL_CHANNEL_A then v ← vmodttl_read_word VMODTTL_PORTA; mret (Z.land v 0xff, 0x04)
     else if dev =? VMOD_TTL_CHANNEL_B then v ← vmodttl_read_word VMODTTL_PORTB; mret (Z.land v 0xff, 0x08)
     else if dev =? VMOD_TTL_CHANNELS_AB then
       a ← vmodttl_read_word VMODTTL_PORTA;
       b ← vmodttl_read_word VMODTTL_PORTB;
       mret (Z.lor (Z.land a 0xff) (Z.shiftl (Z.land b 0xff) 8), 0)
     else mret (0, 0));
  strobe strobe_value;;
  unlock;;
  mret val.

Definition vmodttl_write_chan (dev val : Z) : T Z :=
  let data := val mod 2 ^ 16 in
  if (dev <? VMOD_TTL_CHANNEL_A) || (dev >? VMOD_TTL_CHANNELS_AB) then mret (- EINVAL) else
  lock;;
  d ← gets pd;
  let a_in := Z.land (io_flag d) A_CHAN_OUT =? A_CHAN_IN in
  let b_in := Z.land (io_flag d) B_CHAN_OUT =? B_CHAN_IN in
  r ← (if dev =? VMOD_TTL_CHANNEL_A then
         if a_in then mret None else
         vmodttl_write_word VMODTTL_PORTA data;;
         tmp ← vmodttl_read_reg MCCR;
         vmodttl_write_reg MCCR (Z.lor tmp PAE);;
         mret (Some 0x01)
       else if dev =? VMOD_TTL_CHANNEL_B then
         if b_in then mret None else
         vmodttl_write_word VMODTTL_PORTB data;;
         tmp ← vmodttl_read_reg MCCR;
         vmodttl_write_reg MCCR (Z.lor tmp PBE);;
         mret (Some 0x02)
       else
         if b_in || a_in then mret None else
         vmodttl_write_word VMODTTL_PORTA (Z.land data 0xff);;
         vmodttl_read_reg MCCR;;
         vmodttl_write_word VMODTTL_PORTB (Z.land (Z.shiftr data 8) 0xff);;
         tmp ← vmodttl_read_reg MCCR;
         vmodttl_write_reg MCCR (Z.lor tmp (Z.lor PAE PBE));;
         mret (Some 0x03));
  match r with
  | None => unlock;; mret (- EIO)
  | Some strobe_value => strobe strobe_value;; unlock;; mret 0
  end.

(** The requests of [vmodttl_ioctl]; [VMODTTL_FAULT]: the request cannot be copied from user space. *)
Inductive ttl_request :=
  | VMODTTL_CONFIG (conf : vmodttlconfig)
  | VMODTTL_READ_CONFIG
  | VMODTTL_SIMPIO
  | VMODTTL_PATTERN (buf : vmodttl_pattern)
  | VMODTTL_READ_CHAN (dev : Z)
  | VMODTTL_WRITE_CHAN (dev val : Z)
  | VMODTTL_FAULT (channel_request : bool)
  | VMODTTL_OTHER.

Inductive ttl_reply := NoData | Config (conf : vmodttlconfig) | Value (val : Z).

Definition vmodttl_ioctl (r : ttl_request) : T (Z * ttl_reply) :=
  match r with
  | VMODTTL_CONFIG conf =>
    upd_pd (λ d : vmodttl_dev, d <| ioconfig := conf |>);;
    ret ← vmodttl_config conf;
    mret (if ret <? 0 then ret else 0, NoData)
  | VMODTTL_READ_CONFIG => d ← gets pd; mret (0, Config (ioconfig d))
  | VMODTTL_SIMPIO => vmodttl_def_io;; mret (0, NoData)
  | VMODTTL_PATTERN buf =>
    ret ← vmodttl_pattern_fn buf;
    mret (if ret <? 0 then ret else 0, NoData)
  | VMODTTL_READ_CHAN dev =>
    let channel := Z.land dev 0x00ff in
    if (channel <? VMOD_TTL_CHANNEL_A) || (channel >? VMOD_TTL_CHANNELS_AB) then mret (- EINVAL, NoData) else
    val ← vmodttl_read_chan dev;
    mret (0, Value val)
  | VMODTTL_WRITE_CHAN dev val =>
    ret ← vmodttl_write_chan dev val;
    mret (if ret <? 0 then ret else 0, NoData)
  | VMODTTL_FAULT channel_request => mret (if channel_request then - EIO else - EFAULT, NoData)
  | VMODTTL_OTHER => mret (- EINVAL, NoData)
  end.
End ttl.
Arguments ttl_state : clear implicits.
