(* ===== verification/VmodTtlProofs.v ===== *)
(** The digital I/O board: whatever is requested, the chip and the driver agree on the directions of the
    ports.

    [CioLaws] states what the manual of the Z8536 says of its control address and of the
    registers that are used; [Z8536] is a chip with this behaviour. *)
From S2P Require Import Prelude VmodBus VmodCarrier VmodLunargs VmodTtl.

Local Open Scope Z_scope.

(** * The chip *)

(** The control address: a write selects a register, the next access goes to it; in reset
    only the reset bit can be written. *)
Inductive cio_phase := Idle | Pointing (r : Z) | InReset.

(** Registers that read as they were written. *)
Definition plain (r : Z) : bool := bool_decide (r ∈ [MICR; MCCR; DPPR_C; DDR_C; SIOCR_C;
  PMSR_A; DPPR_A; DDR_A; SIOCR_A; PPR_A; PTR_A; PMR_A; PMSR_B; DPPR_B; DDR_B; SIOCR_B; PPR_B; PTR_B; PMR_B]).

(** The bit of MCCR that enables the port a register belongs to. *)
Definition owner (r : Z) : Z :=
  if bool_decide (0x20 <= r < 0x28) then PAE else if bool_decide (0x28 <= r < 0x30) then PBE
  else if bool_decide (5 <= r < 8) then PCE else 0.

(** The registers of a port can be relied on only if they are written while it is disabled. *)
Definition settable (R : Z → Z) (r : Z) : Prop := Z.land (R MCCR) (owner r) = 0.

Definition upd (r v : Z) (R : Z → Z) : Z → Z := λ r', if r' =? r then v else R r'.

(** The state of a chip, as far as it can be relied on. *)
Record cio_at {B} (phase : B → cio_phase) (reg latch : B → Z → Z) (ph : cio_phase) (R L : Z → Z) (b : B) : Prop := mk_cio_at {
  at_phase : phase b = ph;
  at_reg : ∀ r, plain r = true → reg b r = R r;
  at_latch : ∀ p, latch b p = L p
}.

(** A Z8536 whose ports and control address lie from [base] on. *)
Class CioLaws (B : Type) `{CioIO B} (be : bool) (base : Z) := {
  phase : B → cio_phase;
  reg : B → Z → Z;
  latch : B → Z → Z;
  in_space : 0 <= base ∧ base + 8 <= 2 ^ 64;
  select_law R L b r : cio_at phase reg latch Idle R L b → 0 <= r < 64 →
    cio_at phase reg latch (Pointing r) R L (cio_write be (base + VMODTTL_CONTROL) r b);
  store_law R L b r v : cio_at phase reg latch (Pointing r) R L b → settable R r → (r = MICR → Z.odd v = false) →
    cio_at phase reg latch Idle (if plain r then upd r (v mod 256) R else R) L (cio_write be (base + VMODTTL_CONTROL) v b);
  read_law R L b r : cio_at phase reg latch (Pointing r) R L b →
    let '(v, b') := cio_read be (base + VMODTTL_CONTROL) b in
    cio_at phase reg latch Idle R L b' ∧ (plain r = true → v mod 256 = R r);
  sync_law b : phase b ≠ InReset → phase (cio_read be (base + VMODTTL_CONTROL) b).2 = Idle;
  reset_law b v : phase b = Pointing MICR → Z.odd v = true → phase (cio_write be (base + VMODTTL_CONTROL) v b) = InReset;
  in_reset_law b v : phase b = InReset →
    (if Z.odd v then phase (cio_write be (base + VMODTTL_CONTROL) v b) = InReset
     else phase (cio_write be (base + VMODTTL_CONTROL) v b) = Idle ∧ Z.odd (reg (cio_write be (base + VMODTTL_CONTROL) v b) MICR) = false) ∧
    phase (cio_read be (base + VMODTTL_CONTROL) b).2 = InReset;
  data_write_law R L b p v : cio_at phase reg latch Idle R L b → p ∈ [VMODTTL_PORTA; VMODTTL_PORTB; VMODTTL_PORTC] →
    (p = VMODTTL_PORTC → v < 16) →
    cio_at phase reg latch Idle R (upd p (v mod 256) L) (cio_write be (base + p) v b);
  data_read_law R L b p : cio_at phase reg latch Idle R L b → p ∈ [VMODTTL_PORTA; VMODTTL_PORTB; VMODTTL_PORTC] →
    cio_at phase reg latch Idle R L (cio_read be (base + p) b).2;
  delay_law R L b us : cio_at phase reg latch Idle R L b → cio_at phase reg latch Idle R L (cio_delay us b);
}.

(** * Symbolic execution *)

Section proofs.
Context {B : Type} `{CL : CioLaws B be base}.
Notation T := (M (ttl_state B)).
Implicit Types (d : vmodttl_dev) (b : B) (R L : Z → Z).

Notation at_ := (cio_at phase reg latch Idle).

(** The device is configured to this chip. *)
Definition wired d : Prop := truthy (is_big_endian (ttl_config d)) = be ∧ address (ttl_config d) = base.

(** The registers after a write. *)
Definition store (r v : Z) R : Z → Z := if plain r then upd r (v mod 256) R else R.

Lemma port_address d o : wired d → 0 <= o < 8 → u64 (address (ttl_config d) + o) = base + o.
Proof. intros [_ ->] Ho. apply Z.mod_small. pose proof in_space. lia. Qed.

Lemma write_word_run d b o v : wired d → 0 <= o < 8 →
  vmodttl_write_word o v (mk_ttl_state d b) = Some ((), mk_ttl_state d (cio_write be (base + o) (v mod 2 ^ 16) b)).
Proof.
  intros Hd Ho. unfold vmodttl_write_word, modify. cbn [pd board].
  rewrite port_address by done. by destruct Hd as [-> _].
Qed.

Lemma read_word_run d b o : wired d → 0 <= o < 8 →
  vmodttl_read_word o (mk_ttl_state d b) =
    Some ((cio_read be (base + o) b).1 mod 2 ^ 16, mk_ttl_state d (cio_read be (base + o) b).2).
Proof.
  intros Hd Ho. unfold vmodttl_read_word. cbn [pd board]. rewrite port_address by done. destruct Hd as [-> _].
  by destruct (cio_read be (base + o) b).
Qed.

Lemma wp_write_word d b o v Q : wired d → 0 <= o < 8 → Q () (mk_ttl_state d (cio_write be (base + o) (v mod 2 ^ 16) b)) →
  wp (vmodttl_write_word o v) Q (mk_ttl_state d b).
Proof. intros Hd Ho HQ. unfold wp. by rewrite write_word_run. Qed.

Lemma wp_read_word d b o Q : wired d → 0 <= o < 8 →
  Q ((cio_read be (base + o) b).1 mod 2 ^ 16) (mk_ttl_state d (cio_read be (base + o) b).2) →
  wp (vmodttl_read_word o) Q (mk_ttl_state d b).
Proof. intros Hd Ho HQ. unfold wp. by rewrite read_word_run. Qed.

Lemma mod_16_8 v : v mod 2 ^ 16 mod 256 = v mod 256.
Proof. change (2 ^ 16) with (256 * 256). rewrite Z.rem_mul_r, (Z.mul_comm 256 (_ mod _)), Z.mod_add by lia. by rewrite Z.mod_mod. Qed.

Lemma odd_mod_16 v : Z.odd (v mod 2 ^ 16) = Z.odd v.
Proof. rewrite <- !Z.bit0_odd. by apply Z.mod_pow2_bits_low. Qed.

Lemma wp_write_reg d b R L r v Q : wired d → at_ R L b → 0 <= r < 64 → settable R r → (r = MICR → Z.odd v = false) →
  (∀ b', at_ (store r v R) L b' → Q () (mk_ttl_state d b')) → wp (vmodttl_write_reg r v) Q (mk_ttl_state d b).
Proof.
  intros Hd Hat Hr Hs Ho HQ. unfold vmodttl_write_reg. wp_step. apply wp_write_word; [done|done|].
  rewrite (Z.mod_small r) by lia. apply wp_write_word; [done|done|]. apply HQ.
  unfold store. rewrite <- mod_16_8. apply store_law; [by apply select_law|done|]. intros ->. rewrite odd_mod_16. auto.
Qed.

Lemma wp_read_reg d b R L r Q : wired d → at_ R L b → 0 <= r < 64 →
  (∀ v b', at_ R L b' → (plain r = true → v mod 256 = R r) → Q v (mk_ttl_state d b')) → wp (vmodttl_read_reg r) Q (mk_ttl_state d b).
Proof.
  intros Hd Hat Hr HQ. unfold vmodttl_read_reg. wp_step. apply wp_write_word; [done|done|].
  rewrite (Z.mod_small r) by lia. apply wp_read_word; [done|done|].
  pose proof (read_law R L _ r (select_law R L b r Hat Hr)) as Hl. destruct (cio_read _ _ _) as [v b'] eqn:E.
  destruct Hl as [Hat' Hv]. apply HQ; [done|]. intros Hp. cbn [fst]. rewrite mod_16_8. auto.
Qed.

Lemma wp_gets_pd {A} (f : vmodttl_dev → A) d b Q : Q (f d) (mk_ttl_state d b) → wp (gets (λ s : ttl_state B, f (pd s))) Q (mk_ttl_state d b).
Proof. done. Qed.

Lemma wp_upd_pd f d b (Q : () → ttl_state B → Prop) : Q () (mk_ttl_state (f d) b) → wp (upd_pd f) Q (mk_ttl_state d b).
Proof. done. Qed.

Lemma wp_lock d b (Q : () → ttl_state B → Prop) : ttl_lock d = false → Q () (mk_ttl_state (d <| ttl_lock := true |>) b) → wp lock Q (mk_ttl_state d b).
Proof. intros Hl HQ. unfold lock. wp_step. wp_step. cbn [pd]. by rewrite Hl. Qed.

Lemma wp_unlock d b (Q : () → ttl_state B → Prop) : Q () (mk_ttl_state (d <| ttl_lock := false |>) b) → wp unlock Q (mk_ttl_state d b).
Proof. done. Qed.

Lemma store_other r v R r' : r' ≠ r → store r v R r' = R r'.
Proof. intros Hne. unfold store. destruct (plain r); [|done]. unfold upd. by rewrite (proj2 (Z.eqb_neq r' r)). Qed.

Lemma store_same r v R : plain r = true → store r v R r = v mod 256.
Proof. intros Hp. unfold store, upd. by rewrite Hp, Z.eqb_refl. Qed.
(** Run the next register access: a write, or a read. *)
Ltac skip := repeat (rewrite store_other by (vm_compute; discriminate)).
Ltac settable_tac := unfold settable; skip; first [apply Z.land_0_r|assumption|by rewrite store_same].
Ltac bind_step := repeat lazymatch goal with |- wp (_ ≫= _) _ _ => apply wp_bind; cbv beta end.
Ltac even_tac := first [let E := fresh in intros E; vm_compute in E; discriminate E|reflexivity|assumption].
Ltac wreg := bind_step; lazymatch goal with |- wp (vmodttl_write_reg _ _) _ _ => idtac end; eapply wp_write_reg; [done|eassumption|by vm_compute|settable_tac|even_tac|];
  let b := fresh "b" in let Hb := fresh "Hat" in intros b Hb; cbv beta.
Ltac rreg := bind_step; eapply wp_read_reg; [done|eassumption|by vm_compute|];
  let v := fresh "v" in let b := fresh "b" in let Hb := fresh "Hat" in let Hv := fresh "Hread" in
  intros v b Hb Hv; cbv beta.

(** * The configuration of the ports *)

(** What the direction and polarity registers of a port have to be. *)
Definition ddr_of d (p : port_regs) : Z := if truthy (Z.land (io_flag d) (pr_out p)) then 0x00 else 0xff.
Definition dppr_of d (p : port_regs) : Z :=
  if (Z.land (open_collector d) (pr_oc p) =? pr_oc p) && truthy (Z.land (io_flag d) (pr_out p)) then 0x00
  else if truthy (Z.land (io_flag d) VMODTTL_O) then 0xff else 0x00.

Definition port_agrees d R (p : port_regs) : Prop := R (pr_ddr p) = ddr_of d p ∧ R (pr_dppr p) = dppr_of d p.

(** The chip agrees with the flags of the driver; its ports are enabled. *)
Definition agrees d R : Prop :=
  port_agrees d R port_A ∧ port_agrees d R port_B ∧ R DDR_C = 0x00 ∧
  R DPPR_C = (if (Z.land (open_collector d) C_CHAN_OPEN_COLLECTOR =? C_CHAN_OPEN_COLLECTOR)
    then 0x00 else if truthy (Z.land (io_flag d) VMODTTL_O) then 0x0f else 0x00) ∧
  Z.land (R MCCR) (Z.lor PAE (Z.lor PBE PCE)) = Z.lor PAE (Z.lor PBE PCE).

(** The registers of a port. *)
Definition port_set (p : port_regs) : list Z := [pr_pmsr p; pr_ddr p; pr_dppr p; pr_siocr p; pr_ppr p; pr_ptr p; pr_pmr p].

Definition is_port (p : port_regs) : Prop := p = port_A ∨ p = port_B.

Ltac elsewhere := apply (bool_decide_unpack _); by vm_compute.
Ltac regs_tac := repeat first [rewrite store_same by reflexivity|rewrite store_other by (vm_compute; discriminate)].

Lemma def_port_spec p d b R L : is_port p → wired d → at_ R L b → Z.land (R MCCR) (pr_enable p) = 0 →
  wp (def_port p) (λ _ s', ∃ R' b', s' = mk_ttl_state d b' ∧ at_ R' L b' ∧ port_agrees d R' p ∧
    ∀ r, r ∉ port_set p → r ≠ pr_pcsr p → R' r = R r) (mk_ttl_state d b).
Proof.
  intros Hp Hd Hat Hen. unfold def_port, port_agrees, ddr_of, dppr_of. wp_step. wp_step. cbn [pd].
  destruct Hp as [-> | ->]; cbn [port_set port_A port_B pr_pcsr pr_pmsr pr_ddr pr_dppr pr_siocr pr_ppr pr_ptr pr_pmr pr_out pr_oc pr_enable] in *;
    repeat wreg; (destruct (_ =? _), (truthy (Z.land (io_flag d) VMODTTL_O)); cbn [andb]);
    wp_step; destruct (truthy _); repeat wreg; (eexists _, _; split_and!; [reflexivity|eassumption|by regs_tac|by regs_tac|]);
    intros r Hr Hne; repeat (rewrite store_other by set_solver); done.
Qed.

Lemma land_lor_mod v m : 0 <= m < 256 → Z.land (Z.lor v m mod 256) m = m.
Proof.
  intros Hm. change 256 with (2 ^ 8). rewrite <- Z.land_ones, <- Z.land_assoc, (Z.land_comm _ m) by lia.
  rewrite (Z.land_ones m), Z.mod_small by lia. apply Z.bits_inj'. intros i Hi. rewrite Z.land_spec, Z.lor_spec.
  by destruct (Z.testbit v i), (Z.testbit m i).
Qed.

Lemma land_lor_u8 v m : 0 <= m < 256 → Z.land (u8 (Z.lor v m) mod 256) m = m.
Proof. intros Hm. unfold u8. change (2 ^ 8) with 256. rewrite Z.mod_mod by done. by apply land_lor_mod. Qed.

Lemma def_io_spec d b R L : wired d → at_ R L b →
  wp vmodttl_def_io (λ _ s', ∃ R' b', s' = mk_ttl_state d b' ∧ at_ R' L b' ∧ agrees d R' ∧ R' MICR = R MICR) (mk_ttl_state d b).
Proof.
  intros Hd Hat. unfold vmodttl_def_io. wreg.
  wp_step. eapply wp_mono; [apply (def_port_spec port_A); [by left|done|eassumption|by rewrite store_same]|].
  intros _ s (R1 & b1 & -> & Hat1 & Ha & Ho1). cbv beta.
  assert (E1 : R1 MCCR = 0) by (rewrite Ho1 by elsewhere; by rewrite store_same).
  wp_step. eapply wp_mono; [apply (def_port_spec port_B); [by right|done|eassumption|by rewrite E1]|].
  intros _ s (R2 & b2 & -> & Hat2 & Hb & Ho2). cbv beta.
  assert (E2 : Z.land (R2 MCCR) (owner DDR_C) = 0) by (rewrite Ho2 by elsewhere; by rewrite E1).
  wp_step. wp_step. cbn [pd]. unfold agrees, port_agrees, ddr_of, dppr_of in *.
  destruct (Z.land (open_collector d) C_CHAN_OPEN_COLLECTOR =? C_CHAN_OPEN_COLLECTOR), (truthy (Z.land (io_flag d) VMODTTL_O)) eqn:Einv;
    rewrite ?Einv in Ha, Hb; destruct Ha, Hb;
    repeat wreg; rreg; wreg; (eexists _, _; split_and!; [reflexivity|eassumption|..]); regs_tac;
    try (by apply land_lor_u8); try reflexivity;
    first [assumption|rewrite Ho2 by elsewhere; first [assumption|rewrite Ho1 by elsewhere; by regs_tac]].
Qed.
(** * Bits of the master registers *)

Definition ALL_PORTS : Z := Z.lor PAE (Z.lor PBE PCE).

Lemma mod_256_bit v i : 0 <= i → Z.testbit (v mod 256) i = (i <? 8) && Z.testbit v i.
Proof.
  intros Hi. change 256 with (2 ^ 8). destruct (Z.ltb_spec i 8); [by rewrite Z.mod_pow2_bits_low by lia|].
  by rewrite Z.mod_pow2_bits_high by lia.
Qed.

Lemma odd_mod_256 v : Z.odd (v mod 256) = Z.odd v.
Proof. by rewrite <- !Z.bit0_odd, mod_256_bit. Qed.

Lemma odd_read v r : v mod 256 = r → Z.odd r = false → Z.odd v = false.
Proof. intros <-. by rewrite odd_mod_256. Qed.

Lemma odd_mask v m : Z.odd v = false → Z.odd (Z.land v m) = false.
Proof. rewrite <- !Z.bit0_odd, Z.land_spec. by intros ->. Qed.

Lemma odd_set v m : Z.odd m = false → Z.odd v = false → Z.odd (Z.lor v m) = false.
Proof. rewrite <- !Z.bit0_odd, Z.lor_spec. by intros -> ->. Qed.

(** Setting bits keeps those that are set. *)
Lemma ports_set v r e : v mod 256 = r → Z.land r ALL_PORTS = ALL_PORTS → Z.land (Z.lor v e mod 256) ALL_PORTS = ALL_PORTS.
Proof.
  intros <- Hm. apply Z.bits_inj'. intros i Hi. apply (f_equal (λ z, Z.testbit z i)) in Hm.
  rewrite Z.land_spec, mod_256_bit in * by done. rewrite Z.lor_spec.
  destruct (Z.testbit ALL_PORTS i); [|by rewrite andb_false_r]. rewrite andb_true_r in *.
  apply andb_true_iff in Hm as [-> ->]. done.
Qed.

(** A port is disabled and enabled again. *)
Lemma port_disabled v e : Z.land (Z.land v (Z.lnot e) mod 256) e = 0.
Proof.
  apply Z.bits_inj'. intros i Hi. rewrite Z.land_spec, mod_256_bit, Z.land_spec, Z.lnot_spec, Z.bits_0 by done.
  destruct (Z.testbit e i), (i <? 8), (Z.testbit v i); done.
Qed.

Lemma port_enabled v w r e : v mod 256 = r → w mod 256 = Z.land v (Z.lnot e) mod 256 → Z.land r ALL_PORTS = ALL_PORTS →
  Z.land (Z.lor w e mod 256) ALL_PORTS = ALL_PORTS.
Proof.
  intros <- Hw Hm. apply Z.bits_inj'. intros i Hi.
  apply (f_equal (λ z, Z.testbit z i)) in Hw, Hm.
  rewrite ?Z.land_spec, ?mod_256_bit, ?Z.land_spec, ?Z.lnot_spec in * by done. rewrite Z.lor_spec.
  destruct (Z.testbit ALL_PORTS i), (i <? 8), (Z.testbit e i), (Z.testbit v i), (Z.testbit w i); done.
Qed.

(** * Requests *)

(** Registers that [agrees] says nothing of. *)
Definition free_reg (r : Z) : bool := bool_decide (r ∉ [DDR_A; DPPR_A; DDR_B; DPPR_B; DDR_C; DPPR_C; MCCR]).

Lemma agrees_store d r v R : free_reg r = true → agrees d R → agrees d (store r v R).
Proof.
  unfold free_reg, agrees, port_agrees. intros Hr%bool_decide_eq_true Hag.
  rewrite !store_other; [done|intros E; apply Hr; rewrite <- E; apply (bool_decide_unpack _); by vm_compute..].
Qed.

Lemma agrees_ports d v R : Z.land (v mod 256) ALL_PORTS = ALL_PORTS → agrees d R → agrees d (store MCCR v R).
Proof.
  unfold agrees, port_agrees. intros Hv (H1 & H2 & H3 & H4 & _). rewrite store_same by done.
  rewrite !store_other by (vm_compute; discriminate). done.
Qed.

Lemma agrees_ports_on d R : agrees d R → Z.land (R MCCR) ALL_PORTS = ALL_PORTS.
Proof. by intros (_ & _ & _ & _ & ?). Qed.

(** What holds between two requests. *)
Record ttl_ok (s : ttl_state B) : Prop := mk_ttl_ok {
  ok_wired : wired (pd s);
  ok_lock : ttl_lock (pd s) = false;
  ok_patterns : length (bit_pattern_a (ioconfig (pd s))) = NR_BITS;
  ok_chip : ∃ R L, at_ R L (board s) ∧ agrees (pd s) R ∧ Z.odd (R MICR) = false
}.

Lemma change_reg_spec d b R L r bit pos : wired d → at_ R L b → 0 <= r < 64 → settable R r → r ≠ MICR →
  wp (change_reg r bit pos) (λ _ s', ∃ v b', s' = mk_ttl_state d b' ∧ at_ (store r v R) L b') (mk_ttl_state d b).
Proof.
  intros Hd Hat Hr Hs Hm. unfold change_reg. rreg. bind_step. eapply wp_write_reg; [done|eassumption|done|done|done|].
  intros b' Hb'. by eexists _, _.
Qed.
(** Master interrupts are enabled. *)
Definition interrupts_on (s : ttl_state B) : bool := Z.testbit (reg (board s) MICR) 7.

(** The new values of a port that is an input. *)
Lemma agrees_input d p R R' inv : is_port p → agrees d R → truthy (Z.land (io_flag d) (pr_out p)) = false →
  inv = (if truthy (Z.land (io_flag d) VMODTTL_O) then 0xff else 0x00) →
  R' (pr_ddr p) = 0xff → R' (pr_dppr p) = inv → Z.land (R' MCCR) ALL_PORTS = ALL_PORTS →
  (∀ r, r ∈ [DDR_A; DPPR_A; DDR_B; DPPR_B; DDR_C; DPPR_C] → r ≠ pr_ddr p → r ≠ pr_dppr p → R' r = R r) → agrees d R'.
Proof.
  intros Hp (H1 & H2 & H3 & H4 & _) Hin -> Hd Hv Hm Hr. unfold agrees, port_agrees in *.
  destruct Hp as [-> | ->]; cbn [port_A port_B pr_ddr pr_dppr pr_out pr_oc] in *;
    (split_and!; [| | | | | |done]); unfold ddr_of, dppr_of in *; cbn [port_A port_B pr_out pr_oc] in *;
    rewrite ?Hin, ?andb_false_r in *; try done;
    (rewrite Hr; [tauto|apply (bool_decide_unpack _); by vm_compute..]).
Qed.

Ltac creg := bind_step; eapply wp_mono; [eapply change_reg_spec; [done|eassumption|by vm_compute|settable_tac|by vm_compute]|];
  let v := fresh "v" in let b := fresh "b" in let Hb := fresh "Hat" in intros _ ? (v & b & -> & Hb); cbv beta.

Lemma pattern_input p mode buf d b R L : is_port p → wired d → at_ R L b → agrees d R → Z.odd (R MICR) = false →
  length (bit_pattern_a (ioconfig d)) = NR_BITS → 0 <= pat_pos buf < 8 →
  truthy (Z.land (io_flag d) (pr_out p)) = false →
  wp (pattern_port p mode buf) (λ rc s', rc = 0 ∧ ttl_ok s' ∧ io_flag (pd s') = io_flag d ∧ interrupts_on s' = true) (mk_ttl_state d b).
Proof.
  intros Hp Hd Hat Hag Hodd Hlen Hpos Hin. unfold pattern_port. wp_step. wp_step. cbn [pd]. rewrite Hin.
  wp_step. unfold array_set. rewrite Hlen, decide_True by done. eapply wp_lift_opt; [done|].
  wp_step. apply wp_upd_pd. set (d1 := d <| ioconfig := _ |>). assert (Hd1 : wired d1) by done.
  pose proof (agrees_ports_on d R Hag) as Hon.
  destruct Hp as [-> | ->]; cbn [port_set port_A port_B pr_pcsr pr_pmsr pr_ddr pr_dppr pr_siocr pr_ppr pr_ptr pr_pmr pr_out pr_oc pr_enable] in *;
    (wreg; wreg; rreg; wreg;
     match goal with Hx : cio_at _ _ _ _ (store MCCR (Z.land ?v (Z.lnot ?e)) ?R0) _ _ |- _ =>
       set (R1 := store MCCR (Z.land v (Z.lnot e)) R0) in *;
       assert (Hdis : Z.land (R1 MCCR) e = 0) by (subst R1; rewrite store_same by done; apply port_disabled)
     end;
     wreg; wreg; wreg; wreg; creg; creg; creg; rreg; wreg; wreg; rreg;
     bind_step; eapply wp_write_reg; [done|eassumption|by vm_compute|settable_tac|
       intros _; apply odd_set; [done|]; eapply odd_read; [by auto|]; subst R1; by regs_tac|]; intros b' Hb').
  all: wp_step; apply wp_unlock; wp_step; split_and!; [done| |done|].
  2, 4: unfold interrupts_on; cbn [board]; rewrite (at_reg _ _ _ _ _ _ _ Hb'), store_same, mod_256_bit, Z.lor_spec by done; by rewrite orb_true_r.
  all: constructor; [done|done|change (length (<[Z.to_nat (pat_pos buf) := buf]> (bit_pattern_a (ioconfig d))) = NR_BITS); by rewrite length_insert|]; eexists _, L; split_and!; [exact Hb'| |].
  2, 4: rewrite store_same, odd_mod_256 by done; apply odd_set; [done|]; eapply odd_read; [by auto|]; subst R1; by regs_tac.
  1: eapply (agrees_input _ port_A R _ (if truthy (Z.land (io_flag d) VMODTTL_O) then 0xff else 0x00)); [by left|exact Hag|exact Hin|reflexivity|..]; cbn [port_A port_B pr_ddr pr_dppr].
  5: eapply (agrees_input _ port_B R _ (if truthy (Z.land (io_flag d) VMODTTL_O) then 0xff else 0x00)); [by right|exact Hag|exact Hin|reflexivity|..]; cbn [port_A port_B pr_ddr pr_dppr].
  1, 5: by regs_tac.
  1, 4: regs_tac; destruct (truthy (Z.land (io_flag d) VMODTTL_O)); reflexivity.
  1, 3: rewrite store_other, store_other, store_same by (vm_compute; first [reflexivity|discriminate]);
    eapply port_enabled; [by apply Hread|rewrite Hread0 by done; subst R1; by regs_tac|by regs_tac].
  all: intros r Hr Hne Hne2; subst R1; rewrite !store_other; [done|by (assumption || (intros ->; revert Hr; apply (bool_decide_unpack _); by vm_compute))..].
Qed.

(** Requests keep [ttl_ok]; [pattern] says when a pattern is accepted and that a refused one leaves
    the master interrupts off. *)
Lemma wp_lock_ok (f : () → T Z) Q s : ttl_ok s → (∀ d b R L, s = mk_ttl_state d b → wired d → ttl_lock d = false →
    length (bit_pattern_a (ioconfig d)) = NR_BITS → at_ R L b → agrees d R → Z.odd (R MICR) = false →
    wp (f ()) Q (mk_ttl_state (d <| ttl_lock := true |>) b)) → wp (lock ≫= f) Q s.
Proof. destruct s as [d b]. intros [Hw Hl Hp (R & L & Hat & Hag & Ho)] Hf. wp_step. apply wp_lock; [done|]. by eapply Hf. Qed.

Lemma ttl_ok_intro d b R L : wired d → ttl_lock d = false → length (bit_pattern_a (ioconfig d)) = NR_BITS →
  at_ R L b → agrees d R → Z.odd (R MICR) = false → ttl_ok (mk_ttl_state d b).
Proof. intros. constructor; [done..|]. by exists R, L. Qed.

Lemma pattern_spec buf s : ttl_ok s → 0 <= pat_pos buf < 8 →
  wp (vmodttl_pattern_fn buf) (λ rc s', ttl_ok s' ∧ io_flag (pd s') = io_flag (pd s) ∧
    ((rc = - EINVAL ∧ s' = s ∧ ¬ (0 <= pat_port buf <= 1)) ∨
     ∃ p, is_port p ∧ pat_port buf = (if pr_out p =? A_CHAN_OUT then CHAN_A else CHAN_B) ∧
       interrupts_on s' = (rc =? 0) ∧
       rc = (if truthy (Z.land (io_flag (pd s)) (pr_out p)) then - EIO else 0))) s.
Proof.
  intros Hok Hpos. unfold vmodttl_pattern_fn, CHAN_A, CHAN_B.
  destruct (Z.ltb_spec (pat_port buf) 0), (Z.gtb_spec (pat_port buf) 1); cbn [orb];
    try (wp_step; split_and!; [done|done|left; split_and!; [done|done|lia]]).
  apply wp_lock_ok; [done|]. intros d b R L -> Hw Hl Hlen Hat Hag Ho.
  rreg. wp_step. eapply wp_write_reg; [done|eassumption|done|settable_tac|intros _; apply odd_mask; eapply odd_read; [by apply Hread|done]|].
  intros b1 Hat1. set (R1 := store _ _ _) in *.
  assert (Hag1 : agrees d R1) by by apply agrees_store.
  assert (Ho1 : Z.odd (R1 MICR) = false).
  { subst R1. rewrite store_same, odd_mod_256 by done. apply odd_mask. eapply odd_read; [by apply Hread|done]. }
  assert (Hcase : ∃ p mode, is_port p ∧ pat_port buf = (if pr_out p =? A_CHAN_OUT then 0 else 1) ∧
    (if pat_port buf =? 0 then pattern_port port_A pattern_mode_a buf else pattern_port port_B pattern_mode_b buf) = pattern_port (B:=B) p mode buf).
  { assert (pat_port buf = 0 ∨ pat_port buf = 1) as [-> | ->] by lia; [exists port_A, pattern_mode_a|exists port_B, pattern_mode_b]; (split_and!; [|reflexivity..]); [by left|by right]. }
  destruct Hcase as (p & mode & Hp & Eport & ->).
  destruct (truthy (Z.land (io_flag d) (pr_out p))) eqn:Hout.
  - unfold pattern_port. wp_step. wp_step. cbn [pd]. change (io_flag (d <| ttl_lock := true |>)) with (io_flag d). rewrite Hout.
    wp_step. apply wp_unlock. wp_step. split; [by eapply ttl_ok_intro|]. split; [done|]. right. exists p. split_and!; [done..| |].
    + unfold interrupts_on. cbn [board]. rewrite (at_reg _ _ _ _ _ _ _ Hat1) by done. subst R1.
      by rewrite store_same, mod_256_bit, Z.land_spec, andb_false_r by done.
    + cbn [pd]. by rewrite Hout.
  - eapply wp_mono; [by eapply (pattern_input p mode buf _ _ R1)|]. intros rc s' (-> & Hs' & Hio & Hi).
    split; [done|]. split; [done|]. right. exists p. split_and!; [done..|by rewrite Hi|]. cbn [pd]. by rewrite Hout.
Qed.

Lemma config_spec conf s : ttl_ok s → wp (vmodttl_config conf) (λ rc s', ttl_ok s' ∧
  ((rc = - EINVAL ∧ s' = s ∧ ¬ (0 <= cf_io_flag conf <= 7)) ∨
   (rc = 0 ∧ 0 <= cf_io_flag conf <= 7 ∧ io_flag (pd s') = Z.lor (cf_io_flag conf) (if truthy (cf_invert conf) then VMODTTL_O else 0)))) s.
Proof.
  intros Hok. unfold vmodttl_config. apply wp_lock_ok; [done|]. intros d b R L -> Hw Hl Hlen Hat Hag Ho.
  destruct (Z.gtb_spec (cf_io_flag conf) (A_CHAN_OUT + B_CHAN_OUT + C_CHAN_OUT)), (Z.ltb_spec (cf_io_flag conf) 0); cbn [orb];
    unfold A_CHAN_OUT, B_CHAN_OUT, C_CHAN_OUT in *.
  1-3: wp_step; apply wp_unlock; wp_step; split; [by eapply ttl_ok_intro|]; left; split_and!; [done| |lia];
    destruct d; simpl in Hl; by subst.
  wp_step. apply wp_upd_pd. wp_step. eapply (wp_mono _ (λ _ s', ∃ d', s' = mk_ttl_state d' b ∧ wired d' ∧
    length (bit_pattern_a (ioconfig d')) = NR_BITS ∧
    io_flag d' = Z.lor (cf_io_flag conf) (if truthy (cf_invert conf) then VMODTTL_O else 0))).
  { destruct (truthy (cf_invert conf)); [apply wp_upd_pd|wp_step]; (eexists; split_and!; [reflexivity|done|done|]); [done|].
    cbn. by rewrite Z.lor_0_r. }
  intros _ ? (d' & -> & Hw' & Hlen' & Hio). wp_step. apply wp_upd_pd.
  wp_step. eapply wp_mono; [eapply def_io_spec; [done|exact Hat]|].
  intros _ ? (R' & b' & -> & Hat' & Hag' & Em). wp_step. apply wp_unlock. wp_step.
  split; [eapply ttl_ok_intro; [done..|exact Hat'|exact Hag'|by rewrite Em]|]. right. split_and!; [done|lia|lia|done].
Qed.
(** * Data *)

Lemma wp_write_data d b R L p v Q : wired d → at_ R L b → p ∈ [VMODTTL_PORTA; VMODTTL_PORTB; VMODTTL_PORTC] →
  (p = VMODTTL_PORTC → 0 <= v < 16) → (∀ b', at_ R (upd p (v mod 256) L) b' → Q () (mk_ttl_state d b')) →
  wp (vmodttl_write_word p v) Q (mk_ttl_state d b).
Proof.
  intros Hd Hat Hp Hv HQ. apply wp_write_word; [done| |].
  { clear - Hp. unfold VMODTTL_PORTA, VMODTTL_PORTB, VMODTTL_PORTC in Hp. set_unfold in Hp. lia. }
  apply HQ. rewrite <- mod_16_8. apply data_write_law; [done|done|]. intros E. specialize (Hv E). rewrite Z.mod_small; lia.
Qed.

Lemma wp_read_data d b R L p Q : wired d → at_ R L b → p ∈ [VMODTTL_PORTA; VMODTTL_PORTB; VMODTTL_PORTC] →
  (∀ v b', at_ R L b' → Q v (mk_ttl_state d b')) → wp (vmodttl_read_word p) Q (mk_ttl_state d b).
Proof.
  intros Hd Hat Hp HQ. apply wp_read_word; [done| |].
  { clear - Hp. unfold VMODTTL_PORTA, VMODTTL_PORTB, VMODTTL_PORTC in Hp. set_unfold in Hp. lia. }
  apply HQ. by apply data_read_law.
Qed.

Lemma strobe_spec d b R L v : wired d → at_ R L b → 0 <= v < 16 →
  wp (strobe v) (λ _ s', ∃ b', s' = mk_ttl_state d b' ∧ at_ R (upd VMODTTL_PORTC 0 L) b') (mk_ttl_state d b).
Proof.
  intros Hd Hat Hv. unfold strobe. wp_step. eapply wp_write_data; [done|exact Hat|by vm_compute; set_solver|done|]. intros b1 Hat1.
  wp_step. wp_step. wp_step. unfold udelay. wp_step. cbn [board].
  change (_ <| board := ?x |>) with (mk_ttl_state d x).
  eapply wp_write_data; [done|by apply delay_law|by vm_compute; set_solver|done|]. intros b2 [H1 H2 H3].
  exists b2. split; [done|]. constructor; [done..|]. intros p. rewrite H3. unfold upd. by destruct (p =? VMODTTL_PORTC).
Qed.

(** The ports that a channel number stands for, and the byte that each is sent. *)
Definition addresses (dev : Z) (p : port_regs) : bool :=
  (dev =? VMOD_TTL_CHANNELS_AB) || (dev =? (if pr_out p =? A_CHAN_OUT then VMOD_TTL_CHANNEL_A else VMOD_TTL_CHANNEL_B)).

Definition data_for (dev val : Z) (p : port_regs) : Z :=
  if (dev =? VMOD_TTL_CHANNELS_AB) && negb (pr_out p =? A_CHAN_OUT) then val / 256 mod 256 else val mod 256.

Definition data_port (p : port_regs) : Z := if pr_out p =? A_CHAN_OUT then VMODTTL_PORTA else VMODTTL_PORTB.

Definition is_output (s : ttl_state B) (p : port_regs) : bool := truthy (Z.land (io_flag (pd s)) (pr_out p)).

Definition write_post (dev val rc : Z) (s s' : ttl_state B) : Prop :=
  (rc = - EINVAL ∧ s' = s ∧ ¬ (0 <= dev <= 2)) ∨
  (rc = - EIO ∧ s' = s ∧ 0 <= dev <= 2 ∧ ∃ p, is_port p ∧ addresses dev p = true ∧ is_output s p = false) ∨
  (rc = 0 ∧ pd s' = pd s ∧ 0 <= dev <= 2 ∧ latch (board s') VMODTTL_PORTC = 0 ∧ ∀ p, is_port p →
    latch (board s') (data_port p) = if addresses dev p then data_for dev val p else latch (board s) (data_port p)) ∧
    (∀ p, is_port p → addresses dev p = true → is_output s p = true).

Lemma high_byte val : Z.land (Z.shiftr (val mod 2 ^ 16) 8) 0xff mod 256 = val / 256 mod 256.
Proof.
  change 0xff with (Z.ones 8). rewrite Z.land_ones, Z.shiftr_div_pow2 by lia. change (2 ^ 8) with 256. rewrite Z.mod_mod by lia.
  change (2 ^ 16) with (256 * 256). rewrite Z.rem_mul_r by lia. rewrite (Z.mul_comm 256 (_ mod _)), Z.div_add, Z.div_small, Z.add_0_l by (try apply Z.mod_pos_bound; lia).
  by rewrite Z.mod_mod.
Qed.

Lemma low_byte val : Z.land (val mod 2 ^ 16) 0xff mod 256 = val mod 256.
Proof. change 0xff with (Z.ones 8). rewrite Z.land_ones by lia. change (2 ^ 8) with 256. by rewrite Z.mod_mod, mod_16_8. Qed.

Lemma relock d : ttl_lock d = false → d <| ttl_lock := true |> <| ttl_lock := false |> = d.
Proof. intros Hl. destruct d. simpl in *. by subst. Qed.
(** The end of a write that was accepted. *)
Lemma finish_write d b b0 R L sv dev val : wired d → ttl_lock d = false → length (bit_pattern_a (ioconfig d)) = NR_BITS →
  at_ R L b → agrees d R → Z.odd (R MICR) = false → 0 <= sv < 16 → 0 <= dev <= 2 →
  (∀ p, is_port p → L (data_port p) = if addresses dev p then data_for dev val p else latch b0 (data_port p)) →
  (∀ p, is_port p → addresses dev p = true → is_output (mk_ttl_state d b0) p = true) →
  wp (strobe sv ≫= λ _, unlock ≫= λ _, mret 0) (λ rc s', ttl_ok s' ∧ write_post dev val rc (mk_ttl_state d b0) s')
    (mk_ttl_state (d <| ttl_lock := true |>) b).
Proof.
  intros Hw Hl Hlen Hat Hag Ho Hsv Hdev HL Hout. wp_step. eapply wp_mono; [by eapply strobe_spec|].
  intros _ ? (b' & -> & Hat'). wp_step. apply wp_unlock. wp_step. rewrite relock by done.
  split; [by eapply ttl_ok_intro|]. right. right. cbn [pd board]. split; [|done].
  split_and!; [done|done|lia|lia|by rewrite (at_latch _ _ _ _ _ _ _ Hat')|].
  intros p Hp. rewrite (at_latch _ _ _ _ _ _ _ Hat'), <- HL by done. unfold upd. by destruct Hp as [-> | ->].
Qed.

Lemma output_flag x m : Z.land x m ≠ 0 → truthy (Z.land x m) = true.
Proof. intros E. unfold truthy. by rewrite (proj2 (Z.eqb_neq _ _) E). Qed.

Lemma write_chan_spec dev val s : ttl_ok s → wp (vmodttl_write_chan dev val) (λ rc s', ttl_ok s' ∧ write_post dev val rc s s') s.
Proof.
  intros Hok. unfold vmodttl_write_chan, VMOD_TTL_CHANNEL_A, VMOD_TTL_CHANNEL_B, VMOD_TTL_CHANNELS_AB.
  destruct (Z.ltb_spec dev 0), (Z.gtb_spec dev 2); cbn [orb]; try (wp_step; split; [done|left; split_and!; [done|done|lia]]).
  apply wp_lock_ok; [done|]. intros d b R L -> Hw Hl Hlen Hat Hag Ho. wp_step. wp_step. cbn [pd].
  change (io_flag (d <| ttl_lock := true |>)) with (io_flag d).
  pose proof (agrees_ports_on d R Hag) as Hon.
  assert (Hd : wired (d <| ttl_lock := true |>)) by done.
  assert (HL : ∀ p, L p = latch b p) by (intros p; by rewrite (at_latch _ _ _ _ _ _ _ Hat)).
  assert (Hrefuse : ∀ p, is_port p → addresses dev p = true → is_output (mk_ttl_state d b) p = false →
    wp (mret None ≫= λ r : option Z, match r with None => unlock ≫= λ _, mret (- EIO)
      | Some v => strobe v ≫= λ _, unlock ≫= λ _, mret 0 end)
      (λ rc s', ttl_ok s' ∧ write_post dev val rc (mk_ttl_state d b) s') (mk_ttl_state (d <| ttl_lock := true |>) b)).
  { intros p Hp Had Hin. wp_step. wp_step. wp_step. apply wp_unlock. wp_step. rewrite relock by done. split; [done|].
    right. left. split_and!; [done|done|lia|lia|by exists p]. }
  unfold is_output in Hrefuse. cbn [pd] in Hrefuse.
  destruct (Z.eqb_spec dev 0) as [->|]; [|destruct (Z.eqb_spec dev 1) as [->|]; [|replace dev with 2 in * by lia]].
  - destruct (Z.eqb_spec (Z.land (io_flag d) A_CHAN_OUT) A_CHAN_IN) as [E|E].
    { apply (Hrefuse port_A); [by left|done|]. change (pr_out port_A) with A_CHAN_OUT. by rewrite E. }
    wp_step. wp_step. eapply wp_write_data; [done|exact Hat|by vm_compute; set_solver|done|]. intros b1 Hat1. rreg. wreg. wp_step.
    eapply (finish_write _ _ b); [done..| | |done|done| |].
    + apply agrees_ports; [|done]. eapply ports_set; [by apply Hread|done].
    + by regs_tac.
    + intros p [-> | ->]; [exact (mod_16_8 val)|apply HL].
    + intros p [-> | ->] Had; [|done]. exact (output_flag _ _ E).
  - destruct (Z.eqb_spec (Z.land (io_flag d) B_CHAN_OUT) B_CHAN_IN) as [E|E].
    { apply (Hrefuse port_B); [by right|done|]. change (pr_out port_B) with B_CHAN_OUT. by rewrite E. }
    wp_step. wp_step. eapply wp_write_data; [done|exact Hat|by vm_compute; set_solver|done|]. intros b1 Hat1. rreg. wreg. wp_step.
    eapply (finish_write _ _ b); [done..| | |done|done| |].
    + apply agrees_ports; [|done]. eapply ports_set; [by apply Hread|done].
    + by regs_tac.
    + intros p [-> | ->]; [apply HL|exact (mod_16_8 val)].
    + intros p [-> | ->] Had; [done|]. exact (output_flag _ _ E).
  - destruct (Z.eqb_spec (Z.land (io_flag d) B_CHAN_OUT) B_CHAN_IN) as [E|E]; cbn [orb].
    { apply (Hrefuse port_B); [by right|done|]. change (pr_out port_B) with B_CHAN_OUT. by rewrite E. }
    destruct (Z.eqb_spec (Z.land (io_flag d) A_CHAN_OUT) A_CHAN_IN) as [E'|E'].
    { apply (Hrefuse port_A); [by left|done|]. change (pr_out port_A) with A_CHAN_OUT. by rewrite E'. }
    wp_step. wp_step. eapply wp_write_data; [done|exact Hat|by vm_compute; set_solver|done|]. intros b1 Hat1. rreg.
    wp_step. eapply wp_write_data; [done|exact Hat0|by vm_compute; set_solver|done|]. intros b2 Hat2. rreg. wreg. wp_step.
    eapply (finish_write _ _ b); [done..| | |done|done| |].
    + apply agrees_ports; [|done]. eapply ports_set; [by apply Hread0|done].
    + by regs_tac.
    + intros p [-> | ->]; [exact (low_byte val)|exact (high_byte val)].
    + intros p [-> | ->] Had; [exact (output_flag _ _ E')|exact (output_flag _ _ E)].
Qed.
Definition read_post (s s' : ttl_state B) : Prop :=
  pd s' = pd s ∧ latch (board s') VMODTTL_PORTC = 0 ∧ ∀ p, is_port p → latch (board s') (data_port p) = latch (board s) (data_port p).

Lemma finish_read d b b0 R L sv (val : Z) : wired d → ttl_lock d = false → length (bit_pattern_a (ioconfig d)) = NR_BITS →
  at_ R L b → at_ R L b0 → agrees d R → Z.odd (R MICR) = false → 0 <= sv < 16 →
  wp (strobe sv ≫= λ _, unlock ≫= λ _, mret val) (λ v s', v = val ∧ ttl_ok s' ∧ read_post (mk_ttl_state d b0) s')
    (mk_ttl_state (d <| ttl_lock := true |>) b).
Proof.
  intros Hw Hl Hlen Hat Hat0 Hag Ho Hsv. wp_step. eapply wp_mono; [by eapply strobe_spec|].
  intros _ ? (b' & -> & Hat'). wp_step. apply wp_unlock. wp_step. rewrite relock by done.
  split; [done|]. split; [by eapply ttl_ok_intro|]. unfold read_post. cbn [pd board].
  split_and!; [done|by rewrite (at_latch _ _ _ _ _ _ _ Hat')|].
  intros p Hp. rewrite (at_latch _ _ _ _ _ _ _ Hat'), (at_latch _ _ _ _ _ _ _ Hat0). unfold upd. by destruct Hp as [-> | ->].
Qed.

Lemma byte_range v : 0 <= Z.land v 0xff < 2 ^ 8.
Proof. change 0xff with (Z.ones 8). rewrite Z.land_ones by lia. by apply Z.mod_pos_bound. Qed.

Lemma word_range v w : 0 <= Z.lor (Z.land v 0xff) (Z.shiftl (Z.land w 0xff) 8) < 2 ^ 16.
Proof.
  pose proof (byte_range v). pose proof (byte_range w). apply lor_range; [lia|lia|].
  rewrite Z.shiftl_mul_pow2 by lia. change (2 ^ 16) with (2 ^ 8 * 2 ^ 8). lia.
Qed.

Lemma read_chan_spec dev s : ttl_ok s →
  wp (vmodttl_read_chan dev) (λ val s', 0 <= val < (if dev =? VMOD_TTL_CHANNELS_AB then 2 ^ 16 else 2 ^ 8) ∧ ttl_ok s' ∧ read_post s s') s.
Proof.
  intros Hok. unfold vmodttl_read_chan. apply wp_lock_ok; [done|]. intros d b R L -> Hw Hl Hlen Hat Hag Ho.
  assert (Hd : wired (d <| ttl_lock := true |>)) by done. wp_step.
  assert (Hend : ∀ b' v sv, at_ R L b' → 0 <= sv < 16 → 0 <= v < (if dev =? VMOD_TTL_CHANNELS_AB then 2 ^ 16 else 2 ^ 8) →
    wp (strobe sv ≫= λ _, unlock ≫= λ _, mret v) (λ val s', 0 <= val < (if dev =? VMOD_TTL_CHANNELS_AB then 2 ^ 16 else 2 ^ 8) ∧
      ttl_ok s' ∧ read_post (mk_ttl_state d b) s') (mk_ttl_state (d <| ttl_lock := true |>) b')).
  { intros b' v sv Hb' Hsv Hv. eapply wp_mono; [by eapply (finish_read _ _ b)|]. intros ? ? (-> & ? & ?). done. }
  unfold VMOD_TTL_CHANNEL_A, VMOD_TTL_CHANNEL_B, VMOD_TTL_CHANNELS_AB in *.
  destruct (Z.eqb_spec dev 0) as [->|]; [|destruct (Z.eqb_spec dev 1) as [->|]; [|destruct (Z.eqb_spec dev 2) as [->|]]].
  - wp_step. eapply wp_read_data; [done|exact Hat|by vm_compute; set_solver|]. intros v b' Hb'. wp_step. apply Hend; [done|done|apply byte_range].
  - wp_step. eapply wp_read_data; [done|exact Hat|by vm_compute; set_solver|]. intros v b' Hb'. wp_step. apply Hend; [done|done|apply byte_range].
  - wp_step. eapply wp_read_data; [done|exact Hat|by vm_compute; set_solver|]. intros v b1 Hb1.
    wp_step. eapply wp_read_data; [done|exact Hb1|by vm_compute; set_solver|]. intros w b2 Hb2. wp_step. apply Hend; [done|done|apply word_range].
  - wp_step. by apply Hend.
Qed.

(** * Interrupts *)

Lemma find_port_spec n d b R L : wired d → at_ R L b →
  wp (find_port n) (λ p s', (∃ b', s' = mk_ttl_state d b' ∧ at_ R L b') ∧ match p with Some p => is_port p | None => True end) (mk_ttl_state d b).
Proof.
  intros Hd. revert b. induction n as [|n IH]; intros b Hat; cbn [find_port]; [wp_step; by eauto|].
  rreg. destruct (truthy _); [wp_step; split; [by eauto|by left]|].
  rreg. destruct (truthy _); [wp_step; split; [by eauto|by right]|]. by apply IH.
Qed.

Lemma interrupt_spec s : ttl_ok s → wp vmodttl_interrupt (λ rc s', ttl_ok s' ∧ io_flag (pd s') = io_flag (pd s) ∧
  ((rc = - 1 ∧ pd s' = pd s) ∨ (rc = 0 ∧ ttl_irq (pd s') = 1))) s.
Proof.
  destruct s as [d b]. intros [Hw Hl Hlen (R & L & Hat & Hag & Ho)]. cbn [pd board] in *. unfold vmodttl_interrupt. wp_step.
  eapply wp_mono; [by eapply find_port_spec|]. intros [p|] ? ((b' & -> & Hb') & Hp).
  - destruct Hp as [-> | ->];
      [change (pr_pcsr port_A =? PCSR_A) with true; change (pr_pcsr port_A) with PCSR_A
      |change (pr_pcsr port_B =? PCSR_A) with false; change (pr_pcsr port_B) with PCSR_B]; cbv iota; wp_step;
      (eapply wp_read_data; [done|exact Hb'|by vm_compute; set_solver|]); intros v b1 Hb1; wreg; wp_step; apply wp_upd_pd; wp_step;
      (split; [by eapply ttl_ok_intro|split; [done|by right]]).
  - wreg. wreg. wp_step. split; [by eapply ttl_ok_intro|]. split; [done|by left].
Qed.

(** * Initialisation *)

Lemma at_self b : phase b = Idle → at_ (reg b) (latch b) b.
Proof. intros Hb. by constructor. Qed.

Lemma default_spec s : wired (pd s) → ttl_lock (pd s) = false → length (bit_pattern_a (ioconfig (pd s))) = NR_BITS →
  wp vmodttl_default (λ _ s', ttl_ok s' ∧ pd s' = pd s ∧ interrupts_on s' = true) s.
Proof.
  destruct s as [d b]. cbn [pd]. intros Hw Hl Hlen. unfold vmodttl_default. wp_step. apply wp_lock; [done|].
  assert (Hd : wired (d <| ttl_lock := true |>)) by done.
  wp_step. apply wp_read_word; [done|done|]. set (b1 := (cio_read _ _ _).2).
  assert (H1 : phase b1 = Idle ∨ phase b1 = InReset).
  { destruct (phase b) as [|r|] eqn:E; [left; apply sync_law; by rewrite E..|right; by apply (in_reset_law b 0)]. }
  wp_step. unfold vmodttl_write_reg at 1. wp_step. apply wp_write_word; [done|done|]. apply wp_write_word; [done|done|].
  set (b2 := cio_write _ _ _ (cio_write _ _ _ b1)).
  assert (H2 : phase b2 = Idle).
  { subst b2. destruct H1 as [H1|H1].
    - apply at_self in H1. apply (select_law _ _ _ MCCR) in H1; [|done].
      refine (at_phase _ _ _ _ _ _ _ (store_law _ _ _ _ 0 H1 _ _)); [apply Z.land_0_r|done].
    - apply (in_reset_law _ 1) in H1 as [H1 _]. by apply (in_reset_law _ 0) in H1 as [[H1 _] _]. }
  apply at_self in H2. rreg. wreg.
  wp_step. unfold vmodttl_write_reg at 1. wp_step. apply wp_write_word; [done|done|]. apply wp_write_word; [done|done|].
  wp_step. apply wp_write_word; [done|done|].
  set (b4 := cio_write _ _ _ _).
  assert (H4 : phase b4 = Idle ∧ Z.odd (reg b4 MICR) = false).
  { apply (select_law _ _ _ MICR) in Hat0; [|done]. apply at_phase in Hat0. apply (reset_law _ 1) in Hat0; [|done].
    by apply (in_reset_law _ 0) in Hat0 as [Hat0 _]. }
  destruct H4 as [H4 Ho4]. apply at_self in H4.
  wp_step. eapply wp_mono; [by eapply def_io_spec|]. intros _ ? (R & b5 & -> & Hat5 & Hag & Em).
  rreg. wp_step. eapply wp_write_reg; [done|eassumption|done|settable_tac| |].
  { intros _. apply odd_set; [done|]. eapply odd_read; [by apply Hread0|by rewrite Em]. }
  intros b' Hb'. apply wp_unlock. rewrite relock by done. split_and!; [|done|].
  - eapply ttl_ok_intro; [done..|exact Hb'|by apply agrees_store|]. rewrite store_same, odd_mod_256 by done.
    apply odd_set; [done|]. eapply odd_read; [by apply Hread0|by rewrite Em].
  - unfold interrupts_on. cbn [board]. rewrite (at_reg _ _ _ _ _ _ _ Hb'), store_same, mod_256_bit, Z.lor_spec by done.
    by rewrite orb_true_r.
Qed.
End proofs.

(** What the kernel calls after the board is initialised. *)
Inductive ttl_event := Open | Release | Ioctl (r : ttl_request) | Interrupt.

(** Requests whose pattern position is a line of a port; the code does not test it. *)
Definition event_ok (e : ttl_event) : Prop :=
  match e with
  | Ioctl (VMODTTL_PATTERN buf) => 0 <= pat_pos buf < 8
  | Ioctl (VMODTTL_CONFIG conf) => length (bit_pattern_a conf) = NR_BITS
  | _ => True
  end.

Section life.
Context {B : Type} `{CL : CioLaws B be base}.

Definition run_event (e : ttl_event) : M (ttl_state B) Z :=
  match e with
  | Open => vmodttl_open
  | Release => vmodttl_release
  | Ioctl r => '(rc, _) ← vmodttl_ioctl r; mret rc
  | Interrupt => vmodttl_interrupt
  end.

(** The results of a sequence of calls. *)
Fixpoint run_events (es : list ttl_event) : M (ttl_state B) (list Z) :=
  match es with
  | [] => mret []
  | e :: es => rc ← run_event e; rcs ← run_events es; mret (rc :: rcs)
  end.

(** The chip is idle and its direction and polarity registers are those of the flags. *)
Definition consistent (s : ttl_state B) : Prop :=
  phase (board s) = Idle ∧ ttl_lock (pd s) = false ∧ agrees (pd s) (reg (board s)).

Lemma ttl_ok_consistent s : ttl_ok s → consistent s.
Proof.
  intros [Hw Hl _ (R & L & [Hp Hr _] & Hag & _)]. split_and!; [done|done|].
  unfold agrees, port_agrees in *. cbn [port_A port_B pr_ddr pr_dppr] in *. by rewrite !Hr.
Qed.

Lemma ioctl_ok r s : ttl_ok s → event_ok (Ioctl r) → wp (vmodttl_ioctl r) (λ _ s', ttl_ok s') s.
Proof.
  intros Hok Hr. destruct r as [conf| | |buf|dev|dev val|channel|]; cbn [vmodttl_ioctl].
  - wp_step. destruct s as [d b]. apply wp_upd_pd. wp_step.
    eapply wp_mono; [apply config_spec|intros rc s' [Hs' _]; cbv beta; by wp_step].
    destruct Hok as [Hw Hl _ Hc]. by constructor.
  - wp_steps. done.
  - destruct s as [d b], Hok as [Hw Hl Hlen (R & L & Hat & Hag & Ho)]. wp_step.
    eapply wp_mono; [by eapply def_io_spec|]. intros _ ? (R' & b' & -> & Hat' & Hag' & Em). cbv beta. wp_step.
    eapply ttl_ok_intro; [done..|exact Hat'|done|by rewrite Em].
  - wp_step. eapply wp_mono; [by apply pattern_spec|intros rc s' [Hs' _]; cbv beta; by wp_step].
  - destruct (_ || _); [by wp_step|]. wp_step.
    eapply wp_mono; [by apply read_chan_spec|intros v s' (_ & Hs' & _); cbv beta; by wp_step].
  - wp_step. eapply wp_mono; [by apply write_chan_spec|intros rc s' [Hs' _]; cbv beta; by wp_step].
  - by wp_step.
  - by wp_step.
Qed.

Lemma event_keeps e s : ttl_ok s → event_ok e → wp (run_event e) (λ _ s', ttl_ok s') s.
Proof.
  intros Hok He. destruct e as [| |r|]; cbn [run_event].
  - destruct s as [d b], Hok as [Hw Hl Hlen Hc]. unfold vmodttl_open. wp_step. apply wp_upd_pd. wp_step. by constructor.
  - destruct s as [d b], Hok as [Hw Hl Hlen Hc]. unfold vmodttl_release. wp_step. apply wp_upd_pd. wp_step. by constructor.
  - wp_step. eapply wp_mono; [by apply ioctl_ok|]. intros [rc p] s' Hs'. cbv beta. by wp_step.
  - eapply wp_mono; [by apply interrupt_spec|]. by intros rc s' [Hs' _].
Qed.

Lemma events_keep es s : ttl_ok s → Forall event_ok es → wp (run_events es) (λ _ s', ttl_ok s') s.
Proof.
  intros Hok Hes. revert s Hok. induction Hes as [|e es He Hes IH]; intros s Hok; cbn [run_events]; [by wp_step|].
  wp_step. eapply wp_mono; [by apply event_keeps|]. intros rc s1 H1. cbv beta. wp_step.
  eapply wp_mono; [by apply IH|]. intros rcs s2 H2. cbv beta. by wp_step.
Qed.


(** A refused pattern leaves the master interrupts off, for both ports. *)
Lemma refused_pattern_masks buf s : ttl_ok s → 0 <= pat_pos buf < 8 →
  wp (vmodttl_pattern_fn buf) (λ rc s', rc = - EIO → interrupts_on s' = false) s.
Proof.
  intros Hok Hpos. eapply wp_mono; [by apply pattern_spec|].
  by intros rc s' (_ & _ & [(-> & _ & _)|(p & _ & _ & -> & _)]) E; [|rewrite E].
Qed.
End life.

(** * A chip

    The registers of a port are writable only while it is disabled; the inputs read 0. *)
Module Z8536.
Record chip := mk_chip { ph : cio_phase; regs : Z → Z; latches : Z → Z }.

Definition base : Z := 0x1000.
Definition settableb (R : Z → Z) (r : Z) : bool := Z.land (R MCCR mod 256) (owner r) =? 0.

Definition control_write (v : Z) (c : chip) : chip :=
  match ph c with
  | Idle => mk_chip (Pointing v) (regs c) (latches c)
  | Pointing r =>
    if (r =? MICR) && Z.odd v then mk_chip InReset (λ _, 0) (latches c)
    else mk_chip Idle (if plain r && settableb (regs c) r then upd r v (regs c) else regs c) (latches c)
  | InReset => if Z.odd v then c else mk_chip Idle (λ _, 0) (latches c)
  end.

Definition control_read (c : chip) : Z * chip :=
  match ph c with
  | Idle => (0, c)
  | Pointing r => (regs c r, mk_chip Idle (regs c) (latches c))
  | InReset => (RESET, c)
  end.

#[global] Instance chip_io : CioIO chip := {
  cio_read _ a c := if a =? base + VMODTTL_CONTROL then control_read c else (0, c);
  cio_write _ a v c :=
    if a =? base + VMODTTL_CONTROL then control_write v c
    else mk_chip (ph c) (regs c) (upd (a - base) (v mod 256) (latches c));
  cio_delay _ c := c;
}.

Lemma data_address (p : Z) : p ∈ [VMODTTL_PORTA; VMODTTL_PORTB; VMODTTL_PORTC] → (base + p =? base + VMODTTL_CONTROL) = false.
Proof. intros Hp. apply Z.eqb_neq. unfold VMODTTL_PORTA, VMODTTL_PORTB, VMODTTL_PORTC, VMODTTL_CONTROL in *. set_unfold in Hp. lia. Qed.

Lemma control_address {A} (x y : A) : (if base + VMODTTL_CONTROL =? base + VMODTTL_CONTROL then x else y) = x.
Proof. by rewrite Z.eqb_refl. Qed.

#[global] Instance chip_laws : CioLaws chip true base.
Proof.
  refine {| phase := ph; reg := λ c r, regs c r mod 256; latch := latches |}; cbn [cio_read cio_write cio_delay chip_io].
  - by vm_compute.
  - intros R L b r [Hp Hr Hl] _. rewrite control_address. unfold control_write. by rewrite Hp.
  - intros R L b r v [Hp Hr Hl] Hs Ho. rewrite control_address. unfold control_write. rewrite Hp.
    assert (E : (r =? MICR) && Z.odd v = false) by (destruct (Z.eqb_spec r MICR); [by rewrite Ho|done]).
    rewrite E. unfold settableb. rewrite Hr, (proj2 (Z.eqb_eq _ _) Hs), andb_true_r by done.
    constructor; [done| |done]. intros r' Hr'. cbn [regs]. destruct (plain r); [|by apply Hr].
    unfold upd. destruct (r' =? r); [done|by apply Hr].
  - intros R L b r [Hp Hr Hl]. rewrite control_address. unfold control_read. rewrite Hp. split; [done|]. apply Hr.
  - intros b Hb. rewrite control_address. unfold control_read. by destruct (ph b) eqn:E.
  - intros b v Hp Hv. rewrite control_address. unfold control_write. by rewrite Hp, Hv.
  - intros b v Hp. rewrite !control_address. unfold control_write, control_read. rewrite Hp. by destruct (Z.odd v).
  - intros R L b p v [Hp Hr Hl] Hin _. rewrite data_address by done. constructor; [done|done|]. intros q. cbn [latches].
    rewrite Z.add_simpl_l. unfold upd. by destruct (q =? p).
  - intros R L b p Hat Hin. by rewrite data_address.
  - done.
Defined.

(** The board at the base, in reset; its ports become outputs, then port A an input with a pattern. *)
Definition board_at : vmod_dev := mk_vmod_dev 0 EmptyString 0 0 base 1.
Definition start : ttl_state chip :=
  mk_ttl_state (mk_vmodttl_dev board_at 0 0 0 0 false 0 zero_config (0, 0)) (mk_chip InReset (λ _, 0x55) (λ _, 0)).
Definition calls : list ttl_event :=
  [Open; Ioctl (VMODTTL_CONFIG (zero_config <| cf_io_flag := 3 |>)); Ioctl (VMODTTL_WRITE_CHAN 2 0x1234); Interrupt;
   Ioctl (VMODTTL_CONFIG (zero_config <| cf_io_flag := 2 |> <| cf_invert := 1 |>)); Ioctl (VMODTTL_PATTERN (mk_pattern 0 3 1 1 1));
   Ioctl (VMODTTL_WRITE_CHAN 0 5); Ioctl (VMODTTL_READ_CHAN 2)].
End Z8536.

