(* ===== verification/VmodCrate.v ===== *)
(** A crate with both carriers, on which the mezzanine drivers find their boards. *)
From S2P Require Import Prelude KernelIf PciIf VmodBus VmodCarrier VmodIo VmodIoProofs ModPci VmodLunargs.

Local Open Scope Z_scope.

Notation io_state := (vmodio_state nat nat).
Notation pci_state := (modpci_state nat nat).

(** A VMOD/IO board with unit 0 and a MOD-PCI board with unit 3. *)
Definition sim_io : io_state :=
  vmodio_start <| VmodIo.device_table := <[0%nat := mk_vmodio 0 0x1200 0x10000 [0x77; 0x7b; 0x7d; 0x7e]]> (VmodIo.device_table (vmodio_start : io_state)) |>.
Definition sim_pci : pci_state :=
  modpci_start <| ModPci.device_table := <[0%nat := mk_mod_pci 3 1 2 0x20000 0x30000]> (ModPci.device_table (modpci_start : pci_state)) |>
    <| ModPci.devices := 1 |>.

(** The register after both carriers were loaded. *)
Definition sim_registry : registry carrier_fn nat :=
  default registry_start (snd <$> registry_runs [Register "vmodio" (Some First) (Some 1%nat); Register "mod-pci" (Some Second) (Some 2%nat)] registry_start).

Definition sim_world : lunargs_world (io_state * pci_state) carrier_fn nat := mk_lunargs_world sim_registry (sim_io, sim_pci) zero_devices.

(** Two modules on the first board, one on the second. *)
Definition sim_modules : vmod_params := mk_vmod_params [0; 1; 2] ["vmodio"; "mod-pci"; "vmodio"]%string [0; 3; 0] [1; 0; 2].
Definition sim_as : carrier_as := mk_carrier_as 0 0 0 0.

Ltac decided := match goal with |- ?P => apply (bool_decide_eq_true_1 P); by vm_compute end.

Lemma sim_io_ok : vmodio_ok sim_io.
Proof. split; try split; decided. Qed.

Lemma sim_pci_ok : modpci_ok sim_pci.
Proof. split; try split; decided. Qed.

Lemma sim_registry_ok : registry_ok sim_registry.
Proof. split; try split; decided. Qed.

Lemma sim_world_ok : world_ok sim_world.
Proof. split; [apply sim_registry_ok|split; [apply sim_io_ok|apply sim_pci_ok]|done]. Qed.

(** The boards of the crate. *)
Lemma sim_boards g b base : fn_board (w_carriers sim_world) g b = Some base →
  (g, b, base) = (First, 0, 0x10000) ∨ (g, b, base) = (Second, 3, 0x20000).
Proof.
  destruct g; cbn [fn_board two_carriers_laws w_carriers sim_world fst snd].
  - intros (dev & Hd & ->)%fmap_Some. left.
    assert (Hl : Forall (λ dev, vm_lun dev = 0) (VmodIo.device_table sim_io)) by decided.
    apply dev_of_lun_Some in Hd as Hb. destruct Hb as [Hin Hb]. rewrite list.Forall_forall in Hl. specialize (Hl _ Hin).
    rewrite Hl in Hb. subst b. vm_compute in Hd. injection Hd as <-. done.
  - intros (dev & Hd & ->)%fmap_Some. right.
    unfold dev_of_lun in Hd. cbn [ModPci.devices sim_pci] in Hd. unfold search in Hd.
    destruct (Z.eqb_spec 3 b) as [<-|Hne].
    + vm_compute in Hd. injection Hd as <-. done.
    + change (take _ _) with [mk_mod_pci 3 1 2 0x20000 0x30000] in Hd. cbn [find_idx mp_lun] in Hd.
      by rewrite (proj2 (Z.eqb_neq 3 b) Hne) in Hd.
Qed.

Lemma sim_apart : boards_apart sim_world.
Proof.
  intros g1 b1 base1 g2 b2 base2 H1 H2. apply sim_boards in H1, H2.
  unfold SLOT_SPACE.
  destruct H1 as [[= -> -> ->]|[= -> -> ->]], H2 as [[= -> -> ->]|[= -> -> ->]];
    cbn [fn_slots two_carriers_laws slots vmodio_carrier_laws modpci_carrier_laws]; (split; [lia|]); first [by left|right; lia].
Qed.

