(* ===== verification/SkelRaw.v ===== *)
(** Raw access to the registers of a module, in the driver skeleton:
    [RawIo] and [RawIoBlock] of [src/skel/driver/skeldrvr.c], the address
    spaces of [src/utils/driver/libinstkernel.c] and [src/include/config_data.h], the
    accessors of [src/cdcm/cdcmIo.h] and the allocator of [src/cdcm/cdcmMem.c].

    An error, [pseterr(e)] and [SYSERR], is the result [- e].  A run is stuck where the
    code divides by zero, leaves its buffer or follows a pointer that is an error code. *)
From S2P Require Import Prelude KernelIf.

Local Open Scope Z_scope.

(** * Memory of the LynxOS emulation *)

(** [sizeof(struct cdcm_mem_header)], on a 64-bit machine. *)
Definition sizeof_cdcm_mem_header : Z := 16.

Definition ERR_PTR (e : Z) : Z := u64 e.

(** The pointers that are error codes. *)
Definition IS_ERR (p : Z) : bool := (u64 (- 4095) <=? p) && (p <? 2 ^ 64).

(** [cdcm_mem_alloc] by the name it has for drivers: a failure is an error code, not NULL. *)
Definition sysbrk {K} `{Kernel K} (size : Z) (k : K) : Z * K :=
  let '(buf, k) := kmalloc (size + sizeof_cdcm_mem_header) k in
  if buf =? 0 then (ERR_PTR (- ENOMEM), k) else (buf + sizeof_cdcm_mem_header, k).

(** [cdcm_mem_free]; it reads the header in front of the block, which an error code has not. *)
Definition sysfree {K} `{Kernel K} (p : Z) (k : K) : option K :=
  if p =? 0 then Some k
  else if IS_ERR p then None
  else Some (kfree (p - sizeof_cdcm_mem_header) k).

(** * Address spaces *)

Inductive InsLibEndian := InsLibEndianNOT_SET | InsLibEndianBIG | InsLibEndianLITTLE.

#[global] Instance InsLibEndian_dec : EqDecision InsLibEndian.
Proof. solve_decision. Defined.

Record InsLibAnyAddressSpace := mk_space {
  Mapped : Z;
  SpaceNumber : Z;
  WindowSize : Z;
  DataWidth : Z;
  Endian : InsLibEndian
}.

(** The spaces of a module, none without a module address. *)
Definition get_addr_space (spaces : list InsLibAnyAddressSpace) (space_number datawidth : Z) : option InsLibAnyAddressSpace :=
  i ← find_idx (λ s, (SpaceNumber s =? space_number) && ((datawidth =? 0) || (DataWidth s =? datawidth))) spaces;
  spaces !! i.

Definition InsLibGetAddressSpace (spaces : list InsLibAnyAddressSpace) (space_number : Z) : option InsLibAnyAddressSpace :=
  get_addr_space spaces space_number 0.

Definition InsLibGetAddressSpaceWidth (spaces : list InsLibAnyAddressSpace) (space_number datawidth : Z) : option InsLibAnyAddressSpace :=
  get_addr_space spaces space_number datawidth.

(** * Access to the hardware

    What the machine's [ioread8], [ioread16], [ioread32] and the writes do, by the number of
    bits. *)
Class Mmio (B : Type) := {
  ioread : Z → Z → B → Z * B;
  iowrite : Z → Z → Z → B → B;
}.

(** A value of [n] bytes, least significant first. *)
Fixpoint le_bytes (n : nat) (v : Z) : list Z :=
  match n with O => [] | S n => u8 v :: le_bytes n (v / 256) end.

Fixpoint le_value (l : list Z) : Z :=
  match l with [] => 0 | b :: l => u8 b + 256 * le_value l end.

(** [swab16] and [swab32] *)
Definition swab (n : nat) (v : Z) : Z := le_value (reverse (le_bytes n v)).

(** ** Memory of user space *)

Notation user_memory := (gmap Z Z).

(** [copy_from_user] stops at the first byte that cannot be read and clears the rest. *)
Fixpoint copy_from_user (u : user_memory) (a : Z) (n : nat) : list Z :=
  match n with
  | O => []
  | S n => match u !! a with Some b => b :: copy_from_user u (a + 1) n | None => replicate (S n) 0 end
  end.

(** [copy_to_user] stops at the first byte that cannot be written. *)
Fixpoint copy_to_user (u : user_memory) (a : Z) (l : list Z) : user_memory :=
  match l with
  | [] => u
  | b :: l => match u !! a with Some _ => copy_to_user (<[a := b]> u) (a + 1) l | None => u end
  end.

(** * Requests *)

Record SkelDrvrRawIoBlock := mk_riob {
  io_SpaceNumber : Z;
  io_Offset : Z;
  io_DataWidth : Z;
  io_Data : Z
}.

Record SkelDrvrRawIoTransferBlock := mk_riobt {
  tr_SpaceNumber : Z;
  tr_Offset : Z;
  tr_DataWidth : Z;
  tr_AddrIncr : Z;
  tr_BytesTr : Z;
  tr_Data : Z
}.

Definition TRANSFERS : Z := 1024.

Section raw.
Context {K B : Type} `{Kernel K} `{Mmio B}.

(** [CDCM_LITTLE_ENDIAN], the byte order of the processor. *)
Variable CDCM_LITTLE_ENDIAN : bool.

(** What fresh memory holds. *)
Variable garbage : nat → Z.

Record raw_state := mk_raw {
  r_kern : K;
  r_board : B;
  r_user : user_memory
}.

Notation RM := (M raw_state).

(** The kernel buffer as the processor reads and writes it. *)
Definition cpu_bytes (n : nat) (v : Z) : list Z := if CDCM_LITTLE_ENDIAN then le_bytes n v else reverse (le_bytes n v).
Definition cpu_value (l : list Z) : Z := le_value (if CDCM_LITTLE_ENDIAN then l else reverse l).

(** [cdcm_be16_to_cpu] and the like, of [n] bytes: the conversions are their own inverses. *)
Definition cpu_be (n : nat) (v : Z) : Z := if CDCM_LITTLE_ENDIAN then swab n v else v.
Definition cpu_le (n : nat) (v : Z) : Z := if CDCM_LITTLE_ENDIAN then v else swab n v.

Definition do_ioread (bits a : Z) : RM Z :=
  b ← gets r_board;
  let '(v, b) := ioread bits a b in
  modify (λ s : raw_state, s <| r_board := b |>);; mret v.

Definition do_iowrite (bits v a : Z) : RM () := modify (λ s : raw_state, s <| r_board := iowrite bits v a (r_board s) |>).

(** [cdcm_ioread16be], [cdcm_ioread32le] and so on. *)
Definition ioread_end (big : bool) (bits : Z) (a : Z) : RM Z :=
  v ← do_ioread bits a; mret ((if big then cpu_be else cpu_le) (Z.to_nat (bits / 8)) v).

Definition iowrite_end (big : bool) (bits v a : Z) : RM () :=
  do_iowrite bits ((if big then cpu_be else cpu_le) (Z.to_nat (bits / 8)) v) a.

(** * A single item *)

(** Without bus errors [recoset] returns 0. *)
Definition RawIo (spaces : list InsLibAnyAddressSpace) (riob : SkelDrvrRawIoBlock) (flag : bool) : RM (Z * SkelDrvrRawIoBlock) :=
  match InsLibGetAddressSpaceWidth spaces (io_SpaceNumber riob) (io_DataWidth riob) with
  | None => mret (- ENXIO, riob)
  | Some anyas =>
    if truthy (WindowSize anyas) && (WindowSize anyas <=? io_Offset riob) then mret (- EINVAL, riob)
    else
      let riob := if truthy (io_DataWidth riob) then riob else riob <| io_DataWidth := DataWidth anyas |> in
      let mmap := Mapped anyas + io_Offset riob in
      let bendf := bool_decide (Endian anyas = InsLibEndianBIG) in
      let width := io_DataWidth riob in
      if width =? 8 then
        if flag then do_iowrite 8 (u8 (io_Data riob)) mmap;; mret (0, riob)
        else v ← do_ioread 8 mmap; mret (0, riob <| io_Data := v |>)
      else if (width =? 16) || (width =? 32) then
        if flag then iowrite_end bendf width (io_Data riob mod 2 ^ width) mmap;; mret (0, riob)
        else v ← ioread_end bendf width mmap; mret (0, riob <| io_Data := v |>)
      else mret (- EINVAL, riob)
  end.

(** * A block *)

(** The variables of the loop. *)
Record block_loop := mk_block {
  kbuf : list Z;
  uindx : Z;
  kindx : Z;
  hskip : Z
}.

(** [n] bytes at an index of the kernel buffer. *)
Definition kload (n : nat) (l : block_loop) : option Z :=
  if (0 <=? kindx l) && (kindx l + Z.of_nat n <=? Z.of_nat (length (kbuf l)))
  then Some (cpu_value (take n (drop (Z.to_nat (kindx l)) (kbuf l)))) else None.

Definition kstore (n : nat) (v : Z) (l : block_loop) : option block_loop :=
  if (0 <=? kindx l) && (kindx l + Z.of_nat n <=? Z.of_nat (length (kbuf l)))
  then Some (l <| kbuf := take (Z.to_nat (kindx l)) (kbuf l) ++ cpu_bytes n v ++ drop (Z.to_nat (kindx l) + n) (kbuf l) |>) else None.

(** The switch on the width: a write, a read. *)
Definition write_item (tszbt : Z) (bendf : bool) (mp : Z) (l : block_loop) : RM () :=
  if tszbt =? 16 then v ← lift_opt (kload 2 l); iowrite_end bendf 16 v mp
  else if tszbt =? 32 then v ← lift_opt (kload 4 l); iowrite_end bendf 32 v mp
  else v ← lift_opt (kload 1 l); do_iowrite 8 v mp.

(** Items of 8 bits are read at [mmap], not at [mp]. *)
Definition read_item (tszbt : Z) (bendf : bool) (mmap mp : Z) (l : block_loop) : RM block_loop :=
  if tszbt =? 16 then v ← ioread_end bendf 16 mp; lift_opt (kstore 2 v l)
  else if tszbt =? 32 then v ← ioread_end bendf 32 mp; lift_opt (kstore 4 v l)
  else v ← do_ioread 8 mmap; lift_opt (kstore 1 v l).

(** The loop, [tremg] more times. *)
Fixpoint transfer (riob : SkelDrvrRawIoTransferBlock) (flag : bool) (tszbt tszby ksize : Z) (bendf : bool) (mmap : Z)
    (tremg : nat) (l : block_loop) : RM block_loop :=
  match tremg with
  | O => mret l
  | S tremg =>
    let mp := mmap + hskip l in
    l ← (if flag then write_item tszbt bendf mp l;; mret l else read_item tszbt bendf mmap mp l);
    let l := l <| hskip := s32 (u32 (hskip l + u32 (tr_AddrIncr riob * tszby))) |> <| kindx := kindx l + tszby |> in
    l ← (if ksize <=? kindx l then
           u ← gets r_user;
           let l' := l <| uindx := s32 (uindx l + ksize) |> <| kindx := 0 |> in
           if flag then mret (l' <| kbuf := copy_from_user u (tr_Data riob + uindx l) (Z.to_nat ksize) |>)
           else modify (λ s : raw_state, s <| r_user := copy_to_user u (tr_Data riob + uindx l) (kbuf l) |>);; mret l'
         else mret l);
    transfer riob flag tszbt tszby ksize bendf mmap tremg l
  end.

(** Division by zero of C. *)
Definition c_div (x y : Z) : option Z := if y =? 0 then None else Some (x / y).

Definition RawIoBlock (spaces : list InsLibAnyAddressSpace) (riob : SkelDrvrRawIoTransferBlock) (flag : bool) : RM Z :=
  match InsLibGetAddressSpace spaces (tr_SpaceNumber riob) with
  | None => mret (- ENXIO)
  | Some anyas =>
    if truthy (WindowSize anyas) && (WindowSize anyas <=? tr_Offset riob) then mret (- EINVAL)
    else
      let tszbt := Z.land (tr_DataWidth riob) 0x3F in
      let tszbt := if tszbt <=? 0 then s32 (DataWidth anyas) else tszbt in
      let tszby := Z.quot tszbt 8 in
      tremg ← lift_opt (c_div (tr_BytesTr riob) (u32 tszby));
      let tremg := s32 tremg in
      let tremg := if tremg <=? 0 then 1 else tremg in
      let ksize := s32 (if tremg <? TRANSFERS then tremg * tszby else TRANSFERS * tszby) in
      k ← gets r_kern;
      let '(p, k) := sysbrk ksize k in
      modify (λ s : raw_state, s <| r_kern := k |>);;
      if p =? 0 then mret (- ENOMEM)
      else if IS_ERR p then stuck
      else
        let mmap := Mapped anyas + tr_Offset riob in
        let bendf := bool_decide (Endian anyas = InsLibEndianBIG) in
        u ← gets r_user;
        let buf := if flag then copy_from_user u (tr_Data riob) (Z.to_nat ksize) else garbage <$> seq 0 (Z.to_nat ksize) in
        l ← transfer riob flag tszbt tszby ksize bendf mmap (Z.to_nat tremg) (mk_block buf 0 0 0);
        u ← gets r_user;
        (if negb flag && truthy (kindx l) then
           modify (λ s : raw_state, s <| r_user := copy_to_user u (tr_Data riob + uindx l) (take (Z.to_nat (kindx l)) (kbuf l)) |>)
         else mret ());;
        k ← gets r_kern;
        k ← lift_opt (sysfree p k);
        modify (λ s : raw_state, s <| r_kern := k |>);;
        mret 0
  end.
End raw.

Arguments raw_state : clear implicits.

(** * Bytes *)

Lemma length_le_bytes n v : length (le_bytes n v) = n.
Proof. revert v. induction n; intros v; simpl; auto. Qed.

Lemma le_value_bytes n v : le_value (le_bytes n v) = v mod 256 ^ Z.of_nat n.
Proof.
  revert v. induction n as [|n IH]; intros v; [by rewrite Z.mod_1_r|].
  cbn [le_bytes le_value]. rewrite IH. unfold u8. rewrite Z.mod_mod by lia. change (2 ^ 8) with 256.
  rewrite Nat2Z.inj_succ, Z.pow_succ_r by lia. pose proof (Z.pow_pos_nonneg 256 (Z.of_nat n)). rewrite Z.rem_mul_r by lia. done.
Qed.

Lemma length_cpu_bytes little n v : length (cpu_bytes little n v) = n.
Proof. unfold cpu_bytes. destruct little; rewrite ?length_reverse; apply length_le_bytes. Qed.

(** What is stored is what is loaded. *)
Lemma cpu_value_bytes little n v : cpu_value little (cpu_bytes little n v) = v mod 256 ^ Z.of_nat n.
Proof. unfold cpu_value, cpu_bytes. destruct little; rewrite ?reverse_involutive; apply le_value_bytes. Qed.

(** ** User space *)

Definition readable (u : user_memory) (a : Z) (n : nat) : Prop := ∀ i, 0 <= i < Z.of_nat n → is_Some (u !! (a + i)).

Definition user_bytes (u : user_memory) (a : Z) (n : nat) : list Z := (λ i, default 0 (u !! (a + Z.of_nat i))) <$> seq 0 n.

Lemma readable_tail u a n : readable u a (S n) → readable u (a + 1) n.
Proof. intros Hr i Hi. replace (a + 1 + i) with (a + (i + 1)) by lia. apply Hr. lia. Qed.

Lemma copy_from_readable n : ∀ u a, readable u a n → copy_from_user u a n = user_bytes u a n.
Proof.
  induction n as [|n IH]; intros u a Hr; [done|]. cbn [copy_from_user].
  destruct (Hr 0 ltac:(lia)) as [b Hb]. rewrite Z.add_0_r in Hb. rewrite Hb, IH by by apply readable_tail.
  unfold user_bytes. cbn [seq fmap list_fmap]. rewrite Z.add_0_r, Hb. cbn [default id]. f_equal.
  rewrite <- (fmap_S_seq 0 n), <- list_fmap_compose. apply list_fmap_ext. intros i x _. cbn. do 2 f_equal. lia.
Qed.

Lemma length_copy_from n : ∀ u a, length (copy_from_user u a n) = n.
Proof.
  induction n as [|n IH]; intros u a; [done|]. cbn [copy_from_user]. destruct (u !! a); [by cbn; rewrite IH|]. by rewrite length_replicate.
Qed.

Lemma user_bytes_slice u a n i k : (i + k <= n)%nat → take k (drop i (user_bytes u a n)) = user_bytes u (a + Z.of_nat i) k.
Proof.
  intros Hk. unfold user_bytes. rewrite <- fmap_drop, <- fmap_take. rewrite drop_seq, take_seq, Nat.min_l by lia.
  rewrite Nat.add_0_l, <- (Nat.add_0_r i) at 1. rewrite <- fmap_add_seq, <- list_fmap_compose.
  apply list_fmap_ext. intros j x _. cbn. do 2 f_equal. lia.
Qed.

Lemma length_user_bytes u a n : length (user_bytes u a n) = n.
Proof. unfold user_bytes. by rewrite length_fmap, length_seq. Qed.

Lemma copy_to_readable l : ∀ u a x, is_Some (u !! x) → is_Some (copy_to_user u a l !! x).
Proof.
  induction l as [|b l IH]; intros u a x Hx; [done|]. cbn [copy_to_user]. destruct (u !! a) eqn:Ha; [|done].
  apply IH. destruct (decide (x = a)) as [->|]; [by rewrite lookup_insert_eq|by rewrite lookup_insert_ne].
Qed.

Lemma copy_to_app l1 : ∀ u a l2, readable u a (length l1) →
  copy_to_user u a (l1 ++ l2) = copy_to_user (copy_to_user u a l1) (a + Z.of_nat (length l1)) l2.
Proof.
  induction l1 as [|b l1 IH]; intros u a l2 Hr; [by rewrite Z.add_0_r|]. cbn [app copy_to_user length].
  destruct (Hr 0 ltac:(simpl; lia)) as [c Hc]. rewrite Z.add_0_r in Hc. rewrite Hc, IH.
  - f_equal. lia.
  - intros i Hi. apply readable_tail in Hr. destruct (decide (a + 1 + i = a)) as [->|]; [by rewrite lookup_insert_eq|].
    rewrite lookup_insert_ne by done. apply Hr. exact Hi.
Qed.

(** * Specification of a block transfer *)

Section spec.
Context {K B : Type} `{KernelLaws K} `{Mmio B}.
Variable little : bool.
Variable garbage : nat → Z.

(** The value of an item of [w] bits, of the byte order of the space, to or from the hardware. *)
Definition item_value (w : Z) (big : bool) (v : Z) : Z :=
  if w =? 8 then v else (if big then cpu_be little else cpu_le little) (Z.to_nat (w / 8)) v.

(** Read one item after the other: the bytes for the user. *)
Fixpoint read_items (w : Z) (big : bool) (addrs : list Z) (b : B) : list Z * B :=
  match addrs with
  | [] => ([], b)
  | a :: addrs =>
    let '(v, b) := ioread w a b in
    let '(l, b) := read_items w big addrs b in
    (cpu_bytes little (Z.to_nat (w / 8)) (item_value w big v) ++ l, b)
  end.

(** Write the items at addresses, from their bytes. *)
Fixpoint write_items (w : Z) (big : bool) (items : list (Z * list Z)) (b : B) : B :=
  match items with
  | [] => b
  | (a, l) :: items => write_items w big items (iowrite w (item_value w big (cpu_value little l)) a b)
  end.

(** The address of item [i] from [mmap] on; bytes are always read at [mmap]. *)
Definition read_address (w mmap incr : Z) (i : nat) : Z := if w =? 8 then mmap else mmap + Z.of_nat i * (incr * (w / 8)).
Definition write_address (w mmap incr : Z) (i : nat) : Z := mmap + Z.of_nat i * (incr * (w / 8)).

(** The user's item that is written as item [i]: from the second block of [TRANSFERS]
    on, that of one block before. *)
Definition source_item (i : nat) : nat := if decide (i < 1024)%nat then i else (i - 1024)%nat.

Definition written_items (u : user_memory) (w mmap incr data : Z) (n : nat) : list (Z * list Z) :=
  (λ i, (write_address w mmap incr i, user_bytes u (data + Z.of_nat (source_item i) * (w / 8)) (Z.to_nat (w / 8)))) <$> seq 0 n.

Lemma read_items_app w big l1 : ∀ l2 b,
  read_items w big (l1 ++ l2) b =
  let '(d1, b1) := read_items w big l1 b in let '(d2, b2) := read_items w big l2 b1 in (d1 ++ d2, b2).
Proof.
  induction l1 as [|a l1 IH]; intros l2 b; cbn [app read_items]; [by destruct (read_items w big l2 b)|].
  destruct (ioread w a b) as [v b1]. rewrite IH. destruct (read_items w big l1 b1) as [d1 b2].
  destruct (read_items w big l2 b2) as [d2 b3]. by rewrite app_assoc.
Qed.

Lemma write_items_app w big l1 : ∀ l2 b, write_items w big (l1 ++ l2) b = write_items w big l2 (write_items w big l1 b).
Proof. induction l1 as [|[a l] l1 IH]; intros l2 b; [done|]. apply IH. Qed.

Lemma length_read_items w big l : ∀ b, length (read_items w big l b).1 = (length l * Z.to_nat (w / 8))%nat.
Proof.
  induction l as [|a l IH]; intros b; [done|]. cbn [read_items]. destruct (ioread w a b) as [v b1].
  specialize (IH b1). destruct (read_items w big l b1) as [d b2]. simpl in *.
  rewrite length_app, length_cpu_bytes, IH. done.
Qed.

(** * The loop *)

Section loop.
Variable riob : SkelDrvrRawIoTransferBlock.
Variable big : bool.
Variable mmap : Z.
(** [w] bits, that is [z] bytes, an item; [m] items in the buffer, [n] in the transfer. *)
Variable w : Z.
Variables z m n : nat.
Hypothesis Hw : w = 8 ∧ z = 1%nat ∨ w = 16 ∧ z = 2%nat ∨ w = 32 ∧ z = 4%nat.
Hypothesis Hm : (0 < m)%nat.
Hypothesis Hincr : 0 <= tr_AddrIncr riob.
Hypothesis Hbound : Z.of_nat n * (tr_AddrIncr riob * Z.of_nat z) < 2 ^ 31 ∧ Z.of_nat n * Z.of_nat z < 2 ^ 31.

Notation RM := (M (raw_state K B)).
Notation data := (tr_Data riob).
Notation ksize := (Z.of_nat (m * z)).

(** After [k] items, [k = q * m + r]: full buffers and the rest. *)
Record at_item (q r : nat) (l : block_loop) : Prop := {
  ai_rest : (r < m)%nat;
  ai_hskip : hskip l = Z.of_nat (q * m + r) * (tr_AddrIncr riob * Z.of_nat z);
  ai_kindx : kindx l = Z.of_nat (r * z);
  ai_uindx : uindx l = Z.of_nat (q * m * z);
  ai_kbuf : length (kbuf l) = (m * z)%nat
}.

Lemma z_pos : (0 < z)%nat.
Proof. lia. Qed.

Lemma room q r l : at_item q r l → (r * z + z <= m * z)%nat.
Proof. intros [Hr _ _ _ _]. nia. Qed.

(** The indexes move to the next item. *)
Lemma next_skip q r l : at_item q r l → (q * m + r < n)%nat →
  s32 (u32 (hskip l + u32 (tr_AddrIncr riob * Z.of_nat z))) = Z.of_nat (S (q * m + r)) * (tr_AddrIncr riob * Z.of_nat z).
Proof.
  intros Hl Hn. rewrite (ai_hskip _ _ _ Hl). set (st := tr_AddrIncr riob * Z.of_nat z) in *.
  assert (0 <= st) by (unfold st; nia).
  assert (Hle : Z.of_nat (S (q * m + r)) * st <= Z.of_nat n * st) by (apply Z.mul_le_mono_nonneg_r; lia).
  rewrite u32_add_r. replace (Z.of_nat (q * m + r) * st + st) with (Z.of_nat (S (q * m + r)) * st) by lia.
  rewrite u32_small by (unfold is_u32; nia). apply s32_small. nia.
Qed.

Lemma kload_ok q r l : at_item q r l → kload little z l = Some (cpu_value little (take z (drop (r * z) (kbuf l)))).
Proof.
  intros Hl. pose proof (room _ _ _ Hl). unfold kload. rewrite (ai_kindx _ _ _ Hl), (ai_kbuf _ _ _ Hl).
  rewrite (proj2 (Z.leb_le 0 _)), (proj2 (Z.leb_le (Z.of_nat (r * z) + Z.of_nat z) _)) by lia. by rewrite Nat2Z.id.
Qed.

Lemma kstore_ok q r l v : at_item q r l → ∃ l', kstore little z v l = Some l' ∧
  hskip l' = hskip l ∧ kindx l' = kindx l ∧ uindx l' = uindx l ∧
  kbuf l' = take (r * z) (kbuf l) ++ cpu_bytes little z v ++ drop (r * z + z) (kbuf l) ∧ at_item q r l'.
Proof.
  intros Hl. pose proof (room _ _ _ Hl). unfold kstore. rewrite (ai_kindx _ _ _ Hl), (ai_kbuf _ _ _ Hl).
  rewrite (proj2 (Z.leb_le 0 _)), (proj2 (Z.leb_le (Z.of_nat (r * z) + Z.of_nat z) _)) by lia. rewrite Nat2Z.id.
  eexists. split; [done|]. destruct Hl as [? ? Hk ? Hb]. destruct l. cbn in *. rewrite Hk. split_and!; try done. split; cbn; try done.
  rewrite !length_app, length_cpu_bytes, length_take, length_drop. lia.
Qed.

Lemma wp_do_ioread bits a (Q : Z → raw_state K B → Prop) s :
  Q (ioread bits a (r_board s)).1 (s <| r_board := (ioread bits a (r_board s)).2 |>) → wp (do_ioread bits a) Q s.
Proof. intros HQ. unfold do_ioread. wp_step. wp_step. destruct (ioread bits a (r_board s)) as [v b]. by wp_steps. Qed.

(** What reading an item leaves: its bytes, at their place. *)
Definition item_read (q r : nat) (l : block_loop) (s : raw_state K B) (l' : block_loop) (s' : raw_state K B) : Prop :=
  at_item q r l' ∧ r_kern s' = r_kern s ∧ r_user s' = r_user s ∧
  ∃ v, ioread w (read_address w mmap (tr_AddrIncr riob) (q * m + r)) (r_board s) = (v, r_board s') ∧
  kbuf l' = take (r * z) (kbuf l) ++ cpu_bytes little z (item_value w big v) ++ drop (r * z + z) (kbuf l).

Lemma wp_read_item q r l (s : raw_state K B) : at_item q r l →
  wp (read_item little w big mmap (mmap + hskip l) l) (item_read q r l s) s.
Proof.
  intros Hl. assert (Hz : w / 8 = Z.of_nat z) by (destruct Hw as [[-> ->]|[[-> ->]|[-> ->]]]; done).
  assert (Hstore : ∀ v b, ioread w (read_address w mmap (tr_AddrIncr riob) (q * m + r)) (r_board s) = (v, b) →
    wp (lift_opt (kstore little z (item_value w big v) l)) (item_read q r l s) (s <| r_board := b |>)).
  { intros v b E. destruct (kstore_ok q r l (item_value w big v) Hl) as (l' & -> & Hh & Hk & Hu & Hb & Hl').
    eapply wp_lift_opt; [done|]. split; [done|]. split; [by destruct s|]. split; [by destruct s|]. exists v. by destruct s. }
  unfold read_address, item_value in *. rewrite Hz in *. rewrite <- (ai_hskip _ _ _ Hl) in Hstore. unfold read_item, ioread_end.
  destruct Hw as [[-> ->]|[[-> ->]|[-> ->]]]; cbn [Z.eqb Pos.eqb] in *; change (Z.to_nat 2) with 2%nat in *; change (Z.to_nat 4) with 4%nat in *;
    repeat wp_step; apply wp_do_ioread; cbv beta; repeat wp_step; destruct (ioread _ _ (r_board s)) as [v b] eqn:E;
    change (Z.to_nat (16 / 8)) with 2%nat; change (Z.to_nat (32 / 8)) with 4%nat; by apply Hstore.
Qed.

Lemma wp_write_item q r l (s : raw_state K B) : at_item q r l →
  wp (write_item little w big (mmap + hskip l) l) (λ _ s', s' = s <| r_board := iowrite w
    (item_value w big (cpu_value little (take z (drop (r * z) (kbuf l))))) (write_address w mmap (tr_AddrIncr riob) (q * m + r)) (r_board s) |>) s.
Proof.
  intros Hl. assert (Hz : w / 8 = Z.of_nat z) by (destruct Hw as [[-> ->]|[[-> ->]|[-> ->]]]; done).
  unfold write_address. rewrite Hz, <- (ai_hskip _ _ _ Hl). pose proof (kload_ok q r l Hl) as Hload.
  unfold write_item, iowrite_end, do_iowrite, item_value.
  destruct Hw as [[-> ->]|[[-> ->]|[-> ->]]]; cbn [Z.eqb Pos.eqb] in *; wp_step; (eapply wp_lift_opt; [exact Hload|]); by wp_step.
Qed.

(** ** Reading *)

(** [all] has been read: full buffers are with the user, the rest is in the kernel
    buffer. *)
Definition read_so_far (u0 : user_memory) (q r : nat) (all : list Z) (l : block_loop) (s : raw_state K B) : Prop :=
  at_item q r l ∧ length all = ((q * m + r) * z)%nat ∧ r_user s = copy_to_user u0 data (take (q * m * z) all) ∧
  take (r * z) (kbuf l) = drop (q * m * z) all.

Definition addresses (i cnt : nat) : list Z := read_address w mmap (tr_AddrIncr riob) <$> seq i cnt.

Lemma transfer_read u0 cnt : readable u0 data (n * z) → ∀ q r all l s,
  read_so_far u0 q r all l s → (q * m + r + cnt <= n)%nat →
  wp (transfer little riob false w (Z.of_nat z) ksize big mmap cnt l)
    (λ l' s', ∃ q' r', (q' * m + r' = q * m + r + cnt)%nat ∧ r_kern s' = r_kern s ∧
      r_board s' = (read_items w big (addresses (q * m + r) cnt) (r_board s)).2 ∧
      read_so_far u0 q' r' (all ++ (read_items w big (addresses (q * m + r) cnt) (r_board s)).1) l' s') s.
Proof.
  intros Hu. induction cnt as [|cnt IH]; intros q r all l s (Hl & Hall & Hus & Hbuf) Hn.
  { cbn [transfer]. wp_step. exists q, r. cbn. rewrite app_nil_r. split_and!; try done; lia. }
  cbn [transfer]. pose proof (room _ _ _ Hl) as Hroom. pose proof z_pos as Hz0.
  wp_step. eapply wp_mono; [by eapply wp_read_item|]. cbv beta. intros l1 s1 (Hl1 & Hk1 & Hu1 & v & Ev & Hb1).
  set (bytes := cpu_bytes little z (item_value w big v)) in *.
  assert (Hlen : length bytes = z) by apply length_cpu_bytes.
  pose proof (ai_kbuf _ _ _ Hl) as Hkb.
  assert (Htake : take (r * z + z) (kbuf l1) = drop (q * m * z) (all ++ bytes)).
  { rewrite Hb1, take_app_ge by (rewrite length_take; lia). rewrite length_take, Hkb, Nat.min_l by lia.
    rewrite take_app_le by lia. rewrite (take_ge bytes) by lia. rewrite drop_app_le by nia. by rewrite Hbuf. }
  assert (Haddr : addresses (q * m + r) (S cnt) = read_address w mmap (tr_AddrIncr riob) (q * m + r) :: addresses (S (q * m + r)) cnt) by done.
  assert (Hitems : read_items w big (addresses (q * m + r) (S cnt)) (r_board s) =
    (bytes ++ (read_items w big (addresses (S (q * m + r)) cnt) (r_board s1)).1, (read_items w big (addresses (S (q * m + r)) cnt) (r_board s1)).2)).
  { rewrite Haddr. cbn [read_items]. rewrite Ev. destruct (read_items w big _ (r_board s1)) as [d b]. cbn [fst snd].
    unfold bytes. do 2 f_equal. destruct Hw as [[-> ->]|[[-> ->]|[-> ->]]]; done. }
  rewrite Hitems. cbn [fst snd]. rewrite app_assoc.
  wp_step. rewrite (next_skip q r l1 Hl1) by lia.
  destruct l1 as [kb1 ui1 ki1 hs1]. cbn in Hb1, Htake |- *. pose proof (ai_kindx _ _ _ Hl1) as Hki. pose proof (ai_uindx _ _ _ Hl1) as Hui. pose proof (ai_kbuf _ _ _ Hl1) as Hkb1. cbn in Hki, Hui, Hkb1.
  assert (Hstep : ∀ q2 r2 l2 s2, (q2 * m + r2 = S (q * m + r))%nat → r_kern s2 = r_kern s1 → r_board s2 = r_board s1 →
    read_so_far u0 q2 r2 (all ++ bytes) l2 s2 →
    wp (transfer little riob false w (Z.of_nat z) ksize big mmap cnt l2) (λ l' s', ∃ q' r', (q' * m + r' = q * m + r + S cnt)%nat ∧ r_kern s' = r_kern s ∧
      r_board s' = (read_items w big (addresses (S (q * m + r)) cnt) (r_board s1)).2 ∧
      read_so_far u0 q' r' ((all ++ bytes) ++ (read_items w big (addresses (S (q * m + r)) cnt) (r_board s1)).1) l' s') s2).
  { intros q2 r2 l2 s2 Hq Hks Hbs Hso. eapply wp_mono; [apply (IH q2 r2 (all ++ bytes) l2 s2 Hso); lia|].
    cbv beta. intros l' s' (q' & r' & Hq' & Hk' & Hb' & Hso'). rewrite Hq, Hbs in *. exists q', r'. split_and!; try done; [lia|congruence]. }
  destruct (Z.leb_spec ksize (ki1 + Z.of_nat z)) as [Hfull|Hmore].
  - assert (Hrm : r = (m - 1)%nat) by nia. wp_steps. apply (Hstep (S q) 0%nat); try (by destruct s1); [nia|].
    split; [|split; [|split]].
    + split; cbn; try done; [nia|]. rewrite Hui. replace (Z.of_nat (q * m * z) + ksize) with (Z.of_nat (S q * m * z)) by lia. apply s32_small. nia.
    + rewrite length_app. nia.
    + destruct s1 as [k1 b1 u1]. cbn in *. rewrite Hu1, Hus, Hui.
      rewrite (take_ge (all ++ bytes)) by (rewrite length_app; nia).
      rewrite <- (take_drop (q * m * z) (all ++ bytes)), <- Htake, take_app_le by nia.
      rewrite (take_ge kb1) by nia. rewrite copy_to_app; [|intros i Hi; apply Hu; rewrite length_take in Hi; nia].
      by rewrite length_take, Nat.min_l by nia.
    + cbn. rewrite drop_ge; [done|]. rewrite length_app. nia.
  - wp_steps. apply (Hstep q (S r)); try done; try lia.
    split; [|split; [|split]].
    + split; cbn; try done; [nia| |lia]. by rewrite Nat.add_succ_r.
    + rewrite length_app. nia.
    + rewrite Hu1, Hus, take_app_le by nia. done.
    + cbn. rewrite <- Htake. f_equal. lia.
Qed.

(** ** Writing *)

Hypothesis Hblock : m = 1024%nat ∨ n = m ∧ (m <= 1024)%nat.

Definition written (u : user_memory) (i cnt : nat) : list (Z * list Z) :=
  (λ i, (write_address w mmap (tr_AddrIncr riob) i, user_bytes u (data + Z.of_nat (source_item i) * Z.of_nat z) z)) <$> seq i cnt.

(** The kernel buffer holds the block before the current one; the first block, at the start. *)
Definition write_ready (u : user_memory) (q r : nat) (l : block_loop) (s : raw_state K B) : Prop :=
  at_item q r l ∧ r_user s = u ∧ kbuf l = user_bytes u (data + Z.of_nat ((q - 1) * m * z)) (m * z).

Lemma transfer_write u cnt : readable u data (n * z) → ∀ q r l s,
  write_ready u q r l s → (q * m + r + cnt <= n)%nat →
  wp (transfer little riob true w (Z.of_nat z) ksize big mmap cnt l)
    (λ l' s', r_kern s' = r_kern s ∧ r_user s' = u ∧ r_board s' = write_items w big (written u (q * m + r) cnt) (r_board s)) s.
Proof.
  intros Hu. induction cnt as [|cnt IH]; intros q r l s (Hl & Hus & Hkb) Hn; [by cbn [transfer]; wp_step|].
  cbn [transfer]. pose proof (room _ _ _ Hl) as Hroom. pose proof z_pos as Hz0.
  wp_step. wp_step. eapply wp_mono; [by eapply wp_write_item|]. cbv beta. intros [] s1 ->. wp_step.
  assert (Hitem : take z (drop (r * z) (kbuf l)) = user_bytes u (data + Z.of_nat (source_item (q * m + r)) * Z.of_nat z) z).
  { rewrite Hkb, user_bytes_slice by lia. f_equal. unfold source_item. pose proof (ai_rest _ _ _ Hl).
    destruct q as [|q]; [rewrite decide_True by lia; lia|]. destruct Hblock as [Hm1|[Hm1 Hm2]]; [|nia]. rewrite decide_False by nia. nia. }
  rewrite Hitem. cbn [written seq fmap list_fmap write_items].
  set (s1 := s <| r_board := _ |>). change (write_items w big _ _) with (write_items w big (written u (S (q * m + r)) cnt) (r_board s1)).
  assert (Hu1 : r_user s1 = u) by done. change (r_kern s) with (r_kern s1). clearbody s1. clear Hitem.
  rewrite (next_skip q r l Hl) by lia.
  destruct l as [kb ui ki hs]. pose proof (ai_kindx _ _ _ Hl) as Hki. pose proof (ai_uindx _ _ _ Hl) as Hui. pose proof (ai_kbuf _ _ _ Hl) as Hlen. cbn in *.
  destruct (Z.leb_spec ksize (ki + Z.of_nat z)) as [Hfull|Hmore].
  - assert (Hrm : (S (q * m + r) = S q * m + 0)%nat) by (pose proof (ai_rest _ _ _ Hl); nia). wp_steps. rewrite Hrm. apply IH; [|lia].
    split; [|split; [done|]].
    + split; cbn; try done.
      * rewrite Hui. replace (Z.of_nat (q * m * z) + ksize) with (Z.of_nat (S q * m * z)) by lia. apply s32_small. nia.
      * by rewrite Nat2Z.id, copy_from_readable, length_user_bytes by (intros i Hi; rewrite Hu1, Hui; replace (data + Z.of_nat (q * m * z) + i) with (data + (Z.of_nat (q * m * z) + i)) by lia; apply Hu; nia).
    + cbn. rewrite Hu1, Nat2Z.id, Hui, Nat.sub_0_r.
      apply copy_from_readable. intros i Hi. replace (data + Z.of_nat (q * m * z) + i) with (data + (Z.of_nat (q * m * z) + i)) by lia. apply Hu. nia.
  - wp_steps. rewrite <- Nat.add_succ_r. apply IH; [|lia]. split; [|split; [done|done]].
    split; cbn; try done; [nia|lia].
Qed.
End loop.

(** * The whole transfer *)

(** The size of the kernel buffer of [n] items of [w] bits. *)
Definition buffer_size (w : Z) (n : nat) : Z := Z.of_nat (n `min` 1024) * (w / 8).

(** What [kmalloc] gives is no NULL, nor will it be taken for an error code. *)
Definition fits (p : Z) : Prop := 0 < p ∧ IS_ERR (p + sizeof_cdcm_mem_header) = false.

(** The loop, whole, on a fresh buffer. *)
Lemma transfer_all riob flag big mmap w z (n : nat) (s : raw_state K B) :
  w = 8 ∧ z = 1%nat ∨ w = 16 ∧ z = 2%nat ∨ w = 32 ∧ z = 4%nat →
  (0 < n)%nat → 0 <= tr_AddrIncr riob →
  Z.of_nat n * (tr_AddrIncr riob * Z.of_nat z) < 2 ^ 31 ∧ Z.of_nat n * Z.of_nat z < 2 ^ 31 →
  readable (r_user s) (tr_Data riob) (n * z) →
  let size := ((n `min` 1024) * z)%nat in
  let buf := if flag : bool then copy_from_user (r_user s) (tr_Data riob) size else garbage <$> seq 0 size in
  wp (transfer little riob flag w (Z.of_nat z) (Z.of_nat size) big mmap n (mk_block buf 0 0 0)) (λ l s',
    r_kern s' = r_kern s ∧
    if flag then r_user s' = r_user s ∧
      r_board s' = write_items w big (written_items (r_user s) w mmap (tr_AddrIncr riob) (tr_Data riob) n) (r_board s)
    else
      let '(d, b) := read_items w big (read_address w mmap (tr_AddrIncr riob) <$> seq 0 n) (r_board s) in
      r_board s' = b ∧
      (if truthy (kindx l) then copy_to_user (r_user s') (tr_Data riob + uindx l) (take (Z.to_nat (kindx l)) (kbuf l)) else r_user s') =
      copy_to_user (r_user s) (tr_Data riob) d) s.
Proof.
  intros Hw Hn Hi Hb Hu size buf. set (m := (n `min` 1024)%nat) in *.
  assert (Hm : (0 < m)%nat) by lia.
  assert (Hz : w / 8 = Z.of_nat z) by (destruct Hw as [[-> ->]|[[-> ->]|[-> ->]]]; done).
  assert (Hlen : length buf = size).
  { unfold buf. destruct flag; [|by rewrite length_fmap, length_seq].
    rewrite copy_from_readable, length_user_bytes; [done|]. intros i Hx. apply Hu. unfold size in Hx. nia. }
  assert (Hat : at_item riob z m 0 0 (mk_block buf 0 0 0)) by (split; cbn; try done).
  destruct flag.
  - eapply wp_mono; [apply (transfer_write riob big mmap w z m n Hw Hm Hi Hb) with (u := r_user s) (q := 0%nat) (r := 0%nat)|].
    + lia.
    + done.
    + split; [done|]. split; [done|]. cbn. rewrite Z.add_0_r. apply copy_from_readable. intros i Hx. apply Hu. unfold size in Hx. nia.
    + lia.
    + cbv beta. intros l s' (Hk & Hus & Hbs). split_and!; try done. rewrite Hbs. unfold written_items. rewrite Hz, Nat2Z.id. done.
  - eapply wp_mono; [apply (transfer_read riob big mmap w z m n Hw Hm Hi Hb) with (u0 := r_user s) (q := 0%nat) (r := 0%nat) (all := [])|].
    + done.
    + split; [done|]. split; [done|]. by split.
    + lia.
    + cbv beta. intros l s' (q & r & Hq & Hk & Hbs & (Hl & Hlen' & Hus & Hbuf)). split; [done|].
      unfold addresses in *. cbn [Nat.mul Nat.add app] in *. destruct (read_items w big _ (r_board s)) as [d b]. cbn [fst snd] in *. split; [done|].
      pose proof (ai_rest _ _ _ _ _ _ Hl). rewrite Hus, <- (take_drop (q * m * z) d) at 2. rewrite <- Hbuf.
      rewrite (ai_kindx _ _ _ _ _ _ Hl), (ai_uindx _ _ _ _ _ _ Hl), Nat2Z.id. unfold truthy. destruct (Z.eqb_spec (Z.of_nat (r * z)) 0) as [E|E]; cbn [negb].
      * replace (r * z)%nat with 0%nat by lia. by rewrite take_0, app_nil_r.
      * rewrite copy_to_app.
        -- by rewrite Hus, length_take, Nat.min_l by nia.
        -- intros i Hx. apply Hu. rewrite length_take in Hx. nia.
Qed.

(** C30: A block transfer of items of 8, 16 or 32 bits, of any length, that fits an [int] and
    user memory, does what one access per item would do.  A read gives the user the values that the
    hardware shows at successive addresses, in order and in the byte order of the processor -- but
    items of 8 bits are all read at the first address; a write puts the
    user's items at successive addresses -- but from item 1024 on those of one block before.
    The code returns 0 and its buffer is given back. *)
Theorem raw_block_transfer (spaces : list InsLibAnyAddressSpace) (riob : SkelDrvrRawIoTransferBlock) (flag : bool)
    (anyas : InsLibAnyAddressSpace) (w : Z) (n : nat) (s : raw_state K B) :
  InsLibGetAddressSpace spaces (tr_SpaceNumber riob) = Some anyas →
  WindowSize anyas = 0 ∨ tr_Offset riob < WindowSize anyas →
  w = 8 ∨ w = 16 ∨ w = 32 →
  tr_DataWidth riob = w ∨ tr_DataWidth riob = 0 ∧ DataWidth anyas = w →
  tr_BytesTr riob = Z.of_nat n * (w / 8) → (0 < n)%nat → 0 <= tr_AddrIncr riob →
  Z.of_nat n * (tr_AddrIncr riob * (w / 8)) < 2 ^ 31 → Z.of_nat n * (w / 8) < 2 ^ 31 →
  readable (r_user s) (tr_Data riob) (n * Z.to_nat (w / 8)) →
  fits (kmalloc (buffer_size w n + sizeof_cdcm_mem_header) (r_kern s)).1 →
  let mmap := Mapped anyas + tr_Offset riob in
  let big := bool_decide (Endian anyas = InsLibEndianBIG) in
  wp (RawIoBlock little garbage spaces riob flag) (λ rc s', rc = 0 ∧ live (r_kern s') = live (r_kern s) ∧
    if flag then r_user s' = r_user s ∧
      r_board s' = write_items w big (written_items (r_user s) w mmap (tr_AddrIncr riob) (tr_Data riob) n) (r_board s)
    else
      let '(d, b) := read_items w big (read_address w mmap (tr_AddrIncr riob) <$> seq 0 n) (r_board s) in
      r_board s' = b ∧ r_user s' = copy_to_user (r_user s) (tr_Data riob) d) s.
Proof.
  intros Has Hwin Hw8 Hwd Hbt Hn Hi Hb1 Hb2 Hu [Hp Hfit] mmap big. set (z := Z.to_nat (w / 8)) in *.
  assert (Hw : w = 8 ∧ z = 1%nat ∨ w = 16 ∧ z = 2%nat ∨ w = 32 ∧ z = 4%nat) by (destruct Hw8 as [-> | [-> | ->]]; auto).
  assert (Hz : w / 8 = Z.of_nat z) by (destruct Hw8 as [-> | [-> | ->]]; done).
  unfold RawIoBlock. rewrite Has.
  assert (Hwin' : truthy (WindowSize anyas) && (WindowSize anyas <=? tr_Offset riob) = false).
  { unfold truthy. destruct (Z.eqb_spec (WindowSize anyas) 0); [done|]. cbn. apply Z.leb_gt. lia. }
  rewrite Hwin'. cbv zeta.
  assert (Htsz : (if Z.land (tr_DataWidth riob) 63 <=? 0 then s32 (DataWidth anyas) else Z.land (tr_DataWidth riob) 63) = w).
  { destruct Hwd as [->|[-> ->]], Hw8 as [-> | [-> | ->]]; done. }
  rewrite Htsz. assert (Hq : Z.quot w 8 = Z.of_nat z ∧ u32 (Z.of_nat z) = Z.of_nat z ∧ (0 < z)%nat) by (destruct Hw as [[-> ->]|[[-> ->]|[-> ->]]]; split_and!; done || lia).
  destruct Hq as (-> & -> & Hz0). rewrite Hz in *.
  wp_step. apply wp_lift_opt with (Z.of_nat n).
  { unfold c_div. rewrite (proj2 (Z.eqb_neq _ 0)), Hbt, Z.div_mul by lia. done. }
  rewrite (s32_small (Z.of_nat n)) by nia. rewrite (proj2 (Z.leb_gt (Z.of_nat n) 0)) by lia.
  assert (Hsize : (if Z.of_nat n <? TRANSFERS then Z.of_nat n * Z.of_nat z else TRANSFERS * Z.of_nat z) = Z.of_nat ((n `min` 1024) * z)).
  { unfold TRANSFERS. destruct (Z.ltb_spec (Z.of_nat n) 1024); nia. }
  rewrite Hsize, s32_small by nia. unfold buffer_size in *. rewrite Hz in *. rewrite <- Nat2Z.inj_mul in *.
  wp_step. wp_step. unfold sysbrk. pose proof (kmalloc_live (Z.of_nat (n `min` 1024 * z) + sizeof_cdcm_mem_header) (r_kern s)) as Hk.
  destruct (kmalloc _ (r_kern s)) as [p k]. cbn [fst snd] in *. rewrite (proj2 (Z.eqb_neq p 0)) by lia.
  destruct Hk as [[-> _]|(_ & _ & Hk)]; [lia|].
  assert (Hfree : live (kfree p k) = live (r_kern s)) by (rewrite kfree_live, Hk; clear; multiset_solver).
  wp_step. wp_step. unfold sizeof_cdcm_mem_header in *. rewrite (proj2 (Z.eqb_neq (p + 16) 0)) by lia.
  rename Hfit into Herr. rewrite Herr.
  wp_step. wp_step. rewrite !Nat2Z.id. wp_step.
  eapply wp_mono; [apply (transfer_all riob flag big mmap w z n (s <| r_kern := k |>)); try done; lia|].
  cbv beta. intros l s' [Hks Hres]. wp_step. wp_step.
  replace (r_board (s <| r_kern := k |>)) with (r_board s) in Hres by by destruct s.
  replace (r_user (s <| r_kern := k |>)) with (r_user s) in Hres by by destruct s.
  assert (Hend : ∀ s'' : raw_state K B, r_kern s'' = r_kern s' →
    wp (k ← gets r_kern; k ← lift_opt (sysfree (p + 16) k); modify (λ s : raw_state K B, s <| r_kern := k |>);; mret 0)
      (λ rc t, rc = 0 ∧ live (r_kern t) = live (r_kern s) ∧ r_board t = r_board s'' ∧ r_user t = r_user s'') s'').
  { intros s'' Hk''. wp_step. wp_step. wp_step. unfold sysfree. rewrite (proj2 (Z.eqb_neq (p + 16) 0)) by lia. rewrite Herr.
    eapply wp_lift_opt; [done|]. wp_steps. split; [done|]. split; [|by destruct s'']. destruct s''. cbn in *. rewrite Hk'', Hks. cbn.
    replace (p + 16 - sizeof_cdcm_mem_header) with p by (unfold sizeof_cdcm_mem_header; lia). done. }
  destruct flag.
  - cbn [negb andb]. apply wp_bind, wp_ret. eapply wp_mono; [by apply Hend|]. cbv beta. intros rc t (-> & Hl & Hb & Hut). destruct Hres as [Hr1 Hr2].
    split_and!; try done; [by rewrite Hut, Hr1|by rewrite Hb, Hr2].
  - destruct (read_items w big _ _) as [d b] eqn:Eri. destruct Hres as [Hr1 Hr2]. cbn [negb andb]. destruct (truthy (kindx l)) eqn:Et; apply wp_bind; [apply wp_modify|apply wp_ret].
    all: eapply wp_mono; [by apply Hend; destruct s'|]; cbv beta; intros rc t (-> & Hl & Hb & Hut); destruct s'; cbn in *; split_and!; congruence.
Qed.

(** * Any transfer

    With a width of 8 to 64 bits no transfer leaves its buffer, whatever its other fields are, and it
    gives back its memory. *)
Definition block_width (anyas : InsLibAnyAddressSpace) (riob : SkelDrvrRawIoTransferBlock) : Z :=
  if Z.land (tr_DataWidth riob) 0x3F <=? 0 then s32 (DataWidth anyas) else Z.land (tr_DataWidth riob) 0x3F.

Definition in_buffer (z ksize : Z) (l : block_loop) : Prop :=
  0 <= kindx l < ksize ∧ (z | kindx l) ∧ Z.of_nat (length (kbuf l)) = ksize.

Lemma in_buffer_room z ksize l : 0 < z → (z | ksize) → in_buffer z ksize l → kindx l + z <= ksize.
Proof. intros Hz [q ->] ([Hk0 Hk] & [r Hr] & _). rewrite Hr in *. assert (r < q) by nia. nia. Qed.

Lemma kload_safe z ksize n l : Z.of_nat n <= z → 0 < z → (z | ksize) → in_buffer z ksize l → ∃ v, kload little n l = Some v.
Proof.
  intros Hn Hz Hd Hl. pose proof (in_buffer_room _ _ _ Hz Hd Hl). destruct Hl as (Hk & _ & Hlen).
  unfold kload. rewrite (proj2 (Z.leb_le 0 _)), (proj2 (Z.leb_le (kindx l + Z.of_nat n) _)) by lia. by eexists.
Qed.

Lemma kstore_safe z ksize n v l : Z.of_nat n <= z → 0 < z → (z | ksize) → in_buffer z ksize l →
  ∃ l', kstore little n v l = Some l' ∧ in_buffer z ksize l'.
Proof.
  intros Hn Hz Hd Hl. pose proof (in_buffer_room _ _ _ Hz Hd Hl). destruct Hl as (Hk & Hdv & Hlen).
  unfold kstore. rewrite (proj2 (Z.leb_le 0 _)), (proj2 (Z.leb_le (kindx l + Z.of_nat n) _)) by lia. eexists. split; [done|].
  destruct l as [kb ui ki hs]. cbn in *. split; [done|]. split; [done|]. cbn.
  rewrite !length_app, length_cpu_bytes, length_take, length_drop. lia.
Qed.

Lemma read_item_safe w big mmap mp z ksize l (s : raw_state K B) :
  (w = 16 → 2 <= z) → (w = 32 → 4 <= z) → 0 < z → (z | ksize) → in_buffer z ksize l →
  wp (read_item little w big mmap mp l) (λ l' s', r_kern s' = r_kern s ∧ in_buffer z ksize l') s.
Proof.
  intros H16 H32 Hz Hd Hl. unfold read_item, ioread_end.
  repeat wp_step; apply wp_do_ioread; cbv beta; repeat wp_step; set (v := (ioread _ _ _).1);
    match goal with |- wp (lift_opt (kstore _ ?n ?x _)) _ _ =>
      destruct (kstore_safe z ksize n x l) as (l' & E & Hl'); [lia|lia|done|done|]; apply (wp_lift_opt _ _ _ _ E); split; [by destruct s|done] end.
Qed.

Lemma write_item_safe w big mp z ksize l (s : raw_state K B) :
  (w = 16 → 2 <= z) → (w = 32 → 4 <= z) → 0 < z → (z | ksize) → in_buffer z ksize l →
  wp (write_item little w big mp l) (λ _ s', r_kern s' = r_kern s) s.
Proof.
  intros H16 H32 Hz Hd Hl. unfold write_item, iowrite_end, do_iowrite.
  repeat wp_step; match goal with |- wp (lift_opt (kload _ ?n _)) _ _ =>
    destruct (kload_safe z ksize n l) as (v & E); [lia|lia|done|done|]; apply (wp_lift_opt _ _ _ _ E); by wp_steps end.
Qed.

Lemma transfer_safe riob flag w big mmap z ksize n :
  (w = 16 → 2 <= z) → (w = 32 → 4 <= z) → 0 < z → 0 < ksize → (z | ksize) → ∀ l (s : raw_state K B), in_buffer z ksize l →
  wp (transfer little riob flag w z ksize big mmap n l) (λ _ s', r_kern s' = r_kern s) s.
Proof.
  intros H16 H32 Hz Hks Hd. induction n as [|n IH]; intros l s Hl; [by cbn [transfer]; wp_step|]. cbn [transfer].
  assert (Hnext : ∀ l1 s1, in_buffer z ksize l1 → r_kern s1 = r_kern s →
    wp (l2 ← (if ksize <=? kindx l1 + z then
           u ← gets r_user;
           let l' := l1 <| hskip := s32 (u32 (hskip l1 + u32 (tr_AddrIncr riob * z))) |> <| kindx := kindx l1 + z |> <| uindx := s32 (uindx l1 + ksize) |> <| kindx := 0 |> in
           if flag then mret (l' <| kbuf := copy_from_user u (tr_Data riob + uindx l1) (Z.to_nat ksize) |>)
           else modify (λ s : raw_state K B, s <| r_user := copy_to_user u (tr_Data riob + uindx l1) (kbuf l1) |>);; mret l'
         else mret (l1 <| hskip := s32 (u32 (hskip l1 + u32 (tr_AddrIncr riob * z))) |> <| kindx := kindx l1 + z |>));
      transfer little riob flag w z ksize big mmap n l2) (λ _ s', r_kern s' = r_kern s) s1).
  { intros l1 s1 Hl1 Hk1. pose proof (in_buffer_room _ _ _ Hz Hd Hl1). destruct l1 as [kb ui ki hs], Hl1 as (Hki & Hdv & Hlen). cbn in *.
    assert (Hgo : ∀ l2 s2, in_buffer z ksize l2 → r_kern s2 = r_kern s1 → wp (transfer little riob flag w z ksize big mmap n l2) (λ _ s', r_kern s' = r_kern s) s2).
    { intros l2 s2 Hl2 Hk2. eapply wp_mono; [by apply IH|]. cbv beta. congruence. }
    destruct (Z.leb_spec ksize (ki + z)).
    - destruct flag; wp_steps; apply Hgo; try (by destruct s1); (split; [cbn; lia|]; split; [by exists 0|]; cbn); [|done].
      rewrite length_copy_from. lia.
    - wp_steps. apply Hgo; [|done]. split; [cbn; lia|]. split; [by apply Z.divide_add_r; [|exists 1; lia]|done]. }
  wp_step. destruct flag.
  - wp_step. eapply wp_mono; [by eapply write_item_safe|]. cbv beta. intros _ s1 Hk1. wp_step. pose proof (Hnext l s1 Hl Hk1) as Hx. destruct l. exact Hx.
  - eapply wp_mono; [by eapply read_item_safe|]. cbv beta. intros l1 s1 [Hk1 Hl1]. pose proof (Hnext l1 s1 Hl1 Hk1) as Hx. destruct l1. exact Hx.
Qed.

Lemma raw_block_safe spaces riob flag (s : raw_state K B) :
  (∀ n, fits (kmalloc n (r_kern s)).1) →
  (∀ anyas, InsLibGetAddressSpace spaces (tr_SpaceNumber riob) = Some anyas → 8 <= block_width anyas riob <= 64) →
  wp (RawIoBlock little garbage spaces riob flag) (λ _ s', live (r_kern s') = live (r_kern s)) s.
Proof.
  intros Hfits Hwd. unfold RawIoBlock. destruct (InsLibGetAddressSpace spaces _) as [anyas|]; [|by wp_step].
  specialize (Hwd anyas eq_refl). wp_step; [by wp_step|]. cbv zeta. fold (block_width anyas riob).
  set (w := block_width anyas riob) in *. clearbody w.
  assert (Hz : 1 <= Z.quot w 8 <= 8) by (rewrite Z.quot_div_nonneg by lia; split; [apply Z.div_le_lower_bound|apply Z.div_le_upper_bound]; lia).
  assert (H16 : (w = 16 → 2 <= Z.quot w 8) ∧ (w = 32 → 4 <= Z.quot w 8)) by (split; intros ->; done).
  destruct H16 as [H16 H32]. set (z := Z.quot w 8) in *. clearbody z.
  assert (Hu : u32 z = z) by (apply u32_small; unfold is_u32; lia).
  wp_step. apply (wp_lift_opt _ (tr_BytesTr riob / z)); [unfold c_div; rewrite Hu; by rewrite (proj2 (Z.eqb_neq z 0)) by lia|].
  set (tremg := if s32 _ <=? 0 then _ else _). assert (Ht : 1 <= tremg) by (unfold tremg; destruct (Z.leb_spec (s32 (tr_BytesTr riob / z)) 0); lia).
  assert (Hsize : ∃ q, 0 < q <= 1024 ∧ s32 (if tremg <? TRANSFERS then tremg * z else TRANSFERS * z) = q * z).
  { unfold TRANSFERS. destruct (Z.ltb_spec tremg 1024).
    - exists tremg. split; [lia|]. apply s32_small. nia.
    - exists 1024. split; [lia|]. apply s32_small. nia. }
  destruct Hsize as (q & Hq & ->). wp_step. wp_step. unfold sysbrk.
  destruct (Hfits (q * z + sizeof_cdcm_mem_header)) as [Hp Herr]. pose proof (kmalloc_live (q * z + sizeof_cdcm_mem_header) (r_kern s)) as Hk.
  destruct (kmalloc _ (r_kern s)) as [p k]. cbn [fst snd] in *. rewrite (proj2 (Z.eqb_neq p 0)) by lia.
  destruct Hk as [[-> _]|(_ & _ & Hk)]; [lia|].
  assert (Hfree : live (kfree p k) = live (r_kern s)) by (rewrite kfree_live, Hk; clear; multiset_solver).
  unfold sizeof_cdcm_mem_header in *. wp_step. wp_step. rewrite (proj2 (Z.eqb_neq (p + 16) 0)), Herr by lia. wp_step. wp_step.
  set (buf := if flag then _ else _).
  assert (Hbuf : Z.of_nat (length buf) = q * z).
  { unfold buf. destruct flag; [rewrite length_copy_from; nia|rewrite length_fmap, length_seq; nia]. }
  wp_step. eapply wp_mono; [apply (transfer_safe riob flag w _ _ z (q * z)); try done; [lia|nia|by exists q|]|].
  { split; [cbn; nia|]. split; [by exists 0|done]. }
  cbv beta. intros l s' Hs'. wp_step. wp_step. wp_step.
  assert (Hend : ∀ s'' : raw_state K B, r_kern s'' = r_kern s' →
    wp (k ← gets r_kern; k ← lift_opt (sysfree (p + 16) k); modify (λ s : raw_state K B, s <| r_kern := k |>);; mret 0)
      (λ _ t, live (r_kern t) = live (r_kern s)) s'').
  { intros s'' Hk''. wp_step. wp_step. wp_step. unfold sysfree. rewrite (proj2 (Z.eqb_neq (p + 16) 0)), Herr by lia.
    eapply wp_lift_opt; [done|]. wp_steps. destruct s''. cbn in *. rewrite Hk'', Hs'. destruct s. cbn.
    by replace (p + 16 - sizeof_cdcm_mem_header) with p by (unfold sizeof_cdcm_mem_header; lia). }
  wp_step; [apply wp_modify|apply wp_ret]; apply Hend; by destruct s'.
Qed.

(** A single access keeps the memory, and is never stuck. *)
Lemma raw_safe spaces riob flag (s : raw_state K B) :
  wp (RawIo little spaces riob flag) (λ _ s', r_kern s' = r_kern s) s.
Proof.
  unfold RawIo. destruct (InsLibGetAddressSpaceWidth _ _ _) as [anyas|]; [|by wp_step].
  wp_step; [by wp_step|]. cbv zeta. unfold ioread_end, iowrite_end, do_iowrite.
  repeat first [wp_step | apply wp_do_ioread; cbv beta]; by destruct s.
Qed.
End spec.

(** A width below 8 bits is not refused: the code divides by zero. *)
Lemma raw_block_small_width {K B} `{Kernel K} `{Mmio B} little garbage spaces riob flag anyas (s : raw_state K B) :
  InsLibGetAddressSpace spaces (tr_SpaceNumber riob) = Some anyas →
  WindowSize anyas = 0 → 0 < Z.land (tr_DataWidth riob) 0x3F < 8 →
  RawIoBlock little garbage spaces riob flag s = None.
Proof.
  intros Has Hw Hd. unfold RawIoBlock. rewrite Has, Hw. cbv zeta. cbn [truthy Z.eqb negb andb].
  rewrite (proj2 (Z.leb_gt _ 0)) by lia. by rewrite Z.quot_small by lia.
Qed.

(** * An example: a card with 16-bit registers that remembers what is done to it *)
Module Registers.
Record card := mk_card {
  register : gmap Z Z;
  accesses : list (Z * Z)
}.

#[global] Instance card_mmio : Mmio card := {
  ioread w a b := (default 0 (register b !! a), mk_card (register b) (accesses b ++ [(w, a)]));
  iowrite w v a b := mk_card (<[a := v]> (register b)) (accesses b ++ [(w, a)]);
}.

Definition spaces : list InsLibAnyAddressSpace := [mk_space 0x1000 0x39 0x100 16 InsLibEndianBIG].
Definition card0 : card := mk_card (list_to_map [(0x1010, 0x1234); (0x1012, 0x5678); (0x1014, 0x9abc)]) [].
Definition user0 : user_memory := list_to_map ((λ i, (500 + Z.of_nat i, 0)) <$> seq 0 6).
Definition state0 : raw_state SimKernel.kernel card := mk_raw SimKernel.boot card0 user0.
Definition request : SkelDrvrRawIoTransferBlock := mk_riobt 0x39 0x10 16 1 6 500.

Example read_three :
  (λ '(rc, s), (rc, user_bytes (r_user s) 500 6)) <$> RawIoBlock true (λ _, 0xee) spaces request false state0 =
  Some (0, [0x12; 0x34; 0x56; 0x78; 0x9a; 0xbc]).
Proof. vm_compute. reflexivity. Qed.

Lemma readable_user0 : readable user0 500 6.
Proof. intros i Hi. assert (i = 0 ∨ i = 1 ∨ i = 2 ∨ i = 3 ∨ i = 4 ∨ i = 5) as [-> |[-> |[-> |[-> |[-> | ->]]]]] by lia; by eexists. Defined.
End Registers.

Lemma raw_block_transfer_witness :
  ∃ s, RawIoBlock true (λ _, 0xee) Registers.spaces Registers.request false Registers.state0 = Some (0, s) ∧
    user_bytes (r_user s) 500 6 = [0x12; 0x34; 0x56; 0x78; 0x9a; 0xbc] ∧
    Registers.accesses (r_board s) = [(16, 0x1010); (16, 0x1012); (16, 0x1014)].
Proof.
  pose proof (raw_block_transfer true (λ _, 0xee) Registers.spaces Registers.request false
    (mk_space 0x1000 0x39 0x100 16 InsLibEndianBIG) 16 3 Registers.state0
    eq_refl (or_intror eq_refl) (or_intror (or_introl eq_refl)) (or_introl eq_refl) eq_refl ltac:(lia) ltac:(done) eq_refl eq_refl
    Registers.readable_user0 (conj eq_refl eq_refl)) as H.
  apply wp_run in H as (rc & s & E & -> & _ & Hb & Hu). exists s. split; [exact E|]. split.
  - rewrite Hu. vm_compute. reflexivity.
  - rewrite Hb. vm_compute. reflexivity.
Defined.
