(* ===== verification/Skel.v ===== *)
(** The clients, connections and requests of the driver skeleton,
    [src/skel/driver/skeldrvr.c] with [skeldrvrP.h] and [src/include/skel.h].

    A client context lives in kernel memory at an address; it is on the list of
    open clients and, by the same address, on lists of clients per module and
    interrupt.  An access to a context that is not there any more is stuck.
    Semaphores are those of [CdcmSemaSpec], named by the address of the field in the context;
    a call that waits is taken up again when its task runs.  What a driver adds
    to the skeleton ([SkelUser...]) is the class [SkelUser]: it acts on its hardware, not on
    the contexts, which it is given for their [UserData].  The constants are those
    of [src/mttn/include/skeluser.h]. *)
From S2P Require Import Prelude KernelIf CdcmSem CdcmSemaSpec SkelRaw.

Local Open Scope Z_scope.

(** * Constants *)

Definition SkelDrvrCLIENT_CONTEXTS : Z := 16.
Definition SkelDrvrMODULE_CONTEXTS : Z := 8.
Definition SkelDrvrINTERRUPTS : nat := 32.
Definition SkelDrvrQUEUE_SIZE : Z := 32.
Definition SkelDrvrCONNECTIONS : nat := 16.
Definition SkelDrvrDEFAULT_CLIENT_TIMEOUT : Z := 2000.
Definition SkelDrvrMAX_MAPS : nat := 10.

Definition SkelDrvrStandardStatusDISABLED : Z := 0x004.
Definition SkelDrvrStandardStatusFLASH_OPEN : Z := 0x040.

Definition EBADF : Z := 9.
Definition EACCES : Z := 13.
Definition ENOTTY : Z := 25.

(** [1 << i] *)
Definition bit (i : nat) : Z := Z.shiftl 1 (Z.of_nat i).

(** * Data *)

Record SkelDrvrConnection := mk_connection { conx_Module : Z; ConMask : Z }.
Record SkelDrvrTime := mk_time { Second : Z; NanoSecond : Z }.
Record SkelDrvrReadBuf := mk_read_buf { rb_Connection : SkelDrvrConnection; rb_Time : SkelDrvrTime }.

Definition zero_read_buf : SkelDrvrReadBuf := mk_read_buf (mk_connection 0 0) (mk_time 0 0).

Record SkelDrvrQueue := mk_queue {
  QueueOff : Z;
  Missed : Z;
  Size : Z;
  RdPntr : Z;
  WrPntr : Z;
  Entries : list SkelDrvrReadBuf
}.

(** Without the fields that are not used, and without the semaphore, which [CdcmSemaSpec]
    holds. *)
Record SkelDrvrClientContext := mk_client {
  Pid : Z;
  cl_Timeout : Z;
  cl_Timer : Z;
  Queue : SkelDrvrQueue;
  Debug : Z;
  cl_ModuleNumber : Z;
  cdcmf : Z
}.

(** [struct client_link], with its own address. *)
Record client_link := mk_link { link_addr : Z; context : Z }.

Record SkelDrvrModConn := mk_modconn {
  clients : list (list client_link);
  enabled_ints : Z
}.

(** [Spaces]: the address spaces of [Modld]. *)
Record SkelDrvrModuleContext := mk_module {
  ModuleNumber : Z;
  InUse : Z;
  Spaces : list InsLibAnyAddressSpace;
  Connected : SkelDrvrModConn;
  StandardStatus : Z;
  FlashOpen : Z
}.

Inductive SkelUserReturn := SkelUserReturnOK | SkelUserReturnFAILED | SkelUserReturnNOT_IMPLEMENTED.

#[global] Instance SkelUserReturn_dec : EqDecision SkelUserReturn.
Proof. solve_decision. Defined.

(** What a driver provides: functions of the module, by its place in the table,
    and of the hardware. *)
Class SkelUser (B : Type) := {
  SkelUserGetModuleVersion : nat → B → list Z * B;
  SkelUserGetHardwareStatus : nat → B → Z * B;
  SkelUserGetUtc : nat → B → SkelDrvrTime * B;
  SkelUserHardwareReset : nat → B → B;
  SkelUserGetInterruptSource : nat → B → (SkelDrvrTime * Z) * B;
  SkelUserEnableInterrupts : nat → Z → B → B;
  SkelUserHardwareEnable : nat → Z → B → SkelUserReturn * B;
  SkelUserJtagReadByte : nat → B → (SkelUserReturn * Z) * B;
  SkelUserJtagWriteByte : nat → Z → B → SkelUserReturn * B;
  SkelUserClientInit : Z → B → SkelUserReturn * B;
  SkelUserClientRelease : Z → B → B;
  SkelUserIoctls : Z → nat → Z → list Z → B → (SkelUserReturn * list Z) * B;
}.

(** A call of a task that waits: a read of a client, with a time-out or without, a lock
    of a module. *)
Inductive waiting_call := InRead (ccon : Z) (timed : bool) | InJtagOpen (mcon : nat).

(** The working area and the memory the driver shares with the kernel.  [in_calls]:
    the tasks in calls that wait, with the result of the wait once it is over. *)
Record skel (K B : Type) := mk_skel {
  Modules : list SkelDrvrModuleContext;
  InstalledModules : Z;
  wa_clients : list client_link;
  heap : gmap Z SkelDrvrClientContext;
  semas_of : world K;
  in_calls : gmap nat (waiting_call * option Z);
  hardware : B;
  user_mem : user_memory
}.
Arguments mk_skel {K B}.
Arguments Modules {K B}.
Arguments InstalledModules {K B}.
Arguments wa_clients {K B}.
Arguments heap {K B}.
Arguments semas_of {K B}.
Arguments in_calls {K B}.
Arguments hardware {K B}.
Arguments user_mem {K B}.

(** * The queue *)

(** [__q_put]: true when the client is to be signalled.  A place outside the array
    is stuck. *)
Definition q_put_entry (rb : SkelDrvrReadBuf) (q : SkelDrvrQueue) : option (SkelDrvrQueue * bool) :=
  if (0 <=? WrPntr q) && (WrPntr q <? Z.of_nat (length (Entries q))) then
    let q := q <| Entries := <[Z.to_nat (WrPntr q) := rb]> (Entries q) |>
               <| WrPntr := (WrPntr q + 1) mod SkelDrvrQUEUE_SIZE |> in
    Some (if Size q <? SkelDrvrQUEUE_SIZE then (q <| Size := Size q + 1 |>, true)
          else (q <| Missed := (Missed q + 1) mod 2 ^ 16 |> <| RdPntr := (RdPntr q + 1) mod SkelDrvrQUEUE_SIZE |>, false))
  else None.

(** [__q_get]: an empty queue gives an entry of zeros. *)
Definition q_get_entry (q : SkelDrvrQueue) : option (SkelDrvrReadBuf * SkelDrvrQueue) :=
  rb ← (if 0 <=? RdPntr q then Entries q !! Z.to_nat (RdPntr q) else None);
  Some (if Size q >? 0 then (rb, q <| RdPntr := (RdPntr q + 1) mod SkelDrvrQUEUE_SIZE |> <| Size := Size q - 1 |>)
        else (zero_read_buf, q)).

(** [__reset_queue], without the semaphore. *)
Definition queue_reset (q : SkelDrvrQueue) : SkelDrvrQueue :=
  q <| Size := 0 |> <| RdPntr := 0 |> <| WrPntr := 0 |> <| Missed := 0 |>.

Definition zero_queue : SkelDrvrQueue := mk_queue 0 0 0 0 0 (replicate (Z.to_nat SkelDrvrQUEUE_SIZE) zero_read_buf).

(** ** Requests

    The command of an [ioctl] with what it brings; CDCM has checked and copied it. *)
Inductive request :=
  | SET_DEBUG (flag : Z)
  | GET_DEBUG
  | GET_VERSION
  | SET_TIMEOUT (lav : Z)
  | GET_TIMEOUT
  | SET_QUEUE_FLAG (lav : Z)
  | GET_QUEUE_FLAG
  | GET_QUEUE_SIZE
  | GET_QUEUE_OVERFLOW
  | SET_MODULE (lav : Z)
  | GET_MODULE
  | GET_MODULE_COUNT
  | GET_MODULE_MAPS
  | CONNECT (conx : SkelDrvrConnection)
  | GET_CLIENT_LIST
  | GET_CLIENT_CONNECTIONS (pid : Z)
  | ENABLE (lav : Z)
  | RESET
  | GET_STATUS
  | GET_CLEAR_STATUS
  | RAW_READ (riob : SkelDrvrRawIoBlock)
  | RAW_WRITE (riob : SkelDrvrRawIoBlock)
  | JTAG_READ_BYTE
  | JTAG_WRITE_BYTE (lav : Z)
  | JTAG_CLOSE
  | RAW_BLOCK_READ (riobt : SkelDrvrRawIoTransferBlock)
  | RAW_BLOCK_WRITE (riobt : SkelDrvrRawIoTransferBlock)
  | USER_IOCTL (cm : Z) (arg : list Z).

(** What is left at [arg]. *)
Inductive reply :=
  | RNone
  | RWord (v : Z)
  | RVersion (drvr : Z) (mver : list Z)
  | RMaps (l : list (Z * Z))
  | RPids (l : list Z)
  | RConnections (pid : Z) (l : list SkelDrvrConnection)
  | RStatus (standard hardware : Z)
  | RRiob (riob : SkelDrvrRawIoBlock)
  | RUser (arg : list Z).

Section skel.
Context {K B : Type} `{Kernel K} `{SkelUser B} `{Mmio B}.

(** The compiler's layout: sizes, and where the semaphores are. *)
Variables sizeof_client_link sizeof_SkelDrvrClientContext offsetof_Semaphore : Z.
Variable module_Semaphore : nat → Z.
Variable msecs_to_jiffies : Z → Z.
Variable CDCM_LITTLE_ENDIAN : bool.
Variable garbage : nat → Z.

Notation S := (skel K B).
Notation SM := (M S).

(** * Access *)

Definition ccon_at (a : Z) : SM SkelDrvrClientContext := h ← gets heap; lift_opt (h !! a).

Definition upd_ccon (a : Z) (f : SkelDrvrClientContext → SkelDrvrClientContext) : SM () :=
  c ← ccon_at a; modify (λ s : S, s <| heap := <[a := f c]> (heap s) |>).

Definition mcon_at (i : nat) : SM SkelDrvrModuleContext := l ← gets Modules; lift_opt (l !! i).

Definition upd_mcon (i : nat) (f : SkelDrvrModuleContext → SkelDrvrModuleContext) : SM () :=
  m ← mcon_at i; modify (λ s : S, s <| Modules := <[i := f m]> (Modules s) |>).

Definition user {A} (f : B → A * B) : SM A :=
  b ← gets hardware; let '(a, b) := f b in modify (λ s : S, s <| hardware := b |>);; mret a.

Definition user_do (f : B → B) : SM () := modify (λ s : S, s <| hardware := f (hardware s) |>).

(** A call on a semaphore.  The [int] that names it is 0. *)
Definition sem_call (c : call) : SM (option Z) :=
  zoom semas_of (λ w (s : S), s <| semas_of := w |>) (run_call msecs_to_jiffies (λ _, 0) c).

Definition client_Semaphore (a : Z) : Z := a + offsetof_Semaphore.

Definition with_kernel {A} (f : K → A * K) : SM A :=
  w ← gets semas_of;
  let '(a, k) := f (kern (tab w)) in
  modify (λ s : S, s <| semas_of := mk_world (mk_semas k (sem_list (tab w))) (asleep w) |>);; mret a.

Definition skel_sysbrk (size : Z) : SM Z := with_kernel (sysbrk size).

Definition skel_sysfree (p : Z) : SM () :=
  w ← gets semas_of;
  k ← lift_opt (sysfree p (kern (tab w)));
  modify (λ s : S, s <| semas_of := mk_world (mk_semas k (sem_list (tab w))) (asleep w) |>).

(** * Queues *)

Definition q_put (rb : SkelDrvrReadBuf) (a : Z) : SM () :=
  c ← ccon_at a;
  p ← lift_opt (q_put_entry rb (Queue c));
  let '(q, free) := p in
  upd_ccon a (λ c : SkelDrvrClientContext, c <| Queue := q |>);;
  if free : bool then sem_call (CSsignal (client_Semaphore a));; mret () else mret ().

Definition put_queues (rb : SkelDrvrReadBuf) (client_list : list client_link) : SM () :=
  mfold (λ _ entry, q_put rb (context entry)) () client_list.

(** [__fill_clients_queues]: one interrupt, all of them. *)
Definition fill_interrupt (mcon : nat) (rb : SkelDrvrReadBuf) (imask : Z) (i : nat) : SM () :=
  m ← mcon_at mcon;
  client_list ← lift_opt (clients (Connected m) !! i);
  let interrupt := Z.land imask (bit i) in
  if negb (truthy interrupt) then mret ()
  else put_queues (rb <| rb_Connection := mk_connection (conx_Module (rb_Connection rb)) interrupt |>) client_list.

Definition fill_clients_queues (mcon : nat) (rb : SkelDrvrReadBuf) (imask : Z) : SM () :=
  mfold (λ _ i, fill_interrupt mcon rb imask i) () (seq 0 SkelDrvrINTERRUPTS).

Definition IntrHandler (mcon : nat) : SM Z :=
  m ← mcon_at mcon;
  '(t, interrupt) ← user (SkelUserGetInterruptSource mcon);
  if interrupt =? 0 then mret OK
  else fill_clients_queues mcon (mk_read_buf (mk_connection (ModuleNumber m) 0) t) interrupt;; mret OK.

(** * Connections *)

(** [get_mcon]: the place of the module, if it is installed. *)
Definition find_mcon (s : S) (modnr : Z) : option nat :=
  find_idx (λ m, ModuleNumber m =? u32 modnr) (take (Z.to_nat (InstalledModules s)) (Modules s)).

Definition get_mcon (modnr : Z) : SM (option nat) := gets (λ s, find_mcon s modnr).

(** [__get_client] *)
Definition get_client (a : Z) (client_list : list client_link) : option nat :=
  find_idx (λ l, context l =? a) client_list.

Definition upd_conn (mcon : nat) (f : SkelDrvrModConn → SkelDrvrModConn) : SM () :=
  upd_mcon mcon (λ m : SkelDrvrModuleContext, m <| Connected := f (Connected m) |>).

Definition enable_interrupts (mcon : nat) : SM () :=
  m ← mcon_at mcon; user_do (SkelUserEnableInterrupts mcon (enabled_ints (Connected m))).

(** The body of the loop of [Connect]: writing to, or freeing, an error code is
    stuck. *)
Definition connect_interrupt (a : Z) (mcon : nat) (imsk : Z) (j : nat) : SM () :=
  if negb (truthy (Z.land imsk (bit j))) then mret ()
  else
    alloc_link ← skel_sysbrk sizeof_client_link;
    m ← mcon_at mcon;
    client_list ← lift_opt (clients (Connected m) !! j);
    added ← match get_client a client_list with
            | Some _ => (if alloc_link =? 0 then mret () else skel_sysfree alloc_link);; mret true
            | None =>
              if alloc_link =? 0 then mret false
              else if IS_ERR alloc_link then stuck
              else
                upd_conn mcon (λ c : SkelDrvrModConn, c <| clients := <[j := mk_link alloc_link a :: client_list]> (clients c) |>);;
                mret true
            end;
    if added : bool then
      upd_conn mcon (λ c : SkelDrvrModConn, c <| enabled_ints := Z.lor (enabled_ints c) imsk |>);; enable_interrupts mcon
    else mret ().

(** The module of a connection: the client's own one for 0. *)
Definition conx_mcon (c : SkelDrvrClientContext) (conx : SkelDrvrConnection) : SM (option nat) :=
  get_mcon (if conx_Module conx =? 0 then cl_ModuleNumber c else conx_Module conx).

Definition Connect (a : Z) (conx : SkelDrvrConnection) : SM () :=
  c ← ccon_at a;
  r ← conx_mcon c conx;
  match r with
  | None => mret ()
  | Some mcon => mfold (λ _ j, connect_interrupt a mcon (ConMask conx) j) () (seq 0 SkelDrvrINTERRUPTS)
  end.

(** The body of the loop of [DisConnect]. *)
Definition disconnect_interrupt (a : Z) (mcon : nat) (imsk : Z) (j : nat) : SM () :=
  m ← mcon_at mcon;
  client_list ← lift_opt (clients (Connected m) !! j);
  if negb (truthy (Z.land imsk (bit j))) then mret ()
  else
    match get_client a client_list with
    | None => mret ()
    | Some i =>
      link ← lift_opt (client_list !! i);
      let rest := take i client_list ++ drop (Datatypes.S i) client_list in
      upd_conn mcon (λ c : SkelDrvrModConn, c <| clients := <[j := rest]> (clients c) |>);;
      skel_sysfree (link_addr link);;
      match rest with
      | [] => upd_conn mcon (λ c : SkelDrvrModConn, c <| enabled_ints := Z.ldiff (enabled_ints c) imsk |>);; enable_interrupts mcon
      | _ => mret ()
      end
    end.

(** An empty mask stands for all interrupts: the result is the mask that the caller's
    [conx] is left with. *)
Definition DisConnect (a : Z) (conx : SkelDrvrConnection) : SM Z :=
  c ← ccon_at a;
  r ← conx_mcon c conx;
  match r with
  | None => mret (ConMask conx)
  | Some mcon =>
    let imsk := if ConMask conx =? 0 then u32 (Z.lnot (ConMask conx)) else ConMask conx in
    mfold (λ _ j, disconnect_interrupt a mcon imsk j) () (seq 0 SkelDrvrINTERRUPTS);; mret imsk
  end.

Definition DisConnectAll (a : Z) : SM () :=
  n ← gets InstalledModules;
  mfold (λ mask i, m ← mcon_at i; DisConnect a (mk_connection (ModuleNumber m) mask)) 0 (seq 0 (Z.to_nat n));;
  mret ().

(** * Open and close *)

(** [skel_get_ccon]: the context of an open file. *)
Fixpoint find_ccon (flp : Z) (l : list client_link) : SM (option Z) :=
  match l with
  | [] => mret None
  | entry :: l => c ← ccon_at (context entry); if cdcmf c =? flp then mret (Some (context entry)) else find_ccon flp l
  end.

Definition skel_get_ccon (flp : Z) : SM (option Z) := l ← gets wa_clients; find_ccon flp l.

(** [__reset_queue] *)
Definition reset_queue (a : Z) : SM () :=
  upd_ccon a (λ c : SkelDrvrClientContext, c <| Queue := queue_reset (Queue c) |>);;
  sem_call (CSreset (client_Semaphore a));; mret ().

(** The result is 0 or -1. *)
Definition client_init (a flp pid : Z) : SM Z :=
  (if IS_ERR a then stuck else mret ());;
  n ← gets InstalledModules;
  modnr ← (if truthy n then m ← mcon_at 0; mret (ModuleNumber m) else mret 0);
  modify (λ s : S, s <| heap := <[a := mk_client pid SkelDrvrDEFAULT_CLIENT_TIMEOUT 0 zero_queue 0 modnr flp]> (heap s) |>);;
  reset_queue a;;
  r ← user (SkelUserClientInit a);
  mret (if bool_decide (r = SkelUserReturnFAILED) then -1 else 0).

Definition free_ccon (a : Z) : SM () :=
  ccon_at a;; modify (λ s : S, s <| heap := delete a (heap s) |>);; skel_sysfree a.

Definition skel_add_ccon (a : Z) : SM (option client_link) :=
  p ← skel_sysbrk sizeof_client_link;
  if p =? 0 then mret None
  else if IS_ERR p then stuck
  else
    let entry := mk_link p a in
    modify (λ s : S, s <| wa_clients := entry :: wa_clients s |>);; mret (Some entry).

Definition SkelDrvrOpen (flp pid : Z) : SM Z :=
  a ← skel_sysbrk sizeof_SkelDrvrClientContext;
  if a =? 0 then mret (- ENOMEM)
  else
    r ← client_init a flp pid;
    if truthy r then free_ccon a;; mret (- EBADF)
    else
      e ← skel_add_ccon a;
      match e with
      | None => free_ccon a;; mret (- ENOMEM)
      | Some _ => mret OK
      end.

(** [__skel_remove_ccon] *)
Definition skel_remove_ccon (a : Z) : SM () :=
  l ← gets wa_clients;
  match get_client a l with
  | None => mret ()
  | Some i =>
    entry ← lift_opt (l !! i);
    modify (λ s : S, s <| wa_clients := take i l ++ drop (Datatypes.S i) l |>);; skel_sysfree (link_addr entry)
  end.

Definition do_close (a : Z) : SM () :=
  DisConnectAll a;; user_do (SkelUserClientRelease a);; skel_remove_ccon a;; free_ccon a.

Definition SkelDrvrClose (flp : Z) : SM Z :=
  r ← skel_get_ccon flp;
  match r with
  | None => mret (- EBADF)
  | Some a => do_close a;; mret OK
  end.

(** * Read and write *)

(** [client_timeout]: the places in the queue stay. *)
Definition client_timeout (a : Z) : SM () :=
  upd_ccon a (λ c : SkelDrvrClientContext, c <| cl_Timer := 0 |> <| Queue := (Queue c) <| Size := 0 |> <| Missed := 0 |> |>).

(** Up to the wait; the result of a call that ends here. *)
Definition SkelDrvrRead (t : nat) (flp : Z) (pending : bool) : SM (option Z) :=
  r ← skel_get_ccon flp;
  match r with
  | None => mret (Some (- EBADF))
  | Some a =>
    c ← ccon_at a;
    (if truthy (QueueOff (Queue c)) then reset_queue a else mret ());;
    let timed := truthy (cl_Timeout c) in
    cc ← sem_call (if timed then CTswait t (client_Semaphore a) SEM_SIGABORT (s32 (cl_Timeout c)) pending
                   else CSwait t (client_Semaphore a) SEM_SIGABORT pending);
    modify (λ s : S, s <| in_calls := <[t := (InRead a timed, cc)]> (in_calls s) |>);; mret None
  end.

(** From the wait on, with its result; an entry without a mask is no result. *)
Definition SkelDrvrRead_end (a : Z) (timed : bool) (cc : Z) : SM (Z * option SkelDrvrReadBuf) :=
  if truthy cc then (if timed then client_timeout a else mret ());; mret (- EINTR, None)
  else
    c ← ccon_at a;
    p ← lift_opt (q_get_entry (Queue c));
    let '(rb, q) := p in
    upd_ccon a (λ c : SkelDrvrClientContext, c <| Queue := q |>);;
    mret (if ConMask (rb_Connection rb) =? 0 then 0 else 16, Some rb).

Definition SkelDrvrWrite (conx : SkelDrvrConnection) : SM Z :=
  r ← get_mcon (conx_Module conx);
  match r with
  | None => mret (- EFAULT)
  | Some mcon =>
    t ← user (SkelUserGetUtc mcon);
    fill_clients_queues mcon (mk_read_buf conx t) (ConMask conx);; mret 8
  end.

Definition SREAD : Z := 0.

(** The semaphore that is to be watched. *)
Definition SkelDrvrSelect (flp wch : Z) : SM (Z * option Z) :=
  r ← skel_get_ccon flp;
  match r with
  | None => mret (- EBADF, None)
  | Some a => mret (if wch =? SREAD then (OK, Some (client_Semaphore a)) else (- EACCES, None))
  end.

(** * Requests *)

Variable COMPILE_TIME : Z.

(** [Reset]: the semaphore of the module is made free. *)
Definition Reset (mcon : nat) : SM () :=
  user_do (SkelUserHardwareReset mcon);;
  enable_interrupts mcon;;
  sem_call (CSreset (module_Semaphore mcon));;
  sem_call (CSsignal (module_Semaphore mcon));; mret ().

Definition UnLockModule (mcon : nat) : SM () := sem_call (CSsignal (module_Semaphore mcon));; mret ().

Definition set_status (mcon : nat) (f : Z → Z) : SM () :=
  upd_mcon mcon (λ m : SkelDrvrModuleContext, m <| StandardStatus := f (StandardStatus m) |>).

(** [JTAG_OPEN]: lock the module, without a limit. *)
Definition JtagOpen (t : nat) (flp : Z) (pending : bool) : SM (option Z) :=
  r ← skel_get_ccon flp;
  match r with
  | None => mret (Some (- EBADF))
  | Some a =>
    c ← ccon_at a;
    m ← get_mcon (cl_ModuleNumber c);
    mcon ← lift_opt m;
    cc ← sem_call (CTswait t (module_Semaphore mcon) SEM_SIGABORT (-1) pending);
    modify (λ s : S, s <| in_calls := <[t := (InJtagOpen mcon, cc)]> (in_calls s) |>);; mret None
  end.

Definition JtagOpen_end (mcon : nat) (cc : Z) : SM Z :=
  if truthy cc then mret (- ENOTTY)
  else set_status mcon (λ st, Z.lor st SkelDrvrStandardStatusFLASH_OPEN);; mret OK.

(** [get_module_maps_ioctl] *)
Definition get_module_maps (m : SkelDrvrModuleContext) : list (Z * Z) :=
  (λ asp, (Mapped asp, SpaceNumber asp)) <$> take SkelDrvrMAX_MAPS (Spaces m).

Definition skel_get_client_list : SM (list Z) :=
  l ← gets wa_clients;
  mfold (λ pids link,
    if (Z.of_nat (length pids) >=? SkelDrvrCLIENT_CONTEXTS) then mret pids
    else c ← ccon_at (context link); mret (pids ++ [Pid c])) [] l.

(** [skel_fill_client_connections], for one entry of the list of an interrupt, and the
    loops around it; true when there is no room left. *)
Definition fill_connection (pid modnr : Z) (i : nat) (acc : list SkelDrvrConnection * bool) (entry : client_link) :
    SM (list SkelDrvrConnection * bool) :=
  if acc.2 then mret acc
  else
    c ← ccon_at (context entry);
    if negb (Pid c =? pid) then mret acc
    else
      let l := acc.1 ++ [mk_connection modnr (bit i)] in
      mret (l, (SkelDrvrCONNECTIONS <=? length l)%nat).

Definition fill_client_connections (pid : Z) (acc : list SkelDrvrConnection * bool) (mcon : nat) : SM (list SkelDrvrConnection * bool) :=
  m ← mcon_at mcon;
  if acc.2 || (InUse m =? 0) then mret acc
  else
    mfold (λ acc i,
      client_list ← lift_opt (clients (Connected m) !! i);
      mfold (fill_connection pid (ModuleNumber m) i) acc client_list) acc (seq 0 SkelDrvrINTERRUPTS).

Definition skel_get_client_connections (a : Z) (pid : Z) : SM (Z * list SkelDrvrConnection) :=
  c ← ccon_at a;
  let pid := if pid =? 0 then Pid c else pid in
  acc ← mfold (fill_client_connections pid) ([], false) (seq 0 (Z.to_nat SkelDrvrMODULE_CONTEXTS));
  mret (pid, acc.1).

Definition raw {A} (m : M (raw_state K B) A) : SM A :=
  zoom (λ s, mk_raw (kern (tab (semas_of s))) (hardware s) (user_mem s))
       (λ r (s : S), s <| semas_of := mk_world (mk_semas (r_kern r) (sem_list (tab (semas_of s)))) (asleep (semas_of s)) |>
                       <| hardware := r_board r |> <| user_mem := r_user r |>) m.

(** A request of the client at [a] on its module [r]; a NULL [mcon] is followed only by
    requests that use it. *)
Definition dispatch (a : Z) (r : option nat) (cm : request) : SM (Z * reply) :=
  c ← ccon_at a;
  let upd := upd_ccon a in
  let on_queue (f : SkelDrvrQueue → SkelDrvrQueue) := upd (λ c : SkelDrvrClientContext, c <| Queue := f (Queue c) |>) in
  match cm with
  | SET_DEBUG flag => upd (λ c : SkelDrvrClientContext, c <| Debug := flag |>);; mret (OK, RNone)
  | GET_DEBUG => mret (OK, RWord (Debug c))
  | GET_VERSION => i ← lift_opt r; mver ← user (SkelUserGetModuleVersion i); mret (OK, RVersion COMPILE_TIME mver)
  | SET_TIMEOUT lav => upd (λ c : SkelDrvrClientContext, c <| cl_Timeout := u32 lav |>);; mret (OK, RNone)
  | GET_TIMEOUT => mret (OK, RWord (s32 (cl_Timeout c)))
  | SET_QUEUE_FLAG lav => on_queue (λ q : SkelDrvrQueue, q <| QueueOff := if truthy lav then 1 else 0 |>);; mret (OK, RNone)
  | GET_QUEUE_FLAG => mret (OK, RWord (QueueOff (Queue c)))
  | GET_QUEUE_SIZE => mret (OK, RWord (Size (Queue c)))
  | GET_QUEUE_OVERFLOW => on_queue (λ q : SkelDrvrQueue, q <| Missed := 0 |>);; mret (OK, RWord (Missed (Queue c)))
  | SET_MODULE lav =>
    m ← get_mcon lav;
    match m with
    | None => mret (- ENODEV, RNone)
    | Some _ => upd (λ c : SkelDrvrClientContext, c <| cl_ModuleNumber := u32 lav |>);; mret (OK, RNone)
    end
  | GET_MODULE => mret (OK, RWord (s32 (cl_ModuleNumber c)))
  | GET_MODULE_COUNT => n ← gets InstalledModules; mret (OK, RWord n)
  | GET_MODULE_MAPS => i ← lift_opt r; m ← mcon_at i; mret (OK, RMaps (get_module_maps m))
  | CONNECT conx =>
    (if truthy (ConMask conx) then Connect a conx
     else if conx_Module conx =? 0 then DisConnectAll a
     else DisConnect a conx;; mret ());;
    mret (OK, RNone)
  | GET_CLIENT_LIST => l ← skel_get_client_list; mret (OK, RPids l)
  | GET_CLIENT_CONNECTIONS pid => '(pid, l) ← skel_get_client_connections a pid; mret (OK, RConnections pid l)
  | ENABLE lav =>
    i ← lift_opt r; uret ← user (SkelUserHardwareEnable i (u32 lav));
    set_status i (λ st, if bool_decide (uret = SkelUserReturnOK) then Z.ldiff st SkelDrvrStandardStatusDISABLED
                        else Z.lor st SkelDrvrStandardStatusDISABLED);;
    mret (OK, RNone)
  | RESET => i ← lift_opt r; Reset i;; mret (OK, RNone)
  | GET_STATUS => i ← lift_opt r; h ← user (SkelUserGetHardwareStatus i); m ← mcon_at i; mret (OK, RStatus (StandardStatus m) h)
  | JTAG_CLOSE =>
    i ← lift_opt r;
    set_status i (λ st, Z.ldiff st SkelDrvrStandardStatusFLASH_OPEN);;
    upd_mcon i (λ m : SkelDrvrModuleContext, m <| FlashOpen := 0 |>);;
    Reset i;; UnLockModule i;; mret (OK, RNone)
  | JTAG_READ_BYTE =>
    i ← lift_opt r; m ← mcon_at i;
    if truthy (Z.land (StandardStatus m) SkelDrvrStandardStatusFLASH_OPEN) then
      '(uret, b) ← user (SkelUserJtagReadByte i);
      mret (if bool_decide (uret = SkelUserReturnOK) then (OK, RWord b) else (- EBUSY, RNone))
    else mret (- EBUSY, RNone)
  | JTAG_WRITE_BYTE lav =>
    i ← lift_opt r; m ← mcon_at i;
    if truthy (Z.land (StandardStatus m) SkelDrvrStandardStatusFLASH_OPEN) then
      uret ← user (SkelUserJtagWriteByte i (Z.land lav 0xFF));
      mret (if bool_decide (uret = SkelUserReturnOK) then OK else - EBUSY, RNone)
    else mret (- EBUSY, RNone)
  | RAW_READ riob =>
    i ← lift_opt r; m ← mcon_at i; '(rc, riob) ← raw (RawIo CDCM_LITTLE_ENDIAN (Spaces m) riob false); mret (rc, RRiob riob)
  | RAW_WRITE riob =>
    i ← lift_opt r; m ← mcon_at i; '(rc, riob) ← raw (RawIo CDCM_LITTLE_ENDIAN (Spaces m) riob true); mret (rc, RRiob riob)
  | RAW_BLOCK_READ riobt =>
    i ← lift_opt r; m ← mcon_at i; rc ← raw (RawIoBlock CDCM_LITTLE_ENDIAN garbage (Spaces m) riobt false); mret (rc, RNone)
  | RAW_BLOCK_WRITE riobt =>
    i ← lift_opt r; m ← mcon_at i; rc ← raw (RawIoBlock CDCM_LITTLE_ENDIAN garbage (Spaces m) riobt true); mret (rc, RNone)
  | USER_IOCTL cmd arg =>
    match r with
    | None => mret (- EINVAL, RNone)
    | Some i => '(uret, arg) ← user (SkelUserIoctls a i cmd arg); mret (if bool_decide (uret = SkelUserReturnOK) then OK else SYSERR, RUser arg)
    end
  | GET_CLEAR_STATUS => mret (- ENOTTY, RNone)
  end.

Definition SkelDrvrIoctl (flp : Z) (cm : request) : SM (Z * reply) :=
  r ← skel_get_ccon flp;
  match r with
  | None => mret (- EBADF, RNone)
  | Some a => c ← ccon_at a; m ← get_mcon (cl_ModuleNumber c); dispatch a m cm
  end.

(** * The driver as a system

    A task takes up its call when the semaphore lets it ([Woken]), and goes on
    with the rest of it later ([Finish]). *)
Inductive event :=
  | Open (flp pid : Z)
  | Close (flp : Z)
  | Read (t : nat) (flp : Z) (pending : bool)
  | Write (conx : SkelDrvrConnection)
  | Select (flp wch : Z)
  | Ioctl (flp : Z) (cm : request)
  | Jtag (t : nat) (flp : Z) (pending : bool)
  | Woken (t : nat) (rest : Z) (pending : bool)
  | Finish (t : nat)
  | Interrupt (mcon : nat).

Definition run_event (ev : event) : SM () :=
  match ev with
  | Open flp pid => SkelDrvrOpen flp pid;; mret ()
  | Close flp => SkelDrvrClose flp;; mret ()
  | Read t flp pending => SkelDrvrRead t flp pending;; mret ()
  | Write conx => SkelDrvrWrite conx;; mret ()
  | Select flp wch => SkelDrvrSelect flp wch;; mret ()
  | Ioctl flp cm => SkelDrvrIoctl flp cm;; mret ()
  | Jtag t flp pending => JtagOpen t flp pending;; mret ()
  | Woken t rest pending =>
    cs ← gets in_calls; w ← lift_opt (cs !! t);
    cc ← sem_call (CResume t rest pending);
    modify (λ s : S, s <| in_calls := <[t := (w.1, cc)]> (in_calls s) |>)
  | Finish t =>
    cs ← gets in_calls; w ← lift_opt (cs !! t); cc ← lift_opt w.2;
    (match w.1 with InRead a timed => SkelDrvrRead_end a timed cc;; mret () | InJtagOpen i => JtagOpen_end i cc;; mret () end);;
    modify (λ s : S, s <| in_calls := delete t (in_calls s) |>)
  | Interrupt i => IntrHandler i;; mret ()
  end.
End skel.
