(* ===== verification/SkelProofs.v ===== *)
(** The driver skeleton keeps its lists, its memory and its semaphores in order: one invariant
    of the working area, and that every operation keeps it. *)
From stdpp Require Import fin_maps fin_sets.
From S2P Require Import Prelude KernelIf CdcmSem CdcmSemaSpec SkelRaw Skel.

Local Open Scope Z_scope.

(** * Blocks of memory *)

(** The block behind a pointer of [sysbrk]. *)
Definition blk (p : Z) : resource := Block (p - sizeof_cdcm_mem_header).

(** A sum of multisets over a list. *)
Definition msum {A} (f : A → gmultiset resource) (l : list A) : gmultiset resource := foldr (λ x m, f x ⊎ m) ∅ l.

Lemma msum_cons {A} (f : A → gmultiset resource) x l : msum f (x :: l) = f x ⊎ msum f l.
Proof. done. Qed.

Lemma msum_insert {A} (f : A → gmultiset resource) l i x y :
  l !! i = Some x → msum f (<[i := y]> l) ⊎ f x = msum f l ⊎ f y.
Proof.
  revert i. induction l as [|z l IH]; intros [|i] Hi; [done|done| |].
  - injection Hi as ->. change (<[0%nat := y]> (x :: l)) with (y :: l). rewrite !msum_cons. multiset_solver.
  - specialize (IH i Hi). change (<[S i := y]> (z :: l)) with (z :: <[i := y]> l). rewrite !msum_cons. multiset_solver.
Qed.

Lemma msum_app {A} (f : A → gmultiset resource) l k : msum f (l ++ k) = msum f l ⊎ msum f k.
Proof.
  induction l as [|x l IH]; [change (msum f [] ) with (∅ : gmultiset resource); by rewrite (left_id_L ∅ (⊎))|].
  rewrite <- app_comm_cons, !msum_cons, IH. multiset_solver.
Qed.

Lemma msum_perm {A} (f : A → gmultiset resource) l k : l ≡ₚ k → msum f l = msum f k.
Proof. induction 1; rewrite ?msum_cons; try congruence. multiset_solver. Qed.

Definition link_block (e : client_link) : gmultiset resource := {[+ blk (link_addr e) +]}.
Definition list_blocks (l : list client_link) : gmultiset resource := msum link_block l.
Definition module_blocks (m : SkelDrvrModuleContext) : gmultiset resource := msum list_blocks (clients (Connected m)).
Definition heap_blocks (h : gmap Z SkelDrvrClientContext) : gmultiset resource := msum (λ a, {[+ blk a +]}) (elements (dom h)).

(** Everything the driver holds. *)
Definition owned {K B} (s : skel K B) : gmultiset resource :=
  heap_blocks (heap s) ⊎ (list_blocks (wa_clients s) ⊎ msum module_blocks (Modules s)).

Lemma heap_blocks_insert h a c : h !! a = None → heap_blocks (<[a := c]> h) = {[+ blk a +]} ⊎ heap_blocks h.
Proof.
  intros Ha. unfold heap_blocks. rewrite dom_insert_L.
  rewrite (msum_perm _ _ (a :: elements (dom h))); [done|]. apply elements_union_singleton. by apply not_elem_of_dom.
Qed.

Lemma heap_blocks_update h a c c' : h !! a = Some c → heap_blocks (<[a := c']> h) = heap_blocks h.
Proof. intros Ha. unfold heap_blocks. by rewrite dom_insert_lookup_L by by eexists. Qed.

Lemma heap_blocks_delete h a c : h !! a = Some c → heap_blocks h = {[+ blk a +]} ⊎ heap_blocks (delete a h).
Proof. intros Ha. rewrite <- heap_blocks_insert with (c := c) by apply lookup_delete_eq. by rewrite insert_delete_id. Qed.

(** * Queues *)

(** The places are in the array. *)
Definition queue_ok (q : SkelDrvrQueue) : Prop :=
  length (Entries q) = 32%nat ∧ 0 <= RdPntr q < 32 ∧ 0 <= WrPntr q < 32.

(** The entries, oldest first. *)
Definition queue_holds (q : SkelDrvrQueue) (l : list SkelDrvrReadBuf) : Prop :=
  length (Entries q) = 32%nat ∧ ring_at (Entries q) (RdPntr q) l ∧ Size q = Z.of_nat (length l) ∧
  WrPntr q = (RdPntr q + Size q) mod 32.

Lemma queue_holds_ok q l : queue_holds q l → queue_ok q.
Proof.
  intros (Hlen & [Hrd _ _] & _ & Hwr). rewrite Hlen in Hrd. split; [done|]. split; [done|]. rewrite Hwr. apply Z.mod_pos_bound. lia.
Qed.

Lemma zero_queue_holds : queue_holds zero_queue [].
Proof. split; [done|]. split; [by apply ring_empty|done]. Qed.

Lemma queue_reset_holds q : queue_ok q → queue_holds (queue_reset q) [].
Proof. intros (Hlen & _). destruct q. split; [done|]. split; [|done]. apply ring_empty. cbn in *. rewrite Hlen. done. Qed.

Lemma q_put_ok rb q : queue_ok q → ∃ q' free, q_put_entry rb q = Some (q', free) ∧ queue_ok q'.
Proof.
  intros (Hlen & Hrd & Hwr). unfold q_put_entry, SkelDrvrQUEUE_SIZE. rewrite Hlen.
  rewrite (proj2 (Z.leb_le 0 _)), (proj2 (Z.ltb_lt (WrPntr q) _)) by lia. cbn [andb].
  destruct q as [off miss sz rd wr es]. cbn in *.
  pose proof (Z.mod_pos_bound (wr + 1) 32 ltac:(lia)). pose proof (Z.mod_pos_bound (rd + 1) 32 ltac:(lia)).
  destruct (sz <? 32); do 2 eexists; (split; [done|]); (split; cbn; [by rewrite length_insert|done]).
Qed.

(** A put keeps the newest 32 entries; the client is signalled unless one was dropped. *)
Lemma q_put_holds rb q l : queue_holds q l →
  ∃ q', q_put_entry rb q = Some (q', bool_decide (length l < 32)%nat) ∧ queue_holds q' (newest 32 rb l).
Proof.
  intros Hq. pose proof (queue_holds_ok _ _ Hq) as (_ & _ & Hwr0). destruct Hq as (Hlen & Hring & Hsz & Hwr).
  pose proof (ring_put _ _ _ rb Hring) as Hput. pose proof (ra_fits _ _ _ Hring) as Hfit.
  unfold q_put_entry, SkelDrvrQUEUE_SIZE. rewrite Hlen in Hput, Hfit |- *. cbv zeta in Hput.
  change (Z.of_nat 32) with 32 in *. rewrite <- Hsz, <- Hwr in Hput.
  rewrite (proj2 (Z.leb_le 0 _)), (proj2 (Z.ltb_lt (WrPntr q) _)) by lia. cbn [andb].
  destruct q as [off miss sz rd wr es]. cbn in *. destruct (decide (length l < 32)%nat) as [Hlt|Hge].
  - rewrite (proj2 (Z.ltb_lt sz 32)), bool_decide_eq_true_2 by lia. eexists. split; [done|].
    split; cbn; [by rewrite length_insert|]. split; [done|].
    unfold newest. rewrite decide_True, length_app by lia. split; [simpl; lia|]. rewrite Hwr, Zplus_mod_idemp_l. f_equal. lia.
  - rewrite (proj2 (Z.ltb_ge sz 32)), bool_decide_eq_false_2 by lia. eexists. split; [done|].
    split; cbn; [by rewrite length_insert|]. split; [done|].
    unfold newest. rewrite decide_False, length_app by lia. split; [destruct l; simpl in *; lia|].
    rewrite Hwr, !Zplus_mod_idemp_l. f_equal. lia.
Qed.

Lemma q_get_ok q : queue_ok q → ∃ rb q', q_get_entry q = Some (rb, q') ∧ queue_ok q'.
Proof.
  intros (Hlen & Hrd & Hwr). unfold q_get_entry, SkelDrvrQUEUE_SIZE. rewrite (proj2 (Z.leb_le 0 _)) by lia.
  destruct (lookup_lt_is_Some_2 (Entries q) (Z.to_nat (RdPntr q)) ltac:(lia)) as [rb Hrb]. rewrite Hrb. cbn.
  destruct (Size q >? 0); do 2 eexists; (split; [done|]); [|done].
  destruct q. cbn in *. split; [done|]. cbn. split; [apply Z.mod_pos_bound; lia|done].
Qed.

Lemma q_get_holds q rb l : queue_holds q (rb :: l) → ∃ q', q_get_entry q = Some (rb, q') ∧ queue_holds q' l.
Proof.
  intros Hq. pose proof (queue_holds_ok _ _ Hq) as (_ & Hrd & _). destruct Hq as (Hlen & Hring & Hsz & Hwr).
  destruct (ring_take _ _ _ _ Hring) as [Hx Hrest]. unfold q_get_entry, SkelDrvrQUEUE_SIZE. rewrite (proj2 (Z.leb_le 0 _)), Hx by lia. cbn.
  rewrite Z.gtb_ltb, (proj2 (Z.ltb_lt 0 _)) by (rewrite Hsz; simpl; lia). eexists. split; [done|].
  rewrite Hlen in Hrest. destruct q as [off miss sz rd wr es]. cbn in *. split; cbn; [done|]. split; [done|]. split; [lia|].
  rewrite Hwr, Zplus_mod_idemp_l. f_equal. lia.
Qed.

Lemma find_idx_fmap {A C} (f : A → C) (g : C → bool) l : find_idx (λ x, g (f x)) l = find_idx g (f <$> l).
Proof. induction l as [|x l IH]; [done|]. cbn. by rewrite IH. Qed.

(** A pointer that [sysfree] gives back. *)
Definition good_ptr (p : Z) : Prop := p ≠ 0 ∧ IS_ERR p = false.

Section inv.
Context {K B : Type} `{KernelLaws K} `{SkelUser B} `{Mmio B}.
Implicit Types (s : skel K B) (base : gmultiset resource) (X : gset Z).

(** The list of clients of an interrupt of a module. *)
Definition lists s (i j : nat) : option (list client_link) := m ← Modules s !! i; clients (Connected m) !! j.

(** [X]: contexts that are not on the list of clients, not yet or no longer.  [base]: what
    others hold of the kernel's memory. *)
Record inv base X s : Prop := {
  iv_modules : length (Modules s) = Z.to_nat SkelDrvrMODULE_CONTEXTS;
  iv_installed : 0 < InstalledModules s <= SkelDrvrMODULE_CONTEXTS;
  iv_module : ∀ i m, Modules s !! i = Some m →
    is_u32 (ModuleNumber m) ∧ (Z.of_nat i < InstalledModules s → ModuleNumber m ≠ 0) ∧
    length (clients (Connected m)) = SkelDrvrINTERRUPTS ∧ Forall (λ a, 8 <= s32 (DataWidth a) <= 64) (Spaces m);
  iv_first : ∀ i m j l, Modules s !! i = Some m → lists s i j = Some l → l ≠ [] → find_mcon s (ModuleNumber m) = Some i;
  iv_lists : ∀ i j l, lists s i j = Some l → NoDup (context <$> l) ∧ ∀ e, e ∈ l → context e ∈ dom (heap s) ∧ good_ptr (link_addr e);
  iv_clients : NoDup (context <$> wa_clients s) ∧ dom (heap s) = list_to_set (context <$> wa_clients s) ∪ X ∧
    (∀ a, a ∈ X → a ∉ context <$> wa_clients s) ∧ ∀ e, e ∈ wa_clients s → good_ptr (link_addr e);
  iv_heap : ∀ a c, heap s !! a = Some c → good_ptr a ∧ queue_ok (Queue c) ∧ is_Some (find_mcon s (cl_ModuleNumber c));
  iv_world : world_ok (owned s ⊎ base) (semas_of s);
  iv_calls : ∀ t w r, in_calls s !! t = Some (w, r) →
    match w with InRead a _ => a ∈ dom (heap s) | InJtagOpen i => (i < length (Modules s))%nat end;
  iv_asleep : ∀ t, is_Some (asleep (semas_of s) !! t) → ∃ w, in_calls s !! t = Some (w, None)
}.

(** What most operations leave as it was. *)
Record static s s' : Prop := {
  sta_installed : InstalledModules s' = InstalledModules s;
  sta_numbers : ModuleNumber <$> Modules s' = ModuleNumber <$> Modules s;
  sta_spaces : Spaces <$> Modules s' = Spaces <$> Modules s;
  sta_heap : dom (heap s') = dom (heap s);
  sta_clients : wa_clients s' = wa_clients s;
  sta_calls : in_calls s' = in_calls s;
  sta_asleep : asleep (semas_of s') = asleep (semas_of s)
}.

#[global] Instance static_pre : PreOrder static.
Proof. split; [by split|]. intros s1 s2 s3 [] []. split; congruence. Qed.

Lemma find_mcon_static s s' n : static s s' → find_mcon s' n = find_mcon s n.
Proof.
  intros Hs. unfold find_mcon. rewrite !(find_idx_fmap ModuleNumber (λ x, x =? u32 n)), !fmap_take.
  by rewrite (sta_installed _ _ Hs), (sta_numbers _ _ Hs).
Qed.

Lemma static_module s s' i m : static s s' → Modules s !! i = Some m → ∃ m', Modules s' !! i = Some m' ∧ ModuleNumber m' = ModuleNumber m.
Proof.
  intros Hs Hm. assert (Hn : (ModuleNumber <$> Modules s') !! i = Some (ModuleNumber m)) by (rewrite (sta_numbers _ _ Hs), list_lookup_fmap, Hm; done).
  rewrite list_lookup_fmap in Hn. destruct (Modules s' !! i) as [m'|]; [|done]. exists m'. split; [done|]. by injection Hn.
Qed.

(** An operation that keeps the invariant and the rest. *)
Definition kept base X s s' : Prop := inv base X s' ∧ static s s'.

Lemma skel_kept_refl base X s : inv base X s → kept base X s s.
Proof. by split. Qed.

Lemma skel_kept_trans base base' X X' s1 s2 s3 : kept base X s1 s2 → kept base' X' s2 s3 → kept base' X' s1 s3.
Proof. intros [_ H1'] [H2' H3']. split; [done|]. by etrans. Qed.

Lemma wp_loop {A} base X (f : () → A → M (skel K B) ()) l s :
  inv base X s → (∀ x s1, x ∈ l → kept base X s s1 → wp (f () x) (λ _ s2, kept base X s1 s2) s1) →
  wp (mfold f () l) (λ _ s', kept base X s s') s.
Proof.
  intros Hi Hf. assert (Hgo : ∀ k s1, k `suffix_of` l → kept base X s s1 → wp (mfold f () k) (λ _ s', kept base X s s') s1).
  { induction k as [|x k IH]; intros s1 Hk Hs1; [by apply wp_ret|]. cbn [mfold]. wp_step.
    eapply wp_mono; [apply Hf; [|exact Hs1]|].
    - destruct Hk as [k' ->]. apply elem_of_app. right. by left.
    - cbv beta. intros [] s2 Hs2. apply IH; [|by eapply skel_kept_trans]. destruct Hk as [k' ->]. exists (k' ++ [x]). by rewrite <- app_assoc. }
  apply Hgo; [done|]. by apply skel_kept_refl.
Qed.

(** ** Steps *)

Lemma inv_hardware base X s b : inv base X s → kept base X s (s <| hardware := b |>).
Proof. intros [H1' H2' H3' H4' H5' H6' H7' H8' H9' H10']. destruct s. by split. Qed.

Lemma inv_sem base base' X s w : inv base X s → world_ok (owned s ⊎ base') w → asleep w = asleep (semas_of s) →
  kept base' X s (s <| semas_of := w |>).
Proof.
  intros [H1' H2' H3' H4' H5' H6' H7' H8' H9' H10'] Hw Ha. destruct s. cbn in *. split; split; try done. cbn. by rewrite Ha.
Qed.

Lemma inv_ccon base X s a c c' : inv base X s → heap s !! a = Some c → queue_ok (Queue c') →
  is_Some (find_mcon s (cl_ModuleNumber c')) → kept base X s (s <| heap := <[a := c']> (heap s) |>).
Proof.
  intros [H1' H2' H3' H4' H5' H6' H7' H8' H9' H10'] Ha Hq Hm. destruct s as [ms n wc h w ic b u]. cbn in *.
  assert (Hd : dom (<[a := c']> h) = dom h) by (apply dom_insert_lookup_L; by eexists).
  split; split; cbn; try done; rewrite ?Hd; try done.
  - intros x cx Hx. apply lookup_insert_Some in Hx as [[<- <-]|[_ Hx]]; [|by apply H7']. split; [by eapply H7'|done].
  - unfold owned in *. cbn in *. by rewrite (heap_blocks_update h a c).
Qed.

Lemma lookup_fmap_eq {A C} (f : A → C) (l : list A) i x y : l !! i = Some x → f y = f x → f <$> <[i := y]> l = f <$> l.
Proof. intros Hi Hf. rewrite list_fmap_insert, Hf. apply list_insert_id. by rewrite list_lookup_fmap, Hi. Qed.

(** A module changes only in its status. *)
Lemma inv_mcon base X s i m m' : inv base X s → Modules s !! i = Some m →
  ModuleNumber m' = ModuleNumber m → Spaces m' = Spaces m → clients (Connected m') = clients (Connected m) →
  kept base X s (s <| Modules := <[i := m']> (Modules s) |>).
Proof.
  intros [H1' H2' H3' H4' H5' H6' H7' H8' H9' H10'] Hi Hn Hsp Hc. set (s' := s <| Modules := _ |>).
  assert (Hst : static s s').
  { destruct s as [ms n wc h w ic b u]. cbn in *. split; try done; by apply (lookup_fmap_eq _ _ _ m). }
  assert (Hl : ∀ i' j, lists s' i' j = lists s i' j).
  { intros i' j. destruct s as [ms n wc h w ic b u]. unfold lists. cbn in *. destruct (decide (i' = i)) as [->|].
    - rewrite Hi, list_lookup_insert_eq by by eapply lookup_lt_Some. cbn. by rewrite Hc.
    - by rewrite list_lookup_insert_ne. }
  assert (Hm : ∀ i' x, Modules s' !! i' = Some x → ∃ y, Modules s !! i' = Some y ∧ ModuleNumber x = ModuleNumber y ∧ Spaces x = Spaces y ∧ clients (Connected x) = clients (Connected y)).
  { intros i' x Hx. destruct s as [ms n wc h w ic b u]. cbn in *. apply list_lookup_insert_Some in Hx as [(<- & <- & _)|[_ Hx]]; [by exists m|by exists x]. }
  assert (Hlen : length (Modules s') = length (Modules s)) by (destruct s; apply length_insert).
  split; [|done]. split.
  - by rewrite Hlen.
  - by rewrite (sta_installed _ _ Hst).
  - intros i' x Hx. destruct (Hm i' x Hx) as (y & Hy & -> & -> & ->). rewrite (sta_installed _ _ Hst). by apply H3'.
  - intros i' x j l Hx Hlj Hne. destruct (Hm i' x Hx) as (y & Hy & -> & _). rewrite Hl in Hlj. rewrite (find_mcon_static _ _ _ Hst). by eapply H4'.
  - intros i' j l Hlj. rewrite Hl in Hlj. rewrite (sta_heap _ _ Hst). by eapply H5'.
  - rewrite (sta_clients _ _ Hst), (sta_heap _ _ Hst). done.
  - intros a c Ha. rewrite (find_mcon_static _ _ _ Hst). apply H7'. by destruct s.
  - replace (owned s') with (owned s); [by destruct s|]. destruct s as [ms n wc h w ic b u]. unfold owned. cbn in *. do 2 f_equal.
    pose proof (msum_insert module_blocks ms i m m' Hi) as Hsum. assert (Hmb : module_blocks m' = module_blocks m) by (unfold module_blocks; by rewrite Hc).
    rewrite Hmb in Hsum. apply (inj (.⊎ module_blocks m)) in Hsum. done.
  - intros t w r Ht. rewrite Hlen. rewrite (sta_calls _ _ Hst) in Ht. rewrite (sta_heap _ _ Hst). by eapply H9'.
  - intros t Ht. rewrite (sta_asleep _ _ Hst) in Ht. rewrite (sta_calls _ _ Hst). by apply H10'.
Qed.

(** A list of clients changes; what its links take from the memory, others give. *)
Definition set_list (j : nat) (l' : list client_link) (c : SkelDrvrModConn) : SkelDrvrModConn := c <| clients := <[j := l']> (clients c) |>.

Lemma inv_conn base base' X s i j m l l' : inv base X s → Modules s !! i = Some m → clients (Connected m) !! j = Some l →
  (l' ≠ [] → find_mcon s (ModuleNumber m) = Some i) →
  NoDup (context <$> l') → (∀ e, e ∈ l' → context e ∈ dom (heap s) ∧ good_ptr (link_addr e)) →
  list_blocks l' ⊎ base' = list_blocks l ⊎ base →
  let s' := s <| Modules := <[i := m <| Connected := set_list j l' (Connected m) |>]> (Modules s) |> in
  kept base' X s s' ∧ ∀ i' j', lists s' i' j' = if decide (i' = i ∧ j' = j) then Some l' else lists s i' j'.
Proof.
  intros [H1' H2' H3' H4' H5' H6' H7' H8' H9' H10'] Hi Hj Hfirst Hnd Hel Hbase s'.
  set (m' := m <| Connected := _ |>) in s'.
  assert (Em : ModuleNumber m' = ModuleNumber m ∧ Spaces m' = Spaces m ∧ clients (Connected m') = <[j := l']> (clients (Connected m))).
  { destruct m as [? ? ? [? ?] ? ?]. done. }
  destruct Em as (En & Esp & Ec). clearbody m'.
  assert (Hst : static s s').
  { unfold s'. destruct s as [ms n wc h w ic b u]. cbn in *. split; try done; by apply (lookup_fmap_eq _ _ _ m). }
  assert (Hl : ∀ i' j', lists s' i' j' = if decide (i' = i ∧ j' = j) then Some l' else lists s i' j').
  { intros i' j'. unfold s', lists. destruct s as [ms n wc h w ic b u]. cbn in *. destruct (decide (i' = i)) as [->|Hne].
    - rewrite list_lookup_insert_eq by by eapply lookup_lt_Some. rewrite Hi. cbn. rewrite Ec.
      destruct (decide (j' = j)) as [->|]; [rewrite decide_True by done; apply list_lookup_insert_eq; by eapply lookup_lt_Some|].
      rewrite decide_False by naive_solver. by rewrite list_lookup_insert_ne.
    - rewrite list_lookup_insert_ne, decide_False by naive_solver. done. }
  assert (Hm : ∀ i' x, Modules s' !! i' = Some x → ∃ y, Modules s !! i' = Some y ∧ ModuleNumber x = ModuleNumber y ∧ Spaces x = Spaces y ∧ length (clients (Connected x)) = length (clients (Connected y))).
  { intros i' x Hx. unfold s' in Hx. destruct s as [ms n wc h w ic b u]. cbn in *.
    apply list_lookup_insert_Some in Hx as [(<- & <- & _)|[_ Hx]]; [exists m; rewrite Ec, length_insert; done|by exists x]. }
  assert (Hlen : length (Modules s') = length (Modules s)) by (unfold s'; destruct s; apply length_insert).
  assert (Hheap : heap s' = heap s) by (unfold s'; by destruct s).
  split; [|done]. split; [|done]. split.
  - by rewrite Hlen.
  - by rewrite (sta_installed _ _ Hst).
  - intros i' x Hx. destruct (Hm i' x Hx) as (y & Hy & -> & -> & ->). rewrite (sta_installed _ _ Hst). by apply H3'.
  - intros i' x j' l0 Hx Hlj Hne. destruct (Hm i' x Hx) as (y & Hy & -> & _). rewrite Hl in Hlj. rewrite (find_mcon_static _ _ _ Hst).
    case_decide as Hd; [|by eapply H4']. destruct Hd as [-> ->]. injection Hlj as <-. assert (y = m) as -> by congruence. by apply Hfirst.
  - intros i' j' l0 Hlj. rewrite Hl in Hlj. rewrite Hheap. case_decide; [by injection Hlj as <-|by eapply H5'].
  - rewrite (sta_clients _ _ Hst), Hheap. done.
  - intros a c. rewrite (find_mcon_static _ _ _ Hst), Hheap. apply H7'.
  - assert (Ho : owned s' ⊎ base' = owned s ⊎ base); [|rewrite Ho; unfold s'; by destruct s].
    assert (Hmb : msum module_blocks (Modules s') ⊎ base' = msum module_blocks (Modules s) ⊎ base).
    { pose proof (msum_insert module_blocks (Modules s) i m m' Hi) as Hsum.
      assert (Hms : Modules s' = <[i := m']> (Modules s)) by (unfold s'; by destruct s). rewrite Hms.
      pose proof (msum_insert list_blocks (clients (Connected m)) j l l' Hj) as Hsl.
      unfold module_blocks in Hsum at 2 4. rewrite Ec in Hsum.
      revert Hsum Hsl Hbase. generalize (msum list_blocks (<[j := l']> (clients (Connected m)))) (msum list_blocks (clients (Connected m))).
      generalize (msum module_blocks (<[i := m']> (Modules s))) (msum module_blocks (Modules s)) (list_blocks l) (list_blocks l'). clear.
      intros M' M L L' C' C E1 E2 E3.
      apply (inj (.⊎ (C ⊎ L ⊎ L'))). clear - E1 E2 E3. multiset_solver. }
    unfold owned. rewrite Hheap, (sta_clients _ _ Hst), <- !(assoc_L (⊎)), Hmb. done.
  - intros t w r Ht. rewrite Hlen, Hheap. rewrite (sta_calls _ _ Hst) in Ht. by eapply H9'.
  - intros t Ht. rewrite (sta_asleep _ _ Hst) in Ht. rewrite (sta_calls _ _ Hst). by apply H10'.
Qed.

(** ** Access and memory *)

Lemma wp_ccon a c (Q : SkelDrvrClientContext → skel K B → Prop) s : heap s !! a = Some c → Q c s → wp (ccon_at a) Q s.
Proof. intros Ha HQ. unfold ccon_at. wp_step. wp_step. by eapply wp_lift_opt. Qed.

Lemma wp_upd_ccon base X a f c (Q : () → skel K B → Prop) s :
  inv base X s → heap s !! a = Some c → queue_ok (Queue (f c)) → is_Some (find_mcon s (cl_ModuleNumber (f c))) →
  (∀ s', s' = s <| heap := <[a := f c]> (heap s) |> → kept base X s s' → Q () s') → wp (upd_ccon a f) Q s.
Proof. intros Hi Ha Hq Hm HQ. unfold upd_ccon. wp_step. apply (wp_ccon a c); [done|]. wp_step. apply HQ; [done|]. by eapply inv_ccon. Qed.

Lemma wp_mcon i m (Q : SkelDrvrModuleContext → skel K B → Prop) s : Modules s !! i = Some m → Q m s → wp (mcon_at i) Q s.
Proof. intros Hi HQ. unfold mcon_at. wp_step. wp_step. by eapply wp_lift_opt. Qed.

Lemma wp_user {A} base X (f : B → A * B) (Q : A → skel K B → Prop) s :
  inv base X s → (∀ a b s', f (hardware s) = (a, b) → s' = s <| hardware := b |> → kept base X s s' → Q a s') → wp (user f) Q s.
Proof.
  intros Hi HQ. unfold user. wp_step. wp_step. destruct (f (hardware s)) as [a b] eqn:E. wp_steps. eapply HQ; [done|done|]. by apply inv_hardware.
Qed.

Lemma wp_user_do base X (f : B → B) (Q : () → skel K B → Prop) s :
  inv base X s → (∀ s', s' = s <| hardware := f (hardware s) |> → kept base X s s' → Q () s') → wp (user_do f) Q s.
Proof. intros Hi HQ. unfold user_do. wp_step. apply HQ; [done|]. by apply inv_hardware. Qed.

Section kernel.
(** The machine has memory. *)
Hypothesis plenty : ∀ n (k : K), fits (kmalloc n k).1.

(** A fresh pointer: it is on nobody's account yet. *)
Lemma wp_sysbrk base X size (Q : Z → skel K B → Prop) s : inv base X s →
  (∀ p s', good_ptr p → heap s !! p = None → kept ({[+ blk p +]} ⊎ base) X s s' →
    (∃ w, s' = s <| semas_of := w |>) → Q p s') →
  wp (skel_sysbrk size) Q s.
Proof.
  intros Hi HQ. unfold skel_sysbrk, with_kernel. wp_step. wp_step. unfold sysbrk.
  pose proof (kmalloc_live (size + sizeof_cdcm_mem_header) (kern (tab (semas_of s)))) as Hk.
  destruct (plenty (size + sizeof_cdcm_mem_header) (kern (tab (semas_of s)))) as [Hp Herr].
  destruct (kmalloc _ _) as [b k]. cbn [fst snd] in *. rewrite (proj2 (Z.eqb_neq b 0)) by lia.
  destruct Hk as [[-> _]|(_ & Hfresh & Hk)]; [lia|]. wp_step. wp_step. wp_step.
  pose proof (iv_world _ _ _ Hi) as Hw. set (w' := mk_world _ _).
  assert (Hblk : blk (b + sizeof_cdcm_mem_header) = Block b) by (unfold blk; f_equal; lia).
  assert (Hw' : world_ok (owned s ⊎ ({[+ blk (b + sizeof_cdcm_mem_header) +]} ⊎ base)) w').
  { rewrite Hblk. destruct Hw as [Hw1 Hw2 Hw3 Hw4 Hw5 Hw6]. split; try done.
    change (live k = blocks (sem_list (tab (semas_of s))) ⊎ (owned s ⊎ ({[+ Block b +]} ⊎ base))). rewrite Hk, Hw4. clear. multiset_solver. }
  apply HQ.
  - split; [|done]. unfold sizeof_cdcm_mem_header in *. lia.
  - destruct (heap s !! (b + sizeof_cdcm_mem_header)) as [c|] eqn:Hc; [|done]. exfalso. apply Hfresh.
    rewrite (wo_live _ _ Hw). unfold owned. rewrite (heap_blocks_delete _ _ _ Hc), Hblk, !gmultiset_elem_of_disj_union.
    right. do 3 left. by apply gmultiset_elem_of_singleton.
  - by eapply inv_sem.
  - by eexists.
Qed.

Lemma wp_sysfree base X p (Q : () → skel K B → Prop) s : inv ({[+ blk p +]} ⊎ base) X s → good_ptr p →
  (∀ s', kept base X s s' → (∃ w, s' = s <| semas_of := w |>) → Q () s') → wp (skel_sysfree p) Q s.
Proof.
  intros Hi [Hp Herr] HQ. unfold skel_sysfree, sysfree. wp_step. wp_step. rewrite (proj2 (Z.eqb_neq p 0)), Herr by done.
  wp_step. eapply wp_lift_opt; [done|]. wp_step. apply HQ; [|by eexists]. eapply inv_sem; [done| |done].
  destruct (iv_world _ _ _ Hi) as [Hw1 Hw2 Hw3 Hw4 Hw5 Hw6]. split; try done.
  change (live (kfree (p - sizeof_cdcm_mem_header) (kern (tab (semas_of s)))) = blocks (sem_list (tab (semas_of s))) ⊎ (owned s ⊎ base)).
  rewrite kfree_live, Hw4. fold (blk p). clear. multiset_solver.
Qed.
End kernel.

(** ** Semaphores *)

Variable msecs_to_jiffies : Z → Z.

(** What a call does to the sleeping tasks. *)
Lemma run_call_asleep c (w : world K) r w' : run_call msecs_to_jiffies (λ _, 0) c w = Some (r, w') →
  match c with
  | CSwait t _ _ _ | CTswait t _ _ _ _ | CResume t _ _ =>
    match r with Some _ => asleep w' = delete t (asleep w) | None => ∃ sl, asleep w' = <[t := sl]> (asleep w) end
  | _ => asleep w' = asleep w
  end.
Proof.
  assert (Hsettle : ∀ t (x : Z + sleeper) (w0 : world K) r0 w1, settle t x w0 = Some (r0, w1) →
    match r0 with Some _ => asleep w1 = delete t (asleep w0) | None => ∃ sl, asleep w1 = <[t := sl]> (asleep w0) end).
  { intros t [v|sl] w0 r0 w1 E; injection E as <- <-; [done|by exists sl]. }
  assert (Htab : ∀ A (m : M (semas K) A) (w0 : world K) x w1, on_tab m w0 = Some (x, w1) → asleep w1 = asleep w0).
  { intros A m w0 x w1. unfold on_tab, zoom. destruct (m (tab w0)) as [[? ?]|]; [|done]. by intros [= <- <-]. }
  destruct c; cbn [run_call]; unfold mbind, M_bind; intros E.
  - destruct (on_tab _ w) as [[x w1]|] eqn:E1; [|done]. apply Htab in E1. apply Hsettle in E. by rewrite E1 in E.
  - destruct (on_tab _ w) as [[x w1]|] eqn:E1; [|done]. apply Htab in E1. apply Hsettle in E. by rewrite E1 in E.
  - unfold gets, lift_opt in E. destruct (asleep w !! t) as [sl|]; [|done]. cbn in E.
    destruct (on_tab _ w) as [[x w1]|] eqn:E1; [|done]. apply Htab in E1. apply Hsettle in E. by rewrite E1 in E.
  - destruct (on_tab _ w) as [[x w1]|] eqn:E1; [|done]. apply Htab in E1. by injection E as _ <-.
  - destruct (on_tab _ w) as [[x w1]|] eqn:E1; [|done]. apply Htab in E1. by injection E as _ <-.
  - destruct (on_tab _ w) as [[x w1]|] eqn:E1; [|done]. apply Htab in E1. by injection E as _ <-.
  - destruct (on_tab _ w) as [[x w1]|] eqn:E1; [|done]. apply Htab in E1. by injection E as _ <-.
Qed.

(** A call that does not wait. *)
Definition short_call (c : call) (u : Z) : Prop := c = CSsignal u ∨ c = CSreset u.

Lemma wp_sem_short base X c u (Q : option Z → skel K B → Prop) s : inv base X s → short_call c u →
  (∀ r w', call_done msecs_to_jiffies (λ _, 0) (owned s ⊎ base) c u (semas_of s) r w' → kept base X s (s <| semas_of := w' |>) → Q r (s <| semas_of := w' |>)) →
  wp (sem_call msecs_to_jiffies c) Q s.
Proof.
  intros Hi Hc HQ. unfold sem_call. apply wp_zoom. apply wp_run.
  pose proof (call_runs msecs_to_jiffies (λ _, 0) (owned s ⊎ base) c u (semas_of s) (iv_world _ _ _ Hi)) as Hrun.
  assert (Hen : call_enabled c (semas_of s) ∧ call_user c (semas_of s) u) by (by destruct Hc as [->| ->]).
  specialize (Hrun (proj1 Hen) (proj2 Hen)). apply wp_run in Hrun as (r & w' & E & Hd). exists r, w'. split; [done|].
  apply HQ; [done|]. eapply inv_sem; [done|exact (cd_ok _ _ _ _ _ _ _ _ Hd)|].
  apply run_call_asleep in E. by destruct Hc as [->| ->].
Qed.

(** * Queues *)

Variable offsetof_Semaphore : Z.
Notation q_put := (q_put offsetof_Semaphore msecs_to_jiffies).

(** An entry for one client. *)
Definition put_in (rb : SkelDrvrReadBuf) (c c' : SkelDrvrClientContext) : Prop :=
  ∃ free q, q_put_entry rb (Queue c) = Some (q, free) ∧ c' = c <| Queue := q |>.

Lemma wp_q_put base X rb a c (s : skel K B) : inv base X s → heap s !! a = Some c →
  wp (q_put rb a) (λ _ s', kept base X s s' ∧ Modules s' = Modules s ∧ ∃ c', put_in rb c c' ∧ heap s' = <[a := c']> (heap s)) s.
Proof.
  intros Hi Ha. destruct (iv_heap _ _ _ Hi a c Ha) as (_ & Hq & Hm). destruct (q_put_ok rb _ Hq) as (q & free & E & Hq').
  unfold Skel.q_put. wp_step. apply (wp_ccon a c); [done|]. wp_step. eapply wp_lift_opt; [done|]. cbv beta iota. wp_step.
  eapply wp_upd_ccon; [done|done|by destruct c|by destruct c|]. intros s1 Hs1 Hk1.
  assert (Hput : put_in rb c (c <| Queue := q |>)) by by exists free, q.
  assert (H1' : Modules s1 = Modules s ∧ heap s1 = <[a := c <| Queue := q |>]> (heap s)) by (rewrite Hs1; by destruct s).
  destruct H1' as [Hm1 Hh1]. destruct free.
  - wp_step. eapply wp_sem_short; [apply Hk1|by left|]. intros r w' _ Hk2. wp_step.
    split; [by eapply skel_kept_trans|]. split; [destruct s1; done|]. eexists. split; [done|]. by destruct s1.
  - wp_step. split; [done|]. split; [done|]. by eexists.
Qed.

(** Several, in order. *)
Inductive puts_in : list SkelDrvrReadBuf → SkelDrvrClientContext → SkelDrvrClientContext → Prop :=
  | puts_nil c : puts_in [] c c
  | puts_cons rb rbs c c1 c2 : put_in rb c c1 → puts_in rbs c1 c2 → puts_in (rb :: rbs) c c2.

Lemma puts_app rbs1 rbs2 c c1 c2 : puts_in rbs1 c c1 → puts_in rbs2 c1 c2 → puts_in (rbs1 ++ rbs2) c c2.
Proof. induction 1 as [|rb rbs c c1' c2' Hp _ IH]; intros H2'; [done|]. eapply puts_cons; [done|by apply IH]. Qed.

Lemma puts_hold rbs c c' : puts_in rbs c c' → ∀ l, queue_holds (Queue c) l → queue_holds (Queue c') (foldl (λ l rb, newest 32 rb l) l rbs).
Proof.
  induction 1 as [c|rb rbs c c1 c2 Hp _ IH]; intros l Hl; [done|]. apply IH. destruct Hp as (free & q & E & ->).
  destruct (q_put_holds rb _ l Hl) as (q' & E' & Hq'). rewrite E in E'. injection E' as -> ->. by destruct c.
Qed.

(** Every client gets its entries, and nothing else happens. *)
Definition delivered base X (f : Z → list SkelDrvrReadBuf) (s s' : skel K B) : Prop :=
  kept base X s s' ∧ Modules s' = Modules s ∧ ∀ a c, heap s !! a = Some c → ∃ c', heap s' !! a = Some c' ∧ puts_in (f a) c c'.

Lemma delivered_nil base X s : inv base X s → delivered base X (λ _, []) s s.
Proof. intros Hi. split; [by apply skel_kept_refl|]. split; [done|]. intros a c Ha. exists c. split; [done|constructor]. Qed.

Lemma delivered_app base X f g s1 s2 s3 : delivered base X f s1 s2 → delivered base X g s2 s3 → delivered base X (λ a, f a ++ g a) s1 s3.
Proof.
  intros (Hk1 & Hm1 & Hd1) (Hk2 & Hm2 & Hd2). split; [by eapply skel_kept_trans|]. split; [congruence|].
  intros a c Ha. destruct (Hd1 a c Ha) as (c1 & Ha1 & Hp1). destruct (Hd2 a c1 Ha1) as (c2 & Ha2 & Hp2).
  exists c2. split; [done|]. by eapply puts_app.
Qed.

Lemma delivered_ext base X f g s s' : (∀ a, f a = g a) → delivered base X f s s' → delivered base X g s s'.
Proof. intros Hfg (Hk & Hm & Hd). split; [done|]. split; [done|]. intros a c Ha. rewrite <- Hfg. by apply Hd. Qed.

Definition once (rb : SkelDrvrReadBuf) (l : list client_link) (a : Z) : list SkelDrvrReadBuf :=
  if decide (a ∈ context <$> l) then [rb] else [].

Lemma wp_put_queues base X rb l : ∀ s, inv base X s → NoDup (context <$> l) → (∀ e, e ∈ l → context e ∈ dom (heap s)) →
  wp (put_queues offsetof_Semaphore msecs_to_jiffies rb l) (λ _ s', delivered base X (once rb l) s s') s.
Proof.
  unfold put_queues. induction l as [|e l IH]; intros s Hi Hnd Hel; cbn [mfold].
  { wp_step. by apply delivered_nil. }
  cbn [fmap list_fmap] in Hnd. apply list.NoDup_cons in Hnd as [He Hnd].
  assert (Hc : ∃ c, heap s !! context e = Some c) by (apply elem_of_dom, Hel; by left).
  destruct Hc as [c Hc]. wp_step. eapply wp_mono; [by apply (wp_q_put base X rb (context e) c)|].
  cbv beta. intros [] s1 (Hk1 & Hm1 & c' & Hput & Hh1). eapply wp_mono; [apply IH; [apply Hk1|done|]|].
  - intros x Hx. rewrite (sta_heap _ _ (proj2 Hk1)). apply Hel. by right.
  - cbv beta. intros [] s2 Hd2. apply delivered_ext with (λ a, (if decide (a = context e) then [rb] else []) ++ once rb l a).
    + intros a. unfold once. cbn [fmap list_fmap]. destruct (decide (a = context e)) as [->|Hne].
      * rewrite (decide_False (P := context e ∈ context <$> l)) by done. by rewrite decide_True by by left.
      * destruct (decide (a ∈ context <$> l)).
        -- by rewrite decide_True by by right.
        -- rewrite decide_False; [done|]. by intros [?|?]%elem_of_cons.
    + eapply delivered_app; [|exact Hd2]. split; [done|]. split; [done|]. intros a ca Ha. rewrite Hh1.
      destruct (decide (a = context e)) as [->|Hne].
      * rewrite lookup_insert_eq. exists c'. split; [done|]. assert (ca = c) as -> by congruence. eapply puts_cons; [done|constructor].
      * rewrite lookup_insert_ne by done. exists ca. split; [done|constructor].
Qed.

(** What a mask of interrupts means for a client: an entry per interrupt it is connected
    to. *)
Definition interrupt_entry (rb : SkelDrvrReadBuf) (imask : Z) (s : skel K B) (i j : nat) (a : Z) : list SkelDrvrReadBuf :=
  match lists s i j with
  | Some l =>
    if truthy (Z.land imask (bit j))
    then once (rb <| rb_Connection := mk_connection (conx_Module (rb_Connection rb)) (Z.land imask (bit j)) |>) l a else []
  | None => []
  end.

Definition entries_for (rb : SkelDrvrReadBuf) (imask : Z) (s : skel K B) (i : nat) (a : Z) : list SkelDrvrReadBuf :=
  seq 0 SkelDrvrINTERRUPTS ≫= λ j, interrupt_entry rb imask s i j a.

Lemma wp_fill_interrupt base X i rb imask j s : inv base X s → (i < length (Modules s))%nat → (j < SkelDrvrINTERRUPTS)%nat →
  wp (fill_interrupt offsetof_Semaphore msecs_to_jiffies i rb imask j) (λ _ s', delivered base X (interrupt_entry rb imask s i j) s s') s.
Proof.
  intros Hi Hlt Hj. destruct (lookup_lt_is_Some_2 _ _ Hlt) as [m Hm]. destruct (iv_module _ _ _ Hi i m Hm) as (_ & _ & Hlen & _).
  destruct (lookup_lt_is_Some_2 (clients (Connected m)) j ltac:(lia)) as [l Hl].
  assert (Hls : lists s i j = Some l) by (unfold lists; by rewrite Hm).
  unfold fill_interrupt. wp_step. apply (wp_mcon i m); [done|]. wp_step. eapply wp_lift_opt; [done|]. cbv beta zeta.
  unfold interrupt_entry. rewrite Hls. destruct (truthy (Z.land imask (bit j))); cbn [negb].
  - destruct (iv_lists _ _ _ Hi i j l Hls) as [Hnd Hel]. apply wp_put_queues; [done|done|]. intros e He. by apply Hel.
  - wp_step. by apply delivered_nil.
Qed.

Lemma wp_fill_clients base X i rb imask s : inv base X s → (i < length (Modules s))%nat →
  wp (fill_clients_queues offsetof_Semaphore msecs_to_jiffies i rb imask) (λ _ s', delivered base X (entries_for rb imask s i) s s') s.
Proof.
  intros Hi Hlt. unfold fill_clients_queues, entries_for.
  assert (Hgo : ∀ js s1, Forall (λ j, (j < SkelDrvrINTERRUPTS)%nat) js → kept base X s s1 → Modules s1 = Modules s →
    wp (mfold (λ _ j, fill_interrupt offsetof_Semaphore msecs_to_jiffies i rb imask j) () js)
      (λ _ s', delivered base X (λ a, js ≫= λ j, interrupt_entry rb imask s i j a) s1 s') s1).
  { induction js as [|j js IH]; intros s1 Hjs Hk1 Hm1; [apply wp_ret, delivered_nil, Hk1|]. apply list.Forall_cons in Hjs as [Hj Hjs].
    cbn [mfold]. wp_step. eapply wp_mono; [apply wp_fill_interrupt; [apply Hk1|by rewrite Hm1|done]|].
    cbv beta. intros [] s2 Hd2. pose proof Hd2 as (Hk2 & Hm2 & _).
    eapply wp_mono; [apply (IH s2 Hjs); [by eapply skel_kept_trans|congruence]|]. cbv beta. intros [] s3 Hd3.
    cbn [mbind list_bind]. apply (delivered_app _ _ (interrupt_entry rb imask s i j) _ _ s2); [|done].
    eapply delivered_ext; [|done]. intros a. unfold interrupt_entry, lists. by rewrite Hm1. }
  apply Hgo; [|by apply skel_kept_refl|done]. apply list.Forall_forall. intros j Hj%elem_of_seq. lia.
Qed.

(** * Connections

    The table of connections: which client is on the list of which interrupt of which
    module. *)
Definition connected (s : skel K B) (i j : nat) (a : Z) : Prop := ∃ l, lists s i j = Some l ∧ a ∈ context <$> l.

Definition same_lists (s s' : skel K B) : Prop := ∀ i j, lists s' i j = lists s i j.

Lemma same_lists_trans s1 s2 s3 : same_lists s1 s2 → same_lists s2 s3 → same_lists s1 s3.
Proof. intros H1' H2' i j. by rewrite H2'. Qed.

Lemma same_lists_modules s s' : Modules s' = Modules s → same_lists s s'.
Proof. intros Hm i j. unfold lists. by rewrite Hm. Qed.

Lemma connected_same s s' i j a : same_lists s s' → connected s' i j a ↔ connected s i j a.
Proof. intros Hl. unfold connected. by rewrite Hl. Qed.

Lemma wp_upd_mcon base X i f m (Q : () → skel K B → Prop) s : inv base X s → Modules s !! i = Some m →
  ModuleNumber (f m) = ModuleNumber m → Spaces (f m) = Spaces m → clients (Connected (f m)) = clients (Connected m) →
  (∀ s', kept base X s s' → same_lists s s' → Modules s' !! i = Some (f m) → Q () s') → wp (upd_mcon i f) Q s.
Proof.
  intros Hi Hm Hn Hsp Hc HQ. unfold upd_mcon. wp_step. apply (wp_mcon i m); [done|]. wp_step.
  apply HQ; [by eapply inv_mcon| |].
  - intros i' j. unfold lists. destruct s as [ms n wc h w ic b u]. cbn in *. destruct (decide (i' = i)) as [->|].
    + rewrite list_lookup_insert_eq by by eapply lookup_lt_Some. rewrite Hm. cbn. by rewrite Hc.
    + by rewrite list_lookup_insert_ne.
  - destruct s. cbn in *. apply list_lookup_insert_eq. by eapply lookup_lt_Some.
Qed.

Lemma wp_upd_conn i f m (Q : () → skel K B → Prop) s : Modules s !! i = Some m →
  Q () (s <| Modules := <[i := m <| Connected := f (Connected m) |>]> (Modules s) |>) → wp (upd_conn i f) Q s.
Proof. intros Hm HQ. unfold upd_conn, upd_mcon. wp_step. apply (wp_mcon i m); [done|]. by wp_step. Qed.

(** The mask of enabled interrupts changes, and the hardware is told. *)
Lemma wp_enable base X i g s : inv base X s → (i < length (Modules s))%nat →
  wp (upd_conn i (λ c : SkelDrvrModConn, c <| enabled_ints := g (enabled_ints c) |>);; enable_interrupts i)
    (λ _ s', kept base X s s' ∧ same_lists s s') s.
Proof.
  intros Hi Hlt. destruct (lookup_lt_is_Some_2 _ _ Hlt) as [m Hm]. unfold upd_conn. wp_step.
  eapply wp_upd_mcon; [done|done|by destruct m|by destruct m|by destruct m as [? ? ? [] ? ?]|]. intros s1 Hk1 Hl1 Hm1.
  unfold enable_interrupts. wp_step. eapply wp_mcon; [done|]. eapply wp_user_do; [apply Hk1|]. intros s2 -> Hk2.
  split; [by eapply skel_kept_trans|]. intros i' j. rewrite <- Hl1. by destruct s1.
Qed.

Lemma get_client_spec a l :
  match get_client a l with
  | Some k => ∃ e, l !! k = Some e ∧ context e = a ∧ a ∈ context <$> l
  | None => a ∉ context <$> l
  end.
Proof.
  unfold get_client. destruct (find_idx _ l) as [k|] eqn:E.
  - apply find_idx_lookup in E as [(e & He & Hc) _]. apply Z.eqb_eq in Hc. exists e. split; [done|]. split; [done|].
    rewrite <- Hc. apply list_elem_of_fmap. exists e. split; [done|]. by eapply list_elem_of_lookup_2.
  - intros (e & -> & He)%list_elem_of_fmap. pose proof (proj1 (find_idx_None _ _) E) as Hall. specialize (Hall e He). cbn in Hall. by rewrite Z.eqb_refl in Hall.
Qed.

Section alloc.
Hypothesis plenty : ∀ n (k : K), fits (kmalloc n k).1.
Variable sizeof_client_link : Z.

Lemma wp_connect_interrupt base X a i m imsk j s : inv base X s → Modules s !! i = Some m → (j < SkelDrvrINTERRUPTS)%nat →
  find_mcon s (ModuleNumber m) = Some i → a ∈ dom (heap s) →
  wp (connect_interrupt sizeof_client_link a i imsk j) (λ _ s', kept base X s s' ∧
    ∀ i' j' b, connected s' i' j' b ↔ connected s i' j' b ∨ (truthy (Z.land imsk (bit j)) = true ∧ i' = i ∧ j' = j ∧ b = a)) s.
Proof.
  intros Hi Hm Hj Hfirst Ha. unfold connect_interrupt. destruct (truthy (Z.land imsk (bit j))); cbn [negb].
  2:{ wp_step. split; [by apply skel_kept_refl|]. intros i' j' b. split; [by left|]. by intros [?|[? _]]. }
  assert (Hlt : (i < length (Modules s))%nat) by by eapply lookup_lt_Some.
  destruct (iv_module _ _ _ Hi i m Hm) as (_ & _ & Hlen & _).
  destruct (lookup_lt_is_Some_2 (clients (Connected m)) j ltac:(lia)) as [l Hl].
  assert (Hls : lists s i j = Some l) by (unfold lists; by rewrite Hm).
  wp_step. eapply wp_sysbrk; [done|done|]. intros p s1 Hp Hfresh Hk1 [w1 ->].
  assert (Hm1 : Modules (s <| semas_of := w1 |>) = Modules s) by by destruct s.
  wp_step. eapply wp_mcon; [by rewrite Hm1|]. wp_step. eapply wp_lift_opt; [done|]. cbv beta. wp_step.
  pose proof (get_client_spec a l) as Hget. destruct (get_client a l) as [k|].
  - destruct Hget as (e & He & Hc & Hin). wp_step. rewrite (proj2 (Z.eqb_neq p 0)) by apply Hp.
    eapply wp_sysfree; [apply Hk1|done|]. intros s2 Hk2 [w2 ->]. wp_step. cbv iota.
    eapply wp_mono; [apply (wp_enable base X i (λ x, Z.lor x imsk)); [apply Hk2|by destruct s]|]. cbv beta. intros [] s3 [Hk3 Hl3].
    split; [eapply skel_kept_trans; [exact Hk1|by eapply skel_kept_trans]|]. intros i' j' b.
    rewrite (connected_same _ _ i' j' b Hl3). assert (Hcs : connected ((s <| semas_of := w1 |>) <| semas_of := w2 |>) i' j' b ↔ connected s i' j' b).
    { apply connected_same, same_lists_modules. by destruct s. }
    rewrite Hcs. split; [by left|]. intros [?|(_ & -> & -> & ->)]; [done|]. by exists l.
  - rewrite (proj2 (Z.eqb_neq p 0)) by apply Hp. rewrite (proj2 Hp). wp_step. unfold upd_conn, upd_mcon. wp_step.
    eapply wp_mcon; [by rewrite Hm1|]. wp_step.
    destruct (inv_conn _ base X (s <| semas_of := w1 |>) i j m l (mk_link p a :: l) (proj1 Hk1)) as [Hk2 Hl2].
    + by rewrite Hm1.
    + done.
    + intros _. by rewrite (find_mcon_static _ _ _ (proj2 Hk1)).
    + cbn [fmap list_fmap]. apply list.NoDup_cons. split; [done|]. by eapply iv_lists.
    + intros e [->|He]%list.elem_of_cons; [by destruct s|]. destruct (iv_lists _ _ _ Hi i j l Hls) as [_ Hel]. destruct s. by apply Hel.
    + unfold list_blocks. rewrite msum_cons. unfold link_block. cbn [link_addr]. multiset_solver.
    + set (s2 := (s <| semas_of := w1 |>) <| Modules := _ |>) in *.
      change (wp (mret true ≫= λ added : bool, if added then upd_conn i (λ c : SkelDrvrModConn, c <| enabled_ints := Z.lor (enabled_ints c) imsk |>);; enable_interrupts i else mret ())
        (λ _ s', kept base X s s' ∧ ∀ i' j' b, connected s' i' j' b ↔ connected s i' j' b ∨ (true = true ∧ i' = i ∧ j' = j ∧ b = a)) s2).
      wp_step. wp_step. cbv iota. eapply wp_mono; [apply (wp_enable base X i (λ x, Z.lor x imsk)); [apply Hk2|]|].
      { unfold s2. destruct s. cbn. by rewrite length_insert. }
      cbv beta. intros [] s3 [Hk3 Hl3]. split; [eapply skel_kept_trans; [exact Hk1|by eapply skel_kept_trans]|].
      intros i' j' b. rewrite (connected_same _ _ i' j' b Hl3). unfold connected. rewrite Hl2.
      assert (Hls' : lists (s <| semas_of := w1 |>) i' j' = lists s i' j') by (unfold lists; by rewrite Hm1). rewrite Hls'.
      case_decide as Hd.
      * destruct Hd as [-> ->]. rewrite Hls. split.
        -- intros (l' & [= <-] & Hb). cbn [fmap list_fmap] in Hb. apply list.elem_of_cons in Hb as [->|Hb]; [by right|left; by exists l].
        -- intros [(l' & [= <-] & Hb)|(_ & _ & _ & ->)]; eexists; (split; [done|]); cbn [fmap list_fmap]; apply list.elem_of_cons; [by right|by left].
      * split; [by left|]. intros [?|(_ & -> & -> & _)]; [done|]. by destruct Hd.
Qed.

Definition bit_of (imsk : Z) (j : nat) : Prop := truthy (Z.land imsk (bit j)) = true ∧ (j < SkelDrvrINTERRUPTS)%nat.

Lemma wp_connect base X a i m imsk s : inv base X s → Modules s !! i = Some m →
  find_mcon s (ModuleNumber m) = Some i → a ∈ dom (heap s) →
  wp (mfold (λ _ j, connect_interrupt sizeof_client_link a i imsk j) () (seq 0 SkelDrvrINTERRUPTS)) (λ _ s', kept base X s s' ∧
    ∀ i' j' b, connected s' i' j' b ↔ connected s i' j' b ∨ (bit_of imsk j' ∧ i' = i ∧ b = a)) s.
Proof.
  intros Hi Hm Hfirst Ha.
  assert (Hgo : ∀ js s1, kept base X s s1 → Forall (λ j, (j < SkelDrvrINTERRUPTS)%nat) js →
    wp (mfold (λ _ j, connect_interrupt sizeof_client_link a i imsk j) () js) (λ _ s', kept base X s s' ∧
      ∀ i' j' b, connected s' i' j' b ↔ connected s1 i' j' b ∨ (truthy (Z.land imsk (bit j')) = true ∧ j' ∈ js ∧ i' = i ∧ b = a)) s1).
  { induction js as [|j js IH]; intros s1 Hk1 Hjs.
    { apply wp_ret. split; [done|]. intros i' j' b. split; [by left|]. intros [?|(_ & Hin & _)]; [done|]. by apply not_elem_of_nil in Hin. }
    apply list.Forall_cons in Hjs as [Hj Hjs]. cbn [mfold]. wp_step.
    destruct (static_module _ _ i m (proj2 Hk1) Hm) as (m1 & Hm1 & Hn1).
    eapply wp_mono; [apply (wp_connect_interrupt base X a i m1); [apply Hk1|done|done| |]|].
    - by rewrite (find_mcon_static _ _ _ (proj2 Hk1)), Hn1.
    - by rewrite (sta_heap _ _ (proj2 Hk1)).
    - cbv beta. intros [] s2 [Hk2 Hc2]. eapply wp_mono; [apply IH; [by eapply skel_kept_trans|done]|]. cbv beta.
      intros [] s3 [Hk3 Hc3]. split; [done|]. intros i' j' b. rewrite Hc3, Hc2, list.elem_of_cons. naive_solver. }
  eapply wp_mono; [apply Hgo; [by apply skel_kept_refl|]|].
  - apply list.Forall_forall. intros j Hj%elem_of_seq. lia.
  - cbv beta. intros [] s' [Hk Hc]. split; [done|]. intros i' j' b. rewrite Hc. unfold bit_of. rewrite elem_of_seq. naive_solver lia.
Qed.
End alloc.

Lemma wp_disconnect_interrupt base X a i m imsk j s : inv base X s → Modules s !! i = Some m → (j < SkelDrvrINTERRUPTS)%nat →
  wp (disconnect_interrupt a i imsk j) (λ _ s', kept base X s s' ∧
    ∀ i' j' b, connected s' i' j' b ↔ connected s i' j' b ∧ ¬ (truthy (Z.land imsk (bit j)) = true ∧ i' = i ∧ j' = j ∧ b = a)) s.
Proof.
  intros Hi Hm Hj. assert (Hlt : (i < length (Modules s))%nat) by by eapply lookup_lt_Some.
  destruct (iv_module _ _ _ Hi i m Hm) as (_ & _ & Hlen & _).
  destruct (lookup_lt_is_Some_2 (clients (Connected m)) j ltac:(lia)) as [l Hl].
  assert (Hls : lists s i j = Some l) by (unfold lists; by rewrite Hm).
  unfold disconnect_interrupt. wp_step. apply (wp_mcon i m); [done|]. wp_step. eapply wp_lift_opt; [done|]. cbv beta.
  destruct (truthy (Z.land imsk (bit j))); cbn [negb]; [|wp_step; split; [by apply skel_kept_refl|]; naive_solver].
  pose proof (get_client_spec a l) as Hget. destruct (get_client a l) as [k|].
  2:{ wp_step. split; [by apply skel_kept_refl|]. intros i' j' b. split; [|by intros [? _]]. intros Hc. split; [done|].
      intros (_ & -> & -> & ->). destruct Hc as (l0 & Hl0 & Hin). congruence. }
  destruct Hget as (e & He & Hc & _). wp_step. eapply wp_lift_opt; [done|]. cbv beta zeta. set (rest := take k l ++ drop (S k) l).
  assert (Hperm : l ≡ₚ e :: rest) by (rewrite <- (take_drop_middle l k e He) at 1; unfold rest; by rewrite Permutation_middle).
  destruct (iv_lists _ _ _ Hi i j l Hls) as [Hnd Hel].
  assert (Hnd' : context e ∉ context <$> rest ∧ NoDup (context <$> rest)).
  { rewrite Hperm in Hnd. cbn [fmap list_fmap] in Hnd. by apply list.NoDup_cons in Hnd. }
  destruct Hnd' as [Hout Hnd'].
  destruct (inv_conn base ({[+ blk (link_addr e) +]} ⊎ base) X s i j m l rest Hi Hm Hl) as [Hk1 Hl1].
  { intros _. eapply (iv_first _ _ _ Hi i m j l); [done|done|]. intros ->. by apply Permutation_nil_cons in Hperm. }
  { done. }
  { intros x Hx. apply Hel. rewrite Hperm. by right. }
  { unfold list_blocks. rewrite (msum_perm _ _ _ Hperm), msum_cons. unfold link_block. multiset_solver. }
  clearbody rest. wp_step. apply (wp_upd_conn i _ m); [done|].
  match type of Hk1 with kept _ _ _ ?x => set (s1 := x) in * end.
  match goal with |- wp ?p _ _ => change (wp p (λ _ s', kept base X s s' ∧ ∀ i' j' b, connected s' i' j' b ↔ connected s i' j' b ∧ ¬ (true = true ∧ i' = i ∧ j' = j ∧ b = a)) s1) end.
  wp_step. apply (wp_sysfree base X (link_addr e)); [exact (proj1 Hk1)|apply Hel; rewrite Hperm; by left|]. intros s2 Hk2 [w2 Hs2].
  assert (Hm2 : Modules s2 = Modules s1) by (rewrite Hs2; by destruct s1).
  assert (Hconn : ∀ i' j' b, connected s2 i' j' b ↔ connected s i' j' b ∧ ¬ (true = true ∧ i' = i ∧ j' = j ∧ b = a)).
  { intros i' j' b. rewrite (connected_same s1 s2 i' j' b (same_lists_modules _ _ Hm2)). unfold connected. rewrite Hl1. case_decide as Hd.
    - destruct Hd as [-> ->]. rewrite Hls. split.
      + intros (l0 & [= <-] & Hb). split; [exists l; split; [done|]; rewrite Hperm; by right|]. intros (_ & _ & _ & ->). by rewrite Hc in Hout.
      + intros ((l0 & [= <-] & Hb) & Hne). exists rest. split; [done|]. rewrite Hperm in Hb. cbn [fmap list_fmap] in Hb.
        apply list.elem_of_cons in Hb as [->|Hb]; [|done]. destruct Hne. by rewrite Hc.
    - split; [intros ?; split; [done|]; naive_solver|]. by intros [? _]. }
  destruct rest as [|r0 rest].
  - eapply wp_mono; [apply (wp_enable base X i (λ x, Z.ldiff x imsk)); [apply Hk2|]|].
    { rewrite Hm2. unfold s1. destruct s. cbn. by rewrite length_insert. }
    cbv beta. intros [] s3 [Hk3 Hl3]. split; [eapply skel_kept_trans; [exact Hk1|by eapply skel_kept_trans]|].
    intros i' j' b. by rewrite (connected_same _ _ i' j' b Hl3).
  - wp_step. split; [by eapply skel_kept_trans|done].
Qed.

Lemma wp_disconnect_loop base X a i m imsk s : inv base X s → Modules s !! i = Some m →
  wp (mfold (λ _ j, disconnect_interrupt a i imsk j) () (seq 0 SkelDrvrINTERRUPTS)) (λ _ s', kept base X s s' ∧
    ∀ i' j' b, connected s' i' j' b ↔ connected s i' j' b ∧ ¬ (bit_of imsk j' ∧ i' = i ∧ b = a)) s.
Proof.
  intros Hi Hm.
  assert (Hgo : ∀ js s1, kept base X s s1 → Forall (λ j, (j < SkelDrvrINTERRUPTS)%nat) js →
    wp (mfold (λ _ j, disconnect_interrupt a i imsk j) () js) (λ _ s', kept base X s s' ∧
      ∀ i' j' b, connected s' i' j' b ↔ connected s1 i' j' b ∧ ¬ (truthy (Z.land imsk (bit j')) = true ∧ j' ∈ js ∧ i' = i ∧ b = a)) s1).
  { induction js as [|j js IH]; intros s1 Hk1 Hjs.
    { apply wp_ret. split; [done|]. intros i' j' b. split; [|by intros [? _]]. intros ?. split; [done|]. intros (_ & Hin & _). by apply not_elem_of_nil in Hin. }
    apply list.Forall_cons in Hjs as [Hj Hjs]. cbn [mfold]. wp_step.
    destruct (static_module _ _ i m (proj2 Hk1) Hm) as (m1 & Hm1 & _). eapply wp_mono; [apply (wp_disconnect_interrupt base X a i m1); [apply Hk1|done|done]|].
    cbv beta. intros [] s2 [Hk2 Hc2]. eapply wp_mono; [apply IH; [by eapply skel_kept_trans|done]|]. cbv beta.
    intros [] s3 [Hk3 Hc3]. split; [done|]. intros i' j' b. rewrite Hc3, Hc2, list.elem_of_cons. naive_solver. }
  eapply wp_mono; [apply Hgo; [by apply skel_kept_refl|]|].
  - apply list.Forall_forall. intros j Hj%elem_of_seq. lia.
  - cbv beta. intros [] s' [Hk Hc]. split; [done|]. intros i' j' b. rewrite Hc. unfold bit_of. rewrite elem_of_seq. naive_solver lia.
Qed.

(** ** Whole requests *)

Definition target (c : SkelDrvrClientContext) (conx : SkelDrvrConnection) : Z :=
  if conx_Module conx =? 0 then cl_ModuleNumber c else conx_Module conx.

Lemma find_mcon_some s n i : find_mcon s n = Some i →
  ∃ m, Modules s !! i = Some m ∧ ModuleNumber m = u32 n ∧ find_mcon s (ModuleNumber m) = Some i ∧ Z.of_nat i < InstalledModules s.
Proof.
  intros Hf. pose proof Hf as Hf'. unfold find_mcon in Hf. apply find_idx_lookup in Hf as [(m & Hm & Hn) _]. apply Z.eqb_eq in Hn.
  apply lookup_take_Some in Hm as [Hm Hlt]. exists m. split; [done|]. split; [done|]. split; [|lia].
  rewrite Hn. unfold find_mcon in *. by rewrite u32_idemp.
Qed.

Lemma full_mask j : (j < SkelDrvrINTERRUPTS)%nat → bit_of (2 ^ 32 - 1) j.
Proof.
  intros Hj. split; [|done]. unfold SkelDrvrINTERRUPTS in Hj. change (2 ^ 32 - 1) with (Z.ones 32).
  unfold truthy, bit. rewrite Z.land_comm, Z.land_ones by lia. rewrite Z.shiftl_1_l, Z.mod_small.
  - apply negb_true_iff, Z.eqb_neq. pose proof (Z.pow_pos_nonneg 2 (Z.of_nat j)). lia.
  - split; [apply Z.pow_nonneg; lia|]. apply Z.pow_lt_mono_r; lia.
Qed.

Lemma connected_installed base X s i j b : inv base X s → connected s i j b →
  ∃ m, Modules s !! i = Some m ∧ find_mcon s (ModuleNumber m) = Some i ∧ (j < SkelDrvrINTERRUPTS)%nat ∧ b ∈ dom (heap s) ∧ Z.of_nat i < InstalledModules s.
Proof.
  intros Hi (l & Hl & Hb). pose proof Hl as Hl'. unfold lists in Hl. destruct (Modules s !! i) as [m|] eqn:Hm; [|done]. cbn in Hl.
  exists m. split; [done|].
  assert (Hf : find_mcon s (ModuleNumber m) = Some i) by (eapply (iv_first _ _ _ Hi); [done|done|by intros ->; apply not_elem_of_nil in Hb]).
  split; [done|]. split; [|split].
  - destruct (iv_module _ _ _ Hi i m Hm) as (_ & _ & Hlen & _). apply lookup_lt_Some in Hl. lia.
  - apply list_elem_of_fmap in Hb as (e & -> & He). by apply (iv_lists _ _ _ Hi i j l Hl').
  - by destruct (find_mcon_some _ _ _ Hf) as (_ & _ & _ & _ & ?).
Qed.

Lemma wp_Connect sizeof_client_link base X a c conx s : (∀ n (k : K), fits (kmalloc n k).1) → inv base X s → heap s !! a = Some c →
  wp (Connect sizeof_client_link a conx) (λ _ s', kept base X s s' ∧
    ∀ i j b, connected s' i j b ↔ connected s i j b ∨ (find_mcon s (target c conx) = Some i ∧ bit_of (ConMask conx) j ∧ b = a)) s.
Proof.
  intros plenty Hi Hc. unfold Connect, conx_mcon, get_mcon. wp_step. apply (wp_ccon a c); [done|]. wp_step. wp_step. fold (target c conx).
  destruct (find_mcon s (target c conx)) as [i|] eqn:Hf.
  - destruct (find_mcon_some _ _ _ Hf) as (m & Hm & _ & Hf' & _).
    eapply wp_mono; [apply (wp_connect plenty sizeof_client_link base X a i m); [done|done|done|apply elem_of_dom; by eexists]|].
    cbv beta. intros [] s' [Hk Hcs]. split; [done|]. intros i' j b. rewrite Hcs. naive_solver.
  - wp_step. split; [by apply skel_kept_refl|]. naive_solver.
Qed.

(** The interrupts that a mask takes away. *)
Definition leaves (imsk : Z) : Z := if imsk =? 0 then 2 ^ 32 - 1 else imsk.

Lemma wp_DisConnect base X a c conx s : inv base X s → heap s !! a = Some c →
  wp (DisConnect a conx) (λ mask s', kept base X s s' ∧ (mask = ConMask conx ∨ mask = leaves (ConMask conx)) ∧
    ∀ i j b, connected s' i j b ↔ connected s i j b ∧ ¬ (find_mcon s (target c conx) = Some i ∧ bit_of (leaves (ConMask conx)) j ∧ b = a)) s.
Proof.
  intros Hi Hc. unfold DisConnect, conx_mcon, get_mcon. wp_step. apply (wp_ccon a c); [done|]. wp_step. wp_step. fold (target c conx).
  destruct (find_mcon s (target c conx)) as [i|] eqn:Hf.
  - destruct (find_mcon_some _ _ _ Hf) as (m & Hm & _ & Hf' & _). cbv zeta.
    assert (Hmask : (if ConMask conx =? 0 then u32 (Z.lnot (ConMask conx)) else ConMask conx) = leaves (ConMask conx)).
    { unfold leaves. by destruct (Z.eqb_spec (ConMask conx) 0) as [->|]. }
    rewrite Hmask. wp_step. eapply wp_mono; [apply (wp_disconnect_loop base X a i m); done|].
    cbv beta. intros [] s' [Hk Hcs]. wp_step. split; [done|]. split; [by right|]. intros i' j b. rewrite Hcs. naive_solver.
  - wp_step. split; [by apply skel_kept_refl|]. split; [by left|]. naive_solver.
Qed.

Lemma wp_DisConnectAll base X a s : inv base X s → a ∈ dom (heap s) →
  wp (DisConnectAll a) (λ _ s', kept base X s s' ∧ ∀ i j b, connected s' i j b ↔ connected s i j b ∧ b ≠ a) s.
Proof.
  intros Hi Ha. unfold DisConnectAll. wp_step. wp_step.
  assert (Hgo : ∀ ns mask s1, kept base X s s1 → (mask = 0 ∨ mask = 2 ^ 32 - 1) → Forall (λ i, Z.of_nat i < InstalledModules s) ns →
    wp (mfold (λ mask i, m ← mcon_at i; DisConnect a (mk_connection (ModuleNumber m) mask)) mask ns)
      (λ _ s', kept base X s s' ∧ (∀ i j b, connected s' i j b → connected s1 i j b) ∧
        (∀ i j b, b ≠ a → connected s1 i j b → connected s' i j b) ∧ ∀ i j, i ∈ ns → ¬ connected s' i j a) s1).
  { induction ns as [|i ns IH]; intros mask s1 Hk1 Hmask Hns.
    { apply wp_ret. split; [done|]. split; [done|]. split; [done|]. intros i j Hin. by apply not_elem_of_nil in Hin. }
    apply list.Forall_cons in Hns as [Hin Hns]. cbn [mfold]. wp_step. pose proof (proj1 Hk1) as Hi1.
    assert (Hm : ∃ m, Modules s1 !! i = Some m).
    { apply lookup_lt_is_Some_2. rewrite (iv_modules _ _ _ Hi1). pose proof (iv_installed _ _ _ Hi). lia. }
    destruct Hm as [m Hm]. wp_step. apply (wp_mcon i m); [done|].
    assert (Hc : ∃ c, heap s1 !! a = Some c) by (apply elem_of_dom; by rewrite (sta_heap _ _ (proj2 Hk1))). destruct Hc as [c Hc].
    destruct (iv_module _ _ _ Hi1 i m Hm) as (Hu & Hnz & _). rewrite (sta_installed _ _ (proj2 Hk1)) in Hnz. specialize (Hnz Hin).
    eapply wp_mono; [apply (wp_DisConnect base X a c); done|]. cbv beta. intros mask' s2 (Hk2 & Hmask' & Hc2). cbn [ConMask conx_Module] in *.
    assert (Hleaves : leaves mask = 2 ^ 32 - 1) by by destruct Hmask as [->| ->].
    rewrite Hleaves in *.
    eapply wp_mono; [apply (IH mask' s2); [by eapply skel_kept_trans|naive_solver|done]|]. cbv beta. intros mask3 s3 (Hk3 & Hdown & Hup & Hgone).
    split; [done|]. split; [|split].
    - intros i' j b Hb. by apply Hdown, Hc2 in Hb as [? _].
    - intros i' j b Hne Hb. apply Hup; [done|]. apply Hc2. split; [done|]. by intros (_ & _ & ->).
    - intros i' j [->|Hin']%list.elem_of_cons; [|by apply Hgone]. intros Hb. apply Hdown, Hc2 in Hb as [Hb Hne].
      destruct (connected_installed base X s1 i j a Hi1 Hb) as (m' & Hm' & Hf & Hj & _). assert (m' = m) as -> by congruence.
      apply Hne. split; [|split; [by apply full_mask|done]]. unfold target. cbn [conx_Module]. by rewrite (proj2 (Z.eqb_neq _ 0)). }
  wp_step. eapply wp_mono; [apply (Hgo (seq 0 (Z.to_nat (InstalledModules s))) 0 s); [by apply skel_kept_refl|by left|]|].
  - apply list.Forall_forall. intros i Hin%elem_of_seq. pose proof (iv_installed _ _ _ Hi). lia.
  - cbv beta. intros mask s' (Hk & Hdown & Hup & Hgone). wp_step. split; [done|]. intros i j b. split.
    + intros Hb. split; [by apply Hdown|]. intros ->.
      destruct (connected_installed base X s' i j a (proj1 Hk) Hb) as (_ & _ & _ & _ & _ & Hin). rewrite (sta_installed _ _ (proj2 Hk)) in Hin.
      apply (Hgone i j); [|done]. apply elem_of_seq. lia.
    + intros [Hb Hne]. by apply Hup.
Qed.

(** * Clients *)

(** The open file of a client: the first context with this file pointer. *)
Definition file_of (s : skel K B) (flp : Z) : option Z :=
  k ← find_idx (λ e, match heap s !! context e with Some c => cdcmf c =? flp | None => false end) (wa_clients s);
  context <$> wa_clients s !! k.

Lemma wp_get_ccon base X flp (Q : option Z → skel K B → Prop) s : inv base X s →
  (∀ a c, file_of s flp = Some a → a ∈ context <$> wa_clients s → heap s !! a = Some c → Q (Some a) s) →
  (file_of s flp = None → Q None s) → wp (skel_get_ccon flp) Q s.
Proof.
  intros Hi HQ1 HQ0. unfold skel_get_ccon. wp_step. wp_step.
  assert (Hel : ∀ e, e ∈ wa_clients s → is_Some (heap s !! context e)).
  { intros e He. apply elem_of_dom. destruct (iv_clients _ _ _ Hi) as (_ & -> & _). apply elem_of_union. left.
    apply elem_of_list_to_set, list_elem_of_fmap. by exists e. }
  assert (HQ : ∀ a, file_of s flp = Some a → Q (Some a) s).
  { intros a Hf. pose proof Hf as Hf'. unfold file_of in Hf. destruct (find_idx _ _) as [k|]; [|done]. cbn in Hf.
    destruct (wa_clients s !! k) as [e|] eqn:He; [|done]. injection Hf as <-. apply list_elem_of_lookup_2 in He.
    destruct (Hel e He) as [c Hc]. apply (HQ1 _ c); [done| |done]. apply list_elem_of_fmap. by exists e. }
  clear HQ1. unfold file_of in HQ, HQ0. revert Hel HQ HQ0. generalize (wa_clients s). induction l as [|e l IH]; intros Hel HQ HQ0; cbn [find_ccon].
  { wp_step. by apply HQ0. }
  destruct (Hel e ltac:(by left)) as [c Hc]. wp_step. apply (wp_ccon _ c); [done|]. cbn [find_idx] in HQ, HQ0. rewrite Hc in HQ, HQ0.
  destruct (cdcmf c =? flp); [wp_step; by apply HQ|]. apply IH.
  - intros x Hx. apply Hel. by right.
  - intros a Ha. apply HQ. destruct (find_idx _ l); [done|done].
  - intros Hn. apply HQ0. destruct (find_idx _ l) as [k|]; [|done]. exact Hn.
Qed.

Lemma wp_reset_queue base X a c s : inv base X s → heap s !! a = Some c →
  wp (reset_queue offsetof_Semaphore msecs_to_jiffies a) (λ _ s', kept base X s s' ∧ Modules s' = Modules s ∧ heap s' = <[a := c <| Queue := queue_reset (Queue c) |>]> (heap s)) s.
Proof.
  intros Hi Hc. destruct (iv_heap _ _ _ Hi a c Hc) as (_ & Hq & Hm). unfold reset_queue. wp_step.
  eapply wp_upd_ccon; [done|done| |by destruct c|].
  { pose proof (queue_holds_ok _ _ (queue_reset_holds _ Hq)) as Hq'. by destruct c. }
  intros s1 Hs1 Hk1. wp_step. eapply wp_sem_short; [apply Hk1|by right|]. intros r w _ Hk2. wp_step.
  split; [by eapply skel_kept_trans|]. rewrite Hs1. by destruct s.
Qed.

(** A context is new; it is of no list yet. *)
Lemma inv_new base s a c : inv ({[+ blk a +]} ⊎ base) ∅ s → heap s !! a = None → good_ptr a →
  queue_ok (Queue c) → is_Some (find_mcon s (cl_ModuleNumber c)) → inv base {[a]} (s <| heap := <[a := c]> (heap s) |>).
Proof.
  intros [H1' H2' H3' H4' H5' H6' H7' H8' H9' H10'] Ha Hp Hq Hm. destruct s as [ms n wc h w ic b u]. cbn in *.
  assert (Hd : ∀ x, x ∈ dom h → x ∈ dom (<[a := c]> h)) by (intros x Hx; rewrite dom_insert_L; set_solver).
  split; cbn; try done.
  - intros i j l Hl. destruct (H5' i j l Hl) as [Hnd Hel]. split; [done|]. intros e He. destruct (Hel e He). auto.
  - destruct H6' as (Hnd & Hdom & _ & Hg). split; [done|]. split; [rewrite dom_insert_L; set_solver|]. split; [|done].
    intros x ->%elem_of_singleton Hin. apply not_elem_of_dom in Ha. apply Ha. rewrite Hdom. apply elem_of_union. left. by apply elem_of_list_to_set.
  - intros x cx [[<- <-]|[_ Hx]]%lookup_insert_Some; [done|by apply H7'].
  - assert (Ho : owned (mk_skel ms n wc (<[a:=c]> h) w ic b u) ⊎ base = owned (mk_skel ms n wc h w ic b u) ⊎ ({[+ blk a +]} ⊎ base)); [|by rewrite Ho].
    unfold owned. cbn [heap wa_clients Modules]. rewrite heap_blocks_insert by done. clear. multiset_solver.
  - intros t x r Ht. specialize (H9' t x r Ht). destruct x; auto.
Qed.

(** A context that is on no list, and in which nobody reads, goes. *)
Lemma inv_gone base s a : inv base {[a]} s → (∀ i j, ¬ connected s i j a) → (∀ t timed r, in_calls s !! t ≠ Some (InRead a timed, r)) →
  inv ({[+ blk a +]} ⊎ base) ∅ (s <| heap := delete a (heap s) |>).
Proof.
  intros [H1' H2' H3' H4' H5' H6' H7' H8' H9' H10'] Hc Ht. destruct s as [ms n wc h w ic b u]. cbn in *.
  destruct H6' as (Hnd & Hdom & Hx & Hg).
  assert (Ha : ∃ c, h !! a = Some c) by (apply elem_of_dom; rewrite Hdom; set_solver). destruct Ha as [c Ha].
  split; cbn; try done.
  - intros i j l Hl. destruct (H5' i j l Hl) as [Hndl Hel]. split; [done|]. intros e He. destruct (Hel e He) as [Hed Heg]. split; [|done].
    rewrite dom_delete_L. apply elem_of_difference. split; [done|]. intros Heq%elem_of_singleton. apply (Hc i j). exists l. split; [done|].
    rewrite <- Heq. apply list_elem_of_fmap. by exists e.
  - split; [done|]. split; [|split; [set_solver|done]]. rewrite dom_delete_L, Hdom. specialize (Hx a ltac:(set_solver)).
    apply set_eq. intros x. rewrite elem_of_difference, !elem_of_union, elem_of_list_to_set, elem_of_singleton. set_solver.
  - intros x cx [_ Hcx]%lookup_delete_Some. by apply H7'.
  - assert (Ho : owned (mk_skel ms n wc (delete a h) w ic b u) ⊎ ({[+ blk a +]} ⊎ base) = owned (mk_skel ms n wc h w ic b u) ⊎ base); [|exact (eq_ind_r (λ x, world_ok x w) H8' Ho)].
    unfold owned. cbn [heap wa_clients Modules]. rewrite (heap_blocks_delete h a c) by done. clear. multiset_solver.
  - intros t x r Htx. pose proof (H9' t x r Htx) as Hok. destruct x as [a' timed|i]; [|done]. rewrite dom_delete_L. apply elem_of_difference.
    split; [done|]. intros ->%elem_of_singleton. by eapply Ht.
Qed.

(** The list of clients takes over a new context, or gives one up. *)
Lemma inv_enlist base s p a : inv ({[+ blk p +]} ⊎ base) {[a]} s → good_ptr p →
  inv base ∅ (s <| wa_clients := mk_link p a :: wa_clients s |>).
Proof.
  intros [H1' H2' H3' H4' H5' H6' H7' H8' H9' H10'] Hp. destruct s as [ms n wc h w ic b u]. cbn in *.
  destruct H6' as (Hnd & Hdom & Hx & Hg). split; cbn; try done.
  - split; [apply list.NoDup_cons; split; [by apply Hx, elem_of_singleton|done]|]. split; [rewrite Hdom; set_solver|]. split; [set_solver|].
    intros e [->|He]%list.elem_of_cons; [done|by apply Hg].
  - assert (Ho : owned (mk_skel ms n (mk_link p a :: wc) h w ic b u) ⊎ base = owned (mk_skel ms n wc h w ic b u) ⊎ ({[+ blk p +]} ⊎ base)); [|exact (eq_ind_r (λ x, world_ok x w) H8' Ho)].
    unfold owned. cbn [heap wa_clients Modules]. unfold list_blocks. rewrite msum_cons. unfold link_block at 1. cbn [link_addr]. clear. multiset_solver.
Qed.

Lemma inv_delist base s k e : inv base ∅ s → wa_clients s !! k = Some e →
  inv ({[+ blk (link_addr e) +]} ⊎ base) {[context e]} (s <| wa_clients := take k (wa_clients s) ++ drop (S k) (wa_clients s) |>).
Proof.
  intros [H1' H2' H3' H4' H5' H6' H7' H8' H9' H10'] He. destruct s as [ms n wc h w ic b u]. cbn in *.
  destruct H6' as (Hnd & Hdom & _ & Hg). set (rest := take k wc ++ drop (S k) wc).
  assert (Hperm : wc ≡ₚ e :: rest) by (rewrite <- (take_drop_middle wc k e He) at 1; unfold rest; by rewrite Permutation_middle).
  clearbody rest. assert (Hnd' : context e ∉ context <$> rest ∧ NoDup (context <$> rest)).
  { rewrite Hperm in Hnd. cbn [fmap list_fmap] in Hnd. by apply list.NoDup_cons in Hnd. }
  split; cbn; try done.
  - split; [apply Hnd'|]. split; [|split].
    + rewrite Hdom, (right_id_L ∅ (∪)). apply set_eq. intros x. rewrite elem_of_union, !elem_of_list_to_set, Hperm. cbn [fmap list_fmap].
      rewrite list.elem_of_cons, elem_of_singleton. tauto.
    + intros x ->%elem_of_singleton. apply Hnd'.
    + intros x Hx. apply Hg. rewrite Hperm. by right.
  - assert (Ho : owned (mk_skel ms n rest h w ic b u) ⊎ ({[+ blk (link_addr e) +]} ⊎ base) = owned (mk_skel ms n wc h w ic b u) ⊎ base); [|exact (eq_ind_r (λ x, world_ok x w) H8' Ho)].
    unfold owned. cbn [heap wa_clients Modules]. unfold list_blocks. rewrite (msum_perm _ _ _ Hperm), msum_cons. unfold link_block at 2. clear. multiset_solver.
Qed.

(** What opening and closing leave as it was. *)
Definition aside (s s' : skel K B) : Prop :=
  InstalledModules s' = InstalledModules s ∧ in_calls s' = in_calls s ∧ asleep (semas_of s') = asleep (semas_of s) ∧
  ModuleNumber <$> Modules s' = ModuleNumber <$> Modules s.

Lemma static_aside s s' : static s s' → aside s s'.
Proof. intros []. by split_and!. Qed.

Lemma aside_trans s1 s2 s3 : aside s1 s2 → aside s2 s3 → aside s1 s3.
Proof. intros (?&?&?&?) (?&?&?&?). split_and!; congruence. Qed.

Lemma wp_free_ccon base a s : inv base {[a]} s → (∀ i j, ¬ connected s i j a) → (∀ t timed r, in_calls s !! t ≠ Some (InRead a timed, r)) →
  wp (free_ccon a) (λ _ s', inv base ∅ s' ∧ aside s s' ∧ same_lists s s' ∧ wa_clients s' = wa_clients s) s.
Proof.
  intros Hi Hc Ht. assert (Ha : ∃ c, heap s !! a = Some c).
  { apply elem_of_dom. destruct (iv_clients _ _ _ Hi) as (_ & -> & _). set_solver. }
  destruct Ha as [c Ha]. unfold free_ccon. wp_step. apply (wp_ccon a c); [done|]. wp_step. wp_step.
  pose proof (inv_gone base s a Hi Hc Ht) as Hi'.
  apply (wp_sysfree base ∅ a); [done|exact (proj1 (iv_heap _ _ _ Hi a c Ha))|]. intros s' Hk' [w ->].
  split; [apply Hk'|]. split; [eapply aside_trans; [|apply static_aside, Hk']; by destruct s|]. by destruct s.
Qed.

Section open_close.
Hypothesis plenty : ∀ n (k : K), fits (kmalloc n k).1.
Variables sizeof_client_link sizeof_ccon : Z.

Lemma fresh_unused base s p : inv base ∅ s → heap s !! p = None →
  (∀ i j, ¬ connected s i j p) ∧ ∀ t timed r, in_calls s !! t ≠ Some (InRead p timed, r).
Proof.
  intros Hi Hp. split.
  - intros i j Hc. destruct (connected_installed _ _ _ _ _ _ Hi Hc) as (_ & _ & _ & _ & Hd & _). by apply not_elem_of_dom in Hp.
  - intros t timed r Ht. apply (iv_calls _ _ _ Hi) in Ht. by apply not_elem_of_dom in Hp.
Qed.

Lemma wp_client_init base a flp pid s : inv ({[+ blk a +]} ⊎ base) ∅ s → heap s !! a = None → good_ptr a →
  wp (client_init offsetof_Semaphore msecs_to_jiffies a flp pid) (λ _ s', inv base {[a]} s' ∧ aside s s' ∧ same_lists s s' ∧
    wa_clients s' = wa_clients s ∧ (∃ c, heap s' = <[a := c]> (heap s) ∧ cdcmf c = flp ∧ Pid c = pid ∧ queue_holds (Queue c) [])) s.
Proof.
  intros Hi Ha Hp. pose proof (iv_installed _ _ _ Hi) as Hn. unfold client_init. rewrite (proj2 Hp). wp_step. wp_step. wp_step. wp_step. wp_step.
  unfold truthy. rewrite (proj2 (Z.eqb_neq (InstalledModules s) 0)) by lia. cbn [negb].
  destruct (lookup_lt_is_Some_2 (Modules s) 0) as [m Hm]; [rewrite (iv_modules _ _ _ Hi); lia|].
  wp_step. apply (wp_mcon 0 m); [done|]. wp_step. wp_step. wp_step.
  assert (Hf : is_Some (find_mcon s (ModuleNumber m))).
  { unfold find_mcon. destruct (find_idx _ _) as [k|] eqn:E; [done|]. pose proof (proj1 (find_idx_None _ _) E) as Hall.
    specialize (Hall m). cbn in Hall. rewrite u32_small, Z.eqb_refl in Hall by by eapply (iv_module _ _ _ Hi 0%nat). exfalso. assert (true = false); [|done]. apply Hall.
    apply list_elem_of_lookup. exists 0%nat. rewrite lookup_take_lt; [done|lia]. }
  set (c := mk_client pid _ 0 zero_queue 0 _ flp).
  pose proof (inv_new base s a c Hi Ha Hp (queue_holds_ok _ _ zero_queue_holds) Hf) as Hi1. set (s1 := s <| heap := _ |>) in *.
  assert (Hs1 : aside s s1 ∧ same_lists s s1 ∧ wa_clients s1 = wa_clients s ∧ heap s1 = <[a := c]> (heap s)) by (unfold s1; by destruct s).
  clearbody s1. destruct Hs1 as (Has1 & Hl1 & Hwc1 & Hh1).
  wp_step. eapply wp_mono; [apply (wp_reset_queue base {[a]} a c); [done|by rewrite Hh1, lookup_insert_eq]|].
  cbv beta. intros [] s2 (Hk2 & Hm2 & Hh2). wp_step. eapply wp_user; [apply Hk2|]. intros r b s3 _ Hs3 Hk3. wp_step.
  assert (Hl3 : same_lists s1 s3) by (apply same_lists_modules; rewrite Hs3; by destruct s2).
  assert (Hh3 : heap s3 = heap s2) by (rewrite Hs3; by destruct s2).
  split; [apply Hk3|]. split; [eapply aside_trans; [done|eapply aside_trans; apply static_aside; [apply Hk2|apply Hk3]]|].
  split; [by eapply same_lists_trans|]. split; [by rewrite (sta_clients _ _ (proj2 Hk3)), (sta_clients _ _ (proj2 Hk2))|].
  exists (c <| Queue := queue_reset (Queue c) |>). rewrite Hh3, Hh2, Hh1, insert_insert_eq. split_and!; try done. exact zero_queue_holds.
Qed.

(** The client is opened, or nothing happens: no lists change but that of the clients. *)
Lemma wp_open base flp pid s : inv base ∅ s →
  wp (SkelDrvrOpen sizeof_client_link sizeof_ccon offsetof_Semaphore msecs_to_jiffies flp pid) (λ rc s', inv base ∅ s' ∧ aside s s' ∧ same_lists s s' ∧
    ((rc = OK ∧ ∃ a c, heap s !! a = None ∧ context <$> wa_clients s' = a :: (context <$> wa_clients s) ∧
        heap s' !! a = Some c ∧ cdcmf c = flp ∧ Pid c = pid ∧ queue_holds (Queue c) []) ∨
     (rc = - EBADF ∧ wa_clients s' = wa_clients s))) s.
Proof.
  intros Hi. unfold SkelDrvrOpen. wp_step. eapply wp_sysbrk; [done|done|]. intros a s1 Ha Hfresh Hk1 [w1 ->].
  assert (Hs1 : heap (s <| semas_of := w1 |>) = heap s ∧ same_lists s (s <| semas_of := w1 |>)) by by destruct s.
  destruct Hs1 as [Hh1 Hl1]. set (s1 := s <| semas_of := w1 |>) in *. clearbody s1.
  rewrite (proj2 (Z.eqb_neq a 0)) by apply Ha.
  wp_step. eapply wp_mono; [apply (wp_client_init base a flp pid s1); [apply Hk1|by rewrite Hh1|done]|].
  cbv beta. intros r s2 (Hi2 & Has2 & Hl2 & Hwc2 & c & Hh2 & Hf & Hpid & Hq).
  destruct (fresh_unused _ _ a Hi Hfresh) as [Hnc Hnr].
  assert (Has : aside s s2) by (eapply aside_trans; [apply static_aside, Hk1|done]).
  assert (Hl : same_lists s s2) by by eapply same_lists_trans.
  assert (Hwc : wa_clients s2 = wa_clients s) by (rewrite Hwc2; apply (sta_clients _ _ (proj2 Hk1))).
  wp_step.
  - wp_step. eapply wp_mono; [apply (wp_free_ccon base); [done| |]|].
    + intros i j. by rewrite (connected_same s s2).
    + intros t timed r'. destruct Has as (_ & -> & _). apply Hnr.
    + cbv beta. intros [] s3 (Hi3 & Has3 & Hl3 & Hwc3). wp_step. split; [done|]. split; [by eapply aside_trans|].
      split; [by eapply same_lists_trans|]. right. split; [done|congruence].
  - wp_step. unfold skel_add_ccon. wp_step. eapply wp_sysbrk; [done|done|]. intros p s3 Hp _ Hk3 [w3 ->].
    rewrite (proj2 (Z.eqb_neq p 0)), (proj2 Hp) by apply Hp. cbv zeta. wp_steps.
    pose proof (inv_enlist base (s2 <| semas_of := w3 |>) p a (proj1 Hk3) Hp) as Hi4.
    split; [exact Hi4|]. split; [eapply aside_trans; [exact Has|eapply aside_trans; [apply static_aside, Hk3|by destruct s2]]|].
    split; [eapply same_lists_trans; [exact Hl|by destruct s2]|].
    left. split; [done|]. exists a, c. destruct s2 as [ms n wc h w ic b u]. cbn in *. split; [done|]. split; [by rewrite Hwc|].
    rewrite Hh2, lookup_insert_eq. done.
Qed.
End open_close.

(** The client is off every list, and its memory is free. *)
Lemma wp_close base flp s : inv base ∅ s →
  (∀ a t timed r, file_of s flp = Some a → in_calls s !! t ≠ Some (InRead a timed, r)) →
  wp (SkelDrvrClose flp) (λ rc s', inv base ∅ s' ∧ aside s s' ∧
    match file_of s flp with
    | None => rc = - EBADF ∧ s' = s
    | Some a => rc = OK ∧ (∀ b, b ∈ context <$> wa_clients s' ↔ b ∈ context <$> wa_clients s ∧ b ≠ a) ∧
        ∀ i j b, connected s' i j b ↔ connected s i j b ∧ b ≠ a
    end) s.
Proof.
  intros Hi Hr. unfold SkelDrvrClose. wp_step. apply (wp_get_ccon base ∅); [done| |].
  2:{ intros Hn. wp_step. rewrite Hn. split; [done|]. split; [by split_and!|done]. }
  intros a c Hf Ha Hc. rewrite Hf. wp_step. unfold do_close.
  wp_step. eapply wp_mono; [apply (wp_DisConnectAll base ∅ a); [done|apply elem_of_dom; by eexists]|]. cbv beta. intros [] s1 [Hk1 Hc1].
  wp_step. eapply wp_user_do; [apply Hk1|]. intros s2 Hs2 Hk2.
  assert (Hl2 : same_lists s1 s2) by (apply same_lists_modules; rewrite Hs2; by destruct s1).
  assert (Hwc2 : wa_clients s2 = wa_clients s) by (rewrite (sta_clients _ _ (proj2 Hk2)); apply (sta_clients _ _ (proj2 Hk1))).
  wp_step. unfold skel_remove_ccon. wp_step. wp_step. pose proof (get_client_spec a (wa_clients s2)) as Hget.
  destruct (get_client a (wa_clients s2)) as [k|]; [|by rewrite Hwc2 in Hget].
  destruct Hget as (e & He & Hce & _). wp_step. eapply wp_lift_opt; [done|]. wp_step. wp_step.
  pose proof (inv_delist base s2 k e (proj1 Hk2) He) as Hi3. set (s3 := s2 <| wa_clients := _ |>) in *.
  assert (Hs3 : aside s2 s3 ∧ same_lists s2 s3 ∧ wa_clients s3 = take k (wa_clients s2) ++ drop (S k) (wa_clients s2)) by (unfold s3; by destruct s2).
  clearbody s3. destruct Hs3 as (Has3 & Hl3 & Hwc3). rewrite Hce in Hi3.
  apply (wp_sysfree base {[a]} (link_addr e)); [done| |].
  { destruct (iv_clients _ _ _ (proj1 Hk2)) as (_ & _ & _ & Hg). apply Hg. by eapply list_elem_of_lookup_2. }
  intros s4 Hk4 [w4 Hs4]. assert (Hl4 : same_lists s3 s4) by (apply same_lists_modules; rewrite Hs4; by destruct s3).
  assert (Hcs4 : ∀ i j b, connected s4 i j b ↔ connected s i j b ∧ b ≠ a).
  { intros i j b. rewrite (connected_same _ _ i j b Hl4), (connected_same _ _ i j b Hl3), (connected_same _ _ i j b Hl2). apply Hc1. }
  assert (Has4 : aside s s4).
  { eapply aside_trans; [apply static_aside, Hk1|]. eapply aside_trans; [apply static_aside, Hk2|].
    eapply aside_trans; [done|]. apply static_aside, Hk4. }
  eapply wp_mono; [apply (wp_free_ccon base a); [apply Hk4| |]|].
  - intros i j Hcc. by apply Hcs4 in Hcc as [_ ?].
  - intros t timed r. destruct Has4 as (_ & -> & _). by apply Hr.
  - cbv beta. intros [] s5 (Hi5 & Has5 & Hl5 & Hwc5). wp_step. split; [done|]. split; [by eapply aside_trans|]. split; [done|]. split.
    + intros b. rewrite Hwc5, (sta_clients _ _ (proj2 Hk4)), Hwc3.
      destruct (iv_clients _ _ _ (proj1 Hk2)) as (Hnd & _). rewrite <- (take_drop_middle _ _ _ He) in Hnd. rewrite <- Hwc2.
      rewrite <- (take_drop_middle _ _ _ He) at 3. rewrite !fmap_app in *. cbn [fmap list_fmap] in *. rewrite Hce in *.
      rewrite Permutation_app_comm in Hnd. cbn [app] in Hnd. apply list.NoDup_cons in Hnd as [Hout _]. rewrite elem_of_app in Hout.
      rewrite !elem_of_app, list.elem_of_cons. naive_solver.
    + intros i j b. rewrite (connected_same _ _ i j b Hl5). apply Hcs4.
Qed.

(** * Reading and interrupts *)

Lemma wp_interrupt base X i m s : inv base X s → Modules s !! i = Some m →
  wp (IntrHandler offsetof_Semaphore msecs_to_jiffies i) (λ _ s', let '((t, imask), _) := SkelUserGetInterruptSource i (hardware s) in
    delivered base X (λ a, if imask =? 0 then [] else entries_for (mk_read_buf (mk_connection (ModuleNumber m) 0) t) imask s i a) s s') s.
Proof.
  intros Hi Hm. unfold IntrHandler. wp_step. apply (wp_mcon i m); [done|]. wp_step. eapply wp_user; [done|].
  intros [t imask] b s1 E Hs1 Hk1. rewrite E. cbv beta iota.
  assert (Hm1 : Modules s1 = Modules s ∧ heap s1 = heap s) by (rewrite Hs1; by destruct s). destruct Hm1 as [Hm1 Hh1].
  assert (H1' : delivered base X (λ _, []) s s1).
  { split; [done|]. split; [done|]. intros a c Ha. exists c. rewrite Hh1. split; [done|constructor]. }
  destruct (imask =? 0); wp_step; [done|].
  eapply wp_mono; [apply wp_fill_clients; [apply Hk1|rewrite Hm1; by eapply lookup_lt_Some]|]. cbv beta. intros [] s2 Hd2. wp_step.
  apply (delivered_app _ _ (λ _, []) _ _ s1); [done|]. eapply delivered_ext; [|done].
  intros a. unfold entries_for, interrupt_entry, lists. by rewrite Hm1.
Qed.

Lemma wp_SkelDrvrWrite base X conx s : inv base X s →
  wp (SkelDrvrWrite offsetof_Semaphore msecs_to_jiffies conx) (λ _ s', kept base X s s') s.
Proof.
  intros Hi. unfold SkelDrvrWrite, get_mcon. wp_step. wp_step. destruct (find_mcon s (conx_Module conx)) as [i|] eqn:Hf; [|wp_step; by apply skel_kept_refl].
  destruct (find_mcon_some _ _ _ Hf) as (m & Hm & _). wp_step. eapply wp_user; [done|]. intros t b s1 _ Hs1 Hk1. wp_step.
  eapply wp_mono; [apply wp_fill_clients; [apply Hk1|rewrite Hs1; destruct s; by eapply lookup_lt_Some]|]. cbv beta. intros [] s2 (Hk2 & _). wp_step. by eapply skel_kept_trans.
Qed.

Lemma wp_client_timeout base X a s : inv base X s → a ∈ dom (heap s) → wp (client_timeout a) (λ _ s', kept base X s s') s.
Proof.
  intros Hi [c Hc]%elem_of_dom. destruct (iv_heap _ _ _ Hi a c Hc) as (_ & Hq & Hm). unfold client_timeout.
  eapply wp_upd_ccon; [done|done|destruct c as [? ? ? []]; exact Hq|by destruct c|]. by intros s' _ Hk.
Qed.

Lemma wp_read_end base X a timed cc s : inv base X s → a ∈ dom (heap s) → wp (SkelDrvrRead_end a timed cc) (λ _ s', kept base X s s') s.
Proof.
  intros Hi Ha. unfold SkelDrvrRead_end. destruct (truthy cc).
  - wp_step. destruct timed.
    + eapply wp_mono; [by eapply wp_client_timeout|]. cbv beta. intros [] s' Hk. by wp_step.
    + wp_step. wp_step. by apply skel_kept_refl.
  - apply elem_of_dom in Ha as [c Hc]. destruct (iv_heap _ _ _ Hi a c Hc) as (_ & Hq & Hm).
    wp_step. apply (wp_ccon a c); [done|]. destruct (q_get_ok _ Hq) as (rb & q & E & Hq'). wp_step. eapply wp_lift_opt; [done|]. cbv beta iota.
    wp_step. eapply wp_upd_ccon; [done|done|by destruct c|by destruct c|]. intros s' _ Hk. by wp_step.
Qed.

Lemma wp_mcon_status base X i f s : inv base X s → (i < length (Modules s))%nat → wp (set_status i f) (λ _ s', kept base X s s') s.
Proof.
  intros Hi [m Hm]%lookup_lt_is_Some_2. unfold set_status. eapply wp_upd_mcon; [done|done|by destruct m|by destruct m|by destruct m|]. by intros s' Hk _ _.
Qed.

(** * Requests *)

Variable module_Semaphore : nat → Z.

Lemma wp_Reset base X i s : inv base X s → (i < length (Modules s))%nat →
  wp (Reset module_Semaphore msecs_to_jiffies i) (λ _ s', kept base X s s') s.
Proof.
  intros Hi [m Hm]%lookup_lt_is_Some_2. unfold Reset. wp_step. eapply wp_user_do; [done|]. intros s1 Hs1 Hk1.
  unfold enable_interrupts. wp_step. wp_step. apply (wp_mcon i m); [rewrite Hs1; by destruct s|]. eapply wp_user_do; [apply Hk1|]. intros s2 Hs2 Hk2.
  wp_step. eapply wp_sem_short; [apply Hk2|by right|]. intros r3 w3 _ Hk3.
  wp_step. eapply wp_sem_short; [apply Hk3|by left|]. intros r4 w4 _ Hk4. wp_step.
  eapply skel_kept_trans; [exact Hk1|]. eapply skel_kept_trans; [exact Hk2|]. by eapply skel_kept_trans.
Qed.

Lemma wp_UnLock base X i s : inv base X s → wp (UnLockModule module_Semaphore msecs_to_jiffies i) (λ _ s', kept base X s s') s.
Proof. intros Hi. unfold UnLockModule. wp_step. eapply wp_sem_short; [done|by left|]. intros r w _ Hk. by wp_step. Qed.

(** A loop that only looks. *)
Lemma wp_look_loop {A C} (f : C → A → M (skel K B) C) l s : (∀ x acc, x ∈ l → wp (f acc x) (λ _ s', s' = s) s) →
  ∀ acc, wp (mfold f acc l) (λ _ s', s' = s) s.
Proof.
  induction l as [|x l IH]; intros Hf acc; [by apply wp_ret|]. cbn [mfold]. wp_step.
  eapply wp_mono; [apply Hf; by left|]. cbv beta. intros acc' s' ->. apply IH. intros y acc2 Hy. apply Hf. by right.
Qed.

Lemma wp_client_list base X s : inv base X s → wp skel_get_client_list (λ _ s', s' = s) s.
Proof.
  intros Hi. unfold skel_get_client_list. wp_step. wp_step. apply wp_look_loop. intros e acc He. wp_step; [by wp_step|].
  assert (Hc : ∃ c, heap s !! context e = Some c).
  { apply elem_of_dom. destruct (iv_clients _ _ _ Hi) as (_ & -> & _). apply elem_of_union. left. apply elem_of_list_to_set, list_elem_of_fmap. by exists e. }
  destruct Hc as [c Hc]. wp_step. apply (wp_ccon _ c); [done|]. by wp_step.
Qed.

Lemma wp_client_connections base X a pid s : inv base X s → a ∈ dom (heap s) → wp (skel_get_client_connections a pid) (λ _ s', s' = s) s.
Proof.
  intros Hi [c Hc]%elem_of_dom. unfold skel_get_client_connections. wp_step. apply (wp_ccon a c); [done|]. cbv zeta. wp_step.
  eapply wp_mono; [apply wp_look_loop with (s := s)|].
  - intros i acc Hin%elem_of_seq. unfold fill_client_connections.
    destruct (lookup_lt_is_Some_2 (Modules s) i) as [m Hm]; [rewrite (iv_modules _ _ _ Hi); lia|].
    wp_step. apply (wp_mcon i m); [done|]. wp_step; [by wp_step|]. apply wp_look_loop. intros j acc2 Hj%elem_of_seq.
    destruct (iv_module _ _ _ Hi i m Hm) as (_ & _ & Hlen & _).
    destruct (lookup_lt_is_Some_2 (clients (Connected m)) j ltac:(lia)) as [l Hl]. wp_step. eapply wp_lift_opt; [done|]. cbv beta.
    apply wp_look_loop. intros e acc3 He. unfold fill_connection. wp_step; [by wp_step|].
    destruct (iv_lists _ _ _ Hi i j l) as [_ Hel]; [unfold lists; by rewrite Hm|]. destruct (Hel e He) as [[ce Hce]%elem_of_dom _].
    wp_step. apply (wp_ccon _ ce); [done|]. wp_step; by wp_step.
  - cbv beta. intros acc s' ->. by wp_step.
Qed.

Lemma inv_raw base X s r : inv base X s → live (r_kern r) = live (kern (tab (semas_of s))) →
  kept base X s (s <| semas_of := mk_world (mk_semas (r_kern r) (sem_list (tab (semas_of s)))) (asleep (semas_of s)) |>
                   <| hardware := r_board r |> <| user_mem := r_user r |>).
Proof.
  intros Hi Hl. assert (Hk : kept base X s (s <| semas_of := mk_world (mk_semas (r_kern r) (sem_list (tab (semas_of s)))) (asleep (semas_of s)) |>)).
  { eapply inv_sem; [done| |done]. destruct (iv_world _ _ _ Hi) as [Hw1 Hw2 Hw3 Hw4 Hw5 Hw6]. split; try done.
    change (live (r_kern r) = blocks (sem_list (tab (semas_of s))) ⊎ (owned s ⊎ base)). by rewrite Hl, Hw4. }
  destruct Hk as [[H1' H2' H3' H4' H5' H6' H7' H8' H9' H10'] Hst]. destruct s. split; split; try done; apply Hst.
Qed.

Section requests.
Variables (CDCM_LITTLE_ENDIAN : bool) (garbage : nat → Z) (COMPILE_TIME : Z).
Variable sizeof_client_link : Z.
Hypothesis plenty : ∀ n (k : K), fits (kmalloc n k).1.

Definition width_ok (riobt : SkelDrvrRawIoTransferBlock) : Prop :=
  Z.land (tr_DataWidth riobt) 0x3F = 0 ∨ 8 <= Z.land (tr_DataWidth riobt) 0x3F.

(** Requests for which the code does not divide by zero. *)
Definition request_ok (cm : request) : Prop :=
  match cm with RAW_BLOCK_READ riobt | RAW_BLOCK_WRITE riobt => width_ok riobt | _ => True end.

Lemma wp_raw_block base X i m riobt flag s : inv base X s → Modules s !! i = Some m → width_ok riobt →
  wp (raw (RawIoBlock CDCM_LITTLE_ENDIAN garbage (Spaces m) riobt flag)) (λ _ s', kept base X s s') s.
Proof.
  intros Hi Hm Hw. unfold raw. apply wp_zoom. eapply wp_mono; [apply raw_block_safe|].
  - intros n. apply plenty.
  - intros anyas Has. unfold block_width. destruct (iv_module _ _ _ Hi i m Hm) as (_ & _ & _ & Hsp).
    assert (Hin : anyas ∈ Spaces m).
    { unfold InsLibGetAddressSpace, get_addr_space in Has. destruct (find_idx _ _) as [k|]; [|done]. cbn in Has. by eapply list_elem_of_lookup_2. }
    pose proof (proj1 (list.Forall_forall _ _) Hsp anyas Hin) as Hd. cbn in Hd.
    destruct (Z.leb_spec (Z.land (tr_DataWidth riobt) 63) 0); [done|]. destruct Hw as [?|?]; [lia|].
    split; [lia|]. change 63 with (Z.ones 6). rewrite Z.land_ones by lia. pose proof (Z.mod_pos_bound (tr_DataWidth riobt) (2 ^ 6) ltac:(lia)). lia.
  - cbv beta. intros rc r Hl. by apply inv_raw.
Qed.

Lemma wp_raw_io base X spaces riob flag s : inv base X s → wp (raw (RawIo CDCM_LITTLE_ENDIAN spaces riob flag)) (λ _ s', kept base X s s') s.
Proof.
  intros Hi. unfold raw. apply wp_zoom. eapply wp_mono; [apply raw_safe|]. cbv beta. intros rc r Hr. apply inv_raw; [done|]. by rewrite Hr.
Qed.

Lemma wp_request base a c i m cm s : inv base ∅ s → heap s !! a = Some c → find_mcon s (cl_ModuleNumber c) = Some i →
  Modules s !! i = Some m → request_ok cm →
  wp (dispatch sizeof_client_link module_Semaphore msecs_to_jiffies CDCM_LITTLE_ENDIAN garbage COMPILE_TIME a (Some i) cm) (λ _ s', kept base ∅ s s') s.
Proof.
  intros Hi Hc Hf Hm Hcm. destruct (iv_heap _ _ _ Hi a c Hc) as (_ & Hq & Hfc).
  assert (Ha : a ∈ dom (heap s)) by (apply elem_of_dom; by eexists).
  assert (Hlt : (i < length (Modules s))%nat) by by eapply lookup_lt_Some.
  assert (Hupd : ∀ f (r : Z * reply), queue_ok (Queue (f c)) → is_Some (find_mcon s (cl_ModuleNumber (f c))) →
    wp (upd_ccon a f;; mret r) (λ _ s', kept base ∅ s s') s).
  { intros f r Hq' Hf'. wp_step. eapply wp_upd_ccon; [done|done|done|done|]. intros s' _ Hk. by wp_step. }
  assert (Hsame : ∀ r : Z * reply, wp (mret r) (λ _ s', kept base ∅ s s') s) by (intros r; wp_step; by apply skel_kept_refl).
  unfold dispatch. wp_step. apply (wp_ccon a c); [done|]. cbv beta zeta.
  destruct cm; try (match goal with |- wp (mret (OK, _)) _ _ => apply Hsame | |- wp (mret (- _, _)) _ _ => apply Hsame end);
    try (match goal with |- wp (mbind _ (upd_ccon _ _)) _ _ => apply Hupd; destruct c as [? ? ? [] ? ? ?]; done end);
    try (match goal with |- wp (mbind _ (lift_opt _)) _ _ => apply wp_bind; apply (wp_lift_opt (Some i) i); [done|]; cbv beta end).
  - wp_step. eapply wp_user; [done|]. intros mv b s1 _ _ Hk1. by wp_step.
  - unfold get_mcon. wp_step. wp_step. destruct (find_mcon s lav) as [k|] eqn:Hl; [|apply Hsame].
    apply Hupd; [by destruct c|]. destruct (find_mcon_some _ _ _ Hl) as (mk & _ & Hn & Hfk & _). destruct c. cbn. rewrite <- Hn. by eexists.
  - wp_step. wp_step. apply Hsame.
  - wp_step. apply (wp_mcon i m); [done|]. apply Hsame.
  - wp_step. wp_step.
    + eapply wp_mono; [by apply wp_Connect|]. cbv beta. intros [] s' [Hk _]. by wp_step.
    + wp_step.
      * eapply wp_mono; [by apply wp_DisConnectAll|]. cbv beta. intros [] s' [Hk _]. by wp_step.
      * wp_step. eapply wp_mono; [by apply wp_DisConnect|]. cbv beta. intros mask s' [Hk _]. wp_step. by wp_step.
  - wp_step. eapply wp_mono; [by eapply wp_client_list|]. cbv beta. intros l s' ->. apply Hsame.
  - wp_step. eapply wp_mono; [by eapply wp_client_connections|]. cbv beta. intros [p l] s' ->. apply Hsame.
  - wp_step. eapply wp_user; [done|]. intros u b s1 _ Hs1 Hk1. wp_step.
    eapply wp_mono; [apply wp_mcon_status; [apply Hk1|rewrite Hs1; by destruct s]|]. cbv beta. intros [] s2 Hk2. wp_step. by eapply skel_kept_trans.
  - wp_step. eapply wp_mono; [by eapply wp_Reset|]. cbv beta. intros [] s1 Hk1. by wp_step.
  - wp_step. eapply wp_user; [done|]. intros h b s1 _ Hs1 Hk1. wp_step. apply (wp_mcon i m); [rewrite Hs1; by destruct s|]. by wp_step.
  - wp_step. apply (wp_mcon i m); [done|]. wp_step. eapply wp_mono; [by eapply wp_raw_io|]. cbv beta. intros [rc r] s1 Hk1. by wp_step.
  - wp_step. apply (wp_mcon i m); [done|]. wp_step. eapply wp_mono; [by eapply wp_raw_io|]. cbv beta. intros [rc r] s1 Hk1. by wp_step.
  - wp_step. apply (wp_mcon i m); [done|]. destruct (truthy _); [|apply Hsame]. wp_step. eapply wp_user; [done|].
    intros [u v] b s1 _ _ Hk1. by wp_step.
  - wp_step. apply (wp_mcon i m); [done|]. destruct (truthy _); [|apply Hsame]. wp_step. eapply wp_user; [done|].
    intros u b s1 _ _ Hk1. by wp_step.
  - wp_step. eapply wp_mono; [by apply wp_mcon_status|]. cbv beta. intros [] s1 Hk1. wp_step.
    destruct (static_module _ _ i m (proj2 Hk1) Hm) as (m1 & Hm1 & _).
    eapply wp_upd_mcon; [apply Hk1|exact Hm1|by destruct m1|by destruct m1|by destruct m1|]. intros s2 Hk2 _ _.
    assert (Hk12 : kept base ∅ s s2) by by eapply skel_kept_trans.
    destruct (static_module _ _ i m (proj2 Hk12) Hm) as (m2 & Hm2 & _). apply lookup_lt_Some in Hm2.
    wp_step. eapply wp_mono; [apply wp_Reset; [apply Hk12|done]|]. cbv beta. intros [] s3 Hk3.
    wp_step. eapply wp_mono; [apply (wp_UnLock base ∅ i); apply Hk3|]. cbv beta. intros [] s4 Hk4. wp_step.
    eapply skel_kept_trans; [exact Hk12|]. by eapply skel_kept_trans.
  - wp_step. apply (wp_mcon i m); [done|]. wp_step. eapply wp_mono; [by eapply wp_raw_block|]. cbv beta. intros rc s1 Hk1. by wp_step.
  - wp_step. apply (wp_mcon i m); [done|]. wp_step. eapply wp_mono; [by eapply wp_raw_block|]. cbv beta. intros rc s1 Hk1. by wp_step.
  - wp_step. eapply wp_user; [done|]. intros [u arg'] b s1 _ _ Hk1. by wp_step.
Qed.
End requests.
End inv.
