(* ===== verification/SkelSpec.v ===== *)
(** The driver skeleton as a system: every history of open, close, read, write, request and
    interrupt runs to its end, and what interrupts and connections do to the clients. *)
From stdpp Require Import fin_maps fin_sets.
From S2P Require Import Prelude KernelIf CdcmSem CdcmSemaSpec SkelRaw Skel SkelProofs.

Local Open Scope Z_scope.

Section spec.
Context {K B : Type} `{KernelLaws K} `{SkelUser B} `{Mmio B}.
Implicit Types (s : skel K B) (base : gmultiset resource).

Variables sizeof_client_link sizeof_ccon offsetof_Semaphore : Z.
Variable module_Semaphore : nat → Z.
Variable msecs_to_jiffies : Z → Z.
Variables (CDCM_LITTLE_ENDIAN : bool) (garbage : nat → Z) (COMPILE_TIME : Z).

Notation run_event := (run_event sizeof_client_link sizeof_ccon offsetof_Semaphore module_Semaphore msecs_to_jiffies
  CDCM_LITTLE_ENDIAN garbage COMPILE_TIME).
Notation ioctl := (SkelDrvrIoctl sizeof_client_link module_Semaphore msecs_to_jiffies CDCM_LITTLE_ENDIAN garbage COMPILE_TIME).

(** What the kernel and the tasks can do: a task is in one call at a time and a file is closed when no call
    uses it. *)
Definition enabled s (ev : event) : Prop :=
  match ev with
  | Open _ _ | Write _ | Select _ _ => True
  | Close flp => ∀ a t timed r, file_of s flp = Some a → in_calls s !! t ≠ Some (InRead a timed, r)
  | Read t _ _ | Jtag t _ _ => in_calls s !! t = None
  | Ioctl _ cm => request_ok cm
  | Woken t rest _ => ∃ w sl, in_calls s !! t = Some (w, None) ∧ asleep (semas_of s) !! t = Some sl ∧ left_of (sl_timeout sl) rest
  | Finish t => ∃ w cc, in_calls s !! t = Some (w, Some cc)
  | Interrupt i => Z.of_nat i < InstalledModules s
  end.

Inductive history s0 : list event → skel K B → Prop :=
  | history_start : history s0 [] s0
  | history_event evs ev s s' : history s0 evs s → enabled s ev → run_event ev s = Some ((), s') → history s0 (evs ++ [ev]) s'.

(** The working area once the modules are installed: numbers are not zero, and address spaces are 8 to 64
    bits wide. *)
Record started base s : Prop := {
  st_modules : length (Modules s) = Z.to_nat SkelDrvrMODULE_CONTEXTS;
  st_installed : 0 < InstalledModules s <= SkelDrvrMODULE_CONTEXTS;
  st_module : Forall (λ m, is_u32 (ModuleNumber m) ∧ clients (Connected m) = replicate SkelDrvrINTERRUPTS [] ∧
    Forall (λ a, 8 <= s32 (DataWidth a) <= 64) (Spaces m)) (Modules s);
  st_numbers : Forall (λ m, ModuleNumber m ≠ 0) (take (Z.to_nat (InstalledModules s)) (Modules s));
  st_clients : wa_clients s = [];
  st_heap : heap s = ∅;
  st_semas : ∃ k, semas_of s = world_init k ∧ live k = base;
  st_calls : in_calls s = ∅
}.

Lemma no_blocks (l : list (list client_link)) : Forall (λ x, x = []) l → msum list_blocks l = ∅.
Proof.
  induction 1 as [|x l -> _ IH]; [done|]. rewrite msum_cons, IH. unfold list_blocks. change (msum link_block []) with (∅ : gmultiset resource). clear. multiset_solver.
Qed.

(** No list of a module has a client: nothing is held for it. *)
Lemma no_module_blocks s : (∀ i j l, lists s i j = Some l → l = []) → msum module_blocks (Modules s) = ∅.
Proof.
  intros Hl. assert (Hgo : ∀ ms, (∀ m, m ∈ ms → Forall (λ x, x = []) (clients (Connected m))) → msum module_blocks ms = ∅).
  { induction ms as [|m ms IH]; intros Hms; [done|]. rewrite msum_cons, IH by (intros x Hx; apply Hms; by right).
    unfold module_blocks. rewrite no_blocks by (apply Hms; by left). clear. multiset_solver. }
  apply Hgo. intros m [i Hm]%list_elem_of_lookup. apply Forall_lookup. intros j l Hj. apply (Hl i j). unfold lists. by rewrite Hm.
Qed.

Lemma owned_none s : heap s = ∅ → wa_clients s = [] → (∀ i j l, lists s i j = Some l → l = []) → owned s = ∅.
Proof.
  intros Hh Hw Hl. unfold owned. rewrite Hh, Hw, (no_module_blocks s Hl). unfold heap_blocks, list_blocks.
  rewrite dom_empty_L, elements_empty. change (msum _ []) with (∅ : gmultiset resource). clear. multiset_solver.
Qed.

Lemma started_inv base s : started base s → inv base ∅ s.
Proof.
  intros [H1' H2' H3' H4' H5' H6' (k & H7' & H8') H9'].
  assert (Hl : ∀ i j l, lists s i j = Some l → l = []).
  { intros i j l Hl. unfold lists in Hl. destruct (Modules s !! i) as [m|] eqn:Hm; [|done]. cbn in Hl.
    rewrite Forall_lookup in H3'. destruct (H3' i m Hm) as (_ & Hc & _). rewrite Hc in Hl. by apply lookup_replicate in Hl as [-> _]. }
  split; try done.
  - intros i m Hm. rewrite Forall_lookup in H3', H4'. destruct (H3' i m Hm) as (Hu & Hc & Hs). split; [done|]. split; [|by rewrite Hc, length_replicate].
    intros Hi. apply (H4' i). rewrite lookup_take_lt; [done|lia].
  - intros i m j l _ Hj. by apply Hl in Hj.
  - intros i j l ->%Hl. split; [constructor|]. intros e He. by apply not_elem_of_nil in He.
  - rewrite H5', H6'. split; [constructor|]. split; [by rewrite dom_empty_L|]. split; [done|]. intros e He. by apply not_elem_of_nil in He.
  - rewrite H6'. intros a c Ha. by rewrite lookup_empty in Ha.
  - rewrite owned_none, (left_id_L ∅ (⊎)), H7', <- H8' by done. apply world_init_ok.
  - rewrite H9'. intros t w r Ht. by rewrite lookup_empty in Ht.
  - rewrite H7'. intros t [x Ht]. exact (False_ind _ (lookup_empty_Some t x Ht)).
Qed.

(** Without clients nobody is connected. *)
Lemma no_clients base s : inv base ∅ s → wa_clients s = [] → owned s = ∅.
Proof.
  intros Hi Hw. assert (Hd : dom (heap s) = ∅) by (destruct (iv_clients _ _ _ Hi) as (_ & -> & _); by rewrite Hw, (right_id_L ∅ (∪))).
  apply owned_none; [by apply dom_empty_iff_L|done|]. intros i j [|e l] Hl; [done|].
  destruct (iv_lists _ _ _ Hi i j _ Hl) as [_ Hel]. destruct (Hel e ltac:(by left)) as [He _]. rewrite Hd in He. by apply not_elem_of_empty in He.
Qed.

(** * Calls that wait *)

Definition sleeps_if (t : nat) (r : option Z) (sl sl' : gmap nat sleeper) : Prop :=
  match r with Some _ => sl' = delete t sl | None => ∃ x, sl' = <[t := x]> sl end.

(** The task [t] is in a call, with the result of the wait if it is over. *)
Lemma inv_call base s t w r w' : inv base ∅ s → world_ok (owned s ⊎ base) w' → sleeps_if t r (asleep (semas_of s)) (asleep w') →
  match w with InRead a _ => a ∈ dom (heap s) | InJtagOpen i => (i < length (Modules s))%nat end →
  inv base ∅ ((s <| semas_of := w' |>) <| in_calls := <[t := (w, r)]> (in_calls s) |>).
Proof.
  intros [H1' H2' H3' H4' H5' H6' H7' H8' H9' H10'] Hw Hsl Hok. destruct s as [ms n wc h w0 ic b u]. cbn in *. split; cbn; try done.
  - intros t' x r' [[<- [= <- <-]]|[_ Ht']]%lookup_insert_Some; [done|by eapply H9'].
  - intros t' Ht'. destruct (decide (t' = t)) as [->|Hne].
    + rewrite lookup_insert_eq. exists w. destruct r as [v|]; [|done]. cbn [sleeps_if] in Hsl. rewrite Hsl, lookup_delete_eq in Ht'. by destruct Ht'.
    + rewrite lookup_insert_ne by done. apply H10'. destruct r as [v|]; cbn [sleeps_if] in Hsl.
      * by rewrite Hsl, lookup_delete_ne in Ht'.
      * destruct Hsl as [x Hsl]. by rewrite Hsl, lookup_insert_ne in Ht'.
Qed.

(** A call of the task [t] that may wait. *)
Definition waits (c : call) (t : nat) : Prop :=
  match c with CSwait t' _ _ _ | CTswait t' _ _ _ _ | CResume t' _ _ => t' = t | _ => False end.

Lemma wp_sem_wait base c t w (Q : option Z → skel K B → Prop) s : inv base ∅ s → waits c t → call_enabled c (semas_of s) →
  match w with InRead a _ => a ∈ dom (heap s) | InJtagOpen i => (i < length (Modules s))%nat end →
  (∀ r w', inv base ∅ ((s <| semas_of := w' |>) <| in_calls := <[t := (w, r)]> (in_calls s) |>) → Q r (s <| semas_of := w' |>)) →
  wp (sem_call msecs_to_jiffies c) Q s.
Proof.
  intros Hi Hc Hen Hw HQ. unfold sem_call. apply wp_zoom, wp_run. pose proof (iv_world _ _ _ Hi) as Hok.
  destruct (call_user_exists _ _ _ Hok Hen) as [u Hu].
  pose proof (call_runs msecs_to_jiffies (λ _, 0) (owned s ⊎ base) c u (semas_of s) Hok Hen Hu) as Hrun.
  apply wp_run in Hrun as (r & w' & E & Hd). exists r, w'. split; [done|]. apply HQ.
  apply inv_call; [done|exact (cd_ok _ _ _ _ _ _ _ _ Hd)| |done].
  apply run_call_asleep in E. by destruct c; cbn [waits] in Hc; subst.
Qed.

Lemma not_asleep base s t : inv base ∅ s → in_calls s !! t = None → asleep (semas_of s) !! t = None.
Proof.
  intros Hi Ht. destruct (asleep (semas_of s) !! t) as [x|] eqn:E; [|done]. destruct (iv_asleep _ _ _ Hi t ltac:(by eexists)) as [w Hw]. congruence.
Qed.

Lemma wp_read base t flp pending s : inv base ∅ s → in_calls s !! t = None →
  wp (SkelDrvrRead offsetof_Semaphore msecs_to_jiffies t flp pending) (λ _ s', inv base ∅ s') s.
Proof.
  intros Hi Ht. unfold SkelDrvrRead. wp_step. apply (wp_get_ccon base ∅); [done| |by intros _; wp_step].
  intros a c _ _ Hc. wp_step. apply (wp_ccon a c); [done|]. wp_step.
  apply (wp_mono _ (λ _ s', kept base ∅ s s')).
  { destruct (truthy _); [|wp_step; by apply skel_kept_refl]. eapply wp_mono; [by apply (wp_reset_queue _ _ base ∅ a c)|]. by intros _ s' [Hk _]. }
  cbv beta. intros [] s1 [Hi1 Hs1]. rewrite <- (sta_calls _ _ Hs1) in Ht. wp_step.
  apply (wp_sem_wait base _ t (InRead a (truthy (cl_Timeout c)))); [done|by destruct (truthy _)| | |].
  - destruct (truthy _); by eapply not_asleep.
  - rewrite (sta_heap _ _ Hs1). apply elem_of_dom. by eexists.
  - intros r w' Hi2. wp_steps. by destruct s1.
Qed.

Lemma wp_jtag base t flp pending s : inv base ∅ s → in_calls s !! t = None →
  wp (JtagOpen module_Semaphore msecs_to_jiffies t flp pending) (λ _ s', inv base ∅ s') s.
Proof.
  intros Hi Ht. unfold JtagOpen, get_mcon. wp_step. apply (wp_get_ccon base ∅); [done| |by intros _; wp_step].
  intros a c _ _ Hc. wp_step. apply (wp_ccon a c); [done|]. wp_step. wp_step. wp_step.
  destruct (iv_heap _ _ _ Hi a c Hc) as (_ & _ & i & Hf). eapply wp_lift_opt; [exact Hf|]. wp_step.
  apply (wp_sem_wait base _ t (InJtagOpen i)); [done|done|by eapply not_asleep| |].
  - destruct (find_mcon_some _ _ _ Hf) as (m & Hm & _). by eapply lookup_lt_Some.
  - intros r w' Hi2. wp_steps. by destruct s.
Qed.

Lemma wp_woken base t rest pending s : inv base ∅ s → enabled s (Woken t rest pending) →
  wp (run_event (Woken t rest pending)) (λ _ s', inv base ∅ s') s.
Proof.
  intros Hi (w & sl & Ht & Hsl & Hl). cbn [Skel.run_event]. wp_step. wp_step. wp_step. eapply wp_lift_opt; [exact Ht|]. wp_step.
  apply (wp_sem_wait base _ t w); [done|done|by exists sl|exact (iv_calls _ _ _ Hi t w None Ht)|].
  intros r w' Hi2. wp_step. by destruct s.
Qed.

(** The call of a task is over. *)
Lemma inv_over base s t w v : inv base ∅ s → in_calls s !! t = Some (w, Some v) → inv base ∅ (s <| in_calls := delete t (in_calls s) |>).
Proof.
  intros [H1' H2' H3' H4' H5' H6' H7' H8' H9' H10'] Ht. destruct s as [ms n wc h w0 ic b u]. cbn in *. split; cbn; try done.
  - intros t' x r' [_ Ht']%lookup_delete_Some. by eapply H9'.
  - intros t' Ht'. destruct (H10' t' Ht') as [x Hx]. exists x. rewrite lookup_delete_ne; [done|]. intros <-. congruence.
Qed.

Lemma wp_call_over base t s : inv base ∅ s → enabled s (Finish t) → wp (run_event (Finish t)) (λ _ s', inv base ∅ s') s.
Proof.
  intros Hi (w & v & Ht). cbn [Skel.run_event]. wp_step. wp_step. wp_step. eapply wp_lift_opt; [exact Ht|]. wp_step. eapply wp_lift_opt; [done|].
  cbn [fst]. wp_step. apply (wp_mono _ (λ _ s', kept base ∅ s s')).
  - pose proof (iv_calls _ _ _ Hi t w _ Ht) as Hw. destruct w as [a timed|i].
    + wp_step. eapply wp_mono; [by apply (wp_read_end base ∅)|]. cbv beta. intros _ s1 Hk. by wp_step.
    + unfold JtagOpen_end. wp_step. wp_step; [wp_step; by apply skel_kept_refl|]. wp_step.
      eapply wp_mono; [by apply (wp_mcon_status base ∅)|]. cbv beta. intros _ s1 Hk. by wp_step.
  - cbv beta. intros _ s1 [Hi1 Hs1]. wp_step. eapply inv_over; [done|]. by rewrite (sta_calls _ _ Hs1).
Qed.

(** * What an interrupt and a connection do *)

Lemma land_bit x j : Z.land x (bit j) = if Z.testbit x (Z.of_nat j) then bit j else 0.
Proof.
  unfold bit. rewrite Z.shiftl_1_l. apply Z.bits_inj'. intros k Hk. rewrite Z.land_spec, Z.pow2_bits_eqb by lia.
  destruct (Z.eqb_spec (Z.of_nat j) k) as [->|Hne].
  - rewrite andb_true_r. destruct (Z.testbit x k); [by rewrite Z.pow2_bits_true|by rewrite Z.bits_0].
  - rewrite andb_false_r. destruct (Z.testbit x (Z.of_nat j)); [by rewrite Z.pow2_bits_false|by rewrite Z.bits_0].
Qed.

#[global] Instance connected_dec s i j a : Decision (connected s i j a).
Proof.
  destruct (lists s i j) as [l|] eqn:E; [destruct (decide (a ∈ context <$> l)) as [Ha|Ha]|].
  - left. by exists l.
  - right. intros (l' & El & Ha'). congruence.
  - right. intros (l' & El & _). congruence.
Defined.

(** The entries of a client for the interrupts [imask] of module [i], whose number is [n]. *)
Definition interrupt_entries (n : Z) (tm : SkelDrvrTime) (imask : Z) s (i : nat) (a : Z) : list SkelDrvrReadBuf :=
  (λ j, mk_read_buf (mk_connection n (bit j)) tm) <$>
    filter (λ j, Z.testbit imask (Z.of_nat j) = true ∧ connected s i j a) (seq 0 SkelDrvrINTERRUPTS).

Lemma entries_for_eq n tm imask s i a :
  entries_for (mk_read_buf (mk_connection n 0) tm) imask s i a = interrupt_entries n tm imask s i a.
Proof.
  unfold entries_for, interrupt_entries. induction (seq 0 SkelDrvrINTERRUPTS) as [|j js IH]; [done|].
  cbn [mbind list_bind]. rewrite IH, filter_cons. unfold interrupt_entry, once. rewrite (truthy_bit imask (Z.of_nat j) ltac:(lia) : truthy (Z.land imask (bit j)) = _), land_bit.
  destruct (decide (Z.testbit imask (Z.of_nat j) = true ∧ connected s i j a)) as [[Hb (l & El & Ha)]|Hn].
  - rewrite El, Hb, decide_True by done. done.
  - destruct (lists s i j) as [l|] eqn:El; [|done]. destruct (Z.testbit imask (Z.of_nat j)); [|done].
    rewrite decide_False; [done|]. intros Ha. apply Hn. split; [done|]. by exists l.
Qed.

Lemma no_entries n tm s i a : interrupt_entries n tm 0 s i a = [].
Proof. unfold interrupt_entries. induction (seq 0 SkelDrvrINTERRUPTS) as [|j js IH]; [done|]. rewrite filter_cons, decide_False; [done|]. rewrite Z.bits_0. by intros [? _]. Qed.

Section kernel.
(** The machine has memory. *)
Hypothesis plenty : ∀ n (k : K), fits (kmalloc n k).1.

Lemma wp_ioctl base flp cm s : inv base ∅ s → request_ok cm → wp (ioctl flp cm) (λ _ s', inv base ∅ s') s.
Proof.
  intros Hi Hcm. unfold SkelDrvrIoctl, get_mcon. wp_step. apply (wp_get_ccon base ∅); [done| |by intros _; wp_step].
  intros a c _ _ Hc. wp_step. apply (wp_ccon a c); [done|]. wp_step. wp_step.
  destruct (iv_heap _ _ _ Hi a c Hc) as (_ & _ & i & Hf). rewrite Hf. destruct (find_mcon_some _ _ _ Hf) as (m & Hm & _).
  eapply wp_mono; [by eapply wp_request|]. by intros r s' [Hk _].
Qed.

Lemma wp_event base ev s : inv base ∅ s → enabled s ev → wp (run_event ev) (λ _ s', inv base ∅ s') s.
Proof.
  intros Hi Hen. destruct ev as [flp pid|flp|t flp pending|conx|flp wch|flp cm|t flp pending|t rest pending|t|i].
  8: by apply wp_woken.
  8: by apply wp_call_over.
  all: cbn [Skel.run_event]; wp_step.
  - eapply wp_mono; [by apply wp_open|]. cbv beta. intros _ s1 [Hi1 _]. by wp_step.
  - eapply wp_mono; [by apply wp_close|]. cbv beta. intros _ s1 [Hi1 _]. by wp_step.
  - eapply wp_mono; [by apply wp_read|]. cbv beta. intros _ s1 Hi1. by wp_step.
  - eapply wp_mono; [by apply wp_SkelDrvrWrite|]. cbv beta. intros _ s1 [Hi1 _]. by wp_step.
  - unfold SkelDrvrSelect. wp_step. apply (wp_get_ccon base ∅); [done| |by intros _; wp_steps]. intros a c _ _ _. by wp_steps.
  - eapply wp_mono; [by apply wp_ioctl|]. cbv beta. intros _ s1 Hi1. by wp_step.
  - eapply wp_mono; [by apply wp_jtag|]. cbv beta. intros _ s1 Hi1. by wp_step.
  - destruct (lookup_lt_is_Some_2 (Modules s) i) as [m Hm]; [rewrite (iv_modules _ _ _ Hi); pose proof (iv_installed _ _ _ Hi); cbn [enabled] in Hen; lia|].
    eapply wp_mono; [by apply (wp_interrupt _ _ base ∅ i m)|]. cbv beta. intros _ s1 Hd. wp_step.
    destruct (SkelUserGetInterruptSource i (hardware s)) as [[tm imask] b']. apply Hd.
Qed.

Lemma history_inv base s0 evs s : started base s0 → history s0 evs s → inv base ∅ s.
Proof.
  intros H0' Hh. induction Hh as [|evs ev s s' _ IH Hen E]; [by apply started_inv|].
  pose proof (wp_event base ev s IH Hen) as Hw. unfold wp in Hw. by rewrite E in Hw.
Qed.
Lemma connect_request base flp a c conx s : inv base ∅ s → file_of s flp = Some a → heap s !! a = Some c →
  wp (ioctl flp (CONNECT conx)) (λ r s', r = (OK, RNone) ∧ ∀ i j b, connected s' i j b ↔
    if ConMask conx =? 0
    then connected s i j b ∧ ¬ (b = a ∧ (conx_Module conx = 0 ∨ find_mcon s (conx_Module conx) = Some i))
    else connected s i j b ∨ (b = a ∧ find_mcon s (target c conx) = Some i ∧ bit_of (ConMask conx) j)) s.
Proof.
  intros Hi Hf Hc. unfold SkelDrvrIoctl, get_mcon. wp_step. apply (wp_get_ccon base ∅); [done| |congruence].
  intros a' c' Hf' _ _. assert (a' = a) as -> by congruence. wp_step. apply (wp_ccon a c); [done|]. wp_step. wp_step.
  unfold dispatch. wp_step. apply (wp_ccon a c); [done|]. cbv beta zeta iota. wp_step. unfold truthy.
  destruct (Z.eqb_spec (ConMask conx) 0) as [E|E]; cbn [negb].
  - destruct (Z.eqb_spec (conx_Module conx) 0) as [En|En].
    + eapply wp_mono; [apply (wp_DisConnectAll msecs_to_jiffies base ∅ a); [done|apply elem_of_dom; by eexists]|]. cbv beta. intros [] s' [_ Hcs].
      wp_step. split; [done|]. intros i j b. rewrite Hcs. naive_solver.
    + wp_step. eapply wp_mono; [by apply (wp_DisConnect msecs_to_jiffies base ∅ a c)|]. cbv beta. intros mask s' (_ & _ & Hcs).
      wp_step. wp_step. split; [done|]. intros i j b. rewrite Hcs. unfold target, leaves. rewrite E, (proj2 (Z.eqb_neq _ 0) En). cbn [Z.eqb].
      split; [|naive_solver]. intros [Hb Hne]. split; [done|]. intros (-> & [?|Hm]); [done|]. apply Hne. split; [done|]. split; [|done].
      destruct (connected_installed _ _ _ _ _ _ Hi Hb) as (_ & _ & _ & Hj & _). by apply full_mask.
  - eapply wp_mono; [by apply (wp_Connect msecs_to_jiffies _ base ∅ a c)|]. cbv beta. intros [] s' [_ Hcs].
    wp_step. split; [done|]. intros i j b. rewrite Hcs. naive_solver.
Qed.

(** * The guarantees *)



End kernel.
End spec.

(** * Without memory

    [sysbrk] returns an error code where its callers expect NULL: opening a file writes to it. *)
Section no_memory.
Context {K B : Type} `{Kernel K} `{SkelUser B} `{Mmio B}.
Variables sizeof_client_link sizeof_ccon offsetof_Semaphore : Z.
Variable msecs_to_jiffies : Z → Z.

(** When there is no memory for the context of a client, opening does not fail with [ENOMEM] as it is meant to: the driver
    initialises a context at the error code that the allocation returned. *)
Theorem open_without_memory (s : skel K B) flp pid k :
  kmalloc (sizeof_ccon + sizeof_cdcm_mem_header) (kern (tab (semas_of s))) = (0, k) →
  SkelDrvrOpen sizeof_client_link sizeof_ccon offsetof_Semaphore msecs_to_jiffies flp pid s = None.
Proof. intros E. unfold SkelDrvrOpen, skel_sysbrk, with_kernel, sysbrk, mbind, M_bind, gets. rewrite E. reflexivity. Qed.
End no_memory.

(** * An example

    A machine with memory, and a driver without functions of its own but with an interrupt source. *)
Module Example_skel.
Import SimKernel.

Record plenty_kernel := mk_plenty { sim : kernel }.

(** The next address above everything held that is no error code. *)
Definition plenty_addr (k : kernel) : Z :=
  let a := top (held k) + 1 in if (2 ^ 64 - 5000 <? a) && (a <? 2 ^ 64) then 2 ^ 64 else a.

Definition on_sim {A} (f : kernel → A * kernel) (k : plenty_kernel) : A * plenty_kernel := let '(a, k) := f (sim k) in (a, mk_plenty k).

#[global] Instance plenty_is_kernel : Kernel plenty_kernel := {
  signal_pending := on_sim signal_pending;
  kmalloc _ k := (plenty_addr (sim k), mk_plenty (mk_kernel (script (sim k)) (Block (plenty_addr (sim k)) :: held (sim k))));
  kfree a k := mk_plenty (kfree a (sim k));
  pci_bus_alloc_resource n := on_sim (pci_bus_alloc_resource n);
  release_resource a b k := mk_plenty (release_resource a b (sim k));
  ioremap a n := on_sim (ioremap a n);
  iounmap a k := mk_plenty (iounmap a (sim k));
  user_fault := on_sim user_fault;
  io_remap_pfn_range a n := on_sim (io_remap_pfn_range a n);
}.

Lemma plenty_above k : top (held k) < plenty_addr k.
Proof. unfold plenty_addr. destruct (Z.ltb_spec (2 ^ 64 - 5000) (top (held k) + 1)), (Z.ltb_spec (top (held k) + 1) (2 ^ 64)); cbn [andb]; lia. Qed.

#[global] Instance plenty_kernel_laws : KernelLaws plenty_kernel.
Proof.
  refine {| live k := live (sim k) |}; intros; cbn [kmalloc kfree signal_pending pci_bus_alloc_resource release_resource ioremap iounmap
    user_fault io_remap_pfn_range plenty_is_kernel sim fst snd]; unfold on_sim.
  - pose proof (signal_pending_live (sim k)) as Hl. by destruct (signal_pending (sim k)).
  - pose proof (user_fault_live (sim k)) as Hl. by destruct (user_fault (sim k)).
  - pose proof (io_remap_live a n (sim k)) as Hl. by destruct (io_remap_pfn_range a n (sim k)).
  - right. pose proof (plenty_above (sim k)) as Ha. pose proof (top_nonneg (held (sim k))). split; [lia|]. split; [|done].
    intros Hin%elem_of_list_to_set_disj%top_ge. cbn [addr_of] in Hin. lia.
  - apply kfree_live.
  - pose proof (alloc_resource_live n (sim k)) as Hl. by destruct (pci_bus_alloc_resource n (sim k)) as [[rc st] k'].
  - apply release_resource_live.
  - pose proof (ioremap_live a n (sim k)) as Hl. by destruct (ioremap a n (sim k)).
  - apply iounmap_live.
Defined.

Lemma plenty_fits n (k : plenty_kernel) : fits (kmalloc n k).1.
Proof.
  cbn [kmalloc plenty_is_kernel fst]. pose proof (plenty_above (sim k)) as Ha. pose proof (top_nonneg (held (sim k))). split; [lia|].
  unfold IS_ERR, sizeof_cdcm_mem_header, plenty_addr in *. change (u64 (- 4095)) with (2 ^ 64 - 4095).
  destruct (Z.ltb_spec (2 ^ 64 - 5000) (top (held (sim k)) + 1)), (Z.ltb_spec (top (held (sim k)) + 1) (2 ^ 64)); cbn [andb] in *;
    apply andb_false_iff; rewrite Z.leb_gt, Z.ltb_ge; lia.
Qed.

Record example_board := mk_board { card : Registers.card; pending_interrupts : Z }.

#[global] Instance example_mmio : Mmio example_board := {
  ioread w a b := let '(v, c) := ioread w a (card b) in (v, mk_board c (pending_interrupts b));
  iowrite w v a b := mk_board (iowrite w v a (card b)) (pending_interrupts b);
}.

(** The functions of [src/nulldrvr/driver], and interrupts of the board that are read once. *)
#[global] Instance example_user : SkelUser example_board := {
  SkelUserGetModuleVersion _ b := ([], b);
  SkelUserGetHardwareStatus _ b := (0, b);
  SkelUserGetUtc _ b := (mk_time 12 0, b);
  SkelUserHardwareReset _ b := b;
  SkelUserGetInterruptSource _ b := (mk_time 34 0, pending_interrupts b, mk_board (card b) 0);
  SkelUserEnableInterrupts _ _ b := b;
  SkelUserHardwareEnable _ _ b := (SkelUserReturnNOT_IMPLEMENTED, b);
  SkelUserJtagReadByte _ b := (SkelUserReturnNOT_IMPLEMENTED, 0, b);
  SkelUserJtagWriteByte _ _ b := (SkelUserReturnNOT_IMPLEMENTED, b);
  SkelUserClientInit _ b := (SkelUserReturnOK, b);
  SkelUserClientRelease _ b := b;
  SkelUserIoctls _ _ _ arg b := (SkelUserReturnNOT_IMPLEMENTED, arg, b);
}.

Definition board_module (n : Z) : SkelDrvrModuleContext :=
  mk_module n 1 Registers.spaces (mk_modconn (replicate SkelDrvrINTERRUPTS []) 0) 0 0.

(** Two modules, with interrupts 0, 1 and 2 of the first one pending. *)
Definition start : skel plenty_kernel example_board :=
  mk_skel ([board_module 1; board_module 2] ++ replicate 6 (board_module 0)) 2 [] ∅ (world_init (mk_plenty boot)) ∅
    (mk_board Registers.card0 7) ∅.

Notation step := (run_event 24 400 32 (λ i, 0x1000 + Z.of_nat i) id true (λ _, 0) 0).
Notation past := (history 24 400 32 (λ i, 0x1000 + Z.of_nat i) id true (λ _, 0) 0).

Fixpoint run_all (evs : list event) (s : skel plenty_kernel example_board) : option (skel plenty_kernel example_board) :=
  match evs with [] => Some s | ev :: evs => '(_, s) ← step ev s; run_all evs s end.

Fixpoint all_enabled (evs : list event) (s : skel plenty_kernel example_board) : Prop :=
  match evs with
  | [] => True
  | ev :: evs => enabled s ev ∧ match step ev s with Some (_, s) => all_enabled evs s | None => False end
  end.

Lemma run_history s0 evs : ∀ done s, past s0 done s → all_enabled evs s → ∃ s', run_all evs s = Some s' ∧ past s0 (done ++ evs) s'.
Proof.
  induction evs as [|ev evs IH]; intros dn s Hd Ha; [exists s; by rewrite app_nil_r|]. destruct Ha as [Hen Ha].
  cbn [run_all]. destruct (step ev s) as [[[] s1]|] eqn:E; [|done].
  destruct (IH (dn ++ [ev]) s1) as (s2 & E2 & H2); [by eapply history_event|done|]. exists s2. split; [exact E2|].
  by rewrite <- app_assoc in H2.
Qed.

(** Two clients: one takes interrupts 0 and 2 of module 1, the other 2 of its own module, which is the same. *)
Definition opening : list event :=
  [Open 100 7; Open 200 8; Ioctl 100 (CONNECT (mk_connection 1 5)); Ioctl 200 (CONNECT (mk_connection 0 4))].
Definition serving : list event := opening ++ [Interrupt 0; Read 1 100 false; Finish 1; Close 100; Ioctl 200 (CONNECT (mk_connection 0 0)); Close 200].

Lemma start_started : started ∅ start.
Proof.
  split; try done.
  - apply list.Forall_forall. intros m Hm. assert (Hn : m = board_module 1 ∨ m = board_module 2 ∨ m = board_module 0).
    { apply elem_of_app in Hm as [Hm|Hm]; [|apply elem_of_replicate in Hm; tauto]. apply list.elem_of_cons in Hm as [->|Hm]; [by left|].
      apply list_elem_of_singleton in Hm as ->. tauto. }
    destruct Hn as [-> |[-> | ->]]; (split; [split; done|]; split; [done|]; repeat constructor; done).
  - repeat constructor; done.
  - by exists (mk_plenty boot).
Qed.

Lemma serving_enabled : all_enabled serving start.
Proof. vm_compute. repeat split; try (intros; discriminate); by do 2 eexists. Qed.
End Example_skel.

Import Example_skel.


(** The state after [opening], its first module and its clients. *)
Definition opened : skel plenty_kernel example_board := default start (run_all opening start).

Lemma opening_history : past start opening opened.
Proof.
  destruct (run_history start opening [] start ltac:(constructor)) as (s & E & Hh); [vm_compute; repeat split|].
  unfold opened. rewrite E. exact Hh.
Qed.

Definition module1 : SkelDrvrModuleContext := default (board_module 0) (Modules opened !! 0%nat).
Definition client1 : SkelDrvrClientContext := default (mk_client 0 0 0 zero_queue 0 0 0) (heap opened !! 17).
Definition client2 : SkelDrvrClientContext := default (mk_client 0 0 0 zero_queue 0 0 0) (heap opened !! 20).

Lemma opened_queues : queue_holds (Queue client1) [] ∧ queue_holds (Queue client2) [].
Proof. split; (split; [done|]; split; [by apply ring_empty|done]). Qed.



Lemma open_without_memory_witness :
  SkelDrvrOpen (B := example_board) 24 400 32 id 100 7 (mk_skel (K := SimKernel.kernel) (Modules start) 2 [] ∅ (world_init (SimKernel.mk_kernel [true] [])) ∅ (hardware start) ∅) = None.
Proof. eapply open_without_memory. vm_compute. reflexivity. Defined.
